(* ===== verification/_CoqProject ===== *)
-Q . S2P
Prelude.v
Pmm.v
PmmFacts.v
PmmProps.v
FrameAlloc.v
PageCache.v
PageCacheFacts.v
PageCacheProps.v
RunQueue.v
Task.v
Rlimit.v
JobControl.v
Scheduler.v
SchedulerFacts.v
SchedulerProps.v
JobOps.v
SelfModel.v
Vmm.v
VmmFacts.v
VmmProps.v
VmmFork.v
Kring.v
HotMap.v
TablesProps.v
Users.v
Ramfs.v
Vfs.v
VfsProps.v
UserOps.v
Bytes.v
Sha1.v
Sha1Facts.v
Sha1Props.v
Aes.v
AesFacts.v
AesProps.v
NetWire.v
NetWireFacts.v
NetProto.v
Tcp.v
NetWireProps.v
NetState.v
Net.v
NetFacts.v
TcpProps.v
NetProps.v
NetLive.v
Wifi.v
WifiProps.v
F32.v
Anomaly.v
Security.v
Namespaces.v
SemGate.v
Ptrace.v
SysState.v
SysFd.v
SysFdFacts.v
SysFdProps.v
SysProc.v
SysProcProps.v
SysNet.v
SocketNet.v
SysNetProps.v
Elf.v
Reloc.v
Modules.v
ElfProps.v
RelocProps.v
SysMem.v
SysMemProps.v
SysExec.v
SysExecProps.v
Slab.v
Identity.v
Entropy.v
BlockDev.v
Swarm.v
Storage.v
Debugger.v
