(* ===== verification/Prelude.v ===== *)
(** * NodeAI kernel: a verification development

    NodeAI is an operating-system kernel in Rust ([src/kernel]) that feeds learned
    predictions into otherwise conventional subsystems. This library models the
    conventional core, function by function, and proves what it promises and
    where it breaks its promises.

    ** The program and its parts

    - Physical memory: [memory/pmm.rs], a buddy allocator whose free lists are
      linked through the free frames themselves. Everything that owns memory
      calls it.
    - Virtual memory: [memory/vmm.rs], four-level page tables, copy-on-write
      sharing for fork, protection changes, reclaim; [memory/self_model.rs] sets
      frames aside before predicted bursts.
    - Page cache: [page_cache.rs], file pages in frames, with FIFO eviction and
      write-back.
    - Scheduler: [scheduler/mod.rs], [runqueue.rs] and [task.rs]: the timer
      handler that switches tasks, sleep and wake, signals, fork, threads, exit
      and reaping. It calls the resource-limit table ([rlimit.rs]) and the
      process-group tables ([job_control.rs]), and job control calls it back.
    - Files: [vfs/ramfs.rs], [vfs/path.rs] and [vfs/mod.rs]: nodes and handles,
      mounts and path walks, permission checks, whole-file reads through the page
      cache. Directories keep their children in the self-sharding map of
      [hot_lock.rs].
    - Users: [users.rs], accounts, passwords, sudo and the files under /etc. Node
      creation and permission checks ask it who is calling; it asks the
      scheduler which task is current.
    - The kernel log ring: [kring.rs].
    - Network: [net.rs] (Ethernet, ARP, IPv4, ICMP, UDP, DHCP, DNS, the TCP state
      machine and its socket interface), which sends through the network card or,
      when Wi-Fi is up, through [wifi/mod.rs].
    - Wi-Fi: [wifi/ar9271.rs] (scan, association, the WPA2 four-way handshake,
      protected data frames) on [wifi/crypto.rs] (SHA-1, HMAC, PBKDF2, the key
      derivation, AES-128, CMAC, CCMP).
    - System calls: [syscall/mod.rs]. Every call first passes a gate that consults
      the anomaly detector ([anomaly.rs]), the behavioural namespaces
      ([namespaces.rs]), the capabilities ([security.rs]), the tracer ([ptrace.rs])
      and seccomp; then it acts on descriptors, pipes, signals, futexes and the
      tables above; on the way back pending signals are delivered. Opening a file
      also asks the semantic gate ([semantic_gate.rs]) and, for isolated processes,
      the path fuzzer ([fuzzer.rs]). Memory maps are tables of regions; the
      page-fault handler ([interrupts/mod.rs]) gives them frames and, for files,
      pages from the page cache.
    - Programs and modules: [elf.rs] parses executables and shared objects, loads
      them into the address space execve made, and relocates kernel modules for
      [modules.rs], which scores them first.
    - Small objects: [memory/slab.rs], caches of fixed-size objects carved out of
      frames. Randomness: [entropy.rs], the pool behind the random device.
    - Block devices: [vfs/blockdev.rs], files over the sectors of the drives.
    - The persistent identity: [consciousness/self_model.rs] keeps a record across
      boots in two files, the second a code of the first made by [quantum_ecc.rs];
      [quantum.rs] guards seven bits of it in memory. [persistence.rs] keeps the
      conversation memory ([lm_memory.rs]) and what the learned parts export.
    - Packages: [pkg.rs], archives unpacked into the file system and a database of
      what is installed. Debugging: [kadb.rs], breakpoints in the debug registers
      and in the code.
    - The swarm: [swarm_consensus.rs], [swarm_gossip.rs] and [swarm_identity.rs],
      the logs and tables of a network of nodes that is still simulated.

    ** Files of this library

    - [Prelude]: results of kernel code ([res]: a value, a panic, or a bounded
      loop that ran out of iterations) with the notation [let! x := r in k],
      machine words, [BTreeMap] iteration order, bit lemmas.
    - [Pmm], [PmmFacts], [PmmProps]: the buddy allocator. State: list heads,
      counters, and the memory that holds the links. [rep s fl] says that state
      [s] represents the free lists [fl].
    - [FrameAlloc]: the class [FrameAllocator], what the allocator promises its
      clients (frames are handed out once and are never 0), with the buddy
      allocator as instance. Page cache, reserve and virtual memory are proved
      against the class.
    - [PageCache], [PageCacheFacts], [PageCacheProps].
    - [RunQueue], [Task], [Rlimit], [JobControl], [Scheduler]: one file per source
      file; [Kernel] is the record of the global tables and every function is a
      function on it. [SchedulerFacts] has the invariant [sched_inv] and one
      preservation lemma per operation, [SchedulerProps] the step relation
      [sched_step] and the theorems. [JobOps] has the job-control operations that
      act on tasks.
    - [SelfModel], [Vmm], [VmmFacts], [VmmProps]: page tables are words of a
      physical memory, so tables may alias; [walk_l1] is the hardware walk.
      [VmmFork]: what fork's copy leaves in the two address spaces.
    - [Kring], [HotMap], [TablesProps]: the log ring and the self-sharding map,
      and the theorems about the small tables.
    - [Users], [Ramfs], [Vfs], [VfsProps], [UserOps].
    - [Bytes]: slices, writes into buffers and big-endian words, shared by the
      packet and crypto files.
    - [Sha1], [Sha1Facts], [Sha1Props]; [Aes], [AesFacts], [AesProps]: the two
      halves of [wifi/crypto.rs]. The facts files hold the reference definitions
      (the padded message as a list of blocks, PBKDF2 as iterated exclusive or,
      the S-box as inversion in GF(2^8)).
    - [NetWire], [NetWireFacts], [NetProto], [NetWireProps]: headers, checksums and
      the DHCP and DNS messages. [Tcp], [TcpProps]: the sockets, the state machine,
      the deferral buffer. [NetState]: the state of the whole stack and the
      monad [net] of code that polls hardware (it may finish, wait on a lock it
      holds, crash, or use up its iterations). [Net], [NetFacts], [NetProps],
      [NetLive]: frame dispatch, the clients and their wait loops.
    - [Wifi], [WifiProps].
    - [F32]: single-precision arithmetic on the Standard Library's [SpecFloat], with
      the lemmas that keep a bounded score bounded under rounding. [Anomaly]:
      the detector and its theorems.
    - [Security], [Namespaces], [Ptrace], [SemGate]: one file per isolation layer.
    - [SysState]: the record [Sys] of everything a system call can touch; the
      network stack behind sockets is the class [SocketLayer]. User memory is a
      byte per page-table root and address. [SysFd]: handles, descriptors and their
      calls; [SysFdFacts] counts the open ends of pipes; [SysFdProps]. [SysProc]:
      process calls, signal delivery and return to user mode, futexes, seccomp, the
      gate; [SysProcProps]. [SysNet]: the socket calls, epoll and poll over the class
      [SocketControl]; [SocketNet]: the instances of both classes from [Net];
      [SysNetProps].
    - [Elf], [ElfProps]: the two parsers over the bytes of a file; the proofs have a
      writer of such files and a reference parser. [Reloc], [Modules], [RelocProps]:
      the relocator over the file and the module's buffer, the module table.
    - [SysMem], [SysMemProps]: mmap, munmap, brk, mprotect, madvise and the
      page-fault handler on [Mem], which joins [Sys], [Vm] and the page cache on one
      frame allocator. [SysExec], [SysExecProps]: loading of images and execve. Here a
      kernel access to a user page that is missing, or a write to a read-only one when
      CR0.WP is set, is a fault and halts; the calls of the other files take user
      pages as present and writable.
    - [Slab]: the caches over the class [FrameAllocator], the links being words of
      memory that the holders of objects overwrite. [Entropy]: the pool. [BlockDev]:
      the handles over the class [BlockDriver], with a disk in memory as instance.
      [Identity]: the record, the two codes, the files through [Vfs]. [Swarm]: a
      module per source file. [Storage]: packages and the state file. [Debugger]:
      the debugger over registers and code bytes. Each of these has its theorems after its definitions.

    ** What the theorems show

    - Memory ([PmmProps]): pages are free or owned, never both and never lost, over
      any run; allocation fails only when nothing fits; freeing undoes
      allocation; the boot-time region split covers the region. The free-page
      counter overcounts and a region at address 0 is lost.
    - Page cache ([PageCacheProps]): frames are conserved and none leaks, reads return the file's
      bytes, invalidation is complete, what is written is read back; a dirty page
      can be evicted without being written.
    - Scheduling ([SchedulerProps]): the invariant over any run, what a timer
      interrupt saves and restores, signal delivery, fork, exit and wait, a
      bound on waiting that counts the tasks predicted to run next; and that
      such predictions can starve a task, scheduling stops once a task sleeps or exits,
      SIGKILL can be masked, fork drops limits.
    - Virtual memory ([VmmProps], [VmmFork]): fork shares every frame read-only
      with exact counts, copy-on-write faults, protection changes and
      address-space release do what they should; a failed fault, a protection
      change, reclaim and cross-space mapping do not.
    - Tables ([TablesProps]), files ([VfsProps]) and users ([UserOps]).
    - Cryptography ([Sha1Props], [AesProps]): the incremental hash is the hash of
      the padded message, PBKDF2 and the key derivation meet their definitions,
      the tables are the algebraic ones, CCMP decrypts what it encrypts.
    - Network ([NetWireProps], [TcpProps], [NetProps], [NetLive]): frames parse back,
      no frame can crash the dispatch, what a socket has received is a prefix of
      what its peer sent, the clients end by their deadlines; accepted sockets never see data, the
      retransmission test is inverted.
    - Wi-Fi ([WifiProps]): keys are installed only after a message 3 with a
      valid MIC; unprotected frames are accepted afterwards.
    - Anomaly detection ([Anomaly]): scores stay in the unit interval through
      any calls; an alert is exactly three never-seen transitions in a row.
    - Descriptors ([SysFdProps]): the counters of a pipe are the numbers of its open
      ends and its bytes come out in order, over any run of the calls of [fd_step] and
      exits of all processes; processes do not reach each other's descriptors; what is written
      through a descriptor is not stored, and a read past the end crashes.
    - Processes ([SysProcProps]): a handler interrupts and the program resumes; futex wakes are in order; a call
      that passes the gate was allowed by every layer; seccomp never learns, and
      the return address of a call is lost when no signal is delivered.
    - Waiting and sockets ([SysNetProps]): epoll ends at its deadline and reports what
      is ready, edges once; readable means a read returns bytes; a socket read moves
      the front of the receive buffer; connect reverses the address.
    - Programs ([ElfProps], [SysExecProps]): the parser never reads outside the file
      and agrees with the reference, what the writer writes is parsed back, segments
      are found in memory as the file has them, and the first stack is the one the
      ABI asks for; with CR0.WP set read-only segments cannot be loaded, and the
      parser for shared objects wraps. Modules ([RelocProps]):
      relocations write the psABI values; relocation ends.
    - Memory maps ([SysMemProps]): regions at kernel-chosen addresses never touch, the
      fault handler finds the right one, a file page shows the file; a fixed mapping
      hides part of a region, a page past the end of a file crashes, a read-only file
      page halts with CR0.WP set, munmap frees whatever it is told.
    - Slabs ([Slab]): objects held never overlap and allocation returns one that
      nobody holds. Entropy ([Entropy]): the permutation is a bijection and
      requests are answered in full, but reading to the end of the pool makes the
      next use of it panic.
    - Block devices ([BlockDev]): transfers of up to 4 MiB on the disk: reads return
      its bytes and what is written at a sector boundary is read back; a write
      elsewhere is misplaced.
    - Identity ([Identity]): the saved record is read back at the next boot when its
      names are long enough, but its time of existence is replaced; the codes detect but never repair, and a damaged code makes
      the check damage the record.
    - Stored formats ([Storage]): a cut archive installs exactly its whole entries,
      the package database and the state file are read back as written. Debugger
      ([Debugger]): the control word has the slot's fields and keeps the others;
      breakpoints leave the code as it was.
    - Swarm ([Swarm]): the log is bounded and gapless, and nothing is ever
      committed.

    ** Conventions

    The kernel profile builds with overflow checks off, so arithmetic wraps;
    [add64] and friends write this out. A spin lock makes the function that holds
    it one atomic step; where a value is read before a lock is taken ([HotMap])
    the two parts are separate definitions, and where code may take a lock twice
    ([NetState]) the lock is part of the state. Logging is dropped.

    Loops without a structural bound take fuel. The bounds are: the free-list
    walk of [Pmm.remove_free] and the merge loop, bounded by the number of free
    blocks and by MAX_ORDER; [PageCache.read_bytes] and [write_bytes], one
    iteration per byte at most; [Vmm.update_user_pte_flags], the pages of the
    range and two more; [Vfs.read_file] and [write_file], one iteration per byte
    and one more; the hash and cipher loops, the length of the data; the carry
    folding of the internet checksum, three rounds; the DNS and DHCP walks, the
    length of the packet; the receive and wait loops of [Net] and [Wifi], any
    number at least what [NetLive] asks for; [SysProc.sys_nanosleep],
    [SysNet.sys_epoll_wait] and [sys_poll], the yields until the deadline; the
    loops of [Reloc] over symbols and relocations, the length of the file and one
    more; [SysMem.sys_madvise], the pages of the range and two more; [Slab.carve],
    the 512 slots of a frame; [Entropy.fill_loop], one iteration per byte; the loops of
    [Storage] over entries, exchanges and sections, the length of the file and one
    more. The
    theorems show that the bound is enough: they state that the call returns.

    Inputs rather than definitions: what the floating-point predictors return
    ([AiHints], [predict], [succ], the hints of [Tcp]); whether a lock is contended
    ([busy]); the x86_64 crate's page mapper ([map_to], [unmap]); in the
    scheduler, the effect of page-table work on the frame allocator ([vm_fork],
    [cow_release], [h_prefetch]); the frames and clock readings that arrive at a
    poll ([env_rx], [env_now]) and what the USB device returns ([usb_in]); what other
    tasks do while the caller of a system call has yielded or waits for an
    interrupt ([yield_cpu], [wait_irq]), the key waiting at the keyboard, entropy
    bytes, and the values a call's gate reads from the other models
    ([GateInputs]); the registers a called function may overwrite; the frames
    [map_user_range] draws ([take_frame]), the read-ahead advice ([gla],
    [cluster]) and CR0.WP ([write_protect]); where the kernel's exported functions and a module's buffer lie
    ([kernel_addr], [buf_addr]); the time-stamp counter and the hardware random
    generator; the transfers of the disk drivers; the metrics the swarm and the
    identity record; what the learned parts export and import. The clock advances at each
    poll or bulk read.

    ** Not modelled

    Device drivers, interrupt set-up, boot code and assembly act on hardware
    registers that the sources only name. Graphics, the desktop and the shell are
    drawing and text. The language models, the tokenizers with their generated
    tables, the learning schedulers, the consciousness scores and the sensor
    filters are floating-point programs whose results reach the core only as the
    inputs above. Also outside the model are the heap, which wraps a library,
    containers, the git reader, firmware variables, the reports under /proc and the other files of text, the
    HTTP and SSH pages of the network stack, its configuration file, firmware
    loading, the second Wi-Fi driver, and of the system calls inotify, ioctl, the
    proxy and the histograms.
    The scheduler takes the page-table work of fork and exit as arguments instead
    of running on [Vmm]. *)
From stdpp Require Import base numbers list gmap sets strings sorting.
#[global] Open Scope Z_scope.
(** ** Results of kernel code *)

(** A Rust call either returns, panics (a slice index out of range, an
    arithmetic trap) or, for a loop run with a bounded number of iterations,
    has used the iterations up. *)
Inductive res (A : Type) : Type :=
| Ret (a : A)
| Panic
| OutOfFuel.
Arguments Ret {A} a.
Arguments Panic {A}.
Arguments OutOfFuel {A}.

Definition res_bind {A B : Type} (r : res A) (k : A → res B) : res B :=
  match r with
  | Ret a => k a
  | Panic => Panic
  | OutOfFuel => OutOfFuel
  end.

Declare Scope kernel_scope.
Delimit Scope kernel_scope with kernel.
#[global] Open Scope kernel_scope.

Notation "'let!' x ':=' r 'in' k" := (res_bind r (fun x => k))
  (at level 10, x pattern, r at level 100, k at level 200)
  : kernel_scope.

(** Indexing a Rust array or slice: out of range is a panic. *)
Definition index {A : Type} (l : list A) (i : nat) : res A :=
  match l !! i with
  | Some a => Ret a
  | None => Panic
  end.

(** ** Machine integers *)

(** [u64] and [usize] values are [Z] in [0, 2^64). The kernel is built
    with the [kernel] profile, which inherits [overflow-checks = false]: plain
    [+], [-], [*] and [<<] wrap. *)
Definition u64_modulus : Z := 18446744073709551616.
Definition u32_modulus : Z := 4294967296.
Definition u64 (x : Z) : Z := x mod u64_modulus.
Definition u32 (x : Z) : Z := x mod u32_modulus.
Definition is_u64 (x : Z) : Prop := 0 ≤ x < u64_modulus.
Definition is_u32 (x : Z) : Prop := 0 ≤ x < u32_modulus.

Definition add64 (a b : Z) : Z := u64 (a + b).
Definition sub64 (a b : Z) : Z := u64 (a - b).
Definition mul64 (a b : Z) : Z := u64 (a * b).
(** [!x] at width 64. *)
Definition not64 (x : Z) : Z := Z.lxor x (u64_modulus - 1).

(** [x as i64] and [x as i32]. *)
Definition as_i64 (x : Z) : Z := if decide (x < 2 ^ 63) then x else x - 2 ^ 64.
Definition as_i32 (x : Z) : Z := let y := u32 x in if decide (y < 2 ^ 31) then y else y - 2 ^ 32.
(** [x.saturating_sub(y)] and [x.saturating_add(y)] on [u64]. *)
Definition sat_sub (a b : Z) : Z := Z.max 0 (a - b).
Definition sat_add64 (a b : Z) : Z := Z.min (u64_modulus - 1) (a + b).

(** Tactics of the development. *)
Ltac unfold_words :=
  unfold add64, sub64, mul64, sat_sub, sat_add64, is_u64, is_u32, u64, u32,
    u64_modulus, u32_modulus in *.

Lemma u64_small x : is_u64 x → u64 x = x.
Proof. intros H. apply Z.mod_small. exact H. Qed.

Lemma u64_range x : is_u64 (u64 x).
Proof. apply Z.mod_pos_bound. done. Qed.

Lemma add64_small a b : 0 ≤ a + b < u64_modulus → add64 a b = a + b.
Proof. apply u64_small. Qed.

Lemma sub64_small a b : 0 ≤ a - b < u64_modulus → sub64 a b = a - b.
Proof. apply u64_small. Qed.

(** ** Lists *)

Lemma NoDup_app_skip {A} (a b c : list A) : NoDup ((a ++ b) ++ c) → NoDup (a ++ c).
Proof.
  rewrite !NoDup_app. intros ((Ha & _ & _) & Hd & Hc). split_and!; [done| |done].
  intros x Hx. apply Hd. apply elem_of_app. by left.
Qed.

(** ** Ordered maps *)

(** The entries of a [BTreeMap], in the order its iterators visit them. *)
Definition by_key {K} (A : Type) (le : relation K) : relation (K * A) := λ a b, le a.1 b.1.
#[export] Instance by_key_dec {K A} (le : relation K) `{!RelDecision le} :
  RelDecision (by_key A le).
Proof. intros a b. unfold by_key. apply _. Defined.

Definition btree_list {K A} `{Countable K} (le : relation K) `{!RelDecision le}
    (m : gmap K A) : list (K * A) :=
  merge_sort (by_key A le) (map_to_list m).

Lemma btree_list_perm {K A} `{Countable K} (le : relation K) `{!RelDecision le}
    (m : gmap K A) : btree_list le m ≡ₚ map_to_list m.
Proof. apply merge_sort_Permutation. Qed.

Lemma elem_of_btree_list {K A} `{Countable K} (le : relation K) `{!RelDecision le}
    (m : gmap K A) k a : (k, a) ∈ btree_list le m ↔ m !! k = Some a.
Proof. by rewrite <- elem_of_map_to_list, btree_list_perm. Qed.

Lemma NoDup_btree_keys {K A} `{Countable K} (le : relation K) `{!RelDecision le}
    (m : gmap K A) : NoDup (btree_list le m).*1.
Proof. rewrite btree_list_perm. apply NoDup_fst_map_to_list. Qed.

Lemma elem_of_btree_keys {K A} `{Countable K} (le : relation K) `{!RelDecision le}
    (m : gmap K A) k : k ∈ (btree_list le m).*1 ↔ is_Some (m !! k).
Proof.
  rewrite list_elem_of_fmap. split.
  - intros ([k' a] & -> & Hka). apply elem_of_btree_list in Hka. by exists a.
  - intros [a Ha]. exists (k, a). by rewrite elem_of_btree_list.
Qed.

Lemma lookup_alter_at {K A} `{Countable K} (f : A → A) (i j : K) (m : gmap K A) :
  alter f i m !! j = if decide (i = j) then f <$> m !! j else m !! j.
Proof. rewrite lookup_alter. by case_decide; subst. Qed.

(** ** Bits *)

Lemma not64_spec x n :
  0 ≤ n → Z.testbit (not64 x) n = if decide (n < 64) then negb (Z.testbit x n) else Z.testbit x n.
Proof.
  intros Hn. unfold not64. replace (u64_modulus - 1) with (Z.ones 64) by done.
  rewrite Z.lxor_spec. case_decide.
  - rewrite Z.ones_spec_low by lia. by rewrite xorb_true_r.
  - rewrite Z.ones_spec_high by lia. by rewrite xorb_false_r.
Qed.

Lemma u64_bits_high x n : is_u64 x → 64 ≤ n → Z.testbit x n = false.
Proof.
  intros Hx Hn. rewrite <- (Z.mod_small x (2 ^ 64)) by (unfold is_u64, u64_modulus in Hx; lia).
  apply Z.mod_pow2_bits_high. lia.
Qed.

(** Clearing the low [k] bits rounds down. *)
Lemma land_not_ones k a : 0 ≤ k ≤ 64 → is_u64 a → Z.land a (not64 (Z.ones k)) = a - a mod 2 ^ k.
Proof.
  intros Hk Ha. rewrite <- Z.land_ones by lia. rewrite Z.sub_nocarry_ldiff.
  - apply Z.bits_inj'. intros n Hn. rewrite Z.ldiff_spec, !Z.land_spec, not64_spec by done.
    case_decide; [by destruct (Z.testbit a n), (Z.testbit (Z.ones k) n)|]. by rewrite u64_bits_high by lia || done.
  - apply Z.bits_inj'. intros n Hn. rewrite Z.ldiff_spec, Z.land_spec, Z.bits_0.
    by destruct (Z.testbit a n), (Z.testbit (Z.ones k) n).
Qed.

(** A nonzero 64-bit word has a set bit. *)
Lemma u64_nonzero_bit x : is_u64 x → x ≠ 0 → ∃ n : nat, (n < 64)%nat ∧ Z.testbit x (Z.of_nat n) = true.
Proof.
  intros Hx Hnz. destruct (decide (Exists (λ n : nat, Z.testbit x (Z.of_nat n) = true) (seq 0 64))) as [H|H].
  - apply Exists_exists in H as (n & Hn & Hb). apply elem_of_seq in Hn. exists n. split; [lia|done].
  - exfalso. apply Hnz. apply Z.bits_inj'. intros n Hn. rewrite Z.bits_0.
    destruct (decide (n < 64)); [|apply u64_bits_high; [done|lia]].
    destruct (Z.testbit x n) eqn:E; [|done]. exfalso. apply H. apply Exists_exists.
    exists (Z.to_nat n). rewrite Z2Nat.id by done. split; [apply elem_of_seq; lia|done].
Qed.
