(* ===== verification/Pmm.v ===== *)
(** The physical memory manager: [kernel/src/memory/pmm.rs].

    The buddy allocator keeps one intrusive singly linked list of free blocks
    per order. The list heads are physical addresses in [free_lists]; the link
    of a free block is a [FreeNode] written into the block itself, at virtual
    address [phys_offset + addr]. The model keeps that memory explicit: [ram]
    maps a virtual address to the word stored there. *)
From stdpp Require Import base numbers list gmap sets.
From S2P Require Import Prelude.

Definition PAGE_SIZE : Z := 4096.
Definition MAX_ORDER : nat := 11.

(** [struct BuddyAllocator], with the memory its [FreeNode]s live in. *)
Record BuddyAllocator := mkBuddy {
  free_lists : list Z;
  free_pages : Z;
  total_pages : Z;
  phys_offset : Z;
  ram : gmap Z Z
}.

(** [BuddyAllocator::new]. *)
Definition new_buddy : BuddyAllocator :=
  mkBuddy (replicate MAX_ORDER 0) 0 0 0 ∅.

(** [PAGE_SIZE << order]. *)
Definition block_size (order : nat) : Z := Z.shiftl PAGE_SIZE (Z.of_nat order).

Definition page_align_up (a : Z) : Z :=
  Z.land (sub64 (add64 a PAGE_SIZE) 1) (not64 (PAGE_SIZE - 1)).
Definition page_align_down (a : Z) : Z := Z.land a (not64 (PAGE_SIZE - 1)).

(** The word at [virt]; memory never written by the allocator reads as 0. *)
Definition read_node (s : BuddyAllocator) (addr : Z) : Z :=
  default 0 (ram s !! add64 (phys_offset s) addr).

Definition write_node (addr next : Z) (s : BuddyAllocator) : BuddyAllocator :=
  mkBuddy (free_lists s) (free_pages s) (total_pages s) (phys_offset s)
    (<[add64 (phys_offset s) addr := next]> (ram s)).

Definition set_head (order : nat) (addr : Z) (s : BuddyAllocator) : BuddyAllocator :=
  mkBuddy (<[order := addr]> (free_lists s)) (free_pages s) (total_pages s)
    (phys_offset s) (ram s).

Definition set_free_pages (n : Z) (s : BuddyAllocator) : BuddyAllocator :=
  mkBuddy (free_lists s) n (total_pages s) (phys_offset s) (ram s).

Definition set_total_pages (n : Z) (s : BuddyAllocator) : BuddyAllocator :=
  mkBuddy (free_lists s) (free_pages s) n (phys_offset s) (ram s).

(** [push_free]: link [addr] in front of the free list of [order]. *)
Definition push_free (addr : Z) (order : nat) (s : BuddyAllocator) : res BuddyAllocator :=
  let! head := index (free_lists s) order in
  Ret (set_head order addr (write_node addr head s)).

(** Where [remove_free]'s [prev_next] pointer points: the list head in the
    array, or the [next] field of the node at an address. *)
Definition set_link (order : nat) (prev : option Z) (next : Z) (s : BuddyAllocator)
    : BuddyAllocator :=
  match prev with
  | None => set_head order next s
  | Some p => write_node p next s
  end.

(** The [while cur != 0] loop of [remove_free]. *)
Fixpoint remove_walk (fuel : nat) (target : Z) (order : nat) (prev : option Z) (cur : Z)
    (s : BuddyAllocator) : res (bool * BuddyAllocator) :=
  match fuel with
  | O => OutOfFuel
  | S fuel' =>
      if decide (cur = 0) then Ret (false, s)
      else if decide (cur = target)
      then Ret (true, set_link order prev (read_node s cur) s)
      else remove_walk fuel' target order (Some cur) (read_node s cur) s
  end.

(** [remove_free]. Every node of an acyclic list is a different written word,
    so one more iteration than there are written words is enough. *)
Definition remove_free (target : Z) (order : nat) (s : BuddyAllocator)
    : res (bool * BuddyAllocator) :=
  let! head := index (free_lists s) order in
  remove_walk (S (size (ram s))) target order None head s.

(** The search of [alloc_order] over [order..MAX_ORDER]: [n] orders from [o]. *)
Fixpoint find_order (n : nat) (o : nat) (lists : list Z) : nat :=
  match n with
  | O => MAX_ORDER
  | S n' =>
      if decide (lists !!! o ≠ 0) then o else find_order n' (S o) lists
  end.

(** The [while current_order > order] loop, [n] = [current_order - order]. *)
Fixpoint split_down (n : nat) (order : nat) (addr : Z) (s : BuddyAllocator)
    : res BuddyAllocator :=
  match n with
  | O => Ret s
  | S n' =>
      let! s' := push_free (add64 addr (block_size (order + n'))) (order + n') s in
      split_down n' order addr s'
  end.

(** [alloc_order]. *)
Definition alloc_order (order : nat) (s : BuddyAllocator)
    : res (option Z * BuddyAllocator) :=
  if decide (MAX_ORDER ≤ order)%nat then Ret (None, s) else
  let found := find_order (MAX_ORDER - order) order (free_lists s) in
  if decide (found = MAX_ORDER) then Ret (None, s) else
  let addr := free_lists s !!! found in
  let s1 := set_head found (read_node s addr) s in
  let! s2 := split_down (found - order) order addr s1 in
  Ret (Some addr, set_free_pages (sat_sub (free_pages s2) (2 ^ Z.of_nat order)) s2).

(** The merge loop of [free_order]; returns the order it stopped at. *)
Fixpoint free_loop (fuel : nat) (addr : Z) (order : nat) (s : BuddyAllocator)
    : res (nat * BuddyAllocator) :=
  match fuel with
  | O => OutOfFuel
  | S fuel' =>
      if decide (MAX_ORDER - 1 ≤ order)%nat then
        let! s' := push_free addr order s in Ret (order, s')
      else
        let buddy := Z.lxor addr (block_size order) in
        let! (found, s') := remove_free buddy order s in
        if (found : bool) then free_loop fuel' (Z.min addr buddy) (S order) s'
        else let! s'' := push_free addr order s' in Ret (order, s'')
  end.

(** [free_order]: the order is at most [MAX_ORDER - 1], so the loop runs at
    most [MAX_ORDER] times. *)
Definition free_order (addr : Z) (order : nat) (s : BuddyAllocator) : res BuddyAllocator :=
  let! (o, s') := free_loop MAX_ORDER addr order s in
  Ret (set_free_pages (add64 (free_pages s') (2 ^ Z.of_nat (Nat.min o (MAX_ORDER - 1)))) s').

(** The inner [loop] of [add_region]: the largest order, from [o] down, whose
    block fits and is aligned at [addr]; order 0 when none does. *)
Fixpoint fit_order (o : nat) (addr end_aligned : Z) : nat :=
  if decide (block_size o ≤ end_aligned - addr ∧ Z.land addr (block_size o - 1) = 0)
  then o
  else match o with O => O | S o' => fit_order o' addr end_aligned end.

(** The outer [while] of [add_region]. *)
Fixpoint add_blocks (fuel : nat) (addr end_aligned : Z) (s : BuddyAllocator)
    : res BuddyAllocator :=
  match fuel with
  | O => OutOfFuel
  | S fuel' =>
      if decide (add64 addr PAGE_SIZE ≤ end_aligned) then
        let order := fit_order (MAX_ORDER - 1) addr end_aligned in
        let! s' := push_free addr order s in
        add_blocks fuel' (add64 addr (block_size order)) end_aligned
          (set_total_pages (add64 (total_pages s') (2 ^ Z.of_nat order)) s')
      else Ret s
  end.

(** [add_region]. Each iteration consumes at least one page. *)
Definition add_region (start end_ : Z) (s : BuddyAllocator) : res BuddyAllocator :=
  let addr := page_align_up start in
  let end_aligned := page_align_down end_ in
  let! s' := add_blocks (S (Z.to_nat ((end_aligned - addr) / PAGE_SIZE))) addr end_aligned s in
  Ret (set_free_pages (total_pages s') s').

(** The bootloader's memory map. *)
Record MemoryRegion := mkRegion { region_start : Z; region_end : Z; region_usable : bool }.

Fixpoint add_regions (rs : list MemoryRegion) (s : BuddyAllocator) : res BuddyAllocator :=
  match rs with
  | [] => Ret s
  | r :: rs' =>
      let! s' := if region_usable r then add_region (region_start r) (region_end r) s
                 else Ret s in
      add_regions rs' s'
  end.

(** [pmm::init] on the freshly created global allocator. *)
Definition pmm_init (regions : list MemoryRegion) (offset : Z) (s : BuddyAllocator)
    : res BuddyAllocator :=
  add_regions regions
    (mkBuddy (free_lists s) (free_pages s) (total_pages s) offset (ram s)).

(** The module's public functions; the [spin::Mutex] makes each of them atomic. *)
Definition alloc_frame (s : BuddyAllocator) : res (option Z * BuddyAllocator) :=
  alloc_order 0 s.
Definition alloc_frames (order : nat) (s : BuddyAllocator) : res (option Z * BuddyAllocator) :=
  alloc_order order s.
Definition free_frame (addr : Z) (s : BuddyAllocator) : res BuddyAllocator :=
  free_order addr 0 s.
Definition free_frames (addr : Z) (order : nat) (s : BuddyAllocator) : res BuddyAllocator :=
  free_order addr order s.
Definition free_bytes (s : BuddyAllocator) : Z := mul64 (free_pages s) PAGE_SIZE.
