(* ===== verification/PmmFacts.v ===== *)
(** Correctness of the buddy allocator: the representation relation between
    the linked free lists in memory and an abstract list of blocks per order,
    and its preservation by every operation of [Pmm]. *)
From stdpp Require Import base numbers list gmap sets sorting.
From S2P Require Import Prelude Pmm.

(** ** Block geometry *)

Lemma block_size_pow o : block_size o = 2 ^ (12 + Z.of_nat o).
Proof.
  unfold block_size. rewrite Z.shiftl_mul_pow2 by lia.
  rewrite Z.pow_add_r by lia. done.
Qed.

Lemma block_size_pages o : block_size o = PAGE_SIZE * 2 ^ Z.of_nat o.
Proof. unfold block_size. by rewrite Z.shiftl_mul_pow2 by lia. Qed.

Lemma block_size_pos o : 0 < block_size o.
Proof. rewrite block_size_pow. lia. Qed.

Lemma block_size_S o : block_size (S o) = 2 * block_size o.
Proof. rewrite !block_size_pow. rewrite <- Z.pow_succ_r by lia. f_equal. lia. Qed.

(** The page addresses of the block of [order] at [x]. *)
Definition block_pages (o : nat) (x : Z) : list Z :=
  (λ i, x + PAGE_SIZE * i) <$> seqZ 0 (2 ^ Z.of_nat o).

Definition order_pages (o : nat) (xs : list Z) : list Z := xs ≫= block_pages o.

Fixpoint pages_from (o : nat) (fl : list (list Z)) : list Z :=
  match fl with
  | [] => []
  | xs :: fl' => order_pages o xs ++ pages_from (S o) fl'
  end.

(** All the free pages of an abstract state, one entry per page. *)
Definition all_pages (fl : list (list Z)) : list Z := pages_from 0 fl.

Lemma elem_of_block_pages o x p :
  p ∈ block_pages o x ↔ ∃ i, 0 ≤ i < 2 ^ Z.of_nat o ∧ p = x + PAGE_SIZE * i.
Proof.
  unfold block_pages. rewrite list_elem_of_fmap. setoid_rewrite elem_of_seqZ.
  split; intros (i & ? & ?); exists i; split; (done || lia).
Qed.

Lemma block_pages_head o x : x ∈ block_pages o x.
Proof. apply elem_of_block_pages. exists 0. lia. Qed.

Lemma NoDup_block_pages o x : NoDup (block_pages o x).
Proof.
  unfold block_pages. apply NoDup_fmap_2; [|apply NoDup_seqZ].
  intros i j. unfold PAGE_SIZE. lia.
Qed.

Lemma length_block_pages o x : Z.of_nat (length (block_pages o x)) = 2 ^ Z.of_nat o.
Proof. unfold block_pages. rewrite length_fmap, length_seqZ. lia. Qed.

(** A block is its two halves. *)
Lemma block_pages_split o x :
  block_pages (S o) x = block_pages o x ++ block_pages o (x + block_size o).
Proof.
  unfold block_pages. rewrite Nat2Z.inj_succ, Z.pow_succ_r by lia.
  replace (2 * 2 ^ Z.of_nat o) with (2 ^ Z.of_nat o + 2 ^ Z.of_nat o) by lia.
  rewrite seqZ_app by lia. rewrite fmap_app. f_equal.
  replace (0 + 2 ^ Z.of_nat o) with (2 ^ Z.of_nat o + 0) by lia.
  rewrite <- (fmap_add_seqZ (2 ^ Z.of_nat o) 0). rewrite <- list_fmap_compose.
  apply list_fmap_ext. intros ? i _. unfold compose.
  rewrite block_size_pages. lia.
Qed.

Lemma order_pages_cons o x xs : order_pages o (x :: xs) = block_pages o x ++ order_pages o xs.
Proof. done. Qed.

Lemma order_pages_app o xs ys :
  order_pages o (xs ++ ys) = order_pages o xs ++ order_pages o ys.
Proof. apply bind_app. Qed.

(** Changing the list of one order changes the free pages by that list only. *)
Lemma pages_from_insert fl : ∀ o i xs ys,
  fl !! i = Some xs →
  pages_from o (<[i := ys]> fl) ++ order_pages (o + i) xs
    ≡ₚ pages_from o fl ++ order_pages (o + i) ys.
Proof.
  induction fl as [|zs fl IH]; intros o [|i] xs ys Hi; simplify_eq/=.
  - rewrite Nat.add_0_r. solve_Permutation.
  - rewrite <- !(assoc_L (++)). f_equiv. rewrite Nat.add_succ_r, <- Nat.add_succ_l.
    by apply IH.
Qed.

Lemma all_pages_insert fl i xs ys :
  fl !! i = Some xs →
  all_pages (<[i := ys]> fl) ++ order_pages i xs ≡ₚ all_pages fl ++ order_pages i ys.
Proof. apply (pages_from_insert fl 0). Qed.

Lemma all_pages_cons fl i xs x :
  fl !! i = Some xs →
  all_pages (<[i := x :: xs]> fl) ≡ₚ block_pages i x ++ all_pages fl.
Proof.
  intros Hi. apply (Permutation_app_inv_r (order_pages i xs)).
  rewrite (all_pages_insert fl i xs) by done. rewrite order_pages_cons.
  solve_Permutation.
Qed.

Lemma all_pages_remove fl i xs1 x xs2 :
  fl !! i = Some (xs1 ++ x :: xs2) →
  all_pages fl ≡ₚ block_pages i x ++ all_pages (<[i := xs1 ++ xs2]> fl).
Proof.
  intros Hi. apply (Permutation_app_inv_r (order_pages i (xs1 ++ xs2))).
  rewrite <- (all_pages_insert fl i (xs1 ++ x :: xs2)) by done.
  rewrite !order_pages_app, order_pages_cons. solve_Permutation.
Qed.

Lemma pages_from_elem fl : ∀ o i xs x,
  fl !! i = Some xs → x ∈ xs → x ∈ pages_from o fl.
Proof.
  induction fl as [|zs fl IH]; intros o [|i] xs x Hi Hx; simplify_eq/=;
    rewrite elem_of_app; [left|right; by eapply IH].
  apply list_elem_of_bind. exists x. split; [apply block_pages_head|done].
Qed.

Lemma all_pages_elem fl i xs x : fl !! i = Some xs → x ∈ xs → x ∈ all_pages fl.
Proof. apply pages_from_elem. Qed.

(** ** The linked lists in memory *)

(** [chain m off h xs]: the list starting at [h] links exactly the blocks [xs]. *)
Fixpoint chain (m : gmap Z Z) (off h : Z) (xs : list Z) : Prop :=
  match xs with
  | [] => h = 0
  | x :: xs' => h = x ∧ x ≠ 0 ∧ ∃ next, m !! (off + x) = Some next ∧ chain m off next xs'
  end.

Lemma chain_frame m off xs : ∀ h k v,
  chain m off h xs → (∀ x, x ∈ xs → off + x ≠ k) → chain (<[k := v]> m) off h xs.
Proof.
  induction xs as [|x xs IH]; intros h k v; simpl; [done|].
  intros (-> & Hx0 & next & Hm & Hc) Hk. split_and!; [done..|].
  exists next. split.
  - rewrite lookup_insert_ne; [done|]. intros E. by apply (Hk x); [left|].
  - apply IH; [done|]. intros y Hy. apply Hk. by right.
Qed.

(** The links are distinct written words. *)
Lemma chain_length m off xs : ∀ h,
  chain m off h xs → NoDup xs → (length xs ≤ size m)%nat.
Proof.
  intros h Hc Hnd.
  assert (Hsub : list_to_set ((λ x, off + x) <$> xs) ⊆ dom m).
  { clear Hnd. revert h Hc. induction xs as [|x xs IH]; intros h Hc; [set_solver|].
    destruct Hc as (_ & _ & next & Hm & Hc). apply elem_of_dom_2 in Hm.
    specialize (IH _ Hc). set_solver. }
  apply subseteq_size in Hsub. rewrite size_dom, size_list_to_set in Hsub.
  - by rewrite length_fmap in Hsub.
  - apply NoDup_fmap_2; [|done]. intros a b. lia.
Qed.

Lemma chain_zero m off xs : chain m off 0 xs → xs = [].
Proof. destruct xs as [|x xs]; [done|]. simpl. intros (? & ? & _). congruence. Qed.

(** ** Valid blocks and the representation relation *)

(** A block of [order] at [x]: not at address 0 (the list terminator), aligned
    to its size, and addressable through the physical-memory window. *)
Definition block_ok (off : Z) (o : nat) (x : Z) : Prop :=
  0 < x ∧ x mod block_size o = 0 ∧ off + x + block_size o ≤ u64_modulus.

Record rep (s : BuddyAllocator) (fl : list (list Z)) : Prop := {
  rep_heads : length (free_lists s) = MAX_ORDER;
  rep_orders : length fl = MAX_ORDER;
  rep_off : 0 ≤ phys_offset s;
  rep_chain o xs : fl !! o = Some xs →
    chain (ram s) (phys_offset s) (free_lists s !!! o) xs;
  rep_block o xs x : fl !! o = Some xs → x ∈ xs → block_ok (phys_offset s) o x;
  rep_nodup : NoDup (all_pages fl)
}.

(** A block detached from the free lists: valid, and none of its pages free. *)
Definition detached (s : BuddyAllocator) (fl : list (list Z)) (o : nat) (x : Z) : Prop :=
  block_ok (phys_offset s) o x ∧ NoDup (block_pages o x ++ all_pages fl).

Lemma block_ok_addr off o x : 0 ≤ off → block_ok off o x → add64 off x = off + x.
Proof.
  intros Hoff (Hx & _ & Hb). pose proof (block_size_pos o).
  apply add64_small. lia.
Qed.

Lemma rep_lookup s fl o : rep s fl → (o < MAX_ORDER)%nat → ∃ xs, fl !! o = Some xs.
Proof.
  intros Hr Ho. apply lookup_lt_is_Some_2. by rewrite (rep_orders _ _ Hr).
Qed.

Lemma rep_head_lookup s fl o :
  rep s fl → (o < MAX_ORDER)%nat → free_lists s !! o = Some (free_lists s !!! o).
Proof.
  intros Hr Ho. apply list_lookup_lookup_total_lt. by rewrite (rep_heads _ _ Hr).
Qed.

(** The link word of a block is outside every block with other pages. *)
Lemma detached_fresh s fl o x i xs y :
  rep s fl → detached s fl o x → fl !! i = Some xs → y ∈ xs → y ≠ x.
Proof.
  intros Hr [_ Hnd] Hi Hy ->. apply NoDup_app in Hnd as (_ & Hd & _).
  apply (Hd x); [apply block_pages_head|]. by eapply all_pages_elem.
Qed.

Lemma rep_NoDup_list s fl o xs : rep s fl → fl !! o = Some xs → NoDup xs.
Proof.
  intros Hr Ho. pose proof (rep_nodup _ _ Hr) as Hnd. revert Ho Hnd. clear Hr s.
  unfold all_pages. generalize 0%nat as k. revert o.
  induction fl as [|ys fl IH]; intros [|o] k Ho Hnd; simplify_eq/=;
    apply NoDup_app in Hnd as (Hl & _ & Hr); [|by eapply IH].
  clear Hr IH. induction xs as [|x xs IH]; [constructor|].
  rewrite order_pages_cons in Hl. apply NoDup_app in Hl as (_ & Hd & Hl).
  constructor; [|by apply IH]. intros Hx. apply (Hd x); [apply block_pages_head|].
  apply list_elem_of_bind. exists x. split; [apply block_pages_head|done].
Qed.

(** [push_free] adds a detached block to the list of its order. *)
Lemma push_free_rep s fl o x xs :
  rep s fl → fl !! o = Some xs → detached s fl o x →
  ∃ s', push_free x o s = Ret s' ∧ rep s' (<[o := x :: xs]> fl) ∧
    phys_offset s' = phys_offset s ∧ free_pages s' = free_pages s ∧
    total_pages s' = total_pages s.
Proof.
  intros Hr Ho Hd. pose proof (lookup_lt_Some _ _ _ Ho) as Hlt.
  rewrite (rep_orders _ _ Hr) in Hlt.
  unfold push_free, index. rewrite (rep_head_lookup _ _ _ Hr Hlt). simpl.
  eexists. split_and!; [done| |done..].
  destruct Hd as [Hok Hnd].
  split; simpl.
  - rewrite length_insert. apply Hr.
  - rewrite length_insert. apply Hr.
  - apply Hr.
  - intros i ys Hi. rewrite (block_ok_addr _ _ _ (rep_off _ _ Hr) Hok).
    rewrite (list_lookup_insert fl) in Hi. case_decide as E.
    + destruct E as [<- _]. simplify_eq. rewrite list_lookup_total_insert_eq by
        (rewrite (rep_heads _ _ Hr); done).
      simpl. split_and!; [done|unfold block_ok in Hok; lia|].
      eexists. rewrite lookup_insert_eq. split; [done|].
      apply chain_frame; [by apply Hr|]. intros y Hy E.
      eapply (detached_fresh s fl); [done|by split|exact Ho|exact Hy|lia].
    + assert (o ≠ i) by (intros ->; apply E; split; [done|by eapply lookup_lt_Some]).
      rewrite list_lookup_total_insert_ne by done.
      apply chain_frame; [by apply Hr|]. intros y Hy E'.
      eapply (detached_fresh s fl); [done|by split|exact Hi|exact Hy|lia].
  - intros i ys y Hi Hy. rewrite (list_lookup_insert fl) in Hi. case_decide as E.
    + destruct E as [<- _]. simplify_eq. apply elem_of_cons in Hy as [->|Hy]; [done|].
      by eapply Hr.
    + by eapply Hr.
  - rewrite all_pages_cons by done. done.
Qed.

(** ** Unlinking a block *)

Lemma chain_suffix m off xs1 : ∀ h x xs2,
  chain m off h (xs1 ++ x :: xs2) → ∃ next, m !! (off + x) = Some next ∧ chain m off next xs2.
Proof.
  induction xs1 as [|y xs1 IH]; intros h x xs2; simpl.
  - intros (_ & _ & H). exact H.
  - intros (_ & _ & next & _ & Hc). by eapply IH.
Qed.

Lemma chain_unlink m off ys : ∀ h p x xs2 next,
  chain m off h (ys ++ p :: x :: xs2) → NoDup (ys ++ p :: x :: xs2) →
  m !! (off + x) = Some next →
  chain (<[off + p := next]> m) off h (ys ++ p :: xs2).
Proof.
  induction ys as [|y ys IH]; intros h p x xs2 next; simpl.
  - intros (-> & Hp0 & nx & Hm & -> & Hx0 & nx' & Hm' & Hc) Hnd Hn.
    split_and!; [done..|]. exists next. rewrite lookup_insert_eq. split; [done|].
    simplify_eq. apply chain_frame; [done|].
    apply NoDup_cons in Hnd as [Hp _]. intros z Hz E. apply Hp.
    replace p with z by lia. by right.
  - intros (-> & Hy0 & nx & Hm & Hc) Hnd Hn. apply NoDup_cons in Hnd as [Hy Hnd].
    split_and!; [done..|]. exists nx. split.
    + rewrite lookup_insert_ne; [done|]. intros E. apply Hy.
      replace y with p by lia. set_solver.
    + by eapply IH.
Qed.

Lemma rep_read s fl o xs1 x xs2 :
  rep s fl → fl !! o = Some (xs1 ++ x :: xs2) →
  ram s !! (phys_offset s + x) = Some (read_node s x) ∧
  chain (ram s) (phys_offset s) (read_node s x) xs2.
Proof.
  intros Hr Ho. pose proof (rep_chain _ _ Hr _ _ Ho) as Hc.
  apply chain_suffix in Hc as (next & Hm & Hc).
  assert (Hok : block_ok (phys_offset s) o x) by (eapply Hr; [done|set_solver]).
  unfold read_node. rewrite (block_ok_addr _ _ _ (rep_off _ _ Hr) Hok).
  by rewrite Hm.
Qed.

Lemma set_link_offset o prev n s : phys_offset (set_link o prev n s) = phys_offset s.
Proof. by destruct prev. Qed.

Lemma set_link_counters o prev n s :
  free_pages (set_link o prev n s) = free_pages s ∧
  total_pages (set_link o prev n s) = total_pages s.
Proof. by destruct prev. Qed.

(** Redirecting the link before [x] to the one after it takes exactly [x] out
    of the list of its order. *)
Lemma unlink_rep s fl o xs1 x xs2 :
  rep s fl → fl !! o = Some (xs1 ++ x :: xs2) →
  rep (set_link o (last xs1) (read_node s x) s) (<[o := xs1 ++ xs2]> fl).
Proof.
  intros Hr Ho. destruct (rep_read _ _ _ _ _ _ Hr Ho) as [Hm Hc].
  pose proof (lookup_lt_Some _ _ _ Ho) as Hlt.
  assert (Hlen : (o < length (free_lists s))%nat)
    by (rewrite (rep_heads _ _ Hr), <- (rep_orders _ _ Hr); done).
  pose proof (rep_NoDup_list _ _ _ _ Hr Ho) as Hnd.
  assert (Hfresh : ∀ i ys y p, last xs1 = Some p → i ≠ o → fl !! i = Some ys →
            y ∈ ys → y ≠ p).
  { intros i ys y p Hp Hi Hys Hy ->.
    apply last_Some in Hp as [zs ->]. rewrite <- (assoc_L (++)) in Ho. simpl in Ho.
    pose proof (rep_nodup _ _ Hr) as Hall.
    rewrite (all_pages_remove fl o zs p (x :: xs2)) in Hall by done.
    apply NoDup_app in Hall as (_ & Hd & _). apply (Hd p); [apply block_pages_head|].
    eapply (all_pages_elem _ i ys); [|done]. by rewrite list_lookup_insert_ne by done. }
  assert (Hblocks : ∀ i ys y, <[o := xs1 ++ xs2]> fl !! i = Some ys → y ∈ ys →
            block_ok (phys_offset s) i y).
  { intros i ys y Hi Hy. rewrite list_lookup_insert in Hi. case_decide as E.
    - destruct E as [<- _]. simplify_eq. eapply Hr; [exact Ho|]. set_solver.
    - by eapply Hr. }
  split.
  - destruct (last xs1); simpl; [|rewrite length_insert]; apply Hr.
  - rewrite length_insert. apply Hr.
  - rewrite set_link_offset. apply Hr.
  - intros i ys Hi. rewrite set_link_offset. rewrite list_lookup_insert in Hi.
    case_decide as E.
    + destruct E as [<- _]. simplify_eq. destruct (last xs1) as [p|] eqn:Hp; simpl.
      * apply last_Some in Hp as [zs ->]. rewrite <- (assoc_L (++)) in Ho, Hnd |- *.
        simpl in *. rewrite (block_ok_addr _ o) by (apply Hr || (eapply Hr; [done|set_solver])).
        by eapply chain_unlink; [apply Hr|..].
      * apply last_None in Hp as ->. simpl.
        by rewrite list_lookup_total_insert_eq.
    + assert (Hne : i ≠ o) by (intros ->; by apply E).
      destruct (last xs1) as [p|] eqn:Hp; simpl.
      * rewrite (block_ok_addr _ o).
        -- apply chain_frame; [by apply Hr|]. intros y Hy E'. eapply Hfresh; eauto. lia.
        -- apply Hr.
        -- eapply Hr; [done|]. apply last_Some in Hp as [zs ->]. set_solver.
      * rewrite list_lookup_total_insert_ne by done. by apply Hr.
  - rewrite set_link_offset. exact Hblocks.
  - pose proof (rep_nodup _ _ Hr) as Hall.
    rewrite (all_pages_remove _ _ _ _ _ Ho) in Hall. by apply NoDup_app in Hall as (_ & _ & ?).
Qed.

(** The walk of [remove_free] over the rest [xs2] of the list [xs1 ++ xs2]. *)
Lemma remove_walk_spec s target o xs2 : ∀ fuel xs1 cur,
  chain (ram s) (phys_offset s) cur xs2 →
  (∀ x, x ∈ xs2 → add64 (phys_offset s) x = phys_offset s + x) →
  (length xs2 < fuel)%nat →
  ((target ∉ xs2) ∧ remove_walk fuel target o (last xs1) cur s = Ret (false, s)) ∨
  (∃ a b, xs2 = a ++ target :: b ∧
     remove_walk fuel target o (last xs1) cur s =
       Ret (true, set_link o (last (xs1 ++ a)) (read_node s target) s)).
Proof.
  induction xs2 as [|x xs2 IH]; intros [|fuel] xs1 cur Hc Hadd Hf; simpl in *; try lia.
  - left. split; [set_solver|]. by rewrite decide_True.
  - destruct Hc as (-> & Hx0 & next & Hm & Hc). rewrite decide_False by done.
    destruct (decide (x = target)) as [->|Hne].
    + right. exists [], xs2. split; [done|]. by rewrite app_nil_r.
    + assert (Hrd : read_node s x = next)
        by (unfold read_node; rewrite Hadd, Hm by set_solver; done).
      rewrite Hrd. destruct (IH fuel (xs1 ++ [x]) next Hc) as [[Hn He]|(a & b & -> & He)];
        [set_solver|lia|..]; rewrite last_snoc in He.
      * left. split; [set_solver|done].
      * right. exists (x :: a), b. split; [done|]. rewrite He. by rewrite <- (assoc_L (++)).
Qed.

(** [remove_free] always returns, and reports whether the block was free. *)
Lemma remove_free_spec s fl target o xs :
  rep s fl → fl !! o = Some xs →
  ((target ∉ xs) ∧ remove_free target o s = Ret (false, s)) ∨
  (∃ a b, xs = a ++ target :: b ∧
     remove_free target o s = Ret (true, set_link o (last a) (read_node s target) s)).
Proof.
  intros Hr Ho. unfold remove_free, index.
  rewrite (rep_head_lookup s fl) by (done || rewrite <- (rep_orders _ _ Hr); by eapply lookup_lt_Some).
  cbn [res_bind]. apply (remove_walk_spec s target o xs _ []).
  - by apply Hr.
  - intros x Hx. eapply block_ok_addr; [apply Hr|]. by eapply Hr.
  - apply Nat.lt_succ_r. eapply chain_length; [by eapply rep_chain|]. by eapply rep_NoDup_list.
Qed.

(** ** Allocation *)

Lemma block_ok_half off o x :
  block_ok off (S o) x →
  block_ok off o x ∧ block_ok off o (x + block_size o).
Proof.
  unfold block_ok. rewrite block_size_S. pose proof (block_size_pos o) as Hp.
  intros (Hx & Hm & Hb).
  assert (Hm' : x mod block_size o = 0).
  { apply Z.mod_divide; [lia|]. apply Z.mod_divide in Hm; [|lia].
    etrans; [|exact Hm]. exists 2. lia. }
  split_and!; try lia; try done.
  rewrite Z.add_mod, Z_mod_same_full, Hm' by lia. rewrite Z.add_0_l. apply Z.mod_0_l. lia.
Qed.

Lemma detached_split s fl o x :
  detached s fl (S o) x →
  detached s fl o (x + block_size o) ∧
  NoDup (block_pages o x ++ block_pages o (x + block_size o) ++ all_pages fl).
Proof.
  intros [Hok Hnd]. rewrite block_pages_split, <- (assoc_L (++)) in Hnd.
  apply block_ok_half in Hok as [_ Hok2]. split; [split|]; [done| |done].
  by apply NoDup_app in Hnd as (_ & _ & ?).
Qed.

(** Splitting a detached block of order [order + n] keeps the lower part of
    order [order] detached and frees the rest. *)
Lemma split_down_rep n : ∀ order x s fl,
  rep s fl → (order + n < MAX_ORDER)%nat → detached s fl (order + n) x →
  ∃ s' fl', split_down n order x s = Ret s' ∧ rep s' fl' ∧ detached s' fl' order x ∧
    block_pages order x ++ all_pages fl' ≡ₚ block_pages (order + n) x ++ all_pages fl ∧
    phys_offset s' = phys_offset s ∧ free_pages s' = free_pages s ∧
    total_pages s' = total_pages s.
Proof.
  induction n as [|n IH]; intros order x s fl Hr Hlt Hd.
  - rewrite Nat.add_0_r in *. exists s, fl. done.
  - rewrite Nat.add_succ_r in *. cbn [split_down].
    destruct (detached_split _ _ _ _ Hd) as [Hhalf Hnd].
    destruct Hd as [Hok _]. pose proof (block_ok_half _ _ _ Hok) as [Hok1 Hok2].
    assert (Hadd : add64 x (block_size (order + n)) = x + block_size (order + n)).
    { pose proof (rep_off _ _ Hr). destruct Hok2 as (? & _ & ?).
      pose proof (block_size_pos (order + n)). apply add64_small. lia. }
    rewrite Hadd.
    destruct (rep_lookup s fl (order + n) Hr) as [xs Hxs]; [lia|].
    destruct (push_free_rep _ _ _ _ _ Hr Hxs Hhalf) as (s1 & -> & Hr1 & Hoff & Hfp & Htp).
    cbn [res_bind].
    edestruct (IH order x s1) as (s' & fl' & -> & Hr' & Hd' & Hperm & Hoff' & Hfp' & Htp');
      [exact Hr1|lia| |].
    { split; [by rewrite Hoff|]. by rewrite all_pages_cons. }
    exists s', fl'. split_and!; [done..| | | |]; [|congruence..].
    rewrite Hperm, all_pages_cons, block_pages_split by done. solve_Permutation.
Qed.

Lemma find_order_spec lists n : ∀ o,
  (o + n = MAX_ORDER)%nat →
  (find_order n o lists = MAX_ORDER ∧ ∀ i, (o ≤ i < MAX_ORDER)%nat → lists !!! i = 0) ∨
  ((o ≤ find_order n o lists < MAX_ORDER)%nat ∧ lists !!! (find_order n o lists) ≠ 0 ∧
   ∀ i, (o ≤ i < find_order n o lists)%nat → lists !!! i = 0).
Proof.
  induction n as [|n IH]; intros o Ho; cbn [find_order].
  - left. split; [done|]. lia.
  - case_decide as E; [right; split_and!; [lia..|done|lia]|].
    assert (E0 : lists !!! o = 0) by lia.
    assert (Hsplit : ∀ i, (o ≤ i)%nat → i = o ∨ (S o ≤ i)%nat) by lia.
    destruct (IH (S o)) as [[-> H]|(H1 & H2 & H3)]; [lia|left|right].
    + split; [done|]. intros i Hi. destruct (Hsplit i) as [->|]; [lia|done|]. apply H. lia.
    + split_and!; [lia..|done|]. intros i Hi.
      destruct (Hsplit i) as [->|]; [lia|done|]. apply H3. lia.
Qed.

Lemma rep_head_zero s fl o xs : rep s fl → fl !! o = Some xs → free_lists s !!! o = 0 → xs = [].
Proof.
  intros Hr Ho Hz. pose proof (rep_chain _ _ Hr _ _ Ho) as Hc. rewrite Hz in Hc.
  by eapply chain_zero.
Qed.

Lemma rep_set_free_pages n s fl : rep s fl → rep (set_free_pages n s) fl.
Proof. intros []. by split. Qed.

Lemma rep_set_total_pages n s fl : rep s fl → rep (set_total_pages n s) fl.
Proof. intros []. by split. Qed.

(** The two outcomes of [alloc_order]. *)
Lemma alloc_order_spec s fl order :
  rep s fl → (order < MAX_ORDER)%nat →
  (alloc_order order s = Ret (None, s) ∧
     ∀ o xs, (order ≤ o)%nat → fl !! o = Some xs → xs = []) ∨
  (∃ a s' fl', alloc_order order s = Ret (Some a, s') ∧ rep s' fl' ∧
     detached s' fl' order a ∧
     all_pages fl ≡ₚ block_pages order a ++ all_pages fl' ∧
     phys_offset s' = phys_offset s ∧ total_pages s' = total_pages s ∧
     free_pages s' = sat_sub (free_pages s) (2 ^ Z.of_nat order)).
Proof.
  intros Hr Hlt. unfold alloc_order. rewrite decide_False by lia. cbv zeta.
  destruct (find_order_spec (free_lists s) (MAX_ORDER - order) order) as
    [[-> Hz]|(Hf & Hnz & _)]; [lia|left|right].
  - rewrite decide_True by done. split; [done|]. intros o xs Hle Ho.
    pose proof (lookup_lt_Some _ _ _ Ho) as Ho'. rewrite (rep_orders _ _ Hr) in Ho'.
    eapply rep_head_zero; [done..|]. apply Hz. lia.
  - set (f := find_order _ _ _) in *. rewrite decide_False by lia.
    destruct (rep_lookup s fl f Hr) as [xs Hxs]; [lia|].
    pose proof (rep_chain _ _ Hr _ _ Hxs) as Hc.
    destruct xs as [|x xs]; [done|]. destruct Hc as (Hh & _ & _). rewrite Hh in *.
    pose proof (unlink_rep s fl f [] x xs Hr Hxs) as Hr1. simpl in Hr1.
    pose proof (all_pages_remove fl f [] x xs Hxs) as Hp. simpl in Hp.
    replace f with (order + (f - order))%nat in Hr1, Hp, Hxs |- * by lia.
    edestruct (split_down_rep (f - order) order x) as
      (s2 & fl2 & Hs & Hr2 & Hd2 & Hp2 & Hoff & Hfp & Htp); [exact Hr1|lia| |].
    { split; [by eapply (rep_block s fl); [|exact Hxs|left]|].
      rewrite <- Hp. apply Hr. }
    replace (order + (f - order) - order)%nat with (f - order)%nat by lia.
    rewrite Hs. cbn [res_bind]. eexists x, _, fl2. split_and!; [done|..].
    + by apply rep_set_free_pages.
    + exact Hd2.
    + rewrite Hp2. exact Hp.
    + done.
    + done.
    + simpl. by rewrite Hfp.
Qed.

(** The block comes from the front of the first nonempty list. *)
Lemma alloc_order_source s fl order a s' :
  rep s fl → (order < MAX_ORDER)%nat → alloc_order order s = Ret (Some a, s') →
  ∃ o xs, (order ≤ o)%nat ∧ fl !! o = Some (a :: xs).
Proof.
  intros Hr Hlt. unfold alloc_order. rewrite decide_False by lia. cbv zeta.
  destruct (find_order_spec (free_lists s) (MAX_ORDER - order) order) as
    [[-> Hz]|(Hf & Hnz & _)]; [lia|by rewrite decide_True|].
  set (f := find_order _ _ _) in *. rewrite decide_False by lia. intros E.
  destruct (rep_lookup s fl f Hr) as [xs Hxs]; [lia|].
  pose proof (rep_chain _ _ Hr _ _ Hxs) as Hc.
  destruct xs as [|x xs]; [done|]. destruct Hc as (Hh & _ & _).
  exists f, xs. split; [lia|]. rewrite Hxs.
  destruct (split_down _ _ _ _); simplify_eq/=. done.
Qed.

(** ** Freeing and merging *)

(** [addr ^ (PAGE_SIZE << order)] is the other half of the enclosing block. *)
Lemma buddy_cases o x :
  x mod block_size o = 0 →
  (Z.lxor x (block_size o) = x + block_size o ∧ x mod block_size (S o) = 0) ∨
  (Z.lxor x (block_size o) = x - block_size o ∧ (x - block_size o) mod block_size (S o) = 0).
Proof.
  intros Hm. rewrite block_size_S, block_size_pow in *.
  set (k := 12 + Z.of_nat o) in *. assert (Hk : 0 ≤ k) by lia.
  apply Z.mod_divide in Hm as [q Hq]; [|lia].
  assert (Hbit : Z.testbit x k = Z.odd q).
  { rewrite Hq, Z.mul_pow2_bits by lia. rewrite Z.sub_diag. apply Z.bit0_odd. }
  destruct (Z.testbit x k) eqn:Hb.
  - right. symmetry in Hbit. apply Z.odd_spec in Hbit as [r Hr].
    split; [|rewrite Hq, Hr; apply Z.mod_divide; [lia|]; exists r; lia].
    rewrite Z.sub_nocarry_ldiff.
    + apply Z.bits_inj'. intros n Hn. rewrite Z.lxor_spec, Z.ldiff_spec, Z.pow2_bits_eqb by lia.
      destruct (Z.eqb_spec k n) as [<-|]; [by rewrite Hb|]. by destruct (Z.testbit x n).
    + apply Z.bits_inj'. intros n Hn. rewrite Z.ldiff_spec, Z.pow2_bits_eqb, Z.bits_0 by lia.
      destruct (Z.eqb_spec k n) as [<-|]; [by rewrite Hb|done].
  - left. assert (Hev : Z.even q = true) by (rewrite <- Z.negb_odd, <- Hbit; done).
    apply Z.even_spec in Hev as [r Hr].
    split; [|rewrite Hq, Hr; apply Z.mod_divide; [lia|]; exists r; lia].
    symmetry. apply Z.add_nocarry_lxor. apply Z.bits_inj'. intros n Hn.
    rewrite Z.land_spec, Z.pow2_bits_eqb, Z.bits_0 by lia.
    destruct (Z.eqb_spec k n) as [<-|]; [by rewrite Hb|by rewrite andb_false_r].
Qed.

(** Merging two valid buddies gives a valid block with their pages. *)
Lemma buddy_merge off o x :
  let b := Z.lxor x (block_size o) in
  block_ok off o x → block_ok off o b →
  block_ok off (S o) (Z.min x b) ∧
  block_pages (S o) (Z.min x b) ≡ₚ block_pages o x ++ block_pages o b.
Proof.
  intros b Hx Hb. pose proof (block_size_pos o). destruct Hx as (Hx & Hm & Hbx).
  destruct Hb as (Hb & _ & Hbb).
  destruct (buddy_cases o x Hm) as [[E Ha]|[E Ha]]; fold b in E; rewrite E in *.
  - rewrite Z.min_l by lia. rewrite block_pages_split. split; [|done].
    unfold block_ok. rewrite block_size_S in *. split_and!; [lia|done|lia].
  - rewrite Z.min_r by lia. rewrite block_pages_split.
    replace (x - block_size o + block_size o) with x by lia.
    split; [|by rewrite (comm (++))].
    unfold block_ok. rewrite block_size_S in *. split_and!; [lia|done|lia].
Qed.

(** The merge loop returns within its fuel, and the pages of the freed block
    become free, at whatever order it was merged to. *)
Lemma free_loop_rep fuel : ∀ o x s fl,
  rep s fl → (o < MAX_ORDER)%nat → (MAX_ORDER - o ≤ fuel)%nat → detached s fl o x →
  ∃ o' s' fl', free_loop fuel x o s = Ret (o', s') ∧ rep s' fl' ∧
    (o ≤ o' < MAX_ORDER)%nat ∧
    all_pages fl' ≡ₚ block_pages o x ++ all_pages fl ∧
    phys_offset s' = phys_offset s ∧ free_pages s' = free_pages s ∧
    total_pages s' = total_pages s.
Proof.
  induction fuel as [|fuel IH]; intros o x s fl Hr Ho Hf Hd; [lia|]. cbn [free_loop].
  destruct (rep_lookup s fl o Hr Ho) as [xs Hxs].
  assert (Hpush : ∃ o' s' fl', (let! s' := push_free x o s in Ret (o, s')) = Ret (o', s') ∧
    rep s' fl' ∧ (o ≤ o' < MAX_ORDER)%nat ∧ all_pages fl' ≡ₚ block_pages o x ++ all_pages fl ∧
    phys_offset s' = phys_offset s ∧ free_pages s' = free_pages s ∧
    total_pages s' = total_pages s).
  { destruct (push_free_rep _ _ _ _ _ Hr Hxs Hd) as (s' & -> & Hr' & ? & ? & ?).
    eexists o, s', _. split_and!; try done; try lia. by apply all_pages_cons. }
  case_decide as Htop; [exact Hpush|]. cbv zeta.
  destruct (remove_free_spec s fl (Z.lxor x (block_size o)) o xs Hr Hxs)
    as [[_ ->]|(a & b & -> & ->)]; cbn [res_bind]; [exact Hpush|].
  set (bud := Z.lxor x (block_size o)) in *.
  assert (Hokb : block_ok (phys_offset s) o bud) by (eapply Hr; [exact Hxs|set_solver]).
  destruct Hd as [Hok Hnd].
  destruct (buddy_merge (phys_offset s) o x Hok Hokb) as [Hok' Hpg]. fold bud in Hok', Hpg.
  pose proof (all_pages_remove _ _ _ _ _ Hxs) as Hrm.
  edestruct (IH (S o) (Z.min x bud)) as (o' & s' & fl' & -> & Hr' & Ho' & Hp' & Hoff' & Hfp' & Htp').
  { by apply unlink_rep. }
  { lia. }
  { lia. }
  { split; [by rewrite set_link_offset|]. rewrite Hpg, <- (assoc_L (++)), <- Hrm. done. }
  rewrite set_link_offset in Hoff'.
  rewrite (proj1 (set_link_counters _ _ _ _)) in Hfp'.
  rewrite (proj2 (set_link_counters _ _ _ _)) in Htp'.
  exists o', s', fl'. split_and!; try done; try lia.
  rewrite Hp', Hpg, Hrm. solve_Permutation.
Qed.

Lemma free_order_spec s fl o x :
  rep s fl → (o < MAX_ORDER)%nat → detached s fl o x →
  ∃ o' s' fl', free_order x o s = Ret s' ∧ rep s' fl' ∧ (o ≤ o' < MAX_ORDER)%nat ∧
    all_pages fl' ≡ₚ block_pages o x ++ all_pages fl ∧
    phys_offset s' = phys_offset s ∧ total_pages s' = total_pages s ∧
    free_pages s' = add64 (free_pages s) (2 ^ Z.of_nat o').
Proof.
  intros Hr Ho Hd.
  destruct (free_loop_rep MAX_ORDER o x s fl Hr Ho) as
    (o' & s' & fl' & Hl & Hr' & Ho' & Hp & Hoff & Hfp & Htp); [lia|done|].
  unfold free_order. rewrite Hl. cbn [res_bind].
  eexists o', _, fl'. split_and!; try done; try lia; simpl.
  - by apply rep_set_free_pages.
  - rewrite Hfp. f_equal. f_equal. unfold MAX_ORDER in *. lia.
Qed.

(** ** Adding a memory region *)

Lemma page_align_down_eq a : is_u64 a → page_align_down a = a - a mod PAGE_SIZE.
Proof. intros Ha. unfold page_align_down. change (PAGE_SIZE - 1) with (Z.ones 12). by rewrite land_not_ones. Qed.

Lemma page_align_up_eq a :
  0 ≤ a → a + PAGE_SIZE ≤ u64_modulus →
  page_align_up a = PAGE_SIZE * ((a + (PAGE_SIZE - 1)) / PAGE_SIZE).
Proof.
  intros H0 Ha. unfold page_align_up.
  assert (E : sub64 (add64 a PAGE_SIZE) 1 = a + (PAGE_SIZE - 1)).
  { unfold sub64, add64, u64. rewrite Zminus_mod_idemp_l, Z.mod_small; unfold PAGE_SIZE in *; lia. }
  rewrite E. fold (page_align_down (a + (PAGE_SIZE - 1))).
  rewrite page_align_down_eq by (unfold is_u64, PAGE_SIZE in *; lia).
  rewrite (Z.div_mod (a + (PAGE_SIZE - 1)) PAGE_SIZE) at 1 by done. lia.
Qed.

Lemma land_block_mask o a : Z.land a (block_size o - 1) = a mod block_size o.
Proof.
  rewrite block_size_pow, <- Z.land_ones by lia. f_equal. rewrite Z.ones_equiv. lia.
Qed.

(** The pages of [addr, end_aligned), for page-aligned bounds. *)
Definition region_pages (addr end_aligned : Z) : list Z :=
  (λ i, addr + PAGE_SIZE * i) <$> seqZ 0 ((end_aligned - addr) / PAGE_SIZE).

Lemma region_pages_take o addr e :
  block_size o ≤ e - addr →
  region_pages addr e = block_pages o addr ++ region_pages (addr + block_size o) e.
Proof.
  intros Hle. unfold region_pages, block_pages. rewrite block_size_pages in *.
  replace (e - addr) with (e - (addr + PAGE_SIZE * 2 ^ Z.of_nat o) + 2 ^ Z.of_nat o * PAGE_SIZE)
    by (unfold PAGE_SIZE; lia).
  rewrite Z.div_add by done. rewrite Z.add_comm.
  rewrite seqZ_app; [|lia|apply Z.div_pos; [lia|done]]. rewrite fmap_app. f_equal.
  rewrite Z.add_0_l, <- (Z.add_0_r (2 ^ Z.of_nat o)) at 1.
  rewrite <- (fmap_add_seqZ (2 ^ Z.of_nat o) 0), <- list_fmap_compose.
  apply list_fmap_ext. intros ? i _. unfold compose. unfold PAGE_SIZE. lia.
Qed.

Lemma region_pages_nil addr e : e - addr < PAGE_SIZE → region_pages addr e = [].
Proof.
  intros H. unfold region_pages. unfold PAGE_SIZE in *. rewrite seqZ_nil; [done|].
  assert ((e - addr) / 4096 < 1) by (apply Z.div_lt_upper_bound; lia). lia.
Qed.

(** The inner loop picks an order whose block fits and is aligned. *)
Lemma fit_order_spec o addr e :
  PAGE_SIZE ≤ e - addr → addr mod PAGE_SIZE = 0 →
  (fit_order o addr e ≤ o)%nat ∧ block_size (fit_order o addr e) ≤ e - addr ∧
  addr mod block_size (fit_order o addr e) = 0.
Proof.
  intros Hle Ha. induction o as [|o IH]; cbn [fit_order].
  - case_decide as E; [rewrite land_block_mask in E; destruct E; split_and!; done|].
    exfalso. apply E. rewrite land_block_mask. done.
  - case_decide as E; [rewrite land_block_mask in E; destruct E; split_and!; done|].
    destruct IH as (? & ? & ?). split_and!; [lia|done..].
Qed.

Lemma aligned_page o a : a mod block_size o = 0 → a mod PAGE_SIZE = 0.
Proof.
  intros H. pose proof (block_size_pos o). apply Z.mod_divide in H; [|lia].
  apply Z.mod_divide; [done|]. etrans; [|exact H]. rewrite block_size_pages.
  apply Z.divide_factor_l.
Qed.

(** The outer loop returns within its fuel and frees exactly the region. *)
Lemma add_blocks_rep fuel : ∀ addr e s fl,
  rep s fl → 0 < addr → addr mod PAGE_SIZE = 0 → addr + PAGE_SIZE < u64_modulus →
  phys_offset s + e ≤ u64_modulus → e + PAGE_SIZE < u64_modulus →
  (Z.to_nat ((e - addr) / PAGE_SIZE) < fuel)%nat →
  NoDup (region_pages addr e ++ all_pages fl) →
  ∃ s' fl', add_blocks fuel addr e s = Ret s' ∧ rep s' fl' ∧
    all_pages fl' ≡ₚ region_pages addr e ++ all_pages fl ∧
    phys_offset s' = phys_offset s ∧
    u64 (total_pages s') = add64 (total_pages s) (Z.of_nat (length (region_pages addr e))).
Proof.
  induction fuel as [|fuel IH]; intros addr e s fl Hr Ha Hal Hb Hoff He Hf Hnd; [lia|].
  cbn [add_blocks]. rewrite add64_small by (unfold PAGE_SIZE in *; lia).
  case_decide as Hle.
  - destruct (fit_order_spec (MAX_ORDER - 1) addr e) as (Ho & Hbs & Hmod); [lia|done|].
    set (o := fit_order _ _ _) in *. cbv zeta. rewrite (region_pages_take o) in Hnd |- * by done.
    destruct (rep_lookup s fl o Hr) as [xs Hxs]; [unfold MAX_ORDER in *; lia|].
    assert (Hd : detached s fl o addr).
    { split; [split_and!; [lia|done|lia]|]. by eapply NoDup_app_skip. }
    destruct (push_free_rep _ _ _ _ _ Hr Hxs Hd) as (s1 & -> & Hr1 & Hoff1 & _ & Htp1).
    cbn [res_bind]. pose proof (block_size_pos o). pose proof (rep_off _ _ Hr).
    assert (Hpg : PAGE_SIZE ≤ block_size o) by (rewrite block_size_pages; unfold PAGE_SIZE; lia).
    rewrite (add64_small addr (block_size o)) by (unfold PAGE_SIZE in *; lia).
    edestruct (IH (addr + block_size o) e (set_total_pages (add64 (total_pages s1) (2 ^ Z.of_nat o)) s1))
      as (s' & fl' & Hret & Hr' & Hp' & Hoff' & Ht').
    + apply rep_set_total_pages. exact Hr1.
    + lia.
    + rewrite Z.add_mod, Hal by done. rewrite (aligned_page o (block_size o)); [done|].
      apply Z_mod_same_full.
    + lia.
    + simpl. by rewrite Hoff1.
    + done.
    + assert ((e - (addr + block_size o)) / PAGE_SIZE ≤ (e - addr) / PAGE_SIZE - 1).
      { replace ((e - addr) / PAGE_SIZE - 1) with ((e - addr + -1 * PAGE_SIZE) / PAGE_SIZE)
          by (rewrite Z.div_add by done; lia).
        apply Z.div_le_mono; [done|lia]. }
      assert (0 < (e - addr) / PAGE_SIZE) by (apply Z.div_str_pos; unfold PAGE_SIZE in *; lia). lia.
    + rewrite all_pages_cons by done. rewrite (assoc (++)), (comm (++) (region_pages _ _)).
      done.
    + exists s', fl'. rewrite Hret. split_and!; [done..| | |].
      * rewrite Hp', all_pages_cons by done. solve_Permutation.
      * rewrite Hoff'. simpl. done.
      * rewrite Ht', length_app, Nat2Z.inj_add, length_block_pages. simpl. rewrite Htp1.
        unfold add64, u64. rewrite Zplus_mod_idemp_l. f_equal. lia.
  - exists s, fl. rewrite region_pages_nil by lia. simpl. split_and!; [done..|].
    unfold add64. f_equal. lia.
Qed.

Lemma add_region_spec start e s fl :
  rep s fl → 0 < start → start + 3 * PAGE_SIZE ≤ u64_modulus → is_u64 e →
  e + PAGE_SIZE < u64_modulus → phys_offset s + e ≤ u64_modulus →
  is_u64 (total_pages s) →
  NoDup (region_pages (page_align_up start) (page_align_down e) ++ all_pages fl) →
  ∃ s' fl', add_region start e s = Ret s' ∧ rep s' fl' ∧
    all_pages fl' ≡ₚ region_pages (page_align_up start) (page_align_down e) ++ all_pages fl ∧
    phys_offset s' = phys_offset s ∧ free_pages s' = total_pages s' ∧
    u64 (total_pages s') = add64 (total_pages s)
      (Z.of_nat (length (region_pages (page_align_up start) (page_align_down e)))).
Proof.
  intros Hr H0 Hs He He' Hoff Htp Hnd. unfold add_region. cbv zeta.
  pose proof (page_align_up_eq start) as Hup. pose proof (page_align_down_eq e He) as Hdn.
  assert (Hmod : 0 ≤ e mod PAGE_SIZE < PAGE_SIZE) by (apply Z.mod_pos_bound; done).
  assert (Hge : start ≤ page_align_up start < start + PAGE_SIZE).
  { rewrite Hup by (unfold PAGE_SIZE in *; lia).
    pose proof (Z.div_mod (start + (PAGE_SIZE - 1)) PAGE_SIZE).
    pose proof (Z.mod_pos_bound (start + (PAGE_SIZE - 1)) PAGE_SIZE).
    unfold PAGE_SIZE in *. lia. }
  edestruct (add_blocks_rep (S (Z.to_nat ((page_align_down e - page_align_up start) / PAGE_SIZE)))
    (page_align_up start) (page_align_down e) s fl) as (s' & fl' & -> & Hr' & Hp & Ho & Ht);
    try done; try (unfold PAGE_SIZE in *; lia).
  { rewrite Hup by (unfold PAGE_SIZE in *; lia). rewrite Z.mul_comm. by apply Z.mod_mul. }
  cbn [res_bind]. eexists _, fl'. split_and!; try done. by apply rep_set_free_pages.
Qed.
