(* ===== verification/PmmProps.v ===== *)
(** What the buddy allocator promises: allocation, freeing, merging, seeding
    from the memory map, and the ownership discipline over any run. *)
From stdpp Require Import base numbers list gmap sets relations.
From S2P Require Import Prelude Pmm PmmFacts.

(** ** Runs of the allocator *)

(** The allocator together with the blocks it has handed out. Clients free only
    what they own, as the [# Safety] contract of [free_frames] demands. *)
Inductive pmm_step : BuddyAllocator * list (nat * Z) → BuddyAllocator * list (nat * Z) → Prop :=
| pmm_alloc s out o a s' :
    alloc_order o s = Ret (Some a, s') → pmm_step (s, out) (s', (o, a) :: out)
| pmm_alloc_none s out o s' :
    alloc_order o s = Ret (None, s') → pmm_step (s, out) (s', out)
| pmm_free s out1 o a out2 s' :
    free_order a o s = Ret s' → pmm_step (s, out1 ++ (o, a) :: out2) (s', out1 ++ out2).

Definition owned_pages (out : list (nat * Z)) : list Z := out ≫= λ b, block_pages b.1 b.2.

Definition owned_ok (s : BuddyAllocator) (out : list (nat * Z)) : Prop :=
  Forall (λ b, (b.1 < MAX_ORDER)%nat ∧ block_ok (phys_offset s) b.1 b.2) out.

(** The invariant of a run over the pages [all]. *)
Definition run_inv (all : list Z) (c : BuddyAllocator * list (nat * Z)) : Prop :=
  ∃ fl, rep c.1 fl ∧ owned_ok c.1 c.2 ∧ NoDup all ∧
    owned_pages c.2 ++ all_pages fl ≡ₚ all.

Lemma owned_pages_app o1 o2 : owned_pages (o1 ++ o2) = owned_pages o1 ++ owned_pages o2.
Proof. apply bind_app. Qed.

Lemma owned_detached s fl all out1 o a out2 :
  rep s fl → owned_ok s (out1 ++ (o, a) :: out2) → NoDup all →
  owned_pages (out1 ++ (o, a) :: out2) ++ all_pages fl ≡ₚ all →
  (o < MAX_ORDER)%nat ∧ detached s fl o a.
Proof.
  intros Hr Hok Hnd Hp. apply Forall_app in Hok as [_ Hok].
  apply Forall_cons in Hok as [[Ho Hb] _]. split; [done|]. split; [done|].
  rewrite <- Hp in Hnd. rewrite owned_pages_app in Hnd. simpl in Hnd.
  rewrite <- !(assoc_L (++)) in Hnd. apply NoDup_app in Hnd as (_ & _ & Hnd).
  rewrite (assoc_L (++)) in Hnd. by apply NoDup_app_skip in Hnd.
Qed.

Lemma alloc_order_large o s : (MAX_ORDER ≤ o)%nat → alloc_order o s = Ret (None, s).
Proof. intros H. unfold alloc_order. by rewrite decide_True. Qed.

Lemma run_inv_step all c c' : run_inv all c → pmm_step c c' → run_inv all c'.
Proof.
  intros (fl & Hr & Hok & Hnd & Hp) Hs. destruct Hs as [s out o a s' E|s out o s' E|s out1 o a out2 s' E];
    simpl in *.
  - destruct (decide (o < MAX_ORDER)%nat) as [Ho|]; [|by rewrite alloc_order_large in E by lia].
    destruct (alloc_order_spec _ _ _ Hr Ho) as [[E' _]|(a' & s1 & fl' & E' & Hr' & Hd & Hp' & Hoff & _)];
      rewrite E in E'; simplify_eq. exists fl'. split_and!; [done| |done|].
    + constructor; [split; [done|apply Hd]|]. unfold owned_ok. simpl. by rewrite Hoff.
    + simpl. rewrite <- Hp, Hp'. solve_Permutation.
  - assert (s' = s) as ->.
    { destruct (decide (o < MAX_ORDER)%nat) as [Ho|]; [|rewrite alloc_order_large in E by lia; congruence].
      destruct (alloc_order_spec _ _ _ Hr Ho) as [[E' _]|(? & ? & ? & E' & _)]; congruence. }
    exists fl. done.
  - destruct (owned_detached _ _ _ _ _ _ _ Hr Hok Hnd Hp) as [Ho Hd].
    destruct (free_order_spec _ _ _ _ Hr Ho Hd) as (o' & s1 & fl' & E' & Hr' & _ & Hp' & Hoff & _).
    rewrite E in E'; simplify_eq. exists fl'. split_and!; [done| |done|].
    + unfold owned_ok in *. simpl. rewrite Hoff. apply Forall_app in Hok as [H1 H2].
      apply Forall_cons in H2 as [_ H2]. by apply Forall_app.
    + rewrite <- Hp, Hp'. simpl. rewrite !owned_pages_app. simpl. solve_Permutation.
Qed.

Lemma run_inv_steps all c c' : run_inv all c → rtc pmm_step c c' → run_inv all c'.
Proof. intros H Hs. induction Hs; eauto using run_inv_step. Qed.

(** C1. Over any run of allocations and frees of owned blocks, started from a
    well-formed allocator, the free pages and the pages of the handed-out blocks
    are together exactly the pages the run started with, each once: no page is
    ever handed out twice, handed out while free, or lost. *)
Theorem pmm_ownership s0 fl0 s out :
  rep s0 fl0 → rtc pmm_step (s0, []) (s, out) →
  ∃ fl, rep s fl ∧ owned_pages out ++ all_pages fl ≡ₚ all_pages fl0 ∧
    NoDup (owned_pages out ++ all_pages fl).
Proof.
  intros Hr Hs.
  destruct (run_inv_steps (all_pages fl0) (s0, []) (s, out)) as (fl & Hr' & _ & Hnd & Hp); [|done|].
  { exists fl0. split_and!; [done|by constructor|apply Hr|done]. }
  exists fl. split_and!; [done..|]. by rewrite Hp.
Qed.

(** C2. [alloc_order] returns [None] exactly when no block of the order or above
    is free, leaving the state alone; otherwise it returns an aligned nonzero
    block all of whose pages were free and none of which stays free. *)
Theorem alloc_order_correct s fl order :
  rep s fl → (order < MAX_ORDER)%nat →
  (alloc_order order s = Ret (None, s) ∧ (∀ o xs, (order ≤ o)%nat → fl !! o = Some xs → xs = [])) ∨
  (∃ a s' fl' o x, alloc_order order s = Ret (Some a, s') ∧ rep s' fl' ∧
     0 < a ∧ a mod block_size order = 0 ∧
     all_pages fl ≡ₚ block_pages order a ++ all_pages fl' ∧
     (order ≤ o)%nat ∧ fl !! o = Some (a :: x) ∧
     free_pages s' = sat_sub (free_pages s) (2 ^ Z.of_nat order)).
Proof.
  intros Hr Ho. destruct (alloc_order_spec _ _ _ Hr Ho) as [H|H]; [by left|right].
  destruct H as (a & s' & fl' & E & Hr' & [(Ha & Hm & _) _] & Hp & _ & _ & Hfp).
  destruct (alloc_order_source s fl order a s' Hr Ho E) as (o & x & Hle & Hx).
  by exists a, s', fl', o, x.
Qed.

(** C3. Freeing an owned block always returns; its pages, and no others, become
    free again, merged with their buddies as far as possible or not. *)
Theorem free_order_correct s fl o x :
  rep s fl → (o < MAX_ORDER)%nat → detached s fl o x →
  ∃ s' fl', free_order x o s = Ret s' ∧ rep s' fl' ∧
    all_pages fl' ≡ₚ block_pages o x ++ all_pages fl ∧
    total_pages s' = total_pages s.
Proof.
  intros Hr Ho Hd. destruct (free_order_spec _ _ _ _ Hr Ho Hd)
    as (o' & s' & fl' & E & Hr' & _ & Hp & _ & Ht & _). by exists s', fl'.
Qed.

(** C4. Allocating a block and freeing it again succeeds and restores the set of
    free pages. *)
Theorem alloc_free_roundtrip s fl order a s1 :
  rep s fl → alloc_order order s = Ret (Some a, s1) →
  ∃ s2 fl2, free_order a order s1 = Ret s2 ∧ rep s2 fl2 ∧ all_pages fl2 ≡ₚ all_pages fl.
Proof.
  intros Hr E. destruct (decide (order < MAX_ORDER)%nat) as [Ho|];
    [|by rewrite alloc_order_large in E by lia].
  destruct (alloc_order_spec _ _ _ Hr Ho) as [[E' _]|(? & ? & fl1 & E' & Hr1 & Hd & Hp & _)];
    rewrite E in E'; simplify_eq.
  destruct (free_order_spec _ _ _ _ Hr1 Ho Hd) as (_ & s2 & fl2 & E2 & Hr2 & _ & Hp2 & _).
  exists s2, fl2. split_and!; [done..|]. by rewrite Hp2, Hp.
Qed.

(** [add_region] terminates for every region clear of address 0 and of the
    end of the address space, and frees exactly its whole pages, in blocks the
    allocator can hand out; both page counters count them. *)
Theorem add_region_correct start e s fl :
  rep s fl → 0 < start → start + 3 * PAGE_SIZE ≤ u64_modulus → is_u64 e →
  e + PAGE_SIZE < u64_modulus → phys_offset s + e ≤ u64_modulus → is_u64 (total_pages s) →
  NoDup (region_pages (page_align_up start) (page_align_down e) ++ all_pages fl) →
  ∃ s' fl', add_region start e s = Ret s' ∧ rep s' fl' ∧
    all_pages fl' ≡ₚ region_pages (page_align_up start) (page_align_down e) ++ all_pages fl ∧
    free_pages s' = total_pages s' ∧
    u64 (total_pages s') = add64 (total_pages s)
      (Z.of_nat (length (region_pages (page_align_up start) (page_align_down e)))).
Proof.
  intros Hr H1 H2 H3 H4 H5 H6 H7.
  destruct (add_region_spec start e s fl) as (s' & fl' & E & Hr' & Hp & _ & Hf & Ht); try done.
  by exists s', fl'.
Qed.

(** The page counter drifts upwards: [free_order] adds the size of the merged
    block, not of the freed one. One allocation and its free on a two-page region
    report three free pages out of two, while the free lists are back to where
    they were. *)
Theorem free_pages_overcount :
  ∃ s0 s1 s2 a,
    add_region 8192 16384 new_buddy = Ret s0 ∧ alloc_order 0 s0 = Ret (Some a, s1) ∧
    free_order a 0 s1 = Ret s2 ∧
    free_lists s2 = free_lists s0 ∧ total_pages s2 = 2 ∧ free_pages s0 = 2 ∧ free_pages s2 = 3.
Proof.
  eexists _, _, _, _. split; [vm_compute; reflexivity|].
  split; [vm_compute; reflexivity|]. split; [vm_compute; reflexivity|].
  vm_compute. done.
Qed.

(** A region that starts at physical address 0 is lost: address 0 is also the
    list terminator, so its two pages are counted as free but cannot be
    allocated at any order. *)
Theorem region_at_zero_lost :
  ∃ s0, add_region 0 8192 new_buddy = Ret s0 ∧ free_pages s0 = 2 ∧
    ∀ order, alloc_order order s0 = Ret (None, s0).
Proof.
  eexists. split; [vm_compute; reflexivity|]. split; [reflexivity|].
  intros order. destruct (decide (MAX_ORDER ≤ order)%nat) as [H|H];
    [by apply alloc_order_large|].
  unfold MAX_ORDER in H. do 11 (destruct order as [|order]; [vm_compute; reflexivity|]). lia.
Qed.

(** ** Witnesses *)

(** Seven pages from 0x1000: one block of each of the orders 0, 1 and 2. *)
Definition small_pmm : BuddyAllocator :=
  mkBuddy [4096; 8192; 16384; 0; 0; 0; 0; 0; 0; 0; 0] 7 7 0
    (<[16384 := 0]> (<[8192 := 0]> (<[4096 := 0]> ∅))).
Definition small_fl : list (list Z) :=
  [[4096]; [8192]; [16384]; []; []; []; []; []; []; []; []].

Lemma small_pmm_region : add_region 4096 32768 new_buddy = Ret small_pmm.
Proof. vm_compute. reflexivity. Qed.

Lemma empty_rep off : 0 ≤ off →
  rep (mkBuddy (replicate MAX_ORDER 0) 0 0 off ∅) (replicate MAX_ORDER []).
Proof.
  intros Hoff. split; [done..| | |].
  - intros o xs Ho. apply lookup_replicate in Ho as [-> Ho].
    change (replicate MAX_ORDER 0 !!! o = 0). by rewrite lookup_total_replicate_2.
  - intros o xs x Ho Hx. apply lookup_replicate in Ho as [-> _]. set_solver.
  - constructor.
Qed.

Lemma small_rep : rep small_pmm small_fl.
Proof.
  split; [done..| | |].
  - intros o xs Ho.
    do 11 (destruct o as [|o]; [injection Ho as <-; vm_compute; naive_solver|]). done.
  - intros o xs x Ho Hx.
    do 11 (destruct o as [|o];
      [simplify_eq/=; repeat (apply elem_of_cons in Hx as [->|Hx]; [by vm_compute|]);
       by apply not_elem_of_nil in Hx|]).
    done.
  - vm_compute. apply (bool_decide_unpack _). by vm_compute.
Qed.

(** Allocate one page, then free it: a two-step run. *)
Definition small_pmm1 : BuddyAllocator :=
  mkBuddy [0; 8192; 16384; 0; 0; 0; 0; 0; 0; 0; 0] 6 7 0 (ram small_pmm).

Lemma small_alloc : alloc_order 0 small_pmm = Ret (Some 4096, small_pmm1).
Proof. vm_compute. reflexivity. Qed.

Lemma pmm_ownership_witness :
  ∃ fl, rep small_pmm1 fl ∧ owned_pages [(0%nat, 4096)] ++ all_pages fl ≡ₚ all_pages small_fl ∧
    NoDup (owned_pages [(0%nat, 4096)] ++ all_pages fl).
Proof.
  apply (pmm_ownership small_pmm small_fl small_pmm1 [(0%nat, 4096)]); [exact small_rep|].
  apply rtc_once. constructor. exact small_alloc.
Defined.

Lemma alloc_order_correct_witness :
  (alloc_order 1 small_pmm = Ret (None, small_pmm) ∧
     (∀ o xs, (1 ≤ o)%nat → small_fl !! o = Some xs → xs = [])) ∨
  (∃ a s' fl' o x, alloc_order 1 small_pmm = Ret (Some a, s') ∧ rep s' fl' ∧
     0 < a ∧ a mod block_size 1 = 0 ∧
     all_pages small_fl ≡ₚ block_pages 1 a ++ all_pages fl' ∧
     (1 ≤ o)%nat ∧ small_fl !! o = Some (a :: x) ∧
     free_pages s' = sat_sub 7 (2 ^ Z.of_nat 1)).
Proof. apply (alloc_order_correct small_pmm small_fl 1); [exact small_rep|unfold MAX_ORDER; lia]. Defined.

(** The page at 0x8000 is outside the small allocator's memory. *)
Lemma small_detached : detached small_pmm small_fl 0 32768.
Proof.
  split; [by vm_compute|]. vm_compute. apply (bool_decide_unpack _). by vm_compute.
Qed.

Lemma free_order_correct_witness :
  ∃ s' fl', free_order 32768 0 small_pmm = Ret s' ∧ rep s' fl' ∧
    all_pages fl' ≡ₚ block_pages 0 32768 ++ all_pages small_fl ∧ total_pages s' = 7.
Proof.
  apply (free_order_correct small_pmm small_fl 0 32768);
    [exact small_rep|unfold MAX_ORDER; lia|exact small_detached].
Defined.

Lemma alloc_free_roundtrip_witness :
  ∃ s2 fl2, free_order 4096 0 small_pmm1 = Ret s2 ∧ rep s2 fl2 ∧
    all_pages fl2 ≡ₚ all_pages small_fl.
Proof. exact (alloc_free_roundtrip small_pmm small_fl 0 4096 small_pmm1 small_rep small_alloc). Defined.

Lemma add_region_correct_witness :
  ∃ s' fl', add_region 40000 60000 small_pmm = Ret s' ∧ rep s' fl' ∧
    all_pages fl' ≡ₚ region_pages (page_align_up 40000) (page_align_down 60000)
      ++ all_pages small_fl ∧
    free_pages s' = total_pages s' ∧
    u64 (total_pages s') = add64 7
      (Z.of_nat (length (region_pages (page_align_up 40000) (page_align_down 60000)))).
Proof.
  apply (add_region_correct 40000 60000 small_pmm small_fl);
    [exact small_rep|done|by vm_compute|by vm_compute|by vm_compute|by vm_compute|by vm_compute|].
  vm_compute. apply (bool_decide_unpack _). by vm_compute.
Defined.
