(* ===== verification/FrameAlloc.v ===== *)
(** What the physical memory manager promises to its clients ([alloc_frame] and
    [free_frame] of [kernel/src/memory/pmm.rs]), as an interface: the page cache,
    the page tables and the slab allocator are verified against it, and the buddy
    allocator implements it. *)
From stdpp Require Import base numbers list gmap sets.
From S2P Require Import Prelude Pmm PmmFacts.

(** [fa_rep s F O]: in state [s] the frames [F] are free and the frames [O] have
    been handed out and not given back. *)
Class FrameAllocator (A : Type) := {
  fa_alloc : A → res (option Z * A);
  fa_free : Z → A → res A;
  fa_rep : A → gset Z → gset Z → Prop;
  fa_disjoint s F O : fa_rep s F O → F ## O;
  fa_nonzero s F O f : fa_rep s F O → f ∈ O → f ≠ 0;
  fa_aligned s F O f : fa_rep s F O → f ∈ O → 0 < f ∧ f mod PAGE_SIZE = 0;
  fa_alloc_spec s F O : fa_rep s F O →
    (fa_alloc s = Ret (None, s) ∧ F = ∅) ∨
    (∃ f s', fa_alloc s = Ret (Some f, s') ∧ f ∈ F ∧
       fa_rep s' (F ∖ {[f]}) ({[f]} ∪ O));
  fa_free_spec s F O f : fa_rep s F O → f ∈ O →
    ∃ s', fa_free f s = Ret s' ∧ fa_rep s' ({[f]} ∪ F) (O ∖ {[f]})
}.

(** The buddy allocator as a frame allocator. *)
Definition buddy_rep (s : BuddyAllocator) (F O : gset Z) : Prop :=
  ∃ fl, rep s fl ∧ F = list_to_set (all_pages fl) ∧ F ## O ∧
    ∀ f, f ∈ O → block_ok (phys_offset s) 0 f.

Lemma block_pages_0 x : block_pages 0 x = [x].
Proof.
  change (block_pages 0 x) with [x + PAGE_SIZE * 0]. by rewrite Z.mul_0_r, Z.add_0_r.
Qed.

Lemma no_free_pages fl : (∀ o xs, fl !! o = Some xs → xs = []) → all_pages fl = [].
Proof.
  unfold all_pages. generalize 0%nat. induction fl as [|xs fl IH]; intros k H; [done|].
  simpl. rewrite (H 0%nat xs) by done. simpl. apply IH. intros o ys Ho. by apply (H (S o)).
Qed.

Lemma buddy_alloc_spec s F O : buddy_rep s F O →
  (alloc_frame s = Ret (None, s) ∧ F = ∅) ∨
  (∃ f s', alloc_frame s = Ret (Some f, s') ∧ f ∈ F ∧ buddy_rep s' (F ∖ {[f]}) ({[f]} ∪ O)).
Proof.
  intros (fl & Hr & -> & Hd & Hok).
  destruct (alloc_order_spec s fl 0 Hr) as [[E Hz]|(f & s' & fl' & E & Hr' & Hdet & Hp & Hoff & _)];
    [unfold MAX_ORDER; lia|left|right].
  - split; [exact E|]. rewrite no_free_pages; [done|]. intros o xs Ho. apply (Hz o); [lia|done].
  - exists f, s'. destruct Hdet as [Hokf Hnd]. rewrite block_pages_0 in *.
    apply NoDup_app in Hnd as (_ & Hnd & _).
    assert (Hset : (list_to_set (all_pages fl) : gset Z) = {[f]} ∪ list_to_set (all_pages fl')).
    { rewrite (list_to_set_perm_L _ _ Hp). simpl. set_solver. }
    assert (Hf : f ∉ (list_to_set (all_pages fl') : gset Z)) by set_solver.
    split; [exact E|]. split; [set_solver|]. exists fl'. split_and!.
    + done.
    + set_solver.
    + set_solver.
    + intros g Hg. rewrite Hoff. apply elem_of_union in Hg as [Hg|Hg]; [|by apply Hok].
      apply elem_of_singleton in Hg as ->. by rewrite <- Hoff.
Qed.

Lemma buddy_free_spec s F O f : buddy_rep s F O → f ∈ O →
  ∃ s', free_frame f s = Ret s' ∧ buddy_rep s' ({[f]} ∪ F) (O ∖ {[f]}).
Proof.
  intros (fl & Hr & -> & Hd & Hok) Hf.
  assert (Hdet : detached s fl 0 f).
  { split; [by apply Hok|]. rewrite block_pages_0. apply NoDup_app. split_and!.
    - apply NoDup_singleton.
    - set_solver.
    - apply Hr. }
  destruct (free_order_spec s fl 0 f Hr) as (o' & s' & fl' & E & Hr' & _ & Hp & Hoff & _);
    [unfold MAX_ORDER; lia|done|].
  exists s'. split; [exact E|]. exists fl'. rewrite block_pages_0 in Hp. split_and!.
  - done.
  - rewrite (list_to_set_perm_L _ _ Hp). done.
  - set_solver.
  - intros g Hg. rewrite Hoff. apply Hok. set_solver.
Qed.

#[export] Program Instance buddy_frame_allocator : FrameAllocator BuddyAllocator := {
  fa_alloc := alloc_frame;
  fa_free := free_frame;
  fa_rep := buddy_rep;
  fa_alloc_spec := buddy_alloc_spec;
  fa_free_spec := buddy_free_spec
}.
Next Obligation. by intros s F O (fl & _ & _ & Hd & _). Qed.
Next Obligation. intros s F O f (fl & _ & _ & _ & Hok) Hf. destruct (Hok f Hf). lia. Qed.
Next Obligation. intros s F O f (fl & _ & _ & _ & Hok) Hf. destruct (Hok f Hf) as (H0 & Hm & _). split; [done|exact Hm]. Qed.

Create HintDb frames.
#[export] Hint Resolve fa_disjoint : frames.
