(* ===== verification/PageCache.v ===== *)
(** The unified page cache: [kernel/src/page_cache.rs].

    File pages keyed by (inode, page offset), each held in a frame of the
    physical memory manager, with an insertion-ordered queue that picks the
    page to evict once [MAX_PAGES] are cached. The model is a client of the
    [FrameAllocator] interface and keeps the contents of the frames. *)
From stdpp Require Import base numbers list gmap sets sorting.
From S2P Require Import Prelude Pmm FrameAlloc.

Definition MAX_PAGES : nat := 1024.
Definition PAGE_BYTES : nat := 4096.

Record CacheKey := mkKey { ino : Z; page_offset : Z }.
Record CacheEntry := mkEntry { phys_frame : Z; dirty : bool }.

#[export] Instance CacheKey_eq_dec : EqDecision CacheKey.
Proof. solve_decision. Defined.
#[export] Instance CacheKey_countable : Countable CacheKey.
Proof.
  apply (inj_countable' (λ k, (ino k, page_offset k)) (λ p, mkKey p.1 p.2)). by intros [].
Defined.

(** The derived [Ord] of [CacheKey]: the fields, lexicographically. *)
Definition key_le (a b : CacheKey) : Prop :=
  ino a < ino b ∨ (ino a = ino b ∧ page_offset a ≤ page_offset b).
#[export] Instance key_le_dec : RelDecision key_le.
Proof. intros a b. unfold key_le. apply _. Defined.

Section page_cache.
Context {A : Type} `{FA : FrameAllocator A}.

(** [PageCacheState], the three counters, the allocator the frames come from,
    and the bytes of the allocated frames. *)
Record PageCache := mkPC {
  entries : gmap CacheKey CacheEntry;
  lru : list CacheKey;
  hits : Z;
  misses : Z;
  evictions : Z;
  falloc : A;
  frame_mem : gmap Z (list Z)
}.

(** [remove] an entry and give its frame back: the body shared by the eviction
    loop and [invalidate]. The freed frame's bytes belong to the allocator. *)
Definition drop_entry (k : CacheKey) (e : CacheEntry) (st : PageCache) : res PageCache :=
  let! a := fa_free (phys_frame e) (falloc st) in
  Ret (mkPC (delete k (entries st)) (lru st) (hits st) (misses st)
         (add64 (evictions st) 1) a (delete (phys_frame e) (frame_mem st))).

Definition set_lru (q : list CacheKey) (st : PageCache) : PageCache :=
  mkPC (entries st) q (hits st) (misses st) (evictions st) (falloc st) (frame_mem st).

(** The [while cache.lru.len() >= MAX_PAGES] loop of [insert_frame]. *)
Fixpoint evict_loop (q : list CacheKey) (st : PageCache) : res PageCache :=
  if decide (MAX_PAGES ≤ length q)%nat then
    match q with
    | [] => OutOfFuel
    | k :: q' =>
        match entries st !! k with
        | Some e => let! st' := drop_entry k e st in evict_loop q' st'
        | None => evict_loop q' st
        end
    end
  else Ret (set_lru q st).

Definition insert_frame (i page_off phys : Z) (d : bool) (st : PageCache) : res PageCache :=
  let key := mkKey i page_off in
  let! st' := evict_loop (lru st) st in
  Ret (mkPC (<[key := mkEntry phys d]> (entries st')) (lru st' ++ [key]) (hits st')
         (misses st') (evictions st') (falloc st') (frame_mem st')).

Definition count_hit (st : PageCache) : PageCache :=
  mkPC (entries st) (lru st) (add64 (hits st) 1) (misses st) (evictions st) (falloc st)
    (frame_mem st).
Definition count_miss (st : PageCache) : PageCache :=
  mkPC (entries st) (lru st) (hits st) (add64 (misses st) 1) (evictions st) (falloc st)
    (frame_mem st).
Definition set_frame (f : Z) (bytes : list Z) (a : A) (st : PageCache) : PageCache :=
  mkPC (entries st) (lru st) (hits st) (misses st) (evictions st) a
    (<[f := bytes]> (frame_mem st)).
Definition zero_page : list Z := replicate PAGE_BYTES 0.

(** A loader fills the zeroed frame for a page offset and says how many bytes it
    produced; 0 is end of file. It may panic. *)
Abbreviation loader_t := (Z → list Z → res (nat * list Z)).

Definition get_or_load_page (i page_off : Z) (loader : loader_t) (st : PageCache)
    : res (Z * PageCache) :=
  match entries st !! mkKey i page_off with
  | Some e => Ret (phys_frame e, count_hit st)
  | None =>
      let st := count_miss st in
      let! (o, a) := fa_alloc (falloc st) in
      match o with
      | None => Ret (0, mkPC (entries st) (lru st) (hits st) (misses st) (evictions st) a
                          (frame_mem st))
      | Some phys =>
          let! (loaded, bytes) := loader page_off zero_page in
          let st := set_frame phys bytes a st in
          if decide (loaded = 0)%nat then
            let! a' := fa_free phys (falloc st) in
            Ret (0, mkPC (entries st) (lru st) (hits st) (misses st) (evictions st) a'
                      (delete phys (frame_mem st)))
          else
            let! st' := insert_frame i page_off phys false st in
            Ret (phys, st')
      end
  end.

Definition get_or_alloc_page (i page_off : Z) (st : PageCache) : res (Z * PageCache) :=
  match entries st !! mkKey i page_off with
  | Some e => Ret (phys_frame e, count_hit st)
  | None =>
      let st := count_miss st in
      let! (o, a) := fa_alloc (falloc st) in
      match o with
      | None => Ret (0, mkPC (entries st) (lru st) (hits st) (misses st) (evictions st) a
                          (frame_mem st))
      | Some phys =>
          let! st' := insert_frame i page_off phys true (set_frame phys zero_page a st) in
          Ret (phys, st')
      end
  end.

(** The bytes of an allocated frame, as read through the physical window. *)
Definition frame_bytes (phys : Z) (st : PageCache) : list Z :=
  default zero_page (frame_mem st !! phys).

(** The loop of [read_bytes]: [want] bytes still to produce. *)
Fixpoint read_loop (fuel : nat) (i pos : Z) (want : nat) (loader : loader_t) (st : PageCache)
    : res (list Z * PageCache) :=
  match fuel with
  | O => OutOfFuel
  | S fuel' =>
      if decide (want = 0)%nat then Ret ([], st) else
      let page_off := page_align_down pos in
      let page_inner := Z.to_nat (pos - page_off) in
      let can_read := Nat.min (PAGE_BYTES - page_inner) want in
      let! (phys, st1) := get_or_load_page i page_off loader st in
      if decide (phys = 0) then Ret ([], st1) else
      let chunk := take can_read (drop page_inner (frame_bytes phys st1)) in
      let! (rest, st2) :=
        read_loop fuel' i (add64 pos (Z.of_nat can_read)) (want - can_read) loader st1 in
      Ret (chunk ++ rest, st2)
  end.

(** [read_bytes]: the bytes written to the front of the buffer of [len] bytes;
    their number is the value the function returns. *)
Definition read_bytes (i file_offset : Z) (len : nat) (loader : loader_t) (st : PageCache)
    : res (list Z * PageCache) :=
  read_loop (S len) i file_offset len loader st.

(** [dst[start..start + |src|] = src]. *)
Definition splice (dst : list Z) (start : nat) (src : list Z) : list Z :=
  take start dst ++ src ++ drop (start + length src) dst.

Definition mark_dirty (k : CacheKey) (st : PageCache) : PageCache :=
  mkPC (alter (λ e, mkEntry (phys_frame e) true) k (entries st)) (lru st) (hits st) (misses st)
    (evictions st) (falloc st) (frame_mem st).
Definition mark_clean (k : CacheKey) (st : PageCache) : PageCache :=
  mkPC (alter (λ e, mkEntry (phys_frame e) false) k (entries st)) (lru st) (hits st) (misses st)
    (evictions st) (falloc st) (frame_mem st).

Fixpoint write_loop (fuel : nat) (i pos : Z) (data : list Z) (st : PageCache) : res PageCache :=
  match fuel with
  | O => OutOfFuel
  | S fuel' =>
      if decide (length data = 0)%nat then Ret st else
      let page_off := page_align_down pos in
      let page_inner := Z.to_nat (pos - page_off) in
      let can_write := Nat.min (PAGE_BYTES - page_inner) (length data) in
      let! (phys, st1) := get_or_alloc_page i page_off st in
      if decide (phys = 0) then Ret st1 else
      let bytes := splice (frame_bytes phys st1) page_inner (take can_write data) in
      let st2 := mark_dirty (mkKey i page_off) (set_frame phys bytes (falloc st1) st1) in
      write_loop fuel' i (add64 pos (Z.of_nat can_write)) (drop can_write data) st2
  end.

Definition write_bytes (i file_offset : Z) (data : list Z) (st : PageCache) : res PageCache :=
  write_loop (S (length data)) i file_offset data st.

(** The [for k in keys_to_remove] loop of [invalidate]. *)
Fixpoint invalidate_keys (ks : list CacheKey) (st : PageCache) : res PageCache :=
  match ks with
  | [] => Ret st
  | k :: ks' =>
      let! st1 := match entries st !! k with
                  | Some e => drop_entry k e st
                  | None => Ret st
                  end in
      invalidate_keys ks' (set_lru (filter (λ l, l ≠ k) (lru st1)) st1)
  end.

Definition invalidate (i : Z) (st : PageCache) : res PageCache :=
  invalidate_keys (filter (λ k, ino k = i) (btree_list key_le (entries st)).*1) st.

Definition get_phys_frame (i page_off : Z) (st : PageCache) : option Z :=
  phys_frame <$> entries st !! mkKey i page_off.

Definition cache_stats (st : PageCache) : Z * Z * Z := (hits st, misses st, evictions st).

(** [tick_writeback]: [write_page] is the VFS side, which looks the inode up,
    writes the page and says whether that worked. *)
Section writeback.
Context {V : Type} (write_page : Z → Z → list Z → V → bool * V).

Fixpoint writeback_loop (ps : list (CacheKey * Z)) (st : PageCache) (v : V) : PageCache * V :=
  match ps with
  | [] => (st, v)
  | (k, phys) :: ps' =>
      let (ok, v') := write_page (ino k) (page_offset k) (frame_bytes phys st) v in
      writeback_loop ps' (if ok then mark_clean k st else st) v'
  end.

Definition dirty_pages (st : PageCache) : list (CacheKey * Z) :=
  (λ p, (p.1, phys_frame p.2)) <$>
    filter (λ p, dirty p.2 = true) (btree_list key_le (entries st)).

Definition tick_writeback (st : PageCache) (v : V) : PageCache * V :=
  writeback_loop (dirty_pages st) st v.
End writeback.
End page_cache.
Arguments PageCache A : clear implicits.
