(* ===== verification/PageCacheFacts.v ===== *)
(** The page cache: its invariant, frame accounting against any frame
    allocator, and coherence of cached reads with the file. *)
From stdpp Require Import base numbers list gmap sets sorting.
From S2P Require Import Prelude Pmm PmmFacts FrameAlloc PageCache PmmProps.

Section page_cache_facts.
Context {A : Type} `{FA : FrameAllocator A}.
Implicit Types (st : PageCache A) (F O : gset Z).

(** The queue lists the cached keys, each once and at most [MAX_PAGES] of them;
    every cached page has a frame of its own, handed out by the allocator,
    holding one page of bytes. *)
Record pc_inv st F O : Prop := {
  pc_rep : fa_rep (falloc st) F O;
  pc_keys k : k ∈ lru st ↔ is_Some (entries st !! k);
  pc_nodup : NoDup (lru st);
  pc_cap : (length (lru st) ≤ MAX_PAGES)%nat;
  pc_owned k e : entries st !! k = Some e → phys_frame e ∈ O;
  pc_inj k1 k2 e1 e2 : entries st !! k1 = Some e1 → entries st !! k2 = Some e2 →
    phys_frame e1 = phys_frame e2 → k1 = k2;
  pc_mem k e : entries st !! k = Some e →
    ∃ b, frame_mem st !! phys_frame e = Some b ∧ length b = PAGE_BYTES
}.

(** Bytes of a cached page. *)
Definition cached st (k : CacheKey) : option (list Z) :=
  entries st !! k ≫= λ e, frame_mem st !! phys_frame e.

(** [st'] keeps only pages [st] had, with their bytes. *)
Definition shrinks st st' : Prop := ∀ k b, cached st' k = Some b → cached st k = Some b.

(** The handed-out frames that are not the cache's: an operation that neither leaks a
    frame nor gives away one of somebody else keeps exactly these. *)
Definition held st (f : Z) : Prop := ∃ k e, entries st !! k = Some e ∧ phys_frame e = f.
Definition others st O (f : Z) : Prop := f ∈ O ∧ ¬ held st f.
Definition kept st O st' O' : Prop := ∀ f, others st' O' f ↔ others st O f.

Lemma kept_refl st O st' : entries st' = entries st → kept st O st' O.
Proof. intros E f. unfold others, held. by rewrite E. Qed.
Lemma kept_trans st1 O1 st2 O2 st3 O3 : kept st1 O1 st2 O2 → kept st2 O2 st3 O3 → kept st1 O1 st3 O3.
Proof. intros H1 H2 f. by rewrite (H2 f), (H1 f). Qed.

(** Dropping the entry of [k], whose key is taken out of the queue. *)
Lemma drop_entry_inv st F O k e q :
  pc_inv st F O → entries st !! k = Some e →
  (∀ k', k' ∈ q ↔ k' ∈ lru st ∧ k' ≠ k) → NoDup q → (length q ≤ MAX_PAGES)%nat →
  ∃ st', drop_entry k e st = Ret st' ∧
    pc_inv (set_lru q st') ({[phys_frame e]} ∪ F) (O ∖ {[phys_frame e]}) ∧
    (∀ k', cached st' k' = if decide (k' = k) then None else cached st k') ∧
    (∀ f, f ≠ phys_frame e → frame_mem st' !! f = frame_mem st !! f) ∧
    entries st' = delete k (entries st) ∧ kept st O st' (O ∖ {[phys_frame e]}).
Proof.
  intros Hi Hk Hq Hnd Hlen.
  destruct (fa_free_spec _ _ _ _ (pc_rep _ _ _ Hi) (pc_owned _ _ _ Hi _ _ Hk)) as (a & Ha & Hr).
  unfold drop_entry. rewrite Ha. cbn [res_bind]. eexists. split; [done|].
  assert (Hne : ∀ k' e', k' ≠ k → entries st !! k' = Some e' → phys_frame e' ≠ phys_frame e).
  { intros k' e' Hkk He' Hf. apply Hkk. by eapply Hi. }
  split_and!; [split|..]; simpl.
  - done.
  - intros k'. rewrite Hq, (pc_keys _ _ _ Hi), lookup_delete. case_decide; subst.
    + split; [by intros [_ ?]|by intros [? ?]].
    + split; [by intros [? _]|intros Hs; split; [done|congruence]].
  - done.
  - done.
  - intros k' e'. rewrite lookup_delete_Some. intros [? He'].
    pose proof (pc_owned _ _ _ Hi _ _ He'). specialize (Hne k' e'). set_solver.
  - intros k1 k2 e1 e2. rewrite !lookup_delete_Some. intros [_ ?] [_ ?] ?. by eapply Hi.
  - intros k' e'. rewrite lookup_delete_Some. intros [? He'].
    rewrite lookup_delete_ne by (intros E; by eapply Hne). by eapply Hi.
  - intros k'. unfold cached. simpl. rewrite lookup_delete. case_decide as E; [subst|].
    + by rewrite decide_True.
    + rewrite decide_False by done. destruct (entries st !! k') as [e'|] eqn:He'; [|done].
      simpl. by rewrite lookup_delete_ne by (intros E'; by eapply Hne).
  - intros f Hf. by rewrite lookup_delete_ne.
  - done.
  - intros f. unfold others, held. simpl. rewrite elem_of_difference, elem_of_singleton. split.
    + intros [[HO Hf] Hn]. split; [done|]. intros (k' & e' & He' & E). apply Hn. exists k', e'. split; [|done].
      rewrite lookup_delete_ne; [done|]. intros <-. congruence.
    + intros [HO Hn]. split; [split; [done|]; intros ->; apply Hn; by exists k, e|].
      intros (k' & e' & He' & E). apply Hn. exists k', e'. by apply lookup_delete_Some in He' as [_ ?].
Qed.

Lemma set_lru_same st : set_lru (lru st) st = st.
Proof. by destruct st. Qed.

(** The loop reads the queue from its argument only. *)
Lemma evict_loop_lru q q' st : evict_loop q st = evict_loop q (set_lru q' st).
Proof.
  revert st. induction q as [|k q IH]; intros st; cbn [evict_loop]; case_decide; try done.
  simpl. destruct (entries st !! k) as [e|]; [|apply IH].
  unfold drop_entry. simpl. destruct (fa_free _ _); [|done..]. cbn [res_bind].
  apply IH.
Qed.

(** Eviction brings the queue below the capacity and frees what it drops. *)
Lemma evict_loop_inv st F O :
  pc_inv st F O →
  ∃ st' F' O', evict_loop (lru st) st = Ret st' ∧ pc_inv st' F' O' ∧
    (length (lru st') < MAX_PAGES)%nat ∧ F' ∪ O' = F ∪ O ∧ O' ⊆ O ∧ shrinks st st' ∧
    entries st' ⊆ entries st ∧
    (∀ f, (∀ k e, entries st !! k = Some e → phys_frame e ≠ f) →
       frame_mem st' !! f = frame_mem st !! f ∧ (f ∈ O → f ∈ O')) ∧ kept st O st' O'.
Proof.
  remember (lru st) as q eqn:Hq. revert st F O Hq.
  induction q as [|k q IH]; intros st F O Hq Hi; cbn [evict_loop].
  - rewrite decide_False by (unfold MAX_PAGES; simpl; lia). rewrite Hq, set_lru_same.
    exists st, F, O. split_and!; try done; [rewrite <- Hq; unfold MAX_PAGES; simpl; lia|by intros k b].
  - case_decide as Hcap.
    + pose proof (pc_nodup _ _ _ Hi) as Hnd. rewrite <- Hq in Hnd.
      apply NoDup_cons in Hnd as [Hkq Hnd].
      assert (Hk : k ∈ lru st) by (rewrite <- Hq; by left).
      apply (pc_keys _ _ _ Hi) in Hk as [e He]. rewrite He.
      destruct (drop_entry_inv st F O k e q) as (st1 & Hdr & Hi1 & Hc & Hm & Hen & Hkp); try done.
      { intros k'. rewrite <- Hq, elem_of_cons. split; [|by intros [[?|?] ?]].
        intros Hin. split; [by right|by intros ->]. }
      { pose proof (pc_cap _ _ _ Hi) as Hle. rewrite <- Hq in Hle. simpl in Hle. lia. }
      rewrite Hdr. cbn [res_bind].
      destruct (IH (set_lru q st1) _ _ eq_refl Hi1) as
        (st' & F' & O' & Hev & Hi' & Hl & Hu & Hsub & Hsh & Hent & Hfr & Hkp').
      assert (Hev' : evict_loop q st1 = evict_loop q (set_lru q st1)).
      { apply evict_loop_lru. }
      exists st', F', O'. rewrite Hev'. split_and!; [done..| | | | | |by eapply kept_trans].
      * rewrite Hu. pose proof (pc_owned _ _ _ Hi _ _ He).
        apply set_eq. intros x. destruct (decide (x = phys_frame e)); set_solver.
      * set_solver.
      * intros k' b Hb. apply Hsh in Hb. unfold cached in Hb. simpl in Hb. fold (cached st1 k') in Hb.
        rewrite Hc in Hb. by case_decide.
      * etrans; [exact Hent|]. simpl. rewrite Hen. apply delete_subseteq.
      * intros f Hf. pose proof (Hf k e He) as Hfe.
        destruct (Hfr f) as [Hfm HfO].
        { simpl. rewrite Hen. intros k' e'. rewrite lookup_delete_Some. intros [_ ?]. by eapply Hf. }
        simpl in Hfm. split; [|set_solver]. rewrite Hfm. apply Hm. congruence.
    + rewrite Hq, set_lru_same. exists st, F, O. split_and!; try done; [rewrite <- Hq; lia|by intros k' b].
Qed.

Lemma insert_frame_inv st F O i off phys d b :
  pc_inv st F O → entries st !! mkKey i off = None → phys ∈ O →
  (∀ k e, entries st !! k = Some e → phys_frame e ≠ phys) →
  frame_mem st !! phys = Some b → length b = PAGE_BYTES →
  ∃ st' F' O', insert_frame i off phys d st = Ret st' ∧ pc_inv st' F' O' ∧
    F' ∪ O' = F ∪ O ∧ entries st' !! mkKey i off = Some (mkEntry phys d) ∧
    frame_mem st' !! phys = Some b ∧
    (∀ k b', k ≠ mkKey i off → cached st' k = Some b' → cached st k = Some b') ∧
    (∀ f, f ∈ O → (∀ k e, entries st !! k = Some e → phys_frame e ≠ f) → f ∈ O') ∧
    (∀ f, others st' O' f ↔ others st O f ∧ f ≠ phys).
Proof.
  intros Hi Hk Hp Hfresh Hb Hlen.
  destruct (evict_loop_inv st F O Hi) as (st1 & F' & O' & Hev & Hi1 & Hl & Hu & _ & Hsh & Hent & Hfr & Hkp).
  unfold insert_frame. rewrite Hev. cbv zeta. cbn [res_bind].
  destruct (Hfr phys Hfresh) as [Hbm HpO]. rewrite Hb in Hbm.
  assert (Hk1 : entries st1 !! mkKey i off = None) by (by eapply lookup_weaken_None).
  assert (Hfresh1 : ∀ k e, entries st1 !! k = Some e → phys_frame e ≠ phys).
  { intros k e He. eapply Hfresh. by eapply lookup_weaken. }
  eexists _, F', O'. split; [done|]. split_and!; simpl; [split; simpl|..].
  - apply Hi1.
  - intros k. rewrite elem_of_app, list_elem_of_singleton, (pc_keys _ _ _ Hi1), lookup_insert.
    case_decide as E; [subst; naive_solver|]. naive_solver.
  - apply NoDup_app. split_and!; [apply Hi1| |apply NoDup_singleton].
    intros k Hin Hin'. apply list_elem_of_singleton in Hin' as ->.
    apply (pc_keys _ _ _ Hi1) in Hin as [? ?]. congruence.
  - rewrite length_app. simpl. lia.
  - intros k e. rewrite lookup_insert. case_decide; [intros [= <-]; simpl; auto|by apply Hi1].
  - intros k1 k2 e1 e2. rewrite !lookup_insert.
    repeat case_decide; intros He1 He2 Hf; simplify_eq/=; try done.
    + exfalso. by eapply Hfresh1.
    + exfalso. by eapply Hfresh1.
    + by eapply Hi1.
  - intros k e. rewrite lookup_insert. case_decide; [intros [= <-]; simpl; eauto|by apply Hi1].
  - exact Hu.
  - apply lookup_insert_eq.
  - exact Hbm.
  - intros k b' Hne Hc. apply Hsh. unfold cached in *. simpl in Hc.
    by rewrite lookup_insert_ne in Hc.
  - intros f Hf Hno. by apply Hfr.
  - intros f. rewrite <- (Hkp f). unfold others, held. simpl. split.
    + intros [HO Hn]. split; [split; [done|]|].
      * intros (k & e & He & E). apply Hn. exists k, e. split; [|done]. rewrite lookup_insert_ne; [done|]. congruence.
      * intros ->. apply Hn. eexists _, _. split; [apply lookup_insert_eq|done].
    + intros [[HO Hn] Hf]. split; [done|]. intros (k & e & He & E). rewrite lookup_insert in He. case_decide; [simplify_eq/=|].
      apply Hn. by exists k, e.
Qed.

(** ** Coherence with a file *)

(** One page of a file, zero-filled past the end. *)
Definition file_page (file : list Z) (off : Z) : list Z :=
  resize PAGE_BYTES 0 (drop (Z.to_nat off) file).

(** The loader reads [file]: inside the file it overwrites the zeroed frame with
    the bytes of the page and returns their number. *)
Definition loads (loader : Z → list Z → res (nat * list Z)) (file : list Z) : Prop :=
  ∀ off, 0 ≤ off < Z.of_nat (length file) → loader off zero_page =
    Ret (Nat.min PAGE_BYTES (length file - Z.to_nat off), file_page file off).

Definition coherent st (i : Z) (file : list Z) : Prop :=
  ∀ off b, cached st (mkKey i off) = Some b → b = file_page file off.

Lemma length_file_page file off : length (file_page file off) = PAGE_BYTES.
Proof. apply length_resize. Qed.

Lemma pc_inv_hit st F O : pc_inv st F O → pc_inv (count_hit st) F O.
Proof. intros []. by split. Qed.
Lemma pc_inv_miss st F O : pc_inv st F O → pc_inv (count_miss st) F O.
Proof. intros []. by split. Qed.

(** A frame just allocated: not cached, its bytes set. *)
Lemma pc_inv_alloc st F O f a b :
  pc_inv st F O → f ∈ F → fa_rep a (F ∖ {[f]}) ({[f]} ∪ O) →
  pc_inv (set_frame f b a st) (F ∖ {[f]}) ({[f]} ∪ O) ∧
  (∀ k e, entries st !! k = Some e → phys_frame e ≠ f) ∧
  (∀ k, cached (set_frame f b a st) k = cached st k).
Proof.
  intros Hi Hf Ha. pose proof (fa_disjoint _ _ _ (pc_rep _ _ _ Hi)) as Hd.
  assert (Hne : ∀ k e, entries st !! k = Some e → phys_frame e ≠ f).
  { intros k e He. pose proof (pc_owned _ _ _ Hi _ _ He). set_solver. }
  split_and!; [split; simpl|done|].
  - done.
  - apply Hi.
  - apply Hi.
  - apply Hi.
  - intros k e He. pose proof (pc_owned _ _ _ Hi _ _ He). set_solver.
  - apply Hi.
  - intros k e He. rewrite lookup_insert_ne by (intros E; by eapply Hne). by eapply Hi.
  - intros k. unfold cached. simpl. destruct (entries st !! k) as [e|] eqn:He; [|done].
    simpl. rewrite lookup_insert_ne; [done|]. intros E. by eapply Hne.
Qed.

(** Inserting a frame just allocated changes nothing for the others. *)
Lemma kept_insert st O st' f b a O' :
  (∀ k e, entries st !! k = Some e → phys_frame e ≠ f) → f ∉ O →
  (∀ x, others st' O' x ↔ others (set_frame f b a st) ({[f]} ∪ O) x ∧ x ≠ f) → kept st O st' O'.
Proof.
  intros Hne Hf H x. rewrite (H x). unfold others. change (held (set_frame f b a st) x) with (held st x).
  rewrite elem_of_union, elem_of_singleton. split; [naive_solver|]. intros [HO Hn]. split; [split; [by right|done]|].
  by intros ->.
Qed.

(** A cached or loadable page is returned with the bytes of the file, unless
    the machine is out of frames. *)
Lemma get_or_load_page_spec st F O i off file loader :
  pc_inv st F O → coherent st i file → loads loader file → 0 ≤ off < Z.of_nat (length file) →
  ∃ phys st' F' O', get_or_load_page i off loader st = Ret (phys, st') ∧ pc_inv st' F' O' ∧
    coherent st' i file ∧ F' ∪ O' = F ∪ O ∧
    ((phys = 0 ∧ F' = ∅ ∧ F = ∅ ∧ entries st !! mkKey i off = None) ∨
     (phys ≠ 0 ∧ frame_bytes phys st' = file_page file off)).
Proof.
  intros Hi Hco Hld Hoff. unfold get_or_load_page.
  destruct (entries st !! mkKey i off) as [e|] eqn:He.
  - exists (phys_frame e), (count_hit st), F, O. split_and!; try done.
    + by apply pc_inv_hit.
    + right. destruct (pc_mem _ _ _ Hi _ _ He) as (b & Hb & _). split.
      * eapply fa_nonzero; [by apply Hi|]. by eapply Hi.
      * unfold frame_bytes. simpl. rewrite Hb. simpl. apply Hco. unfold cached. by rewrite He.
  - apply pc_inv_miss in Hi. cbv zeta.
    destruct (fa_alloc_spec _ _ _ (pc_rep _ _ _ Hi)) as [[Ha HF]|(f & a & Ha & Hf & Hr)];
      rewrite Ha; cbn [res_bind].
    + eexists 0, _, F, O. split_and!; [done| |done|done|by left]. destruct Hi. by split.
    + rewrite Hld by lia. cbn [res_bind]. rewrite decide_False by (unfold PAGE_BYTES; lia).
      destruct (pc_inv_alloc _ _ _ f a (file_page file off) Hi Hf Hr) as (Hi1 & Hne & Hc1).
      edestruct (insert_frame_inv _ _ _ i off f false (file_page file off) Hi1) as
        (st' & F' & O' & Hins & Hi' & Hu & Hent & Hm & Hsub & _).
      { done. } { set_solver. } { exact Hne. } { apply lookup_insert_eq. }
      { apply length_file_page. }
      rewrite Hins. cbn [res_bind]. exists f, st', F', O'. split_and!; [done..| | |].
      * intros off' b Hb. destruct (decide (off' = off)) as [->|Hoo].
        -- unfold cached in Hb. rewrite Hent in Hb. simpl in Hb. congruence.
        -- apply (Hco off'). change (cached (count_miss st) (mkKey i off') = Some b).
           rewrite <- Hc1. apply Hsub; [congruence|done].
      * rewrite Hu. apply set_eq. intros x. destruct (decide (x = f)); set_solver.
      * right. split; [|unfold frame_bytes; by rewrite Hm].
        eapply fa_nonzero; [by apply Hi'|].
        change f with (phys_frame (mkEntry f false)). by eapply Hi'.
Qed.

Lemma file_page_chunk file off inner n :
  (inner + n ≤ PAGE_BYTES)%nat → (Z.to_nat off + inner + n ≤ length file)%nat →
  take n (drop inner (file_page file off)) = take n (drop (Z.to_nat off + inner) file).
Proof.
  intros H1 H2. unfold file_page. rewrite !take_drop_commute, take_resize_le by lia.
  rewrite resize_le by (rewrite length_drop; lia).
  rewrite take_drop_commute, drop_drop. f_equal. f_equal. lia.
Qed.

(** The loop of [read_bytes], for a range inside the file. *)
Lemma read_loop_spec fuel : ∀ st F O i pos want file loader,
  pc_inv st F O → coherent st i file → loads loader file → (want < fuel)%nat →
  0 ≤ pos → pos + Z.of_nat want ≤ Z.of_nat (length file) → Z.of_nat (length file) < u64_modulus →
  ∃ bs st' F' O', read_loop fuel i pos want loader st = Ret (bs, st') ∧ pc_inv st' F' O' ∧
    coherent st' i file ∧ F' ∪ O' = F ∪ O ∧
    bs = take (length bs) (drop (Z.to_nat pos) file) ∧ (length bs = want ∨ F' = ∅).
Proof.
  induction fuel as [|fuel IH]; intros st F O i pos want file loader Hi Hco Hld Hf Hp Hr Hu; [lia|].
  cbn [read_loop]. case_decide as Hw.
  { exists [], st, F, O. split_and!; try done. left. by rewrite Hw. }
  cbv zeta. rewrite page_align_down_eq by (unfold is_u64; lia).
  assert (Hm : 0 ≤ pos mod PAGE_SIZE < PAGE_SIZE) by (apply Z.mod_pos_bound; done).
  assert (Hml : pos mod PAGE_SIZE ≤ pos) by (apply Z.mod_le; [lia|done]).
  set (off := pos - pos mod PAGE_SIZE) in *.
  set (inner := Z.to_nat (pos - off)). set (n := Nat.min (PAGE_BYTES - inner) want).
  assert (Hin : Z.of_nat inner = pos mod PAGE_SIZE) by (unfold inner, off; lia).
  assert (Hn : (0 < n ≤ want)%nat ∧ (inner + n ≤ PAGE_BYTES)%nat)
    by (unfold n, PAGE_BYTES, PAGE_SIZE in *; lia).
  destruct (get_or_load_page_spec st F O i off file loader Hi Hco Hld) as
    (phys & st1 & F1 & O1 & Hg & Hi1 & Hco1 & Hu1 & Hcase); [unfold off; lia|].
  rewrite Hg. cbn [res_bind]. destruct Hcase as [(-> & HF & _)|[Hnz Hfb]].
  { rewrite decide_True by done. exists [], st1, F1, O1. split_and!; try done. by right. }
  rewrite decide_False by done. rewrite add64_small by lia.
  destruct (IH st1 F1 O1 i (pos + Z.of_nat n) (want - n)%nat file loader) as
    (bs & st2 & F2 & O2 & Hrd & Hi2 & Hco2 & Hu2 & Hbs & Hlen); try done; try lia.
  rewrite Hrd. cbn [res_bind]. rewrite Hfb, file_page_chunk by lia.
  replace (Z.to_nat off + inner)%nat with (Z.to_nat pos) by lia.
  eexists _, st2, F2, O2. split_and!; [done..|congruence| |].
  - rewrite length_app, length_take_le by (rewrite length_drop; lia).
    rewrite <- (take_take_drop (drop (Z.to_nat pos) file) n). f_equal.
    rewrite drop_drop, Hbs at 1. f_equal. f_equal. lia.
  - destruct Hlen as [Hlen|]; [left|by right].
    rewrite length_app, length_take_le by (rewrite length_drop; lia). lia.
Qed.

(** A read whose pages are all cached needs no loader, no frame and no check: it
    returns the file's bytes. *)
Lemma read_loop_cached fuel : ∀ st F O i pos want file loader,
  pc_inv st F O → coherent st i file → (want < fuel)%nat → 0 ≤ pos →
  pos + Z.of_nat want ≤ Z.of_nat (length file) → Z.of_nat (length file) < u64_modulus →
  (∀ off, 0 ≤ off < Z.of_nat (length file) → off mod PAGE_SIZE = 0 →
     is_Some (entries st !! mkKey i off)) →
  ∃ st', read_loop fuel i pos want loader st = Ret (take want (drop (Z.to_nat pos) file), st').
Proof.
  induction fuel as [|fuel IH]; intros st F O i pos want file loader Hi Hco Hf Hp Hr Hu Hall; [lia|].
  cbn [read_loop]. case_decide as Hw.
  { exists st. by rewrite Hw. }
  cbv zeta. rewrite page_align_down_eq by (unfold is_u64; lia).
  assert (Hm : 0 ≤ pos mod PAGE_SIZE < PAGE_SIZE) by (apply Z.mod_pos_bound; done).
  assert (Hml : pos mod PAGE_SIZE ≤ pos) by (apply Z.mod_le; [lia|done]).
  set (off := pos - pos mod PAGE_SIZE) in *.
  set (inner := Z.to_nat (pos - off)). set (n := Nat.min (PAGE_BYTES - inner) want).
  assert (Hin : Z.of_nat inner = pos mod PAGE_SIZE) by (unfold inner, off; lia).
  assert (Hn : (0 < n ≤ want)%nat ∧ (inner + n ≤ PAGE_BYTES)%nat)
    by (unfold n, PAGE_BYTES, PAGE_SIZE in *; lia).
  destruct (Hall off) as [e He].
  { unfold off. lia. }
  { unfold off. rewrite Zminus_mod_idemp_r, Z.sub_diag. done. }
  unfold get_or_load_page. rewrite He. cbn [res_bind].
  assert (Hnz : phys_frame e ≠ 0).
  { eapply fa_nonzero; [apply (pc_rep _ _ _ Hi)|]. by eapply pc_owned. }
  rewrite decide_False by done. rewrite add64_small by lia.
  destruct (pc_mem _ _ _ Hi _ _ He) as (b & Hb & _).
  assert (Hfb : frame_bytes (phys_frame e) (count_hit st) = file_page file off).
  { unfold frame_bytes. cbn [frame_mem count_hit]. rewrite Hb. apply Hco. unfold cached. by rewrite He. }
  destruct (IH (count_hit st) F O i (pos + Z.of_nat n) (want - n)%nat file loader) as (st2 & Hrd);
    [by apply pc_inv_hit|done|lia|lia|lia|done|done|].
  rewrite Hrd. cbn [res_bind]. rewrite Hfb, file_page_chunk by lia.
  replace (Z.to_nat off + inner)%nat with (Z.to_nat pos) by lia.
  exists st2. f_equal. f_equal.
  replace (Z.to_nat (pos + Z.of_nat n)) with (Z.to_nat pos + n)%nat by lia.
  rewrite <- drop_drop. replace want with (n + (want - n))%nat at 2 by lia. by rewrite take_take_drop.
Qed.

(** ** Invalidation *)

Lemma pc_inv_unlink_absent st F O k :
  pc_inv st F O → entries st !! k = None →
  pc_inv (set_lru (filter (λ l, l ≠ k) (lru st)) st) F O.
Proof.
  intros Hi Hk. split; simpl; try apply Hi.
  - intros k'. rewrite list_elem_of_filter, (pc_keys _ _ _ Hi). split; [by intros [_ ?]|].
    intros Hs. split; [|done]. intros ->. rewrite Hk in Hs. by destruct Hs.
  - apply NoDup_filter, Hi.
  - etrans; [apply length_filter|apply Hi].
Qed.

Lemma invalidate_keys_spec ks : ∀ st F O,
  pc_inv st F O →
  ∃ st' F' O', invalidate_keys ks st = Ret st' ∧ pc_inv st' F' O' ∧ F' ∪ O' = F ∪ O ∧
    kept st O st' O' ∧ ∀ k, cached st' k = if decide (k ∈ ks) then None else cached st k.
Proof.
  induction ks as [|k ks IH]; intros st F O Hi; cbn [invalidate_keys].
  { exists st, F, O. split_and!; try done. }
  destruct (entries st !! k) as [e|] eqn:He; cbn [res_bind].
  - destruct (drop_entry_inv st F O k e (filter (λ l, l ≠ k) (lru st))) as
      (st1 & Hdr & Hi1 & Hc & _ & _ & Hkp); try done.
    { intros k'. rewrite list_elem_of_filter. tauto. }
    { apply NoDup_filter, Hi. }
    { etrans; [apply length_filter|apply Hi]. }
    rewrite Hdr. cbn [res_bind].
    assert (Hlru : lru st1 = lru st).
    { unfold drop_entry in Hdr. destruct (fa_free _ _); simplify_eq/=. done. }
    rewrite Hlru. destruct (IH _ _ _ Hi1) as (st' & F' & O' & Hr & Hi' & Hu & Hkp' & Hk).
    exists st', F', O'. split_and!; [done..| |by eapply kept_trans|].
    + rewrite Hu. pose proof (pc_owned _ _ _ Hi _ _ He).
      apply set_eq. intros x. destruct (decide (x = phys_frame e)); set_solver.
    + intros k'. rewrite Hk. change (cached (set_lru _ st1) k') with (cached st1 k'). rewrite Hc.
      repeat case_decide; set_solver.
  - destruct (IH _ _ _ (pc_inv_unlink_absent _ _ _ _ Hi He)) as (st' & F' & O' & Hr & Hi' & Hu & Hkp & Hk).
    exists st', F', O'. split_and!; [done..|]. intros k'. rewrite Hk.
    change (cached (set_lru _ st) k') with (cached st k').
    destruct (decide (k' = k)) as [->|]; [|repeat case_decide; set_solver].
    unfold cached. rewrite He. simpl. by repeat case_decide.
Qed.

Lemma invalidate_spec st F O i :
  pc_inv st F O →
  ∃ st' F' O', invalidate i st = Ret st' ∧ pc_inv st' F' O' ∧ F' ∪ O' = F ∪ O ∧
    kept st O st' O' ∧ ∀ k, cached st' k = if decide (ino k = i) then None else cached st k.
Proof.
  intros Hi. unfold invalidate.
  edestruct (invalidate_keys_spec (filter (λ k, ino k = i) (btree_list key_le (entries st)).*1) st F O)
    as (st' & F' & O' & Hr & Hi' & Hu & Hkp & Hk); [done|].
  exists st', F', O'. split_and!; [done..|]. intros k. rewrite Hk.
  destruct (entries st !! k) as [e|] eqn:He.
  - assert (Hin : k ∈ (btree_list key_le (entries st)).*1) by (apply elem_of_btree_keys; eauto).
    repeat case_decide; rewrite ?list_elem_of_filter in *; tauto.
  - assert (Hc : cached st k = None) by (unfold cached; by rewrite He).
    rewrite Hc. by repeat case_decide.
Qed.

(** ** Writes *)

Lemma get_or_alloc_page_spec st F O i off :
  pc_inv st F O →
  ∃ phys st' F' O', get_or_alloc_page i off st = Ret (phys, st') ∧ pc_inv st' F' O' ∧
    F' ∪ O' = F ∪ O ∧ kept st O st' O' ∧
    ((phys = 0 ∧ F' = ∅) ∨
     (phys ≠ 0 ∧ ∃ e, entries st' !! mkKey i off = Some e ∧ phys_frame e = phys)).
Proof.
  intros Hi. unfold get_or_alloc_page.
  destruct (entries st !! mkKey i off) as [e|] eqn:He.
  - exists (phys_frame e), (count_hit st), F, O. split_and!; try done; [by apply pc_inv_hit|].
    right. split; [|by exists e]. eapply fa_nonzero; [by apply Hi|by eapply Hi].
  - apply pc_inv_miss in Hi. cbv zeta.
    destruct (fa_alloc_spec _ _ _ (pc_rep _ _ _ Hi)) as [[Ha HF]|(f & a & Ha & Hf & Hr)];
      rewrite Ha; cbn [res_bind].
    + eexists 0, _, F, O. split_and!; [done| |done|by apply kept_refl|by left]. destruct Hi. by split.
    + destruct (pc_inv_alloc _ _ _ f a zero_page Hi Hf Hr) as (Hi1 & Hne & Hc1).
      edestruct (insert_frame_inv _ _ _ i off f true zero_page Hi1) as
        (st' & F' & O' & Hins & Hi' & Hu & Hent & Hm & _ & _ & Hkp).
      { done. } { set_solver. } { exact Hne. } { apply lookup_insert_eq. }
      { apply length_replicate. }
      rewrite Hins. cbn [res_bind]. exists f, st', F', O'. split_and!; [done..| | |].
      * rewrite Hu. apply set_eq. intros x. destruct (decide (x = f)); set_solver.
      * apply (kept_insert (count_miss st) O st' f zero_page a O' Hne); [|exact Hkp]. pose proof (fa_disjoint _ _ _ (pc_rep _ _ _ Hi)). set_solver.
      * right. split; [|by eexists].
        eapply fa_nonzero; [by apply Hi'|].
        change f with (phys_frame (mkEntry f true)). by eapply Hi'.
Qed.

(** Storing a page into the frame of a cached key. *)
Definition store_page (k : CacheKey) (f : Z) (b : list Z) st : PageCache A :=
  mark_dirty k (set_frame f b (falloc st) st).

Lemma store_page_inv st F O k e b :
  pc_inv st F O → entries st !! k = Some e → length b = PAGE_BYTES →
  pc_inv (store_page k (phys_frame e) b st) F O ∧
  ∀ k', cached (store_page k (phys_frame e) b st) k' =
    if decide (k' = k) then Some b else cached st k'.
Proof.
  intros Hi He Hb.
  assert (Hal : ∀ k', entries (store_page k (phys_frame e) b st) !! k' =
    if decide (k' = k) then Some (mkEntry (phys_frame e) true) else entries st !! k').
  { intros k'. simpl. rewrite lookup_alter. repeat case_decide; simplify_eq; try done.
    by rewrite He. }
  split; [split|].
  - apply Hi.
  - intros k'. rewrite Hal. simpl lru. rewrite (pc_keys _ _ _ Hi). case_decide; [subst|done].
    rewrite He. by split; eexists.
  - apply Hi.
  - apply Hi.
  - intros k' e'. rewrite Hal. case_decide; [intros [= <-]; simpl; by eapply Hi|by apply Hi].
  - intros k1 k2 e1 e2. rewrite !Hal. repeat case_decide; intros H1 H2 Hf; simplify_eq/=; try done.
    + symmetry. by eapply Hi.
    + by eapply Hi.
    + by eapply Hi.
  - intros k' e'. rewrite Hal. simpl frame_mem. rewrite lookup_insert.
    case_decide; [intros [= <-]; simpl; rewrite decide_True by done; eauto|].
    intros He'. case_decide as Hf; [eauto|by eapply Hi].
  - intros k'. unfold cached. rewrite Hal. simpl frame_mem.
    case_decide; subst; simpl; [by rewrite lookup_insert_eq|].
    destruct (entries st !! k') as [e'|] eqn:He'; [|done]. simpl.
    rewrite lookup_insert_ne; [done|]. intros Hf. cut (k = k'); [congruence|by eapply Hi].
Qed.

Lemma store_kept st O k e b : entries st !! k = Some e → kept st O (store_page k (phys_frame e) b st) O.
Proof.
  intros He f. unfold others. assert (H : held (store_page k (phys_frame e) b st) f ↔ held st f); [|by rewrite H].
  unfold held. simpl. split; intros (k' & e' & He' & E); destruct (decide (k = k')) as [<-|Hk].
  - rewrite lookup_alter_eq, He in He'. simplify_eq/=. by exists k, e.
  - rewrite lookup_alter_ne in He' by done. by exists k', e'.
  - exists k, (mkEntry (phys_frame e') true). rewrite lookup_alter_eq, He'. by rewrite <- E.
  - exists k', e'. by rewrite lookup_alter_ne.
Qed.

Lemma length_splice dst start src :
  (start + length src ≤ length dst)%nat → length (splice dst start src) = length dst.
Proof. intros Hl. unfold splice. rewrite !length_app, length_take_le, length_drop by lia. lia. Qed.

Lemma splice_read dst start src :
  (start + length src ≤ length dst)%nat →
  take (length src) (drop start (splice dst start src)) = src.
Proof.
  intros Hl. unfold splice.
  rewrite drop_app_length' by (rewrite length_take_le; lia). by rewrite take_app_length.
Qed.

Lemma frame_bytes_cached st F O k e :
  pc_inv st F O → entries st !! k = Some e →
  cached st k = Some (frame_bytes (phys_frame e) st) ∧
  length (frame_bytes (phys_frame e) st) = PAGE_BYTES.
Proof.
  intros Hi He. destruct (pc_mem _ _ _ Hi _ _ He) as (b & Hb & Hl).
  unfold cached, frame_bytes. rewrite He. simpl. by rewrite Hb.
Qed.

Lemma write_loop_inv fuel : ∀ st F O i pos data,
  pc_inv st F O → (length data < fuel)%nat → is_u64 pos →
  ∃ st' F' O', write_loop fuel i pos data st = Ret st' ∧ pc_inv st' F' O' ∧ F' ∪ O' = F ∪ O ∧ kept st O st' O'.
Proof.
  induction fuel as [|fuel IH]; intros st F O i pos data Hi Hf Hpos; [lia|].
  cbn [write_loop]. case_decide as Hd; [by exists st, F, O|].
  cbv zeta. rewrite page_align_down_eq by done.
  assert (Hm : 0 ≤ pos mod PAGE_SIZE < PAGE_SIZE) by (apply Z.mod_pos_bound; done).
  set (off := pos - pos mod PAGE_SIZE). set (inner := Z.to_nat (pos - off)).
  set (n := Nat.min (PAGE_BYTES - inner) (length data)).
  assert (Hn : (0 < n)%nat ∧ (inner + n ≤ PAGE_BYTES)%nat ∧ (n ≤ length data)%nat)
    by (unfold n, inner, off, PAGE_BYTES, PAGE_SIZE in *; lia).
  destruct (get_or_alloc_page_spec st F O i off Hi) as
    (phys & st1 & F1 & O1 & Hg & Hi1 & Hu1 & Hk1 & Hcase).
  rewrite Hg. cbn [res_bind]. destruct Hcase as [[-> HF]|(Hnz & e & He & Hph)].
  { rewrite decide_True by done. by exists st1, F1, O1. }
  rewrite decide_False by done. subst phys.
  destruct (frame_bytes_cached _ _ _ _ _ Hi1 He) as [_ Hfl].
  edestruct (IH (store_page (mkKey i off) (phys_frame e)
    (splice (frame_bytes (phys_frame e) st1) inner (take n data)) st1) F1 O1 i
    (add64 pos (Z.of_nat n)) (drop n data)) as (st' & F' & O' & Hw & Hi' & Hu' & Hk').
  { apply store_page_inv; [done..|]. rewrite length_splice; [done|].
    rewrite length_take_le by lia. lia. }
  { rewrite length_drop. lia. }
  { apply u64_range. }
  exists st', F', O'. split_and!; [exact Hw|done|congruence|]. eapply kept_trans; [exact Hk1|].
  eapply kept_trans; [by eapply store_kept|exact Hk'].
Qed.

(** A loader that keeps the frame's size, whatever bytes and count it returns. *)
Definition page_sized (loader : Z → list Z → res (nat * list Z)) : Prop :=
  ∀ off b, length b = PAGE_BYTES → ∃ n b', loader off b = Ret (n, b') ∧ length b' = PAGE_BYTES.

Lemma get_or_load_page_inv st F O i off loader :
  pc_inv st F O → page_sized loader →
  ∃ phys st' F' O', get_or_load_page i off loader st = Ret (phys, st') ∧ pc_inv st' F' O' ∧
    F' ∪ O' = F ∪ O ∧ kept st O st' O'.
Proof.
  intros Hi Hld. unfold get_or_load_page.
  destruct (entries st !! mkKey i off) as [e|] eqn:He.
  { exists (phys_frame e), (count_hit st), F, O. split_and!; [done|by apply pc_inv_hit|done|by apply kept_refl]. }
  apply pc_inv_miss in Hi. cbv zeta.
  destruct (fa_alloc_spec _ _ _ (pc_rep _ _ _ Hi)) as [[Ha HF]|(f & a & Ha & Hf & Hr)];
    rewrite Ha; cbn [res_bind].
  { eexists 0, _, F, O. split_and!; [done| |done|by apply kept_refl]. destruct Hi. by split. }
  destruct (Hld off zero_page (length_replicate _ _)) as (loaded & bytes & -> & Hlen). cbn [res_bind].
  destruct (pc_inv_alloc _ _ _ f a bytes Hi Hf Hr) as (Hi1 & Hne & _).
  pose proof (fa_disjoint _ _ _ (pc_rep _ _ _ Hi)) as Hd. case_decide.
  - destruct (fa_free_spec a _ _ f Hr) as (a' & Ea & Hr'); [set_solver|].
    cbn [falloc set_frame]. rewrite Ea. cbn [res_bind]. eexists 0, _, F, O.
    replace ({[f]} ∪ F ∖ {[f]}) with F in Hr'
      by (apply set_eq; intros x; destruct (decide (x = f)); set_solver).
    replace (({[f]} ∪ O) ∖ {[f]}) with O in Hr' by set_solver.
    split_and!; [done| |done|by apply kept_refl]. split; cbn; try apply Hi; [done|].
    intros k e Hk. rewrite lookup_delete_ne by (intros E; by eapply Hne).
    rewrite lookup_insert_ne by (intros E; by eapply Hne). by apply (pc_mem _ _ _ Hi k).
  - edestruct (insert_frame_inv _ _ _ i off f false bytes Hi1) as
      (st' & F' & O' & Hins & Hi' & Hu & _ & _ & _ & _ & Hkp).
    { done. } { set_solver. } { exact Hne. } { apply lookup_insert_eq. } { done. }
    rewrite Hins. cbn [res_bind]. exists f, st', F', O'. split_and!; [done..| |].
    + rewrite Hu. apply set_eq. intros x. destruct (decide (x = f)); set_solver.
    + apply (kept_insert (count_miss st) O st' f bytes a O' Hne); [|exact Hkp]. set_solver.
Qed.

Lemma read_loop_inv fuel : ∀ st F O i pos want loader,
  pc_inv st F O → page_sized loader → (want < fuel)%nat → is_u64 pos →
  ∃ bs st' F' O', read_loop fuel i pos want loader st = Ret (bs, st') ∧ pc_inv st' F' O' ∧
    F' ∪ O' = F ∪ O ∧ kept st O st' O'.
Proof.
  induction fuel as [|fuel IH]; intros st F O i pos want loader Hi Hld Hf Hpos; [lia|].
  cbn [read_loop]. case_decide as Hd; [by exists [], st, F, O|].
  cbv zeta. rewrite page_align_down_eq by done.
  assert (Hm : 0 ≤ pos mod PAGE_SIZE < PAGE_SIZE) by (apply Z.mod_pos_bound; done).
  set (off := pos - pos mod PAGE_SIZE). set (inner := Z.to_nat (pos - off)).
  set (n := Nat.min (PAGE_BYTES - inner) want).
  assert (Hn : (0 < n ≤ want)%nat) by (unfold n, inner, off, PAGE_BYTES, PAGE_SIZE in *; lia).
  destruct (get_or_load_page_inv st F O i off loader Hi Hld) as (phys & st1 & F1 & O1 & Hg & Hi1 & Hu1 & Hk1).
  rewrite Hg. cbn [res_bind]. case_decide; [by exists [], st1, F1, O1|].
  destruct (IH st1 F1 O1 i (add64 pos (Z.of_nat n)) (want - n)%nat loader) as
    (bs & st' & F' & O' & E & Hi' & Hu' & Hk'); [done|done|lia|apply u64_range|].
  rewrite E. cbn [res_bind]. eexists _, st', F', O'. split_and!; [done|done|congruence|by eapply kept_trans].
Qed.

(** A write within one page, and what a read of the same bytes finds. *)
Lemma write_read_page st F O i pos data loader :
  pc_inv st F O → is_u64 pos → (0 < length data)%nat →
  (Z.to_nat (pos mod PAGE_SIZE) + length data ≤ PAGE_BYTES)%nat →
  pos + Z.of_nat (length data) < u64_modulus →
  ∃ st1 F1 O1, write_bytes i pos data st = Ret st1 ∧ pc_inv st1 F1 O1 ∧
    (F1 = ∅ ∨ ∃ st2, read_bytes i pos (length data) loader st1 = Ret (data, st2)).
Proof.
  intros Hi Hpos Hlen Hfit Hend.
  destruct (write_loop_inv (S (length data)) st F O i pos data) as (st1 & F1 & O1 & Hw & Hi1 & _);
    [done|lia|done|].
  unfold write_bytes. cbn [write_loop] in Hw |- *. revert Hw. rewrite decide_False by lia. cbv zeta.
  rewrite page_align_down_eq by done.
  assert (Hm : 0 ≤ pos mod PAGE_SIZE < PAGE_SIZE) by (apply Z.mod_pos_bound; done).
  set (off := pos - pos mod PAGE_SIZE). set (inner := Z.to_nat (pos - off)).
  assert (Hin : inner = Z.to_nat (pos mod PAGE_SIZE)) by (unfold inner, off; f_equal; lia).
  rewrite Nat.min_r by lia. rewrite take_ge, drop_ge by lia.
  destruct (get_or_alloc_page_spec st F O i off Hi) as
    (phys & s1 & F' & O' & Hg & Hi' & _ & _ & Hcase).
  rewrite Hg. cbn [res_bind]. destruct Hcase as [[-> HF]|(Hnz & e & He & Hph)].
  { rewrite decide_True by done. intros [= <-].
    exists s1, F', O'. split_and!; [done..|]. by left. }
  rewrite decide_False by done. subst phys.
  destruct (frame_bytes_cached _ _ _ _ _ Hi' He) as [_ Hfl].
  set (b := splice (frame_bytes (phys_frame e) s1) inner data).
  assert (Hb : length b = PAGE_BYTES) by (unfold b; rewrite length_splice; lia).
  destruct (store_page_inv s1 F' O' (mkKey i off) e b Hi' He Hb) as [Hi2 Hc2].
  assert (Hend2 : write_loop (length data) i (add64 pos (Z.of_nat (length data))) []
    (mark_dirty (mkKey i off) (set_frame (phys_frame e) b (falloc s1) s1)) =
    Ret (store_page (mkKey i off) (phys_frame e) b s1)).
  { destruct (length data) eqn:E; [lia|]. done. }
  rewrite Hend2. intros [= <-]. eexists _, F', O'. split_and!; [done..|]. right.
  unfold read_bytes. cbn [read_loop]. rewrite decide_False by lia. cbv zeta.
  rewrite page_align_down_eq by done. fold off inner. rewrite Nat.min_r by lia.
  unfold get_or_load_page.
  assert (He2 : entries (store_page (mkKey i off) (phys_frame e) b s1) !! mkKey i off =
    Some (mkEntry (phys_frame e) true)).
  { simpl. by rewrite lookup_alter_eq, He. }
  rewrite He2. cbn [res_bind phys_frame]. rewrite decide_False by done.
  rewrite Nat.sub_diag.
  assert (Hfb : frame_bytes (phys_frame e)
    (count_hit (store_page (mkKey i off) (phys_frame e) b s1)) = b).
  { unfold frame_bytes. simpl. by rewrite lookup_insert_eq. }
  rewrite Hfb. unfold b. rewrite splice_read by lia.
  destruct (length data) eqn:E; [lia|]. cbn [read_loop res_bind].
  rewrite decide_True by done. cbn [res_bind]. rewrite app_nil_r. by eexists.
Qed.
End page_cache_facts.
