(* ===== verification/PageCacheProps.v ===== *)
(** What the page cache promises: coherent reads, frame accounting over any run,
    complete invalidation; and what happens to dirty pages at eviction. *)
From stdpp Require Import base numbers list gmap sets sorting relations.
From S2P Require Import Prelude Pmm PmmFacts PmmProps FrameAlloc PageCache PageCacheFacts.

Section page_cache_props.
Context {A : Type} `{FA : FrameAllocator A}.
Implicit Types (st : PageCache A) (F O : gset Z).

(** The operations other parts of the kernel call. *)
Inductive pc_step : PageCache A → PageCache A → Prop :=
| pc_read st i pos len loader bs st' :
    page_sized loader → is_u64 pos →
    read_bytes i pos len loader st = Ret (bs, st') → pc_step st st'
| pc_write st i pos data st' :
    is_u64 pos → write_bytes i pos data st = Ret st' → pc_step st st'
| pc_invalidate st i st' :
    invalidate i st = Ret st' → pc_step st st'.

Lemma pc_step_inv st F O st' :
  pc_inv st F O → pc_step st st' → ∃ F' O', pc_inv st' F' O' ∧ F' ∪ O' = F ∪ O ∧ kept st O st' O'.
Proof.
  intros Hi Hs. destruct Hs as [st i pos len loader bs st' Hld Hp E|
    st i pos data st' Hp E|st i st' E].
  - destruct (read_loop_inv (S len) st F O i pos len loader) as
      (bs' & s1 & F' & O' & E' & Hi' & Hu' & Hk'); [done|done|lia|done|].
    unfold read_bytes in E. rewrite E in E'. simplify_eq. eauto.
  - destruct (write_loop_inv (S (length data)) st F O i pos data) as
      (s1 & F' & O' & E' & Hi' & Hu' & Hk'); [done|lia|done|].
    unfold write_bytes in E. rewrite E in E'. simplify_eq. eauto.
  - destruct (invalidate_spec st F O i Hi) as (s1 & F' & O' & E' & Hi' & Hu' & Hk' & _).
    rewrite E in E'. simplify_eq. eauto.
Qed.

(** C10. Over any run of reads (at any position, with any loader that fills whole
    frames), writes and invalidations the cache holds at most
    [MAX_PAGES] pages, each in a frame of its own that the allocator has handed
    out, and no frame is leaked or taken: the free and the handed-out frames
    together never change, and the frames that are handed out and not in the cache
    stay exactly those that were so at the start. *)
Theorem page_cache_frames st F O st' :
  pc_inv st F O → rtc pc_step st st' →
  ∃ F' O', pc_inv st' F' O' ∧ F' ∪ O' = F ∪ O ∧ F' ## O' ∧
    ∀ f, (f ∈ O' ∧ ¬ held st' f) ↔ (f ∈ O ∧ ¬ held st f).
Proof.
  intros Hi Hs. revert F O Hi. induction Hs as [st|st1 st2 st3 H1 _ IH]; intros F O Hi.
  - exists F, O. split_and!; [done..| |done]. eapply fa_disjoint, Hi.
  - destruct (pc_step_inv _ _ _ _ Hi H1) as (F1 & O1 & Hi1 & Hu1 & Hk1).
    destruct (IH _ _ Hi1) as (F2 & O2 & Hi2 & Hu2 & Hd & Hk2). exists F2, O2.
    split_and!; [done|congruence|done|exact (kept_trans _ _ _ _ _ _ Hk1 Hk2)].
Qed.

(** C11. A read inside a file returns exactly the file's bytes, whatever mixture of
    cached and uncached pages serves it; it is cut short only when the machine
    is out of frames. The cache stays coherent with the file. *)
Theorem read_bytes_coherent st F O i pos len file loader :
  pc_inv st F O → coherent st i file → loads loader file → 0 ≤ pos →
  pos + Z.of_nat len ≤ Z.of_nat (length file) → Z.of_nat (length file) < u64_modulus →
  ∃ bs st' F' O', read_bytes i pos len loader st = Ret (bs, st') ∧ pc_inv st' F' O' ∧
    coherent st' i file ∧ bs = take (length bs) (drop (Z.to_nat pos) file) ∧
    (length bs = len ∨ F' = ∅).
Proof.
  intros Hi Hco Hld Hp Hr Hu.
  destruct (read_loop_spec (S len) st F O i pos len file loader) as
    (bs & s1 & F' & O' & E' & Hi' & Hc' & _ & Hbs & Hl); try done; [lia|].
  by exists bs, s1, F', O'.
Qed.

(** [invalidate] always returns, drops every page of the inode and no other
    page, and gives exactly their frames back. *)
Theorem invalidate_complete st F O i :
  pc_inv st F O →
  ∃ st' F' O', invalidate i st = Ret st' ∧ pc_inv st' F' O' ∧ F' ∪ O' = F ∪ O ∧
    kept st O st' O' ∧ ∀ k, cached st' k = if decide (ino k = i) then None else cached st k.
Proof. apply invalidate_spec. Qed.

(** Bytes written into one page are what a read of that range returns,
    without consulting the loader, unless no frame was left for the page. *)
Theorem page_write_read st F O i pos data loader :
  pc_inv st F O → is_u64 pos → (0 < length data)%nat →
  (Z.to_nat (pos mod PAGE_SIZE) + length data ≤ PAGE_BYTES)%nat →
  pos + Z.of_nat (length data) < u64_modulus →
  ∃ st1 F1 O1, write_bytes i pos data st = Ret st1 ∧ pc_inv st1 F1 O1 ∧
    (F1 = ∅ ∨ ∃ st2, read_bytes i pos (length data) loader st1 = Ret (data, st2)).
Proof. apply write_read_page. Qed.

Lemma evict_loop_subset q : ∀ st st', evict_loop q st = Ret st' → entries st' ⊆ entries st.
Proof.
  induction q as [|k q IH]; intros st st'; cbn [evict_loop]; case_decide; try done;
    try (by intros [= <-]).
  destruct (entries st !! k) as [e|] eqn:He; [|apply IH].
  unfold drop_entry. destruct (fa_free _ _) as [a| |]; [|done..]. cbn [res_bind].
  intros E. apply IH in E. etrans; [exact E|]. apply delete_subseteq.
Qed.

(** Eviction does not look at [dirty]: once the cache is full, inserting
    another page drops the oldest one even if its bytes were never written back,
    and its frame goes back to the allocator. *)
Theorem dirty_page_evicted st st' k q e i off phys d :
  lru st = k :: q → (MAX_PAGES ≤ length (lru st))%nat → entries st !! k = Some e →
  dirty e = true → k ≠ mkKey i off → insert_frame i off phys d st = Ret st' →
  entries st' !! k = None.
Proof.
  intros Hq Hcap He _ Hne. unfold insert_frame. rewrite Hq in Hcap |- *. cbn [evict_loop].
  rewrite decide_True by done. rewrite He. unfold drop_entry.
  destruct (fa_free _ _) as [a| |]; [|done..]. cbn [res_bind].
  destruct (evict_loop q _) as [s1| |] eqn:E; [|done..]. cbn [res_bind]. intros [= <-].
  apply evict_loop_subset in E. simpl in *. rewrite lookup_insert_ne by congruence.
  eapply lookup_weaken_None; [|exact E]. apply lookup_delete_eq.
Qed.

Lemma empty_cache_inv a F O : fa_rep a F O → pc_inv (mkPC ∅ [] 0 0 0 a ∅) F O.
Proof.
  intros Hr. split; simpl; try done.
  - intros k. rewrite lookup_empty. split; [set_solver|by intros [? ?]].
  - constructor.
  - lia.
Qed.
End page_cache_props.

(** ** Witnesses *)

(** A loader for a file held in memory, as the closure in [vfs::read_file] does
    for a ramfs node: seek, then read into the zeroed frame. *)
Definition file_loader (file : list Z) (off : Z) (frame : list Z) : res (nat * list Z) :=
  Ret (Nat.min PAGE_BYTES (length file - Z.to_nat off), file_page file off).

Lemma file_loader_loads file : loads (file_loader file) file.
Proof. done. Qed.

Definition demo_cache : PageCache BuddyAllocator := mkPC ∅ [] 0 0 0 small_pmm ∅.
Definition demo_free : gset Z := list_to_set (all_pages small_fl).

Lemma demo_cache_inv : pc_inv demo_cache demo_free ∅.
Proof.
  apply empty_cache_inv. exists small_fl. split_and!; [exact small_rep|done|set_solver|set_solver].
Qed.

Lemma demo_coherent i file : coherent demo_cache i file.
Proof. intros off b Hb. done. Qed.

Definition demo_file : list Z := [104; 101; 108; 108; 111].

Lemma page_cache_frames_witness :
  ∃ st' F' O', rtc pc_step demo_cache st' ∧ pc_inv st' F' O' ∧
    F' ∪ O' = demo_free ∪ ∅ ∧ F' ## O' ∧ ∀ f, f ∈ O' → held st' f.
Proof.
  destruct (write_loop_inv 6 demo_cache demo_free ∅ 7 0 demo_file demo_cache_inv) as
    (st' & F0 & O0 & E & _); [simpl; lia|done|].
  assert (Hs : rtc pc_step demo_cache st').
  { apply rtc_once. eapply (pc_write demo_cache 7 0 demo_file); [done|exact E]. }
  destruct (page_cache_frames demo_cache demo_free ∅ st' demo_cache_inv Hs) as (F' & O' & H1 & H2 & H3 & H4).
  exists st', F', O'. split_and!; [exact Hs|exact H1|exact H2|exact H3|]. intros f Hf.
  destruct (decide (Exists (λ p, phys_frame p.2 = f) (map_to_list (entries st')))) as [Hx|Hx].
  - apply Exists_exists in Hx as ([k e] & Hin & Ef). exists k, e. split; [by apply elem_of_map_to_list|exact Ef].
  - assert (Hn : ¬ held st' f).
    { intros (k & e & He & Ef). apply Hx, Exists_exists. exists (k, e). split; [by apply elem_of_map_to_list|exact Ef]. }
    destruct (proj1 (H4 f) (conj Hf Hn)) as [Hf0 _]. by apply elem_of_empty in Hf0.
Defined.

Lemma read_bytes_coherent_witness :
  ∃ bs st' F' O', read_bytes 7 1 3 (file_loader demo_file) demo_cache = Ret (bs, st') ∧
    pc_inv st' F' O' ∧ coherent st' 7 demo_file ∧
    bs = take (length bs) (drop (Z.to_nat 1) demo_file) ∧ (length bs = 3%nat ∨ F' = ∅).
Proof.
  apply (read_bytes_coherent demo_cache demo_free ∅ 7 1 3 demo_file);
    [exact demo_cache_inv|apply demo_coherent|apply file_loader_loads|lia|simpl; lia|by vm_compute].
Defined.

Lemma invalidate_complete_witness :
  ∃ st' F' O', invalidate 7 demo_cache = Ret st' ∧ pc_inv st' F' O' ∧
    F' ∪ O' = demo_free ∪ ∅ ∧ kept demo_cache ∅ st' O' ∧
    ∀ k, cached st' k = if decide (ino k = 7) then None else cached demo_cache k.
Proof. exact (invalidate_complete demo_cache demo_free ∅ 7 demo_cache_inv). Defined.

Lemma page_write_read_witness :
  ∃ st1 F1 O1, write_bytes 7 4100 demo_file demo_cache = Ret st1 ∧ pc_inv st1 F1 O1 ∧
    (F1 = ∅ ∨ ∃ st2, read_bytes 7 4100 5 (file_loader []) st1 = Ret (demo_file, st2)).
Proof.
  apply (page_write_read demo_cache demo_free ∅ 7 4100 demo_file);
    [exact demo_cache_inv|done|simpl; lia|apply (bool_decide_unpack _); by vm_compute|by vm_compute].
Defined.

(** A full queue whose oldest page is dirty. *)
Definition full_cache : PageCache BuddyAllocator :=
  mkPC {[mkKey 7 0 := mkEntry 4096 true]} (replicate MAX_PAGES (mkKey 7 0)) 0 0 0
    small_pmm1 {[4096 := zero_page]}.

Lemma dirty_page_evicted_witness :
  ∃ st', insert_frame 8 0 8192 false full_cache = Ret st' ∧ entries st' !! mkKey 7 0 = None.
Proof.
  destruct (insert_frame 8 0 8192 false full_cache) as [st'| |] eqn:E;
    [|vm_compute in E; discriminate E..].
  exists st'. split; [reflexivity|].
  apply (dirty_page_evicted full_cache st' (mkKey 7 0) (replicate 1023 (mkKey 7 0))
    (mkEntry 4096 true) 8 0 8192 false); try exact E; try reflexivity; discriminate.
Defined.
