(* ===== verification/RunQueue.v ===== *)
(** The run queue: [kernel/src/scheduler/runqueue.rs].

    A deque of PIDs, the running PID, and the tick budget of the running task.
    The module's free functions act on the one global [RUNQUEUE]; here they are
    functions on its state. *)
From stdpp Require Import base numbers list sets.
From S2P Require Import Prelude.

Abbreviation Pid := Z.

Record RunQueue := mkRQ {
  queue : list Pid;
  timeslice : Z;
  ticks_left : Z;
  current_pid : option Pid
}.

Definition DEFAULT_TIMESLICE : Z := 10.

Definition new_runqueue : RunQueue := mkRQ [] DEFAULT_TIMESLICE DEFAULT_TIMESLICE None.

Definition enqueue (pid : Pid) (rq : RunQueue) : RunQueue :=
  mkRQ (queue rq ++ [pid]) (timeslice rq) (ticks_left rq) (current_pid rq).

(** [VecDeque::remove(pos)]. *)
Definition remove_at {A} (n : nat) (l : list A) : list A := take n l ++ drop (S n) l.

(** [move_to_front]: only the first occurrence moves. *)
Definition move_to_front (pid : Pid) (rq : RunQueue) : RunQueue :=
  match list_find (λ p, p = pid) (queue rq) with
  | Some (pos, _) =>
      mkRQ (pid :: remove_at pos (queue rq)) (timeslice rq) (ticks_left rq) (current_pid rq)
  | None => rq
  end.

(** [q.clamp(1, 50)]. *)
Definition clamp_quantum (q : Z) : Z := Z.max 1 (Z.min q 50).

Definition schedule_next (quantum_override : option Z) (rq : RunQueue)
    : option Pid * RunQueue :=
  let q1 := match current_pid rq with
            | Some cur => queue rq ++ [cur]
            | None => queue rq
            end in
  let '(cur, q2) := match q1 with
                    | [] => (None, [])
                    | p :: q' => (Some p, q')
                    end in
  let ticks := match quantum_override with
               | Some q => clamp_quantum q
               | None => timeslice rq
               end in
  (cur, mkRQ q2 (timeslice rq) ticks cur).

(** [tick]: [None] when the running task keeps the CPU. *)
Definition tick (quantum_override : option Z) (rq : RunQueue) : option Pid * RunQueue :=
  let left := sat_sub (ticks_left rq) 1 in
  let rq' := mkRQ (queue rq) (timeslice rq) left (current_pid rq) in
  if decide (left = 0) then schedule_next quantum_override rq' else (None, rq').

Definition set_current (pid : Pid) (rq : RunQueue) : RunQueue :=
  mkRQ (queue rq) (timeslice rq) (ticks_left rq) (Some pid).

Definition dequeue_next (rq : RunQueue) : option Pid * RunQueue := schedule_next None rq.

(** [runqueue::remove]. *)
Definition remove_pid (pid : Pid) (rq : RunQueue) : RunQueue :=
  mkRQ (filter (λ p, p ≠ pid) (queue rq)) (timeslice rq) (ticks_left rq)
    (if decide (current_pid rq = Some pid) then None else current_pid rq).

Definition peek_front (rq : RunQueue) : option Pid :=
  match queue rq with
  | [] => current_pid rq
  | p :: _ => Some p
  end.

(** ** Facts *)

(** The PIDs the queue knows: the running one first, then the waiting ones. *)
Definition rq_pids (rq : RunQueue) : list Pid :=
  option_list (current_pid rq) ++ queue rq.

(** Well-formedness: nobody is listed twice, and the budget is a real one. *)
Record rq_wf (rq : RunQueue) : Prop := {
  rq_nodup : NoDup (rq_pids rq);
  rq_slice : timeslice rq = DEFAULT_TIMESLICE;
  rq_ticks : 0 < ticks_left rq ≤ 50
}.

Lemma remove_at_perm {A} (l : list A) n x : l !! n = Some x → l ≡ₚ x :: remove_at n l.
Proof.
  intros H. unfold remove_at. rewrite <- (take_drop_middle l n x H) at 1. solve_Permutation.
Qed.

Lemma move_to_front_spec pid rq :
  (pid ∈ queue rq ∧ ∃ q, move_to_front pid rq = mkRQ (pid :: q) (timeslice rq) (ticks_left rq) (current_pid rq)
     ∧ queue rq ≡ₚ pid :: q) ∨
  ((pid ∉ queue rq) ∧ move_to_front pid rq = rq).
Proof.
  unfold move_to_front. destruct (list_find _ _) as [[pos p]|] eqn:E.
  - left. apply list_find_Some in E as (Hl & -> & _).
    split; [by eapply list_elem_of_lookup_2|]. eexists. split; [done|]. by apply remove_at_perm.
  - right. split; [|done]. intros Hin. apply list_find_None in E.
    rewrite Forall_forall in E. by apply (E pid).
Qed.

Lemma clamp_quantum_range q : 1 ≤ clamp_quantum q ≤ 50.
Proof. unfold clamp_quantum. lia. Qed.

(** The set of known PIDs is unchanged by scheduling and reordering. *)
Lemma schedule_next_perm qo rq : rq_pids (schedule_next qo rq).2 ≡ₚ rq_pids rq.
Proof.
  unfold schedule_next, rq_pids. destruct rq as [q ts tl [cur|]]; simpl.
  - destruct q as [|p q]; simpl; [done|]. solve_Permutation.
  - by destruct q.
Qed.

Lemma move_to_front_perm pid rq : rq_pids (move_to_front pid rq) ≡ₚ rq_pids rq.
Proof.
  destruct (move_to_front_spec pid rq) as [(_ & q & -> & Hp)|[_ ->]]; [|done].
  unfold rq_pids. simpl. by rewrite Hp.
Qed.

Lemma move_to_front_current pid rq : current_pid (move_to_front pid rq) = current_pid rq.
Proof. by destruct (move_to_front_spec pid rq) as [(_ & q & -> & _)|[_ ->]]. Qed.

Lemma move_to_front_slices pid rq :
  timeslice (move_to_front pid rq) = timeslice rq ∧
  ticks_left (move_to_front pid rq) = ticks_left rq.
Proof. by destruct (move_to_front_spec pid rq) as [(_ & q & -> & _)|[_ ->]]. Qed.

Lemma elem_of_remove_pid p pid rq :
  p ∈ rq_pids (remove_pid pid rq) ↔ p ∈ rq_pids rq ∧ p ≠ pid.
Proof.
  unfold rq_pids, remove_pid. simpl. rewrite !elem_of_app, list_elem_of_filter.
  destruct (current_pid rq) as [cur|]; case_decide as E; simplify_eq/=;
    rewrite ?list_elem_of_singleton, ?elem_of_nil; split; try tauto; try naive_solver.
Qed.

(** Each operation preserves well-formedness. *)
Lemma schedule_next_wf qo rq : rq_wf rq → rq_wf (schedule_next qo rq).2.
Proof.
  intros [Hn Hs Ht]. split.
  - by rewrite schedule_next_perm.
  - unfold schedule_next. destruct rq as [[|p q] ts tl [cur|]]; done.
  - unfold schedule_next. simpl in Hs. destruct qo as [q0|].
    + pose proof (clamp_quantum_range q0).
      destruct rq as [[|p q] ts tl [cur|]]; simpl in *; lia.
    + destruct rq as [[|p q] ts tl [cur|]]; simpl in *; rewrite Hs; unfold DEFAULT_TIMESLICE; lia.
Qed.

Lemma tick_wf qo rq : rq_wf rq → rq_wf (tick qo rq).2.
Proof.
  intros Hw. destruct Hw as [Hn Hs Ht]. unfold tick. cbv zeta. case_decide as E.
  - assert (Hk : rq_wf (mkRQ (queue rq) (timeslice rq) 1 (current_pid rq))).
    { split; [done|done|simpl; lia]. }
    apply (schedule_next_wf qo) in Hk. unfold schedule_next in *. done.
  - split; simpl; [done|done|]. unfold sat_sub in *. lia.
Qed.

Lemma move_to_front_wf pid rq : rq_wf rq → rq_wf (move_to_front pid rq).
Proof.
  intros [Hn Hs Ht]. destruct (move_to_front_slices pid rq) as [E1 E2].
  split; [by rewrite move_to_front_perm|congruence|by rewrite E2].
Qed.

Lemma enqueue_wf pid rq : rq_wf rq → pid ∉ rq_pids rq → rq_wf (enqueue pid rq).
Proof.
  intros [Hn Hs Ht] Hnew. split; [|done|done]. unfold rq_pids, enqueue in *. simpl.
  rewrite (assoc_L (++)). apply NoDup_app. split_and!; [done| |apply NoDup_singleton].
  intros x Hx Hx'. apply list_elem_of_singleton in Hx' as ->. done.
Qed.

Lemma remove_pid_wf pid rq : rq_wf rq → rq_wf (remove_pid pid rq).
Proof.
  intros [Hn Hs Ht]. split; [|done|done]. unfold rq_pids, remove_pid in *. simpl.
  apply NoDup_app in Hn as (H1 & H2 & H3). apply NoDup_app. split_and!.
  - case_decide; [constructor|done].
  - intros x. case_decide; [set_solver|]. intros Hx Hx'. apply list_elem_of_filter in Hx' as [_ Hx'].
    by apply (H2 x).
  - by apply NoDup_filter.
Qed.

(** ** Round robin *)

Lemma tick_last qo rq :
  ticks_left rq = 1 →
  tick qo rq = schedule_next qo (mkRQ (queue rq) (timeslice rq) 0 (current_pid rq)).
Proof. intros Ht. unfold tick. rewrite Ht. done. Qed.

Lemma tick_mid qo rq :
  1 < ticks_left rq →
  tick qo rq = (None, mkRQ (queue rq) (timeslice rq) (ticks_left rq - 1) (current_pid rq)).
Proof.
  intros Ht. unfold tick, sat_sub. cbv zeta. rewrite Z.max_r by lia.
  by rewrite decide_False by lia.
Qed.

Lemma schedule_next_head qo q ts tl cur p :
  schedule_next qo (mkRQ (p :: q) ts tl cur) =
    (Some p, mkRQ (q ++ option_list cur) ts
      (match qo with Some v => clamp_quantum v | None => ts end) (Some p)).
Proof. unfold schedule_next. destruct cur; simpl; [done|]. by rewrite app_nil_r. Qed.

(** Whether moving [s] to the front makes it overtake [p], and how many of the tasks [ss],
    moved one after the other, do. *)
Definition place (p : Pid) (q : list Pid) : option nat := fst <$> list_find (λ x, x = p) q.
Definition overtakes (s p : Pid) (q : list Pid) : nat :=
  match place s q, place p q with
  | Some i, Some j => if decide (j < i)%nat then 1 else 0
  | _, _ => 0
  end.
Fixpoint overtaking (p : Pid) (ss : list Pid) (rq : RunQueue) : nat :=
  match ss with
  | [] => 0
  | s :: ss => overtakes s p (queue rq) + overtaking p ss (move_to_front s rq)
  end.

Lemma place_le p q n : q !! n = Some p → ∃ j, place p q = Some j ∧ (j ≤ n)%nat.
Proof.
  intros Hn. unfold place. destruct (list_find (λ x, x = p) q) as [[j x]|] eqn:E.
  - exists j. split; [done|]. apply list_find_Some in E as (_ & _ & Hmin).
    destruct (decide (j ≤ n)%nat); [done|]. exfalso. by apply (Hmin n p Hn ltac:(lia)).
  - apply list_find_None in E. rewrite Forall_forall in E. exfalso. apply (E p); [|done]. by apply list_elem_of_lookup_2 in Hn.
Qed.

Lemma move_to_front_place s rq p n :
  queue rq !! n = Some p →
  ∃ n', (n' ≤ n + overtakes s p (queue rq))%nat ∧ queue (move_to_front s rq) !! n' = Some p.
Proof.
  intros Hn. destruct (place_le p (queue rq) n Hn) as (j & Ej & Hj).
  unfold move_to_front, overtakes. rewrite Ej. unfold place.
  destruct (list_find (λ p, p = s) (queue rq)) as [[pos x]|] eqn:E; [|exists n; split; [cbn; lia|done]]. cbn [fmap option_fmap option_map fst].
  apply list_find_Some in E as (Hp & -> & _). cbn [queue].
  destruct (decide (n = pos)) as [->|Hne]; [exists 0%nat; split; [lia|]; cbn; congruence|].
  unfold remove_at. pose proof (lookup_lt_Some _ _ _ Hp). destruct (decide (n < pos)%nat).
  - exists (S n). rewrite decide_True by lia. split; [lia|]. rewrite lookup_cons_ne_0 by lia. cbn [Nat.pred].
    rewrite lookup_app_l by (rewrite length_take; lia). by rewrite lookup_take_lt.
  - exists n. split; [lia|]. rewrite lookup_cons_ne_0 by lia.
    rewrite lookup_app_r by (rewrite length_take; lia). rewrite lookup_drop, length_take. rewrite <- Hn. f_equal. lia.
Qed.
Lemma move_all_place ss : ∀ rq p n,
  queue rq !! n = Some p →
  ∃ n', (n' ≤ n + overtaking p ss rq)%nat ∧ queue (foldl (λ rq s, move_to_front s rq) rq ss) !! n' = Some p.
Proof.
  induction ss as [|s ss IH]; intros rq p n Hn; [exists n; split; [cbn; lia|done]|].
  destruct (move_to_front_place s rq p n Hn) as (n1 & H1 & E1).
  destruct (IH _ _ _ E1) as (n2 & H2 & E2). exists n2. split; [cbn [overtaking]; lia|done].
Qed.
