(* ===== verification/Task.v ===== *)
(** The task control block: [kernel/src/scheduler/task.rs].

    Every field of [Task] is kept. [f32] values are their 32-bit patterns, the
    FXSAVE area a list of 512 bytes. Kernel stacks live in the word-addressed
    memory [kmem], where the saved interrupt frames are written. *)
From stdpp Require Import base numbers list gmap strings.
From S2P Require Import Prelude RunQueue.

Inductive TaskState := Runnable | Running | Sleeping | Zombie.
#[export] Instance TaskState_eq_dec : EqDecision TaskState.
Proof. solve_decision. Defined.

(** ** The saved interrupt frame *)

Definition FRAME_RAX_OFFSET : Z := 112.
Definition FRAME_SIZE : Z := 160.
Definition FRAME_RIP_OFFSET : Z := 120.
(** 15 general registers and the 5 words of the IRET frame. *)
Definition FRAME_WORDS : nat := 20.

Abbreviation kmem := (gmap Z Z).
Definition kread (m : kmem) (a : Z) : Z := default 0 (m !! a).
Definition kwrite (a v : Z) (m : kmem) : kmem := <[a := v]> m.

(** The words of the frame at [base], lowest address first. *)
Definition frame_at (m : kmem) (base : Z) : list Z :=
  (λ i, kread m (base + 8 * Z.of_nat i)) <$> seq 0 FRAME_WORDS.

Fixpoint write_words (base : Z) (ws : list Z) (m : kmem) : kmem :=
  match ws with
  | [] => m
  | w :: ws' => write_words (base + 8) ws' (kwrite base w m)
  end.

(** [FpuState::default_state]. *)
Definition default_fpu_state : list Z :=
  <[29%nat := 255]> (<[28%nat := 255]> (<[25%nat := 31]> (<[24%nat := 128]>
    (<[1%nat := 3]> (<[0%nat := 127]> (replicate 512 0)))))).

Record CpuContext := mkCtx {
  r15 : Z; r14 : Z; r13 : Z; r12 : Z; rbp : Z; rbx : Z;
  r11 : Z; r10 : Z; r9 : Z; r8 : Z; rax : Z; rcx : Z; rdx : Z; rsi : Z; rdi : Z;
  rip : Z; cs : Z; rflags : Z; rsp : Z; ss : Z
}.

Definition default_ctx : CpuContext := mkCtx 0 0 0 0 0 0 0 0 0 0 0 0 0 0 0 0 0 0 0 0.

Record AiProfile := mkProfile {
  burst_estimate_us : Z;
  io_cpu_ratio : Z;
  cache_miss_rate : Z;
  ai_nice_adjust : Z;
  ticks_run : Z
}.

Definition default_profile : AiProfile := mkProfile 0 0 0 0 0.

Record Task := mkTask {
  pid : Pid;
  name : string;
  state : TaskState;
  priority : Z;
  kernel_stack_top : Z;
  saved_kernel_rsp : Z;
  cr3 : Z;
  context : CpuContext;
  ai_profile : AiProfile;
  fds : list Z;
  signal_mask : Z;
  signal_handlers : list Z;
  uid : Z;
  euid : Z;
  gid : Z;
  egid : Z;
  parent_pid : Pid;
  exit_code : option Z;
  robust_list_head : Z;
  robust_list_len : Z;
  intent : Z;
  intent_hint : Z;
  pending_signals : Z;
  fpu_state : list Z;
  user_brk : Z;
  fs_base : Z;
  woke_by : option Pid;
  runnable_at : Z;
  sched_latency_total_us : Z;
  sched_count : Z;
  stack_canary : Z;
  stack_canary_addr : Z;
  mhs_snapshot : option (list Z)
}.

(** Field updates: the record rebuilt with one field replaced. *)
Definition eta_task (t : Task) : Task :=
  mkTask (pid t) (name t) (state t) (priority t) (kernel_stack_top t) (saved_kernel_rsp t)
    (cr3 t) (context t) (ai_profile t) (fds t) (signal_mask t) (signal_handlers t) (uid t)
    (euid t) (gid t) (egid t) (parent_pid t) (exit_code t) (robust_list_head t)
    (robust_list_len t) (intent t) (intent_hint t) (pending_signals t) (fpu_state t)
    (user_brk t) (fs_base t) (woke_by t) (runnable_at t) (sched_latency_total_us t)
    (sched_count t) (stack_canary t) (stack_canary_addr t) (mhs_snapshot t).

Ltac task_setter field v :=
  let body := eval cbv delta [eta_task] in eta_task in
  let p := eval pattern field in body in
  match p with
  | ?f _ => let r := eval cbv beta in (f (fun _ : Task => v)) in exact r
  end.

Definition set_state (v : TaskState) : Task → Task := ltac:(task_setter state v).
Definition set_priority (v : Z) : Task → Task := ltac:(task_setter priority v).
Definition set_saved_rsp (v : Z) : Task → Task := ltac:(task_setter saved_kernel_rsp v).
Definition set_cr3 (v : Z) : Task → Task := ltac:(task_setter cr3 v).
Definition set_profile (v : AiProfile) : Task → Task := ltac:(task_setter ai_profile v).
Definition set_mask (v : Z) : Task → Task := ltac:(task_setter signal_mask v).
Definition set_handlers (v : list Z) : Task → Task := ltac:(task_setter signal_handlers v).
Definition set_task_euid (v : Z) : Task → Task := ltac:(task_setter euid v).
Definition set_parent (v : Pid) : Task → Task := ltac:(task_setter parent_pid v).
Definition set_exit_code (v : option Z) : Task → Task := ltac:(task_setter exit_code v).
Definition set_robust_head (v : Z) : Task → Task := ltac:(task_setter robust_list_head v).
Definition set_robust_len (v : Z) : Task → Task := ltac:(task_setter robust_list_len v).
Definition set_task_intent (v : Z) : Task → Task := ltac:(task_setter intent v).
Definition set_hint (v : Z) : Task → Task := ltac:(task_setter intent_hint v).
Definition set_pending (v : Z) : Task → Task := ltac:(task_setter pending_signals v).
Definition set_brk (v : Z) : Task → Task := ltac:(task_setter user_brk v).
Definition set_fs (v : Z) : Task → Task := ltac:(task_setter fs_base v).
Definition set_woke (v : option Pid) : Task → Task := ltac:(task_setter woke_by v).
Definition set_runnable_at (v : Z) : Task → Task := ltac:(task_setter runnable_at v).
Definition set_latency (v : Z) : Task → Task := ltac:(task_setter sched_latency_total_us v).
Definition set_sched_count (v : Z) : Task → Task := ltac:(task_setter sched_count v).
Definition set_canary (v : Z) : Task → Task := ltac:(task_setter stack_canary v).
Definition set_canary_addr (v : Z) : Task → Task := ltac:(task_setter stack_canary_addr v).

Definition set_nice (v : Z) (t : Task) : Task :=
  let p := ai_profile t in
  set_profile (mkProfile (burst_estimate_us p) (io_cpu_ratio p) (cache_miss_rate p) v
                 (ticks_run p)) t.
Definition bump_ticks_run (t : Task) : Task :=
  let p := ai_profile t in
  set_profile (mkProfile (burst_estimate_us p) (io_cpu_ratio p) (cache_miss_rate p)
                 (ai_nice_adjust p) (add64 (ticks_run p) 1)) t.

(** ** Constructors *)

(** [Task::new_kernel_thread]: the synthetic frame is laid at the top of the
    stack; [cr3] is the value of the CR3 register. *)
Definition new_kernel_thread (p : Pid) (nm : string) (entry stack_top cr3_reg : Z) (m : kmem)
    : Task * kmem :=
  let frame_base := sub64 stack_top FRAME_SIZE in
  let m' := write_words frame_base (replicate 15 0 ++ [entry; 8; 514; stack_top; 16]) m in
  let ctx := mkCtx 0 0 0 0 0 0 0 0 0 0 0 0 0 0 0 entry 8 514 stack_top 16 in
  (mkTask p nm Runnable 0 stack_top frame_base cr3_reg ctx default_profile [] 0
     (replicate 64 0) 0 0 0 0 0 None 0 0 0 0 0 default_fpu_state 0 0 None 0 0 0 0 0 None, m').

(** [Task::new_idle]. *)
Definition new_idle (p : Pid) (cr3_reg : Z) : Task :=
  mkTask p "idle" Running 0 0 0 cr3_reg default_ctx default_profile [] 0
    (replicate 64 0) 0 0 0 0 0 None 0 0 0 0 0 default_fpu_state 0 0 None 0 0 0 0 0 None.

Definition STACK_PAGES : Z := 4.

(** [Task::clone_shallow], given the frame the buddy allocator returned for the
    child's kernel stack ([None]: out of memory). *)
Definition clone_shallow (self : Task) (child_pid : Pid) (stack_phys : option Z) (phys_off : Z)
    (m : kmem) : option (Task * kmem) :=
  match stack_phys with
  | None => None
  | Some sp =>
      let stack_top := add64 (add64 phys_off sp) (STACK_PAGES * 4096) in
      let child_frame_base := sub64 stack_top FRAME_SIZE in
      let m1 := write_words child_frame_base (frame_at m (saved_kernel_rsp self)) m in
      let m2 := kwrite (add64 child_frame_base FRAME_RAX_OFFSET) 0 m1 in
      Some (mkTask child_pid (name self) Runnable (priority self) stack_top child_frame_base
              (cr3 self) (context self) default_profile (fds self) (signal_mask self)
              (signal_handlers self) (uid self) (euid self) (gid self) (egid self) (pid self)
              None 0 0 (intent self) (intent_hint self) 0 (fpu_state self) (user_brk self)
              (fs_base self) None 0 0 0 0 0 (mhs_snapshot self), m2)
  end.

(** ** Frame facts *)

Lemma write_words_outside base ws m a :
  (∀ i : nat, (i < length ws)%nat → a ≠ base + 8 * Z.of_nat i) →
  kread (write_words base ws m) a = kread m a.
Proof.
  revert base m. induction ws as [|w ws IH]; intros base m Ha; [done|]. simpl.
  rewrite IH.
  - unfold kread, kwrite. rewrite lookup_insert_ne; [done|].
    specialize (Ha 0%nat). simpl in Ha. lia.
  - intros i Hi. specialize (Ha (S i)). simpl in Ha. lia.
Qed.

Lemma write_words_read base ws m i w :
  ws !! i = Some w → kread (write_words base ws m) (base + 8 * Z.of_nat i) = w.
Proof.
  revert base m i. induction ws as [|w' ws IH]; intros base m [|i] Hi; simplify_eq/=.
  - rewrite write_words_outside by (intros; lia).
    unfold kread, kwrite. by rewrite Z.add_0_r, lookup_insert_eq.
  - replace (base + 8 * Z.of_nat (S i)) with (base + 8 + 8 * Z.of_nat i) by lia. by apply IH.
Qed.

Lemma frame_at_lookup m base i :
  (i < FRAME_WORDS)%nat → frame_at m base !! i = Some (kread m (base + 8 * Z.of_nat i)).
Proof. intros Hi. unfold frame_at. rewrite list_lookup_fmap, lookup_seq_lt by done. done. Qed.

Lemma length_frame_at m base : length (frame_at m base) = FRAME_WORDS.
Proof. unfold frame_at. by rewrite length_fmap, length_seq. Qed.

(** The child's frame ends at the top of its four-page stack. *)
Lemma clone_frame_base self child sp off m t m' :
  clone_shallow self child (Some sp) off m = Some (t, m') →
  0 ≤ off → 0 ≤ sp → off + sp + 16384 ≤ u64_modulus →
  saved_kernel_rsp t = off + sp + 16384 - 160.
Proof.
  intros Hc Ho Hs Hb. unfold clone_shallow in Hc.
  apply (inj Some), pair_equal_spec in Hc as [<- _]. cbn [saved_kernel_rsp].
  unfold STACK_PAGES, FRAME_SIZE. rewrite (add64_small off sp) by lia.
  unfold add64, sub64, u64. rewrite Zminus_mod_idemp_l. apply Z.mod_small. lia.
Qed.

(** The child's frame is the parent's with RAX = 0; the parent's is untouched
    when the two frames do not overlap. *)
Lemma clone_frame self child sp off m t m' :
  clone_shallow self child (Some sp) off m = Some (t, m') →
  0 ≤ off → 0 ≤ sp → off + sp + 16384 ≤ u64_modulus →
  (∀ i j : nat, (i < FRAME_WORDS)%nat → (j < FRAME_WORDS)%nat →
     saved_kernel_rsp self + 8 * Z.of_nat i ≠ saved_kernel_rsp t + 8 * Z.of_nat j) →
  frame_at m' (saved_kernel_rsp t) = <[14%nat := 0]> (frame_at m (saved_kernel_rsp self)) ∧
  frame_at m' (saved_kernel_rsp self) = frame_at m (saved_kernel_rsp self).
Proof.
  intros Hc Ho Hs Hb Hdis. pose proof (clone_frame_base _ _ _ _ _ _ _ Hc Ho Hs Hb) as Hbase.
  unfold clone_shallow in Hc. apply (inj Some), pair_equal_spec in Hc as [<- <-]. cbn [saved_kernel_rsp] in *.
  set (base := sub64 _ FRAME_SIZE) in *.
  assert (Hrax : add64 base FRAME_RAX_OFFSET = base + 8 * Z.of_nat 14).
  { unfold FRAME_RAX_OFFSET. rewrite add64_small by lia. lia. }
  rewrite Hrax. split; apply list_eq; intros i.
  - destruct (decide (i < FRAME_WORDS)%nat) as [Hi|Hi].
    2:{ rewrite !lookup_ge_None_2; [done|rewrite length_insert, length_frame_at; lia|
        rewrite length_frame_at; lia]. }
    rewrite frame_at_lookup by done. unfold kwrite, kread at 1. rewrite lookup_insert.
    rewrite list_lookup_insert, length_frame_at. case_decide as E.
    + assert (i = 14%nat) as -> by lia. by rewrite decide_True by (split; [done|unfold FRAME_WORDS; lia]).
    + rewrite decide_False by lia. rewrite frame_at_lookup by done. f_equal.
      apply write_words_read. by apply frame_at_lookup.
  - destruct (decide (i < FRAME_WORDS)%nat) as [Hi|Hi].
    2:{ rewrite !lookup_ge_None_2; rewrite ?length_frame_at; (done || lia). }
    rewrite !frame_at_lookup by done. f_equal. unfold kwrite, kread at 1.
    rewrite lookup_insert_ne by (intros E; symmetry in E; revert E; apply Hdis; [done|unfold FRAME_WORDS; lia]).
    apply write_words_outside. rewrite length_frame_at. intros j Hj. by apply Hdis.
Qed.
