(* ===== verification/Rlimit.v ===== *)
(** Resource limits: [kernel/src/rlimit.rs]. *)
From stdpp Require Import base numbers list gmap.
From S2P Require Import Prelude.

Definition N_RLIMITS : nat := 16.
Definition U64_MAX : Z := 18446744073709551615.

Record Rlimit := mkRlimit { cur : Z; max : Z }.
Definition unlimited : Rlimit := mkRlimit U64_MAX U64_MAX.

(** [ProcLimits]: one pair per resource. *)
Definition new_limits : list Rlimit := replicate N_RLIMITS unlimited.

(** The global [RLIMITS] table. *)
Abbreviation rlimit_table := (gmap Z (list Rlimit)).

Definition init_pid (pid : Z) (parent : option Z) (t : rlimit_table) : rlimit_table :=
  match parent ≫= λ pp, t !! pp with
  | Some p => <[pid := p]> t
  | None => match t !! pid with
            | Some _ => t
            | None => <[pid := new_limits]> t
            end
  end.

Definition remove_limits (pid : Z) (t : rlimit_table) : rlimit_table := delete pid t.

Definition get_limit (pid : Z) (resource : nat) (t : rlimit_table) : Rlimit :=
  if decide (N_RLIMITS ≤ resource)%nat then unlimited
  else match t !! pid with
       | Some l => default unlimited (l !! resource)
       | None => unlimited
       end.

(** [set]: -1 is both EPERM and EINVAL; the entry is created even then. *)
Definition set_limit (pid : Z) (resource : nat) (new_cur new_max : Z) (t : rlimit_table)
    : Z * rlimit_table :=
  if decide (N_RLIMITS ≤ resource)%nat then (-1, t) else
  let limits := default new_limits (t !! pid) in
  let t1 := <[pid := limits]> t in
  let current_hard := max (default unlimited (limits !! resource)) in
  if decide (new_max > current_hard ∧ current_hard ≠ U64_MAX) then (-1, t1)
  else if decide (new_cur > new_max) then (-1, t1)
  else (0, <[pid := <[resource := mkRlimit new_cur new_max]> limits]> t).

(** ** Facts *)

(** Every recorded pair is in range, soft below hard. *)
Definition limit_ok (r : Rlimit) : Prop := 0 ≤ cur r ≤ max r ∧ max r ≤ U64_MAX.
Definition table_ok (t : rlimit_table) : Prop :=
  ∀ pid l, t !! pid = Some l → length l = N_RLIMITS ∧ Forall limit_ok l.

Lemma unlimited_ok : limit_ok unlimited.
Proof. done. Qed.

Lemma new_limits_ok : length new_limits = N_RLIMITS ∧ Forall limit_ok new_limits.
Proof. split; [done|]. apply Forall_replicate. apply unlimited_ok. Qed.

Lemma table_ok_insert t pid l :
  table_ok t → length l = N_RLIMITS → Forall limit_ok l → table_ok (<[pid := l]> t).
Proof.
  intros Ht Hl Hf p l' Hp. rewrite lookup_insert in Hp. case_decide; [by simplify_eq|].
  by eapply Ht.
Qed.

Lemma limits_of_ok t pid :
  table_ok t → length (default new_limits (t !! pid)) = N_RLIMITS ∧
    Forall limit_ok (default new_limits (t !! pid)).
Proof.
  intros Ht. destruct (t !! pid) as [l|] eqn:E; simpl; [by eapply Ht|apply new_limits_ok].
Qed.

Lemma get_limit_ok t pid r : table_ok t → limit_ok (get_limit pid r t).
Proof.
  intros Ht. unfold get_limit. case_decide; [apply unlimited_ok|].
  destruct (t !! pid) as [l|] eqn:E; [|apply unlimited_ok].
  destruct (l !! r) as [x|] eqn:Er; simpl; [|apply unlimited_ok].
  destruct (Ht _ _ E) as [_ Hf]. by eapply Forall_lookup_1 in Er.
Qed.

Lemma init_pid_ok pid pp t : table_ok t → table_ok (init_pid pid pp t).
Proof.
  intros Ht. unfold init_pid. destruct (pp ≫= _) as [l|] eqn:E.
  - destruct pp as [q|]; [|done]. simpl in E. destruct (Ht _ _ E). by apply table_ok_insert.
  - destruct (t !! pid) eqn:E'; [done|]. destruct new_limits_ok. by apply table_ok_insert.
Qed.

Lemma get_limit_default t pid r :
  (r < N_RLIMITS)%nat →
  get_limit pid r t = default unlimited (default new_limits (t !! pid) !! r).
Proof.
  intros Hr. unfold get_limit. rewrite decide_False by lia.
  destruct (t !! pid) as [l|]; simpl; [done|].
  unfold new_limits. by rewrite lookup_replicate_2.
Qed.

(** What [set] does, on every branch. *)
Lemma set_limit_spec t pid r c m :
  table_ok t → 0 ≤ c → m ≤ U64_MAX →
  let h := max (get_limit pid r t) in
  if decide ((r < N_RLIMITS)%nat ∧ c ≤ m ∧ m ≤ h) then
    (set_limit pid r c m t).1 = 0 ∧
    (∀ p r', get_limit p r' (set_limit pid r c m t).2 =
       if decide (p = pid ∧ r' = r) then mkRlimit c m else get_limit p r' t)
  else
    (set_limit pid r c m t).1 = -1 ∧
    (∀ p r', get_limit p r' (set_limit pid r c m t).2 = get_limit p r' t).
Proof.
  intros Ht Hc Hm. cbv zeta. unfold set_limit.
  destruct (decide (N_RLIMITS ≤ r)%nat) as [Hr|Hr].
  { rewrite decide_False by lia. done. }
  rewrite get_limit_default by lia.
  set (ls := default new_limits (t !! pid)).
  destruct (limits_of_ok t pid Ht) as [Hlen Hf]. fold ls in Hlen, Hf.
  assert (Hsame : ∀ p r', get_limit p r' (<[pid := ls]> t) = get_limit p r' t).
  { intros p r'. unfold get_limit. case_decide; [done|]. rewrite lookup_insert. case_decide; [|done].
    subst p. unfold ls. destruct (t !! pid); simpl; [done|]. unfold new_limits.
    by rewrite lookup_replicate_2 by lia. }
  destruct (ls !! r) as [old|] eqn:Eold.
  2:{ apply lookup_ge_None in Eold. lia. }
  simpl. pose proof (Forall_lookup_1 _ _ _ _ Hf Eold) as Hok. destruct Hok as [_ Hmax].
  repeat case_decide; try (exfalso; unfold U64_MAX in *; lia); try done.
  split; [done|]. intros p r'. simpl. unfold get_limit.
  destruct (decide (N_RLIMITS ≤ r')%nat) as [Hr'|Hr'].
  { rewrite decide_False; [done|]. lia. }
  rewrite lookup_insert. destruct (decide (pid = p)) as [<-|Hp].
  - rewrite list_lookup_insert. case_decide as E1; case_decide as E2; try (exfalso; lia); [done|].
    unfold ls. destruct (t !! pid); [done|]. simpl. unfold new_limits.
    by rewrite lookup_replicate_2 by lia.
  - rewrite decide_False; [done|]. naive_solver.
Qed.

Lemma set_limit_ok t pid r c m :
  table_ok t → 0 ≤ c → m ≤ U64_MAX → table_ok (set_limit pid r c m t).2.
Proof.
  intros Ht Hc Hm. unfold set_limit. case_decide; [done|].
  destruct (limits_of_ok t pid Ht) as [Hlen Hf]. cbv zeta.
  repeat case_decide; cbn [snd]; try (by apply table_ok_insert).
  apply table_ok_insert; [done|by rewrite length_insert|].
  apply Forall_insert; [done|]. split; simpl; lia.
Qed.
