(* ===== verification/JobControl.v ===== *)
(** The process-group tables of [kernel/src/job_control.rs]. The operations that
    call back into the scheduler ([tcsetpgrp], [stop_job], [continue_job_*]) are
    in [JobOps]. *)
From stdpp Require Import base numbers list gmap sets sorting.
From S2P Require Import Prelude.

Definition FG_CAUSAL_BONUS : Z := -8.
Definition FG_DIRECT_BONUS : Z := -15.

(** [PID_PGID], [PGID_MEMBERS] and [FG_PGID]. *)
Record JobTables := mkJobs {
  pid_pgid : gmap Z Z;
  pgid_members : gmap Z (gset Z);
  fg_pgid : Z
}.

Definition no_jobs : JobTables := mkJobs ∅ ∅ 0.

Definition setpgid (pid pgid_in : Z) (j : JobTables) : JobTables :=
  let pgid := if decide (pgid_in = 0) then pid else pgid_in in
  let ms := match pid_pgid j !! pid with
            | Some old => alter (λ s, s ∖ {[pid]}) old (pgid_members j)
            | None => pgid_members j
            end in
  mkJobs (<[pid := pgid]> (pid_pgid j))
    (<[pgid := {[pid]} ∪ default ∅ (ms !! pgid)]> ms) (fg_pgid j).

Definition getpgid (pid : Z) (j : JobTables) : Z := default pid (pid_pgid j !! pid).

(** [cleanup_pid]: the PID is truncated to 32 bits. *)
Definition cleanup_jobs (pid : Z) (j : JobTables) : JobTables :=
  let p := u32 pid in
  mkJobs (delete p (pid_pgid j))
    (match pid_pgid j !! p with
     | Some pgid => alter (λ s, s ∖ {[p]}) pgid (pgid_members j)
     | None => pgid_members j
     end) (fg_pgid j).

(** [group_members]: a [BTreeSet] iterates in ascending order. *)
Definition group_members (pgid : Z) (j : JobTables) : list Z :=
  merge_sort (≤) (elements (default ∅ (pgid_members j !! pgid))).

(** ** Facts *)

(** The two tables say the same thing: [pid] is in the member set of [g]
    exactly when [g] is the group recorded for [pid]. *)
Definition jobs_ok (j : JobTables) : Prop :=
  ∀ pid g, pid ∈ default ∅ (pgid_members j !! g) ↔ pid_pgid j !! pid = Some g.

Lemma elem_of_group_members pid g j :
  pid ∈ group_members g j ↔ pid ∈ default ∅ (pgid_members j !! g).
Proof. unfold group_members. by rewrite merge_sort_Permutation, elem_of_elements. Qed.

Lemma no_jobs_ok : jobs_ok no_jobs.
Proof. intros pid g. unfold no_jobs. simpl. rewrite !lookup_empty. set_solver. Qed.

Lemma default_alter (m : gmap Z (gset Z)) g k pid :
  default ∅ (alter (λ s, s ∖ {[pid]}) k m !! g) =
    (if decide (k = g) then default ∅ (m !! g) ∖ {[pid]} else default ∅ (m !! g)).
Proof.
  rewrite lookup_alter. case_decide; [subst|done].
  destruct (m !! g); simpl; set_solver.
Qed.

Lemma setpgid_ok pid g j : jobs_ok j → jobs_ok (setpgid pid g j).
Proof.
  intros Hj p g'. unfold setpgid. cbv zeta. simpl.
  set (pg := if decide (g = 0) then pid else g).
  set (ms := match pid_pgid j !! pid with Some _ => _ | None => _ end).
  assert (Hms : ∀ g0, default ∅ (ms !! g0) = default ∅ (pgid_members j !! g0) ∖ {[pid]}).
  { intros g0. unfold ms. destruct (pid_pgid j !! pid) as [old|] eqn:Eo.
    - rewrite default_alter. case_decide; [done|].
      assert (pid ∉ default ∅ (pgid_members j !! g0)) by (rewrite (Hj pid g0); congruence).
      set_solver.
    - assert (pid ∉ default ∅ (pgid_members j !! g0)) by (rewrite (Hj pid g0); congruence).
      set_solver. }
  rewrite !lookup_insert. specialize (Hj p). destruct (decide (pg = g')) as [->|Hne]; simpl.
  - rewrite Hms. destruct (decide (pid = p)) as [->|]; [set_solver|].
    rewrite <- Hj. set_solver.
  - rewrite Hms. destruct (decide (pid = p)) as [->|].
    + split; [set_solver|]. intros [= ->]. done.
    + rewrite <- Hj. set_solver.
Qed.

Lemma cleanup_jobs_ok pid j : jobs_ok j → jobs_ok (cleanup_jobs pid j).
Proof.
  intros Hj p g. unfold cleanup_jobs. cbv zeta. simpl. set (q := u32 pid).
  rewrite lookup_delete. specialize (Hj p g) as Hpg.
  assert (Hq : q ∈ default ∅ (pgid_members j !! g) ↔ pid_pgid j !! q = Some g) by apply Hj.
  destruct (pid_pgid j !! q) as [old|] eqn:Eo.
  - rewrite default_alter. repeat case_decide; subst; set_solver.
  - case_decide; subst; [|done]. rewrite Hpg. naive_solver.
Qed.
