(* ===== verification/Scheduler.v ===== *)
(** The scheduler: [kernel/src/scheduler/mod.rs].

    The global tables are the fields of [Kernel]; every function of the file is
    a function on that state. The naked timer handler runs with interrupts off
    and each table is behind a mutex, so the functions are atomic steps. The
    values the AI subsystems feed into a timer interrupt (fingerprint class,
    causal successors, predicted burst, blended priority: floating-point code)
    and the frames its page prefetch takes are an input of the step, [AiHints];
    so is what releasing a dead address space frees. *)
From Stdlib Require Import Ascii.
From stdpp Require Import base numbers list gmap sets strings sorting.
From S2P Require Import Prelude Pmm RunQueue Task Rlimit JobControl.

Definition IDLE_PID : Pid := 0.

(** The processor registers a context switch loads. *)
Record Cpu := mkCpu { cpu_cr3 : Z; cpu_rsp0 : Z; cpu_fs : Z; cpu_fpu : option Pid }.

Record Kernel := mkK {
  TASKS : gmap Pid Task;
  NEXT_PID : Z;
  UPTIME_MS : Z;
  QUANTUM_MS : Z;
  RUNQUEUE : RunQueue;
  RLIMITS : rlimit_table;
  JOBS : JobTables;
  PMM : BuddyAllocator;
  KMEM : kmem;
  CPU : Cpu
}.

Definition eta_kernel (k : Kernel) : Kernel :=
  mkK (TASKS k) (NEXT_PID k) (UPTIME_MS k) (QUANTUM_MS k) (RUNQUEUE k) (RLIMITS k) (JOBS k)
    (PMM k) (KMEM k) (CPU k).

Ltac kernel_setter field v :=
  let body := eval cbv delta [eta_kernel] in eta_kernel in
  let p := eval pattern field in body in
  match p with
  | ?f _ => let r := eval cbv beta in (f (fun _ : Kernel => v)) in exact r
  end.

Definition set_tasks (v : gmap Pid Task) : Kernel → Kernel := ltac:(kernel_setter TASKS v).
Definition set_next_pid (v : Z) : Kernel → Kernel := ltac:(kernel_setter NEXT_PID v).
Definition set_uptime (v : Z) : Kernel → Kernel := ltac:(kernel_setter UPTIME_MS v).
Definition set_quantum (v : Z) : Kernel → Kernel := ltac:(kernel_setter QUANTUM_MS v).
Definition set_rq (v : RunQueue) : Kernel → Kernel := ltac:(kernel_setter RUNQUEUE v).
Definition set_rlimits (v : rlimit_table) : Kernel → Kernel := ltac:(kernel_setter RLIMITS v).
Definition set_jobs (v : JobTables) : Kernel → Kernel := ltac:(kernel_setter JOBS v).
Definition set_pmm (v : BuddyAllocator) : Kernel → Kernel := ltac:(kernel_setter PMM v).
Definition set_kmem (v : kmem) : Kernel → Kernel := ltac:(kernel_setter KMEM v).
Definition set_cpu (v : Cpu) : Kernel → Kernel := ltac:(kernel_setter CPU v).

(** [if let Some(t) = tasks.get_mut(&pid) { *t = f(t) }]. *)
Definition with_task (p : Pid) (f : Task → Task) (k : Kernel) : Kernel :=
  set_tasks (alter f p (TASKS k)) k.

(** ** Waking, sleeping, signals *)

Definition alloc_pid (k : Kernel) : Pid * Kernel :=
  (NEXT_PID k, set_next_pid (add64 (NEXT_PID k) 1) k).

Definition sleep_current (k : Kernel) : Kernel :=
  match current_pid (RUNQUEUE k) with
  | Some p =>
      let k1 := with_task p (set_state Sleeping) k in
      set_rq (remove_pid p (RUNQUEUE k1)) k1
  | None => k
  end.

Definition wake_pid (p : Pid) (k : Kernel) : Kernel :=
  match TASKS k !! p with
  | Some t =>
      if decide (state t = Sleeping) then
        let k1 := with_task p (λ t, set_runnable_at (UPTIME_MS k) (set_state Runnable t)) k in
        set_rq (enqueue p (RUNQUEUE k1)) k1
      else k
  | None => k
  end.

Definition scheduler_current_pid (k : Kernel) : Pid :=
  default 1 (current_pid (RUNQUEUE k)).

(** [1u64 << signum] for [signum < 64]. *)
Definition bit (n : Z) : Z := Z.shiftl 1 n.

Definition send_signal (p : Pid) (signum : Z) (k : Kernel) : Kernel :=
  if decide (64 ≤ signum) then k else
  match TASKS k !! p with
  | Some t =>
      let k1 := with_task p (λ t, set_pending (Z.lor (pending_signals t) (bit signum)) t) k in
      if decide (state t = Sleeping) then wake_pid p k1 else k1
  | None => k
  end.

Definition kill_task (p : Pid) (_code : Z) (k : Kernel) : Kernel := send_signal p 9 k.

(** [u64::trailing_zeros]. *)
Definition trailing_zeros (x : Z) : Z :=
  match list_find (λ i : nat, Z.testbit x (Z.of_nat i) = true) (seq 0 64) with
  | Some (_, i) => Z.of_nat i
  | None => 64
  end.

Definition take_pending_signal (p : Pid) (k : Kernel) : option (Z * Z) * Kernel :=
  match TASKS k !! p with
  | None => (None, k)
  | Some t =>
      let deliverable := Z.land (pending_signals t) (not64 (signal_mask t)) in
      if decide (deliverable = 0) then (None, k) else
      let signum := trailing_zeros deliverable in
      (Some (signum, signal_handlers t !!! Z.to_nat signum),
       with_task p (λ t, set_pending (Z.land (pending_signals t) (not64 (bit signum))) t) k)
  end.

Definition get_pending_signals (p : Pid) (k : Kernel) : Z :=
  default 0 (pending_signals <$> TASKS k !! p).

Definition consume_masked_signal (p : Pid) (mask : Z) (k : Kernel) : option Z * Kernel :=
  match TASKS k !! p with
  | None => (None, k)
  | Some t =>
      let matched := Z.land (pending_signals t) mask in
      if decide (matched = 0) then (None, k) else
      let signum := trailing_zeros matched in
      (Some signum,
       with_task p (λ t, set_pending (Z.land (pending_signals t) (not64 (bit signum))) t) k)
  end.

Definition set_signal_handler (p : Pid) (signum : nat) (handler : Z) (k : Kernel) : Kernel :=
  if decide (signum < 64)%nat then
    with_task p (λ t, set_handlers (<[signum := handler]> (signal_handlers t)) t) k
  else k.

(** No bounds check: an out-of-range signal number panics. *)
Definition get_signal_handler (p : Pid) (signum : nat) (k : Kernel) : res Z :=
  match TASKS k !! p with
  | Some t => index (signal_handlers t) signum
  | None => Ret 0
  end.

Definition get_signal_mask (p : Pid) (k : Kernel) : Z := default 0 (signal_mask <$> TASKS k !! p).
Definition set_signal_mask (p : Pid) (mask : Z) (k : Kernel) : Kernel :=
  with_task p (set_mask mask) k.
Definition mask_signals (p : Pid) (mask : Z) (k : Kernel) : Kernel :=
  with_task p (λ t, set_mask (Z.lor (signal_mask t) mask) t) k.
Definition unmask_signals (p : Pid) (mask : Z) (k : Kernel) : Kernel :=
  with_task p (λ t, set_mask (Z.land (signal_mask t) (not64 mask)) t) k.

(** ** Task creation *)

(** [spawn_kernel_thread]: the canary guards the lowest word of the stack. *)
Definition spawn_kernel_thread (nm : string) (entry : Z) (k : Kernel) : res Kernel :=
  let! (o, pmm) := alloc_frames 2 (PMM k) in
  match o with
  | None => Panic
  | Some stack_phys =>
      let k := set_pmm pmm k in
      let off := phys_offset pmm in
      let stack_top := add64 (add64 off stack_phys) (STACK_PAGES * PAGE_SIZE) in
      let (p, k) := alloc_pid k in
      let (t, m) := new_kernel_thread p nm entry stack_top (cpu_cr3 (CPU k)) (KMEM k) in
      let canary_addr := add64 off stack_phys in
      let canary_value := Z.lxor 0xDEADC0DECAFE0000 (u64 (Z.shiftl p 3)) in
      let t := set_canary_addr canary_addr (set_canary canary_value t) in
      let t := set_runnable_at (UPTIME_MS k) t in
      let k := set_kmem (kwrite canary_addr canary_value m) k in
      let k := set_tasks (<[p := t]> (TASKS k)) k in
      let k := set_rq (enqueue p (RUNQUEUE k)) k in
      Ret (set_rlimits (init_pid p None (RLIMITS k)) k)
  end.

Definition register_idle_task (k : Kernel) : Kernel :=
  let k1 := set_tasks (<[IDLE_PID := new_idle IDLE_PID (cpu_cr3 (CPU k))]> (TASKS k)) k in
  set_rq (set_current IDLE_PID (RUNQUEUE k1)) k1.

(** The page-table side of a fork ([memory::alloc_user_cr3] and
    [copy_user_address_space]): from the parent's CR3, the CR3 built for the
    child (the current one when none could be allocated) and the frame allocator
    the tables were taken from. *)
Abbreviation vm_fork := (Z → BuddyAllocator → Z * BuddyAllocator).

Definition fork_task (vm : vm_fork) (parent : Pid) (k : Kernel) : res (option Pid * Kernel) :=
  let (child, k) := alloc_pid k in
  match TASKS k !! parent with
  | None => Ret (None, k)
  | Some pt =>
      let (child_cr3, pmm) := vm (cr3 pt) (PMM k) in
      let k := set_pmm pmm k in
      let! (o, pmm) := alloc_frames 2 (PMM k) in
      let k := set_pmm pmm k in
      match clone_shallow pt child o (phys_offset pmm) (KMEM k) with
      | None => Ret (None, k)
      | Some (t, m) =>
          let k := set_kmem m k in
          let k := set_tasks (<[child := set_cr3 child_cr3 t]> (TASKS k)) k in
          Ret (Some child, set_rq (enqueue child (RUNQUEUE k)) k)
      end
  end.

(** [spawn_user_thread] (CLONE_THREAD). *)
Definition spawn_user_thread (parent : Pid) (new_stack tls : Z) (settls : bool) (k : Kernel)
    : res (option Pid * Kernel) :=
  let (child, k) := alloc_pid k in
  match TASKS k !! parent with
  | None => Ret (None, k)
  | Some pt =>
      let! (o, pmm) := alloc_frames 2 (PMM k) in
      let k := set_pmm pmm k in
      match clone_shallow pt child o (phys_offset pmm) (KMEM k) with
      | None => Ret (None, k)
      | Some (t, m) =>
          let m := kwrite (add64 (saved_kernel_rsp t) 144) new_stack m in
          let t := if settls then set_fs tls t else t in
          let t := set_parent parent t in
          let k := set_kmem m k in
          let k := set_tasks (<[child := t]> (TASKS k)) k in
          let k := set_rq (enqueue child (RUNQUEUE k)) k in
          Ret (Some child, set_rlimits (init_pid child (Some parent) (RLIMITS k)) k)
      end
  end.

(** ** Exit and reaping *)

(** The tables of the modelled subsystems that forget a dead task. *)
Definition cleanup_task (p : Pid) (k : Kernel) : Kernel :=
  let k1 := set_rlimits (remove_limits p (RLIMITS k)) k in
  set_jobs (cleanup_jobs p (JOBS k1)) k1.

(** The page-table side of an exit, [memory::release_user_cow_refs]: what the
    address space's shared frames give back to the frame allocator. *)
Abbreviation cow_release := (Z → BuddyAllocator → BuddyAllocator).

Definition release_cow (vm : cow_release) (p : Pid) (k : Kernel) : Kernel :=
  let task_cr3 := default 0 (cr3 <$> TASKS k !! p) in
  if decide (task_cr3 = 0) then k else set_pmm (vm task_cr3 (PMM k)) k.

Definition notify_parent (parent : Pid) (k : Kernel) : Kernel :=
  if decide (parent = 0) then k
  else send_signal parent 17 (wake_pid parent k).

Definition parent_of (p : Pid) (k : Kernel) : Pid := default 0 (parent_pid <$> TASKS k !! p).

Definition make_zombie (p : Pid) (code : Z) (k : Kernel) : Kernel :=
  let k1 := with_task p (λ t, set_exit_code (Some code) (set_state Zombie t)) k in
  set_rq (remove_pid p (RUNQUEUE k1)) k1.

(** [exit_current_direct], up to the final [hlt] loop. *)
Definition exit_current_direct (vm : cow_release) (p : Pid) (code : Z) (k : Kernel) : Kernel :=
  let parent := parent_of p k in
  notify_parent parent (cleanup_task p (release_cow vm p (make_zombie p code k))).

(** [exit_current], up to the final [hlt] loop. *)
Definition exit_current (vm : cow_release) (code : Z) (k : Kernel) : Kernel :=
  let p := default 0 (current_pid (RUNQUEUE k)) in
  if decide (p = 0) then cleanup_task p k
  else
    let parent := parent_of p k in
    notify_parent parent (cleanup_task p (release_cow vm p (make_zombie p code k))).

Definition reap_zombie_child (parent : Pid) (k : Kernel) : option (Pid * Z) * Kernel :=
  match list_find (λ e : Pid * Task, parent_pid e.2 = parent ∧ state e.2 = Zombie)
          (btree_list (≤) (TASKS k)) with
  | Some (_, (c, t)) =>
      (Some (c, default 0 (exit_code t)), set_tasks (delete c (TASKS k)) k)
  | None => (None, k)
  end.

(** ** Accessors *)

Definition set_quantum_ms (ms : Z) (k : Kernel) : Kernel := set_quantum ms k.
Definition uptime_ms (k : Kernel) : Z := UPTIME_MS k.
Definition task_count (k : Kernel) : nat := size (TASKS k).
Definition list_pids (k : Kernel) : list Pid :=
  (filter (λ e : Pid * Task, state e.2 ≠ Zombie) (btree_list (≤) (TASKS k))).*1.
Definition all_pids (k : Kernel) : list Pid := (btree_list (≤) (TASKS k)).*1.
Definition pid_exists (p : Pid) (k : Kernel) : bool := bool_decide (is_Some (TASKS k !! p)).
Definition set_woke_by (wakee waker : Pid) (k : Kernel) : Kernel :=
  with_task wakee (set_woke (Some waker)) k.
Definition set_user_brk (p : Pid) (brk : Z) (k : Kernel) : Kernel := with_task p (set_brk brk) k.
Definition get_user_brk (p : Pid) (k : Kernel) : Z := default 0 (user_brk <$> TASKS k !! p).
Definition get_credentials (p : Pid) (k : Kernel) : Z * Z * Z * Z :=
  match TASKS k !! p with
  | Some t => (uid t, gid t, euid t, egid t)
  | None => (0, 0, 0, 0)
  end.
Definition set_fs_base (p : Pid) (base : Z) (k : Kernel) : Kernel := with_task p (set_fs base) k.
Definition get_fs_base (p : Pid) (k : Kernel) : Z := default 0 (fs_base <$> TASKS k !! p).
Definition set_nice_override (p : Pid) (nice : Z) (k : Kernel) : Kernel :=
  with_task p (set_nice nice) k.
Definition get_parent_pid (p : Pid) (k : Kernel) : Pid := parent_of p k.
Definition set_robust_list (p : Pid) (head len : Z) (k : Kernel) : Kernel :=
  with_task p (λ t, set_robust_len len (set_robust_head head t)) k.
Definition set_task_cr3 (p : Pid) (c : Z) (k : Kernel) : Kernel := with_task p (set_cr3 c) k.
Definition get_task_cr3 (p : Pid) (k : Kernel) : option Z := cr3 <$> TASKS k !! p.
Definition get_saved_rsp (p : Pid) (k : Kernel) : option Z := saved_kernel_rsp <$> TASKS k !! p.
Definition set_euid (p : Pid) (e : Z) (k : Kernel) : Kernel := with_task p (set_task_euid e) k.
Definition get_euid (p : Pid) (k : Kernel) : option Z := euid <$> TASKS k !! p.
Definition task_name (p : Pid) (k : Kernel) : option string := name <$> TASKS k !! p.
Definition task_mem_bytes (p : Pid) (k : Kernel) : Z := get_user_brk p k.

Record TaskInfo := mkInfo {
  info_name : string; state_char : Ascii.ascii; info_parent : Pid; thread_count : Z; vm_pages : Z
}.
Definition task_info (p : Pid) (k : Kernel) : option TaskInfo :=
  match TASKS k !! p with
  | None => None
  | Some t =>
      Some (mkInfo (name t)
        (match state t with
         | Runnable => "R"%char
         | Sleeping => "S"%char
         | Zombie => "Z"%char
         | Running => "S"%char
         end) (parent_pid t) 1 0)
  end.

(** [cpu_usage_pct]: 25% per ready task, at most 100. *)
Definition cpu_usage_pct (k : Kernel) : Z :=
  let running := length (filter (λ e : Pid * Task, state e.2 = Running ∨ state e.2 = Runnable)
                           (map_to_list (TASKS k))) in
  Z.min (Z.of_nat running * 25) 100.

Definition user_process_count (k : Kernel) : nat :=
  length (filter (λ e : Pid * Task, String.prefix "[" (name e.2) = false) (map_to_list (TASKS k))).

(** ** Intents and priorities *)

Definition set_intent (p : Pid) (i hint : Z) (k : Kernel) : Kernel :=
  with_task p (λ t,
    let prio := if decide (i = 1) then -15
                else if decide (i = 3) then -10
                else if decide (i = 0) then 0
                else if decide (i = 2) then 10
                else if decide (i = 7) then 5
                else priority t in
    set_priority prio (set_hint hint (set_task_intent i t))) k.

Definition clamp20 (x : Z) : Z := Z.max (-20) (Z.min x 20).

Definition adjust_priority (p : Pid) (delta : Z) (k : Kernel) : Kernel :=
  with_task p (λ t, set_priority (clamp20 (priority t + delta)) t) k.

(** ** The timer interrupt *)

Record AiHints := mkHints {
  h_fingerprint : Pid → option Z;   (* nice_adjust of the task's cluster *)
  h_successors : Pid → list Pid;    (* causal::predict_successors *)
  h_burst : Pid → Z → Z;            (* burst in ticks under the pressure scale *)
  h_blended : Pid → Z;              (* confidence-weighted nice value *)
  h_prefetch : Pid → BuddyAllocator → BuddyAllocator
                                    (* frames the causal page prefetch takes *)
}.

Definition canary_mismatch (p : Pid) (k : Kernel) : bool :=
  match TASKS k !! p with
  | Some t =>
      if decide (stack_canary_addr t = 0) then false
      else bool_decide (kread (KMEM k) (stack_canary_addr t) ≠ stack_canary t)
  | None => false
  end.

(** Step 1: the outgoing task's stack pointer, and Running becomes Runnable. *)
Definition save_outgoing (p : Pid) (old_rsp : Z) (k : Kernel) : Kernel :=
  with_task p (λ t,
    let t := set_saved_rsp old_rsp t in
    if decide (state t = Running) then set_state Runnable t else t) k.

(** Step 2a: the fingerprint's nice value, and the causal affinity boost. *)
Definition apply_fingerprint (h : AiHints) (p : Pid) (k : Kernel) : Kernel :=
  match h_fingerprint h p with
  | Some n => with_task p (λ t, if decide (intent t = 0) then set_nice n t else t) k
  | None => k
  end.

Definition boost_successors (h : AiHints) (p : Pid) (k : Kernel) : Kernel :=
  set_rq (foldl (λ rq s, move_to_front s rq) (RUNQUEUE k) (reverse (h_successors h p))) k.

(** Step 3: the quantum predicted for the task at the front of the queue. *)
Definition next_burst (h : AiHints) (k : Kernel) : option Z :=
  let front := peek_front (RUNQUEUE k) in
  match front with
  | None => None
  | Some p =>
      match TASKS k !! p with
      | None => None
      | Some t =>
          let us := burst_estimate_us (ai_profile t) in
          if decide (us = 0) then None else Some (Z.max (h_burst h p (us / 10000)) 1)
      end
  end.

(** Step 3b: wake the sleeping habitual consumers of the incoming task. *)
Fixpoint prewake (ss : list Pid) (k : Kernel) : Kernel :=
  match ss with
  | [] => k
  | s :: ss' =>
      let k' := match TASKS k !! s with
                | Some t =>
                    if decide (state t = Sleeping) then
                      let k1 := with_task s (set_state Runnable) k in
                      set_rq (enqueue s (RUNQUEUE k1)) k1
                    else k
                | None => k
                end in
      prewake ss' k'
  end.

Definition prefetch (h : AiHints) (next : Pid) (k : Kernel) : Kernel :=
  set_pmm (h_prefetch h next (PMM k)) k.

(** Step 4: install the incoming task and return its kernel stack pointer. *)
Definition dispatch (h : AiHints) (next : Pid) (uptime old_rsp : Z) (k : Kernel) : Z * Kernel :=
  match TASKS k !! next with
  | None => (old_rsp, k)
  | Some t =>
      let wait_us := mul64 (sat_sub uptime (runnable_at t)) 1000 in
      let t1 := set_latency (sat_add64 (sched_latency_total_us t) wait_us) t in
      let t1 := set_sched_count (add64 (sched_count t1) 1) t1 in
      let t1 := set_state Running (bump_ticks_run t1) in
      let t1 := if decide (intent t1 = 0) then set_nice (clamp20 (h_blended h next)) t1 else t1 in
      let c := CPU k in
      let c := mkCpu (cr3 t1)
                 (if decide (kernel_stack_top t1 = 0) then cpu_rsp0 c else kernel_stack_top t1)
                 (if decide (fs_base t1 = 0) then cpu_fs c else fs_base t1)
                 (Some next) in
      (saved_kernel_rsp t1, set_cpu c (set_tasks (<[next := t1]> (TASKS k)) k))
  end.

(** [schedule_from_interrupt]: the stack pointer to resume on, and the state. *)
Definition schedule_from_interrupt (h : AiHints) (old_rsp : Z) (k : Kernel) : Z * Kernel :=
  let uptime := UPTIME_MS k in
  let k := set_uptime (add64 uptime 10) k in
  match current_pid (RUNQUEUE k) with
  | None => (old_rsp, k)
  | Some p =>
      let k := if canary_mismatch p k then kill_task p 6 k else k in
      let k := save_outgoing p old_rsp k in
      let k := boost_successors h p (apply_fingerprint h p k) in
      let (o, rq) := tick (next_burst h k) (RUNQUEUE k) in
      let k := set_rq rq k in
      match o with
      | None => (old_rsp, k)
      | Some next => dispatch h next uptime old_rsp (prefetch h next (prewake (h_successors h next) k))
      end
  end.
