(* ===== verification/SchedulerFacts.v ===== *)
(** The scheduler invariant and its preservation by every operation. *)
From stdpp Require Import base numbers list gmap sets strings sorting.
From S2P Require Import Prelude Pmm RunQueue Task Rlimit JobControl Scheduler.

(** ** The invariant *)

(** Every PID the run queue lists is a live task: waiting ones are Runnable, the
    current one is Runnable or Running. In particular no sleeping and no zombie
    task is queued, and no task is queued twice. PIDs come from the counter. *)
Record sched_inv (k : Kernel) : Prop := {
  si_rq : rq_wf (RUNQUEUE k);
  si_queue p : p ∈ queue (RUNQUEUE k) → ∃ t, TASKS k !! p = Some t ∧ state t = Runnable;
  si_current p : current_pid (RUNQUEUE k) = Some p →
    ∃ t, TASKS k !! p = Some t ∧ (state t = Runnable ∨ state t = Running);
  si_pids p t : TASKS k !! p = Some t → pid t = p ∧ (p = 0 ∨ 1 ≤ p < NEXT_PID k);
  si_next : 1 ≤ NEXT_PID k < u64_modulus
}.

Create HintDb sched.
#[export] Hint Resolve schedule_next_wf tick_wf move_to_front_wf remove_pid_wf : sched.

Lemma lookup_with_task p f k q :
  TASKS (with_task p f k) !! q = if decide (p = q) then f <$> TASKS k !! q else TASKS k !! q.
Proof. apply lookup_alter_at. Qed.

(** A task the queue lists. *)
Lemma si_listed k p :
  sched_inv k → p ∈ rq_pids (RUNQUEUE k) →
  ∃ t, TASKS k !! p = Some t ∧ (state t = Runnable ∨ state t = Running).
Proof.
  intros Hi Hp. unfold rq_pids in Hp. apply elem_of_app in Hp as [Hp|Hp].
  - apply Hi. destruct (current_pid _); simpl in Hp; [|by apply elem_of_nil in Hp].
    by apply list_elem_of_singleton in Hp as ->.
  - destruct (si_queue _ Hi _ Hp) as (t & ? & ?). eauto.
Qed.

Lemma si_not_listed k p t :
  sched_inv k → TASKS k !! p = Some t → state t = Sleeping ∨ state t = Zombie →
  p ∉ rq_pids (RUNQUEUE k).
Proof.
  intros Hi Ht Hs Hp. destruct (si_listed _ _ Hi Hp) as (t' & Ht' & Hs').
  rewrite Ht in Ht'. simplify_eq. destruct Hs as [E|E], Hs' as [E'|E']; congruence.
Qed.

Lemma si_not_listed_none k p : sched_inv k → TASKS k !! p = None → p ∉ rq_pids (RUNQUEUE k).
Proof. intros Hi Ht Hp. destruct (si_listed _ _ Hi Hp) as (t' & Ht' & _). congruence. Qed.

Lemma elem_of_rq_current p k : current_pid (RUNQUEUE k) = Some p → p ∈ rq_pids (RUNQUEUE k).
Proof. intros E. unfold rq_pids. rewrite E. set_solver. Qed.

Lemma elem_of_rq_queue p k : p ∈ queue (RUNQUEUE k) → p ∈ rq_pids (RUNQUEUE k).
Proof. intros E. unfold rq_pids. set_solver. Qed.

(** Changing a task without touching its state or PID. *)
Lemma with_task_inv p f k :
  (∀ t, state (f t) = state t) → (∀ t, pid (f t) = pid t) →
  sched_inv k → sched_inv (with_task p f k).
Proof.
  intros Hst Hpid Hi. split; simpl.
  - apply Hi.
  - intros q Hq. rewrite lookup_alter_at. destruct (si_queue _ Hi q Hq) as (t & -> & Hs).
    case_decide; simpl; eexists; [by split; [|rewrite Hst]|done].
  - intros q Hq. rewrite lookup_alter_at. destruct (si_current _ Hi q Hq) as (t & -> & Hs).
    case_decide; simpl; eexists; [by split; [|rewrite Hst]|done].
  - intros q t. rewrite lookup_alter_at. case_decide; [|by apply Hi].
    intros Ht. apply fmap_Some in Ht as (t0 & Ht0 & ->). rewrite Hpid. by apply Hi.
  - apply Hi.
Qed.

(** Operations that leave tasks, queue and PID counter alone. *)
Lemma same_tables_inv k k' :
  TASKS k' = TASKS k → RUNQUEUE k' = RUNQUEUE k → NEXT_PID k' = NEXT_PID k →
  sched_inv k → sched_inv k'.
Proof. intros E1 E2 E3 [H1 H2 H3 H4 H5]. split; rewrite ?E1, ?E2, ?E3; done. Qed.

(** Replacing the queue by one that lists the same tasks. *)
Lemma set_rq_inv k rq :
  sched_inv k → rq_wf rq →
  (∀ p, p ∈ queue rq → ∃ t, TASKS k !! p = Some t ∧ state t = Runnable) →
  (∀ p, current_pid rq = Some p → ∃ t, TASKS k !! p = Some t ∧ (state t = Runnable ∨ state t = Running)) →
  sched_inv (set_rq rq k).
Proof. intros [H1 H2 H3 H4 H5] Hw Hq Hc. by split. Qed.

(** Taking a task out of the queue and giving it a state that is not queued. *)
Lemma unqueue_inv p f k :
  (∀ t, pid (f t) = pid t) → sched_inv k →
  sched_inv (set_rq (remove_pid p (RUNQUEUE (with_task p f k))) (with_task p f k)).
Proof.
  intros Hpid Hi. pose proof (remove_pid_wf p _ (si_rq _ Hi)) as Hw. split; simpl.
  - done.
  - intros q Hq. apply list_elem_of_filter in Hq as [Hne Hq].
    rewrite lookup_alter_ne by done. by apply Hi.
  - intros q. case_decide as E; [done|]. intros Hq.
    rewrite lookup_alter_ne by congruence. by apply Hi.
  - intros q t. rewrite lookup_alter_at. case_decide; [|by apply Hi].
    intros Ht. apply fmap_Some in Ht as (t0 & Ht0 & ->). rewrite Hpid. by apply Hi.
  - apply Hi.
Qed.

(** Making a task that is not listed Runnable and appending it. *)
Lemma requeue_inv p f k t :
  sched_inv k → TASKS k !! p = Some t → p ∉ rq_pids (RUNQUEUE k) →
  (∀ t, state (f t) = Runnable) → (∀ t, pid (f t) = pid t) →
  sched_inv (set_rq (enqueue p (RUNQUEUE (with_task p f k))) (with_task p f k)).
Proof.
  intros Hi Ht Hp Hst Hpid. split; simpl.
  - by apply enqueue_wf; [apply Hi|].
  - intros q Hq. rewrite lookup_alter_at. apply elem_of_app in Hq as [Hq|Hq].
    + destruct (si_queue _ Hi q Hq) as (t' & -> & Hs).
      case_decide; simpl; eexists; [by split; [|rewrite Hst]|done].
    + apply list_elem_of_singleton in Hq as ->. rewrite decide_True by done.
      rewrite Ht. simpl. eexists. split; [done|apply Hst].
  - intros q Hq. rewrite lookup_alter_at. destruct (si_current _ Hi q Hq) as (t' & -> & Hs).
    case_decide; simpl; eexists; [by split; [|rewrite Hst; auto]|done].
  - intros q t'. rewrite lookup_alter_at. case_decide; [|by apply Hi].
    intros Ht'. apply fmap_Some in Ht' as (t0 & Ht0 & ->). rewrite Hpid. by apply Hi.
  - apply Hi.
Qed.

(** A new task under a fresh PID. *)
Lemma spawn_inv p t k :
  sched_inv k → TASKS k !! p = None → pid t = p → state t = Runnable →
  p = 0 ∨ 1 ≤ p < NEXT_PID k →
  sched_inv (set_rq (enqueue p (RUNQUEUE k)) (set_tasks (<[p := t]> (TASKS k)) k)).
Proof.
  intros Hi Hn Hpid Hst Hr. split; simpl.
  - apply enqueue_wf; [apply Hi|]. by apply si_not_listed_none.
  - intros q Hq. rewrite lookup_insert. apply elem_of_app in Hq as [Hq|Hq].
    + case_decide; [by eexists|]. by apply Hi.
    + apply list_elem_of_singleton in Hq as ->. rewrite decide_True by done. by eexists.
  - intros q Hq. rewrite lookup_insert. case_decide; [by eexists; split; [|rewrite Hst; auto]|]. by apply Hi.
  - intros q t'. rewrite lookup_insert. case_decide; [|by apply Hi]. intros [= <-]. by subst.
  - apply Hi.
Qed.

(** ** Each operation preserves it *)

Lemma sleep_current_inv k : sched_inv k → sched_inv (sleep_current k).
Proof.
  intros Hi. unfold sleep_current. destruct (current_pid _); [|done]. by apply unqueue_inv.
Qed.

Lemma wake_pid_inv p k : sched_inv k → sched_inv (wake_pid p k).
Proof.
  intros Hi. unfold wake_pid. destruct (TASKS k !! p) as [t|] eqn:Ht; [|done].
  case_decide as Hs; [|done]. eapply requeue_inv; [done..| |done|done].
  by eapply si_not_listed; [..|left].
Qed.

Lemma send_signal_inv p s k : sched_inv k → sched_inv (send_signal p s k).
Proof.
  intros Hi. unfold send_signal. case_decide; [done|].
  destruct (TASKS k !! p) as [t|]; [|done].
  case_decide; [apply wake_pid_inv|]; by apply with_task_inv.
Qed.

Lemma cleanup_task_inv p k : sched_inv k → sched_inv (cleanup_task p k).
Proof. by apply same_tables_inv. Qed.

Lemma notify_parent_inv p k : sched_inv k → sched_inv (notify_parent p k).
Proof.
  intros Hi. unfold notify_parent. case_decide; [done|].
  by apply send_signal_inv, wake_pid_inv.
Qed.

Lemma make_zombie_inv p c k : sched_inv k → sched_inv (make_zombie p c k).
Proof. intros Hi. by apply unqueue_inv. Qed.

Lemma release_cow_tables vm p k :
  TASKS (release_cow vm p k) = TASKS k ∧ RUNQUEUE (release_cow vm p k) = RUNQUEUE k ∧
  NEXT_PID (release_cow vm p k) = NEXT_PID k.
Proof. unfold release_cow. cbv zeta. by case_decide. Qed.

Lemma release_cow_inv vm p k : sched_inv k → sched_inv (release_cow vm p k).
Proof. destruct (release_cow_tables vm p k) as (? & ? & ?). by apply same_tables_inv. Qed.

Lemma exit_current_direct_inv vm p c k : sched_inv k → sched_inv (exit_current_direct vm p c k).
Proof. intros Hi. by apply notify_parent_inv, cleanup_task_inv, release_cow_inv, make_zombie_inv. Qed.

Lemma exit_current_inv vm c k : sched_inv k → sched_inv (exit_current vm c k).
Proof.
  intros Hi. unfold exit_current. case_decide; [by apply cleanup_task_inv|].
  by apply notify_parent_inv, cleanup_task_inv, release_cow_inv, make_zombie_inv.
Qed.

Lemma reap_find k parent i c t :
  list_find (λ e : Pid * Task, parent_pid e.2 = parent ∧ state e.2 = Zombie)
    (btree_list (≤) (TASKS k)) = Some (i, (c, t)) →
  TASKS k !! c = Some t ∧ parent_pid t = parent ∧ state t = Zombie.
Proof.
  intros E. apply list_find_Some in E as (Hl & [? ?] & _).
  apply list_elem_of_lookup_2 in Hl. by apply elem_of_btree_list in Hl.
Qed.

Lemma reap_zombie_child_inv p k : sched_inv k → sched_inv (reap_zombie_child p k).2.
Proof.
  intros Hi. unfold reap_zombie_child.
  destruct (list_find _ _) as [[i [c t]]|] eqn:E; [|done].
  apply reap_find in E as (Ht & _ & Hz).
  assert (Hc : c ∉ rq_pids (RUNQUEUE k)) by (by eapply si_not_listed; [..|right]).
  split; simpl.
  - apply Hi.
  - intros q Hq. rewrite lookup_delete_ne; [by apply Hi|].
    intros ->. by apply Hc, elem_of_rq_queue.
  - intros q Hq. rewrite lookup_delete_ne; [by apply Hi|].
    intros ->. by apply Hc, elem_of_rq_current.
  - intros q t'. rewrite lookup_delete_Some. intros [_ ?]. by apply Hi.
  - apply Hi.
Qed.

Lemma take_pending_signal_inv p k : sched_inv k → sched_inv (take_pending_signal p k).2.
Proof.
  intros Hi. unfold take_pending_signal. destruct (TASKS k !! p); [|done]. cbv zeta.
  case_decide; [done|]. by apply with_task_inv.
Qed.

Lemma consume_masked_signal_inv p m k : sched_inv k → sched_inv (consume_masked_signal p m k).2.
Proof.
  intros Hi. unfold consume_masked_signal. destruct (TASKS k !! p); [|done]. cbv zeta.
  case_decide; [done|]. by apply with_task_inv.
Qed.

(** ** Task creation *)

Lemma fresh_pid k : sched_inv k → TASKS k !! NEXT_PID k = None.
Proof.
  intros Hi. destruct (TASKS k !! NEXT_PID k) as [t|] eqn:E; [|done].
  apply (si_pids _ Hi) in E as [_ E]. pose proof (si_next _ Hi). lia.
Qed.

Lemma alloc_pid_inv k :
  sched_inv k → NEXT_PID k + 1 < u64_modulus →
  sched_inv (alloc_pid k).2 ∧ TASKS (alloc_pid k).2 !! NEXT_PID k = None ∧
  1 ≤ NEXT_PID k < NEXT_PID (alloc_pid k).2.
Proof.
  intros Hi Hb. pose proof (si_next _ Hi) as Hn. unfold alloc_pid. simpl.
  rewrite add64_small by lia. split_and!; [|by apply fresh_pid|lia..].
  destruct Hi as [H1 H2 H3 H4 H5]. split; simpl; try done; [|lia].
  intros p t Ht. destruct (H4 p t Ht) as [? ?]. split; [done|]. lia.
Qed.

Lemma spawn_kernel_thread_inv nm entry k k' :
  sched_inv k → NEXT_PID k + 1 < u64_modulus →
  spawn_kernel_thread nm entry k = Ret k' → sched_inv k'.
Proof.
  intros Hi Hb. unfold spawn_kernel_thread.
  destruct (alloc_frames 2 (PMM k)) as [[o pmm]| |]; [|done..]. cbn [res_bind].
  destruct o as [sp|]; [|done]. cbv zeta.
  assert (Hi1 : sched_inv (set_pmm pmm k)) by (by apply (same_tables_inv k)).
  destruct (alloc_pid_inv _ Hi1) as (Hi2 & Hf & Hr); [done|].
  destruct (alloc_pid (set_pmm pmm k)) as [p k2] eqn:Ep. cbn [snd] in *.
  assert (Hp : p = NEXT_PID k) by (unfold alloc_pid in Ep; by simplify_eq/=). subst p.
  destruct (new_kernel_thread _ _ _ _ _ _) as [t m] eqn:Et.
  assert (Htp : pid t = NEXT_PID k ∧ state t = Runnable).
  { unfold new_kernel_thread in Et. by apply pair_equal_spec in Et as [<- _]. }
  intros E. apply (f_equal (λ r, match r with Ret a => a | _ => k end)) in E. subst k'.
  eapply (same_tables_inv (set_rq (enqueue (NEXT_PID k) (RUNQUEUE k2))
    (set_tasks (<[NEXT_PID k := _]> (TASKS k2)) k2))); [done..|].
  apply spawn_inv; [done..| | |].
  - by destruct Htp as [<- _].
  - by destruct Htp as [_ <-].
  - right. exact Hr.
Qed.

Lemma clone_shallow_pid self c o off m t m' :
  clone_shallow self c o off m = Some (t, m') → pid t = c ∧ state t = Runnable ∧
    parent_pid t = pid self ∧ signal_mask t = signal_mask self ∧ pending_signals t = 0.
Proof.
  unfold clone_shallow. destruct o; [|done]. intros E.
  by apply (inj Some), pair_equal_spec in E as [<- _].
Qed.

Lemma fork_task_inv vm parent k o k' :
  sched_inv k → NEXT_PID k + 1 < u64_modulus →
  fork_task vm parent k = Ret (o, k') → sched_inv k'.
Proof.
  intros Hi Hb. unfold fork_task.
  destruct (alloc_pid_inv _ Hi Hb) as (Hi1 & Hf & Hr).
  destruct (alloc_pid k) as [p k1] eqn:Ep. cbn [snd] in *.
  assert (Hp : p = NEXT_PID k) by (unfold alloc_pid in Ep; by simplify_eq/=). subst p.
  destruct (TASKS k1 !! parent) as [pt|]; [|by intros [= _ <-]].
  destruct (vm (cr3 pt) (PMM k1)) as [c pmm0]. cbv zeta. simpl PMM.
  destruct (alloc_frames 2 pmm0) as [[f pmm]| |]; [|done..]. cbn [res_bind]. cbv zeta.
  assert (Hi2 : sched_inv (set_pmm pmm (set_pmm pmm0 k1))) by (by apply (same_tables_inv k1)).
  destruct (clone_shallow _ _ _ _ _) as [[t m]|] eqn:Ec; [|by intros [= _ <-]].
  apply clone_shallow_pid in Ec as (Ht & Hs & _). intros [= _ <-].
  eapply (same_tables_inv (set_rq (enqueue (NEXT_PID k) (RUNQUEUE k1))
    (set_tasks (<[NEXT_PID k := _]> (TASKS k1)) k1))); [done..|].
  apply spawn_inv; [done..|]. right. exact Hr.
Qed.

Lemma spawn_user_thread_inv parent st tls b k o k' :
  sched_inv k → NEXT_PID k + 1 < u64_modulus →
  spawn_user_thread parent st tls b k = Ret (o, k') → sched_inv k'.
Proof.
  intros Hi Hb. unfold spawn_user_thread.
  destruct (alloc_pid_inv _ Hi Hb) as (Hi1 & Hf & Hr).
  destruct (alloc_pid k) as [p k1] eqn:Ep. cbn [snd] in *.
  assert (Hp : p = NEXT_PID k) by (unfold alloc_pid in Ep; by simplify_eq/=). subst p.
  destruct (TASKS k1 !! parent) as [pt|]; [|by intros [= _ <-]].
  destruct (alloc_frames 2 (PMM k1)) as [[f pmm]| |]; [|done..]. cbn [res_bind]. cbv zeta.
  assert (Hi2 : sched_inv (set_pmm pmm k1)) by (by apply (same_tables_inv k1)).
  destruct (clone_shallow _ _ _ _ _) as [[t m]|] eqn:Ec; [|by intros [= _ <-]].
  apply clone_shallow_pid in Ec as (Ht & Hs & _). intros [= _ <-].
  eapply (same_tables_inv (set_rq (enqueue (NEXT_PID k) (RUNQUEUE k1))
    (set_tasks (<[NEXT_PID k := _]> (TASKS k1)) k1))); [done..|].
  apply spawn_inv; [done..| | |]; [by destruct b|by destruct b|]. right. exact Hr.
Qed.

Lemma register_idle_task_inv k :
  sched_inv k → current_pid (RUNQUEUE k) = None → TASKS k !! IDLE_PID = None →
  sched_inv (register_idle_task k).
Proof.
  intros Hi Hc Hn. pose proof (si_not_listed_none _ _ Hi Hn) as Hq. unfold register_idle_task.
  destruct (si_rq _ Hi) as [Hnd Hs Ht]. unfold rq_pids in Hnd, Hq. rewrite Hc in Hnd, Hq.
  simpl in Hnd, Hq. split; simpl.
  - split; [|done|done]. unfold rq_pids. simpl. by apply NoDup_cons.
  - intros p Hp. rewrite lookup_insert_ne by (intros <-; done). by apply Hi.
  - intros p [= <-]. rewrite lookup_insert_eq. eexists. split; [done|]. by right.
  - intros p t. rewrite lookup_insert. case_decide; [|by apply Hi].
    intros [= <-]. subst p. split; [done|]. by left.
  - apply Hi.
Qed.

(** ** The timer interrupt *)

Definition all_runnable (k : Kernel) : Prop :=
  ∀ p, p ∈ rq_pids (RUNQUEUE k) → ∃ t, TASKS k !! p = Some t ∧ state t = Runnable.

Lemma save_outgoing_inv p rsp k :
  sched_inv k → current_pid (RUNQUEUE k) = Some p →
  sched_inv (save_outgoing p rsp k) ∧ all_runnable (save_outgoing p rsp k) ∧
  saved_kernel_rsp <$> TASKS (save_outgoing p rsp k) !! p = Some rsp.
Proof.
  intros Hi Hc. unfold save_outgoing.
  set (f := λ t : Task, _).
  assert (Hf : ∀ t, state t = Runnable ∨ state t = Running → state (f t) = Runnable).
  { intros t Ht. unfold f. cbv zeta. simpl. case_decide; [done|]. naive_solver. }
  assert (Hpid : ∀ t, pid (f t) = pid t) by (intros t; unfold f; cbv zeta; by case_decide).
  assert (Hrsp : ∀ t, saved_kernel_rsp (f t) = rsp) by (intros t; unfold f; cbv zeta; by case_decide).
  assert (Hall : all_runnable (with_task p f k)).
  { intros q Hq. simpl in Hq. rewrite lookup_with_task. case_decide as E.
    - subst q. destruct (si_current _ Hi p Hc) as (t & -> & Hs). simpl. eexists.
      split; [done|]. by apply Hf.
    - unfold rq_pids in Hq. rewrite Hc in Hq. apply Hi. set_solver. }
  split_and!; [|done|].
  - split.
    + apply Hi.
    + intros q Hq. apply Hall. by apply elem_of_rq_queue.
    + intros q Hq. destruct (Hall q) as (t & ? & ?); [by apply elem_of_rq_current|]. eauto.
    + intros q t. rewrite lookup_with_task. case_decide; [|by apply Hi].
      intros Ht. apply fmap_Some in Ht as (t0 & Ht0 & ->). rewrite Hpid. by apply Hi.
    + apply Hi.
  - rewrite lookup_with_task, decide_True by done.
    destruct (si_current _ Hi p Hc) as (t & -> & Hs). simpl. by rewrite Hrsp.
Qed.

(** What a step of the handler keeps: the invariant, that every listed task is
    Runnable, the listed PIDs, and the saved stack pointers and page tables. *)
Definition keeps (k k' : Kernel) : Prop :=
  ∀ q, (λ t, (saved_kernel_rsp t, cr3 t, kernel_stack_top t, fs_base t)) <$> TASKS k' !! q =
       (λ t, (saved_kernel_rsp t, cr3 t, kernel_stack_top t, fs_base t)) <$> TASKS k !! q.

#[export] Instance keeps_preorder : PreOrder keeps.
Proof. split; [by intros k q|]. intros k1 k2 k3 H1 H2 q. by rewrite H2. Qed.

Lemma with_task_keeps p f k :
  (∀ t, (saved_kernel_rsp (f t), cr3 (f t), kernel_stack_top (f t), fs_base (f t)) =
        (saved_kernel_rsp t, cr3 t, kernel_stack_top t, fs_base t)) →
  keeps k (with_task p f k).
Proof.
  intros Hf q. rewrite lookup_with_task. case_decide; [|done]. rewrite <- option_fmap_compose.
  destruct (TASKS k !! q) as [t|]; [|done]. simpl. f_equal. apply Hf.
Qed.

Lemma with_task_all_runnable p f k :
  (∀ t, state t = Runnable → state (f t) = Runnable) →
  all_runnable k → all_runnable (with_task p f k).
Proof.
  intros Hf Ha q Hq. rewrite lookup_with_task. destruct (Ha q Hq) as (t & -> & Hs).
  case_decide; simpl; eexists; [split; [done|by apply Hf]|done].
Qed.

Lemma apply_fingerprint_inv h p k :
  sched_inv k → all_runnable k →
  sched_inv (apply_fingerprint h p k) ∧ all_runnable (apply_fingerprint h p k) ∧
  keeps k (apply_fingerprint h p k) ∧ RUNQUEUE (apply_fingerprint h p k) = RUNQUEUE k.
Proof.
  intros Hi Ha. unfold apply_fingerprint. destruct (h_fingerprint h p); [|done].
  split_and!; [apply with_task_inv; [..|done]; intros t; by case_decide
    |apply with_task_all_runnable; [intros t; by case_decide|done]
    |apply with_task_keeps; intros t; by case_decide|done].
Qed.

Lemma boost_successors_rq ss rq :
  rq_wf rq →
  rq_wf (foldl (λ rq s, move_to_front s rq) rq ss) ∧
  rq_pids (foldl (λ rq s, move_to_front s rq) rq ss) ≡ₚ rq_pids rq ∧
  current_pid (foldl (λ rq s, move_to_front s rq) rq ss) = current_pid rq.
Proof.
  revert rq. induction ss as [|s ss IH]; intros rq Hw; [done|]. simpl.
  destruct (IH (move_to_front s rq)) as (H1 & H2 & H3); [by apply move_to_front_wf|].
  split_and!; [done| |].
  - by rewrite H2, move_to_front_perm.
  - by rewrite H3, move_to_front_current.
Qed.

(** Replacing the queue by a permutation of it, all tasks being Runnable. *)
Lemma set_rq_perm k rq :
  sched_inv k → all_runnable k → rq_wf rq → rq_pids rq ≡ₚ rq_pids (RUNQUEUE k) →
  sched_inv (set_rq rq k) ∧ all_runnable (set_rq rq k).
Proof.
  intros Hi Ha Hw Hp.
  assert (Ha' : all_runnable (set_rq rq k)).
  { intros q Hq. apply (Ha q). simpl in Hq. by rewrite <- Hp. }
  split; [|done]. apply set_rq_inv; [done..| |].
  - intros q Hq. apply Ha'. unfold rq_pids. simpl. set_solver.
  - intros q Hq. destruct (Ha' q) as (t & ? & ?); [by apply elem_of_rq_current|]. eauto.
Qed.

Lemma tick_perm qo rq : rq_pids (tick qo rq).2 ≡ₚ rq_pids rq.
Proof.
  unfold tick. cbv zeta. case_decide; [|done]. by rewrite schedule_next_perm.
Qed.

(** The PID a tick returns is the new current one. *)
Lemma tick_current qo rq p rq' : tick qo rq = (Some p, rq') → current_pid rq' = Some p.
Proof.
  unfold tick, schedule_next. cbv zeta. case_decide; [|done].
  destruct rq as [[|q0 q] ts tl [c|]]; simpl; intros; by simplify_eq/=.
Qed.

Lemma tick_none qo rq c rq' :
  current_pid rq = Some c → tick qo rq = (None, rq') → current_pid rq' = Some c.
Proof.
  unfold tick, schedule_next. cbv zeta. intros Hc. case_decide; [|intros; by simplify_eq/=].
  destruct rq as [[|q0 q] ts tl [c'|]]; simpl in *; intros; by simplify_eq/=.
Qed.

Lemma prewake_inv ss : ∀ k,
  sched_inv k → all_runnable k →
  sched_inv (prewake ss k) ∧ all_runnable (prewake ss k) ∧ keeps k (prewake ss k) ∧
  current_pid (RUNQUEUE (prewake ss k)) = current_pid (RUNQUEUE k).
Proof.
  induction ss as [|s ss IH]; intros k Hi Ha; [done|]. cbn [prewake]. cbv zeta.
  destruct (TASKS k !! s) as [t|] eqn:Ht; [|by apply IH].
  case_decide as Hs; [|by apply IH].
  set (k1 := with_task s (set_state Runnable) k).
  assert (Hi1 : sched_inv (set_rq (enqueue s (RUNQUEUE k1)) k1)).
  { eapply requeue_inv; [done..| |done|done]. by eapply si_not_listed; [..|left]. }
  assert (Ha1 : all_runnable (set_rq (enqueue s (RUNQUEUE k1)) k1)).
  { intros q Hq. unfold rq_pids, enqueue in Hq. simpl in Hq.
    rewrite (assoc_L (++)) in Hq. apply elem_of_app in Hq as [Hq|Hq].
    - by apply (with_task_all_runnable s (set_state Runnable) k).
    - apply list_elem_of_singleton in Hq as ->. simpl. rewrite lookup_alter_eq, Ht. simpl. eauto. }
  destruct (IH _ Hi1 Ha1) as (H1 & H2 & H3 & H4). split_and!; [done..| |done].
  etrans; [|exact H3]. by apply (with_task_keeps s (set_state Runnable) k).
Qed.

(** Installing the incoming task: its saved context is what the CPU gets. *)
Lemma prefetch_keeps h next k0 k :
  sched_inv k → all_runnable k → keeps k0 k →
  current_pid (RUNQUEUE k) = current_pid (RUNQUEUE k0) →
  sched_inv (prefetch h next k) ∧ all_runnable (prefetch h next k) ∧ keeps k0 (prefetch h next k) ∧
  current_pid (RUNQUEUE (prefetch h next k)) = current_pid (RUNQUEUE k0).
Proof. intros Hi Ha Hk Hc. split_and!; [by apply (same_tables_inv k)|done..]. Qed.

Lemma dispatch_spec h next up rsp k :
  sched_inv k → all_runnable k → current_pid (RUNQUEUE k) = Some next →
  ∃ t, TASKS k !! next = Some t ∧
    (dispatch h next up rsp k).1 = saved_kernel_rsp t ∧
    sched_inv (dispatch h next up rsp k).2 ∧ keeps k (dispatch h next up rsp k).2 ∧
    RUNQUEUE (dispatch h next up rsp k).2 = RUNQUEUE k ∧
    (state <$> TASKS (dispatch h next up rsp k).2 !! next) = Some Running ∧
    cpu_cr3 (CPU (dispatch h next up rsp k).2) = cr3 t ∧
    (kernel_stack_top t ≠ 0 → cpu_rsp0 (CPU (dispatch h next up rsp k).2) = kernel_stack_top t) ∧
    (fs_base t ≠ 0 → cpu_fs (CPU (dispatch h next up rsp k).2) = fs_base t).
Proof.
  intros Hi Ha Hc. destruct (Ha next) as (t & Ht & Hs); [by apply elem_of_rq_current|].
  exists t. split; [done|]. unfold dispatch. rewrite Ht. cbv zeta.
  set (t1 := if decide _ then _ else _).
  assert (Hk : saved_kernel_rsp t1 = saved_kernel_rsp t ∧ cr3 t1 = cr3 t ∧
    kernel_stack_top t1 = kernel_stack_top t ∧ fs_base t1 = fs_base t ∧ state t1 = Running ∧
    pid t1 = pid t) by (unfold t1; by case_decide).
  clearbody t1. destruct Hk as (E1 & E2 & E3 & E4 & E5 & E6). cbn [fst snd].
  assert (Hnq : next ∉ queue (RUNQUEUE k)).
  { destruct (si_rq _ Hi) as [Hnd _ _]. unfold rq_pids in Hnd. rewrite Hc in Hnd. simpl in Hnd.
    by apply NoDup_cons in Hnd as [? _]. }
  split_and!; simpl.
  - done.
  - split; simpl.
    + apply Hi.
    + intros q Hq. rewrite lookup_insert_ne by (intros ->; done). by apply Hi.
    + intros q Hq. assert (q = next) as -> by congruence. rewrite lookup_insert_eq. eauto.
    + intros q t'. rewrite lookup_insert. case_decide; [|by apply Hi].
      intros [= <-]. subst q. rewrite E6. by apply (si_pids _ Hi).
    + apply Hi.
  - intros q. simpl. rewrite lookup_insert. case_decide; [|done]. subst q. rewrite Ht. simpl.
    by rewrite E1, E2, E3, E4.
  - done.
  - rewrite lookup_insert_eq. simpl. by rewrite E5.
  - done.
  - rewrite E3. by intros; rewrite decide_False.
  - rewrite E4. by intros; rewrite decide_False.
Qed.

Lemma kill_task_frame p c k :
  sched_inv k → (∃ t, TASKS k !! p = Some t ∧ state t ≠ Sleeping) →
  sched_inv (kill_task p c k) ∧ RUNQUEUE (kill_task p c k) = RUNQUEUE k ∧
  keeps k (kill_task p c k).
Proof.
  intros Hi (t & Ht & Hs). split; [by apply send_signal_inv|].
  unfold kill_task, send_signal. rewrite decide_False by lia. rewrite Ht.
  rewrite decide_False by done. split; [done|]. by apply with_task_keeps.
Qed.

(** The state in which [tick] runs. *)
Definition before_tick (h : AiHints) (p : Pid) (old_rsp : Z) (k : Kernel) : Kernel :=
  let k := set_uptime (add64 (UPTIME_MS k) 10) k in
  let k := if canary_mismatch p k then kill_task p 6 k else k in
  let k := save_outgoing p old_rsp k in
  boost_successors h p (apply_fingerprint h p k).

Lemma before_tick_inv h p rsp k :
  sched_inv k → current_pid (RUNQUEUE k) = Some p →
  sched_inv (before_tick h p rsp k) ∧ all_runnable (before_tick h p rsp k) ∧
  current_pid (RUNQUEUE (before_tick h p rsp k)) = Some p ∧
  saved_kernel_rsp <$> TASKS (before_tick h p rsp k) !! p = Some rsp ∧
  rq_pids (RUNQUEUE (before_tick h p rsp k)) ≡ₚ rq_pids (RUNQUEUE k).
Proof.
  intros Hi Hc. unfold before_tick. cbv zeta.
  set (k0 := set_uptime _ k).
  assert (Hi0 : sched_inv k0) by (by apply (same_tables_inv k)).
  set (k1 := if canary_mismatch p k0 then kill_task p 6 k0 else k0).
  assert (Hk1 : sched_inv k1 ∧ RUNQUEUE k1 = RUNQUEUE k).
  { unfold k1. destruct (canary_mismatch p k0); [|done].
    destruct (si_current _ Hi0 p Hc) as (t & Ht & Hs).
    destruct (kill_task_frame p 6 k0 Hi0) as (? & ? & _); [|done].
    exists t. split; [done|]. intros E. destruct Hs; congruence. }
  destruct Hk1 as [Hi1 Hq1]. clearbody k1. clear Hi0 k0.
  destruct (save_outgoing_inv p rsp k1 Hi1) as (Hi2 & Ha2 & Hr2); [by rewrite Hq1|].
  destruct (apply_fingerprint_inv h p _ Hi2 Ha2) as (Hi3 & Ha3 & Hk3 & Hq3).
  set (k3 := apply_fingerprint h p (save_outgoing p rsp k1)) in *.
  assert (HRQ : RUNQUEUE k3 = RUNQUEUE k) by (rewrite Hq3; exact Hq1).
  destruct (boost_successors_rq (reverse (h_successors h p)) (RUNQUEUE k3) (si_rq _ Hi3))
    as (Hw & Hp & Hcur).
  destruct (set_rq_perm k3 _ Hi3 Ha3 Hw Hp) as [Hi4 Ha4]. split_and!; [done..| | |].
  - simpl. by rewrite Hcur, HRQ.
  - simpl. specialize (Hk3 p). apply (f_equal (fmap (λ x, x.1.1.1))) in Hk3.
    rewrite <- !option_fmap_compose in Hk3. simpl in Hk3. unfold compose in Hk3. simpl in Hk3.
    fold k3 in Hk3. etrans; [exact Hk3|]. exact Hr2.
  - simpl. by rewrite Hp, HRQ.
Qed.

Lemma schedule_unfold h rsp k p :
  current_pid (RUNQUEUE k) = Some p →
  schedule_from_interrupt h rsp k =
    let kb := before_tick h p rsp k in
    let (o, rq) := tick (next_burst h kb) (RUNQUEUE kb) in
    match o with
    | None => (rsp, set_rq rq kb)
    | Some next => dispatch h next (UPTIME_MS k) rsp (prefetch h next (prewake (h_successors h next) (set_rq rq kb)))
    end.
Proof. intros Hc. unfold schedule_from_interrupt. cbv zeta. simpl. by rewrite Hc. Qed.

(** The two outcomes of a timer interrupt with a current task. *)
Lemma schedule_spec h rsp k p :
  sched_inv k → current_pid (RUNQUEUE k) = Some p →
  sched_inv (schedule_from_interrupt h rsp k).2 ∧
  (saved_kernel_rsp <$> TASKS (schedule_from_interrupt h rsp k).2 !! p) = Some rsp ∧
  ((schedule_from_interrupt h rsp k).1 = rsp ∧
     current_pid (RUNQUEUE (schedule_from_interrupt h rsp k).2) = Some p ∨
   ∃ q t, current_pid (RUNQUEUE (schedule_from_interrupt h rsp k).2) = Some q ∧
     TASKS (schedule_from_interrupt h rsp k).2 !! q = Some t ∧ state t = Running ∧
     (schedule_from_interrupt h rsp k).1 = saved_kernel_rsp t ∧
     cpu_cr3 (CPU (schedule_from_interrupt h rsp k).2) = cr3 t ∧
     (kernel_stack_top t ≠ 0 →
        cpu_rsp0 (CPU (schedule_from_interrupt h rsp k).2) = kernel_stack_top t) ∧
     (fs_base t ≠ 0 → cpu_fs (CPU (schedule_from_interrupt h rsp k).2) = fs_base t)).
Proof.
  intros Hi Hc. rewrite (schedule_unfold h rsp k p Hc). cbv zeta.
  destruct (before_tick_inv h p rsp k Hi Hc) as (Hib & Hab & Hcb & Hrb & _).
  set (kb := before_tick h p rsp k) in *. clearbody kb.
  destruct (tick (next_burst h kb) (RUNQUEUE kb)) as [o rq] eqn:Et.
  assert (Hrq : rq = (tick (next_burst h kb) (RUNQUEUE kb)).2) by (by rewrite Et).
  destruct (set_rq_perm kb rq Hib Hab) as [Hi1 Ha1].
  { rewrite Hrq. apply tick_wf, Hib. }
  { rewrite Hrq. apply tick_perm. }
  destruct o as [next|].
  - apply tick_current in Et.
    destruct (prewake_inv (h_successors h next) _ Hi1 Ha1) as (Hi2 & Ha2 & Hk2 & Hc2).
    destruct (prefetch_keeps h next _ _ Hi2 Ha2 Hk2 Hc2) as (Hi3 & Ha3 & Hk3 & Hc3).
    clear Hi2 Ha2 Hk2 Hc2. rename Hi3 into Hi2, Ha3 into Ha2, Hk3 into Hk2, Hc3 into Hc2.
    set (k2 := prefetch _ _ _) in *. clearbody k2. simpl in Hc2. rewrite Et in Hc2.
    destruct (dispatch_spec h next (UPTIME_MS k) rsp k2 Hi2 Ha2 Hc2) as
      (t & Ht & E1 & Hi3 & Hk3 & Hq3 & Hst & Hcr & Hr0 & Hfs).
    set (k3 := (dispatch h next (UPTIME_MS k) rsp k2).2) in *. clearbody k3.
    split_and!; [done| |right].
    + assert (Hkk : keeps kb k3) by (etrans; [|exact Hk3]; exact Hk2).
      specialize (Hkk p). apply (f_equal (fmap (λ x, x.1.1.1))) in Hkk.
      rewrite <- !option_fmap_compose in Hkk. unfold compose in Hkk. simpl in Hkk.
      etrans; [exact Hkk|exact Hrb].
    + destruct (TASKS k3 !! next) as [t3|] eqn:Ht3; [|done]. simpl in Hst. simplify_eq.
      pose proof (Hk3 next) as Hn. rewrite Ht3, Ht in Hn. simpl in Hn. injection Hn as N1 N2 N3 N4.
      exists next, t3. rewrite Hq3, N1, N2, N3, N4. split_and!; done.
  - split_and!; [done|done|left]. split; [done|]. by eapply tick_none.
Qed.

Lemma schedule_idle h rsp k :
  current_pid (RUNQUEUE k) = None →
  schedule_from_interrupt h rsp k = (rsp, set_uptime (add64 (UPTIME_MS k) 10) k).
Proof. intros Hc. unfold schedule_from_interrupt. cbv zeta. simpl. by rewrite Hc. Qed.

Lemma schedule_inv h rsp k : sched_inv k → sched_inv (schedule_from_interrupt h rsp k).2.
Proof.
  intros Hi. destruct (current_pid (RUNQUEUE k)) as [p|] eqn:Hc.
  - by apply (schedule_spec h rsp k p).
  - rewrite schedule_idle by done. by apply (same_tables_inv k).
Qed.

(** ** What a timer interrupt does to the run queue *)

Lemma prewake_queue ss : ∀ k, ∃ tail, RUNQUEUE (prewake ss k) =
  mkRQ (queue (RUNQUEUE k) ++ tail) (timeslice (RUNQUEUE k)) (ticks_left (RUNQUEUE k)) (current_pid (RUNQUEUE k)).
Proof.
  induction ss as [|s ss IH]; intros k.
  { exists []. rewrite app_nil_r. cbn [prewake]; by destruct (RUNQUEUE k) as [? ? ? ?]. }
  cbn [prewake]. cbv zeta. destruct (TASKS k !! s) as [t|]; [|apply IH]. case_decide; [|apply IH].
  edestruct IH as [tail E]. exists (s :: tail). etrans; [exact E|]. cbn [RUNQUEUE set_rq enqueue queue timeslice ticks_left current_pid].
  rewrite <- app_assoc. done.
Qed.

(** The successors of the running task move to the front, the queue ticks, and tasks
    that are woken join its end. *)
Lemma interrupt_queue h rsp k p :
  sched_inv k → current_pid (RUNQUEUE k) = Some p →
  ∃ qo tail, let rq := (tick qo (foldl (λ rq s, move_to_front s rq) (RUNQUEUE k) (reverse (h_successors h p)))).2 in
  RUNQUEUE (schedule_from_interrupt h rsp k).2 = mkRQ (queue rq ++ tail) (timeslice rq) (ticks_left rq) (current_pid rq).
Proof.
  intros Hi Hc. rewrite (schedule_unfold h rsp k p Hc). cbv zeta.
  assert (Hb : RUNQUEUE (before_tick h p rsp k) =
    foldl (λ rq s, move_to_front s rq) (RUNQUEUE k) (reverse (h_successors h p))).
  { unfold before_tick, boost_successors. cbv zeta. cbn [RUNQUEUE set_rq]. f_equal.
    unfold apply_fingerprint. set (k1 := if canary_mismatch p _ then _ else _).
    assert (Hq : RUNQUEUE k1 = RUNQUEUE k).
    { unfold k1. destruct (canary_mismatch p _); [|done]. destruct (si_current _ Hi p Hc) as (t & Ht & Hs).
      unfold kill_task, send_signal. rewrite decide_False by lia. cbn [TASKS set_uptime]. rewrite Ht.
      rewrite decide_False by (destruct Hs; congruence). done. }
    destruct (h_fingerprint h p); exact Hq. }
  destruct (before_tick_inv h p rsp k Hi Hc) as (Hib & Hab & _).
  set (kb := before_tick h p rsp k) in *. clearbody kb. rewrite <- Hb.
  destruct (tick (next_burst h kb) (RUNQUEUE kb)) as [o rq] eqn:Et. exists (next_burst h kb).
  rewrite Et. cbn [snd]. destruct o as [next|].
  - destruct (prewake_queue (h_successors h next) (set_rq rq kb)) as [tail E]. exists tail.
    assert (Hd : ∀ k0, RUNQUEUE (dispatch h next (UPTIME_MS k) rsp k0).2 = RUNQUEUE k0).
    { intros k0. unfold dispatch. by destruct (TASKS k0 !! next). }
    rewrite Hd. exact E.
  - exists []. rewrite app_nil_r. by destruct rq.
Qed.
