(* ===== verification/SchedulerProps.v ===== *)
(** What the scheduler promises, over any run of its operations; and where the
    run queue and the timer handler disagree. *)
From stdpp Require Import base numbers list gmap sets strings sorting relations.
From S2P Require Import Prelude Pmm PmmFacts PmmProps RunQueue Task Rlimit JobControl Scheduler SchedulerFacts.

(** ** Runs *)

(** Every way the kernel drives the scheduler after boot. *)
Inductive sched_step : Kernel → Kernel → Prop :=
| st_timer h rsp k : sched_step k (schedule_from_interrupt h rsp k).2
| st_sleep k : sched_step k (sleep_current k)
| st_wake p k : sched_step k (wake_pid p k)
| st_signal p s k : sched_step k (send_signal p s k)
| st_take p k : sched_step k (take_pending_signal p k).2
| st_consume p m k : sched_step k (consume_masked_signal p m k).2
| st_handler p s v k : sched_step k (set_signal_handler p s v k)
| st_setmask p m k : sched_step k (set_signal_mask p m k)
| st_mask p m k : sched_step k (mask_signals p m k)
| st_unmask p m k : sched_step k (unmask_signals p m k)
| st_spawn nm e k k' :
    NEXT_PID k + 1 < u64_modulus → spawn_kernel_thread nm e k = Ret k' → sched_step k k'
| st_fork vm p k o k' :
    NEXT_PID k + 1 < u64_modulus → fork_task vm p k = Ret (o, k') → sched_step k k'
| st_thread p s t b k o k' :
    NEXT_PID k + 1 < u64_modulus → spawn_user_thread p s t b k = Ret (o, k') → sched_step k k'
| st_exit vm c k : sched_step k (exit_current vm c k)
| st_exit_direct vm p c k : sched_step k (exit_current_direct vm p c k)
| st_reap p k : sched_step k (reap_zombie_child p k).2
| st_intent p i h k : sched_step k (set_intent p i h k)
| st_priority p d k : sched_step k (adjust_priority p d k)
| st_nice p n k : sched_step k (set_nice_override p n k)
| st_woke p w k : sched_step k (set_woke_by p w k)
| st_brk p b k : sched_step k (set_user_brk p b k)
| st_fsbase p b k : sched_step k (set_fs_base p b k)
| st_cr3 p c k : sched_step k (set_task_cr3 p c k)
| st_robust p h l k : sched_step k (set_robust_list p h l k)
| st_euid p e k : sched_step k (set_euid p e k)
| st_quantum ms k : sched_step k (set_quantum_ms ms k).

(** Proof of [sched_inv] for one operation: the lemma of that operation, or the
    general one for updates that keep a task's state. *)
Ltac step_inv :=
  lazymatch goal with
  | |- sched_inv (schedule_from_interrupt _ _ _).2 => by apply schedule_inv
  | |- sched_inv (sleep_current _) => by apply sleep_current_inv
  | |- sched_inv (wake_pid _ _) => by apply wake_pid_inv
  | |- sched_inv (send_signal _ _ _) => by apply send_signal_inv
  | |- sched_inv (take_pending_signal _ _).2 => by apply take_pending_signal_inv
  | |- sched_inv (consume_masked_signal _ _ _).2 => by apply consume_masked_signal_inv
  | |- sched_inv (exit_current _ _ _) => by apply exit_current_inv
  | |- sched_inv (exit_current_direct _ _ _ _) => by apply exit_current_direct_inv
  | |- sched_inv (reap_zombie_child _ _).2 => by apply reap_zombie_child_inv
  | H : spawn_kernel_thread _ _ _ = _ |- _ => by eapply spawn_kernel_thread_inv in H
  | H : fork_task _ _ _ = _ |- _ => by eapply fork_task_inv in H
  | H : spawn_user_thread _ _ _ _ _ = _ |- _ => by eapply spawn_user_thread_inv in H
  | |- sched_inv (set_signal_handler _ _ _ _) =>
      unfold set_signal_handler; case_decide; [by apply with_task_inv|done]
  | |- sched_inv (set_quantum_ms _ ?k) => by apply (same_tables_inv k)
  | |- _ => by apply with_task_inv
  end.

Lemma sched_step_inv k k' : sched_inv k → sched_step k k' → sched_inv k'.
Proof. intros Hi Hs. destruct Hs; step_inv. Qed.

Lemma sched_steps_inv k k' : sched_inv k → rtc sched_step k k' → sched_inv k'.
Proof. intros Hi Hs. induction Hs; eauto using sched_step_inv. Qed.

(** C5. Over any run of scheduler operations no task is queued twice, every queued
    task exists and is Runnable, the current task exists and is not asleep or
    dead, its tick budget is between 1 and 50, and PIDs stay unique. *)
Theorem scheduler_invariant k k' : sched_inv k → rtc sched_step k k' → sched_inv k'.
Proof. apply sched_steps_inv. Qed.

(** C6. A timer interrupt with a current task saves the interrupted stack pointer in
    that task, and either resumes it or resumes the task that became current,
    on the stack pointer that task had saved, with its page table, its kernel
    stack in TSS.RSP0 and its FS base loaded. *)
Theorem context_switch_correct h rsp k p :
  sched_inv k → current_pid (RUNQUEUE k) = Some p →
  (saved_kernel_rsp <$> TASKS (schedule_from_interrupt h rsp k).2 !! p) = Some rsp ∧
  ((schedule_from_interrupt h rsp k).1 = rsp ∧
     current_pid (RUNQUEUE (schedule_from_interrupt h rsp k).2) = Some p ∨
   ∃ q t, current_pid (RUNQUEUE (schedule_from_interrupt h rsp k).2) = Some q ∧
     TASKS (schedule_from_interrupt h rsp k).2 !! q = Some t ∧ state t = Running ∧
     (schedule_from_interrupt h rsp k).1 = saved_kernel_rsp t ∧
     cpu_cr3 (CPU (schedule_from_interrupt h rsp k).2) = cr3 t ∧
     (kernel_stack_top t ≠ 0 →
        cpu_rsp0 (CPU (schedule_from_interrupt h rsp k).2) = kernel_stack_top t) ∧
     (fs_base t ≠ 0 → cpu_fs (CPU (schedule_from_interrupt h rsp k).2) = fs_base t)).
Proof. intros Hi Hc. by apply schedule_spec. Qed.

(** ** After the current task sleeps *)

Lemma wake_pid_current p k : current_pid (RUNQUEUE (wake_pid p k)) = current_pid (RUNQUEUE k).
Proof.
  unfold wake_pid. destruct (TASKS k !! p); [|done]. by case_decide.
Qed.

Lemma send_signal_current p s k :
  current_pid (RUNQUEUE (send_signal p s k)) = current_pid (RUNQUEUE k).
Proof.
  unfold send_signal. case_decide; [done|]. destruct (TASKS k !! p); [|done].
  case_decide; [|done]. by rewrite wake_pid_current.
Qed.

Lemma notify_parent_current p k :
  current_pid (RUNQUEUE (notify_parent p k)) = current_pid (RUNQUEUE k).
Proof.
  unfold notify_parent. case_decide; [done|]. by rewrite send_signal_current, wake_pid_current.
Qed.

(** The run queue of a returned state. *)
Ltac ret_queue E k :=
  apply (f_equal (fun r => match r with Ret a => RUNQUEUE (snd a) | _ => RUNQUEUE k end)) in E;
  cbn in E; rewrite <- E; done.

Lemma no_current_step k k' :
  current_pid (RUNQUEUE k) = None → sched_step k k' → current_pid (RUNQUEUE k') = None.
Proof.
  intros Hc Hs. destruct Hs as [h rsp k| | | | | | | | | |nm e k k' _ E|vm p k o k' _ E|p s t b k o k' _ E
    |vm c k|vm p c k| | | | | | | | | | |]; try done.
  - by rewrite schedule_idle.
  - unfold sleep_current. by rewrite Hc.
  - by rewrite wake_pid_current.
  - by rewrite send_signal_current.
  - unfold take_pending_signal. destruct (TASKS k !! p); [|done]. cbv zeta. by case_decide.
  - unfold consume_masked_signal. destruct (TASKS k !! p); [|done]. cbv zeta. by case_decide.
  - unfold set_signal_handler. by case_decide.
  - unfold spawn_kernel_thread in E.
    destruct (alloc_frames 2 (PMM k)) as [[[sp|] pmm]| |]; try done. cbn [res_bind] in E.
    cbv zeta in E. cbn [alloc_pid] in E. destruct (new_kernel_thread _ _ _ _ _ _) as [tk mk].
    apply (f_equal (λ r, match r with Ret a => RUNQUEUE a | _ => RUNQUEUE k end)) in E. by rewrite <- E.
  - unfold fork_task in E. cbn [alloc_pid] in E. destruct (TASKS _ !! p); [|ret_queue E k].
    destruct (vm _ _) as [c0 pmm0]. cbv zeta in E.
    destruct (alloc_frames 2 _) as [[o1 pmm]| |]; try done. cbn [res_bind] in E. cbv zeta in E.
    destruct (clone_shallow _ _ _ _ _) as [[tk mk]|]; ret_queue E k.
  - unfold spawn_user_thread in E. cbn [alloc_pid] in E. destruct (TASKS _ !! p); [|ret_queue E k].
    destruct (alloc_frames 2 _) as [[o1 pmm]| |]; try done. cbn [res_bind] in E. cbv zeta in E.
    destruct (clone_shallow _ _ _ _ _) as [[tk mk]|]; ret_queue E k.
  - unfold exit_current. rewrite Hc. done.
  - unfold exit_current_direct. rewrite notify_parent_current. simpl.
    destruct (release_cow_tables vm p (make_zombie p c k)) as (_ & -> & _). simpl. rewrite Hc.
    by case_decide.
  - unfold reap_zombie_child. by destruct (list_find _ _) as [[? [? ?]]|].
Qed.

Lemma sleep_current_clears k p :
  current_pid (RUNQUEUE k) = Some p → current_pid (RUNQUEUE (sleep_current k)) = None.
Proof. intros Hc. unfold sleep_current. rewrite Hc. simpl. rewrite Hc. by rewrite decide_True. Qed.

Lemma exit_current_clears vm c k p :
  current_pid (RUNQUEUE k) = Some p → p ≠ 0 → current_pid (RUNQUEUE (exit_current vm c k)) = None.
Proof.
  intros Hc Hp. unfold exit_current. rewrite Hc. simpl default. rewrite decide_False by done.
  cbv zeta. rewrite notify_parent_current. simpl.
  destruct (release_cow_tables vm p (make_zombie p c k)) as (_ & -> & _). simpl.
  rewrite Hc. by rewrite decide_True.
Qed.

(** C7. Putting the current task to sleep, or the exit of a current task other than
    idle, stops scheduling for good: it leaves no current task, and from then on
    every timer interrupt resumes the interrupted context and only advances the
    clock, whatever tasks are woken, spawned or signalled in between. *)
Theorem sleep_stops_scheduling vm c k p k0 k' h rsp :
  current_pid (RUNQUEUE k) = Some p →
  k0 = sleep_current k ∨ (p ≠ 0 ∧ k0 = exit_current vm c k) →
  rtc sched_step k0 k' →
  current_pid (RUNQUEUE k') = None ∧
  schedule_from_interrupt h rsp k' = (rsp, set_uptime (add64 (UPTIME_MS k') 10) k').
Proof.
  intros Hc H0 Hs. assert (Hn : current_pid (RUNQUEUE k') = None).
  { assert (H1 : current_pid (RUNQUEUE k0) = None).
    { destruct H0 as [->|[Hp ->]]; eauto using sleep_current_clears, exit_current_clears. }
    clear H0. induction Hs; eauto using no_current_step. }
  split; [done|]. by apply schedule_idle.
Qed.

(** ** Signals *)

Lemma trailing_zeros_spec x :
  is_u64 x → x ≠ 0 →
  0 ≤ trailing_zeros x < 64 ∧ Z.testbit x (trailing_zeros x) = true ∧
  ∀ i, 0 ≤ i < trailing_zeros x → Z.testbit x i = false.
Proof.
  intros Hx Hnz. unfold trailing_zeros. destruct (list_find _ _) as [[pos i]|] eqn:E.
  - apply list_find_Some in E as (Hl & Hb & Hlow). apply lookup_seq in Hl as [-> Hlt].
    split_and!; [lia..|done|]. intros j Hj. specialize (Hlow (Z.to_nat j) (Z.to_nat j)).
    rewrite Z2Nat.id in Hlow by lia. destruct (Z.testbit x j); [|done].
    exfalso. apply Hlow; [apply lookup_seq; lia|lia|done].
  - exfalso. apply list_find_None in E. destruct (u64_nonzero_bit x Hx Hnz) as (n & Hn & Hb).
    rewrite Forall_forall in E. apply (E n); [apply elem_of_seq; lia|done].
Qed.

Lemma bit_spec s n : 0 ≤ s → 0 ≤ n → Z.testbit (bit s) n = bool_decide (n = s).
Proof.
  intros Hs Hn. unfold bit. rewrite Z.shiftl_1_l, Z.pow2_bits_eqb by done.
  destruct (Z.eqb_spec s n) as [->|]; case_bool_decide; congruence.
Qed.

Lemma wake_pid_lookup p k q :
  (λ t, (pending_signals t, signal_mask t, signal_handlers t)) <$> TASKS (wake_pid p k) !! q =
  (λ t, (pending_signals t, signal_mask t, signal_handlers t)) <$> TASKS k !! q.
Proof.
  unfold wake_pid. destruct (TASKS k !! p); [|done]. case_decide; [|done]. cbv zeta.
  simpl. rewrite lookup_alter_at. case_decide; [|done]. by destruct (TASKS k !! q).
Qed.

Lemma send_signal_lookup p s k t :
  0 ≤ s < 64 → TASKS k !! p = Some t →
  ∃ t', TASKS (send_signal p s k) !! p = Some t' ∧
    pending_signals t' = Z.lor (pending_signals t) (bit s) ∧
    signal_mask t' = signal_mask t ∧ signal_handlers t' = signal_handlers t.
Proof.
  intros Hs Ht. unfold send_signal. rewrite decide_False by lia. rewrite Ht. cbv zeta.
  set (k1 := with_task p _ k).
  assert (H1 : (λ t, (pending_signals t, signal_mask t, signal_handlers t)) <$> TASKS k1 !! p =
    Some (Z.lor (pending_signals t) (bit s), signal_mask t, signal_handlers t)).
  { unfold k1. by rewrite lookup_with_task, decide_True, Ht by done. }
  set (k2 := if decide _ then _ else _).
  assert (H2 : (λ t, (pending_signals t, signal_mask t, signal_handlers t)) <$> TASKS k2 !! p =
    Some (Z.lor (pending_signals t) (bit s), signal_mask t, signal_handlers t)).
  { unfold k2. case_decide; [by rewrite wake_pid_lookup|done]. }
  destruct (TASKS k2 !! p) as [t'|]; [|done]. simpl in H2. exists t'. by simplify_eq.
Qed.

(** Sending an unmasked signal makes a signal deliverable at once: taking one
    returns the lowest pending unmasked signal with its handler, and clears that
    one bit and no other. *)
Theorem signal_delivery p s k t :
  TASKS k !! p = Some t → is_u64 (pending_signals t) → is_u64 (signal_mask t) →
  0 ≤ s < 64 → Z.testbit (signal_mask t) s = false →
  ∃ n k2, take_pending_signal p (send_signal p s k) =
      (Some (n, signal_handlers t !!! Z.to_nat n), k2) ∧
    0 ≤ n ≤ s ∧ Z.testbit (signal_mask t) n = false ∧
    (n = s ∨ Z.testbit (pending_signals t) n = true) ∧
    (∀ i, 0 ≤ i < n → Z.testbit (signal_mask t) i = false → Z.testbit (pending_signals t) i = false) ∧
    ∃ t2, TASKS k2 !! p = Some t2 ∧
      ∀ i, 0 ≤ i < 64 → Z.testbit (pending_signals t2) i =
        bool_decide (i ≠ n) && (bool_decide (i = s) || Z.testbit (pending_signals t) i).
Proof.
  intros Ht Hp Hm Hs Hms.
  destruct (send_signal_lookup p s k t Hs Ht) as (t1 & Ht1 & E1 & E2 & E3).
  unfold take_pending_signal. rewrite Ht1, E1, E2, E3. cbv zeta.
  set (d := Z.land (Z.lor (pending_signals t) (bit s)) (not64 (signal_mask t))).
  assert (Hd : ∀ i, 0 ≤ i < 64 → Z.testbit d i =
    (Z.testbit (pending_signals t) i || bool_decide (i = s)) && negb (Z.testbit (signal_mask t) i)).
  { intros i Hi. unfold d. rewrite Z.land_spec, Z.lor_spec, bit_spec, not64_spec by lia.
    by rewrite decide_True by lia. }
  assert (Hds : Z.testbit d s = true).
  { rewrite Hd by done. rewrite Hms. case_bool_decide; [|done]. by rewrite orb_true_r. }
  assert (Hnz : d ≠ 0) by (intros E; rewrite E, Z.bits_0 in Hds; done).
  assert (Hdu : is_u64 d).
  { unfold is_u64. assert (0 ≤ d) by (unfold d; apply Z.land_nonneg; left; apply Z.lor_nonneg;
      split; [unfold is_u64 in Hp; lia|unfold bit; apply Z.shiftl_nonneg; lia]).
    split; [done|]. destruct (decide (d = 0)); [lia|].
    replace u64_modulus with (2 ^ 64) by done. apply Z.log2_lt_pow2; [lia|].
    destruct (decide (Z.log2 d < 64)); [done|]. exfalso.
    assert (Hb : Z.testbit d (Z.log2 d) = true) by (apply Z.bit_log2; lia).
    unfold d in Hb at 1. rewrite Z.land_spec, Z.lor_spec in Hb.
    rewrite (u64_bits_high (pending_signals t)) in Hb by (done || lia).
    rewrite bit_spec in Hb by lia. rewrite bool_decide_eq_false_2 in Hb by lia. done. }
  rewrite decide_False by done.
  destruct (trailing_zeros_spec d Hdu Hnz) as (Hn & Hb & Hlow).
  set (n := trailing_zeros d) in *. eexists n, _. split; [done|].
  rewrite Hd in Hb by lia. apply andb_true_iff in Hb as [Hb1 Hb2]. apply negb_true_iff in Hb2.
  split_and!; [lia| |done| | |].
  - destruct (decide (n ≤ s)); [done|]. exfalso. specialize (Hlow s ltac:(lia)). congruence.
  - apply orb_true_iff in Hb1 as [Hb1|Hb1]; [by right|left]. by case_bool_decide.
  - intros i Hi Hmi. specialize (Hlow i Hi). rewrite Hd in Hlow by lia. rewrite Hmi in Hlow.
    destruct (Z.testbit (pending_signals t) i); done.
  - rewrite lookup_with_task, decide_True by done. rewrite Ht1. simpl. eexists. split; [done|].
    intros i Hi. simpl. rewrite E1, Z.land_spec, Z.lor_spec, not64_spec, !bit_spec by lia.
    rewrite decide_True by lia. rewrite (orb_comm (bool_decide _)), andb_comm. f_equal.
    by repeat case_bool_decide.
Qed.

(** SIGKILL can be masked: the force-kill of a task that blocks signal 9 and has
    nothing else pending delivers nothing. *)
Theorem sigkill_maskable p c k t :
  TASKS k !! p = Some t → pending_signals t = 0 → is_u64 (signal_mask t) →
  Z.testbit (signal_mask t) 9 = true →
  (take_pending_signal p (kill_task p c k)).1 = None.
Proof.
  intros Ht Hp Hm H9. unfold kill_task.
  destruct (send_signal_lookup p 9 k t) as (t1 & Ht1 & E1 & E2 & _); [lia|done|].
  unfold take_pending_signal. rewrite Ht1. cbv zeta. rewrite E1, E2, Hp, Z.lor_0_l.
  rewrite decide_True; [done|]. apply Z.bits_inj'. intros i Hi.
  rewrite Z.land_spec, Z.bits_0, bit_spec, not64_spec by lia.
  case_bool_decide; [subst; rewrite decide_True by lia; by rewrite H9|done].
Qed.

(** ** Priorities *)

(** Adjusting priorities and declaring intents keeps every priority within the
    nice range [-20, 20], whatever the delta or intent byte. *)
Theorem priority_bounds p q d i hint k :
  (∀ r t, TASKS k !! r = Some t → -20 ≤ priority t ≤ 20) →
  ∀ r t, TASKS (set_intent p i hint (adjust_priority q d k)) !! r = Some t →
    -20 ≤ priority t ≤ 20.
Proof.
  intros Hk r t. unfold set_intent, adjust_priority. rewrite !lookup_with_task.
  assert (Hadj : ∀ t0, (if decide (q = r) then (λ t, set_priority (clamp20 (priority t + d)) t) <$>
    TASKS k !! r else TASKS k !! r) = Some t0 → -20 ≤ priority t0 ≤ 20).
  { intros t0. case_decide; [|by apply Hk]. intros E. apply fmap_Some in E as (t1 & _ & ->).
    simpl. unfold clamp20. lia. }
  destruct (decide (p = r)); [|apply Hadj]. intros E. apply fmap_Some in E as (t1 & E & ->).
  apply Hadj in E. simpl. repeat case_decide; lia.
Qed.

(** ** Fork *)

(** A forked child gets the next PID, is appended to the run queue as a Runnable
    child of its parent with no pending signals and the address space built for it, and
    resumes from a copy of the parent's saved frame in which RAX is 0, while the
    parent's own frame is untouched, provided that frame is not free memory. *)
Theorem fork_child vm parent c pmm0 k child k' pt fl :
  sched_inv k → vm (cr3 pt) (PMM k) = (c, pmm0) → rep pmm0 fl → NEXT_PID k + 1 < u64_modulus →
  fork_task vm parent k = Ret (Some child, k') → TASKS k !! parent = Some pt →
  (∀ (i : nat) pg, (i < FRAME_WORDS)%nat → pg ∈ all_pages fl →
     ¬ (phys_offset pmm0 + pg ≤ saved_kernel_rsp pt + 8 * Z.of_nat i
        < phys_offset pmm0 + pg + PAGE_SIZE)) →
  child = NEXT_PID k ∧ queue (RUNQUEUE k') = queue (RUNQUEUE k) ++ [child] ∧
  ∃ t, TASKS k' !! child = Some t ∧ state t = Runnable ∧ parent_pid t = parent ∧
    pending_signals t = 0 ∧ cr3 t = c ∧
    frame_at (KMEM k') (saved_kernel_rsp t) =
      <[14%nat := 0]> (frame_at (KMEM k) (saved_kernel_rsp pt)) ∧
    frame_at (KMEM k') (saved_kernel_rsp pt) = frame_at (KMEM k) (saved_kernel_rsp pt).
Proof.
  intros Hi Hvm Hr Hb E Hpt Hfree. unfold fork_task in E. cbn [alloc_pid] in E.
  change (TASKS (set_next_pid _ k) !! parent) with (TASKS k !! parent) in E. rewrite Hpt in E.
  change (PMM (set_next_pid _ k)) with (PMM k) in E. rewrite Hvm in E. cbv zeta in E.
  simpl PMM in E.
  destruct (alloc_order_spec pmm0 fl 2 Hr) as
    [[Ea _]|(sp & pmm & fl' & Ea & _ & [Hok _] & Hp & Hoff & _)]; [unfold MAX_ORDER; lia| |];
    unfold alloc_frames in E; rewrite Ea in E; cbn [res_bind] in E; cbv zeta in E; [done|].
  change (KMEM (set_pmm pmm _)) with (KMEM k) in E.
  destruct (clone_shallow pt (NEXT_PID k) (Some sp) (phys_offset pmm) (KMEM k)) as [[t m]|] eqn:Ec;
    [|done].
  pose proof (f_equal (fun r => match r with Ret a => a | _ => (None, k) end) E) as E'.
  cbv beta iota in E'. apply pair_equal_spec in E' as [Ech Ek]. clear E.
  apply (inj Some) in Ech as <-. subst k'.
  destruct (clone_shallow_pid _ _ _ _ _ _ _ Ec) as (_ & Hst & Hpar & _ & Hpend).
  rewrite (proj1 (si_pids _ Hi _ _ Hpt)) in Hpar. rewrite Hoff in Ec.
  destruct Hok as (Hsp & _ & Hend). change (block_size 2) with 16384 in Hend.
  rewrite Hoff in Hend. pose proof (rep_off _ _ Hr) as Ho.
  destruct (clone_frame pt (NEXT_PID k) sp (phys_offset pmm0) (KMEM k) t m Ec) as [F1 F2];
    [lia|lia|lia| |].
  { intros i j Hi' Hj E. apply (Hfree i (sp + PAGE_SIZE * 3)); [done| |].
    - rewrite Hp. apply elem_of_app. left. apply elem_of_block_pages. exists 3. lia.
    - rewrite E, (clone_frame_base _ _ _ _ _ _ _ Ec) by lia.
      unfold FRAME_WORDS, PAGE_SIZE in *. lia. }
  split; [done|]. split; [done|]. exists (set_cr3 c t). cbn [TASKS set_rq set_tasks].
  rewrite lookup_insert_eq. split_and!; done.
Qed.

(** Resource limits do not survive [fork]: the child has no entry in the table
    and so reads as unlimited for every resource, whatever its parent's limits
    (a thread made by [spawn_user_thread] does inherit them). *)
Theorem fork_drops_limits vm parent k child k' :
  fork_task vm parent k = Ret (Some child, k') → RLIMITS k !! child = None →
  (∀ r, get_limit child r (RLIMITS k') = unlimited) ∧
  (∀ s tls b th k2, spawn_user_thread parent s tls b k = Ret (Some th, k2) →
     is_Some (RLIMITS k !! parent) → ∀ r, get_limit th r (RLIMITS k2) = get_limit parent r (RLIMITS k)).
Proof.
  intros E Hn. split.
  - intros r. assert (Hl : RLIMITS k' = RLIMITS k).
    { unfold fork_task in E. cbn [alloc_pid] in E. destruct (TASKS _ !! parent) as [pt|]; [|done].
      destruct (vm _ _) as [c0 pmm0]. cbv zeta in E.
      destruct (alloc_frames 2 _) as [[o pmm]| |]; try done. cbn [res_bind] in E. cbv zeta in E.
      destruct (clone_shallow _ _ _ _ _) as [[tk mk]|]; [|done].
      by apply (f_equal (fun r => match r with Ret a => RLIMITS a.2 | _ => RLIMITS k end)) in E. }
    unfold get_limit. rewrite Hl, Hn. by case_decide.
  - intros s tls b th k2 E2 [l Hl] r. unfold spawn_user_thread in E2. cbn [alloc_pid] in E2.
    destruct (TASKS _ !! parent) as [pt|]; [|done].
    destruct (alloc_frames 2 _) as [[o pmm]| |]; try done. cbn [res_bind] in E2. cbv zeta in E2.
    destruct (clone_shallow _ _ _ _ _) as [[tk mk]|]; [|done].
    apply (f_equal (fun r => match r with Ret a => (a.1, RLIMITS a.2) | _ => (None, RLIMITS k) end)) in E2.
    cbn in E2. apply pair_equal_spec in E2 as [Eth <-]. simplify_eq.
    unfold get_limit, init_pid. cbn. rewrite Hl. cbn. by rewrite lookup_insert_eq.
Qed.

(** ** Exit and wait *)

(** What waking and signalling the parent leaves alone. *)
Lemma notify_parent_lookup pp k q :
  (λ t, (parent_pid t, exit_code t, bool_decide (state t = Zombie))) <$>
    TASKS (notify_parent pp k) !! q =
  (λ t, (parent_pid t, exit_code t, bool_decide (state t = Zombie))) <$> TASKS k !! q.
Proof.
  assert (Hw : ∀ k0, (λ t, (parent_pid t, exit_code t, bool_decide (state t = Zombie))) <$>
    TASKS (wake_pid pp k0) !! q =
    (λ t, (parent_pid t, exit_code t, bool_decide (state t = Zombie))) <$> TASKS k0 !! q).
  { intros k0. unfold wake_pid. destruct (TASKS k0 !! pp) as [t|] eqn:Et; [|done].
    case_decide as Hs; [|done]. cbv zeta. simpl. rewrite lookup_alter_at.
    case_decide; [|done]. subst q. rewrite Et. simpl. by rewrite Hs. }
  unfold notify_parent. case_decide; [done|]. rewrite <- (Hw k). set (k1 := wake_pid pp k).
  unfold send_signal. case_decide; [done|]. destruct (TASKS k1 !! pp) as [t|] eqn:Et; [|done].
  cbv zeta. set (k2 := with_task pp _ k1).
  assert (H2 : (λ t, (parent_pid t, exit_code t, bool_decide (state t = Zombie))) <$> TASKS k2 !! q =
    (λ t, (parent_pid t, exit_code t, bool_decide (state t = Zombie))) <$> TASKS k1 !! q).
  { unfold k2. rewrite lookup_with_task. case_decide; [|done]. by destruct (TASKS k1 !! q). }
  case_decide; [by rewrite Hw|done].
Qed.

(** The exit status reaches the waiting parent: after the current task exits,
    its parent, having no other dead child, reaps exactly that task with exactly
    that code, and the task is gone. *)
Theorem exit_then_reap vm k p t c :
  current_pid (RUNQUEUE k) = Some p → p ≠ 0 → TASKS k !! p = Some t → parent_pid t ≠ 0 →
  (∀ q tq, TASKS k !! q = Some tq → parent_pid tq = parent_pid t → state tq ≠ Zombie) →
  ∃ k', reap_zombie_child (parent_pid t) (exit_current vm c k) = (Some (p, c), k') ∧
    TASKS k' !! p = None.
Proof.
  intros Hc Hp0 Ht Hpp Hno. unfold exit_current. rewrite Hc. simpl default.
  rewrite decide_False by done. unfold parent_of. rewrite Ht. simpl default.
  set (k1 := cleanup_task p (release_cow vm p (make_zombie p c k))).
  assert (Hk1 : TASKS k1 = alter (λ t, set_exit_code (Some c) (set_state Zombie t)) p (TASKS k))
    by apply (release_cow_tables vm p (make_zombie p c k)).
  clearbody k1. set (k2 := notify_parent (parent_pid t) k1).
  assert (Hlk : ∀ q tq, TASKS k2 !! q = Some tq → parent_pid tq = parent_pid t → state tq = Zombie →
            q = p ∧ exit_code tq = Some c).
  { intros q tq Hq Hpar Hz. pose proof (notify_parent_lookup (parent_pid t) k1 q) as Hn.
    fold k2 in Hn. rewrite Hq in Hn. simpl in Hn.
    rewrite Hk1 in Hn. rewrite lookup_alter_at in Hn. case_decide as E.
    - subst q. rewrite Ht in Hn. simpl in Hn. by simplify_eq.
    - destruct (TASKS k !! q) as [t0|] eqn:E0; [|done]. simpl in Hn. simplify_eq.
      exfalso. apply (Hno q t0 E0); [congruence|].
      rewrite (bool_decide_eq_true_2 _ Hz) in *. by case_bool_decide. }
  destruct (list_find (λ e : Pid * Task, parent_pid e.2 = parent_pid t ∧ state e.2 = Zombie)
    (btree_list (≤) (TASKS k2))) as [[i [c' t']]|] eqn:E.
  - pose proof (reap_find _ _ _ _ _ E) as (H1 & H2 & H3).
    destruct (Hlk c' t' H1 H2 H3) as [-> Hcode]. unfold reap_zombie_child. rewrite E, Hcode.
    simpl. eexists. split; [done|]. simpl. apply lookup_delete_eq.
  - exfalso. apply list_find_None in E. rewrite Forall_forall in E.
    pose proof (notify_parent_lookup (parent_pid t) k1 p) as Hn. fold k2 in Hn.
    rewrite Hk1 in Hn. rewrite lookup_alter_eq, Ht in Hn. simpl in Hn.
    destruct (TASKS k2 !! p) as [t2|] eqn:E2; [|done]. simpl in Hn. simplify_eq.
    apply (E (p, t2)); [by apply elem_of_btree_list|]. simpl. split; [congruence|].
    by case_bool_decide.
Qed.

(** ** Waiting *)

(** A run of timer interrupts, each with the predictions it reads and the stack pointer
    it interrupts. *)
Fixpoint interrupts (hs : list (AiHints * Z)) (k : Kernel) : Kernel :=
  match hs with
  | [] => k
  | (h, rsp) :: hs' => interrupts hs' (schedule_from_interrupt h rsp k).2
  end.
(** The tasks the causal graph moves to the front at an interrupt. *)
Definition successors_now (h : AiHints) (k : Kernel) : list Pid :=
  match current_pid (RUNQUEUE k) with Some p => h_successors h p | None => [] end.
(** How often [p] is overtaken. *)
Fixpoint boosts (p : Pid) (hs : list (AiHints * Z)) (k : Kernel) : nat :=
  match hs with
  | [] => 0
  | (h, rsp) :: hs' =>
      overtaking p (reverse (successors_now h k)) (RUNQUEUE k) + boosts p hs' (schedule_from_interrupt h rsp k).2
  end.

Lemma waiting_bound hs : ∀ k c p n,
  sched_inv k → current_pid (RUNQUEUE k) = Some c → queue (RUNQUEUE k) !! n = Some p →
  ticks_left (RUNQUEUE k) + 50 * Z.of_nat (n + boosts p hs k) ≤ Z.of_nat (length hs) →
  ∃ i, (i ≤ length hs)%nat ∧ current_pid (RUNQUEUE (interrupts (take i hs) k)) = Some p.
Proof.
  induction hs as [|[h rsp] hs IH]; intros k c p n Hi Hc Hn Hb; cbn [boosts length] in Hb.
  { pose proof (rq_ticks _ (si_rq _ Hi)). lia. }
  pose proof (schedule_inv h rsp k Hi) as Hi'. destruct (interrupt_queue h rsp k c Hi Hc) as (qo & tail & E). cbv zeta in E.
  set (k' := (schedule_from_interrupt h rsp k).2) in *. unfold successors_now in Hb. rewrite Hc in Hb.
  set (ss := h_successors h c) in *.
  destruct (move_all_place (reverse ss) (RUNQUEUE k) p n Hn) as (n1 & Hn1 & E1).
  destruct (boost_successors_rq (reverse ss) (RUNQUEUE k) (si_rq _ Hi)) as (Hw & _ & Hcur).
  set (rq1 := foldl _ (RUNQUEUE k) (reverse ss)) in *.
  assert (Ht : ticks_left rq1 = ticks_left (RUNQUEUE k)).
  { unfold rq1. clear. generalize (RUNQUEUE k) as rq. induction (reverse ss) as [|s l IHl]; intros rq; [done|]. cbn [foldl].
    rewrite IHl. apply move_to_front_slices. }
  clearbody rq1. pose proof (rq_ticks _ Hw) as Hr. destruct (decide (1 < ticks_left rq1)) as [Hgt|Hle].
  - rewrite tick_mid in E by lia. cbn [snd queue timeslice ticks_left current_pid] in E.
    destruct (IH k' c p n1 Hi') as (i & Hil & Ei).
    + by rewrite E, <- Hc.
    + rewrite E. cbn [queue]. by apply lookup_app_l_Some.
    + rewrite E. cbn [ticks_left]. lia.
    + exists (S i). split; [cbn; lia|]. exact Ei.
  - rewrite tick_last in E by lia. destruct (queue rq1) as [|x q] eqn:Hq; [done|]. rewrite schedule_next_head in E.
    cbn [snd queue timeslice ticks_left current_pid] in E. destruct n1 as [|n1].
    + cbn in E1. exists 1%nat. split; [cbn; lia|]. cbn [take interrupts]. fold k'. rewrite take_0. cbn [interrupts]. rewrite E. done.
    + destruct (IH k' x p n1 Hi') as (i & Hil & Ei).
      * by rewrite E.
      * rewrite E. cbn [queue]. rewrite <- app_assoc. by apply lookup_app_l_Some.
      * pose proof (rq_ticks _ (si_rq _ Hi')) as Hr'. lia.
      * exists (S i). split; [cbn; lia|]. exact Ei.
Qed.

(** C38. Bounded waiting. Whatever quanta and successors are predicted, a task at position
    [n] of the run queue becomes the current one within [50 * (n + 1 + b)] timer
    interrupts, where [b] counts how often in that time a causal successor is moved to
    the front from a place behind it; with no such moves the bound is that of round
    robin. *)
Theorem round_robin_bound hs k c p n :
  sched_inv k → current_pid (RUNQUEUE k) = Some c → queue (RUNQUEUE k) !! n = Some p →
  50 * (Z.of_nat n + 1 + Z.of_nat (boosts p hs k)) ≤ Z.of_nat (length hs) →
  ∃ i, (i ≤ length hs)%nat ∧ current_pid (RUNQUEUE (interrupts (take i hs) k)) = Some p.
Proof.
  intros Hi Hc Hn Hb. apply (waiting_bound hs k c p n); [done..|].
  pose proof (rq_ticks _ (si_rq _ Hi)). lia.
Qed.

(** Without a bound on the moves there is none on the waiting: two tasks predicted to
    wake each other keep the CPU for ever. *)
Lemma successors_starve a b hs : ∀ k c,
  Forall (λ x, h_successors x.1 a = [b] ∧ h_successors x.1 b = [a]) hs → a ≠ b →
  sched_inv k → current_pid (RUNQUEUE k) = Some c →
  (c = a ∧ b ∈ queue (RUNQUEUE k)) ∨ (c = b ∧ a ∈ queue (RUNQUEUE k)) →
  current_pid (RUNQUEUE (interrupts hs k)) = Some a ∨ current_pid (RUNQUEUE (interrupts hs k)) = Some b.
Proof.
  induction hs as [|[h rsp] hs IH]; intros k c Hs Hab Hi Hc Hq.
  { cbn [interrupts]. rewrite Hc. destruct Hq as [[-> _]|[-> _]]; [by left|by right]. }
  apply Forall_cons in Hs as [[Ha Hb] Hs]. cbn [fst] in *. cbn [interrupts].
  assert (Hd : ∃ d, h_successors h c = [d] ∧ d ∈ queue (RUNQUEUE k) ∧ ((c = a ∧ d = b) ∨ (c = b ∧ d = a))).
  { destruct Hq as [[-> H]|[-> H]]; [exists b|exists a]; auto. }
  destruct Hd as (d & Hd & Hin & Hcd). clear Hq. pose proof (schedule_inv h rsp k Hi) as Hi'.
  destruct (interrupt_queue h rsp k c Hi Hc) as (qo & tail & E). rewrite Hd in E. cbn [reverse rev_append foldl] in E.
  change (reverse [d]) with [d] in E. cbn [foldl] in E.
  pose proof (move_to_front_wf d _ (si_rq _ Hi)) as Hw.
  destruct (move_to_front_spec d (RUNQUEUE k)) as [(_ & q & Em & _)|[H _]]; [|done]. rewrite Em in E, Hw.
  set (k' := (schedule_from_interrupt h rsp k).2) in *. pose proof (rq_ticks _ Hw) as Hr. cbn [ticks_left] in Hr.
  destruct (decide (1 < ticks_left (RUNQUEUE k))).
  - rewrite tick_mid in E by done. cbn [snd queue timeslice ticks_left current_pid] in E.
    apply (IH k' c); [done..|by rewrite E|]. rewrite E. cbn [queue app].
    destruct Hcd as [[-> ->]|[-> ->]]; [left|right]; (split; [done|by left]).
  - rewrite tick_last in E by (cbn; lia). cbn [queue timeslice current_pid] in E. rewrite schedule_next_head in E.
    cbn [snd queue timeslice ticks_left current_pid] in E.
    apply (IH k' d); [done..|by rewrite E|]. rewrite E, Hc. cbn [queue option_list].
    assert (Hcin : c ∈ (q ++ [c]) ++ tail) by (rewrite !elem_of_app; left; right; by apply list_elem_of_singleton).
    destruct Hcd as [[-> ->]|[-> ->]]; [right|left]; (split; [done|exact Hcin]).
Qed.

(** ** Concrete instances *)

(** Boot: no tasks, eight 4 KiB pages of memory, then the idle task. *)
Definition demo_boot : Kernel :=
  mkK ∅ 1 0 0 new_runqueue ∅ no_jobs small_pmm ∅ (mkCpu 4096 0 0 None).
Definition demo_idle : Kernel := register_idle_task demo_boot.
Definition demo_task (p parent : Pid) (st : TaskState) : Task :=
  set_parent parent (set_state st (new_idle p 4096)).
(** Task 2 runs, its parent 1 sleeps. *)
Definition demo_family : Kernel :=
  set_rq (mkRQ [0] DEFAULT_TIMESLICE 5 (Some 2))
    (set_next_pid 3 (set_tasks {[ 0 := demo_task 0 0 Runnable; 1 := demo_task 1 0 Sleeping;
                                 2 := demo_task 2 1 Running ]} demo_boot)).

Lemma demo_boot_inv : sched_inv demo_boot.
Proof.
  split; simpl; try done.
  - split; simpl; try done. constructor.
  - intros p Hp. by apply elem_of_nil in Hp.
Qed.

Lemma demo_idle_inv : sched_inv demo_idle.
Proof. apply register_idle_task_inv; [exact demo_boot_inv|done..]. Qed.

Lemma scheduler_invariant_witness : sched_inv (sleep_current (send_signal 0 9 demo_idle)).
Proof.
  apply (scheduler_invariant demo_idle); [exact demo_idle_inv|].
  eapply rtc_l; [apply st_signal|]. apply rtc_once, st_sleep.
Defined.

Definition demo_hints : AiHints := mkHints (λ _, None) (λ _, []) (λ _ _, 5) (λ _, 0) (λ _, id).
Lemma demo_family_inv : sched_inv demo_family.
Proof.
  assert (Ht : ∀ p t, TASKS demo_family !! p = Some t →
    (p = 0 ∧ t = demo_task 0 0 Runnable) ∨ (p = 1 ∧ t = demo_task 1 0 Sleeping) ∨
    (p = 2 ∧ t = demo_task 2 1 Running)).
  { intros p t. unfold demo_family. simpl. rewrite !lookup_insert, lookup_singleton.
    repeat case_decide; intros [= <-]; subst; auto. }
  split; simpl.
  - split; simpl; [|done|done]. unfold rq_pids. simpl. by apply (bool_decide_unpack _).
  - intros p Hp. apply list_elem_of_singleton in Hp as ->. eexists. split; [by vm_compute|done].
  - intros p [= <-]. eexists. split; [by vm_compute|by right].
  - intros p t E. apply Ht in E as [[-> ->]|[[-> ->]|[-> ->]]]; (split; [done|]); lia.
  - done.
Qed.

Lemma context_switch_correct_witness :
  let '(r, k') := schedule_from_interrupt demo_hints 5000 demo_family in
  (saved_kernel_rsp <$> TASKS k' !! 2) = Some 5000.
Proof.
  pose proof (context_switch_correct demo_hints 5000 demo_family 2 demo_family_inv eq_refl) as [H _].
  destruct (schedule_from_interrupt demo_hints 5000 demo_family) as [r k']. exact H.
Defined.

Lemma sleep_stops_scheduling_witness :
  current_pid (RUNQUEUE (wake_pid 2 (sleep_current demo_family))) = None ∧
  schedule_from_interrupt demo_hints 5000 (wake_pid 2 (sleep_current demo_family)) =
    (5000, set_uptime 10 (wake_pid 2 (sleep_current demo_family))).
Proof.
  apply (sleep_stops_scheduling (λ _, id) 0 demo_family 2 (sleep_current demo_family)); [done|by left|].
  apply rtc_once, st_wake.
Defined.

Lemma signal_delivery_witness :
  ∃ n k2, take_pending_signal 1 (send_signal 1 15 demo_family) = (Some (n, 0), k2) ∧ 0 ≤ n ≤ 15.
Proof.
  destruct (signal_delivery 1 15 demo_family (demo_task 1 0 Sleeping)) as (n & k2 & E & Hn & _);
    [by vm_compute|by vm_compute|by vm_compute|lia|done|].
  exists n, k2. split; [|exact Hn]. rewrite E. f_equal. f_equal. f_equal.
  change (signal_handlers _) with (replicate 64 0). rewrite list_lookup_total_alt.
  rewrite lookup_replicate_2 by lia. done.
Defined.

Lemma sigkill_maskable_witness :
  (take_pending_signal 1 (kill_task 1 (-1) (set_signal_mask 1 512 demo_family))).1 = None.
Proof.
  apply (sigkill_maskable 1 (-1) _ (set_mask 512 (demo_task 1 0 Sleeping))); by vm_compute.
Defined.

Lemma priority_bounds_witness :
  ∃ t, TASKS (set_intent 1 4 7 (adjust_priority 0 100 demo_idle)) !! 0 = Some t ∧
    -20 ≤ priority t ≤ 20.
Proof.
  eexists. split; [vm_compute; reflexivity|].
  apply (priority_bounds 1 0 100 4 7 demo_idle) with (r := 0); [|by vm_compute].
  intros r t. unfold demo_idle. simpl. rewrite lookup_insert, lookup_empty.
  case_decide; intros [= <-]. simpl. lia.
Defined.

(** A page-table side that reuses the current CR3. *)
Definition demo_vm : vm_fork := λ _ s, (4096, s).

Lemma demo_fork : ∃ k', fork_task demo_vm 0 demo_idle = Ret (Some 1, k').
Proof. eexists. vm_compute. reflexivity. Qed.

Lemma fork_child_witness :
  ∃ k', fork_task demo_vm 0 demo_idle = Ret (Some 1, k') ∧ queue (RUNQUEUE k') = [1].
Proof.
  destruct demo_fork as [k' E]. exists k'. split; [exact E|].
  apply (fork_child demo_vm 0 4096 small_pmm demo_idle 1 k' (new_idle 0 4096) small_fl);
    [exact demo_idle_inv|done|exact small_rep|done|exact E|by vm_compute|].
  intros i pg Hi Hpg. assert (Hp : Forall (λ x, 4096 ≤ x) (all_pages small_fl)).
  { by apply (bool_decide_unpack _); vm_compute. }
  rewrite Forall_forall in Hp. specialize (Hp _ Hpg). change (saved_kernel_rsp _) with 0.
  change (phys_offset _) with 0. unfold FRAME_WORDS in Hi. lia.
Defined.

Lemma fork_drops_limits_witness :
  ∃ k', fork_task demo_vm 0 (set_rlimits {[ 0 := <[1%nat := mkRlimit 5 5]> new_limits ]} demo_idle) =
    Ret (Some 1, k') ∧ get_limit 1 1 (RLIMITS k') = unlimited.
Proof.
  eexists. split; [vm_compute; reflexivity|].
  eapply (fork_drops_limits demo_vm 0
    (set_rlimits {[ 0 := <[1%nat := mkRlimit 5 5]> new_limits ]} demo_idle) 1); by vm_compute.
Defined.

Lemma exit_then_reap_witness :
  ∃ k', reap_zombie_child 1 (exit_current (λ _, id) 7 demo_family) = (Some (2, 7), k') ∧ TASKS k' !! 2 = None.
Proof.
  apply (exit_then_reap (λ _, id) demo_family 2 (demo_task 2 1 Running) 7); try by vm_compute.
  intros q tq. unfold demo_family. simpl. rewrite !lookup_insert, lookup_singleton.
  repeat case_decide; intros [= <-]; done.
Defined.

(** Task 2 runs with five ticks left and task 0 waits. *)
Lemma round_robin_bound_witness :
  ∃ i, (i ≤ 50)%nat ∧ current_pid (RUNQUEUE (interrupts (take i (replicate 50 (demo_hints, 5000))) demo_family)) = Some 0.
Proof.
  apply (round_robin_bound (replicate 50 (demo_hints, 5000)) demo_family 2 0 0);
    [exact demo_family_inv|reflexivity|reflexivity|vm_compute; discriminate].
Defined.
