(* ===== verification/JobOps.v ===== *)
(** The operations of [kernel/src/job_control.rs] that act on tasks: foreground
    changes, stopping and continuing a job. [succ] is what the causal wakeup graph
    predicts for a PID ([causal::predict_successors]). *)
From stdpp Require Import base numbers list gmap sets sorting.
From S2P Require Import Prelude RunQueue Task JobControl Scheduler SchedulerFacts.

Definition SIGTSTP : Z := 20.
Definition SIGCONT : Z := 18.

Definition adjust_nice (pid nice_delta : Z) (k : Kernel) : Kernel :=
  set_nice_override pid nice_delta k.

Definition nice_all (pids : list Z) (n : Z) (k : Kernel) : Kernel :=
  foldl (λ k p, adjust_nice p n k) k pids.

Definition signal_all (pids : list Z) (signum : Z) (k : Kernel) : Kernel :=
  foldl (λ k p, send_signal p signum k) k pids.

(** The old group and, member by member, its causal successors go back to 0. *)
Definition withdraw (succ : Z → list Z) (pids : list Z) (k : Kernel) : Kernel :=
  foldl (λ k p, nice_all (u32 <$> succ p) 0 (adjust_nice p 0 k)) k pids.

(** The [BTreeSet] of causal successors that are not members themselves. *)
Definition causal_set (succ : Z → list Z) (members : list Z) : gset Z :=
  list_to_set (filter (λ s, s ∉ members) (u32 <$> (members ≫= succ))).

Definition set_fg (pgid : Z) (k : Kernel) : Kernel :=
  set_jobs (mkJobs (pid_pgid (JOBS k)) (pgid_members (JOBS k)) pgid) k.

Definition tcsetpgrp (succ : Z → list Z) (pgid : Z) (k : Kernel) : Kernel :=
  let old_fg := fg_pgid (JOBS k) in
  let k := set_fg pgid k in
  let k := if decide (old_fg ≠ 0 ∧ old_fg ≠ pgid)
           then withdraw succ (group_members old_fg (JOBS k)) k else k in
  if decide (pgid = 0) then k else
  let members := group_members pgid (JOBS k) in
  let k := nice_all members FG_DIRECT_BONUS k in
  nice_all (merge_sort (≤) (elements (causal_set succ members))) FG_CAUSAL_BONUS k.

Definition tcgetpgrp (k : Kernel) : Z := fg_pgid (JOBS k).

Definition stop_job (succ : Z → list Z) (pgid : Z) (k : Kernel) : Kernel :=
  let k := signal_all (group_members pgid (JOBS k)) SIGTSTP k in
  if decide (fg_pgid (JOBS k) = pgid) then tcsetpgrp succ 0 k else k.

Definition continue_job_bg (pgid : Z) (k : Kernel) : Kernel :=
  signal_all (group_members pgid (JOBS k)) SIGCONT k.

Definition continue_job_fg (succ : Z → list Z) (pgid : Z) (k : Kernel) : Kernel :=
  tcsetpgrp succ pgid (signal_all (group_members pgid (JOBS k)) SIGCONT k).

(** ** Facts *)

Definition nice_of (p : Z) (k : Kernel) : option Z :=
  ai_nice_adjust ∘ ai_profile <$> TASKS k !! p.

Lemma adjust_nice_jobs p n k : JOBS (adjust_nice p n k) = JOBS k.
Proof. done. Qed.

Lemma adjust_nice_nice p n k q :
  nice_of q (adjust_nice p n k) = if decide (p = q) then (λ _, n) <$> TASKS k !! q else nice_of q k.
Proof.
  unfold nice_of, adjust_nice, set_nice_override. rewrite lookup_with_task. case_decide; [|done].
  by destruct (TASKS k !! q).
Qed.

Lemma adjust_nice_dom p n k q : is_Some (TASKS (adjust_nice p n k) !! q) ↔ is_Some (TASKS k !! q).
Proof.
  unfold adjust_nice, set_nice_override. rewrite lookup_with_task. case_decide; [|done].
  by rewrite fmap_is_Some.
Qed.

Lemma nice_all_dom ps n k q : is_Some (TASKS (nice_all ps n k) !! q) ↔ is_Some (TASKS k !! q).
Proof.
  unfold nice_all. revert k. induction ps as [|p ps IH]; intros k; cbn [foldl]; [done|].
  by rewrite IH, adjust_nice_dom.
Qed.

Lemma nice_all_jobs ps n k : JOBS (nice_all ps n k) = JOBS k.
Proof. unfold nice_all. revert k. induction ps as [|p ps IH]; intros k; cbn [foldl]; [done|]. by rewrite IH. Qed.

Lemma nice_all_nice ps n k q :
  is_Some (TASKS k !! q) →
  nice_of q (nice_all ps n k) = if decide (q ∈ ps) then Some n else nice_of q k.
Proof.
  unfold nice_all. revert k. induction ps as [|p ps IH]; intros k Hq; cbn [foldl].
  - by rewrite decide_False by apply not_elem_of_nil.
  - rewrite IH by (by apply adjust_nice_dom). rewrite adjust_nice_nice.
    destruct (decide (q ∈ ps)).
    + rewrite decide_True; [done|set_solver].
    + destruct (decide (p = q)) as [->|].
      * rewrite decide_True by set_solver. destruct Hq as [t ->]. done.
      * rewrite decide_False; [done|set_solver].
Qed.

Lemma withdraw_jobs succ ps k : JOBS (withdraw succ ps k) = JOBS k.
Proof.
  unfold withdraw. revert k. induction ps as [|p ps IH]; intros k; cbn [foldl]; [done|].
  by rewrite IH, nice_all_jobs.
Qed.

Lemma withdraw_dom succ ps k q : is_Some (TASKS (withdraw succ ps k) !! q) ↔ is_Some (TASKS k !! q).
Proof.
  unfold withdraw. revert k. induction ps as [|p ps IH]; intros k; cbn [foldl]; [done|].
  by rewrite IH, nice_all_dom, adjust_nice_dom.
Qed.

Lemma withdraw_nice succ ps k q :
  is_Some (TASKS k !! q) →
  nice_of q (withdraw succ ps k) =
    if decide (q ∈ ps ∨ q ∈ u32 <$> (ps ≫= succ)) then Some 0 else nice_of q k.
Proof.
  unfold withdraw. revert k. induction ps as [|p ps IH]; intros k Hq; cbn [foldl].
  - rewrite decide_False; [done|]. intros [H|H]; by apply elem_of_nil in H.
  - assert (Hq1 : is_Some (TASKS (adjust_nice p 0 k) !! q)) by (by apply adjust_nice_dom).
    rewrite IH by (by apply nice_all_dom).
    destruct (decide (q ∈ ps ∨ _)) as [H|H].
    + rewrite decide_True; [done|]. rewrite bind_cons, fmap_app. set_solver.
    + rewrite nice_all_nice by done. destruct (decide (q ∈ u32 <$> succ p)).
      * rewrite decide_True; [done|]. rewrite bind_cons, fmap_app. set_solver.
      * rewrite adjust_nice_nice. destruct (decide (p = q)) as [->|].
        { rewrite decide_True by set_solver. destruct Hq as [t ->]. done. }
        rewrite decide_False; [done|]. rewrite bind_cons, fmap_app. set_solver.
Qed.

Lemma send_signal_jobs p s k : JOBS (send_signal p s k) = JOBS k.
Proof.
  unfold send_signal. case_decide; [done|]. destruct (TASKS k !! p) as [t|]; [|done].
  cbv zeta. case_decide; [|done]. unfold wake_pid. destruct (TASKS _ !! p); [|done]. by case_decide.
Qed.

Lemma signal_all_jobs ps s k : JOBS (signal_all ps s k) = JOBS k.
Proof.
  unfold signal_all. revert k. induction ps as [|p ps IH]; intros k; cbn [foldl]; [done|].
  by rewrite IH, send_signal_jobs.
Qed.

Lemma adjust_nice_inv p n k : sched_inv k → sched_inv (adjust_nice p n k).
Proof. intros Hi. by apply with_task_inv. Qed.

Lemma nice_all_inv ps n k : sched_inv k → sched_inv (nice_all ps n k).
Proof.
  unfold nice_all. revert k. induction ps as [|p ps IH]; intros k Hi; cbn [foldl]; [done|].
  by apply IH, adjust_nice_inv.
Qed.

Lemma withdraw_inv succ ps k : sched_inv k → sched_inv (withdraw succ ps k).
Proof.
  unfold withdraw. revert k. induction ps as [|p ps IH]; intros k Hi; cbn [foldl]; [done|].
  by apply IH, nice_all_inv, adjust_nice_inv.
Qed.

Lemma signal_all_inv ps s k : sched_inv k → sched_inv (signal_all ps s k).
Proof.
  unfold signal_all. revert k. induction ps as [|p ps IH]; intros k Hi; cbn [foldl]; [done|].
  by apply IH, send_signal_inv.
Qed.

Lemma tcsetpgrp_inv succ g k : sched_inv k → sched_inv (tcsetpgrp succ g k).
Proof.
  intros Hi. unfold tcsetpgrp. cbv zeta.
  assert (Hi1 : sched_inv (set_fg g k)) by (by apply (same_tables_inv k)).
  assert (Hi2 : sched_inv (if decide (fg_pgid (JOBS k) ≠ 0 ∧ fg_pgid (JOBS k) ≠ g)
    then withdraw succ (group_members (fg_pgid (JOBS k)) (JOBS (set_fg g k))) (set_fg g k)
    else set_fg g k)) by (case_decide; [by apply withdraw_inv|done]).
  destruct (decide (g = 0)); [exact Hi2|]. by repeat apply nice_all_inv.
Qed.

Lemma elem_of_causal_set succ ms q :
  q ∈ merge_sort (≤) (elements (causal_set succ ms)) ↔ q ∉ ms ∧ q ∈ u32 <$> (ms ≫= succ).
Proof.
  rewrite merge_sort_Permutation, elem_of_elements. unfold causal_set.
  by rewrite elem_of_list_to_set, list_elem_of_filter.
Qed.

(** Foreground elevation, task by task: members of the new group get the direct
    bonus, their other predicted successors the causal one; of the rest, those
    the old group had elevated go back to 0 and nobody else changes. *)
Definition fg_nice (succ : Z → list Z) (g : Z) (k : Kernel) (q : Z) : option Z :=
  let old := fg_pgid (JOBS k) in
  let ms := group_members g (JOBS k) in
  let os := group_members old (JOBS k) in
  if decide (g ≠ 0 ∧ q ∈ ms) then Some FG_DIRECT_BONUS
  else if decide (g ≠ 0 ∧ q ∈ u32 <$> (ms ≫= succ)) then Some FG_CAUSAL_BONUS
  else if decide ((old ≠ 0 ∧ old ≠ g) ∧ (q ∈ os ∨ q ∈ u32 <$> (os ≫= succ))) then Some 0
  else nice_of q k.

Lemma tcsetpgrp_nice succ g k q :
  is_Some (TASKS k !! q) → nice_of q (tcsetpgrp succ g k) = fg_nice succ g k q.
Proof.
  intros Hq. unfold tcsetpgrp, fg_nice. cbv zeta.
  change (group_members (fg_pgid (JOBS k)) (JOBS (set_fg g k)))
    with (group_members (fg_pgid (JOBS k)) (JOBS k)).
  set (os := group_members (fg_pgid (JOBS k)) (JOBS k)).
  set (k1 := if decide (_ ≠ _ ∧ _) then withdraw _ _ _ else _).
  assert (Hj : JOBS k1 = JOBS (set_fg g k)).
  { unfold k1. case_decide; [apply withdraw_jobs|done]. }
  assert (Hq1 : is_Some (TASKS k1 !! q)).
  { unfold k1. case_decide; [by apply withdraw_dom|done]. }
  assert (Hn1 : nice_of q k1 = if decide ((fg_pgid (JOBS k) ≠ 0 ∧ fg_pgid (JOBS k) ≠ g) ∧
      (q ∈ os ∨ q ∈ u32 <$> (os ≫= succ))) then Some 0 else nice_of q k).
  { unfold k1. destruct (decide (fg_pgid (JOBS k) ≠ 0 ∧ _)).
    - rewrite withdraw_nice by done. change (nice_of q (set_fg g k)) with (nice_of q k).
      destruct (decide (q ∈ os ∨ _)); [rewrite decide_True by done|rewrite decide_False by tauto]; done.
    - rewrite decide_False by tauto. done. }
  clearbody k1. rewrite Hj. change (group_members g (JOBS (set_fg g k))) with (group_members g (JOBS k)).
  set (ms := group_members g (JOBS k)). destruct (decide (g = 0)).
  { by rewrite !(decide_False (P := g ≠ 0 ∧ _)) by tauto. }
  rewrite !nice_all_nice; [|done|by apply nice_all_dom].
  destruct (decide (q ∈ merge_sort _ _)) as [H|H]; rewrite elem_of_causal_set in H.
  - rewrite decide_False by tauto. by rewrite decide_True by tauto.
  - destruct (decide (q ∈ ms)); [by rewrite decide_True by tauto|].
    rewrite decide_False by tauto. by rewrite decide_False by tauto.
Qed.
