(* ===== verification/SelfModel.v ===== *)
(** The predictive frame reserve: [kernel/src/memory/self_model.rs]. Frames are
    set aside per process before a predicted burst of allocations. The bigram
    model's averages are floating point; what it predicts for a pair of system
    calls is the argument [predict]. *)
From stdpp Require Import base numbers list gmap sets.
From S2P Require Import Prelude FrameAlloc.

Definition HISTORY_LEN : Z := 2.
Definition MAX_RESERVE_PAGES : Z := 256.

Record PidState := mkPidState {
  history : list Z;
  history_idx : Z;
  reserve : list Z     (* the last element is the top of the [Vec] *)
}.
Definition fresh_pid_state : PidState := mkPidState [0; 0] 0 [].

Section self_model.
Context {A : Type} {FA : FrameAllocator A}.

Record SelfModel := mkSelf { PID_STATES : gmap Z PidState; sm_frames : A }.

(** [for _ in 0..to_allocate]: stop at a full reserve or when memory is out. *)
Fixpoint fill_reserve (n : nat) (r : list Z) (a : A) : res (list Z * A) :=
  match n with
  | O => Ret (r, a)
  | S n' =>
      if decide (MAX_RESERVE_PAGES ≤ Z.of_nat (length r)) then Ret (r, a) else
      let! (o, a') := fa_alloc a in
      match o with
      | Some f => fill_reserve n' (r ++ [f]) a'
      | None => Ret (r, a')
      end
  end.

Definition record_syscall (predict : Z → Z → Z) (pid nr : Z) (s : SelfModel) : res SelfModel :=
  let st := default fresh_pid_state (PID_STATES s !! pid) in
  let hist := <[Z.to_nat (history_idx st mod HISTORY_LEN) := nr]> (history st) in
  let idx := add64 (history_idx st) 1 in
  let st := mkPidState hist idx (reserve st) in
  if decide (2 ≤ idx) then
    let! prev := index hist (Z.to_nat ((idx - 2) mod HISTORY_LEN)) in
    let predicted_pages := predict prev nr in
    if decide (0 < predicted_pages) then
      let! (r, a) := fill_reserve (Z.to_nat (Z.min predicted_pages MAX_RESERVE_PAGES))
                       (reserve st) (sm_frames s) in
      Ret (mkSelf (<[pid := mkPidState hist idx r]> (PID_STATES s)) a)
    else Ret (mkSelf (<[pid := st]> (PID_STATES s)) (sm_frames s))
  else Ret (mkSelf (<[pid := st]> (PID_STATES s)) (sm_frames s)).

Definition alloc_frame_predictive (pid : Z) (s : SelfModel) : res (option Z * SelfModel) :=
  match PID_STATES s !! pid with
  | Some st =>
      match last (reserve st) with
      | Some f =>
          Ret (Some f, mkSelf (<[pid := mkPidState (history st) (history_idx st)
                 (take (length (reserve st) - 1) (reserve st))]> (PID_STATES s)) (sm_frames s))
      | None => let! (o, a) := fa_alloc (sm_frames s) in Ret (o, mkSelf (PID_STATES s) a)
      end
  | None => let! (o, a) := fa_alloc (sm_frames s) in Ret (o, mkSelf (PID_STATES s) a)
  end.

Fixpoint free_all (fs : list Z) (a : A) : res A :=
  match fs with
  | [] => Ret a
  | f :: fs' => let! a' := fa_free f a in free_all fs' a'
  end.

Definition remove_reserve (pid : Z) (s : SelfModel) : res SelfModel :=
  match PID_STATES s !! pid with
  | Some st =>
      let! a := free_all (reserve st) (sm_frames s) in
      Ret (mkSelf (delete pid (PID_STATES s)) a)
  | None => Ret s
  end.

(** ** Invariant *)

(** All reserved frames, process by process. *)
Definition reserved (m : gmap Z PidState) : list Z := map_to_list m ≫= λ e, reserve e.2.

(** The reserves hold distinct frames, all of them handed out by the allocator;
    [F] are free and [O] are owned by somebody else. *)
Record self_ok (s : SelfModel) (F O : gset Z) : Prop := {
  so_nodup : NoDup (reserved (PID_STATES s));
  so_rep : fa_rep (sm_frames s) F (O ∪ list_to_set (reserved (PID_STATES s)));
  so_other : O ## list_to_set (reserved (PID_STATES s));
  so_len pid st : PID_STATES s !! pid = Some st →
    Z.of_nat (length (reserve st)) ≤ MAX_RESERVE_PAGES ∧ length (history st) = 2%nat
}.

Lemma reserved_insert (m : gmap Z PidState) pid st :
  reserved (<[pid := st]> m) ≡ₚ reserve st ++ reserved (delete pid m).
Proof.
  unfold reserved. rewrite <- insert_delete_eq, map_to_list_insert by apply lookup_delete_eq. done.
Qed.

Lemma reserved_delete (m : gmap Z PidState) pid :
  reserved m ≡ₚ reserve (default fresh_pid_state (m !! pid)) ++ reserved (delete pid m).
Proof.
  unfold reserved. destruct (m !! pid) as [st|] eqn:E; simpl.
  - rewrite <- (map_to_list_delete m pid st E). done.
  - by rewrite delete_id.
Qed.

Lemma fill_reserve_spec n r a F O :
  fa_rep a F O → Z.of_nat (length r) ≤ MAX_RESERVE_PAGES →
  ∃ new a', fill_reserve n r a = Ret (r ++ new, a') ∧
    fa_rep a' (F ∖ list_to_set new) (O ∪ list_to_set new) ∧
    NoDup new ∧ list_to_set new ⊆ F ∧ Z.of_nat (length (r ++ new)) ≤ MAX_RESERVE_PAGES.
Proof.
  revert r a F O. induction n as [|n IH]; intros r a F O Hr Hl; simpl.
  { exists [], a. rewrite app_nil_r. simpl. rewrite difference_empty_L, union_empty_r_L.
    split_and!; [done|done|constructor|set_solver|done]. }
  case_decide.
  { exists [], a. rewrite app_nil_r. simpl. rewrite difference_empty_L, union_empty_r_L.
    split_and!; [done|done|constructor|set_solver|done]. }
  destruct (fa_alloc_spec a F O Hr) as [[E ->]|(f & a' & E & Hf & Hr')]; rewrite E; simpl.
  { exists [], a. rewrite app_nil_r. simpl. rewrite difference_empty_L, union_empty_r_L.
    split_and!; [done|done|constructor|set_solver|done]. }
  destruct (IH (r ++ [f]) a' _ _ Hr') as (new & a2 & E2 & Hr2 & Hnd & Hs & Hl2).
  { rewrite length_app. simpl. lia. }
  exists (f :: new), a2. rewrite <- app_assoc in E2, Hl2. simpl in *. split_and!; try done.
  - replace (F ∖ ({[f]} ∪ list_to_set new)) with (F ∖ {[f]} ∖ list_to_set new) by set_solver.
    replace (O ∪ ({[f]} ∪ list_to_set new)) with ({[f]} ∪ O ∪ list_to_set new) by set_solver. done.
  - constructor; [|done]. set_solver.
  - set_solver.
Qed.

Lemma self_ok_update s F O pid st F' a :
  self_ok s F O → NoDup (reserve st ++ reserved (delete pid (PID_STATES s))) →
  fa_rep a F' (O ∪ list_to_set (reserve st ++ reserved (delete pid (PID_STATES s)))) →
  O ## list_to_set (reserve st) →
  Z.of_nat (length (reserve st)) ≤ MAX_RESERVE_PAGES → length (history st) = 2%nat →
  self_ok (mkSelf (<[pid := st]> (PID_STATES s)) a) F' O.
Proof.
  intros Hs Hnd Hr Hd Hl Hh. pose proof (so_other _ _ _ Hs) as Hoth.
  rewrite (list_to_set_perm_L _ _ (reserved_delete (PID_STATES s) pid)) in Hoth.
  split; cbn [PID_STATES sm_frames].
  - by rewrite reserved_insert.
  - by rewrite (list_to_set_perm_L _ _ (reserved_insert (PID_STATES s) pid st)).
  - rewrite (list_to_set_perm_L _ _ (reserved_insert (PID_STATES s) pid st)).
    rewrite list_to_set_app_L in *. set_solver.
  - intros p st'. rewrite lookup_insert. case_decide; [by intros [= <-]|apply Hs].
Qed.

Lemma history_lookup (l : list Z) i : length l = 2%nat → ∃ x, index l (Z.to_nat (i mod HISTORY_LEN)) = Ret x.
Proof.
  intros Hl. unfold index. pose proof (Z.mod_pos_bound i HISTORY_LEN ltac:(done)) as Hb.
  unfold HISTORY_LEN in *.
  destruct (lookup_lt_is_Some_2 l (Z.to_nat (i mod 2))) as [x ->]; [lia|]. eauto.
Qed.

(** Recording a system call never panics, never over-fills a reserve, and moves
    frames only from the free set to the caller's reserve. *)
Lemma record_syscall_ok predict pid nr s F O :
  self_ok s F O →
  ∃ s' new, record_syscall predict pid nr s = Ret s' ∧ self_ok s' (F ∖ list_to_set new) O ∧
    list_to_set new ⊆ F ∧
    reserved (PID_STATES s') ≡ₚ reserved (PID_STATES s) ++ new.
Proof.
  intros Hs. unfold record_syscall. cbv zeta.
  set (st := default fresh_pid_state (PID_STATES s !! pid)).
  assert (Hst : Z.of_nat (length (reserve st)) ≤ MAX_RESERVE_PAGES ∧ length (history st) = 2%nat).
  { unfold st. destruct (PID_STATES s !! pid) eqn:E; [by eapply (so_len _ _ _ Hs)|]. done. }
  destruct Hst as [Hlen Hhist]. set (hist := <[_ := nr]> (history st)).
  assert (Hh : length hist = 2%nat) by (unfold hist; by rewrite length_insert).
  set (idx := add64 _ 1).
  pose proof (reserved_delete (PID_STATES s) pid) as Hp. fold st in Hp.
  assert (Hkeep : self_ok (mkSelf (<[pid := mkPidState hist idx (reserve st)]> (PID_STATES s))
      (sm_frames s)) (F ∖ ∅) O ∧
    reserved (<[pid := mkPidState hist idx (reserve st)]> (PID_STATES s)) ≡ₚ
      reserved (PID_STATES s) ++ []).
  { split.
    - rewrite difference_empty_L. apply (self_ok_update s F O); simpl; try done.
      + rewrite <- Hp. apply Hs.
      + rewrite <- (list_to_set_perm_L _ _ Hp). apply Hs.
      + pose proof (so_other _ _ _ Hs) as Hd. rewrite (list_to_set_perm_L _ _ Hp) in Hd.
        rewrite list_to_set_app_L in Hd. set_solver.
    - rewrite reserved_insert, app_nil_r. simpl. by rewrite <- Hp. }
  case_decide; [|eexists _, []; split; [done|]; naive_solver set_solver].
  destruct (history_lookup hist (idx - 2) Hh) as [prev ->]. cbn [res_bind].
  case_decide; [|eexists _, []; split; [done|]; naive_solver set_solver].
  destruct (fill_reserve_spec (Z.to_nat (Z.min (predict prev nr) MAX_RESERVE_PAGES)) (reserve st) _ _ _
    (so_rep _ _ _ Hs) Hlen) as (new & a & E & Hr & Hnd & Hsub & Hlen').
  cbn [reserve]. rewrite E. cbn [res_bind]. eexists _, new. split; [done|].
  pose proof (so_nodup _ _ _ Hs) as Hnd0. rewrite Hp in Hnd0.
  pose proof (fa_disjoint _ _ _ (so_rep _ _ _ Hs)) as HFO.
  pose proof (so_other _ _ _ Hs) as Hoth.
  rewrite (list_to_set_perm_L _ _ Hp), list_to_set_app_L in Hoth, HFO.
  assert (Hp2 : (reserve st ++ new) ++ reserved (delete pid (PID_STATES s)) ≡ₚ
    reserved (PID_STATES s) ++ new) by (rewrite Hp; solve_Permutation).
  split_and!; [|done|].
  - apply (self_ok_update s F O); cbn [reserve history]; try done.
    + rewrite Hp2. apply NoDup_app. split_and!; [apply Hs| |done].
      intros x Hx Hx'. rewrite Hp in Hx. apply elem_of_app in Hx. set_solver.
    + rewrite (list_to_set_perm_L _ _ Hp2), list_to_set_app_L, (assoc_L (∪)). done.
    + rewrite list_to_set_app_L. set_solver.
  - cbn [PID_STATES]. rewrite reserved_insert. cbn [reserve]. done.
Qed.

Lemma free_all_spec fs a F O :
  fa_rep a F O → NoDup fs → list_to_set fs ⊆ O →
  ∃ a', free_all fs a = Ret a' ∧ fa_rep a' (list_to_set fs ∪ F) (O ∖ list_to_set fs).
Proof.
  revert a F O. induction fs as [|f fs IH]; intros a F O Hr Hnd Hsub; simpl.
  { exists a. rewrite union_empty_l_L, difference_empty_L. done. }
  apply NoDup_cons in Hnd as [Hnin Hnd]. simpl in Hsub.
  destruct (fa_free_spec a F O f Hr) as (a1 & E & Hr1); [set_solver|]. rewrite E. simpl.
  destruct (IH a1 _ _ Hr1 Hnd) as (a' & E' & Hr'); [set_solver|]. exists a'. split; [done|].
  replace ({[f]} ∪ list_to_set fs ∪ F) with (list_to_set fs ∪ ({[f]} ∪ F)) by set_solver.
  replace (O ∖ ({[f]} ∪ list_to_set fs)) with (O ∖ {[f]} ∖ list_to_set fs) by set_solver. done.
Qed.

(** Removing a process gives its whole reserve back. *)
Lemma remove_reserve_ok pid s F O :
  self_ok s F O →
  ∃ s', remove_reserve pid s = Ret s' ∧
    self_ok s' (list_to_set (reserve (default fresh_pid_state (PID_STATES s !! pid))) ∪ F) O ∧
    PID_STATES s' = delete pid (PID_STATES s).
Proof.
  intros Hs. unfold remove_reserve. pose proof (reserved_delete (PID_STATES s) pid) as Hp.
  destruct (PID_STATES s !! pid) as [st|] eqn:E; simpl in *.
  2:{ exists s. rewrite union_empty_l_L. split_and!; [done|done|]. by rewrite delete_id. }
  pose proof (so_nodup _ _ _ Hs) as Hnd. pose proof (so_other _ _ _ Hs) as Ho.
  pose proof (so_rep _ _ _ Hs) as Hr. rewrite Hp in Hnd. apply NoDup_app in Hnd as (H1 & H2 & H3).
  rewrite (list_to_set_perm_L _ _ Hp), list_to_set_app_L in Ho, Hr.
  destruct (free_all_spec (reserve st) _ _ _ Hr H1) as (a & Ea & Hra); [set_solver|].
  rewrite Ea. simpl. eexists. split_and!; [done| |done]. split; cbn [PID_STATES sm_frames]; [done| | |].
  - replace (O ∪ list_to_set (reserved (delete pid (PID_STATES s)))) with
      ((O ∪ (list_to_set (reserve st) ∪ list_to_set (reserved (delete pid (PID_STATES s)))))
        ∖ list_to_set (reserve st)); [done|].
    set_unfold. intros x. specialize (H2 x). specialize (Ho x). naive_solver.
  - set_solver.
  - intros p st' Hl. apply (so_len _ _ _ Hs p). by apply lookup_delete_Some in Hl as [_ ?].
Qed.

(** A predictive allocation hands out a frame nobody else owns: one of the
    caller's reserve, or a free one; it fails only when both are exhausted. *)
Lemma alloc_frame_predictive_ok pid s F O :
  self_ok s F O →
  (∃ s', alloc_frame_predictive pid s = Ret (None, s') ∧ F = ∅ ∧
     reserve (default fresh_pid_state (PID_STATES s !! pid)) = [] ∧ self_ok s' F O) ∨
  (∃ f s', alloc_frame_predictive pid s = Ret (Some f, s') ∧ (f ∉ O) ∧
     (f ∈ reserve (default fresh_pid_state (PID_STATES s !! pid)) ∨ f ∈ F) ∧
     self_ok s' (F ∖ {[f]}) ({[f]} ∪ O)).
Proof.
  intros Hs. pose proof (so_rep _ _ _ Hs) as Hr. pose proof (so_other _ _ _ Hs) as Ho.
  pose proof (fa_disjoint _ _ _ Hr) as HFO.
  assert (Hfall : reserve (default fresh_pid_state (PID_STATES s !! pid)) = [] →
    (∃ s', (let! (o, a) := fa_alloc (sm_frames s) in Ret (o, mkSelf (PID_STATES s) a)) = Ret (None, s') ∧
      F = ∅ ∧ reserve (default fresh_pid_state (PID_STATES s !! pid)) = [] ∧ self_ok s' F O) ∨
    (∃ f s', (let! (o, a) := fa_alloc (sm_frames s) in Ret (o, mkSelf (PID_STATES s) a)) = Ret (Some f, s') ∧
      (f ∉ O) ∧ (f ∈ reserve (default fresh_pid_state (PID_STATES s !! pid)) ∨ f ∈ F) ∧
      self_ok s' (F ∖ {[f]}) ({[f]} ∪ O))).
  { intros Hres. destruct (fa_alloc_spec _ _ _ Hr) as [[E HF]|(f & a & E & Hf & Hr')]; rewrite E; simpl.
    - left. eexists. split; [done|]. split_and!; [done..|]. by destruct s.
    - right. exists f. eexists. split; [done|]. split_and!; [set_solver|by right|].
      split; simpl; [apply Hs| |set_solver|apply Hs]. by rewrite <- (assoc_L (∪)). }
  unfold alloc_frame_predictive. destruct (PID_STATES s !! pid) as [st|] eqn:E; simpl in *; [|by apply Hfall].
  destruct (last (reserve st)) as [f|] eqn:El.
  2:{ apply last_None in El. by apply Hfall. }
  apply last_Some in El as [l El]. right. exists f. eexists. split; [done|].
  pose proof (reserved_delete (PID_STATES s) pid) as Hp. rewrite E in Hp. simpl in Hp. rewrite El in Hp.
  assert (Ht : take (length (reserve st) - 1) (reserve st) = l).
  { rewrite El, length_app. simpl. rewrite Nat.add_sub. by rewrite take_app_length. }
  pose proof (so_nodup _ _ _ Hs) as Hnd. rewrite Hp in Hnd.
  assert (Hp' : (l ++ [f]) ++ reserved (delete pid (PID_STATES s)) ≡ₚ
    f :: (l ++ reserved (delete pid (PID_STATES s)))) by solve_Permutation.
  rewrite Hp' in Hnd. apply NoDup_cons in Hnd as [Hnf Hnd]. rewrite not_elem_of_app in Hnf.
  rewrite (list_to_set_perm_L _ _ Hp), (list_to_set_perm_L _ _ Hp') in Ho, Hr, HFO. simpl in Ho, Hr, HFO.
  rewrite list_to_set_app_L in Ho, Hr, HFO.
  destruct (so_len _ _ _ Hs _ _ E) as [Hl Hh].
  split_and!; [set_solver|left; rewrite El; set_solver|].
  rewrite Ht. assert (HF : F ∖ {[f]} = F) by set_solver. rewrite HF.
  split; cbn [PID_STATES sm_frames].
  - by rewrite reserved_insert.
  - rewrite (list_to_set_perm_L _ _ (reserved_insert _ _ _)), list_to_set_app_L. simpl.
    replace ({[f]} ∪ O ∪ _) with (O ∪ ({[f]} ∪ (list_to_set l ∪
      list_to_set (reserved (delete pid (PID_STATES s)))))) by set_solver. done.
  - rewrite (list_to_set_perm_L _ _ (reserved_insert _ _ _)), list_to_set_app_L. simpl. set_solver.
  - intros p st'. rewrite lookup_insert. case_decide; [|by apply Hs]. intros [= <-]. simpl.
    split; [|done]. rewrite El, length_app in Hl. simpl in Hl. lia.
Qed.
End self_model.
Arguments SelfModel : clear implicits.
