(* ===== verification/Vmm.v ===== *)
(** The virtual memory manager: [kernel/src/memory/vmm.rs].

    Physical memory is reached through the window at [PHYS_OFFSET], so a word of
    it is keyed here by its physical address. Page tables, their entries and the
    copied frames are words of that memory; the frame allocator keeps its own
    links in free frames only and is used through [FrameAllocator]. The x86_64
    crate's [OffsetPageTable::map_to] and [unmap] are the arguments [map_to] and
    [unmap]: they act on the level-4 table the mapper was created with. *)
From stdpp Require Import base numbers list gmap sets strings.
From S2P Require Import Prelude Pmm FrameAlloc SelfModel.

Definition PTE_PRESENT : Z := 1.
Definition PTE_WRITABLE : Z := 2.
Definition PTE_USER : Z := 4.
Definition PTE_WRITE_THROUGH : Z := 8.
Definition PTE_NO_CACHE : Z := 16.
Definition PTE_ACCESSED : Z := 32.
Definition PTE_HUGE : Z := 128.
Definition PTE_COW : Z := 512.
Definition PTE_SWAPPED : Z := 1024.
Definition PTE_NX : Z := 2 ^ 63.
Definition PTE_ADDR_MASK : Z := 0x000FFFFFFFFFF000.
Definition VDSO_ADDR : Z := 0x00007FFFFFE00000.

(** [e & bit != 0]. *)
Definition has (e b : Z) : bool := negb (Z.land e b =? 0).
Definition pte_addr (e : Z) : Z := Z.land e PTE_ADDR_MASK.
(** [cr3 & !0xFFF]. *)
Definition cr3_base (c : Z) : Z := Z.land c (not64 0xFFF).

Abbreviation pmem := (gmap Z Z).
Definition rd (m : pmem) (a : Z) : Z := default 0 (m !! a).
(** [table.add(i)] on a [*mut u64]. *)
Definition slot (table i : Z) : Z := add64 table (8 * i).

Definition l4_idx (va : Z) : Z := Z.land (Z.shiftr va 39) 0x1FF.
Definition l3_idx (va : Z) : Z := Z.land (Z.shiftr va 30) 0x1FF.
Definition l2_idx (va : Z) : Z := Z.land (Z.shiftr va 21) 0x1FF.
Definition l1_idx (va : Z) : Z := Z.land (Z.shiftr va 12) 0x1FF.

(** [a..b] as a list of indices. *)
Definition range (a b : Z) : list Z := seqZ a (b - a).

(** The walk of [cow_page_fault] and [update_user_pte_flags] to the level-1
    entry: its address, unless a level is absent or a huge page. *)
Definition walk_l1 (m : pmem) (l4 va : Z) : option Z :=
  let l4e := rd m (slot l4 (l4_idx va)) in
  if negb (has l4e PTE_PRESENT) then None else
  let l3e := rd m (slot (pte_addr l4e) (l3_idx va)) in
  if negb (has l3e PTE_PRESENT) || has l3e PTE_HUGE then None else
  let l2e := rd m (slot (pte_addr l3e) (l2_idx va)) in
  if negb (has l2e PTE_PRESENT) || has l2e PTE_HUGE then None else
  Some (slot (pte_addr l2e) (l1_idx va)).

(** [write_bytes(frame, 0, 4096)] and [copy_nonoverlapping(old, new, 4096)]. *)
Definition zero_page (a : Z) (m : pmem) : pmem :=
  foldl (λ m i, <[slot a i := 0]> m) m (range 0 512).
Definition copy_page (old new : Z) (m : pmem) : pmem :=
  foldl (λ m i, <[slot new i := rd m (slot old i)]> m) m (range 0 512).

(** A [for] loop whose body may return an error out of the function. *)
Fixpoint for_each {S : Type} (js : list Z) (f : Z → S → res (option string * S)) (s : S)
    : res (option string * S) :=
  match js with
  | [] => Ret (None, s)
  | i :: js' =>
      let! (o, s') := f i s in
      match o with
      | Some e => Ret (Some e, s')
      | None => for_each js' f s'
      end
  end.

Section vmm.
Context {A : Type} {FA : FrameAllocator A}.

Record Vm := mkVm {
  vm_frames : A;
  vm_mem : pmem;
  COW_REFS : gmap Z Z;               (* [u8] counts *)
  vm_cr3 : Z;                        (* the CR3 register *)
  vmm_l4 : Z;                        (* the table [VMM] was created with in [init] *)
  RECLAIM_AGGRESSIVENESS : Z         (* [u8] *)
}.

Definition set_frames (v : A) (s : Vm) : Vm :=
  mkVm v (vm_mem s) (COW_REFS s) (vm_cr3 s) (vmm_l4 s) (RECLAIM_AGGRESSIVENESS s).
Definition set_mem (v : pmem) (s : Vm) : Vm :=
  mkVm (vm_frames s) v (COW_REFS s) (vm_cr3 s) (vmm_l4 s) (RECLAIM_AGGRESSIVENESS s).
Definition set_cow (v : gmap Z Z) (s : Vm) : Vm :=
  mkVm (vm_frames s) (vm_mem s) v (vm_cr3 s) (vmm_l4 s) (RECLAIM_AGGRESSIVENESS s).
Definition set_vm_cr3 (v : Z) (s : Vm) : Vm :=
  mkVm (vm_frames s) (vm_mem s) (COW_REFS s) v (vmm_l4 s) (RECLAIM_AGGRESSIVENESS s).
Definition write_pte (a v : Z) (s : Vm) : Vm := set_mem (<[a := v]> (vm_mem s)) s.

(** [vmm::init]: the mapper is bound to the level-4 table current at boot. *)
Definition vmm_init (frames : A) (m : pmem) (boot_cr3 : Z) : Vm :=
  mkVm frames m ∅ boot_cr3 (cr3_base boot_cr3) 0.

Definition vm_alloc_frame (s : Vm) : res (option Z * Vm) :=
  let! (o, a) := fa_alloc (vm_frames s) in Ret (o, set_frames a s).

(** ** Sharing an address space *)

Definition ensure_table (dst_pte src_entry : Z) (s : Vm) : res ((Z + string) * Vm) :=
  let existing := rd (vm_mem s) dst_pte in
  if has existing PTE_PRESENT then Ret (inl (pte_addr existing), s) else
  let! (o, s) := vm_alloc_frame s in
  match o with
  | None => Ret (inr "ensure_table: OOM", s)
  | Some new_phys =>
      let s := set_mem (zero_page new_phys (vm_mem s)) s in
      let s := write_pte dst_pte (Z.lor new_phys (Z.land src_entry (not64 PTE_ADDR_MASK))) s in
      Ret (inl new_phys, s)
  end.

(** [rc.saturating_add(1)] on a [u8]. *)
Definition sat_inc8 (x : Z) : Z := Z.min 255 (x + 1).

Definition cow_pte (e : Z) : Z := Z.lor (Z.land e (not64 PTE_WRITABLE)) PTE_COW.

Definition copy_l1_entry (src_l1 dst_l1 i : Z) (st : Vm * Z) : res (option string * (Vm * Z)) :=
  let (s, pages) := st in
  let l1e := rd (vm_mem s) (slot src_l1 i) in
  if negb (has l1e PTE_PRESENT) then Ret (None, (s, pages)) else
  let phys := pte_addr l1e in
  if has l1e PTE_WRITABLE || has l1e PTE_COW then
    let s := write_pte (slot dst_l1 i) (cow_pte l1e) (write_pte (slot src_l1 i) (cow_pte l1e) s) in
    let rc := default 1 (COW_REFS s !! phys) in
    Ret (None, (set_cow (<[phys := sat_inc8 rc]> (COW_REFS s)) s, pages + 1))
  else
    Ret (None, (write_pte (slot dst_l1 i) l1e s, pages + 1)).

(** One entry of an inner level: make the child's table, then copy below it. *)
Definition copy_entry (huge_check : bool) (below : Z → Z → Vm * Z → res (option string * (Vm * Z)))
    (src dst i : Z) (st : Vm * Z) : res (option string * (Vm * Z)) :=
  let (s, pages) := st in
  let e := rd (vm_mem s) (slot src i) in
  if negb (has e PTE_PRESENT) then Ret (None, (s, pages)) else
  if huge_check && has e PTE_HUGE then Ret (None, (s, pages)) else
  let! (o, s) := ensure_table (slot dst i) e s in
  match o with
  | inr err => Ret (Some err, (s, pages))
  | inl child => below (pte_addr e) child (s, pages)
  end.

Definition copy_l1 (src dst : Z) := for_each (range 0 512) (copy_l1_entry src dst).
Definition copy_l2 (src dst : Z) := for_each (range 0 512) (copy_entry true copy_l1 src dst).
Definition copy_l3 (src dst : Z) := for_each (range 0 512) (copy_entry true copy_l2 src dst).
Definition copy_l4 (src dst : Z) := for_each (range 0 256) (copy_entry false copy_l3 src dst).

Definition copy_user_address_space (src_cr3 dst_cr3 : Z) (s : Vm) : res ((Z + string) * Vm) :=
  let! (o, st) := copy_l4 src_cr3 dst_cr3 (s, 0) in
  let (s, pages) := st in
  match o with
  | Some e => Ret (inr e, s)
  | None => Ret (inl pages, s)
  end.

(** ** Write faults *)

Definition cow_page_fault (cr2 : Z) (s : Vm) : res (bool * Vm) :=
  match walk_l1 (vm_mem s) (cr3_base (vm_cr3 s)) cr2 with
  | None => Ret (false, s)
  | Some l1_ptr =>
      let l1e := rd (vm_mem s) l1_ptr in
      if negb (has l1e PTE_PRESENT) then Ret (false, s) else
      if negb (has l1e PTE_COW) then Ret (false, s) else
      let old_phys := pte_addr l1e in
      let new_flags := Z.lor (Z.land (Z.land l1e (not64 PTE_ADDR_MASK)) (not64 PTE_COW)) PTE_WRITABLE in
      let (remaining, s) :=
        match COW_REFS s !! old_phys with
        | Some rc => if decide (1 < rc) then (rc - 1, set_cow (<[old_phys := rc - 1]> (COW_REFS s)) s)
                     else (0, set_cow (delete old_phys (COW_REFS s)) s)
        | None => (0, set_cow (delete old_phys (COW_REFS s)) s)
        end in
      if decide (remaining = 0) then
        Ret (true, write_pte l1_ptr (Z.lor old_phys new_flags) s)
      else
        let! (o, s) := vm_alloc_frame s in
        match o with
        | None => Ret (false, s)
        | Some new_phys =>
            let s := set_mem (copy_page old_phys new_phys (vm_mem s)) s in
            Ret (true, write_pte l1_ptr (Z.lor new_phys new_flags) s)
        end
  end.

(** ** Releasing an address space *)

Fixpoint for_all {S : Type} (js : list Z) (f : Z → S → res S) (s : S) : res S :=
  match js with
  | [] => Ret s
  | i :: js' => let! s' := f i s in for_all js' f s'
  end.

Definition release_leaf (l1_ptr : Z) (s : Vm) : res Vm :=
  let l1e := rd (vm_mem s) l1_ptr in
  if negb (has l1e PTE_PRESENT) then Ret s else
  if negb (has l1e PTE_COW) then Ret s else
  let phys := pte_addr l1e in
  match COW_REFS s !! phys with
  | Some rc =>
      if decide (rc ≤ 1) then
        let s := set_cow (delete phys (COW_REFS s)) s in
        let! a := fa_free phys (vm_frames s) in
        Ret (set_frames a s)
      else Ret (set_cow (<[phys := rc - 1]> (COW_REFS s)) s)
  | None => Ret s
  end.

(** [if e & PRESENT == 0 (|| e & HUGE != 0) { continue; }], else go below. *)
Definition below_entry (huge_check : bool) (f : Z → Vm → res Vm) (table i : Z) (s : Vm) : res Vm :=
  let e := rd (vm_mem s) (slot table i) in
  if negb (has e PTE_PRESENT) || (huge_check && has e PTE_HUGE) then Ret s
  else f (pte_addr e) s.

Definition release_user_cow_refs (cr3 : Z) (s : Vm) : res Vm :=
  for_all (range 0 256) (below_entry false (λ l3,
    for_all (range 0 512) (below_entry true (λ l2,
      for_all (range 0 512) (below_entry true (λ l1,
        for_all (range 0 512) (λ i, release_leaf (slot l1 i))) l2)) l3)) (cr3_base cr3)) s.

(** ** Reclaim *)

Definition increase_reclaim_aggressiveness (s : Vm) : Vm :=
  mkVm (vm_frames s) (vm_mem s) (COW_REFS s) (vm_cr3 s) (vmm_l4 s)
    ((RECLAIM_AGGRESSIVENESS s + 1) mod 256).

Definition reclaim_leaf (l1_ptr : Z) (st : Vm * Z) : Vm * Z :=
  let (s, n) := st in
  let l1e := rd (vm_mem s) l1_ptr in
  if has l1e PTE_PRESENT then
    let reclaim := if has l1e PTE_ACCESSED then bool_decide (3 < RECLAIM_AGGRESSIVENESS s) else true in
    if reclaim then
      (write_pte l1_ptr (Z.lor (Z.land l1e (not64 PTE_PRESENT)) PTE_SWAPPED) s, n + 1)
    else (s, n)
  else (s, n).

Definition reclaim_below (huge_check : bool) (f : Z → Vm * Z → Vm * Z) (table i : Z) (st : Vm * Z)
    : Vm * Z :=
  let e := rd (vm_mem st.1) (slot table i) in
  if negb (has e PTE_PRESENT) || (huge_check && has e PTE_HUGE) then st
  else f (pte_addr e) st.

Definition loop {S : Type} (js : list Z) (f : Z → S → S) (s : S) : S := foldl (λ s i, f i s) s js.

(** [reclaim_file_backed_pages], given [get_task_cr3(pid)]: the level-3 walk has
    no huge-page check. *)
Definition reclaim_file_backed_pages (task_cr3 : option Z) (s : Vm) : Z * Vm :=
  match task_cr3 with
  | Some cr3 =>
      if decide (cr3 = 0) then (0, s) else
      let (s', n) :=
        loop (range 0 256) (reclaim_below false (λ l3,
          loop (range 0 512) (reclaim_below false (λ l2,
            loop (range 0 512) (reclaim_below true (λ l1,
              loop (range 0 512) (λ i, reclaim_leaf (slot l1 i))) l2)) l3)) cr3) (s, 0) in
      (n, s')
  | None => (0, s)
  end.

(** ** Protection changes *)

Definition protect_pte (writable executable : bool) (pte : Z) : Z :=
  let pte := if writable then Z.lor pte PTE_WRITABLE else Z.land pte (not64 PTE_WRITABLE) in
  if executable then Z.land pte (not64 PTE_NX) else Z.lor pte PTE_NX.

Definition protect_page (writable executable : bool) (addr : Z) (s : Vm) : Vm :=
  match walk_l1 (vm_mem s) (cr3_base (vm_cr3 s)) addr with
  | None => s
  | Some l1_ptr =>
      let pte := rd (vm_mem s) l1_ptr in
      if negb (has pte PTE_PRESENT) then s
      else write_pte l1_ptr (protect_pte writable executable pte) s
  end.

Fixpoint protect_loop (fuel : nat) (writable executable : bool) (addr last : Z) (s : Vm) : res Vm :=
  if decide (addr < last) then
    match fuel with
    | O => OutOfFuel
    | S n => protect_loop n writable executable (add64 addr PAGE_SIZE) last
               (protect_page writable executable addr s)
    end
  else Ret s.

(** The pages of the range, and one more. *)
Definition protect_fuel (len : Z) : nat := Z.to_nat (len / PAGE_SIZE + 2).

Definition update_user_pte_flags (vaddr len : Z) (writable executable : bool) (s : Vm) : res Vm :=
  protect_loop (protect_fuel len) writable executable
    (Z.land vaddr (not64 (PAGE_SIZE - 1))) (add64 vaddr len) s.

(** ** Tables on a kernel path *)

Definition ensure_child_table (table index : Z) (s : Vm) : res ((Z + string) * Vm) :=
  let entry := rd (vm_mem s) (slot table index) in
  if has entry PTE_PRESENT then
    if has entry PTE_HUGE then Ret (inr "huge page in page table path — cannot split", s)
    else Ret (inl (pte_addr entry), s)
  else
    let! (o, s) := vm_alloc_frame s in
    match o with
    | None => Ret (inr "OOM creating page table frame", s)
    | Some new_phys =>
        let s := set_mem (zero_page new_phys (vm_mem s)) s in
        Ret (inl new_phys, write_pte (slot table index) (Z.lor new_phys 3) s)
    end.

Definition ensure_page_table_path (virt : Z) (s : Vm) : res (option string * Vm) :=
  let! (r3, s) := ensure_child_table (cr3_base (vm_cr3 s)) (l4_idx virt) s in
  match r3 with
  | inr e => Ret (Some e, s)
  | inl l3 =>
      let! (r2, s) := ensure_child_table l3 (l3_idx virt) s in
      match r2 with
      | inr e => Ret (Some e, s)
      | inl l2 =>
          let! (r1, s) := ensure_child_table l2 (l2_idx virt) s in
          match r1 with
          | inr e => Ret (Some e, s)
          | inl _ => Ret (None, s)
          end
      end
  end.

(** ** Mapping *)

Section mapping.
(** [map_to l4 page frame flags]: whether the page was mapped, and the memory
    and allocator after it; [unmap l4 page]: the frame that was mapped there. *)
Context (map_to : Z → Z → Z → Z → A * pmem → res (bool * (A * pmem))).
Context (unmap : Z → Z → pmem → option Z * pmem).

Definition map_page (page frame flags : Z) (s : Vm) : res (bool * Vm) :=
  let! (ok, am) := map_to (vmm_l4 s) page frame flags (vm_frames s, vm_mem s) in
  Ret (ok, set_mem am.2 (set_frames am.1 s)).

Definition unmap_page (page : Z) (s : Vm) : option Z * Vm :=
  let (frame, m) := unmap (vmm_l4 s) page (vm_mem s) in (frame, set_mem m s).

Definition user_flags (writable executable : bool) : Z :=
  let f := Z.lor PTE_PRESENT PTE_USER in
  let f := if writable then Z.lor f PTE_WRITABLE else f in
  if executable then f else Z.lor f PTE_NX.

(** [for i in 0..pages]; [take_frame] is [self_model::alloc_frame_predictive] of
    the current process. *)
Fixpoint map_pages (take_frame : A → res (option Z * A)) (n : nat) (v flags : Z) (s : Vm)
    : res (option string * Vm) :=
  match n with
  | O => Ret (None, s)
  | S n' =>
      let! (o, a) := take_frame (vm_frames s) in
      let s := set_frames a s in
      match o with
      | None => Ret (Some "map_user_range: OOM", s)
      | Some phys =>
          let s := set_mem (zero_page phys (vm_mem s)) s in
          let! (ok, s) := map_page v phys flags s in
          if ok : bool then map_pages take_frame n' (add64 v PAGE_SIZE) flags s
          else Ret (Some "page mapping failed", s)
      end
  end.

Definition map_user_range (take_frame : A → res (option Z * A)) (vaddr size : Z)
    (writable executable : bool) (s : Vm) : res (option string * Vm) :=
  let pages := sub64 (add64 size PAGE_SIZE) 1 / PAGE_SIZE in
  map_pages take_frame (Z.to_nat pages) vaddr (user_flags writable executable) s.

Definition map_user_range_in_cr3 (take_frame : A → res (option Z * A)) (target_cr3 vaddr size : Z)
    (writable executable : bool) (s : Vm) : res (option string * Vm) :=
  let old_cr3 := vm_cr3 s in
  let! (r, s) := map_user_range take_frame vaddr size writable executable (set_vm_cr3 target_cr3 s) in
  Ret (r, set_vm_cr3 old_cr3 s).

(** [B8 0F 00 00 00 0F 05] as a little-endian word. *)
Definition VDSO_CODE : Z := 0x00050F0000000FB8.

Definition alloc_user_cr3 (s : Vm) : res (option Z * Vm) :=
  let! (o, s) := vm_alloc_frame s in
  match o with
  | None => Ret (None, s)
  | Some new_l4 =>
      let cur_l4 := cr3_base (vm_cr3 s) in
      let m := zero_page new_l4 (vm_mem s) in
      let m := foldl (λ m i, <[slot new_l4 i := rd m (slot cur_l4 i)]> m) m (range 256 512) in
      let s := set_mem m s in
      let! (o2, s) := vm_alloc_frame s in
      match o2 with
      | None => Ret (None, s)
      | Some vdso =>
          let s := set_mem (<[slot vdso 0 := VDSO_CODE]> (zero_page vdso (vm_mem s))) s in
          let old := vm_cr3 s in
          let! (_, s) := map_page VDSO_ADDR vdso (Z.lor PTE_PRESENT PTE_USER) (set_vm_cr3 new_l4 s) in
          Ret (Some new_l4, set_vm_cr3 old s)
      end
  end.

Definition mmio_flags : Z :=
  Z.lor (Z.lor PTE_PRESENT PTE_WRITABLE) (Z.lor PTE_NO_CACHE PTE_WRITE_THROUGH).

(** [while addr < size]: errors are dropped. *)
Fixpoint mmio_loop (fuel : nat) (phys virt addr size : Z) (s : Vm) : res Vm :=
  if decide (addr < size) then
    match fuel with
    | O => OutOfFuel
    | S n =>
        let page := Z.land (add64 virt addr) (not64 (PAGE_SIZE - 1)) in
        let frame := Z.land (add64 phys addr) (not64 (PAGE_SIZE - 1)) in
        let! (_, s) := ensure_page_table_path (add64 virt addr) s in
        let (_, s) := unmap_page page s in
        let! (_, s) := map_page page frame mmio_flags s in
        mmio_loop n phys virt (add64 addr PAGE_SIZE) size s
    end
  else Ret s.

Definition map_mmio (phys virt size : Z) (s : Vm) : res Vm :=
  mmio_loop (Z.to_nat (size / PAGE_SIZE + 1)) phys virt 0 size s.
End mapping.
End vmm.
Arguments Vm : clear implicits.
