(* ===== verification/VmmFacts.v ===== *)
(** Facts about page-table entries, walks and the loops of [Vmm]. *)
From stdpp Require Import base numbers list gmap sets strings.
From S2P Require Import Prelude Pmm FrameAlloc Vmm.

(** ** Bits of an entry *)

Lemma has_testbit e n : 0 ≤ n → has e (2 ^ n) = Z.testbit e n.
Proof.
  intros Hn. unfold has. destruct (Z.testbit e n) eqn:E.
  - apply negb_true_iff, Z.eqb_neq. intros H.
    assert (Hb : Z.testbit (Z.land e (2 ^ n)) n = true).
    { by rewrite Z.land_spec, E, Z.pow2_bits_true. }
    by rewrite H, Z.bits_0 in Hb.
  - apply negb_false_iff, Z.eqb_eq, Z.bits_inj'. intros k Hk.
    rewrite Z.land_spec, Z.bits_0, Z.pow2_bits_eqb by done.
    destruct (Z.eqb_spec n k) as [->|]; [by rewrite E|by rewrite andb_false_r].
Qed.

Lemma has_present e : has e PTE_PRESENT = Z.testbit e 0.
Proof. by rewrite <- has_testbit. Qed.
Lemma has_writable e : has e PTE_WRITABLE = Z.testbit e 1.
Proof. by rewrite <- has_testbit. Qed.
Lemma has_huge e : has e PTE_HUGE = Z.testbit e 7.
Proof. by rewrite <- has_testbit. Qed.
Lemma has_cow e : has e PTE_COW = Z.testbit e 9.
Proof. by rewrite <- has_testbit. Qed.
Lemma has_nx e : has e PTE_NX = Z.testbit e 63.
Proof. by rewrite <- has_testbit. Qed.

(** The address field is bits 12 to 51. *)
Lemma addr_mask_bit i : 0 ≤ i → Z.testbit PTE_ADDR_MASK i = bool_decide (12 ≤ i < 52).
Proof.
  intros Hi. replace PTE_ADDR_MASK with (Z.shiftl (Z.ones 40) 12) by done.
  rewrite Z.shiftl_spec, Z.testbit_ones by lia.
  repeat case_bool_decide; try lia; destruct (Z.leb_spec 0 (i - 12)), (Z.ltb_spec (i - 12) 40); lia || done.
Qed.

Lemma not64_bit x i : 0 ≤ i → Z.testbit (not64 x) i =
  if decide (i < 64) then negb (Z.testbit x i) else Z.testbit x i.
Proof. apply not64_spec. Qed.

Lemma pte_addr_bit e i : 0 ≤ i →
  Z.testbit (pte_addr e) i = Z.testbit e i && bool_decide (12 ≤ i < 52).
Proof. intros Hi. unfold pte_addr. by rewrite Z.land_spec, addr_mask_bit. Qed.

Lemma pow2_bit n i : 0 ≤ n → 0 ≤ i → Z.testbit (2 ^ n) i = bool_decide (i = n).
Proof.
  intros Hn Hi. rewrite Z.pow2_bits_eqb by done.
  destruct (Z.eqb_spec n i); case_bool_decide; congruence.
Qed.

Lemma pte_addr_idemp e : pte_addr (pte_addr e) = pte_addr e.
Proof.
  apply Z.bits_inj'. intros i Hi. rewrite !pte_addr_bit by done.
  destruct (Z.testbit e i), (bool_decide (12 ≤ i < 52)); done.
Qed.

(** Entries that agree on everything but the permission bits 1 and 63. *)
Definition same_frame (x y : Z) : Prop :=
  ∀ i, 0 ≤ i < 64 → i ≠ 1 → i ≠ 63 → Z.testbit x i = Z.testbit y i.

#[global] Instance same_frame_equiv : Equivalence same_frame.
Proof.
  split; unfold same_frame.
  - done.
  - intros x y H i ???. by rewrite H.
  - intros x y z H1 H2 i ???. by rewrite H1, H2.
Qed.

Lemma same_frame_has x y n : same_frame x y → 0 ≤ n < 64 → n ≠ 1 → n ≠ 63 → has x (2 ^ n) = has y (2 ^ n).
Proof. intros H Hn H1 H2. rewrite !has_testbit by lia. by apply H. Qed.

Lemma same_frame_addr x y : same_frame x y → pte_addr x = pte_addr y.
Proof.
  intros H. apply Z.bits_inj'. intros i Hi. rewrite !pte_addr_bit by done.
  case_bool_decide; [|by rewrite !andb_false_r]. rewrite (H i) by lia. done.
Qed.

Lemma writable_bit i : 0 ≤ i → Z.testbit PTE_WRITABLE i = bool_decide (i = 1).
Proof. apply (pow2_bit 1); lia. Qed.
Lemma nx_bit i : 0 ≤ i → Z.testbit PTE_NX i = bool_decide (i = 63).
Proof. apply (pow2_bit 63); lia. Qed.
Lemma cow_bit i : 0 ≤ i → Z.testbit PTE_COW i = bool_decide (i = 9).
Proof. apply (pow2_bit 9); lia. Qed.

Lemma protect_pte_bit w x e i :
  0 ≤ i < 64 → Z.testbit (protect_pte w x e) i =
    if decide (i = 1) then w else if decide (i = 63) then negb x else Z.testbit e i.
Proof.
  intros Hi. unfold protect_pte.
  destruct w, x;
    repeat (rewrite Z.land_spec || rewrite Z.lor_spec || rewrite not64_bit by lia);
    rewrite ?writable_bit, ?nx_bit by lia;
    repeat case_decide; repeat case_bool_decide; try lia; subst; simpl;
    rewrite ?orb_true_r, ?orb_false_r, ?andb_true_r, ?andb_false_r; done.
Qed.

Lemma protect_pte_same w x e : same_frame (protect_pte w x e) e.
Proof. intros i Hi H1 H2. rewrite protect_pte_bit by done. by rewrite !decide_False. Qed.

(** ** Walks *)

Definition same_tables (m m' : pmem) : Prop := ∀ a, same_frame (rd m a) (rd m' a).

#[global] Instance same_tables_equiv : Equivalence same_tables.
Proof.
  split.
  - intros m a. reflexivity.
  - intros m m' H a. symmetry. apply H.
  - intros m1 m2 m3 H1 H2 a. etrans; [apply H1|apply H2].
Qed.

Lemma rd_insert m a v b : rd (<[a := v]> m) b = if decide (a = b) then v else rd m b.
Proof. unfold rd. rewrite lookup_insert. by case_decide. Qed.

(** A walk sees neither permission bit. *)
#[global] Instance walk_l1_proper : Proper (same_tables ==> eq ==> eq ==> eq) walk_l1.
Proof.
  intros m m' H l4 ? <- va ? <-. unfold walk_l1. cbv zeta.
  assert (Hp : ∀ a, has (rd m a) PTE_PRESENT = has (rd m' a) PTE_PRESENT).
  { intros a. apply (same_frame_has _ _ 0); [apply H|lia..]. }
  assert (Hh : ∀ a, has (rd m a) PTE_HUGE = has (rd m' a) PTE_HUGE).
  { intros a. apply (same_frame_has _ _ 7); [apply H|lia..]. }
  assert (Ha : ∀ a, pte_addr (rd m a) = pte_addr (rd m' a)).
  { intros a. apply same_frame_addr, H. }
  rewrite Hp, Ha. destruct (negb _); [done|]. rewrite Hp, Hh, Ha. destruct (negb _ || _); [done|].
  rewrite Hp, Hh, Ha. done.
Qed.

(** ** Ranges and loops *)

Lemma elem_of_range a b i : i ∈ range a b ↔ a ≤ i < b.
Proof. unfold range. rewrite elem_of_seqZ. lia. Qed.

(** A page-aligned table below 2^63 is its own page of slots. *)
Definition page_words (a : Z) : list Z := slot a <$> range 0 512.

Lemma elem_of_page_words a w :
  0 ≤ a < 2 ^ 63 → w ∈ page_words a ↔ ∃ i, 0 ≤ i < 512 ∧ w = a + 8 * i.
Proof.
  intros Ha. unfold page_words. rewrite list_elem_of_fmap.
  split; intros (i & H1 & H2).
  - apply elem_of_range in H2. exists i. split; [done|]. rewrite H1. unfold slot.
    apply add64_small. unfold u64_modulus. lia.
  - exists i. split; [|by apply elem_of_range]. rewrite H2. unfold slot. symmetry.
    apply add64_small. unfold u64_modulus. lia.
Qed.

Lemma slot_in_page a i : 0 ≤ i < 512 → slot a i ∈ page_words a.
Proof. intros Hi. apply list_elem_of_fmap. exists i. split; [done|]. by apply elem_of_range. Qed.

Lemma foldl_insert_rd (f : pmem → Z → Z) (addr : Z → Z) l m w :
  (w ∉ addr <$> l) → rd (foldl (λ m i, <[addr i := f m i]> m) m l) w = rd m w.
Proof.
  revert m. induction l as [|i l IH]; intros m Hw; [done|]. simpl in *.
  rewrite not_elem_of_cons in Hw. rewrite IH by tauto. rewrite rd_insert.
  rewrite decide_False; [done|]. naive_solver.
Qed.

Lemma zero_page_other a m w : w ∉ page_words a → rd (zero_page a m) w = rd m w.
Proof. apply (foldl_insert_rd (λ _ _, 0)). Qed.

Lemma copy_page_other old new m w : w ∉ page_words new → rd (copy_page old new m) w = rd m w.
Proof. apply (foldl_insert_rd (λ m i, rd m (slot old i))). Qed.

Lemma zero_page_zero a m w : w ∈ page_words a → rd (zero_page a m) w = 0.
Proof.
  unfold zero_page, page_words. revert m. induction (range 0 512) as [|i l IH]; intros m Hw.
  { by apply elem_of_nil in Hw. }
  simpl in *. destruct (decide (w ∈ slot a <$> l)) as [H|H]; [by apply IH|].
  rewrite (foldl_insert_rd (λ _ _, 0)) by done. apply elem_of_cons in Hw as [->|?]; [|done].
  by rewrite rd_insert, decide_True.
Qed.

(** Copying a page between disjoint frames. *)
Lemma copy_page_copies old new m i :
  (∀ j k, 0 ≤ j < 512 → 0 ≤ k < 512 → slot old j ≠ slot new k) →
  (∀ j k, 0 ≤ j < 512 → 0 ≤ k < 512 → slot new j = slot new k → j = k) →
  0 ≤ i < 512 → rd (copy_page old new m) (slot new i) = rd m (slot old i).
Proof.
  intros Hd Hinj Hi. unfold copy_page.
  assert (Hl : ∀ j, j ∈ range 0 512 → 0 ≤ j < 512) by (intros j; apply elem_of_range).
  assert (Hil : i ∈ range 0 512) by (by apply elem_of_range). revert Hl Hil. revert m.
  assert (Hnd : NoDup (range 0 512)) by apply NoDup_seqZ. revert Hnd.
  induction (range 0 512) as [|j l IH]; intros Hnd m Hl Hil; [by apply elem_of_nil in Hil|].
  apply NoDup_cons in Hnd as [Hj Hnd]. cbn [foldl]. apply elem_of_cons in Hil as [->|Hil].
  - rewrite (foldl_insert_rd (λ m i, rd m (slot old i))).
    + by rewrite rd_insert, decide_True.
    + intros Hin. apply list_elem_of_fmap in Hin as (k & E & Hk).
      assert (j = k) by (apply Hinj; [done|apply Hl; set_solver|done]). by subst.
  - rewrite IH; [|done|set_solver|done]. rewrite rd_insert, decide_False; [done|].
    intros E. apply (Hd i j); [done|apply Hl; set_solver|done].
Qed.

Section loops.
Context {S : Type}.

Lemma for_all_bind (l : list Z) (g : Z → list Z) (h : Z → S → res S) s :
  for_all (l ≫= g) h s = for_all l (λ i, for_all (g i) h) s.
Proof.
  assert (Happ : ∀ l1 l2 s, for_all (l1 ++ l2) h s = (let! s' := for_all l1 h s in for_all l2 h s')).
  { induction l1 as [|j l1 IH]; intros l2 s0; simpl; [done|].
    destruct (h j s0); simpl; [apply IH|done|done]. }
  revert s. induction l as [|i l IH]; intros s; simpl; [done|]. rewrite Happ.
  destruct (for_all (g i) h s); simpl; [apply IH|done|done].
Qed.

(** Two bodies that agree where an invariant holds give the same loop. *)
Lemma for_all_ext (P : S → Prop) l (f g : Z → S → res S) s :
  P s → (∀ i s, P s → f i s = g i s) → (∀ i s s', P s → g i s = Ret s' → P s') →
  for_all l f s = for_all l g s.
Proof.
  intros Hs Hfg HP. revert s Hs. induction l as [|i l IH]; intros s Hs; simpl; [done|].
  rewrite Hfg by done. destruct (g i s) eqn:E; simpl; [|done|done]. by apply IH; eapply HP.
Qed.

Lemma for_all_inv (P : S → Prop) l (f : Z → S → res S) s s' :
  P s → (∀ i s s', P s → f i s = Ret s' → P s') → for_all l f s = Ret s' → P s'.
Proof.
  intros Hs HP. revert s Hs. induction l as [|i l IH]; intros s Hs; simpl; [by intros [= <-]|].
  destruct (f i s) eqn:E; simpl; [|done|done]. intros E'. eapply IH; [|done]. by eapply HP.
Qed.

Lemma loop_inv (P : S → Prop) l (f : Z → S → S) s :
  P s → (∀ i s, P s → P (f i s)) → P (loop l f s).
Proof. intros Hs HP. unfold loop. revert s Hs. induction l; intros s Hs; simpl; auto. Qed.
End loops.

(** ** Frames *)

(** A physical frame: page aligned and below the 52-bit address limit. *)
Definition frame_ok (f : Z) : Prop := 0 ≤ f < 2 ^ 52 ∧ f mod 2 ^ 12 = 0.

Lemma frame_bits f i : frame_ok f → 0 ≤ i → Z.testbit f i = true → 12 ≤ i < 52.
Proof.
  intros [[H0 H1] H2] Hi Hb. split.
  - destruct (decide (12 ≤ i)); [done|]. exfalso.
    rewrite <- (Z.mod_pow2_bits_low f 12 i), H2, Z.bits_0 in Hb by lia. done.
  - destruct (decide (i < 52)); [done|]. exfalso. assert (f ≠ 0) by (intros ->; by rewrite Z.bits_0 in Hb).
    assert (Z.log2 f < 52) by (apply Z.log2_lt_pow2; lia).
    rewrite Z.bits_above_log2 in Hb by lia. done.
Qed.

Lemma pte_addr_frame f : frame_ok f → pte_addr f = f.
Proof.
  intros Hf. apply Z.bits_inj'. intros i Hi. rewrite pte_addr_bit by done.
  destruct (Z.testbit f i) eqn:E; [|done]. by rewrite bool_decide_eq_true_2 by eauto using frame_bits.
Qed.

Lemma frame_page_words f : frame_ok f →
  ∀ w, w ∈ page_words f ↔ ∃ i, 0 ≤ i < 512 ∧ w = f + 8 * i.
Proof. intros [[H0 H1] _] w. apply elem_of_page_words. lia. Qed.

Lemma frame_slot f i : frame_ok f → 0 ≤ i < 512 → slot f i = f + 8 * i.
Proof. intros [[H0 H1] _] Hi. unfold slot. apply add64_small. unfold u64_modulus. lia. Qed.

(** Distinct frames have no word in common. *)
Lemma frames_disjoint f g w :
  frame_ok f → frame_ok g → f ≠ g → w ∈ page_words f → w ∈ page_words g → False.
Proof.
  intros Hf Hg Hne H1 H2. apply frame_page_words in H1 as (i & Hi & ->); [|done].
  apply frame_page_words in H2 as (j & Hj & E); [|done].
  destruct Hf as [_ Hf], Hg as [_ Hg]. change (2 ^ 12) with 4096 in *.
  pose proof (Z.div_mod f 4096 ltac:(lia)). pose proof (Z.div_mod g 4096 ltac:(lia)). lia.
Qed.

Lemma pte_addr_frame_ok e : frame_ok (pte_addr e).
Proof.
  assert (Hz : pte_addr e = Z.shiftl (Z.land (Z.shiftr e 12) (Z.ones 40)) 12).
  { apply Z.bits_inj'. intros i Hi. rewrite pte_addr_bit by done.
    rewrite Z.shiftl_spec by done. destruct (decide (12 ≤ i)).
    - rewrite Z.land_spec, Z.shiftr_spec, Z.testbit_ones by lia.
      replace (i - 12 + 12) with i by lia. f_equal.
      case_bool_decide; destruct (Z.leb_spec 0 (i - 12)), (Z.ltb_spec (i - 12) 40); lia || done.
    - rewrite bool_decide_eq_false_2, andb_false_r by lia. rewrite Z.testbit_neg_r by lia. done. }
  rewrite Hz, Z.shiftl_mul_pow2 by lia. rewrite Z.land_ones by lia.
  pose proof (Z.mod_pos_bound (Z.shiftr e 12) (2 ^ 40) ltac:(lia)). split.
  - lia.
  - apply Z.mod_mul. lia.
Qed.

(** The entry a write fault installs. *)
Definition private_pte (f e : Z) : Z :=
  Z.lor f (Z.lor (Z.land (Z.land e (not64 PTE_ADDR_MASK)) (not64 PTE_COW)) PTE_WRITABLE).

Lemma private_pte_bit f e i : 0 ≤ i < 64 → Z.testbit (private_pte f e) i =
  Z.testbit f i || ((Z.testbit e i && negb (bool_decide (12 ≤ i < 52)) && negb (bool_decide (i = 9)))
    || bool_decide (i = 1)).
Proof.
  intros Hi. unfold private_pte.
  rewrite !Z.lor_spec, !Z.land_spec, !not64_bit by lia. rewrite !decide_True by lia.
  by rewrite addr_mask_bit, cow_bit, writable_bit by lia.
Qed.

Lemma private_pte_spec f e :
  frame_ok f → pte_addr (private_pte f e) = f ∧ has (private_pte f e) PTE_WRITABLE = true ∧
    has (private_pte f e) PTE_COW = false ∧
    has (private_pte f e) PTE_PRESENT = has e PTE_PRESENT.
Proof.
  intros Hf. pose proof (frame_bits f) as Hb.
  assert (Hlow : ∀ i, 0 ≤ i < 12 → Z.testbit f i = false).
  { intros i Hi. destruct (Z.testbit f i) eqn:E; [|done]. apply Hb in E; [lia|done|lia]. }
  split_and!.
  - apply Z.bits_inj'. intros i Hi. rewrite pte_addr_bit by done.
    destruct (decide (12 ≤ i < 52)) as [H|H].
    + rewrite private_pte_bit by lia. rewrite !(bool_decide_eq_true_2 _ H).
      rewrite bool_decide_eq_false_2 by lia. simpl.
      by rewrite andb_false_r, (bool_decide_eq_false_2 (i = 1)), orb_false_r, andb_true_r by lia.
    + rewrite (bool_decide_eq_false_2 _ H), andb_false_r.
      destruct (Z.testbit f i) eqn:E; [|done]. exfalso. apply H. by apply Hb.
  - rewrite has_writable, private_pte_bit by lia. by rewrite !orb_true_r.
  - rewrite has_cow, private_pte_bit by lia. rewrite Hlow by lia. by rewrite !andb_false_r.
  - rewrite !has_present, private_pte_bit by lia. rewrite Hlow by lia. simpl.
    by rewrite !andb_true_r, orb_false_r.
Qed.
