(* ===== verification/VmmProps.v ===== *)
(** What the virtual memory manager promises about copy-on-write, protection
    changes and address-space release, and where it does not keep it. *)
From stdpp Require Import base numbers list gmap sets strings.
From S2P Require Import Prelude Pmm PmmFacts PmmProps FrameAlloc Vmm VmmFacts.

Section vmm_props.
Context {A : Type} {FA : FrameAllocator A}.
Implicit Types s : Vm A.

(** ** Write faults *)

(** The fault reaches a present copy-on-write entry at [p]. *)
Definition cow_fault_at (s : Vm A) (cr2 p : Z) : Prop :=
  walk_l1 (vm_mem s) (cr3_base (vm_cr3 s)) cr2 = Some p ∧
  has (rd (vm_mem s) p) PTE_PRESENT = true ∧ has (rd (vm_mem s) p) PTE_COW = true.

(** Free frames are frames, and neither the entry nor its frame is free. *)
Definition cow_env (s : Vm A) (F O : gset Z) (p : Z) : Prop :=
  fa_rep (vm_frames s) F O ∧ (∀ f, f ∈ F → frame_ok f ∧ p ∉ page_words f) ∧
  pte_addr (rd (vm_mem s) p) ∉ F.

Lemma cow_fault_sole s cr2 p :
  cow_fault_at s cr2 p →
  (∀ rc, COW_REFS s !! pte_addr (rd (vm_mem s) p) = Some rc → rc ≤ 1) →
  cow_page_fault cr2 s = Ret (true,
    write_pte p (private_pte (pte_addr (rd (vm_mem s) p)) (rd (vm_mem s) p))
      (set_cow (delete (pte_addr (rd (vm_mem s) p)) (COW_REFS s)) s)).
Proof.
  intros (Hw & Hp & Hc) Hrc. unfold cow_page_fault. rewrite Hw, Hp, Hc. cbv zeta.
  cbn [negb]. destruct (COW_REFS s !! _) as [rc|] eqn:E.
  - rewrite decide_False by (apply Z.le_ngt; by apply Hrc). by rewrite decide_True.
  - by rewrite decide_True.
Qed.

Lemma cow_fault_shared s cr2 p rc :
  cow_fault_at s cr2 p → COW_REFS s !! pte_addr (rd (vm_mem s) p) = Some rc → 1 < rc →
  let old := pte_addr (rd (vm_mem s) p) in
  let s1 := set_cow (<[old := rc - 1]> (COW_REFS s)) s in
  cow_page_fault cr2 s = (let! (o, a) := fa_alloc (vm_frames s) in
    match o with
    | None => Ret (false, set_frames a s1)
    | Some f => Ret (true, write_pte p (private_pte f (rd (vm_mem s) p))
                  (set_mem (copy_page old f (vm_mem s)) (set_frames a s1)))
    end).
Proof.
  intros (Hw & Hp & Hc) Hrc Hgt. cbv zeta. unfold cow_page_fault. rewrite Hw, Hp, Hc. cbv zeta.
  cbn [negb]. rewrite Hrc, decide_True by done. rewrite decide_False by lia.
  unfold vm_alloc_frame. cbn [vm_frames set_cow].
  destruct (fa_alloc (vm_frames s)) as [[[f|] a]| |]; done.
Qed.

(** C9. A copy-on-write fault gives the faulting process a writable entry onto a
    frame with the old contents and no other word of memory outside that entry
    and a fresh frame changes: in place when it is the last owner, else on a
    free frame with the shared count one lower. It reports failure only when
    memory is out. *)
Theorem cow_fault_correct s F O cr2 p :
  cow_fault_at s cr2 p → cow_env s F O p →
  let old := pte_addr (rd (vm_mem s) p) in
  let rc := default 1 (COW_REFS s !! old) in
  (rc ≤ 1 → ∃ s', cow_page_fault cr2 s = Ret (true, s') ∧ vm_frames s' = vm_frames s ∧
     COW_REFS s' = delete old (COW_REFS s) ∧
     pte_addr (rd (vm_mem s') p) = old ∧ has (rd (vm_mem s') p) PTE_WRITABLE = true ∧
     has (rd (vm_mem s') p) PTE_COW = false ∧ has (rd (vm_mem s') p) PTE_PRESENT = true ∧
     ∀ w, w ≠ p → rd (vm_mem s') w = rd (vm_mem s) w) ∧
  (1 < rc →
     (F = ∅ ∧ ∃ s', cow_page_fault cr2 s = Ret (false, s') ∧ vm_mem s' = vm_mem s) ∨
     (∃ f s', f ∈ F ∧ cow_page_fault cr2 s = Ret (true, s') ∧
        fa_rep (vm_frames s') (F ∖ {[f]}) ({[f]} ∪ O) ∧
        COW_REFS s' = <[old := rc - 1]> (COW_REFS s) ∧
        pte_addr (rd (vm_mem s') p) = f ∧ has (rd (vm_mem s') p) PTE_WRITABLE = true ∧
        has (rd (vm_mem s') p) PTE_COW = false ∧ has (rd (vm_mem s') p) PTE_PRESENT = true ∧
        (∀ i, 0 ≤ i < 512 → rd (vm_mem s') (slot f i) = rd (vm_mem s) (slot old i)) ∧
        ∀ w, w ≠ p → (w ∉ page_words f) → rd (vm_mem s') w = rd (vm_mem s) w)).
Proof.
  intros Hf (Hr & HF & Hold). cbv zeta. pose proof Hf as (_ & Hp & _).
  set (e := rd (vm_mem s) p) in *. pose proof (pte_addr_frame_ok e) as Hok. split; intros Hrc.
  - eexists. split; [apply (cow_fault_sole _ _ _ Hf)|].
    { intros rc E. fold e in E. by rewrite E in Hrc. }
    fold e. split; [done|]. split; [done|]. cbn [vm_mem write_pte set_mem set_cow].
    destruct (private_pte_spec _ e Hok) as (H1 & H2 & H3 & H4).
    rewrite rd_insert, decide_True by done. split_and!; [done..|by rewrite H4|].
    intros w Hw. by rewrite rd_insert, decide_False.
  - destruct (COW_REFS s !! pte_addr e) as [rc|] eqn:Erc; simpl in Hrc; [|lia].
    pose proof (cow_fault_shared s cr2 p rc Hf Erc Hrc) as E. cbv zeta in E. fold e in E.
    destruct (fa_alloc_spec _ _ _ Hr) as [[Ea HFe]|(f & a & Ea & Hfin & Hr')]; rewrite Ea in E;
      cbn [res_bind] in E; [left|right].
    + split; [done|]. eexists. by split.
    + exists f. eexists. destruct (HF f Hfin) as [Hfok Hpf].
      assert (Hne : pte_addr e ≠ f) by congruence.
      destruct (private_pte_spec f e Hfok) as (H1 & H2 & H3 & H4).
      split; [done|]. split; [exact E|]. cbn [vm_mem write_pte set_mem set_cow set_frames vm_frames COW_REFS].
      rewrite rd_insert, decide_True by done. split_and!; [done..|by rewrite H4| |].
      * intros i Hi. rewrite rd_insert, decide_False.
        2:{ intros ->. by apply Hpf, slot_in_page. }
        apply copy_page_copies; [| |done].
        -- intros j k Hj Hk Ejk. apply (frames_disjoint (pte_addr e) f (slot f k)); [done..| |].
           ++ rewrite <- Ejk. by apply slot_in_page.
           ++ by apply slot_in_page.
        -- intros j k Hj Hk. rewrite !frame_slot by done. lia.
      * intros w Hw Hwf. rewrite rd_insert, decide_False by done. by apply copy_page_other.
Qed.

(** A fault that fails for lack of memory still gives up the process's share:
    with two owners and no free frame, the retried fault takes the frame for the
    last owner's and makes it writable in place, while every other entry that
    maps it is untouched. *)
Theorem cow_oom_breaks_sharing s O cr2 p :
  cow_fault_at s cr2 p → cow_env s ∅ O p →
  COW_REFS s !! pte_addr (rd (vm_mem s) p) = Some 2 →
  ∃ s1 s2, cow_page_fault cr2 s = Ret (false, s1) ∧ cow_page_fault cr2 s1 = Ret (true, s2) ∧
    pte_addr (rd (vm_mem s2) p) = pte_addr (rd (vm_mem s) p) ∧
    has (rd (vm_mem s2) p) PTE_WRITABLE = true ∧
    ∀ q, q ≠ p → rd (vm_mem s2) q = rd (vm_mem s) q.
Proof.
  intros Hf (Hr & HF & Hold) Hrc.
  pose proof (cow_fault_shared s cr2 p 2 Hf Hrc ltac:(lia)) as E. cbv zeta in E.
  destruct (fa_alloc_spec _ _ _ Hr) as [[Ea _]|(f & a & _ & Hfin & _)]; [|set_solver].
  rewrite Ea in E. cbn [res_bind] in E. eexists _, _. split; [exact E|].
  split; [apply cow_fault_sole; [exact Hf|]|].
  - cbn [vm_mem set_frames set_cow COW_REFS]. intros rc. rewrite lookup_insert_eq. intros [= <-]. lia.
  - cbn [vm_mem set_frames set_cow write_pte set_mem].
    destruct (private_pte_spec _ (rd (vm_mem s) p) (pte_addr_frame_ok (rd (vm_mem s) p))) as (H1 & H2 & _).
    rewrite rd_insert, decide_True by done. split_and!; [done..|].
    intros q Hq. by rewrite rd_insert, decide_False.
Qed.

(** ** Protection changes *)

(** What a protection change leaves alone. *)
Definition same_but_perms (s s' : Vm A) : Prop :=
  same_tables (vm_mem s) (vm_mem s') ∧ vm_frames s' = vm_frames s ∧ COW_REFS s' = COW_REFS s ∧
  vm_cr3 s' = vm_cr3 s.

#[local] Instance same_but_perms_preorder : PreOrder same_but_perms.
Proof.
  split.
  - intros s. split_and!; reflexivity.
  - intros s1 s2 s3 (H1 & H2 & H3 & H4) (H5 & H6 & H7 & H8). split_and!; [by etrans|congruence..].
Qed.

Lemma protect_page_same w x a s : same_but_perms s (protect_page w x a s).
Proof.
  unfold protect_page. destruct (walk_l1 _ _ _) as [p|]; [|reflexivity].
  destruct (negb _); [reflexivity|]. split_and!; try reflexivity.
  intros b. cbn [vm_mem write_pte set_mem]. rewrite rd_insert. case_decide; [|reflexivity].
  subst. symmetry. apply protect_pte_same.
Qed.

(** The entry has the requested permissions. *)
Definition has_perms (w x : bool) (e : Z) : Prop :=
  has e PTE_WRITABLE = w ∧ has e PTE_NX = negb x.

Lemma protect_pte_perms w x e : has_perms w x (protect_pte w x e).
Proof. unfold has_perms. rewrite has_writable, has_nx, !protect_pte_bit by lia. done. Qed.

Lemma protect_page_keeps w x a s p :
  has_perms w x (rd (vm_mem s) p) → has_perms w x (rd (vm_mem (protect_page w x a s)) p).
Proof.
  intros H. unfold protect_page. destruct (walk_l1 _ _ _) as [q|]; [|done].
  destruct (negb _); [done|]. cbn [vm_mem write_pte set_mem]. rewrite rd_insert.
  case_decide; [|done]. apply protect_pte_perms.
Qed.

Lemma protect_page_sets w x a s p :
  walk_l1 (vm_mem s) (cr3_base (vm_cr3 s)) a = Some p → has (rd (vm_mem s) p) PTE_PRESENT = true →
  has_perms w x (rd (vm_mem (protect_page w x a s)) p).
Proof.
  intros Hw Hp. unfold protect_page. rewrite Hw, Hp. cbn [negb vm_mem write_pte set_mem].
  rewrite rd_insert, decide_True by done. apply protect_pte_perms.
Qed.

Lemma protect_loop_spec n w x addr last s :
  0 ≤ addr → last - addr ≤ PAGE_SIZE * Z.of_nat n → last + PAGE_SIZE ≤ u64_modulus →
  ∃ s', protect_loop n w x addr last s = Ret s' ∧ same_but_perms s s' ∧
    (∀ p, has_perms w x (rd (vm_mem s) p) → has_perms w x (rd (vm_mem s') p)) ∧
    ∀ k p, 0 ≤ k → addr + PAGE_SIZE * k < last →
      walk_l1 (vm_mem s) (cr3_base (vm_cr3 s)) (addr + PAGE_SIZE * k) = Some p →
      has (rd (vm_mem s) p) PTE_PRESENT = true → has_perms w x (rd (vm_mem s') p).
Proof.
  revert addr s. induction n as [|n IH]; intros addr s Ha Hn Hl; cbn [protect_loop];
    case_decide as Hlt; try (unfold PAGE_SIZE in *; lia);
    try (eexists; split_and!; [reflexivity..|done|]; intros; unfold PAGE_SIZE in *; lia).
  assert (Hadd : add64 addr PAGE_SIZE = addr + PAGE_SIZE) by (apply add64_small; unfold PAGE_SIZE in *; lia).
  rewrite Hadd. set (s1 := protect_page w x addr s).
  destruct (IH (addr + PAGE_SIZE) s1) as (s' & E & Hsame & Hk & Hset);
    [unfold PAGE_SIZE in *; lia..|]. pose proof (protect_page_same w x addr s) as Hs1. fold s1 in Hs1.
  exists s'. split; [done|]. split; [by etrans|]. split.
  { intros p Hp. by apply Hk, protect_page_keeps. }
  intros k p Hk0 Hklt Hw Hp. destruct (decide (k = 0)) as [->|].
  - rewrite Z.mul_0_r, Z.add_0_r in Hw. apply Hk. by apply protect_page_sets.
  - destruct Hs1 as (Ht & _ & _ & Hc). apply (Hset (k - 1)); [lia|lia| |].
    + rewrite <- Ht, Hc. replace (addr + PAGE_SIZE + PAGE_SIZE * (k - 1)) with (addr + PAGE_SIZE * k) by lia.
      done.
    + rewrite <- Hp. symmetry. apply (same_frame_has _ _ 0); [apply Ht|lia..].
Qed.

Lemma page_base v : is_u64 v →
  0 ≤ Z.land v (not64 (PAGE_SIZE - 1)) ≤ v ∧ v - Z.land v (not64 (PAGE_SIZE - 1)) < PAGE_SIZE.
Proof.
  intros Hv. assert (E : Z.land v (not64 (PAGE_SIZE - 1)) = v - v mod 2 ^ 12).
  { assert (E' : Z.land v (not64 (PAGE_SIZE - 1)) = Z.ldiff v (Z.ones 12)).
    { apply Z.bits_inj'. intros i Hi. rewrite Z.land_spec, Z.ldiff_spec, not64_bit by done.
      change (PAGE_SIZE - 1) with (Z.ones 12). case_decide; [done|].
      by rewrite (u64_bits_high v) by (done || lia). }
    rewrite E', Z.ldiff_ones_r, Z.shiftl_mul_pow2, Z.shiftr_div_pow2 by lia.
    rewrite Z.mod_eq by lia. lia. }
  rewrite E. pose proof (Z.mod_pos_bound v (2 ^ 12) ltac:(lia)) as Hb. unfold is_u64 in Hv.
  pose proof (Z.mod_le v (2 ^ 12) ltac:(lia) ltac:(lia)). unfold PAGE_SIZE. lia.
Qed.

Lemma protect_fuel_enough v len : is_u64 v → 0 ≤ len →
  v + len - Z.land v (not64 (PAGE_SIZE - 1)) ≤ PAGE_SIZE * Z.of_nat (protect_fuel len).
Proof.
  intros Hv Hl. destruct (page_base v Hv) as [H1 H2]. unfold protect_fuel.
  pose proof (Z.div_pos len PAGE_SIZE Hl ltac:(done)).
  pose proof (Z.div_mod len PAGE_SIZE ltac:(done)) as Hd.
  pose proof (Z.mod_pos_bound len PAGE_SIZE ltac:(done)). unfold PAGE_SIZE in *. lia.
Qed.

(** Changing the protection of a user range terminates and sets exactly the
    requested permissions on every present page of it; no walk, frame, other bit
    of an entry, reference count or other table changes, whatever the tables
    share. *)
Theorem protect_range_correct vaddr len w x s :
  is_u64 vaddr → 0 ≤ len → vaddr + len + PAGE_SIZE ≤ u64_modulus →
  ∃ s', update_user_pte_flags vaddr len w x s = Ret s' ∧ same_but_perms s s' ∧
    ∀ k p, let va := Z.land vaddr (not64 (PAGE_SIZE - 1)) + PAGE_SIZE * k in
      0 ≤ k → va < vaddr + len →
      walk_l1 (vm_mem s) (cr3_base (vm_cr3 s)) va = Some p →
      has (rd (vm_mem s) p) PTE_PRESENT = true →
      walk_l1 (vm_mem s') (cr3_base (vm_cr3 s')) va = Some p ∧ has_perms w x (rd (vm_mem s') p).
Proof.
  intros Hv Hl Hb. unfold update_user_pte_flags. destruct (page_base vaddr Hv) as [H1 H2].
  rewrite add64_small by (unfold is_u64, PAGE_SIZE in *; lia).
  destruct (protect_loop_spec (protect_fuel len) w x (Z.land vaddr (not64 (PAGE_SIZE - 1)))
    (vaddr + len) s) as (s' & E & Hs & _ & Hset); [lia| |lia|].
  { by apply protect_fuel_enough. }
  exists s'. split; [done|]. split; [done|]. intros k p. cbv zeta. intros Hk Hlt Hw Hp.
  split; [|by eapply Hset]. destruct Hs as (Ht & _ & _ & ->). by rewrite <- Ht.
Qed.

(** Making a range writable also sets the hardware write bit of a copy-on-write
    page in it, keeps it on the shared frame and leaves its reference count: the
    next write goes straight to the frame the other owners still map. *)
Theorem mprotect_defeats_cow vaddr len x s p :
  is_u64 vaddr → 0 < len → vaddr + len + PAGE_SIZE ≤ u64_modulus →
  cow_fault_at s (Z.land vaddr (not64 (PAGE_SIZE - 1))) p →
  ∃ s', update_user_pte_flags vaddr len true x s = Ret s' ∧
    has (rd (vm_mem s') p) PTE_WRITABLE = true ∧ has (rd (vm_mem s') p) PTE_COW = true ∧
    has (rd (vm_mem s') p) PTE_PRESENT = true ∧
    pte_addr (rd (vm_mem s') p) = pte_addr (rd (vm_mem s) p) ∧ COW_REFS s' = COW_REFS s.
Proof.
  intros Hv Hl Hb (Hw & Hp & Hc). destruct (page_base vaddr Hv) as [H1 H2].
  unfold update_user_pte_flags. rewrite add64_small by (unfold is_u64, PAGE_SIZE in *; lia).
  destruct (protect_loop_spec (protect_fuel len) true x (Z.land vaddr (not64 (PAGE_SIZE - 1)))
    (vaddr + len) s) as (s' & E & Hs & _ & Hset); [lia| |lia|].
  { apply protect_fuel_enough; [done|lia]. }
  destruct Hs as (Ht & _ & Href & _).
  destruct (Hset 0 p) as [Hw' _]; [lia|lia|by rewrite Z.mul_0_r, Z.add_0_r|done|].
  exists s'. split_and!; [done|done| | | |done].
  - rewrite <- Hc. symmetry. apply (same_frame_has _ _ 9); [apply Ht|lia..].
  - rewrite <- Hp. symmetry. apply (same_frame_has _ _ 0); [apply Ht|lia..].
  - symmetry. apply same_frame_addr, Ht.
Qed.

(** ** Releasing an address space *)

(** The level-1 entries reachable through present, non-huge entries, in the
    order of the walk. *)
Definition entries_below (m : pmem) (huge_check : bool) (k : Z → list Z) (table i : Z) : list Z :=
  let e := rd m (slot table i) in
  if negb (has e PTE_PRESENT) || (huge_check && has e PTE_HUGE) then [] else k (pte_addr e).

Definition leaf_slots (m : pmem) (l4 : Z) : list Z :=
  range 0 256 ≫= entries_below m false (λ l3,
    range 0 512 ≫= entries_below m true (λ l2,
      range 0 512 ≫= entries_below m true (λ l1, slot l1 <$> range 0 512) l2) l3) l4.

(** The frames of the present copy-on-write entries of an address space. *)
Definition cow_leaves (m : pmem) (l4 : Z) : list Z :=
  pte_addr <$> filter (λ e, has e PTE_PRESENT && has e PTE_COW = true) (rd m <$> leaf_slots m l4).

Lemma release_leaf_mem p s s' : release_leaf p s = Ret s' → vm_mem s' = vm_mem s.
Proof.
  unfold release_leaf. destruct (negb _); [by intros [= <-]|]. destruct (negb _); [by intros [= <-]|].
  cbv zeta. destruct (COW_REFS s !! _) as [rc|]; [|by intros [= <-]]. case_decide.
  - cbn [vm_frames set_cow]. destruct (fa_free _ _); [|done..]. cbn [res_bind]. by intros [= <-].
  - by intros [= <-].
Qed.

Lemma below_entry_leaves m hc (f : Z → Vm A → res (Vm A)) g h table i s :
  vm_mem s = m → (∀ t s, vm_mem s = m → f t s = for_all (g t) h s) →
  below_entry hc f table i s = for_all (entries_below m hc g table i) h s.
Proof.
  intros <- Hf. unfold below_entry, entries_below. cbv zeta. destruct (negb _ || _); [done|]. by apply Hf.
Qed.

Lemma for_all_mem l (h : Z → Vm A → res (Vm A)) s s' m :
  (∀ i s s', h i s = Ret s' → vm_mem s' = vm_mem s) → vm_mem s = m →
  for_all l h s = Ret s' → vm_mem s' = m.
Proof.
  intros Hh Hm. apply (for_all_inv (λ s, vm_mem s = m)); [done|].
  intros i s1 s2 H E. by rewrite (Hh _ _ _ E).
Qed.

Lemma for_all_leaves m l (f : Z → Vm A → res (Vm A)) (g : Z → list Z) h s :
  vm_mem s = m → (∀ i s s', h i s = Ret s' → vm_mem s' = vm_mem s) →
  (∀ i s, vm_mem s = m → f i s = for_all (g i) h s) →
  for_all l f s = for_all (l ≫= g) h s.
Proof.
  intros Hm Hh Hf. rewrite for_all_bind. apply (for_all_ext (λ s, vm_mem s = m)); [done|done|].
  intros i s1 s2 H E. by eapply for_all_mem.
Qed.

Lemma release_walk cr3 s :
  release_user_cow_refs cr3 s = for_all (leaf_slots (vm_mem s) (cr3_base cr3)) release_leaf s.
Proof.
  unfold release_user_cow_refs, leaf_slots.
  set (m := vm_mem s). assert (Hm : vm_mem s = m) by done. clearbody m. revert s Hm.
  assert (Hrl := release_leaf_mem).
  assert (H1 : ∀ l1 s, vm_mem s = m → for_all (range 0 512) (λ i, release_leaf (slot l1 i)) s =
    for_all (slot l1 <$> range 0 512) release_leaf s).
  { intros l1 s _. generalize (range 0 512). intros l. revert s.
    induction l as [|i l IH]; intros s; [done|]. cbn [for_all fmap list_fmap].
    destruct (release_leaf (slot l1 i) s); cbn [res_bind]; [apply IH|done|done]. }
  intros s Hm. apply (for_all_leaves m); [done|done|]. intros i s1 Hm1.
  apply below_entry_leaves; [done|]. intros l3 s2 Hm2. apply (for_all_leaves m); [done|done|].
  intros j s3 Hm3. apply below_entry_leaves; [done|]. intros l2 s4 Hm4.
  apply (for_all_leaves m); [done|done|]. intros k s5 Hm5. by apply below_entry_leaves.
Qed.

(** Giving up one reference to each frame of a list. *)
Definition release_frame (f : Z) (s : Vm A) : res (Vm A) :=
  match COW_REFS s !! f with
  | Some rc =>
      if decide (rc ≤ 1) then
        let! a := fa_free f (vm_frames s) in Ret (set_frames a (set_cow (delete f (COW_REFS s)) s))
      else Ret (set_cow (<[f := rc - 1]> (COW_REFS s)) s)
  | None => Ret s
  end.

Lemma release_frame_mem f s s' : release_frame f s = Ret s' → vm_mem s' = vm_mem s.
Proof.
  unfold release_frame. destruct (COW_REFS s !! f) as [rc|]; [|by intros [= <-]]. case_decide.
  - destruct (fa_free _ _); [|done..]. cbn [res_bind]. by intros [= <-].
  - by intros [= <-].
Qed.

Lemma release_leaves m l s : vm_mem s = m →
  for_all l release_leaf s =
  for_all (pte_addr <$> filter (λ e, has e PTE_PRESENT && has e PTE_COW = true) (rd m <$> l))
    release_frame s.
Proof.
  revert s. induction l as [|p l IH]; intros s Hm; [done|]. cbn [fmap list_fmap for_all].
  rewrite filter_cons. unfold release_leaf at 1. rewrite Hm.
  destruct (has (rd m p) PTE_PRESENT), (has (rd m p) PTE_COW); cbn [negb andb];
    try (rewrite decide_False by done; by apply IH).
  rewrite decide_True by done. cbn [fmap list_fmap for_all].
  assert (E : (match COW_REFS s !! pte_addr (rd m p) with
    | Some rc => if decide (rc ≤ 1) then
        let s0 := set_cow (delete (pte_addr (rd m p)) (COW_REFS s)) s in
        let! a := fa_free (pte_addr (rd m p)) (vm_frames s0) in Ret (set_frames a s0)
      else Ret (set_cow (<[pte_addr (rd m p) := rc - 1]> (COW_REFS s)) s)
    | None => Ret s end) = release_frame (pte_addr (rd m p)) s).
  { unfold release_frame. destruct (COW_REFS s !! _); [|done]. by case_decide. }
  cbv zeta in *. rewrite E. destruct (release_frame _ s) as [s'| |] eqn:E'; [|done|done].
  cbn [res_bind]. apply IH. by rewrite (release_frame_mem _ _ _ E').
Qed.

(** The references an address space holds on a frame. *)
Definition refs_in (f : Z) (ps : list Z) : Z := Z.of_nat (length (filter (f =.) ps)).

Lemma refs_in_cons f p ps : refs_in f (p :: ps) = (if decide (f = p) then 1 else 0) + refs_in f ps.
Proof. unfold refs_in. rewrite filter_cons. repeat case_decide; simpl; lia || congruence. Qed.

Lemma refs_in_nonneg f ps : 0 ≤ refs_in f ps.
Proof. unfold refs_in. lia. Qed.

(** What is left of a count [o] after [n] references are given up. *)
Definition refs_left (o : option Z) (n : Z) : option Z :=
  match o with
  | Some rc => if decide (n < rc) then Some (rc - n) else None
  | None => None
  end.

(** Counts are positive, and the counted frames are handed out. *)
Definition refs_ok (s : Vm A) (O : gset Z) : Prop :=
  ∀ f rc, COW_REFS s !! f = Some rc → 1 ≤ rc ∧ f ∈ O.

Lemma refs_left_zero s O f : refs_ok s O → COW_REFS s !! f = refs_left (COW_REFS s !! f) 0.
Proof.
  intros Hok. destruct (COW_REFS s !! f) as [rc|] eqn:E; [|done]. simpl. destruct (Hok _ _ E).
  rewrite decide_True by lia. f_equal. lia.
Qed.

(** One reference to a frame is given up; the frames [D] go back. *)
Lemma release_frame_spec p s F O :
  fa_rep (vm_frames s) F O → refs_ok s O →
  ∃ s1 D, release_frame p s = Ret s1 ∧ vm_mem s1 = vm_mem s ∧
    (∀ f, COW_REFS s1 !! f = refs_left (COW_REFS s !! f) (if decide (f = p) then 1 else 0)) ∧
    D = dom (COW_REFS s) ∖ dom (COW_REFS s1) ∧ fa_rep (vm_frames s1) (F ∪ D) (O ∖ D) ∧
    refs_ok s1 (O ∖ D).
Proof.
  intros Hr Hok. unfold release_frame.
  assert (Hz : ∀ f, COW_REFS s !! f = refs_left (COW_REFS s !! f) 0) by (intros f; by eapply refs_left_zero).
  destruct (COW_REFS s !! p) as [rc|] eqn:E.
  2:{ exists s, ∅. rewrite difference_diag_L, union_empty_r_L, difference_empty_L. split_and!; try done.
      intros f. case_decide; [subst; by rewrite E|apply Hz]. }
  destruct (Hok _ _ E) as [Hrc Hin].
  assert (p ∈ dom (COW_REFS s)) by (by apply elem_of_dom_2 in E). case_decide as Hle.
  - destruct (fa_free_spec _ _ _ p Hr Hin) as (a & Ea & Hra). rewrite Ea. cbn [res_bind].
    eexists _, {[p]}. split; [done|]. cbn [vm_mem set_frames set_cow COW_REFS vm_frames].
    assert (HD : {[p]} = dom (COW_REFS s) ∖ dom (delete p (COW_REFS s))).
    { rewrite dom_delete_L. apply set_eq. intros x. destruct (decide (x = p)); set_solver. }
    rewrite (union_comm_L F). split_and!; [done| |done|done|].
    + intros f. rewrite lookup_delete. case_decide; subst.
      * rewrite decide_True by done. rewrite E. simpl. by rewrite decide_False by lia.
      * rewrite decide_False by done. apply Hz.
    + intros f r. cbn [COW_REFS set_frames set_cow]. rewrite lookup_delete_Some. intros [Hne Hf].
      destruct (Hok _ _ Hf). set_solver.
  - eexists _, ∅. split; [done|]. cbn [vm_mem set_cow COW_REFS vm_frames].
    rewrite union_empty_r_L, difference_empty_L. split_and!; [done| | |done|].
    + intros f. rewrite lookup_insert. case_decide; subst.
      * rewrite decide_True by done. rewrite E. simpl. by rewrite decide_True by lia.
      * rewrite decide_False by done. apply Hz.
    + rewrite dom_insert_L. set_solver.
    + intros f r. cbn [COW_REFS set_cow]. rewrite lookup_insert. case_decide; [|apply Hok].
      intros [= <-]. subst. split; [lia|done].
Qed.

Lemma refs_left_dom o n : is_Some (refs_left o n) → is_Some o.
Proof. destruct o; [eauto|by intros [? ?]]. Qed.

Lemma release_frames_spec ps s F O :
  fa_rep (vm_frames s) F O → refs_ok s O →
  ∃ s', for_all ps release_frame s = Ret s' ∧ vm_mem s' = vm_mem s ∧
    (∀ f, COW_REFS s' !! f = refs_left (COW_REFS s !! f) (refs_in f ps)) ∧
    fa_rep (vm_frames s') (F ∪ (dom (COW_REFS s) ∖ dom (COW_REFS s')))
      (O ∖ (dom (COW_REFS s) ∖ dom (COW_REFS s'))) ∧
    refs_ok s' (O ∖ (dom (COW_REFS s) ∖ dom (COW_REFS s'))).
Proof.
  revert s F O. induction ps as [|p ps IH]; intros s F O Hr Hok; cbn [for_all].
  { exists s. rewrite difference_diag_L, union_empty_r_L, difference_empty_L. split_and!; try done.
    intros f. by eapply refs_left_zero. }
  destruct (release_frame_spec p s F O Hr Hok) as (s1 & D & E1 & Hm1 & Hc1 & HD & Hr1 & Hok1).
  rewrite E1. cbn [res_bind].
  destruct (IH s1 _ _ Hr1 Hok1) as (s' & E' & Hm' & Hc' & Hr' & Hok'). exists s'.
  assert (Hsub : dom (COW_REFS s1) ⊆ dom (COW_REFS s)).
  { intros x Hx. apply elem_of_dom in Hx. rewrite Hc1 in Hx. apply elem_of_dom. by eapply refs_left_dom. }
  assert (Hsub' : dom (COW_REFS s') ⊆ dom (COW_REFS s1)).
  { intros x Hx. apply elem_of_dom in Hx. rewrite Hc' in Hx. apply elem_of_dom. by eapply refs_left_dom. }
  set (D1 := dom (COW_REFS s1) ∖ dom (COW_REFS s')) in *.
  assert (HDD : D ∪ D1 = dom (COW_REFS s) ∖ dom (COW_REFS s')).
  { subst D D1. apply set_eq. intros x. specialize (Hsub x). specialize (Hsub' x).
    destruct (decide (x ∈ dom (COW_REFS s1))); set_solver. }
  rewrite <- HDD. replace (O ∖ (D ∪ D1)) with (O ∖ D ∖ D1) by set_solver.
  split_and!; [done|congruence| |by rewrite (assoc_L (∪))|done].
  intros f. rewrite Hc', Hc1, refs_in_cons. pose proof (refs_in_nonneg f ps).
  destruct (COW_REFS s !! f) as [rc|]; [|done]. simpl. repeat case_decide; simpl;
    repeat case_decide; try lia; try done; f_equal; lia.
Qed.

(** When a process exits, every frame it shares copy-on-write loses exactly as
    many references as the process held on it, and exactly the frames nobody
    refers to any more go back to the frame allocator, each once. *)
Theorem release_correct cr3 s F O :
  fa_rep (vm_frames s) F O → refs_ok s O →
  ∃ s', release_user_cow_refs cr3 s = Ret s' ∧ vm_mem s' = vm_mem s ∧
    (∀ f, COW_REFS s' !! f =
       refs_left (COW_REFS s !! f) (refs_in f (cow_leaves (vm_mem s) (cr3_base cr3)))) ∧
    fa_rep (vm_frames s') (F ∪ (dom (COW_REFS s) ∖ dom (COW_REFS s')))
      (O ∖ (dom (COW_REFS s) ∖ dom (COW_REFS s'))).
Proof.
  intros Hr Hok. rewrite release_walk, (release_leaves (vm_mem s)) by done.
  destruct (release_frames_spec (cow_leaves (vm_mem s) (cr3_base cr3)) s F O Hr Hok)
    as (s' & E & H1 & H2 & H3 & _). by exists s'.
Qed.

(** ** Reclaim *)

(** Nothing but permission, presence and software bits changed. *)
Definition keeps_frames (s s' : Vm A) : Prop :=
  vm_frames s' = vm_frames s ∧ COW_REFS s' = COW_REFS s ∧
  ∀ a, pte_addr (rd (vm_mem s') a) = pte_addr (rd (vm_mem s) a).

Lemma swapped_addr e : pte_addr (Z.lor (Z.land e (not64 PTE_PRESENT)) PTE_SWAPPED) = pte_addr e.
Proof.
  apply Z.bits_inj'. intros i Hi. rewrite !pte_addr_bit by done.
  case_bool_decide; [|by rewrite !andb_false_r].
  rewrite Z.lor_spec, Z.land_spec, not64_bit by done. rewrite decide_True by lia.
  change PTE_PRESENT with (2 ^ 0). change PTE_SWAPPED with (2 ^ 10). rewrite !pow2_bit by lia.
  rewrite !bool_decide_eq_false_2 by lia. by rewrite orb_false_r, !andb_true_r.
Qed.

Lemma reclaim_leaf_keeps p s0 (st : Vm A * Z) :
  keeps_frames s0 st.1 → keeps_frames s0 (reclaim_leaf p st).1.
Proof.
  intros H. destruct st as [s n]. unfold reclaim_leaf. destruct (has _ _); [|done]. cbv zeta.
  destruct (if has _ _ then _ else _); [|done]. destruct H as (H1 & H2 & H3). split_and!; [done..|].
  intros a. simpl. rewrite rd_insert. case_decide; [subst|apply H3]. by rewrite swapped_addr.
Qed.

Lemma reclaim_below_keeps hc f t i s0 (st : Vm A * Z) :
  (∀ t st, keeps_frames s0 st.1 → keeps_frames s0 (f t st).1) →
  keeps_frames s0 st.1 → keeps_frames s0 (reclaim_below hc f t i st).1.
Proof. intros Hf H. unfold reclaim_below. cbv zeta. destruct (negb _ || _); auto. Qed.

(** Reclaiming the pages of a process takes nothing back: no frame returns to
    the allocator, no entry stops naming its frame and no count changes, however
    many pages it reports. *)
Theorem reclaim_frees_nothing task_cr3 s :
  keeps_frames s (reclaim_file_backed_pages task_cr3 s).2.
Proof.
  unfold reclaim_file_backed_pages. destruct task_cr3 as [cr3|]; [|done].
  case_decide; [done|].
  assert (Hl : ∀ (f : Z → Vm A * Z → Vm A * Z) l st,
    (∀ i st, keeps_frames s st.1 → keeps_frames s (f i st).1) → keeps_frames s st.1 →
    keeps_frames s (loop l f st).1).
  { intros f l st Hf Hk. by apply (loop_inv (λ st, keeps_frames s st.1)). }
  assert (Hall : keeps_frames s (loop (range 0 256) (reclaim_below false (λ l3,
    loop (range 0 512) (reclaim_below false (λ l2, loop (range 0 512) (reclaim_below true (λ l1,
    loop (range 0 512) (λ i, reclaim_leaf (slot l1 i))) l2)) l3)) cr3) (s, 0)).1).
  { apply Hl; [|done]. intros i4 st4 H4. apply reclaim_below_keeps; [|done].
    intros l3 st H3. apply Hl; [|done]. intros i3 st3 H3'. apply reclaim_below_keeps; [|done].
    intros l2 st' H2. apply Hl; [|done]. intros i2 st2 H2'. apply reclaim_below_keeps; [|done].
    intros l1 st1 H1. apply Hl; [|done]. intros i st0 H0. by apply reclaim_leaf_keeps. }
  destruct (loop (range 0 256) _ (s, 0)) as [s' n]. exact Hall.
Qed.

(** ** Mapping in another address space *)

Section other_space.
Context (map_to : Z → Z → Z → Z → A * pmem → res (bool * (A * pmem))).

Lemma map_pages_cr3 take_frame n v flags c s :
  map_pages map_to take_frame n v flags (set_vm_cr3 c s) =
  (let! (r, s') := map_pages map_to take_frame n v flags s in Ret (r, set_vm_cr3 c s')).
Proof.
  revert v s. induction n as [|n IH]; intros v s; [done|]. cbn [map_pages].
  change (vm_frames (set_vm_cr3 c s)) with (vm_frames s).
  destruct (take_frame (vm_frames s)) as [[[f|] a]| |]; cbn [res_bind]; [|done..]. cbv zeta.
  unfold map_page. cbn [set_mem set_frames set_vm_cr3 vmm_l4 vm_frames vm_mem].
  destruct (map_to _ _ _ _ _) as [[[|] am]| |]; cbn [res_bind]; [|done..].
  apply (IH _ (set_mem am.2 (set_frames am.1 (set_mem (zero_page f (vm_mem s)) (set_frames a s))))).
Qed.

(** Mapping a range "in" another address space maps it in the table the kernel
    booted with: the target CR3 has no influence on the result or on memory. *)
Theorem map_in_cr3_ignores_target take_frame t1 t2 vaddr size w x s :
  map_user_range_in_cr3 map_to take_frame t1 vaddr size w x s =
  map_user_range_in_cr3 map_to take_frame t2 vaddr size w x s.
Proof.
  unfold map_user_range_in_cr3, map_user_range. cbv zeta. rewrite !map_pages_cr3.
  destruct (map_pages map_to take_frame _ vaddr _ s) as [[r s']| |]; done.
Qed.
End other_space.
End vmm_props.

(** ** Concrete instances *)

(** One user page at virtual address 0, shared copy-on-write by two processes. *)
Definition demo_tables : pmem :=
  {[ 0x100000 := 0x101007; 0x101000 := 0x102007; 0x102000 := 0x103007; 0x103000 := 0x104205 ]}.
Definition demo_vm_state (a : BuddyAllocator) : Vm BuddyAllocator :=
  mkVm a demo_tables {[ 0x104000 := 2 ]} 0x100000 0x100000 0.

Lemma demo_fault a : cow_fault_at (demo_vm_state a) 0 0x103000.
Proof. split_and!; by vm_compute. Qed.

Lemma demo_owned off : 0 ≤ off ≤ 4096 → ∀ f, f ∈ ({[ 0x104000 ]} : gset Z) → block_ok off 0 f.
Proof.
  intros Hoff f Hf. apply elem_of_singleton in Hf as ->. split; [lia|]. split; [done|].
  change (block_size 0) with 4096. unfold u64_modulus. lia.
Qed.

Lemma demo_frames : fa_rep small_pmm (list_to_set (all_pages small_fl)) {[ 0x104000 ]}.
Proof.
  exists small_fl. split_and!; [exact small_rep|done| |by apply demo_owned].
  apply (bool_decide_unpack _). by vm_compute.
Qed.

Lemma demo_env : cow_env (demo_vm_state small_pmm) (list_to_set (all_pages small_fl)) {[ 0x104000 ]} 0x103000.
Proof.
  split; [exact demo_frames|]. split; [|apply (bool_decide_unpack _); by vm_compute].
  intros f Hf. apply elem_of_list_to_set in Hf.
  assert (H : Forall (λ f, f mod 4096 = 0 ∧ 0 ≤ f < 65536) (all_pages small_fl)).
  { apply (bool_decide_unpack _). by vm_compute. }
  rewrite Forall_forall in H. destruct (H f Hf) as [H1 H2].
  assert (Hok : frame_ok f) by (split; [lia|exact H1]). split; [done|].
  intros Hin. apply frame_page_words in Hin as (i & Hi & E); [lia|done].
Qed.

Definition no_memory : BuddyAllocator := mkBuddy (replicate MAX_ORDER 0) 0 0 0 ∅.

Lemma no_memory_rep : fa_rep no_memory ∅ {[ 0x104000 ]}.
Proof.
  exists (replicate MAX_ORDER []). split_and!; [by apply empty_rep|by vm_compute|set_solver|].
  by apply demo_owned.
Qed.

Lemma cow_fault_correct_witness :
  ∃ f s', f ∈ (list_to_set (all_pages small_fl) : gset Z) ∧
    cow_page_fault 0 (demo_vm_state small_pmm) = Ret (true, s') ∧ pte_addr (rd (vm_mem s') 0x103000) = f.
Proof.
  destruct (cow_fault_correct (demo_vm_state small_pmm) _ _ 0 0x103000 (demo_fault _) demo_env) as [_ H].
  destruct H as [[H _]|(f & s' & Hf & E & _ & _ & Ha & _)]; [by vm_compute|by vm_compute in H|].
  exists f, s'. split_and!; [exact Hf|exact E|exact Ha].
Defined.

Lemma cow_oom_breaks_sharing_witness :
  ∃ s1 s2, cow_page_fault 0 (demo_vm_state no_memory) = Ret (false, s1) ∧
    cow_page_fault 0 s1 = Ret (true, s2) ∧ has (rd (vm_mem s2) 0x103000) PTE_WRITABLE = true.
Proof.
  destruct (cow_oom_breaks_sharing (demo_vm_state no_memory) {[ 0x104000 ]} 0 0x103000)
    as (s1 & s2 & E1 & E2 & _ & Hw & _).
  - exact (demo_fault _).
  - split; [exact no_memory_rep|]. split; [intros f Hf; set_solver|set_solver].
  - by vm_compute.
  - exists s1, s2. split_and!; [exact E1|exact E2|exact Hw].
Defined.

Lemma protect_range_correct_witness :
  ∃ s', update_user_pte_flags 5 100 false true (demo_vm_state small_pmm) = Ret s' ∧
    has_perms false true (rd (vm_mem s') 0x103000).
Proof.
  destruct (protect_range_correct 5 100 false true (demo_vm_state small_pmm)) as (s' & E & _ & H);
    [by vm_compute|lia|by vm_compute|].
  exists s'. split; [exact E|]. apply (H 0 0x103000); by vm_compute.
Defined.

Lemma mprotect_defeats_cow_witness :
  ∃ s', update_user_pte_flags 0 4096 true false (demo_vm_state small_pmm) = Ret s' ∧
    has (rd (vm_mem s') 0x103000) PTE_WRITABLE = true ∧ has (rd (vm_mem s') 0x103000) PTE_COW = true.
Proof.
  destruct (mprotect_defeats_cow 0 4096 false (demo_vm_state small_pmm) 0x103000) as (s' & E & H1 & H2 & _);
    [by vm_compute|lia|by vm_compute|exact (demo_fault _)|].
  exists s'. split_and!; [exact E|exact H1|exact H2].
Defined.

Lemma release_correct_witness :
  ∃ s', release_user_cow_refs 0x100000 (demo_vm_state small_pmm) = Ret s' ∧
    COW_REFS s' !! 0x104000 = Some 1.
Proof.
  destruct (release_correct 0x100000 (demo_vm_state small_pmm) _ _ demo_frames) as (s' & E & _ & H & _).
  - intros f rc. unfold demo_vm_state. simpl. rewrite lookup_singleton_Some. intros [<- <-].
    split; [lia|set_solver].
  - exists s'. split; [exact E|]. rewrite H. by vm_compute.
Defined.
