(* ===== verification/VmmFork.v ===== *)
(** Fork's address-space copy, [copy_user_address_space]: what the child's tree
    looks like and what happens to the parent's.

    The argument never needs the tables of the parent to be distinct. Copying
    changes a word outside the child's tables in one way only: a shareable entry
    loses its write bit and gains the copy-on-write bit. A walk does not see
    those bits and doing it twice is doing it once, so entries reached twice are
    harmless. *)
From stdpp Require Import base numbers list gmap sets strings.
From S2P Require Import Prelude Pmm PmmFacts PmmProps FrameAlloc Vmm VmmFacts VmmProps.

(** ** Shared entries *)

Definition shareable (e : Z) : bool := has e PTE_WRITABLE || has e PTE_COW.
Definition share (e : Z) : Z := if shareable e then cow_pte e else e.

Lemma cow_pte_bit e i : 0 ≤ i →
  Z.testbit (cow_pte e) i =
    if decide (i = 9) then true else if decide (i = 1) then false
    else if decide (i < 64) then Z.testbit e i else false.
Proof.
  intros Hi. unfold cow_pte. rewrite Z.lor_spec, Z.land_spec, not64_bit by done.
  rewrite writable_bit, cow_bit by done.
  repeat case_decide; repeat case_bool_decide; try lia; simpl;
    by rewrite ?orb_true_r, ?orb_false_r, ?andb_true_r, ?andb_false_r.
Qed.

Lemma cow_pte_has e n : 0 ≤ n < 64 → n ≠ 1 → n ≠ 9 → has (cow_pte e) (2 ^ n) = has e (2 ^ n).
Proof.
  intros Hn H1 H9. rewrite !has_testbit, cow_pte_bit by lia.
  by rewrite !decide_False, decide_True by lia.
Qed.

Lemma cow_pte_idemp e : cow_pte (cow_pte e) = cow_pte e.
Proof.
  apply Z.bits_inj'. intros i Hi. rewrite !cow_pte_bit by done. by repeat case_decide.
Qed.

Lemma cow_pte_cow e : has (cow_pte e) PTE_COW = true.
Proof. rewrite has_cow, cow_pte_bit by lia. done. Qed.

Lemma share_shareable e : shareable (share e) = shareable e.
Proof.
  unfold share. destruct (shareable e) eqn:E; [|done]. unfold shareable. rewrite cow_pte_cow.
  by rewrite orb_true_r.
Qed.

Lemma share_idemp e : share (share e) = share e.
Proof.
  unfold share at 1. rewrite share_shareable. unfold share.
  destruct (shareable e); [apply cow_pte_idemp|done].
Qed.

Lemma share_has e n : 0 ≤ n < 64 → n ≠ 1 → n ≠ 9 → has (share e) (2 ^ n) = has e (2 ^ n).
Proof. intros. unfold share. destruct (shareable e); [by apply cow_pte_has|done]. Qed.

Lemma share_addr e : pte_addr (share e) = pte_addr e.
Proof.
  unfold share. destruct (shareable e); [|done]. apply Z.bits_inj'. intros i Hi.
  rewrite !pte_addr_bit, cow_pte_bit by done. repeat case_bool_decide; rewrite ?andb_false_r; try done.
  by rewrite !decide_False, decide_True by lia.
Qed.

Lemma share_not_writable e : has (share e) PTE_WRITABLE = false.
Proof.
  unfold share. destruct (shareable e) eqn:E.
  - rewrite has_writable, cow_pte_bit by lia. done.
  - unfold shareable in E. by apply orb_false_iff in E as [-> _].
Qed.

Lemma share_0 : share 0 = 0.
Proof. done. Qed.

(** What copying does to a word outside the child's tables. *)
Definition evolves (x y : Z) : Prop := y = x ∨ y = share x.

#[global] Instance evolves_preorder : PreOrder evolves.
Proof.
  split; [by left|]. intros x y z [->| ->] [->| ->]; [by left|by right|by right|right].
  apply share_idemp.
Qed.

Lemma evolves_has x y n : evolves x y → 0 ≤ n < 64 → n ≠ 1 → n ≠ 9 → has y (2 ^ n) = has x (2 ^ n).
Proof. intros [->| ->] ???; [done|by apply share_has]. Qed.
Lemma evolves_present x y : evolves x y → has y PTE_PRESENT = has x PTE_PRESENT.
Proof. intros H. by apply (evolves_has x y 0). Qed.
Lemma evolves_huge x y : evolves x y → has y PTE_HUGE = has x PTE_HUGE.
Proof. intros H. by apply (evolves_has x y 7). Qed.
Lemma evolves_addr x y : evolves x y → pte_addr y = pte_addr x.
Proof. intros [->| ->]; [done|apply share_addr]. Qed.
Lemma evolves_share x y : evolves x y → share y = share x.
Proof. intros [->| ->]; [done|apply share_idemp]. Qed.
Lemma evolves_shareable x y : evolves x y → shareable y = shareable x.
Proof. intros [->| ->]; [done|apply share_shareable]. Qed.
Lemma evolves_from_share x y : evolves (share x) y → y = share x.
Proof. intros [->| ->]; [done|apply share_idemp]. Qed.
Lemma evolves_0 y : evolves 0 y → y = 0.
Proof. by intros [->| ->]. Qed.

(** The entry of a fresh child table. *)
Definition table_pte (f e : Z) : Z := Z.lor f (Z.land e (not64 PTE_ADDR_MASK)).

Lemma table_pte_bit f e i : 0 ≤ i < 64 →
  Z.testbit (table_pte f e) i = Z.testbit f i || (Z.testbit e i && negb (bool_decide (12 ≤ i < 52))).
Proof.
  intros Hi. unfold table_pte. rewrite Z.lor_spec, Z.land_spec, not64_bit by lia.
  by rewrite decide_True, addr_mask_bit by lia.
Qed.

Lemma table_pte_spec f e : frame_ok f →
  pte_addr (table_pte f e) = f ∧ has (table_pte f e) PTE_PRESENT = has e PTE_PRESENT ∧
  has (table_pte f e) PTE_HUGE = has e PTE_HUGE.
Proof.
  intros Hf. pose proof (frame_bits f) as Hb.
  assert (Hlow : ∀ i, 0 ≤ i < 12 → Z.testbit f i = false).
  { intros i Hi. destruct (Z.testbit f i) eqn:E; [|done]. apply Hb in E; [lia|done|lia]. }
  split_and!.
  - apply Z.bits_inj'. intros i Hi. rewrite pte_addr_bit by done.
    destruct (decide (12 ≤ i < 52)) as [H|H].
    + rewrite table_pte_bit by lia. rewrite !(bool_decide_eq_true_2 _ H). simpl.
      by rewrite andb_false_r, orb_false_r, andb_true_r.
    + rewrite (bool_decide_eq_false_2 _ H), andb_false_r.
      destruct (Z.testbit f i) eqn:E; [|done]. exfalso. apply H. by apply Hb.
  - rewrite !has_present, table_pte_bit by lia. rewrite Hlow by lia. simpl. by rewrite andb_true_r.
  - rewrite !has_huge, table_pte_bit by lia. rewrite Hlow by lia. simpl. by rewrite andb_true_r.
Qed.

Section fork.
Context {A : Type} {FA : FrameAllocator A}.
Implicit Types s : Vm A.

(** ** States of the copy *)

(** [S] are the parent's table frames, [dst] the table being filled. *)
Record copy_env (S : gset Z) (dst : Z) s (F O : gset Z) : Prop := {
  ce_rep : fa_rep (vm_frames s) F O;
  ce_frames f : f ∈ F → frame_ok f;
  ce_src : S ## F;
  ce_src_ok t : t ∈ S → frame_ok t;
  ce_dst : frame_ok dst;
  ce_dst_free : dst ∉ F;
  ce_dst_src : dst ∉ S;
  ce_refs f rc : COW_REFS s !! f = Some rc → 1 ≤ rc
}.

(** From [s] to [s']: the frames [N] were taken and the words [W] written; every
    other word evolved, and kept its value outside the tables [S]; counts of two
    or more stay so. *)
Record copies (S : gset Z) (W : list Z) (N : gset Z) s s' (F O : gset Z) : Prop := {
  cp_sub : N ⊆ F;
  cp_rep : fa_rep (vm_frames s') (F ∖ N) (N ∪ O);
  cp_mem w : (w ∉ W) → (∀ f, f ∈ N → w ∉ page_words f) →
    evolves (rd (vm_mem s) w) (rd (vm_mem s') w) ∧
    ((∀ t, t ∈ S → w ∉ page_words t) → rd (vm_mem s') w = rd (vm_mem s) w);
  cp_refs f rc : COW_REFS s' !! f = Some rc → 1 ≤ rc;
  cp_grow f rc : COW_REFS s !! f = Some rc → 2 ≤ rc → ∃ rc', COW_REFS s' !! f = Some rc' ∧ 2 ≤ rc'
}.

Lemma copies_refl W S dst s F O : copy_env S dst s F O → copies S W ∅ s s F O.
Proof.
  intros [H1 _ _ _ _ _ _ H8]. split; [set_solver| |done|done|eauto].
  by rewrite difference_empty_L, union_empty_l_L.
Qed.

Lemma copies_trans S W1 W2 N1 N2 s s1 s2 F O :
  copies S W1 N1 s s1 F O → copies S W2 N2 s1 s2 (F ∖ N1) (N1 ∪ O) →
  copies S (W1 ++ W2) (N1 ∪ N2) s s2 F O.
Proof.
  intros [A1 A2 A3 A4 A5] [B1 B2 B3 B4 B5]. split.
  - set_solver.
  - replace (F ∖ (N1 ∪ N2)) with (F ∖ N1 ∖ N2) by set_solver.
    replace (N1 ∪ N2 ∪ O) with (N2 ∪ (N1 ∪ O)) by set_solver. done.
  - intros w Hw HN. rewrite not_elem_of_app in Hw.
    destruct (A3 w) as [H1 H2]; [tauto|set_solver|]. destruct (B3 w) as [H3 H4]; [tauto|set_solver|].
    split; [by etrans|]. intros HS. by rewrite H4, H2.
  - done.
  - intros f rc Hf Hrc. destruct (A5 f rc Hf Hrc) as (rc1 & H1 & H2). eauto.
Qed.

(** Written words inside taken frames need not be listed. *)
Lemma copies_weaken S W W' N s s' F O :
  copies S W N s s' F O → (∀ w, w ∈ W → w ∈ W' ∨ ∃ f, f ∈ N ∧ w ∈ page_words f) →
  copies S W' N s s' F O.
Proof.
  intros [A1 A2 A3 A4 A5] HW. split; [done..| |done|done].
  intros w Hw HN. apply A3; [|done]. intros Hin. destruct (HW w Hin) as [?|(f & Hf & Hwf)]; [done|].
  by apply (HN f).
Qed.

(** The words of the tables [P] evolved. *)
Definition keeps (P : gset Z) s s' : Prop :=
  (∀ t w, t ∈ P → w ∈ page_words t → evolves (rd (vm_mem s) w) (rd (vm_mem s') w)) ∧
  (∀ f rc, COW_REFS s !! f = Some rc → 2 ≤ rc → ∃ rc', COW_REFS s' !! f = Some rc' ∧ 2 ≤ rc').

Lemma copies_keeps S (P : gset Z) W N s s' F O :
  copies S W N s s' F O → (∀ f, f ∈ F → frame_ok f) →
  (∀ t, t ∈ P → frame_ok t ∧ (t ∉ N)) → (∀ t w, t ∈ P → w ∈ page_words t → w ∉ W) →
  keeps P s s'.
Proof.
  intros [A1 A2 A3 A4 A5] HF HP HW. split; [|done]. intros t w Ht Hw. apply A3; [by eapply HW|].
  intros f Hf Hwf. destruct (HP t Ht) as [Hok Hnf].
  apply (frames_disjoint t f w); [done|apply HF; set_solver|intros ->; done|done|done].
Qed.

Lemma env_next S dst W N s s' F O :
  copy_env S dst s F O → copies S W N s s' F O → copy_env S dst s' (F ∖ N) (N ∪ O).
Proof.
  intros [E1 E2 E3 E4 E5 E6 E7 E8] [C1 C2 C3 C4 C5]. split; [done|set_solver|set_solver|done|done|set_solver|done|done].
Qed.

(** ** Predicates on entries *)

(** [E N s s' ps pd]: the entry at [ps] in [s] is copied to [pd] in [s'], its
    subtree in tables of [N]. [R S m ps]: the tables below [ps] are in [S]. *)
Abbreviation entry_pred := (gset Z → Vm A → Vm A → Z → Z → Prop).
Abbreviation region := (gset Z → pmem → Z → Prop).

Record entry_ok (R : region) (E : entry_pred) : Prop := {
  eo_region S s s' t ps : t ∈ S → ps ∈ page_words t → keeps S s s' → R S (vm_mem s) ps → R S (vm_mem s') ps;
  eo_left S N s0 s1 s2 t ps pd : t ∈ S → ps ∈ page_words t → R S (vm_mem s0) ps → keeps S s0 s1 →
    E N s1 s2 ps pd → E N s0 s2 ps pd;
  eo_right S N s s1 s2 t ps pd : t ∈ S → ps ∈ page_words t → R S (vm_mem s) ps → keeps (S ∪ N) s1 s2 →
    evolves (rd (vm_mem s1) pd) (rd (vm_mem s2) pd) → E N s s1 ps pd → E N s s2 ps pd;
  eo_mono N N' s s' ps pd : N ⊆ N' → E N s s' ps pd → E N' s s' ps pd
}.

Abbreviation copier := (Z → Z → Vm A * Z → res (option string * (Vm A * Z))).

Definition entry_spec (lim : Z) (R : region) (E : entry_pred)
    (f : Z → Z → Z → Vm A * Z → res (option string * (Vm A * Z))) : Prop :=
  ∀ S src dst i s pages F O,
    0 ≤ i < lim → copy_env S dst s F O → src ∈ S → R S (vm_mem s) (slot src i) →
    rd (vm_mem s) (slot dst i) = 0 →
    ∃ o s' pages' N, f src dst i (s, pages) = Ret (o, (s', pages')) ∧
      copies S [slot dst i] N s s' F O ∧ (o ≠ None → F ∖ N = ∅) ∧
      (o = None → E N s s' (slot src i) (slot dst i)).

Definition table_spec (lim : Z) (R : region) (E : entry_pred) (cp : copier) : Prop :=
  ∀ S src dst s pages F O,
    copy_env S dst s F O → src ∈ S → (∀ i, 0 ≤ i < lim → R S (vm_mem s) (slot src i)) →
    (∀ i, 0 ≤ i < lim → rd (vm_mem s) (slot dst i) = 0) →
    ∃ o s' pages' N, cp src dst (s, pages) = Ret (o, (s', pages')) ∧
      copies S (slot dst <$> range 0 lim) N s s' F O ∧ (o ≠ None → F ∖ N = ∅) ∧
      (o = None → ∀ i, 0 ≤ i < lim → E N s s' (slot src i) (slot dst i)).

(** ** The loop over a table *)

Lemma dst_word_kept S dst js i W N s s' F O :
  copy_env S dst s F O → copies S W N s s' F O → W = slot dst <$> js →
  (∀ j, j ∈ js → 0 ≤ j < 512) → 0 ≤ i < 512 → (i ∉ js) →
  evolves (rd (vm_mem s) (slot dst i)) (rd (vm_mem s') (slot dst i)).
Proof.
  intros HE HC -> Hjs Hi Hni. apply (cp_mem _ _ _ _ _ _ _ HC).
  - intros Hin. apply list_elem_of_fmap in Hin as (j & E & Hj).
    pose proof (ce_dst _ _ _ _ _ HE) as Hd. specialize (Hjs j Hj).
    rewrite (frame_slot dst i), (frame_slot dst j) in E by done.
    assert (i = j) by lia. by subst.
  - intros f Hf Hw. apply (cp_sub _ _ _ _ _ _ _ HC) in Hf.
    apply (frames_disjoint dst f (slot dst i)); [by eapply ce_dst|by apply (ce_frames _ _ _ _ _ HE)| | |done].
    { intros ->. by apply (ce_dst_free _ _ _ _ _ HE). }
    by apply slot_in_page.
Qed.

Lemma dst_words_not_src dst (js : list Z) t w :
  frame_ok dst → frame_ok t → t ≠ dst → (∀ j, j ∈ js → 0 ≤ j < 512) →
  w ∈ page_words t → (w ∉ slot dst <$> js).
Proof.
  intros Hd Ht Hne Hjs Hw Hin. apply list_elem_of_fmap in Hin as (j & -> & Hj).
  apply (frames_disjoint t dst (slot dst j)); [done..|]. by apply slot_in_page, Hjs.
Qed.

Lemma copies_keeps_src S dst js N s s' F O :
  copy_env S dst s F O → copies S (slot dst <$> js) N s s' F O → (∀ j, j ∈ js → 0 ≤ j < 512) →
  keeps S s s'.
Proof.
  intros HE HC Hjs. apply (copies_keeps _ S _ _ _ _ _ _ HC); [by eapply ce_frames| |].
  - intros t Ht. split; [by apply (ce_src_ok _ _ _ _ _ HE)|]. intros HN.
    apply (cp_sub _ _ _ _ _ _ _ HC) in HN. pose proof (ce_src _ _ _ _ _ HE). set_solver.
  - intros t w Ht. apply dst_words_not_src;
      [by eapply ce_dst|by apply (ce_src_ok _ _ _ _ _ HE)| |done].
    intros ->. by apply (ce_dst_src _ _ _ _ _ HE).
Qed.

Lemma loop_spec lim R E f js :
  lim ≤ 512 → entry_ok R E → entry_spec lim R E f →
  NoDup js → (∀ j, j ∈ js → 0 ≤ j < lim) →
  ∀ S src dst s pages F O,
    copy_env S dst s F O → src ∈ S → (∀ i, i ∈ js → R S (vm_mem s) (slot src i)) →
    (∀ i, i ∈ js → rd (vm_mem s) (slot dst i) = 0) →
    ∃ o s' pages' N, for_each js (f src dst) (s, pages) = Ret (o, (s', pages')) ∧
      copies S (slot dst <$> js) N s s' F O ∧ (o ≠ None → F ∖ N = ∅) ∧
      (o = None → ∀ i, i ∈ js → E N s s' (slot src i) (slot dst i)).
Proof.
  intros Hlim HEok Hf. induction js as [|j js IH]; intros Hnd Hjs S src dst s pages F O HE Hsrc HR HZ.
  { exists None, s, pages, ∅. split_and!; [done|by eapply copies_refl|done|].
    intros _ i Hi. by apply elem_of_nil in Hi. }
  apply NoDup_cons in Hnd as [Hj Hnd].
  assert (Hj512 : ∀ k, k ∈ j :: js → 0 ≤ k < 512) by (intros k Hk; specialize (Hjs k Hk); lia).
  assert (Hsl : ∀ k, k ∈ j :: js → slot src k ∈ page_words src)
    by (intros k Hk; by apply slot_in_page, Hj512).
  destruct (Hf S src dst j s pages F O) as (o & s1 & p1 & N1 & Ef & HC1 & Ho1 & HE1);
    [apply Hjs; set_solver|done|done|apply HR; set_solver|apply HZ; set_solver|].
  cbn [for_each]. rewrite Ef. cbn [res_bind].
  assert (HSkeep : keeps S s s1) by (apply (copies_keeps_src S dst [j] N1 s s1 F O HE HC1); set_solver).
  destruct o as [err|].
  { exists (Some err), s1, p1, N1. split_and!; [done| |done|done].
    apply (copies_weaken _ _ _ _ _ _ _ _ HC1). set_solver. }
  destruct (IH Hnd) with (S := S) (src := src) (dst := dst) (s := s1) (pages := p1)
    (F := F ∖ N1) (O := N1 ∪ O) as (o2 & s2 & p2 & N2 & E2 & HC2 & Ho2 & HE2).
  { set_solver. } { by eapply env_next. } { done. }
  { intros i Hi. eapply (eo_region _ _ HEok); [done|apply Hsl; set_solver|done|apply HR; set_solver]. }
  { intros i Hi. apply evolves_0. rewrite <- (HZ i) by set_solver.
    eapply (dst_word_kept S dst [j]); [done|done|done|set_solver|apply Hj512; set_solver|set_solver]. }
  exists o2, s2, p2, (N1 ∪ N2). split_and!; [done|by apply (copies_trans _ _ _ _ _ _ _ _ _ _ HC1 HC2)| |].
  { intros Ho. specialize (Ho2 Ho). set_solver. }
  intros ->. specialize (HE1 eq_refl). specialize (HE2 eq_refl).
  pose proof (env_next _ _ _ _ _ _ _ _ HE HC1) as HEn.
  assert (Hok : ∀ t, t ∈ S ∪ N1 → frame_ok t ∧ (t ∉ F ∖ N1) ∧ t ≠ dst).
  { pose proof (cp_sub _ _ _ _ _ _ _ HC1) as Hsub. destruct HE.
    intros t [Ht|Ht]%elem_of_union; split_and!; [by auto|set_solver|by intros ->|by auto|set_solver|].
    intros ->. auto. }
  assert (HSN : keeps (S ∪ N1) s1 s2).
  { apply (copies_keeps _ _ _ _ _ _ _ _ HC2); [by eapply ce_frames| |].
    - intros t Ht. destruct (Hok t Ht) as (? & ? & _). split; [done|].
      intros HN. by apply (cp_sub _ _ _ _ _ _ _ HC2) in HN.
    - intros t w Ht. destruct (Hok t Ht) as (? & _ & ?).
      apply dst_words_not_src; [by eapply ce_dst|done|done|set_solver]. }
  intros i Hi. apply elem_of_cons in Hi as [->|Hi].
  - eapply (eo_mono _ _ HEok); [apply union_subseteq_l|].
    eapply (eo_right _ _ HEok); [done|apply Hsl; set_solver|apply HR; set_solver|exact HSN| |exact HE1].
    eapply (dst_word_kept S dst js); [done|done|done|set_solver|apply Hj512; set_solver|done].
  - eapply (eo_mono _ _ HEok); [apply union_subseteq_r|].
    eapply (eo_left _ _ HEok); [done|apply Hsl; set_solver|apply HR; set_solver|exact HSkeep|by apply HE2].
Qed.

Lemma table_loop lim R E f :
  lim ≤ 512 → entry_ok R E → entry_spec lim R E f →
  table_spec lim R E (λ src dst, for_each (range 0 lim) (f src dst)).
Proof.
  intros Hlim HEok Hf S src dst s pages F O HE Hsrc HR HZ.
  destruct (loop_spec lim R E f (range 0 lim) Hlim HEok Hf (NoDup_seqZ _ _)) with
    (S := S) (src := src) (dst := dst) (s := s) (pages := pages) (F := F) (O := O)
    as (o & s' & p' & N & E1 & HC & Ho & HEE); [by intros j Hj%elem_of_range|done|done| | |].
  - intros i Hi%elem_of_range. by apply HR.
  - intros i Hi%elem_of_range. by apply HZ.
  - exists o, s', p', N. split_and!; [done..|]. intros Hn i Hi. apply HEE; [done|]. by apply elem_of_range.
Qed.

(** ** Level 1 *)

Definition any_region : region := λ _ _ _, True.

(** A present page is shared, and counted twice when it was or becomes
    copy-on-write; the rest is absent in the child. *)
Definition leaf_shared : entry_pred := λ _ s s' ps pd,
  let e := rd (vm_mem s) ps in
  if has e PTE_PRESENT then
    rd (vm_mem s') ps = share e ∧ rd (vm_mem s') pd = share e ∧
    (shareable e = true → ∃ rc, COW_REFS s' !! pte_addr e = Some rc ∧ 2 ≤ rc)
  else rd (vm_mem s') pd = 0.

Lemma leaf_entry_ok : entry_ok any_region leaf_shared.
Proof.
  split; unfold any_region, leaf_shared; cbv zeta.
  - done.
  - intros S N s0 s1 s2 t ps pd Ht Hps _ [Hk _] H. specialize (Hk t ps Ht Hps).
    rewrite (evolves_present _ _ Hk), (evolves_share _ _ Hk), (evolves_shareable _ _ Hk),
      (evolves_addr _ _ Hk) in H. done.
  - intros S N s s1 s2 t ps pd Ht Hps _ [Hk Hg] Hpd H. specialize (Hk t ps ltac:(set_solver) Hps).
    destruct (has _ PTE_PRESENT).
    + destruct H as (H1 & H2 & H3). rewrite H1 in Hk. rewrite H2 in Hpd.
      split_and!; [by apply evolves_from_share|by apply evolves_from_share|].
      intros Hs. destruct (H3 Hs) as (rc & Hrc & H2rc). by apply (Hg _ rc).
    + rewrite H in Hpd. by apply evolves_0.
  - done.
Qed.

Lemma slots_differ a b i j :
  frame_ok a → frame_ok b → a ≠ b → 0 ≤ i < 512 → 0 ≤ j < 512 → slot a i ≠ slot b j.
Proof.
  intros Ha Hb Hne Hi Hj E. apply (frames_disjoint a b (slot a i)); [done..|by apply slot_in_page|].
  rewrite E. by apply slot_in_page.
Qed.

Lemma leaf_copies S src dst i s e refs F O :
  copy_env S dst s F O → src ∈ S → 0 ≤ i < 512 → evolves (rd (vm_mem s) (slot src i)) e →
  (∀ f rc, refs !! f = Some rc → 1 ≤ rc) →
  (∀ f rc, COW_REFS s !! f = Some rc → 2 ≤ rc → ∃ rc', refs !! f = Some rc' ∧ 2 ≤ rc') →
  copies S [slot dst i] ∅ s
    (set_cow refs (write_pte (slot dst i) e (write_pte (slot src i) e s))) F O.
Proof.
  intros HE Hsrc Hi He H1 H2. split; [set_solver| | |done|done].
  { rewrite difference_empty_L, union_empty_l_L. apply HE. }
  intros w Hw _. simpl. rewrite !rd_insert. rewrite not_elem_of_cons in Hw.
  rewrite decide_False by (intros <-; tauto). case_decide as Hd; [|done]. subst w. split; [done|].
  intros HS. exfalso. apply (HS src Hsrc). by apply slot_in_page.
Qed.

Lemma sat_inc8_two x : 1 ≤ x → 2 ≤ sat_inc8 x.
Proof. unfold sat_inc8. lia. Qed.

Lemma leaf_entry_spec : entry_spec 512 any_region leaf_shared copy_l1_entry.
Proof.
  intros S src dst i s pages F O Hi HE Hsrc _ HZ.
  unfold copy_l1_entry, leaf_shared. cbv zeta.
  assert (Hne : slot dst i ≠ slot src i).
  { pose proof (ce_dst_src _ _ _ _ _ HE) as Hds.
    apply slots_differ; [by eapply ce_dst|by eapply ce_src_ok|by intros ->|done|done]. }
  destruct (has (rd (vm_mem s) (slot src i)) PTE_PRESENT) eqn:Hp; simpl.
  2:{ exists None, s, pages, ∅. split_and!; [done|by eapply copies_refl|done|done]. }
  set (e := rd (vm_mem s) (slot src i)). fold (shareable e).
  destruct (shareable e) eqn:Hs.
  - eexists None, _, _, ∅. split; [done|]. split; [|split; [done|]].
    + assert (Hrefs := ce_refs _ _ _ _ _ HE). apply leaf_copies; [done|done|done| | |].
      * right. fold e. unfold share. by rewrite Hs.
      * intros f rc Hf. apply lookup_insert_Some in Hf as [[_ <-]|[_ Hf]]; [|by eapply Hrefs].
        destruct (COW_REFS s !! pte_addr e) as [r|] eqn:Er; simpl; [|done].
        apply Hrefs in Er. pose proof (sat_inc8_two r Er). lia.
      * intros f rc Hf H2. destruct (decide (f = pte_addr e)) as [->|Hn].
        -- exists (sat_inc8 rc). rewrite lookup_insert_eq, Hf. simpl. split; [done|].
           apply sat_inc8_two. lia.
        -- exists rc. by rewrite lookup_insert_ne.
    + intros _. simpl. rewrite !rd_insert. rewrite decide_False, !decide_True by done.
      unfold share. rewrite Hs. split_and!; [done|done|]. intros _. rewrite lookup_insert_eq.
      eexists. split; [done|]. apply sat_inc8_two.
      destruct (COW_REFS s !! pte_addr e) as [r|] eqn:Er; simpl; [|done].
      by apply (ce_refs _ _ _ _ _ HE) in Er.
  - eexists None, _, _, ∅. split; [done|]. split; [|split; [done|]].
    + split; [set_solver| | |apply (ce_refs _ _ _ _ _ HE)|eauto].
      { rewrite difference_empty_L, union_empty_l_L. apply HE. }
      intros w Hw _. simpl. rewrite rd_insert, decide_False by set_solver. done.
    + intros _. simpl. rewrite !rd_insert. rewrite decide_False, decide_True by done.
      unfold share. by rewrite Hs.
Qed.
(** ** Inner levels *)

(** The entry is followed. *)
Definition followed (hc : bool) (e : Z) : bool := has e PTE_PRESENT && negb (hc && has e PTE_HUGE).

Lemma evolves_followed hc x y : evolves x y → followed hc y = followed hc x.
Proof. intros H. unfold followed. by rewrite (evolves_present _ _ H), (evolves_huge _ _ H). Qed.

Definition below_region (hc : bool) (R : region) : region := λ S m ps,
  followed hc (rd m ps) = true →
  pte_addr (rd m ps) ∈ S ∧ Forall (λ i, R S m (slot (pte_addr (rd m ps)) i)) (range 0 512).

(** A followed entry has a table of the child's, filled from the parent's. *)
Definition below_shared (hc : bool) (E : entry_pred) : entry_pred := λ N s s' ps pd,
  let e := rd (vm_mem s) ps in
  let d := rd (vm_mem s') pd in
  if followed hc e then
    pte_addr d ∈ N ∧ has d PTE_PRESENT = true ∧ has d PTE_HUGE = has e PTE_HUGE ∧
    ∀ i, 0 ≤ i < 512 → E N s s' (slot (pte_addr e) i) (slot (pte_addr d) i)
  else d = 0.

Lemma below_region_slot hc R S m ps i :
  below_region hc R S m ps → followed hc (rd m ps) = true → 0 ≤ i < 512 →
  pte_addr (rd m ps) ∈ S ∧ R S m (slot (pte_addr (rd m ps)) i).
Proof.
  intros HR Hf Hi. destruct (HR Hf) as [HS HF]. split; [done|].
  rewrite Forall_forall in HF. apply HF. by apply elem_of_range.
Qed.

Lemma below_entry_ok hc R E : entry_ok R E → entry_ok (below_region hc R) (below_shared hc E).
Proof.
  intros HEok. split.
  - intros S s s' t ps Ht Hps Hk HR Hf. pose proof (proj1 Hk t ps Ht Hps) as He.
    rewrite (evolves_followed _ _ _ He) in Hf. rewrite (evolves_addr _ _ He).
    destruct (HR Hf) as [HS HF]. split; [done|]. apply Forall_forall. intros i Hi%elem_of_range.
    rewrite Forall_forall in HF. eapply (eo_region _ _ HEok); [done|by apply slot_in_page|done|].
    apply HF. by apply elem_of_range.
  - intros S N s0 s1 s2 t ps pd Ht Hps HR Hk H. pose proof (proj1 Hk t ps Ht Hps) as He.
    unfold below_shared in *. cbv zeta in *.
    rewrite (evolves_followed _ _ _ He), (evolves_huge _ _ He), (evolves_addr _ _ He) in H.
    destruct (followed hc _) eqn:Hf; [|done]. destruct H as (H1 & H2 & H3 & H4).
    split_and!; [done..|]. intros i Hi. destruct (below_region_slot _ _ _ _ _ i HR Hf Hi) as [HS HRi].
    eapply (eo_left _ _ HEok); [done|by apply slot_in_page|done|done|by apply H4].
  - intros S N s s1 s2 t ps pd Ht Hps HR Hk Hpd H. unfold below_shared in *. cbv zeta in *.
    destruct (followed hc _) eqn:Hf; [|rewrite H in Hpd; by apply evolves_0].
    destruct H as (H1 & H2 & H3 & H4).
    rewrite (evolves_present _ _ Hpd), (evolves_huge _ _ Hpd), (evolves_addr _ _ Hpd).
    split_and!; [done..|]. intros i Hi. destruct (below_region_slot _ _ _ _ _ i HR Hf Hi) as [HS HRi].
    eapply (eo_right _ _ HEok); [done|by apply slot_in_page|done|done| |by apply H4].
    apply (proj1 Hk (pte_addr (rd (vm_mem s1) pd))); [set_solver|by apply slot_in_page].
  - intros N N' s s' ps pd HN H. unfold below_shared in *. cbv zeta in *.
    destruct (followed hc _); [|done]. destruct H as (H1 & H2 & H3 & H4).
    split_and!; [set_solver|done|done|]. intros i Hi. eapply (eo_mono _ _ HEok); [done|by apply H4].
Qed.

(** The state after [ensure_table] made a table. *)
Definition new_table (pd f e : Z) (a : A) s : Vm A :=
  write_pte pd (table_pte f e) (set_mem (zero_page f (vm_mem s)) (set_frames a s)).

Lemma new_table_other pd f e a s w :
  w ≠ pd → w ∉ page_words f → rd (vm_mem (new_table pd f e a s)) w = rd (vm_mem s) w.
Proof.
  intros Hw Hf. unfold new_table. simpl. rewrite rd_insert, decide_False by done.
  by apply zero_page_other.
Qed.

Lemma new_table_spec S dst i f e a s F O :
  copy_env S dst s F O → f ∈ F → fa_rep a (F ∖ {[f]}) ({[f]} ∪ O) → 0 ≤ i < 512 →
  let s1 := new_table (slot dst i) f e a s in
  copies S [slot dst i] {[f]} s s1 F O ∧ copy_env S f s1 (F ∖ {[f]}) ({[f]} ∪ O) ∧
  keeps S s s1 ∧ rd (vm_mem s1) (slot dst i) = table_pte f e ∧
  ∀ j, 0 ≤ j < 512 → rd (vm_mem s1) (slot f j) = 0.
Proof.
  intros HE Hf Hrep Hi s1. pose proof HE as [E1 E2 E3 E4 E5 E6 E7 E8].
  assert (HC : copies S [slot dst i] {[f]} s s1 F O).
  { split; [set_solver|done| |done|eauto]. intros w Hw HN.
    unfold s1. rewrite new_table_other; [done|set_solver|set_solver]. }
  assert (Hfd : f ≠ dst) by (intros ->; done).
  split_and!; [done| | | |].
  - split; [done|set_solver|set_solver|done|by apply E2|set_solver|set_solver|done].
  - apply (copies_keeps _ S _ _ _ _ _ _ HC); [done| |].
    + intros t Ht. split; [by apply E4|set_solver].
    + intros t w Ht. apply (dst_words_not_src dst [i]); [done|by apply E4|by intros ->|set_solver].
  - unfold s1, new_table. simpl. by rewrite rd_insert, decide_True.
  - intros j Hj. unfold s1, new_table. simpl. rewrite rd_insert, decide_False.
    + by apply zero_page_zero, slot_in_page.
    + apply slots_differ; [done|by apply E2|done|done|done].
Qed.

Lemma copies_word S dst i W N s s' F O :
  copies S W N s s' F O → frame_ok dst → (dst ∉ F) → (∀ f, f ∈ F → frame_ok f) → 0 ≤ i < 512 →
  (slot dst i ∉ W) → evolves (rd (vm_mem s) (slot dst i)) (rd (vm_mem s') (slot dst i)).
Proof.
  intros HC Hd HF Hok Hi HW. apply (cp_mem _ _ _ _ _ _ _ HC); [done|]. intros f Hf Hw.
  apply (cp_sub _ _ _ _ _ _ _ HC) in Hf.
  apply (frames_disjoint dst f (slot dst i)); [done|by apply Hok|by intros ->|by apply slot_in_page|done].
Qed.

Lemma below_entry_spec lim hc R E below :
  lim ≤ 512 → entry_ok R E → table_spec 512 R E below →
  entry_spec lim (below_region hc R) (below_shared hc E) (copy_entry hc below).
Proof.
  intros Hlim HEok Hbelow S src dst i s pages F O Hi HE Hsrc HR HZ.
  assert (Hi' : 0 ≤ i < 512) by lia.
  unfold copy_entry, below_shared. cbv zeta. set (e := rd (vm_mem s) (slot src i)) in *.
  destruct (followed hc e) eqn:Hf; unfold followed in Hf.
  2:{ exists None, s, pages, ∅. split_and!; [|by eapply copies_refl|done|done].
      destruct (has e PTE_PRESENT); simpl in *; [|done]. apply negb_false_iff in Hf. by rewrite Hf. }
  apply andb_prop in Hf as [Hp Hh]. rewrite Hp. apply negb_true_iff in Hh. rewrite Hh. cbn [negb].
  unfold ensure_table. cbv zeta. rewrite HZ. cbn [has]. unfold vm_alloc_frame.
  destruct (fa_alloc_spec _ _ _ (ce_rep _ _ _ _ _ HE)) as [[Ea ->]|(f & a & Ea & Hin & Hrep)];
    rewrite Ea; simpl.
  { eexists (Some _), _, _, ∅. split; [done|]. split; [|done].
    replace (set_frames (vm_frames s) s) with s by (by destruct s). by eapply copies_refl. }
  fold (table_pte f e). fold (new_table (slot dst i) f e a s).
  destruct (new_table_spec S dst i f e a s F O HE Hin Hrep Hi') as (HC1 & HE1 & HK & Hd & HZ1).
  set (s1 := new_table (slot dst i) f e a s) in *.
  assert (Hfol : followed hc e = true) by (unfold followed; by rewrite Hp, Hh).
  destruct (HR Hfol) as [HSe _]. fold e in HSe.
  destruct (Hbelow S (pte_addr e) f s1 pages _ _ HE1 HSe) as (o & s2 & p2 & N2 & E2 & HC2 & Ho & HEE).
  { intros j Hj. destruct (below_region_slot _ _ _ _ _ j HR Hfol Hj) as [_ HRj].
    eapply (eo_region _ _ HEok); [done|by apply slot_in_page|done|done]. }
  { done. }
  exists o, s2, p2, ({[f]} ∪ N2). split; [exact E2|]. split; [|split].
  - apply (copies_weaken _ _ _ _ _ _ _ _ (copies_trans _ _ _ _ _ _ _ _ _ _ HC1 HC2)).
    intros w [Hw|Hw]%elem_of_app; [by left|right]. exists f. split; [by apply elem_of_union_l, elem_of_singleton|exact Hw].
  - intros Hn. rewrite <- difference_difference_l_L. by apply Ho.
  - intros Hn. specialize (HEE Hn).
    assert (Hfok : frame_ok f) by (by apply (ce_frames _ _ _ _ _ HE)).
    assert (Hfd : f ≠ dst) by (intros ->; by apply (ce_dst_free _ _ _ _ _ HE)).
    assert (Hdd : evolves (table_pte f e) (rd (vm_mem s2) (slot dst i))).
    { rewrite <- Hd. eapply copies_word; [done|by eapply ce_dst| | |done|].
      - intros Hin'. apply elem_of_difference in Hin' as [Hin' _]. by apply (ce_dst_free _ _ _ _ _ HE).
      - intros g Hg. apply elem_of_difference in Hg as [Hg _]. by apply (ce_frames _ _ _ _ _ HE).
      - intros Hw. apply list_elem_of_fmap in Hw as (j & Ej & Hj%elem_of_range).
        apply (slots_differ dst f i j); [by eapply ce_dst|done|done|done|done|done]. }
    destruct (table_pte_spec f e Hfok) as (T1 & T2 & T3).
    rewrite (evolves_present _ _ Hdd), (evolves_huge _ _ Hdd), (evolves_addr _ _ Hdd), T1, T2, T3.
    split_and!; [by apply elem_of_union_l, elem_of_singleton|done|done|]. intros j Hj.
    eapply (eo_mono _ _ HEok); [apply union_subseteq_r|].
    destruct (below_region_slot _ _ _ _ _ j HR Hfol Hj) as [_ HRj].
    eapply (eo_left _ _ HEok); [done|by apply slot_in_page|done|done|by apply HEE].
Qed.
(** ** The four levels *)

Definition user_region : region :=
  below_region false (below_region true (below_region true any_region)).
Definition user_shared : entry_pred :=
  below_shared false (below_shared true (below_shared true leaf_shared)).

(** The tables below [l4] that the user half reaches are in [S]. *)
Definition user_tables (S : gset Z) (m : pmem) (l4 : Z) : Prop :=
  l4 ∈ S ∧ Forall (λ i, user_region S m (slot l4 i)) (range 0 256).

Lemma inner_table lim hc R E below :
  lim ≤ 512 → entry_ok R E → table_spec 512 R E below →
  table_spec lim (below_region hc R) (below_shared hc E)
    (λ src dst, for_each (range 0 lim) (copy_entry hc below src dst)).
Proof.
  intros Hlim HE Hb. apply table_loop; [done|by apply below_entry_ok|by apply below_entry_spec].
Qed.

Lemma copy_l4_spec : table_spec 256 user_region user_shared copy_l4.
Proof.
  assert (H1 : table_spec 512 any_region leaf_shared copy_l1).
  { apply (table_loop 512 _ _ copy_l1_entry); [lia|apply leaf_entry_ok|apply leaf_entry_spec]. }
  pose proof leaf_entry_ok as E1.
  pose proof (below_entry_ok true _ _ E1) as E2. pose proof (below_entry_ok true _ _ E2) as E3.
  assert (H2 := inner_table 512 true _ _ _ ltac:(lia) E1 H1 : table_spec 512 _ _ copy_l2).
  assert (H3 := inner_table 512 true _ _ _ ltac:(lia) E2 H2 : table_spec 512 _ _ copy_l3).
  exact (inner_table 256 false _ _ _ ltac:(lia) E3 H3).
Qed.

(** ** What the caller sees *)

Lemma leaf_shared_facts N s s' ps pd :
  leaf_shared N s s' ps pd →
  let e := rd (vm_mem s) ps in
  let d := rd (vm_mem s') pd in
  if has e PTE_PRESENT then
    rd (vm_mem s') ps = d ∧ has d PTE_PRESENT = true ∧ pte_addr d = pte_addr e ∧
    has d PTE_WRITABLE = false ∧
    (shareable e = true → has d PTE_COW = true ∧ ∃ rc, COW_REFS s' !! pte_addr e = Some rc ∧ 2 ≤ rc)
  else d = 0.
Proof.
  unfold leaf_shared. cbv zeta. destruct (has _ PTE_PRESENT) eqn:Hp; [|done].
  intros (H1 & H2 & H3). rewrite H1, H2, share_addr, share_not_writable.
  split_and!; [done|by rewrite (share_has _ 0)|done|done|]. intros Hs. split; [|by apply H3].
  unfold share. rewrite Hs. apply cow_pte_cow.
Qed.

(** ** Walks *)

Lemma idx_bound va n : 0 ≤ Z.land (Z.shiftr va n) 0x1FF < 512.
Proof.
  change 0x1FF with (Z.ones 9). rewrite Z.land_ones by lia. apply Z.mod_pos_bound. lia.
Qed.

Lemma followed_present e : followed false e = has e PTE_PRESENT.
Proof. unfold followed. by rewrite andb_true_r. Qed.
Lemma followed_small e : followed true e = negb (negb (has e PTE_PRESENT) || has e PTE_HUGE).
Proof. unfold followed. by destruct (has e PTE_PRESENT), (has e PTE_HUGE). Qed.

(** A walk in the terms above. *)
Lemma walk_l1_followed m l4 va :
  walk_l1 m l4 va =
    let l4e := rd m (slot l4 (l4_idx va)) in
    if followed false l4e then
      let l3e := rd m (slot (pte_addr l4e) (l3_idx va)) in
      if followed true l3e then
        let l2e := rd m (slot (pte_addr l3e) (l2_idx va)) in
        if followed true l2e then Some (slot (pte_addr l2e) (l1_idx va)) else None
      else None
    else None.
Proof.
  unfold walk_l1. cbv zeta. rewrite followed_present, !followed_small.
  repeat (destruct (has _ PTE_PRESENT); simpl; [|done]; try (destruct (has _ PTE_HUGE); simpl; [done|]));
  done.
Qed.

Lemma below_shared_followed hc E N s s' ps pd :
  below_shared hc E N s s' ps pd →
  followed hc (rd (vm_mem s') pd) = followed hc (rd (vm_mem s) ps).
Proof.
  unfold below_shared. cbv zeta. destruct (followed hc (rd (vm_mem s) ps)) eqn:Hf.
  - intros (_ & Hp & Hh & _). unfold followed in *. rewrite Hp, Hh.
    by destruct (has (rd (vm_mem s) ps) PTE_PRESENT).
  - intros ->. by destruct hc.
Qed.

Lemma below_shared_slot hc E N s s' ps pd i :
  below_shared hc E N s s' ps pd → followed hc (rd (vm_mem s) ps) = true → 0 ≤ i < 512 →
  E N s s' (slot (pte_addr (rd (vm_mem s) ps)) i) (slot (pte_addr (rd (vm_mem s') pd)) i).
Proof. unfold below_shared. cbv zeta. intros H Hf Hi. rewrite Hf in H. by apply H. Qed.

Lemma walk_shared N s s' parent child va :
  (∀ i, 0 ≤ i < 256 → user_shared N s s' (slot parent i) (slot child i)) → l4_idx va < 256 →
  match walk_l1 (vm_mem s) parent va with
  | None => walk_l1 (vm_mem s') child va = None
  | Some ps => ∃ pd, walk_l1 (vm_mem s') child va = Some pd ∧ leaf_shared N s s' ps pd
  end.
Proof.
  intros H Hva. specialize (H (l4_idx va)). rewrite !walk_l1_followed. cbv zeta.
  assert (H4 := H ltac:(pose proof (idx_bound va 39); unfold l4_idx in *; lia)). clear H.
  unfold user_shared in H4. rewrite (below_shared_followed _ _ _ _ _ _ _ H4).
  destruct (followed false _) eqn:F4; [|done].
  pose proof (below_shared_slot _ _ _ _ _ _ _ _ H4 F4 (idx_bound va 30)) as H3. fold (l3_idx va) in H3.
  rewrite (below_shared_followed _ _ _ _ _ _ _ H3). destruct (followed true _) eqn:F3; [|done].
  pose proof (below_shared_slot _ _ _ _ _ _ _ _ H3 F3 (idx_bound va 21)) as H2. fold (l2_idx va) in H2.
  rewrite (below_shared_followed _ _ _ _ _ _ _ H2).
  destruct (followed true (rd (vm_mem s) (slot _ (l2_idx va)))) eqn:F2; [|done].
  pose proof (below_shared_slot _ _ _ _ _ _ _ _ H2 F2 (idx_bound va 12)) as H1. fold (l1_idx va) in H1.
  eexists. split; [done|exact H1].
Qed.

(** The parent's walks do not change. *)
Lemma walk_kept S s s' l4 va :
  user_tables S (vm_mem s) l4 → keeps S s s' → l4_idx va < 256 →
  walk_l1 (vm_mem s') l4 va = walk_l1 (vm_mem s) l4 va.
Proof.
  intros [Hl4 HF] [Hk _] Hva. rewrite !walk_l1_followed. cbv zeta. rewrite Forall_forall in HF.
  pose proof (idx_bound va 39) as B4. fold (l4_idx va) in B4.
  assert (R4 := HF (l4_idx va) ltac:(apply elem_of_range; lia)).
  pose proof (Hk l4 _ Hl4 (slot_in_page l4 _ B4)) as K4.
  rewrite (evolves_followed _ _ _ K4), (evolves_addr _ _ K4). destruct (followed false _) eqn:F4; [|done].
  destruct (below_region_slot _ _ _ _ _ _ R4 F4 (idx_bound va 30)) as [S3 R3]. fold (l3_idx va) in R3.
  pose proof (Hk _ _ S3 (slot_in_page _ _ (idx_bound va 30))) as K3. fold (l3_idx va) in K3.
  rewrite (evolves_followed _ _ _ K3), (evolves_addr _ _ K3). destruct (followed true _) eqn:F3; [|done].
  destruct (below_region_slot _ _ _ _ _ _ R3 F3 (idx_bound va 21)) as [S2 R2]. fold (l2_idx va) in R2.
  pose proof (Hk _ _ S2 (slot_in_page _ _ (idx_bound va 21))) as K2. fold (l2_idx va) in K2.
  by rewrite (evolves_followed _ _ _ K2), (evolves_addr _ _ K2).
Qed.
End fork.

(** C8. Forking an address space. Let [S] hold the parent's user tables and let
    the child's user half be empty. The copy returns, takes only free frames for
    the child's tables, and changes memory in those frames, in the child's level-4
    table and in the parent's tables only. It fails only when it has taken every
    free frame. When it succeeds, every walk of the parent ends where it ended; the
    child maps exactly the parent's user pages, to the same frames; no shared page
    is writable in either space; and a page that was writable or copy-on-write is
    marked copy-on-write in both, with a count of at least two. *)
Theorem fork_shares_cow {A} {FA : FrameAllocator A} (S : gset Z) parent child (s : Vm A) F O :
  copy_env S child s F O → user_tables S (vm_mem s) parent →
  (∀ i, 0 ≤ i < 256 → rd (vm_mem s) (slot child i) = 0) →
  ∃ r s' N, copy_user_address_space parent child s = Ret (r, s') ∧ N ⊆ F ∧
    fa_rep (vm_frames s') (F ∖ N) (N ∪ O) ∧
    (∀ w, (w ∉ slot child <$> range 0 256) → (∀ t, t ∈ S ∪ N → w ∉ page_words t) →
       rd (vm_mem s') w = rd (vm_mem s) w) ∧
    match r with
    | inr _ => F ∖ N = ∅
    | inl _ => ∀ va, l4_idx va < 256 →
        walk_l1 (vm_mem s') parent va = walk_l1 (vm_mem s) parent va ∧
        match walk_l1 (vm_mem s) parent va with
        | None => walk_l1 (vm_mem s') child va = None
        | Some ps => ∃ pd, walk_l1 (vm_mem s') child va = Some pd ∧
            let e := rd (vm_mem s) ps in
            if has e PTE_PRESENT then
              rd (vm_mem s') ps = rd (vm_mem s') pd ∧ has (rd (vm_mem s') pd) PTE_PRESENT = true ∧
              pte_addr (rd (vm_mem s') pd) = pte_addr e ∧ has (rd (vm_mem s') pd) PTE_WRITABLE = false ∧
              (has e PTE_WRITABLE || has e PTE_COW = true →
                 has (rd (vm_mem s') pd) PTE_COW = true ∧
                 ∃ rc, COW_REFS s' !! pte_addr e = Some rc ∧ 2 ≤ rc)
            else rd (vm_mem s') pd = 0
        end
    end.
Proof.
  intros HE HT HZ. pose proof HT as [Hp HF]. rewrite Forall_forall in HF.
  destruct (copy_l4_spec S parent child s 0 F O HE Hp) as (o & s' & pages & N & E & HC & Ho & HS).
  { intros i Hi. apply HF. by apply elem_of_range. }
  { done. }
  unfold copy_user_address_space. rewrite E. cbn [res_bind].
  exists (if o is Some e then inr e else inl pages), s', N.
  split; [by destruct o|]. split; [apply HC|]. split; [apply HC|]. split.
  { intros w Hw HSN. apply (cp_mem _ _ _ _ _ _ _ HC); [done| |]; intros t Ht; apply HSN, elem_of_union; auto. }
  destruct o as [err|]; [by apply Ho|]. intros va Hva. split.
  - eapply walk_kept; [done| |done]. eapply copies_keeps_src; [done|done|]. intros j Hj%elem_of_range. lia.
  - specialize (HS eq_refl). pose proof (walk_shared N s s' parent child va HS Hva) as W.
    destruct (walk_l1 (vm_mem s) parent va) as [ps|]; [|done]. destruct W as (pd & W & L).
    exists pd. split; [done|]. by apply leaf_shared_facts in L.
Qed.

(** ** A concrete fork *)

Definition demo_parent_tables : gset Z := {[ 0x100000; 0x101000; 0x102000; 0x103000 ]}.

(** [below_region] as a check that stops at entries that are not followed. *)
Definition check_region (hc : bool) (R : gset Z → pmem → Z → bool) (S : gset Z) (m : pmem) (ps : Z) : bool :=
  if followed hc (rd m ps) then
    bool_decide (pte_addr (rd m ps) ∈ S) && forallb (λ i, R S m (slot (pte_addr (rd m ps)) i)) (range 0 512)
  else true.

Lemma check_region_sound hc R R' S m ps :
  (∀ ps, R' S m ps = true → R S m ps) → check_region hc R' S m ps = true → below_region hc R S m ps.
Proof.
  intros HR. unfold check_region, below_region. intros H Hf. rewrite Hf in H.
  apply andb_prop in H as [H1 H2]. split; [by apply bool_decide_eq_true in H1|].
  apply Forall_forall. intros i Hi. apply HR. rewrite forallb_forall in H2. by apply H2, list_elem_of_In.
Qed.

Lemma demo_user_tables a : user_tables demo_parent_tables (vm_mem (demo_vm_state a)) 0x100000.
Proof.
  split; [by apply (bool_decide_unpack _); vm_compute|].
  assert (H : forallb (λ i, check_region false (check_region true (check_region true (λ _ _ _, true)))
    demo_parent_tables demo_tables (slot 0x100000 i)) (range 0 256) = true) by by vm_compute.
  apply Forall_forall. intros i Hi. rewrite forallb_forall in H. specialize (H i).
  revert H. unfold user_region. intros H.
  eapply check_region_sound; [|by apply H, list_elem_of_In]. clear. intros ps.
  apply check_region_sound. clear. intros ps. by apply check_region_sound.
Qed.

Lemma demo_copy_env :
  copy_env demo_parent_tables 0x105000 (demo_vm_state small_pmm)
    (list_to_set (all_pages small_fl)) {[ 0x104000 ]}.
Proof.
  split; try (apply (bool_decide_unpack _); by vm_compute). exact demo_frames.
Qed.

Lemma demo_child_empty a i : 0 ≤ i < 256 → rd (vm_mem (demo_vm_state a)) (slot 0x105000 i) = 0.
Proof.
  intros Hi. assert (H : Forall (λ i, rd demo_tables (slot 0x105000 i) = 0) (range 0 256)).
  { apply (bool_decide_unpack _). by vm_compute. }
  rewrite Forall_forall in H. apply H. by apply elem_of_range.
Qed.

Lemma fork_shares_cow_witness :
  ∃ r s', copy_user_address_space 0x100000 0x105000 (demo_vm_state small_pmm) = Ret (r, s') ∧
    walk_l1 (vm_mem s') 0x100000 0 = Some 0x103000.
Proof.
  destruct (fork_shares_cow demo_parent_tables 0x100000 0x105000 (demo_vm_state small_pmm) _ _
    demo_copy_env (demo_user_tables _) (demo_child_empty _)) as (r & s' & N & E & _ & _ & _ & H).
  exists r, s'. split; [exact E|]. destruct r as [n|err].
  - destruct (H 0 ltac:(by vm_compute)) as [W _]. rewrite W. by vm_compute.
  - exfalso. assert (G : match copy_user_address_space 0x100000 0x105000 (demo_vm_state small_pmm) with
      Ret (inl _, _) => true | _ => false end = true) by (vm_compute; reflexivity).
    rewrite E in G. discriminate.
Defined.
