(* ===== verification/Kring.v ===== *)
(** The kernel log ring: [kernel/src/kring.rs]. *)
From stdpp Require Import base numbers list.
From S2P Require Import Prelude.

Definition RING_SIZE : nat := 256.
Definition ENTRY_LEN : nat := 128.

Record LogEntry := mkEntry { level : Z; len : nat; data : list Z }.
Definition EMPTY : LogEntry := mkEntry 0 0 (replicate ENTRY_LEN 0).

Record KernelRing := mkRing { buf : list LogEntry; head : nat; count : nat }.
Definition new_ring : KernelRing := mkRing (replicate RING_SIZE EMPTY) 0 0.

(** [push]: the slot at [head] keeps the bytes beyond the new message. *)
Definition push (lv : Z) (msg : list Z) (r : KernelRing) : res KernelRing :=
  let! entry := index (buf r) (head r) in
  let n := (length msg `min` ENTRY_LEN)%nat in
  let entry' := mkEntry lv n (take n msg ++ drop n (data entry)) in
  Ret (mkRing (<[head r := entry']> (buf r)) ((head r + 1) mod RING_SIZE)%nat
         (if decide (count r < RING_SIZE)%nat then (count r + 1)%nat else count r)).

(** [iter]: oldest first. *)
Definition iter (r : KernelRing) : res (list LogEntry) :=
  let start := if decide (count r = RING_SIZE) then head r else 0%nat in
  foldr (λ i acc, let! es := acc in
                  let! e := index (buf r) ((start + i) mod RING_SIZE)%nat in Ret (e :: es))
    (Ret []) (seq 0 (count r)).

(** [as_str] before the UTF-8 check: the entry's message. *)
Definition message (e : LogEntry) : Z * list Z := (level e, take (len e) (data e)).

Fixpoint push_all (ms : list (Z * list Z)) (r : KernelRing) : res KernelRing :=
  match ms with
  | [] => Ret r
  | (lv, msg) :: ms' => let! r' := push lv msg r in push_all ms' r'
  end.

(** ** The ring holds the last 256 messages *)

(** What is logged of a message: its first 128 bytes. *)
Definition logged (m : Z * list Z) : Z * list Z := (m.1, take ENTRY_LEN m.2).

(** [log] is everything ever pushed, cut to what the ring stores. *)
Record ring_rep (r : KernelRing) (log : list (Z * list Z)) : Prop := {
  rr_len : length (buf r) = RING_SIZE;
  rr_data e : e ∈ buf r → length (data e) = ENTRY_LEN;
  rr_head : head r = (length log mod RING_SIZE)%nat;
  rr_count : count r = (length log `min` RING_SIZE)%nat;
  rr_slot j m : log !! j = Some m → (length log ≤ j + RING_SIZE)%nat →
    message <$> buf r !! (j mod RING_SIZE)%nat = Some m
}.

Lemma new_ring_rep : ring_rep new_ring [].
Proof.
  split; try done. intros e He. apply elem_of_replicate in He as [-> _]. done.
Qed.

Lemma push_rep lv msg r log :
  ring_rep r log → ∃ r', push lv msg r = Ret r' ∧ ring_rep r' (log ++ [logged (lv, msg)]).
Proof.
  intros [Hl Hd Hh Hc Hs]. unfold push, index.
  assert (Hhd : (head r < RING_SIZE)%nat) by (rewrite Hh; by apply Nat.mod_upper_bound).
  destruct (lookup_lt_is_Some_2 (buf r) (head r)) as [e He]; [lia|]. rewrite He. cbn [res_bind].
  set (n := (length msg `min` ENTRY_LEN)%nat).
  assert (Hn : length (take n msg) = n) by (rewrite length_take; lia).
  assert (He' : length (data e) = ENTRY_LEN) by (by apply Hd, list_elem_of_lookup; eauto).
  cbv zeta. set (new := mkEntry lv n (take n msg ++ drop n (data e))).
  assert (Hm : message new = logged (lv, msg)).
  { unfold message, logged, new. cbn [level len data fst snd]. f_equal. rewrite <- Hn at 1. rewrite take_app_length.
    unfold n. destruct (decide (length msg ≤ ENTRY_LEN)%nat).
    - rewrite !take_ge by lia. done.
    - f_equal. lia. }
  eexists. split; [done|]. split; cbn [buf head count].
  - by rewrite length_insert.
  - intros x Hx. apply list_elem_of_lookup in Hx as [j Hj]. rewrite list_lookup_insert in Hj.
    case_decide as E; [injection Hj as <-|apply Hd, list_elem_of_lookup; eauto].
    unfold new.
    cbn [data]. rewrite length_app, length_drop, Hn. lia.
  - rewrite length_app, Hh. cbn [length]. by rewrite Nat.Div0.add_mod_idemp_l.
  - rewrite length_app, Hc. cbn [length]. case_decide; lia.
  - intros j m. rewrite length_app. cbn [length]. intros Hj Hwin.
    apply lookup_app_Some in Hj as [Hj|[Hge Hj]].
    + pose proof (lookup_lt_Some _ _ _ Hj) as Hlt.
      rewrite list_lookup_insert_ne; [apply Hs; [done|lia]|]. rewrite Hh. intros E.
      pose proof (Nat.div_mod_eq (length log) RING_SIZE) as E1.
      pose proof (Nat.div_mod_eq j RING_SIZE) as E2. rewrite E in E1.
      assert ((length log / RING_SIZE ≤ j / RING_SIZE)%nat ∨
        (j / RING_SIZE + 1 ≤ length log / RING_SIZE)%nat) as [?|?] by lia; unfold RING_SIZE in *; nia.
    + apply list_lookup_singleton_Some in Hj as [Hj <-].
      assert (j = length log) as -> by lia. rewrite <- Hh, list_lookup_insert_eq by lia.
      simpl. by rewrite Hm.
Qed.

Lemma push_all_rep ms r log :
  ring_rep r log → ∃ r', push_all ms r = Ret r' ∧ ring_rep r' (log ++ (logged <$> ms)).
Proof.
  revert r log. induction ms as [|[lv msg] ms IH]; intros r log Hr; simpl.
  { exists r. by rewrite app_nil_r. }
  destruct (push_rep lv msg r log Hr) as (r1 & -> & Hr1). simpl.
  destruct (IH _ _ Hr1) as (r' & E & Hr'). exists r'. rewrite <- app_assoc in Hr'. done.
Qed.

Lemma iter_rep r log :
  ring_rep r log →
  ∃ es, iter r = Ret es ∧ message <$> es = drop (length log - RING_SIZE) log.
Proof.
  intros [Hl Hd Hh Hc Hs]. unfold iter. cbv zeta.
  set (start := if decide _ then _ else _). set (base := (length log - RING_SIZE)%nat).
  assert (Hidx : ∀ i, ((start + i) mod RING_SIZE = (base + i) mod RING_SIZE)%nat).
  { intros i. unfold start, base. case_decide as H.
    - rewrite Hh, Nat.Div0.add_mod_idemp_l. rewrite Hc in H.
      replace (length log + i)%nat with (length log - RING_SIZE + i + 1 * RING_SIZE)%nat by lia.
      by rewrite Nat.Div0.mod_add.
    - rewrite Hc in H. f_equal. lia. }
  assert (Hgo : ∀ k j, (j + k = count r)%nat → ∃ es,
    foldr (λ i acc, let! es := acc in
      let! e := index (buf r) ((start + i) mod RING_SIZE)%nat in Ret (e :: es)) (Ret []) (seq j k) = Ret es ∧
    message <$> es = drop (base + j) log).
  { induction k as [|k IH]; intros j Hj; cbn [seq foldr].
    - exists []. split; [done|]. rewrite drop_ge; [done|]. unfold base. lia.
    - destruct (IH (S j)) as (es & E & Hes); [lia|]. rewrite E. cbn [res_bind].
      destruct (lookup_lt_is_Some_2 log (base + j)) as [m Hm]; [unfold base; lia|].
      pose proof (Hs (base + j)%nat m Hm ltac:(unfold base; lia)) as Hb.
      unfold index. rewrite Hidx. destruct (buf r !! _) as [e|]; [|done]. apply (inj Some) in Hb as <-.
      cbn [res_bind]. eexists. split; [done|]. cbn [fmap list_fmap]. rewrite Hes.
      rewrite (drop_S log (message e) (base + j)) by done. by rewrite Nat.add_succ_r. }
  destruct (Hgo (count r) 0%nat) as (es & E & Hes); [lia|]. rewrite Nat.add_0_r in Hes. eauto.
Qed.
