(* ===== verification/HotMap.v ===== *)
(** The self-sharding map of [kernel/src/hot_lock.rs], with string keys as its
    users have them, and its refinement to a plain map.

    Whether a [try_lock] finds the global lock taken depends on other threads:
    it is the argument [busy]. Each operation first loads the [sharded] flag and
    then works under a lock, so the part after the load takes the value it saw
    as an argument: the flag may have changed in between. *)
From Stdlib Require Import Ascii.
From stdpp Require Import base numbers list gmap sets strings.
From S2P Require Import Prelude.

Definition SHARD_COUNT : Z := 8.

(** ** FNV-1a *)

Definition FNV_OFFSET : Z := 0xcbf29ce484222325.
Definition FNV_PRIME : Z := 0x100000001b3.

Definition bytes_of (s : string) : list Z := (λ c, Z.of_N (N_of_ascii c)) <$> String.list_ascii_of_string s.

Definition fnv1a (data : list Z) : Z :=
  foldl (λ hash b, mul64 (Z.lxor hash b) FNV_PRIME) FNV_OFFSET data.

Definition shard_idx (key : string) : nat := Z.to_nat (fnv1a (bytes_of key) mod SHARD_COUNT).

Section hotmap.
Context {V : Type}.
Abbreviation bmap := (gmap string V).

Record HotMap := mkHot {
  global_lock : bmap;
  sharded : bool;
  shards : list bmap;
  contention : Z
}.

Definition new_hotmap : HotMap := mkHot ∅ false (replicate 8 ∅) 0.

(** [self.shards[idx]] is in range: the index is taken modulo 8. *)
Definition shard (m : HotMap) (k : string) : bmap := default ∅ (shards m !! shard_idx k).

Definition insert_shard (k : string) (v : V) (m : HotMap) : HotMap :=
  mkHot (global_lock m) (sharded m) (<[shard_idx k := <[k := v]> (shard m k)]> (shards m)) (contention m).

(** Move every item of the global map to its shard, one after the other. *)
Definition move_items (m : HotMap) : HotMap :=
  map_fold insert_shard (mkHot ∅ (sharded m) (shards m) (contention m)) (global_lock m).

Definition check_split (m : HotMap) : HotMap :=
  if decide (1000 < contention m) then
    if sharded m then m
    else let m' := move_items m in mkHot (global_lock m') true (shards m') (contention m')
  else m.

Definition contend (m : HotMap) : HotMap :=
  mkHot (global_lock m) (sharded m) (shards m) (add64 (contention m) 1).

Definition set_global (g : bmap) (m : HotMap) : HotMap := mkHot g (sharded m) (shards m) (contention m).

(** The rest of an insert after it loaded the flag as [seen]. *)
Definition insert_after (seen busy : bool) (k : string) (v : V) (m : HotMap) : HotMap :=
  if seen then insert_shard k v m
  else if busy then
    let m := contend m in check_split (set_global (<[k := v]> (global_lock m)) m)
  else set_global (<[k := v]> (global_lock m)) m.

Definition get_after (seen busy : bool) (k : string) (m : HotMap) : option V * HotMap :=
  if seen then (shard m k !! k, m)
  else if busy then
    let m := contend m in (global_lock m !! k, check_split m)
  else (global_lock m !! k, m).

Definition remove_after (seen busy : bool) (k : string) (m : HotMap) : option V * HotMap :=
  if seen then
    (shard m k !! k,
     mkHot (global_lock m) (sharded m) (<[shard_idx k := delete k (shard m k)]> (shards m)) (contention m))
  else if busy then
    let m := contend m in
    (global_lock m !! k, check_split (set_global (delete k (global_lock m)) m))
  else (global_lock m !! k, set_global (delete k (global_lock m)) m).

(** Operations no other thread interrupts. *)
Definition insert (busy : bool) (k : string) (v : V) (m : HotMap) : HotMap :=
  insert_after (sharded m) busy k v m.
Definition get (busy : bool) (k : string) (m : HotMap) : option V * HotMap :=
  get_after (sharded m) busy k m.
Definition remove (busy : bool) (k : string) (m : HotMap) : option V * HotMap :=
  remove_after (sharded m) busy k m.

(** [snapshot]: the shards in order, a later one overriding an earlier one. *)
Definition snapshot (m : HotMap) : bmap :=
  if sharded m then foldl (λ acc s, s ∪ acc) ∅ (shards m) else global_lock m.

(** ** Refinement *)

(** The abstract map. *)
Definition view (m : HotMap) : bmap := snapshot m.

(** Unsharded: the shards are empty. Sharded: every key is in its own shard. *)
Record hot_ok (m : HotMap) : Prop := {
  ho_len : length (shards m) = 8%nat;
  ho_own i s k v : shards m !! i = Some s → s !! k = Some v → sharded m = true ∧ i = shard_idx k
}.

Lemma shard_idx_lt k : (shard_idx k < 8)%nat.
Proof.
  unfold shard_idx. pose proof (Z.mod_pos_bound (fnv1a (bytes_of k)) SHARD_COUNT ltac:(done)).
  unfold SHARD_COUNT in *. lia.
Qed.

Lemma shard_lookup m k : length (shards m) = 8%nat → shards m !! shard_idx k = Some (shard m k).
Proof.
  intros Hl. unfold shard. destruct (lookup_lt_is_Some_2 (shards m) (shard_idx k)) as [s E].
  { rewrite Hl. apply shard_idx_lt. }
  by rewrite E.
Qed.

(** In a list of maps where each key lives in one place, the union finds it there. *)
Lemma union_shards_lookup (l : list bmap) (h : string → nat) k :
  (∀ i s k v, l !! i = Some s → s !! k = Some v → i = h k) →
  foldl (λ acc s, s ∪ acc) ∅ l !! k = l !! h k ≫= λ s, s !! k.
Proof.
  assert (Hgen : ∀ (l : list bmap) acc (h : string → nat),
    (∀ i s v, l !! i = Some s → s !! k = Some v → i = h k) →
    foldl (λ acc s, s ∪ acc) acc l !! k = match l !! h k ≫= λ s, s !! k with Some v => Some v | None => acc !! k end).
  { clear. induction l as [|s l IH]; intros acc h Hl; [done|]. cbn [foldl].
    rewrite (IH _ (λ k, pred (h k))).
    2:{ intros i s' v Hi Hv. specialize (Hl (S i) s' v Hi Hv). simpl. lia. }
    destruct (h k) as [|n] eqn:E; simpl.
    - destruct (l !! 0%nat ≫= _) as [v|] eqn:E0; simpl.
      + apply bind_Some in E0 as (s' & H0 & Hv). specialize (Hl 1%nat s' v H0 Hv). lia.
      + rewrite lookup_union. by destruct (s !! k), (acc !! k).
    - destruct (l !! n ≫= _) as [v|]; [done|]. rewrite lookup_union.
      destruct (s !! k) as [v|] eqn:E0; [|by destruct (acc !! k)].
      specialize (Hl 0%nat s v eq_refl E0). lia. }
  intros Hl. rewrite (Hgen l ∅ h); [|eauto]. rewrite lookup_empty. by destruct (l !! h k ≫= _).
Qed.

Lemma view_lookup m k : hot_ok m →
  view m !! k = if sharded m then shard m k !! k else global_lock m !! k.
Proof.
  intros [Hl Ho]. unfold view, snapshot. destruct (sharded m) eqn:E; [|done].
  rewrite (union_shards_lookup _ shard_idx); [by rewrite shard_lookup|].
  intros i s k' v Hi Hv. by eapply Ho.
Qed.

Lemma shard_insert k v m k' :
  length (shards m) = 8%nat →
  shard (insert_shard k v m) k' = if decide (shard_idx k = shard_idx k') then <[k := v]> (shard m k) else shard m k'.
Proof.
  intros Hl. unfold shard, insert_shard. cbn [shards]. rewrite list_lookup_insert.
  case_decide as H1; case_decide as H2; try done.
  - exfalso. apply H2. tauto.
  - exfalso. apply H1. split; [done|]. rewrite Hl. apply shard_idx_lt.
Qed.

Lemma insert_shard_ok k v m : hot_ok m → sharded m = true → hot_ok (insert_shard k v m).
Proof.
  intros [Hl Ho] Hs. split; unfold insert_shard; cbn [shards sharded].
  - by rewrite length_insert.
  - intros i s k' v' Hi Hv. split; [done|]. rewrite list_lookup_insert in Hi. case_decide as H.
    + destruct H as [<- _]. injection Hi as <-. rewrite lookup_insert in Hv. case_decide; [by subst|].
      pose proof (shard_lookup m k Hl) as E. by eapply Ho.
    + by eapply Ho.
Qed.

(** Splitting keeps the map. *)
Lemma move_items_spec m :
  hot_ok m → sharded m = false →
  let m' := move_items m in
  length (shards m') = 8%nat ∧ contention m' = contention m ∧
  (∀ i s k v, shards m' !! i = Some s → s !! k = Some v → i = shard_idx k) ∧
  ∀ k, shard m' k !! k = global_lock m !! k.
Proof.
  intros [Hl Ho] Hs. unfold move_items.
  set (m0 := mkHot ∅ (sharded m) (shards m) (contention m)).
  assert (Hgo : ∀ g, let m' := map_fold insert_shard m0 g in
    length (shards m') = 8%nat ∧ contention m' = contention m ∧
    (∀ i s k v, shards m' !! i = Some s → s !! k = Some v → i = shard_idx k) ∧
    ∀ k, shard m' k !! k = g !! k).
  { intros g. cbv zeta.
    apply (map_fold_weak_ind (λ m' g, length (shards m') = 8%nat ∧ contention m' = contention m ∧
      (∀ i s k v, shards m' !! i = Some s → s !! k = Some v → i = shard_idx k) ∧
      ∀ k, shard m' k !! k = g !! k)).
    - split_and!; [done|done| |].
      + intros i s k v Hi Hv. by eapply Ho.
      + intros k. rewrite lookup_empty. destruct (shard m0 k !! k) as [v|] eqn:E; [|done].
        pose proof (shard_lookup m k Hl) as E'. destruct (Ho _ _ _ _ E' E) as [H _]. congruence.
    - intros k v g' m' _ (H1 & H2 & H3 & H4). split_and!.
      + unfold insert_shard. cbn [shards]. by rewrite length_insert.
      + done.
      + intros i s k' v' Hi Hv. unfold insert_shard in Hi. cbn [shards] in Hi.
        rewrite list_lookup_insert in Hi. case_decide as H; [|by eapply H3].
        destruct H as [<- _]. injection Hi as <-. rewrite lookup_insert in Hv.
        case_decide; [by subst|]. pose proof (shard_lookup m' k H1). by eapply H3.
      + intros k'. rewrite shard_insert by done. rewrite lookup_insert. case_decide as E.
        * rewrite lookup_insert. case_decide; [done|]. rewrite <- H4. unfold shard. by rewrite E.
        * rewrite decide_False by congruence. apply H4. }
  apply (Hgo (global_lock m)).
Qed.

Lemma check_split_ok m : hot_ok m → hot_ok (check_split m) ∧ view (check_split m) = view m.
Proof.
  intros Hm. unfold check_split. case_decide; [|done]. destruct (sharded m) eqn:Hs; [done|].
  destruct (move_items_spec m Hm Hs) as (H1 & H2 & H3 & H4). cbv zeta.
  assert (Hok : hot_ok (mkHot (global_lock (move_items m)) true (shards (move_items m))
    (contention (move_items m)))).
  { split; [done|]. intros i s k v Hi Hv. cbn [shards sharded] in *. eauto. }
  split; [done|]. apply map_eq. intros k. rewrite !view_lookup by done. rewrite Hs. cbn [sharded].
  apply H4.
Qed.

Lemma contend_ok m : hot_ok m → hot_ok (contend m) ∧ view (contend m) = view m.
Proof. intros [Hl Ho]. by split. Qed.

Lemma set_global_ok g m : hot_ok m → sharded m = false →
  hot_ok (set_global g m) ∧ view (set_global g m) = g.
Proof. intros [Hl Ho] Hs. split; [by split|]. unfold view, snapshot. cbn [sharded set_global]. by rewrite Hs. Qed.

Lemma insert_ok busy k v m : hot_ok m →
  hot_ok (insert busy k v m) ∧ view (insert busy k v m) = <[k := v]> (view m).
Proof.
  intros Hm. unfold insert, insert_after. destruct (sharded m) eqn:Hs.
  - pose proof (insert_shard_ok k v m Hm Hs) as Hok. split; [done|]. apply map_eq. intros k'.
    rewrite lookup_insert, !view_lookup by done. unfold insert_shard at 1. cbn [sharded]. rewrite Hs.
    rewrite shard_insert by apply Hm. case_decide as E.
    + rewrite lookup_insert. case_decide; [done|]. unfold shard. by rewrite E.
    + rewrite decide_False by congruence. done.
  - assert (Hv : view m = global_lock m) by (unfold view, snapshot; by rewrite Hs).
    destruct busy.
    + destruct (contend_ok m Hm) as [Hc _]. cbv zeta.
      destruct (set_global_ok (<[k := v]> (global_lock (contend m))) (contend m) Hc Hs) as [H1 H2].
      destruct (check_split_ok _ H1) as [H3 H4]. split; [done|]. rewrite H4, H2, Hv. done.
    + rewrite Hv. by apply set_global_ok.
Qed.

Lemma get_ok busy k m : hot_ok m →
  (get busy k m).1 = view m !! k ∧ hot_ok (get busy k m).2 ∧ view (get busy k m).2 = view m.
Proof.
  intros Hm. rewrite view_lookup by done. unfold get, get_after. destruct (sharded m) eqn:Hs; [done|].
  destruct busy; [|done]. cbv zeta. cbn [fst snd]. destruct (contend_ok m Hm) as [Hc Hv].
  destruct (check_split_ok _ Hc) as [H1 H2]. split_and!; [done|done|]. by rewrite H2, Hv.
Qed.

Lemma remove_ok busy k m : hot_ok m →
  (remove busy k m).1 = view m !! k ∧ hot_ok (remove busy k m).2 ∧
  view (remove busy k m).2 = delete k (view m).
Proof.
  intros Hm. rewrite view_lookup by done. unfold remove, remove_after. destruct (sharded m) eqn:Hs.
  - destruct Hm as [Hl Ho]. cbn [fst snd].
    assert (Hok : hot_ok (mkHot (global_lock m) true (<[shard_idx k := delete k (shard m k)]> (shards m))
      (contention m))).
    { split; cbn [shards sharded]; [by rewrite length_insert|]. intros i s k' v' Hi Hv'. split; [done|].
      rewrite list_lookup_insert in Hi. case_decide as H; [|by eapply Ho].
      destruct H as [<- _]. injection Hi as <-. apply lookup_delete_Some in Hv' as [_ Hv'].
      pose proof (shard_lookup m k Hl). by eapply Ho. }
    split_and!; [done|done|]. apply map_eq. intros k'.
    rewrite lookup_delete, !view_lookup by done. cbn [sharded]. rewrite Hs. unfold shard at 1.
    cbn [shards]. rewrite list_lookup_insert. case_decide as H1.
    + destruct H1 as [H1 _]. simpl. rewrite lookup_delete. case_decide; [done|].
      unfold shard. by rewrite H1.
    + case_decide; [|done]. subst. exfalso. apply H1. split; [done|]. rewrite Hl. apply shard_idx_lt.
  - assert (Hv : view m = global_lock m) by (unfold view, snapshot; by rewrite Hs).
    rewrite Hv. destruct busy.
    + destruct (contend_ok m Hm) as [Hc _]. cbv zeta. cbn [fst snd].
      destruct (set_global_ok (delete k (global_lock (contend m))) (contend m) Hc Hs) as [H1 H2].
      destruct (check_split_ok _ H1) as [H3 H4]. split_and!; [done|done|]. by rewrite H4, H2.
    + split; [done|]. by apply set_global_ok.
Qed.
End hotmap.
Arguments HotMap : clear implicits.
