(* ===== verification/TablesProps.v ===== *)
(** Kernel tables: foreground jobs, resource limits, the log ring and the
    self-sharding map. *)
From stdpp Require Import base numbers list gmap sets strings sorting.
From S2P Require Import Prelude PmmProps RunQueue Task Rlimit JobControl Scheduler SchedulerFacts SchedulerProps JobOps Kring HotMap.

(** ** Jobs *)

(** Bringing a job to the foreground gives every existing task exactly the nice
    value the policy says (members the direct bonus, their other predicted
    successors the causal one, what the old foreground job had elevated 0, anybody
    else unchanged), records the group and keeps the scheduler's invariant and the
    group tables. *)
Theorem foreground_elevation succ g k :
  sched_inv k → jobs_ok (JOBS k) →
  sched_inv (tcsetpgrp succ g k) ∧ jobs_ok (JOBS (tcsetpgrp succ g k)) ∧
  tcgetpgrp (tcsetpgrp succ g k) = g ∧
  ∀ q, is_Some (TASKS k !! q) → nice_of q (tcsetpgrp succ g k) = fg_nice succ g k q.
Proof.
  intros Hi Hj. assert (E : JOBS (tcsetpgrp succ g k) = JOBS (set_fg g k)).
  { unfold tcsetpgrp. cbv zeta.
    assert (H1 : JOBS (if decide (fg_pgid (JOBS k) ≠ 0 ∧ fg_pgid (JOBS k) ≠ g)
      then withdraw succ (group_members (fg_pgid (JOBS k)) (JOBS (set_fg g k))) (set_fg g k)
      else set_fg g k) = JOBS (set_fg g k)) by (case_decide; [apply withdraw_jobs|done]).
    destruct (decide (g = 0)); [exact H1|]. by rewrite !nice_all_jobs. }
  split; [by apply tcsetpgrp_inv|]. unfold tcgetpgrp. rewrite E. split; [exact Hj|].
  split; [done|]. intros q Hq. by apply tcsetpgrp_nice.
Qed.

Definition demo_jobs : Kernel :=
  set_jobs (setpgid 1 0 (setpgid 2 1 no_jobs)) demo_family.

Lemma foreground_elevation_witness :
  nice_of 2 (tcsetpgrp (λ _, [0]) 1 demo_jobs) = Some (-15) ∧
  nice_of 0 (tcsetpgrp (λ _, [0]) 1 demo_jobs) = Some (-8).
Proof.
  destruct (foreground_elevation (λ _, [0]) 1 demo_jobs) as (_ & _ & _ & H).
  - apply (same_tables_inv demo_family); [done..|exact demo_family_inv].
  - apply setpgid_ok, setpgid_ok, no_jobs_ok.
  - split; (rewrite H; [by vm_compute|apply (bool_decide_unpack _); by vm_compute]).
Defined.

(** ** Resource limits *)

(** Setting a limit succeeds exactly for a known resource with soft at most hard
    and hard at most the current hard limit; it then changes that limit of that
    process and nothing else, and otherwise changes nothing. Every soft limit
    stays at most its hard limit. *)
Theorem set_limit_correct t pid r c m :
  table_ok t → 0 ≤ c → m ≤ U64_MAX →
  table_ok (set_limit pid r c m t).2 ∧
  if decide ((r < N_RLIMITS)%nat ∧ c ≤ m ∧ m ≤ max (get_limit pid r t)) then
    (set_limit pid r c m t).1 = 0 ∧
    (∀ p r', get_limit p r' (set_limit pid r c m t).2 =
       if decide (p = pid ∧ r' = r) then mkRlimit c m else get_limit p r' t)
  else
    (set_limit pid r c m t).1 = -1 ∧
    (∀ p r', get_limit p r' (set_limit pid r c m t).2 = get_limit p r' t).
Proof.
  intros Ht Hc Hm. split; [by apply set_limit_ok|]. by apply set_limit_spec.
Qed.

Lemma set_limit_correct_witness :
  (set_limit 7 3 10 20 (init_pid 7 None ∅)).1 = 0 ∧
  get_limit 7 3 (set_limit 7 3 10 20 (init_pid 7 None ∅)).2 = mkRlimit 10 20.
Proof.
  destruct (set_limit_correct (init_pid 7 None ∅) 7 3 10 20) as [_ H];
    [apply init_pid_ok; intros p l; by rewrite lookup_empty|lia|unfold U64_MAX; lia|].
  rewrite decide_True in H by (vm_compute; split_and!; try done; lia).
  destruct H as [H1 H2]. split; [exact H1|]. rewrite H2. by rewrite decide_True.
Defined.

(** ** The log ring *)

(** The log ring holds exactly the last 256 messages, oldest first, each cut to
    its first 128 bytes, and neither logging nor reading ever panics. *)
Theorem kring_last_messages ms :
  ∃ r es, push_all ms new_ring = Ret r ∧ iter r = Ret es ∧
    message <$> es = drop (length ms - RING_SIZE) (logged <$> ms).
Proof.
  destruct (push_all_rep ms new_ring [] new_ring_rep) as (r & E & Hr). simpl in Hr.
  destruct (iter_rep r _ Hr) as (es & Ei & Hes). exists r, es. rewrite length_fmap in Hes. done.
Qed.

(** ** The self-sharding map *)

Section hotmap.
Context {V : Type}.

Inductive map_op :=
| op_get (busy : bool) (k : string)
| op_insert (busy : bool) (k : string) (v : V)
| op_remove (busy : bool) (k : string)
| op_snapshot.

Inductive map_out := out_value (o : option V) | out_done | out_all (m : gmap string V).

Definition hot_step (o : map_op) (m : HotMap V) : map_out * HotMap V :=
  match o with
  | op_get b k => let (r, m') := get b k m in (out_value r, m')
  | op_insert b k v => (out_done, insert b k v m)
  | op_remove b k => let (r, m') := remove b k m in (out_value r, m')
  | op_snapshot => (out_all (snapshot m), m)
  end.

(** The specification: a plain map. *)
Definition map_step (o : map_op) (m : gmap string V) : map_out * gmap string V :=
  match o with
  | op_get _ k => (out_value (m !! k), m)
  | op_insert _ k v => (out_done, <[k := v]> m)
  | op_remove _ k => (out_value (m !! k), delete k m)
  | op_snapshot => (out_all m, m)
  end.

Fixpoint run {S : Type} (step : map_op → S → map_out * S) (os : list map_op) (s : S)
    : list map_out * S :=
  match os with
  | [] => ([], s)
  | o :: os' => let (r, s1) := step o s in let (rs, s2) := run step os' s1 in (r :: rs, s2)
  end.

Lemma hot_step_refines o m : hot_ok m →
  (hot_step o m).1 = (map_step o (view m)).1 ∧ hot_ok (hot_step o m).2 ∧
  view (hot_step o m).2 = (map_step o (view m)).2.
Proof.
  intros Hm. destruct o as [b k|b k v|b k|]; cbn [hot_step map_step].
  - destruct (get_ok b k m Hm) as (H1 & H2 & H3). destruct (get b k m) as [r m'].
    cbn [fst snd] in *. by subst.
  - destruct (insert_ok b k v m Hm) as (H1 & H2). done.
  - destruct (remove_ok b k m Hm) as (H1 & H2 & H3). destruct (remove b k m) as [r m'].
    cbn [fst snd] in *. by subst.
  - done.
Qed.

Lemma hot_run_refines os m : hot_ok m →
  (run hot_step os m).1 = (run map_step os (view m)).1 ∧ hot_ok (run hot_step os m).2 ∧
  view (run hot_step os m).2 = (run map_step os (view m)).2.
Proof.
  revert m. induction os as [|o os IH]; intros m Hm; [done|]. cbn [run].
  destruct (hot_step_refines o m Hm) as (H1 & H2 & H3).
  destruct (hot_step o m) as [r m1], (map_step o (view m)) as [r' g1]. cbn [fst snd] in *. subst.
  destruct (IH m1 H2) as (H4 & H5 & H6).
  destruct (run hot_step os m1) as [rs m2], (run map_step os (view m1)) as [rs' g2].
  cbn [fst snd] in *. subst. done.
Qed.

Lemma new_hotmap_ok : hot_ok (new_hotmap (V := V)) ∧ view (new_hotmap (V := V)) = ∅.
Proof.
  split; [|done]. split; [done|]. intros i s k v Hi Hv. apply lookup_replicate in Hi as [-> _].
  by rewrite lookup_empty in Hv.
Qed.

(** C39. The self-sharding map behaves as a plain map when its operations are atomic: any
    sequence of operations, none interrupted between reading the flag and its
    locked update, gives the answers a map gives, whatever contention the locks report
    and through the split into eight shards. Two operations that overlap around the
    split are not covered: a key can be lost then ([insert_race_loses_key]). *)
Theorem hotmap_refines_map (os : list map_op) :
  (run hot_step os new_hotmap).1 = (run map_step os ∅).1 ∧
  snapshot (run hot_step os new_hotmap).2 = (run map_step os ∅).2.
Proof.
  destruct new_hotmap_ok as [H0 Hv]. destruct (hot_run_refines os new_hotmap H0) as (H1 & _ & H2).
  rewrite Hv in H1, H2. done.
Qed.

(** An insert that read the flag before another thread split the map stores into
    the drained global map: the key is not found afterwards. *)
Lemma insert_race_loses_key busy k v (m : HotMap V) :
  hot_ok m → sharded m = false → 1000 < contention m → global_lock m !! k = None →
  sharded (check_split m) = true →
  (get busy k (insert_after false false k v (check_split m))).1 = None.
Proof.
  intros Hm Hs Hc Hk Hs'. destruct (move_items_spec m Hm Hs) as (H1 & _ & _ & H4).
  assert (E : check_split m = mkHot (global_lock (move_items m)) true (shards (move_items m))
    (contention (move_items m))).
  { unfold check_split. rewrite decide_True by done. by rewrite Hs. }
  rewrite E. unfold get, get_after, insert_after, set_global. cbn [sharded].
  cbn [fst]. unfold shard in *. cbn [shards]. by rewrite H4.
Qed.
End hotmap.
