(* ===== verification/Users.v ===== *)
(** Users, groups, passwords and permission bits: the database half of
    [kernel/src/users.rs]. The operations that also rewrite files under [/etc]
    are in [UserOps]. Strings are byte strings. *)
From Stdlib Require Import Ascii.
From stdpp Require Import base numbers list gmap strings.
From S2P Require Import Prelude RunQueue Task Scheduler HotMap.

(** ** Numbers as text *)

Definition digit (d : Z) : string :=
  String (ascii_of_N (Z.to_N (if decide (d < 10) then 48 + d else 87 + d))) EmptyString.

(** [n] in base [b], most significant digit first; [fuel] digits at most. *)
Fixpoint digits (fuel : nat) (b n : Z) : string :=
  match fuel with
  | O => EmptyString
  | S f => (if decide (n < b) then EmptyString else digits f b (n / b)) +:+ digit (n mod b)
  end.
(** [{}] of an unsigned number below 2^64: at most 20 digits. *)
Definition dec (n : Z) : string := digits 20 10 n.
(** [{:016x}]. *)
Definition hex16 (n : Z) : string :=
  let s := digits 16 16 n in
  foldr (λ _ acc, "0" +:+ acc) s (seq 0 (16 - String.length s)).

(** ** Permission bits *)

Definition OWNER_R : Z := 256.
Definition OWNER_W : Z := 128.
Definition OWNER_X : Z := 64.
Definition GROUP_R : Z := 32.
Definition GROUP_W : Z := 16.
Definition GROUP_X : Z := 8.
Definition OTHER_R : Z := 4.
Definition OTHER_W : Z := 2.
Definition OTHER_X : Z := 1.
Definition SETUID : Z := 2048.
Definition SETGID : Z := 1024.

Definition mode_has (m b : Z) : bool := negb (Z.land m b =? 0).

Definition mode_str (m : Z) : string :=
  (if mode_has m OWNER_R then "r" else "-") +:+ (if mode_has m OWNER_W then "w" else "-") +:+
  (if mode_has m OWNER_X then if mode_has m SETUID then "s" else "x"
   else if mode_has m SETUID then "S" else "-") +:+
  (if mode_has m GROUP_R then "r" else "-") +:+ (if mode_has m GROUP_W then "w" else "-") +:+
  (if mode_has m GROUP_X then if mode_has m SETGID then "s" else "x"
   else if mode_has m SETGID then "S" else "-") +:+
  (if mode_has m OTHER_R then "r" else "-") +:+ (if mode_has m OTHER_W then "w" else "-") +:+
  (if mode_has m OTHER_X then "x" else "-").

(** [from_octal]: the value wraps at 16 bits. *)
Definition from_octal (s : string) : option Z :=
  foldl (λ acc b, v ← acc; if decide (b < 48 ∨ 55 < b) then None
                           else Some ((v * 8 + (b - 48)) mod 65536)) (Some 0) (bytes_of s).

(** ** The database *)

Record User := mkUser { u_name : string; u_uid : Z; u_gid : Z; u_home : string; u_shell : string }.
Record Group := mkGroup { g_name : string; g_gid : Z; g_members : list string }.
Record ShadowEntry := mkShadow { s_name : string; s_hash : string }.
Record AuditEntry := mkAudit { a_user : string; a_command : string; a_time : Z; a_success : bool }.

Record Users := mkUsers {
  USERS : list User;
  GROUPS : list Group;
  SHADOW : list ShadowEntry;
  CURRENT_UID : Z;
  CWD : string;
  SUDO_LAST_AUTH_MS : Z;
  UMASK : Z;
  SUDO_AUDIT : list AuditEntry;
  HOSTNAME : string
}.
Definition SUDO_TIMEOUT_MS : Z := 5 * 60 * 1000.
Definition MAX_AUDIT_ENTRIES : nat := 64.

Definition no_users : Users := mkUsers [] [] [] 0 "" 0 18 [] "".

Definition with_accounts (us : list User) (gs : list Group) (ss : list ShadowEntry) (d : Users) : Users :=
  mkUsers us gs ss (CURRENT_UID d) (CWD d) (SUDO_LAST_AUTH_MS d) (UMASK d) (SUDO_AUDIT d) (HOSTNAME d).
Definition set_session (uid : Z) (cwd : string) (d : Users) : Users :=
  mkUsers (USERS d) (GROUPS d) (SHADOW d) uid cwd (SUDO_LAST_AUTH_MS d) (UMASK d) (SUDO_AUDIT d) (HOSTNAME d).
Definition set_current_uid (uid : Z) (d : Users) : Users := set_session uid (CWD d) d.
Definition set_cwd (path : string) (d : Users) : Users := set_session (CURRENT_UID d) path d.
Definition set_sudo_time (t : Z) (d : Users) : Users :=
  mkUsers (USERS d) (GROUPS d) (SHADOW d) (CURRENT_UID d) (CWD d) t (UMASK d) (SUDO_AUDIT d) (HOSTNAME d).
(** [set_umask] returns the old value. *)
Definition set_umask (mask : Z) (d : Users) : Z * Users :=
  (UMASK d, mkUsers (USERS d) (GROUPS d) (SHADOW d) (CURRENT_UID d) (CWD d) (SUDO_LAST_AUTH_MS d) mask
     (SUDO_AUDIT d) (HOSTNAME d)).
Definition set_hostname (name : string) (d : Users) : Users :=
  mkUsers (USERS d) (GROUPS d) (SHADOW d) (CURRENT_UID d) (CWD d) (SUDO_LAST_AUTH_MS d) (UMASK d)
    (SUDO_AUDIT d) name.
Definition hostname (d : Users) : string :=
  if decide (HOSTNAME d = "") then "nodeai" else HOSTNAME d.

Definition audit_sudo (user command : string) (success : bool) (now : Z) (d : Users) : Users :=
  let log := SUDO_AUDIT d in
  let log := if decide (MAX_AUDIT_ENTRIES ≤ length log)%nat then drop 1 log else log in
  mkUsers (USERS d) (GROUPS d) (SHADOW d) (CURRENT_UID d) (CWD d) (SUDO_LAST_AUTH_MS d) (UMASK d)
    (log ++ [mkAudit user command now success]) (HOSTNAME d).

(** ** Passwords *)

Definition hash_password (password : string) : string :=
  let salt := fnv1a [Z.of_nat (String.length password) mod 256; 0x4E; 0x41; 0x49] in
  let salted := dec salt +:+ ":" +:+ password in
  hex16 salt +:+ ":" +:+ hex16 (fnv1a (bytes_of salted)).

(** [stored_hash.find(':')]. *)
Definition find_char (c : ascii) (s : string) : option nat :=
  fst <$> list_find (λ x, x = c) (String.list_ascii_of_string s).

Definition verify_password (password stored_hash : string) : bool :=
  match find_char ":" stored_hash with
  | Some colon =>
      let salt_str := String.substring 0 colon stored_hash in
      let hash := fnv1a (bytes_of (salt_str +:+ ":" +:+ password)) in
      bool_decide (salt_str +:+ ":" +:+ hex16 hash = stored_hash)
  | None => false
  end.

(** ** Queries *)

Definition get_user (uid : Z) (d : Users) : option User :=
  snd <$> list_find (λ u, u_uid u = uid) (USERS d).
Definition get_user_by_name (name : string) (d : Users) : option User :=
  snd <$> list_find (λ u, u_name u = name) (USERS d).
Definition get_group (gid : Z) (d : Users) : option Group :=
  snd <$> list_find (λ g, g_gid g = gid) (GROUPS d).
Definition get_group_by_name (name : string) (d : Users) : option Group :=
  snd <$> list_find (λ g, g_name g = name) (GROUPS d).

(** [current_uid]: the running task's effective user, or the session's. *)
Definition current_uid (k : Kernel) (d : Users) : Z :=
  let p := scheduler_current_pid k in
  if decide (0 < p) then
    match get_euid p k with
    | Some e => e
    | None => CURRENT_UID d
    end
  else CURRENT_UID d.

Definition current_username (k : Kernel) (d : Users) : string :=
  let uid := current_uid k d in
  match get_user uid d with Some u => u_name u | None => "uid" +:+ dec uid end.
Definition current_home (k : Kernel) (d : Users) : string :=
  match get_user (current_uid k d) d with Some u => u_home u | None => "/" end.
Definition is_root (k : Kernel) (d : Users) : bool := bool_decide (current_uid k d = 0).

Definition user_can_sudo (username : string) (d : Users) : bool :=
  if existsb (λ g, bool_decide (g_name g = "sudo") && bool_decide (username ∈ g_members g)) (GROUPS d)
  then true
  else match get_user_by_name username d with
       | Some u => bool_decide (u_uid u = 0)
       | None => false
       end.

Definition user_groups (username : string) (d : Users) : list string :=
  let primary_gid := u_gid <$> get_user_by_name username d in
  g_name <$> filter (λ g, username ∈ g_members g ∨ primary_gid = Some (g_gid g)) (GROUPS d).

(** ** Authentication *)

Definition authenticate (username password : string) (d : Users) : bool :=
  match list_find (λ s, s_name s = username) (SHADOW d) with
  | Some (_, s) => verify_password password (s_hash s)
  | None => false
  end.

Definition switch_user (username : string) (d : Users) : bool * Users :=
  match get_user_by_name username d with
  | Some u => (true, set_cwd (u_home u) (set_current_uid (u_uid u) d))
  | None => (false, d)
  end.

Definition sudo_auth (k : Kernel) (password : string) (d : Users) : bool * Users :=
  let username := current_username k d in
  if negb (user_can_sudo username d) && negb (is_root k d) then (false, d) else
  let now := uptime_ms k in
  let last_auth := SUDO_LAST_AUTH_MS d in
  if decide (sat_sub now last_auth < SUDO_TIMEOUT_MS ∧ 0 < last_auth) then (true, d)
  else if authenticate username password d then (true, set_sudo_time now d)
  else (false, d).

(** ** Permission checks *)

Definition user_in_group (uid gid : Z) (d : Users) : bool :=
  match get_user uid d with
  | Some u =>
      if decide (u_gid u = gid) then true
      else existsb (λ g, bool_decide (g_gid g = gid) && bool_decide (u_name u ∈ g_members g)) (GROUPS d)
  | None => false
  end.

Definition can_access (owner_bit group_bit other_bit : Z) (k : Kernel) (file_uid file_gid mode : Z)
    (d : Users) : bool :=
  if is_root k d then true else
  let uid := current_uid k d in
  if decide (uid = file_uid) then mode_has mode owner_bit
  else if user_in_group uid file_gid d then mode_has mode group_bit
  else mode_has mode other_bit.
Definition can_read := can_access OWNER_R GROUP_R OTHER_R.
Definition can_write := can_access OWNER_W GROUP_W OTHER_W.
Definition can_exec := can_access OWNER_X GROUP_X OTHER_X.

(** ** Account changes *)

(** [init]: the default accounts. *)
Definition default_users : list User :=
  [mkUser "root" 0 0 "/root" "/bin/sh"; mkUser "nodeai" 1000 1000 "/home/nodeai" "/bin/sh";
   mkUser "nobody" 65534 65534 "/nonexistent" "/bin/false"].
Definition default_groups : list Group :=
  [mkGroup "root" 0 []; mkGroup "nodeai" 1000 []; mkGroup "nobody" 65534 [];
   mkGroup "sudo" 27 ["nodeai"]].
Definition default_shadow : list ShadowEntry :=
  [mkShadow "root" (hash_password "root"); mkShadow "nodeai" (hash_password "nodeai")].

Definition init_accounts (d : Users) : Users :=
  set_hostname "nodeai" (set_cwd "/"
    (with_accounts (USERS d ++ default_users) (GROUPS d ++ default_groups)
       (SHADOW d ++ default_shadow) d)).

(** [users.iter().map(|u| u.uid).max().unwrap_or(999) + 1], at least 1000. *)
Definition next_uid (us : list User) : Z :=
  let m := match us with [] => 999 | _ => foldr Z.max 0 (u_uid <$> us) end in
  let uid := u32 (m + 1) in
  if decide (uid < 1000) then 1000 else uid.

Definition useradd_db (username : string) (d : Users) : (Z + string) * Users :=
  if existsb (λ u, bool_decide (u_name u = username)) (USERS d) then (inr "user already exists", d) else
  let uid := next_uid (USERS d) in
  (inl uid,
   with_accounts (USERS d ++ [mkUser username uid uid ("/home/" +:+ username) "/bin/sh"])
     (GROUPS d ++ [mkGroup username uid [username]])
     (SHADOW d ++ [mkShadow username "!"]) d).

Definition userdel_db (username : string) (d : Users) : option string * Users :=
  if decide (username = "root") then (Some "cannot delete root", d) else
  let us := filter (λ u, u_name u ≠ username) (USERS d) in
  if decide (length us = length (USERS d)) then (Some "user not found", d) else
  (None,
   with_accounts us
     (filter (λ g, g_name g ≠ username)
        ((λ g, mkGroup (g_name g) (g_gid g) (filter (λ m, m ≠ username) (g_members g))) <$> GROUPS d))
     (filter (λ s, s_name s ≠ username) (SHADOW d)) d).

Fixpoint set_hash (username hash : string) (ss : list ShadowEntry) : option (list ShadowEntry) :=
  match ss with
  | [] => None
  | s :: ss' =>
      if decide (s_name s = username) then Some (mkShadow (s_name s) hash :: ss')
      else cons s <$> set_hash username hash ss'
  end.

Definition change_password_db (username new_password : string) (d : Users) : option string * Users :=
  match set_hash username (hash_password new_password) (SHADOW d) with
  | Some ss => (None, with_accounts (USERS d) (GROUPS d) ss d)
  | None => (Some "user not found", d)
  end.

(** ** The text of the account files *)

Definition concat_lines (ls : list string) : string := foldr String.append "" ls.

Definition generate_passwd (d : Users) : string :=
  concat_lines ((λ u, u_name u +:+ ":x:" +:+ dec (u_uid u) +:+ ":" +:+ dec (u_gid u) +:+ "::/" +:+
    u_home u +:+ ":" +:+ u_shell u +:+ String (ascii_of_N 10) "") <$> USERS d).
Definition generate_group (d : Users) : string :=
  concat_lines ((λ g, g_name g +:+ ":x:" +:+ dec (g_gid g) +:+ ":" +:+
    String.concat "," (g_members g) +:+ String (ascii_of_N 10) "") <$> GROUPS d).
Definition generate_shadow (d : Users) : string :=
  concat_lines ((λ s, s_name s +:+ ":" +:+ s_hash s +:+ ":0:0:99999:7:::" +:+
    String (ascii_of_N 10) "") <$> SHADOW d).
