(* ===== verification/Ramfs.v ===== *)
(** The in-memory file system: [kernel/src/vfs/ramfs.rs], with the types of
    [kernel/src/vfs/mod.rs] it implements.

    An [Arc<dyn VfsNode>] is the inode number of a node in one store: nodes are
    shared, never copied. A directory's children are the abstract map of its
    [HotMap]. An open handle owns a copy of the file's bytes. *)
From Stdlib Require Import Ascii.
From stdpp Require Import base numbers list gmap strings sorting.
From S2P Require Import Prelude RunQueue Task Scheduler Users.

Inductive VfsError :=
| NotFound | NotADirectory | NotAFile | PermissionDenied | Exists | InvalidArgument
| Io | OutOfSpace | ReadOnly | TooManyOpenFiles | WouldBlock.
#[export] Instance VfsError_eq_dec : EqDecision VfsError.
Proof. solve_decision. Defined.

Inductive vres (A : Type) := Ok (a : A) | Err (e : VfsError).
Arguments Ok {A} a.
Arguments Err {A} e.
Definition vbind {A B} (r : vres A) (k : A → vres B) : vres B :=
  match r with Ok a => k a | Err e => Err e end.

Record Stat := mkStat {
  st_ino : Z; st_size : Z; st_is_dir : bool; st_nlink : Z; st_uid : Z; st_gid : Z; st_mode : Z
}.
Record DirEntry := mkDirent { d_name : string; d_is_dir : bool; d_ino : Z }.

(** Owner and permission atomics of a node. *)
Record Meta := mkMeta { m_uid : Z; m_gid : Z; m_mode : Z }.

Inductive Node :=
| RamFile (data : list Z) (meta : Meta)
| RamDir (children : gmap string Z) (meta : Meta)
| SymlinkNode (target : string).

Record Fs := mkFs { nodes : gmap Z Node; NEXT_INO : Z; MOUNTS : list (string * Z) }.
Definition set_nodes (n : gmap Z Node) (f : Fs) : Fs := mkFs n (NEXT_INO f) (MOUNTS f).

(** The calling user, as node creation and permission checks see it. *)
Record Creds := mkCreds { c_uid : Z; c_gid : option Z; c_umask : Z }.
Definition creds_of (k : Kernel) (d : Users) : Creds :=
  let uid := current_uid k d in
  mkCreds uid (u_gid <$> get_user uid d) (UMASK d).

(** ** Node operations *)

Definition alloc_ino (f : Fs) : Z * Fs :=
  (NEXT_INO f, mkFs (nodes f) (add64 (NEXT_INO f) 1) (MOUNTS f)).

(** [0o644 & !umask] and [0o755 & !umask] on a [u16]. *)
Definition masked (mode umask : Z) : Z := Z.land mode (Z.lxor umask 65535).

Definition file_meta (c : Creds) : Meta := mkMeta (c_uid c) (default 0 (c_gid c)) (masked 420 (c_umask c)).
Definition dir_meta (c : Creds) : Meta := mkMeta (c_uid c) (default 0 (c_gid c)) (masked 493 (c_umask c)).

Definition node_stat (i : Z) (f : Fs) : vres Stat :=
  match nodes f !! i with
  | Some (RamFile d m) => Ok (mkStat i (Z.of_nat (length d)) false 1 (m_uid m) (m_gid m) (m_mode m))
  | Some (RamDir _ m) => Ok (mkStat i 0 true 2 (m_uid m) (m_gid m) (m_mode m))
  | Some (SymlinkNode t) => Ok (mkStat i (Z.of_nat (String.length t)) false 1 0 0 41471)
  | None => Err NotFound
  end.

(** [RamFileHandle]; [h_back] names the file whose bytes [flush] replaces. *)
Record Handle := mkHandle {
  h_data : list Z; h_pos : Z; h_back : Z; h_meta : Meta
}.

Definition node_open (i : Z) (f : Fs) : vres Handle :=
  match nodes f !! i with
  | Some (RamFile d m) => Ok (mkHandle d 0 i m)
  | Some (RamDir _ _) => Err NotAFile
  | Some (SymlinkNode _) => Err InvalidArgument
  | None => Err NotFound
  end.

Definition node_lookup (i : Z) (name : string) (f : Fs) : vres Z :=
  match nodes f !! i with
  | Some (RamDir ch _) => match ch !! name with Some j => Ok j | None => Err NotFound end
  | Some _ => Err NotADirectory
  | None => Err NotFound
  end.

(** [BTreeMap] iteration: names in byte order. *)
Definition node_readdir (i : Z) (f : Fs) : vres (list DirEntry) :=
  match nodes f !! i with
  | Some (RamDir ch _) =>
      Ok ((λ e, match node_stat e.2 f with
                | Ok s => mkDirent e.1 (st_is_dir s) (st_ino s)
                | Err _ => mkDirent e.1 false 0
                end) <$> btree_list String.le ch)
  | Some _ => Err NotADirectory
  | None => Err NotFound
  end.

(** Insert a new node as a child, unless the name is taken. *)
Definition add_child (i : Z) (name : string) (n : Node) (f : Fs) : vres Z * Fs :=
  match nodes f !! i with
  | Some (RamDir ch m) =>
      match ch !! name with
      | Some _ => (Err Exists, f)
      | None =>
          let (j, f) := alloc_ino f in
          (Ok j, set_nodes (<[i := RamDir (<[name := j]> ch) m]> (<[j := n]> (nodes f))) f)
      end
  | Some _ => (Err NotADirectory, f)
  | None => (Err NotFound, f)
  end.

Definition create_file (c : Creds) (i : Z) (name : string) (f : Fs) : vres Z * Fs :=
  add_child i name (RamFile [] (file_meta c)) f.
Definition mkdir (c : Creds) (i : Z) (name : string) (f : Fs) : vres Z * Fs :=
  add_child i name (RamDir ∅ (dir_meta c)) f.

(** Files and symlinks keep the trait's default: [InvalidArgument]. *)
Definition create_symlink (i : Z) (name target : string) (f : Fs) : vres Z * Fs :=
  match nodes f !! i with
  | Some (RamDir _ _) => add_child i name (SymlinkNode target) f
  | Some _ => (Err InvalidArgument, f)
  | None => (Err NotFound, f)
  end.

Definition node_unlink (i : Z) (name : string) (f : Fs) : vres unit * Fs :=
  match nodes f !! i with
  | Some (RamDir ch m) =>
      match ch !! name with
      | Some _ => (Ok tt, set_nodes (<[i := RamDir (delete name ch) m]> (nodes f)) f)
      | None => (Err NotFound, f)
      end
  | Some _ => (Err NotADirectory, f)
  | None => (Err NotFound, f)
  end.

Definition set_mode (i mode : Z) (f : Fs) : vres unit * Fs :=
  match nodes f !! i with
  | Some (RamFile d m) => (Ok tt, set_nodes (<[i := RamFile d (mkMeta (m_uid m) (m_gid m) mode)]> (nodes f)) f)
  | Some (RamDir ch m) => (Ok tt, set_nodes (<[i := RamDir ch (mkMeta (m_uid m) (m_gid m) mode)]> (nodes f)) f)
  | Some (SymlinkNode _) => (Err ReadOnly, f)
  | None => (Err NotFound, f)
  end.
Definition set_owner (i uid gid : Z) (f : Fs) : vres unit * Fs :=
  match nodes f !! i with
  | Some (RamFile d m) => (Ok tt, set_nodes (<[i := RamFile d (mkMeta uid gid (m_mode m))]> (nodes f)) f)
  | Some (RamDir ch m) => (Ok tt, set_nodes (<[i := RamDir ch (mkMeta uid gid (m_mode m))]> (nodes f)) f)
  | Some (SymlinkNode _) => (Err ReadOnly, f)
  | None => (Err NotFound, f)
  end.

Definition readlink (i : Z) (f : Fs) : option string :=
  match nodes f !! i with Some (SymlinkNode t) => Some t | _ => None end.

(** [VfsNode::link_child]: no node overrides the trait's default. *)
Definition link_child (i : Z) (name : string) (node : Z) (f : Fs) : vres unit * Fs :=
  (Err InvalidArgument, f).

(** The inherent [RamDir::link_child], which trait objects do not reach. *)
Definition ramdir_link_child (i : Z) (name : string) (node : Z) (f : Fs) : vres unit * Fs :=
  match nodes f !! i with
  | Some (RamDir ch m) =>
      match ch !! name with
      | Some _ => (Err Exists, f)
      | None => (Ok tt, set_nodes (<[i := RamDir (<[name := node]> ch) m]> (nodes f)) f)
      end
  | _ => (Err NotADirectory, f)
  end.

(** [RamDir::new_root]. *)
Definition new_root (f : Fs) : Z * Fs :=
  let (i, f) := alloc_ino f in (i, set_nodes (<[i := RamDir ∅ (mkMeta 0 0 493)]> (nodes f)) f).

(** ** Handles *)

Definition h_len (h : Handle) : Z := Z.of_nat (length (h_data h)).
Definition set_data (d : list Z) (pos : Z) (h : Handle) : Handle := mkHandle d pos (h_back h) (h_meta h).

Definition bytes_available (h : Handle) : Z := sat_sub (h_len h) (h_pos h).

(** [read] into a buffer of [len] bytes: the bytes produced. Slicing
    [data[pos..pos + n]] panics when [pos] is beyond the end, even for [n = 0]. *)
Definition handle_read (len : nat) (h : Handle) : res (list Z * Handle) :=
  let n := Z.min (Z.of_nat len) (sat_sub (h_len h) (h_pos h)) in
  if decide (h_len h < h_pos h) then Panic else
  Ret (take (Z.to_nat n) (drop (Z.to_nat (h_pos h)) (h_data h)),
       set_data (h_data h) (h_pos h + n) h).

(** [write]: grow with zeros up to the end of the write, then copy. *)
Definition handle_write (b : list Z) (h : Handle) : res (Z * Handle) :=
  let e := add64 (h_pos h) (Z.of_nat (length b)) in
  let d := if decide (h_len h < e) then resize (Z.to_nat e) 0 (h_data h) else h_data h in
  if decide (e < h_pos h) then Panic else
  Ret (Z.of_nat (length b),
       set_data (take (Z.to_nat (h_pos h)) d ++ b ++ drop (Z.to_nat e) d) e h).

Definition handle_seek (pos : Z) (h : Handle) : Handle := set_data (h_data h) pos h.

Definition handle_stat (h : Handle) : Stat :=
  mkStat (h_back h) (h_len h) false 1 (m_uid (h_meta h)) (m_gid (h_meta h)) (m_mode (h_meta h)).

Definition handle_flush (h : Handle) (f : Fs) : Fs :=
  match nodes f !! h_back h with
  | Some (RamFile _ m) => set_nodes (<[h_back h := RamFile (h_data h) m]> (nodes f)) f
  | _ => f
  end.

Definition handle_truncate (len : Z) (h : Handle) : Handle :=
  let d := take (Z.to_nat len) (h_data h) in
  set_data d (if decide (Z.of_nat (length d) < h_pos h) then Z.of_nat (length d) else h_pos h) h.

(** ** Facts *)

(** Names lead to nodes, and inode numbers are handed out once. *)
Record fs_ok (f : Fs) : Prop := {
  fo_children i ch m name j : nodes f !! i = Some (RamDir ch m) → ch !! name = Some j →
    is_Some (nodes f !! j);
  fo_ino i : is_Some (nodes f !! i) → 0 < i < NEXT_INO f;
  fo_next : 0 < NEXT_INO f < u64_modulus
}.

Lemma alloc_ino_fresh f : fs_ok f → nodes f !! NEXT_INO f = None.
Proof.
  intros Hf. destruct (nodes f !! NEXT_INO f) eqn:E; [|done].
  destruct (fo_ino f Hf (NEXT_INO f)) as [_ H]; [eauto|lia].
Qed.

Lemma add_child_ok i name n f r f' :
  fs_ok f → NEXT_INO f + 1 < u64_modulus →
  (∀ ch m, n = RamDir ch m → ch = ∅) → add_child i name n f = (r, f') → fs_ok f'.
Proof.
  intros Hf Hn Hch. unfold add_child. destruct (nodes f !! i) as [[d m|ch m|t]|] eqn:Ei;
    try by intros [= _ <-].
  destruct (ch !! name) as [j|] eqn:Ec; [by intros [= _ <-]|].
  cbn [alloc_ino]. intros [= _ <-]. pose proof (alloc_ino_fresh f Hf) as Hfr.
  destruct Hf as [H1 H2 H3]. unfold set_nodes. cbn [nodes NEXT_INO].
  rewrite (add64_small (NEXT_INO f) 1) by lia.
  assert (Hne : i ≠ NEXT_INO f) by (intros ->; congruence).
  assert (Hdom : ∀ x, is_Some (nodes f !! x) →
    is_Some (<[i := RamDir (<[name := NEXT_INO f]> ch) m]> (<[NEXT_INO f := n]> (nodes f)) !! x)).
  { intros x Hx. rewrite lookup_insert. case_decide; [eauto|].
    rewrite lookup_insert. case_decide; eauto. }
  split; cbn [nodes NEXT_INO].
  - intros x ch' m' nm j Hx Hj. rewrite lookup_insert in Hx. case_decide.
    + injection Hx as <- <-. rewrite lookup_insert in Hj. case_decide.
      * injection Hj as <-. rewrite lookup_insert_ne by congruence. rewrite lookup_insert_eq. eauto.
      * apply Hdom. by eapply H1.
    + rewrite lookup_insert in Hx. case_decide; [|apply Hdom; by eapply H1].
      injection Hx as ->. rewrite (Hch ch' m' eq_refl), lookup_empty in Hj. done.
  - intros x [y Hy]. rewrite lookup_insert in Hy. case_decide; [subst; specialize (H2 x); eauto with lia|].
    + destruct H2 as [? ?]; [eauto|]. lia.
    + rewrite lookup_insert in Hy. case_decide; [subst; lia|]. destruct (H2 x) as [? ?]; [eauto|]. lia.
  - lia.
Qed.
