(* ===== verification/Vfs.v ===== *)
(** The VFS layer: [kernel/src/vfs/mod.rs] and [kernel/src/vfs/path.rs], over the
    RAM file system and the page cache. Watcher notifications are output only
    and dropped; [init] mounts the device file system given to it. *)
From Stdlib Require Import Ascii.
From stdpp Require Import base numbers list gmap strings.
From S2P Require Import Prelude FrameAlloc PageCache RunQueue Task Scheduler Users Ramfs.

(** ** Paths *)

Definition slash : ascii := "/"%char.

(** [path.split('/').filter(|s| !s.is_empty())]. *)
Fixpoint split_slash (cur : list ascii) (s : list ascii) : list (list ascii) :=
  match s with
  | [] => [cur]
  | c :: s' => if decide (c = slash) then cur :: split_slash [] s' else split_slash (cur ++ [c]) s'
  end.
Definition components (path : string) : list string :=
  String.string_of_list_ascii <$>
    filter (λ c, c ≠ []) (split_slash [] (String.list_ascii_of_string path)).

(** [s[n..]]. *)
Definition str_drop (n : nat) (s : string) : string := String.substring n (String.length s - n) s.
Definition str_take (n : nat) (s : string) : string := String.substring 0 n s.

(** [rfind('/')]. *)
Definition rfind_slash (s : string) : option nat :=
  fst <$> last (filter (λ e, e.2 = slash) (imap (λ i c, (i, c)) (String.list_ascii_of_string s))).

(** The loop of [resolve]: a later mount of the same length wins. *)
Definition best_mount (path : string) (ms : list (string * Z)) : option (string * Z) :=
  foldl (λ best m,
    if decide (String.prefix m.1 path = true ∧
               (match best with Some b => String.length b.1 | None => 0%nat end ≤ String.length m.1)%nat)
    then Some m else best) None ms.

Fixpoint walk (node : Z) (cs : list string) (f : Fs) : vres Z :=
  match cs with
  | [] => Ok node
  | c :: cs' =>
      if decide (c = ".") then walk node cs' f
      else if decide (c = "..") then walk node cs' f
      else vbind (node_lookup node c f) (λ n, walk n cs' f)
  end.

Definition resolve (path : string) (f : Fs) : vres Z :=
  match best_mount path (MOUNTS f) with
  | Some (mp, root) => walk root (components (str_drop (String.length mp) path)) f
  | None => Err NotFound
  end.

(** [path.trim_end_matches('/')]. *)
Fixpoint trim_slashes (s : list ascii) : list ascii :=
  match s with
  | [] => []
  | c :: s' => match trim_slashes s' with
               | [] => if decide (c = slash) then [] else [c]
               | t => c :: t
               end
  end.

Definition split_parent (path : string) : string * string :=
  let path := String.string_of_list_ascii (trim_slashes (String.list_ascii_of_string path)) in
  match rfind_slash path with
  | Some pos => (if decide (pos = 0%nat) then "/" else str_take pos path, str_drop (pos + 1) path)
  | None => ("/", path)
  end.

(** ** Mounts *)

Definition mount (mountpoint : string) (root : Z) (f : Fs) : Fs :=
  mkFs (nodes f) (NEXT_INO f) (MOUNTS f ++ [(mountpoint, root)]).

Definition vfs_init (c : Creds) (devfs_root : Z) (f : Fs) : Z * Fs :=
  let (root, f) := new_root f in
  let f := (mkdir c root "dev" f).2 in
  let f := (mkdir c root "proc" f).2 in
  let f := (mkdir c root "sys" f).2 in
  let f := (mkdir c root "ai" f).2 in
  (root, mount "/" root (mount "/dev" devfs_root f)).

(** ** Permissions *)

Definition U32_MAX : Z := 4294967295.

Definition check_perm (c : Creds) (i want : Z) (f : Fs) : vres unit :=
  if decide (c_uid c = 0) then Ok tt else
  vbind (node_stat i f) (λ st,
    let gid := default U32_MAX (c_gid c) in
    let perm_bits :=
      if decide (c_uid c = st_uid st) then Z.land (Z.shiftr (st_mode st) 6) 7
      else if decide (gid = st_gid st) then Z.land (Z.shiftr (st_mode st) 3) 7
      else Z.land (st_mode st) 7 in
    if decide (Z.land perm_bits want = want) then Ok tt else Err PermissionDenied).

Definition checked_open (c : Creds) (i : Z) (write : bool) (f : Fs) : vres Handle :=
  vbind (check_perm c i (if write then 6 else 4) f) (λ _, node_open i f).
Definition checked_readdir (c : Creds) (i : Z) (f : Fs) : vres (list DirEntry) :=
  vbind (check_perm c i 5 f) (λ _, node_readdir i f).

(** Check first, then change the directory. *)
Definition checked {A} (c : Creds) (i want : Z) (op : Fs → vres A * Fs) (f : Fs) : vres A * Fs :=
  match check_perm c i want f with
  | Ok _ => op f
  | Err e => (Err e, f)
  end.
Definition checked_create_file (c : Creds) (i : Z) (name : string) : Fs → vres Z * Fs :=
  checked c i 3 (create_file c i name).
Definition checked_mkdir (c : Creds) (i : Z) (name : string) : Fs → vres Z * Fs :=
  checked c i 3 (mkdir c i name).
Definition checked_unlink (c : Creds) (i : Z) (name : string) : Fs → vres unit * Fs :=
  checked c i 3 (node_unlink i name).

(** ** Whole files *)

(** The loop that reads 4096 bytes at a time until none are left. *)
Fixpoint read_all (fuel : nat) (h : Handle) : res (list Z) :=
  match fuel with
  | O => OutOfFuel
  | S n =>
      let! (b, h) := handle_read 4096 h in
      if decide (length b = 0%nat) then Ret [] else
      let! rest := read_all n h in Ret (b ++ rest)
  end.

(** [while off < data.len()] over a handle. *)
Fixpoint write_all (fuel : nat) (data : list Z) (h : Handle) : res (vres Handle) :=
  match fuel with
  | O => OutOfFuel
  | S n =>
      if decide (length data = 0%nat) then Ret (Ok h) else
      let! (k, h) := handle_write data h in
      if decide (k = 0) then Ret (Err Io) else write_all n (drop (Z.to_nat k) data) h
  end.

Section files.
Context {A : Type} {FA : FrameAllocator A}.

(** Files and their cached pages. *)
Record VfsState := mkVfs { vfs_fs : Fs; vfs_cache : PageCache A }.
Definition set_fs (f : Fs) (s : VfsState) : VfsState := mkVfs f (vfs_cache s).

(** The loader [read_file] gives the page cache: open with a permission check,
    seek, read. The read panics when the offset is beyond the end; a failed check
    loads nothing. *)
Definition page_loader (c : Creds) (i : Z) (f : Fs) (page_off : Z) (frame : list Z) : res (nat * list Z) :=
  match checked_open c i false f with
  | Ok h =>
      let! (b, _) := handle_read (length frame) (handle_seek page_off h) in
      Ret (length b, b ++ drop (length b) frame)
  | Err _ => Ret (0%nat, frame)
  end.

Definition read_file (c : Creds) (path : string) (s : VfsState) : res (vres (list Z) * VfsState) :=
  match resolve path (vfs_fs s) with
  | Err e => Ret (Err e, s)
  | Ok node =>
      match node_stat node (vfs_fs s) with
      | Err e => Ret (Err e, s)
      | Ok st =>
          if decide (0 < st_size st ≤ 64 * 1024 * 1024) then
            let! (b, pc) := read_bytes (st_ino st) 0 (Z.to_nat (st_size st))
                              (page_loader c node (vfs_fs s)) (vfs_cache s) in
            Ret (Ok b, mkVfs (vfs_fs s) pc)
          else
            match checked_open c node false (vfs_fs s) with
            | Err e => Ret (Err e, s)
            | Ok h => let! b := read_all (S (length (h_data h))) h in Ret (Ok b, s)
            end
      end
  end.

(** The parent path and name [write_file] and [unlink] use. *)
Definition parent_and_name (path : string) : string * string :=
  match rfind_slash path with
  | Some pos => (str_take (Nat.max pos 1) path, str_drop (pos + 1) path)
  | None => ("/", path)
  end.

Definition write_file (c : Creds) (path : string) (data : list Z) (s : VfsState)
    : res (vres unit * VfsState) :=
  let (parent_path, name) := parent_and_name path in
  match resolve parent_path (vfs_fs s) with
  | Err e => Ret (Err e, s)
  | Ok parent =>
      let (r, f) := match resolve path (vfs_fs s) with
                    | Ok n => (Ok n, vfs_fs s)
                    | Err NotFound => checked_create_file c parent name (vfs_fs s)
                    | Err e => (Err e, vfs_fs s)
                    end in
      let s := set_fs f s in
      match r with
      | Err e => Ret (Err e, s)
      | Ok node =>
          match checked_open c node true f with
          | Err e => Ret (Err e, s)
          | Ok h =>
              let! w := write_all (S (length data)) data h in
              match w with
              | Err e => Ret (Err e, s)
              | Ok _ =>
                  match node_stat node f with
                  | Ok st => let! pc := invalidate (st_ino st) (vfs_cache s) in
                             Ret (Ok tt, mkVfs f pc)
                  | Err _ => Ret (Ok tt, s)
                  end
              end
          end
      end
  end.

Definition vfs_unlink (c : Creds) (path : string) (s : VfsState) : vres unit * VfsState :=
  let (parent_path, name) := parent_and_name path in
  match resolve parent_path (vfs_fs s) with
  | Err e => (Err e, s)
  | Ok parent => let (r, f) := checked_unlink c parent name (vfs_fs s) in (r, set_fs f s)
  end.

Definition link_node (parent_path name : string) (node : Z) (s : VfsState) : vres unit * VfsState :=
  match resolve parent_path (vfs_fs s) with
  | Err e => (Err e, s)
  | Ok parent => let (r, f) := link_child parent name node (vfs_fs s) in (r, set_fs f s)
  end.

Definition append_file (c : Creds) (path : string) (data : list Z) (s : VfsState)
    : res (vres unit * VfsState) :=
  let! (r, s) := read_file c path s in
  match r with
  | Ok existing => write_file c path (existing ++ data) s
  | Err NotFound => write_file c path data s
  | Err e => Ret (Err e, s)
  end.
End files.
Arguments VfsState : clear implicits.
