(* ===== verification/VfsProps.v ===== *)
(** What the VFS promises: path resolution, file handles and whole-file reads;
    and where [write_file] and the page cache do not keep it. *)
From Stdlib Require Import Ascii.
From stdpp Require Import base numbers list gmap sets strings.
From S2P Require Import Prelude Pmm PmmFacts PmmProps FrameAlloc PageCache PageCacheFacts RunQueue Task Scheduler Users Ramfs Vfs.

(** ** Path resolution *)

Definition mount_matches (path : string) (m : string * Z) : Prop := String.prefix m.1 path = true.

Lemma best_mount_snoc path ms m :
  best_mount path (ms ++ [m]) =
    (if decide (String.prefix m.1 path = true ∧
       (match best_mount path ms with Some b => String.length b.1 | None => 0%nat end ≤ String.length m.1)%nat)
     then Some m else best_mount path ms).
Proof. unfold best_mount. by rewrite foldl_app. Qed.

Lemma best_mount_spec path ms :
  match best_mount path ms with
  | Some m => m ∈ ms ∧ mount_matches path m ∧
      ∀ m', m' ∈ ms → mount_matches path m' → (String.length m'.1 ≤ String.length m.1)%nat
  | None => ∀ m', m' ∈ ms → ¬ mount_matches path m'
  end.
Proof.
  induction ms as [|m ms IH] using rev_ind; [by intros m' Hm%elem_of_nil|].
  rewrite best_mount_snoc. unfold mount_matches in *.
  destruct (best_mount path ms) as [b|]; case_decide as H; cbn [fst] in *.
  - split; [set_solver|]. split; [tauto|]. intros m' Hm Hp. apply elem_of_app in Hm as [Hm|Hm].
    + destruct IH as (_ & _ & IH). specialize (IH m' Hm Hp). lia.
    + apply list_elem_of_singleton in Hm as ->. done.
  - destruct IH as (H1 & H2 & H3). split; [set_solver|]. split; [done|]. intros m' Hm Hp.
    apply elem_of_app in Hm as [Hm|Hm]; [by apply H3|].
    apply list_elem_of_singleton in Hm as ->. destruct (decide (String.length m.1 ≤ String.length b.1)%nat); [done|].
    exfalso. apply H. split; [done|lia].
  - split; [set_solver|]. split; [tauto|]. intros m' Hm Hp. apply elem_of_app in Hm as [Hm|Hm].
    + exfalso. by eapply IH.
    + apply list_elem_of_singleton in Hm as ->. done.
  - intros m' Hm Hp. apply elem_of_app in Hm as [Hm|Hm]; [by eapply IH|].
    apply list_elem_of_singleton in Hm as ->. apply H. split; [done|lia].
Qed.

(** Path resolution starts at the longest mount point that is a prefix of the
    path and walks the rest from its root; it reports "not found" at once exactly
    when no mount point is a prefix. *)
Theorem resolve_longest path f :
  (∃ mp root, (mp, root) ∈ MOUNTS f ∧ mount_matches path (mp, root) ∧
     (∀ m', m' ∈ MOUNTS f → mount_matches path m' → (String.length m'.1 ≤ String.length mp)%nat) ∧
     resolve path f = walk root (components (str_drop (String.length mp) path)) f) ∨
  ((∀ m', m' ∈ MOUNTS f → ¬ mount_matches path m') ∧ resolve path f = Err NotFound).
Proof.
  unfold resolve. pose proof (best_mount_spec path (MOUNTS f)) as H.
  destruct (best_mount path (MOUNTS f)) as [[mp root]|]; [left|by right].
  destruct H as (H1 & H2 & H3). exists mp, root. by split_and!.
Qed.

(** ** Handles *)

Lemma handle_write_spec b h :
  0 ≤ h_pos h → h_pos h + Z.of_nat (length b) < u64_modulus →
  ∃ h', handle_write b h = Ret (Z.of_nat (length b), h') ∧
    h_pos h' = h_pos h + Z.of_nat (length b) ∧ h_back h' = h_back h ∧ h_meta h' = h_meta h ∧
    h_len h' = Z.max (h_len h) (h_pos h + Z.of_nat (length b)) ∧
    take (length b) (drop (Z.to_nat (h_pos h)) (h_data h')) = b ∧
    ∀ j : nat, (Z.of_nat j < h_pos h ∨ h_pos h + Z.of_nat (length b) ≤ Z.of_nat j) →
      (j < length (h_data h))%nat → h_data h' !! j = h_data h !! j.
Proof.
  intros Hp He. unfold handle_write. cbv zeta. rewrite add64_small by lia.
  rewrite (decide_False (P := _ < h_pos h)) by lia.
  set (e := h_pos h + Z.of_nat (length b)) in *.
  set (d := if decide (h_len h < e) then _ else _).
  assert (Hd : Z.of_nat (length d) = Z.max (h_len h) e).
  { unfold d. case_decide; [rewrite length_resize|]; unfold h_len in *; lia. }
  assert (Hpre : ∀ j : nat, (j < length (h_data h))%nat → d !! j = h_data h !! j).
  { intros j Hj. unfold d. case_decide; [|done]. unfold h_len in *. rewrite lookup_resize by lia. done. }
  assert (Ht : length (take (Z.to_nat (h_pos h)) d) = Z.to_nat (h_pos h)).
  { rewrite length_take. unfold h_len in *. lia. }
  eexists. split; [done|]. cbn [h_pos h_back h_meta h_data set_data]. unfold h_len. cbn [h_data set_data].
  split_and!; [done..| | |].
  - rewrite !length_app, Ht, length_drop. unfold h_len in *. lia.
  - rewrite <- Ht at 1. rewrite drop_app_length, take_app_length. done.
  - intros j Hj Hlt. destruct Hj as [Hj|Hj].
    + rewrite lookup_app_l by lia. rewrite lookup_take_lt by lia. by apply Hpre.
    + rewrite lookup_app_r by lia. rewrite lookup_app_r by lia. rewrite lookup_drop, <- (Hpre j) by done.
      f_equal. lia.
Qed.

(** What is written through a handle is what a later read at the same position
    returns, and no other byte of the file changes; a write past the end grows
    the file to exactly the end of the write. *)
Theorem handle_write_read b h :
  0 ≤ h_pos h → h_pos h + Z.of_nat (length b) < u64_modulus →
  ∃ h', handle_write b h = Ret (Z.of_nat (length b), h') ∧
    (∃ h2, handle_read (length b) (handle_seek (h_pos h) h') = Ret (b, h2)) ∧
    h_len h' = Z.max (h_len h) (h_pos h + Z.of_nat (length b)) ∧
    ∀ j : nat, (Z.of_nat j < h_pos h ∨ h_pos h + Z.of_nat (length b) ≤ Z.of_nat j) →
      (j < length (h_data h))%nat → h_data h' !! j = h_data h !! j.
Proof.
  intros Hp He. destruct (handle_write_spec b h Hp He) as (h' & E & Hpos & _ & _ & Hlen & Hrd & Hout).
  exists h'. split; [done|]. split; [|by split]. unfold handle_read. cbv zeta.
  change (h_len (handle_seek (h_pos h) h')) with (h_len h').
  cbn [h_pos h_data handle_seek set_data]. rewrite decide_False by lia.
  replace (Z.to_nat (Z.min (Z.of_nat (length b)) (sat_sub (h_len h') (h_pos h)))) with (length b)
    by (unfold sat_sub; lia).
  rewrite Hrd. eauto.
Qed.

(** Reading after a seek beyond the end of a file panics the kernel, whatever
    the buffer, instead of returning 0 bytes. *)
Lemma read_past_end_panics len pos h :
  h_len h < pos → handle_read len (handle_seek pos h) = Panic.
Proof.
  intros Hp. unfold handle_read. cbv zeta.
  change (h_len (handle_seek pos h)) with (h_len h). cbn [h_pos handle_seek set_data].
  by rewrite decide_True.
Qed.

Section files.
Context {A : Type} {FA : FrameAllocator A}.
Implicit Types s : VfsState A.

(** ** Reading files *)

Lemma handle_read_open d m i off :
  0 ≤ off ≤ Z.of_nat (length d) →
  ∃ h, handle_read PAGE_BYTES (handle_seek off (mkHandle d 0 i m)) =
    Ret (take PAGE_BYTES (drop (Z.to_nat off) d), h).
Proof.
  intros Ho. unfold handle_read, h_len. cbn [h_pos h_data handle_seek set_data]. cbv zeta.
  rewrite decide_False by lia. eexists. f_equal. f_equal.
  destruct (decide (Z.of_nat PAGE_BYTES ≤ Z.of_nat (length d) - off)).
  - f_equal. unfold sat_sub. lia.
  - rewrite !take_ge; [done|rewrite length_drop; lia|]. rewrite length_drop. unfold sat_sub. lia.
Qed.

(** For a user who may read the file, the loader reads the file. *)
Lemma page_loader_loads c i f d m :
  nodes f !! i = Some (RamFile d m) → check_perm c i 4 f = Ok tt → loads (page_loader c i f) d.
Proof.
  intros Hn Hc off Hoff. unfold page_loader, checked_open. rewrite Hc. cbn [vbind].
  unfold node_open. rewrite Hn. change (length zero_page) with PAGE_BYTES.
  destruct (handle_read_open d m i off ltac:(lia)) as [h E]. rewrite E. cbn [res_bind].
  rewrite length_take, length_drop. do 2 f_equal.
  unfold file_page, zero_page. rewrite drop_replicate, resize_spec.
  rewrite length_drop. f_equal. f_equal. lia.
Qed.

(** A user with read permission gets the bytes of the file from [read_file],
    through the page cache or around it; they are cut short only when the
    machine is out of frames, and the cache stays coherent with the file. *)
Theorem read_file_correct c path s F O i d m :
  resolve path (vfs_fs s) = Ok i → nodes (vfs_fs s) !! i = Some (RamFile d m) →
  check_perm c i 4 (vfs_fs s) = Ok tt → Z.of_nat (length d) ≤ 64 * 1024 * 1024 →
  pc_inv (vfs_cache s) F O → coherent (vfs_cache s) i d →
  ∃ bs s' F' O', read_file c path s = Ret (Ok bs, s') ∧ vfs_fs s' = vfs_fs s ∧
    pc_inv (vfs_cache s') F' O' ∧ coherent (vfs_cache s') i d ∧
    bs = take (length bs) d ∧ (bs = d ∨ F' = ∅).
Proof.
  intros Hr Hn Hc Hlen Hi Hco. unfold read_file. rewrite Hr. unfold node_stat. rewrite Hn.
  cbn [st_size st_ino]. case_decide as Hsz.
  - rewrite Nat2Z.id. unfold read_bytes.
    destruct (read_loop_spec (S (length d)) (vfs_cache s) F O i 0 (length d) d (page_loader c i (vfs_fs s)))
      as (bs & pc & F' & O' & E & Hi' & Hco' & _ & Hbs & Hor);
      [done|done|by eapply page_loader_loads|lia|lia|lia|unfold u64_modulus; lia|].
    rewrite E. cbn [res_bind]. exists bs. eexists _, F', O'. split; [done|]. cbn [vfs_fs vfs_cache].
    split_and!; [done..|]. destruct Hor as [Hl|]; [left|by right].
    rewrite Hl in Hbs. by rewrite Hbs, take_ge.
  - assert (d = []) as -> by (destruct d; [done|cbn [length] in *; lia]).
    unfold checked_open. rewrite Hc. cbn [vbind]. unfold node_open. rewrite Hn. cbn.
    eexists [], s, F, O. split_and!; try done. by left.
Qed.

(** Permissions are not checked for cached pages: once every page of a file is
    in the cache, [read_file] returns its contents to any user. *)
Theorem cached_file_readable_by_all c path s F O i d m :
  resolve path (vfs_fs s) = Ok i → nodes (vfs_fs s) !! i = Some (RamFile d m) →
  0 < Z.of_nat (length d) ≤ 64 * 1024 * 1024 →
  pc_inv (vfs_cache s) F O → coherent (vfs_cache s) i d →
  (∀ off, 0 ≤ off < Z.of_nat (length d) → off mod PAGE_SIZE = 0 →
     is_Some (entries (vfs_cache s) !! mkKey i off)) →
  ∃ s', read_file c path s = Ret (Ok d, s').
Proof.
  intros Hr Hn Hlen Hi Hco Hall. unfold read_file. rewrite Hr. unfold node_stat. rewrite Hn.
  cbn [st_size st_ino]. rewrite decide_True by done. rewrite Nat2Z.id. unfold read_bytes.
  destruct (read_loop_cached (S (length d)) (vfs_cache s) F O i 0 (length d) d
    (page_loader c i (vfs_fs s))) as (pc & E);
    [done|done|lia|lia|lia|unfold u64_modulus; lia|done|].
  rewrite E. cbn [res_bind]. rewrite Z2Nat.inj_0, drop_0, take_ge by done. eauto.
Qed.

(** ** Writing files *)

(** The files of [f] keep their bytes in [f'], and files [f'] adds are empty. *)
Definition no_bytes_stored (f f' : Fs) : Prop :=
  (∀ i d m, nodes f !! i = Some (RamFile d m) → nodes f' !! i = Some (RamFile d m)) ∧
  (∀ i d m, nodes f' !! i = Some (RamFile d m) → nodes f !! i = None → d = []).

Lemma no_bytes_stored_refl f : no_bytes_stored f f.
Proof. split; [done|]. intros i d m H1 H2. congruence. Qed.

Lemma create_stores_nothing c i name f : fs_ok f → no_bytes_stored f (create_file c i name f).2.
Proof.
  intros Hf. unfold create_file, add_child.
  destruct (nodes f !! i) as [[d m|ch m|t]|] eqn:Ei; try apply no_bytes_stored_refl.
  destruct (ch !! name); [apply no_bytes_stored_refl|]. unfold alloc_ino, set_nodes. cbn [snd nodes].
  pose proof (alloc_ino_fresh f Hf) as Hfr. split; cbn [nodes].
  - intros j d m' Hj. rewrite lookup_insert_ne by (intros ->; congruence).
    rewrite lookup_insert_ne by (intros <-; congruence). done.
  - intros j d m' Hj Hnone. rewrite lookup_insert in Hj. case_decide; [done|].
    rewrite lookup_insert in Hj. case_decide; [by simplify_eq|congruence].
Qed.

(** [write_file] stores nothing: whenever it returns, with success or an error,
    every file still has the bytes it had and a file it created is empty,
    whatever the data. *)
Theorem write_file_stores_nothing c path data s r s' :
  fs_ok (vfs_fs s) → write_file c path data s = Ret (r, s') →
  no_bytes_stored (vfs_fs s) (vfs_fs s').
Proof.
  intros Hf. unfold write_file. destruct (parent_and_name path) as [pp name].
  destruct (resolve pp (vfs_fs s)) as [parent|e]; [|intros [= _ <-]; apply no_bytes_stored_refl].
  set (rf := match resolve path (vfs_fs s) with Ok n => _ | Err _ => _ end).
  assert (Hrf : no_bytes_stored (vfs_fs s) rf.2).
  { unfold rf. destruct (resolve path (vfs_fs s)) as [n|[]]; try apply no_bytes_stored_refl.
    unfold checked_create_file, checked. destruct (check_perm _ _ _ _); [|apply no_bytes_stored_refl].
    by apply create_stores_nothing. }
  destruct rf as [[node|e] f]; cbn [snd] in Hrf; [|by intros [= _ <-]].
  destruct (checked_open c node true f) as [h|e]; [|by intros [= _ <-]].
  destruct (write_all _ data h) as [[h'|e]| |]; cbn [res_bind]; try done; [|by intros [= _ <-]].
  destruct (node_stat node f) as [st|e]; [|by intros [= _ <-]].
  destruct (invalidate _ _) as [pc| |]; cbn [res_bind]; try done. by intros [= _ <-].
Qed.
End files.

(** ** Concrete instances *)

(** Root directory 1 with the file [/secret] (inode 2), owned by root, mode 0600. *)
Definition demo_fs : Fs :=
  mkFs {[ 1 := RamDir {[ "secret" := 2 ]} (mkMeta 0 0 493); 2 := RamFile [104; 105] (mkMeta 0 0 384) ]}
    3 [("/dev", 9); ("/", 1)].
Definition root_creds : Creds := mkCreds 0 (Some 0) 18.
Definition other_creds : Creds := mkCreds 1000 (Some 1000) 18.
Definition cold_cache : PageCache BuddyAllocator := mkPC ∅ [] 0 0 0 small_pmm ∅.
(** The file's one page is cached in frame 0x104000. *)
Definition warm_cache : PageCache BuddyAllocator :=
  mkPC {[ mkKey 2 0 := mkEntry 0x104000 false ]} [mkKey 2 0] 0 1 0 small_pmm
    {[ 0x104000 := file_page [104; 105] 0 ]}.

Lemma demo_fs_ok : fs_ok demo_fs.
Proof.
  split; unfold demo_fs; cbn [nodes NEXT_INO].
  - intros i ch m name j. rewrite lookup_insert, lookup_singleton. repeat case_decide; try done.
    intros [= <- <-]. rewrite lookup_singleton. case_decide; intros [= <-].
    apply (bool_decide_unpack _). by vm_compute.
  - intros i [n Hn]. rewrite lookup_insert, lookup_singleton in Hn. repeat case_decide; subst; done || lia.
  - by vm_compute.
Qed.

Lemma cold_cache_inv : pc_inv cold_cache (list_to_set (all_pages small_fl)) ∅.
Proof.
  split; try done.
  - exists small_fl. split_and!; [exact small_rep|done|set_solver|set_solver].
  - intros k. split; [by intros H%elem_of_nil|by intros [? ?]].
  - constructor.
  - unfold cold_cache. simpl. lia.
Qed.

Lemma warm_cache_inv : pc_inv warm_cache (list_to_set (all_pages small_fl)) {[ 0x104000 ]}.
Proof.
  split; unfold warm_cache; cbn [entries lru falloc frame_mem].
  - exists small_fl. split_and!; [exact small_rep|done|apply (bool_decide_unpack _); by vm_compute|].
    intros f Hf. apply elem_of_singleton in Hf as ->. by vm_compute.
  - intros k. rewrite list_elem_of_singleton, lookup_singleton. case_decide; split; intros H1.
    + eauto.
    + congruence.
    + congruence.
    + by destruct H1.
  - apply NoDup_singleton.
  - simpl. unfold MAX_PAGES. lia.
  - intros k e. rewrite lookup_singleton_Some. intros [_ <-]. set_solver.
  - intros k1 k2 e1 e2. rewrite !lookup_singleton_Some. intros [-> _] [-> _]. done.
  - intros k e. rewrite lookup_singleton_Some. intros [_ <-]. eexists. split; [apply lookup_singleton_eq|].
    apply length_file_page.
Qed.

Lemma warm_cache_coherent : coherent warm_cache 2 [104; 105].
Proof.
  intros off b. unfold cached, warm_cache. cbn [entries frame_mem]. rewrite lookup_singleton.
  case_decide as E; [|done]. injection E as <-. cbn [option_bind phys_frame].
  rewrite bind_Some. intros (e & [= <-] & H). rewrite lookup_singleton_eq in H. by injection H as <-.
Qed.

Lemma handle_write_read_witness :
  ∃ h', handle_write [7; 8] (mkHandle [1; 2; 3] 2 5 (mkMeta 0 0 420)) = Ret (2, h') ∧
    ∃ h2, handle_read 2 (handle_seek 2 h') = Ret ([7; 8], h2).
Proof.
  destruct (handle_write_read [7; 8] (mkHandle [1; 2; 3] 2 5 (mkMeta 0 0 420))) as (h' & E & H & _);
    [simpl; lia|by vm_compute|]. exists h'. split; [exact E|exact H].
Defined.

Lemma read_file_correct_witness :
  ∃ bs s' F', read_file root_creds "/secret" (mkVfs demo_fs cold_cache) = Ret (Ok bs, s') ∧
    (bs = [104; 105] ∨ F' = (∅ : gset Z)).
Proof.
  destruct (read_file_correct root_creds "/secret" (mkVfs demo_fs cold_cache)
    (list_to_set (all_pages small_fl)) ∅ 2 [104; 105] (mkMeta 0 0 384))
    as (bs & s' & F' & O' & E & _ & _ & _ & _ & H);
    [by vm_compute|by vm_compute|by vm_compute|by vm_compute|exact cold_cache_inv| |].
  - by intros off b.
  - exists bs, s', F'. split; [exact E|exact H].
Defined.

(** The file is readable by root only: user 1000 is refused on a cold cache and
    served from a warm one. *)
Lemma cached_file_readable_by_all_witness :
  check_perm other_creds 2 4 demo_fs = Err PermissionDenied ∧
  ∃ s', read_file other_creds "/secret" (mkVfs demo_fs warm_cache) = Ret (Ok [104; 105], s').
Proof.
  split; [by vm_compute|].
  apply (cached_file_readable_by_all other_creds "/secret" (mkVfs demo_fs warm_cache)
    (list_to_set (all_pages small_fl)) {[ 0x104000 ]} 2 [104; 105] (mkMeta 0 0 384));
    [by vm_compute|by vm_compute|simpl; lia|exact warm_cache_inv|exact warm_cache_coherent|].
  intros off H1 H2. assert (off = 0) as ->; [|apply (bool_decide_unpack _); by vm_compute].
  unfold PAGE_SIZE in H2. simpl in H1. rewrite Z.mod_small in H2 by lia. exact H2.
Defined.

Lemma demo_write : ∃ s', write_file root_creds "/secret" [1; 2; 3] (mkVfs demo_fs cold_cache) = Ret (Ok tt, s').
Proof. eexists. vm_compute. reflexivity. Qed.

Lemma write_file_stores_nothing_witness :
  ∃ s', write_file root_creds "/secret" [1; 2; 3] (mkVfs demo_fs cold_cache) = Ret (Ok tt, s') ∧
    nodes (vfs_fs s') !! 2 = Some (RamFile [104; 105] (mkMeta 0 0 384)).
Proof.
  destruct demo_write as [s' E]. exists s'. split; [exact E|].
  apply (write_file_stores_nothing root_creds "/secret" [1; 2; 3] (mkVfs demo_fs cold_cache) (Ok tt) s');
    [exact demo_fs_ok|exact E|by vm_compute].
Defined.
