(* ===== verification/UserOps.v ===== *)
(** The account operations of [kernel/src/users.rs] that also keep the files
    under [/etc] and the home directories. *)
From stdpp Require Import base numbers list gmap sets strings relations.
From S2P Require Import Prelude RunQueue Task Scheduler HotMap Users Ramfs Vfs.

(** [write_etc_file]: create, write and flush; errors are dropped. A file that
    exists already is left alone. *)
Definition write_etc_file (c : Creds) (name : string) (content : list Z) (f : Fs) : res Fs :=
  match resolve "/etc" f with
  | Err _ => Ret f
  | Ok etc =>
      let (r, f) := create_file c etc name f in
      match r with
      | Err _ => Ret f
      | Ok node =>
          match node_open node f with
          | Err _ => Ret f
          | Ok h => let! (_, h) := handle_write content h in Ret (handle_flush h f)
          end
      end
  end.

Definition unlink_quiet (dir : Z) (name : string) (f : Fs) : Fs := (node_unlink dir name f).2.

Definition write_account_files (c : Creds) (d : Users) (f : Fs) : res Fs :=
  let! f := write_etc_file c "passwd" (bytes_of (generate_passwd d)) f in
  let! f := write_etc_file c "group" (bytes_of (generate_group d)) f in
  write_etc_file c "shadow" (bytes_of (generate_shadow d)) f.

Definition refresh_etc_files (c : Creds) (d : Users) (f : Fs) : res Fs :=
  match resolve "/etc" f with
  | Err _ => Ret f
  | Ok etc =>
      let f := unlink_quiet etc "passwd" f in
      let f := unlink_quiet etc "group" f in
      let f := unlink_quiet etc "shadow" f in
      write_account_files c d f
  end.

(** The text of [/etc/motd] and [/etc/sudoers]. *)
Definition nl : string := String (Ascii.ascii_of_N 10) "".
Definition motd_text : string :=
  "Welcome to NodeAI - AI-Integrated Kernel OS" +:+ nl +:+ "Type 'help' for available commands." +:+ nl.
Definition sudoers_text : string :=
  "# /etc/sudoers - NodeAI sudo configuration" +:+ nl +:+ "root ALL=(ALL) ALL" +:+ nl +:+
  "%sudo ALL=(ALL) ALL" +:+ nl.

Definition populate_etc_files (c : Creds) (d : Users) (f : Fs) : res Fs :=
  let f := match resolve "/" f with
           | Ok root => (mkdir c root "home" (mkdir c root "root" (mkdir c root "etc" f).2).2).2
           | Err _ => f
           end in
  let! f := write_account_files c d f in
  let! f := write_etc_file c "hostname" (bytes_of ("nodeai" +:+ nl)) f in
  let! f := write_etc_file c "motd" (bytes_of motd_text) f in
  write_etc_file c "sudoers" (bytes_of sudoers_text) f.

Definition make_home (c : Creds) (name : string) (f : Fs) : Fs :=
  match resolve "/home" f with
  | Ok home => (mkdir c home name f).2
  | Err _ => f
  end.

Definition users_init (c : Creds) (d : Users) (f : Fs) : res (Users * Fs) :=
  let d := init_accounts d in
  let! f := populate_etc_files c d f in
  Ret (d, make_home c "nodeai" f).

Definition useradd (c : Creds) (username : string) (d : Users) (f : Fs)
    : res ((Z + string) * (Users * Fs)) :=
  let (r, d) := useradd_db username d in
  match r with
  | inr e => Ret (inr e, (d, f))
  | inl uid =>
      let! f := refresh_etc_files c d (make_home c username f) in
      Ret (inl uid, (d, f))
  end.

Definition userdel (c : Creds) (username : string) (d : Users) (f : Fs)
    : res (option string * (Users * Fs)) :=
  let (r, d) := userdel_db username d in
  match r with
  | Some e => Ret (Some e, (d, f))
  | None => let! f := refresh_etc_files c d f in Ret (None, (d, f))
  end.

Definition change_password (c : Creds) (username new_password : string) (d : Users) (f : Fs)
    : res (option string * (Users * Fs)) :=
  let (r, d) := change_password_db username new_password d in
  match r with
  | Some e => Ret (Some e, (d, f))
  | None => let! f := refresh_etc_files c d f in Ret (None, (d, f))
  end.

(** * What the account database keeps, and that it locks everybody out. *)

(** Names and user ids are unique, user ids are 32-bit, and root is there. *)
Record accounts_ok (d : Users) : Prop := {
  ao_names : NoDup (u_name <$> USERS d);
  ao_uids : NoDup (u_uid <$> USERS d);
  ao_range u : u ∈ USERS d → is_u32 (u_uid u);
  ao_root : ∃ u, u ∈ USERS d ∧ u_name u = "root" ∧ u_uid u = 0
}.

(** A user id is free above every id in use. *)
Definition uid_room (d : Users) : Prop := ∀ u, u ∈ USERS d → u_uid u + 1 < u32_modulus.

Inductive account_step : Users → Users → Prop :=
| as_add c name d f r d' f' :
    uid_room d → useradd c name d f = Ret (r, (d', f')) → account_step d d'
| as_del c name d f r d' f' : userdel c name d f = Ret (r, (d', f')) → account_step d d'
| as_passwd c name pw d f r d' f' :
    change_password c name pw d f = Ret (r, (d', f')) → account_step d d'
| as_su name d : account_step d (switch_user name d).2
| as_sudo k pw d : account_step d (sudo_auth k pw d).2
| as_audit u cmd b t d : account_step d (audit_sudo u cmd b t d)
| as_umask m d : account_step d (set_umask m d).2
| as_cwd p d : account_step d (set_cwd p d)
| as_hostname n d : account_step d (set_hostname n d).

Lemma same_users_ok d d' : USERS d' = USERS d → accounts_ok d → accounts_ok d'.
Proof. intros E [H1 H2 H3 H4]. split; by rewrite E. Qed.

Lemma max_uid us u : u ∈ us → u_uid u ≤ foldr Z.max 0 (u_uid <$> us).
Proof.
  induction us as [|v us IH]; intros Hu; [by apply elem_of_nil in Hu|].
  cbn [fmap list_fmap foldr]. apply elem_of_cons in Hu as [->|Hu]; [lia|]. specialize (IH Hu). lia.
Qed.

Lemma max_uid_bound us b : 0 ≤ b → (∀ u, u ∈ us → u_uid u ≤ b) → 0 ≤ foldr Z.max 0 (u_uid <$> us) ≤ b.
Proof.
  intros Hb. induction us as [|v us IH]; intros H; cbn [fmap list_fmap foldr]; [lia|].
  specialize (IH ltac:(intros u Hu; apply H; set_solver)). specialize (H v ltac:(set_solver)). lia.
Qed.

Lemma next_uid_fresh us :
  (∀ u, u ∈ us → is_u32 (u_uid u) ∧ u_uid u + 1 < u32_modulus) →
  is_u32 (next_uid us) ∧ ∀ u, u ∈ us → u_uid u < next_uid us.
Proof.
  intros H. unfold next_uid. destruct us as [|v us].
  { change (u32 (999 + 1)) with 1000. split; [done|]. intros u Hu. by apply elem_of_nil in Hu. }
  set (l := v :: us) in *.
  pose proof (max_uid_bound l (u32_modulus - 2)) as Hb. destruct Hb as [Hb1 Hb2]; [done| |].
  { intros u Hu. destruct (H u Hu). lia. }
  set (mx := foldr Z.max 0 (u_uid <$> l)) in *.
  assert (E : u32 (mx + 1) = mx + 1) by (apply Z.mod_small; unfold u32_modulus in *; lia).
  cbv zeta. rewrite E. pose proof (max_uid l) as Hmax. fold mx in Hmax.
  unfold is_u32. case_decide; (split; [unfold u32_modulus in *; lia|]); intros u Hu; specialize (Hmax u Hu); lia.
Qed.

Lemma useradd_db_ok name d : accounts_ok d → uid_room d → accounts_ok (useradd_db name d).2.
Proof.
  intros [H1 H2 H3 H4] Hroom. unfold useradd_db. destruct (existsb _ _) eqn:Ex; [by split|].
  destruct (next_uid_fresh (USERS d)) as [Hu Hlt].
  { intros u Hu. split; [by apply H3|by apply Hroom]. }
  assert (Hn : ∀ u, u ∈ USERS d → u_name u ≠ name).
  { intros u Hin E. rewrite <- not_true_iff_false, existsb_exists in Ex. apply Ex. exists u.
    split; [by apply list_elem_of_In|by rewrite bool_decide_eq_true_2]. }
  split; cbn [snd with_accounts USERS].
  - rewrite fmap_app. apply NoDup_app. split_and!; [done| |apply NoDup_singleton].
    intros x Hx Hx'. cbn in Hx'. apply list_elem_of_singleton in Hx' as ->.
    apply list_elem_of_fmap in Hx as (u & E & Hin). by apply (Hn u).
  - rewrite fmap_app. apply NoDup_app. split_and!; [done| |apply NoDup_singleton].
    intros x Hx Hx'. cbn [fmap list_fmap u_uid] in Hx'. apply list_elem_of_singleton in Hx' as ->.
    apply list_elem_of_fmap in Hx as (u & E & Hin). specialize (Hlt u Hin). lia.
  - intros u Hin. apply elem_of_app in Hin as [Hin|Hin]; [by apply H3|].
    by apply list_elem_of_singleton in Hin as ->.
  - destruct H4 as (u & Hin & E1 & E2). exists u. split; [|done]. apply elem_of_app. by left.
Qed.

Lemma NoDup_fmap_filter {X Y} (g : X → Y) (P : X → Prop) `{∀ x, Decision (P x)} l :
  NoDup (g <$> l) → NoDup (g <$> filter P l).
Proof.
  induction l as [|x l IH]; [done|]. rewrite fmap_cons, filter_cons, NoDup_cons.
  intros [Hx Hl]. case_decide; [|by apply IH]. rewrite fmap_cons. apply NoDup_cons. split; [|by apply IH].
  intros Hin. apply Hx. apply list_elem_of_fmap in Hin as (y & -> & Hy).
  apply list_elem_of_filter in Hy as [_ Hy]. by apply list_elem_of_fmap_2.
Qed.

Lemma userdel_db_ok name d : accounts_ok d → accounts_ok (userdel_db name d).2.
Proof.
  intros [H1 H2 H3 H4]. unfold userdel_db. case_decide as Hroot; [by split|]. cbv zeta.
  case_decide; [by split|]. split; cbn [snd with_accounts USERS].
  - by apply NoDup_fmap_filter.
  - by apply NoDup_fmap_filter.
  - intros u Hin. apply list_elem_of_filter in Hin as [_ Hin]. by apply H3.
  - destruct H4 as (u & Hin & E1 & E2). exists u. split; [|done]. apply list_elem_of_filter.
    split; [congruence|done].
Qed.

Lemma account_step_ok d d' : accounts_ok d → account_step d d' → accounts_ok d'.
Proof.
  intros Hd Hs. destruct Hs as [c name d f r d' f' Hroom E|c name d f r d' f' E|c name pw d f r d' f' E
    |name d|k pw d| | | |]; try by apply (same_users_ok d).
  - pose proof (useradd_db_ok name d Hd Hroom) as H. unfold useradd in E.
    destruct (useradd_db name d) as [[uid|e] d1]; cbn [snd] in H.
    + destruct (refresh_etc_files _ _ _); cbn [res_bind] in E; try done. by injection E as _ <- _.
    + by injection E as _ <- _.
  - pose proof (userdel_db_ok name d Hd) as H. unfold userdel in E.
    destruct (userdel_db name d) as [[e|] d1]; cbn [snd] in H.
    + by injection E as _ <- _.
    + destruct (refresh_etc_files _ _ _); cbn [res_bind] in E; try done. by injection E as _ <- _.
  - assert (H : accounts_ok (change_password_db name pw d).2).
    { unfold change_password_db. destruct (set_hash _ _ _); [by apply (same_users_ok d)|done]. }
    unfold change_password in E. destruct (change_password_db name pw d) as [[e|] d1]; cbn [snd] in H.
    + by injection E as _ <- _.
    + destruct (refresh_etc_files _ _ _); cbn [res_bind] in E; try done. by injection E as _ <- _.
  - unfold switch_user. destruct (get_user_by_name _ _); [by apply (same_users_ok d)|done].
  - unfold sudo_auth. cbv zeta. destruct (negb _ && negb _); [done|]. case_decide; [done|].
    destruct (authenticate _ _ _); [by apply (same_users_ok d)|done].
Qed.

(** C40. Over any run of account operations user names and user ids stay unique and
    in range, and the root account cannot be removed. *)
Theorem accounts_invariant d d' : accounts_ok d → rtc account_step d d' → accounts_ok d'.
Proof. intros Hd Hs. induction Hs as [|x y z Hxy _ IH]; [done|]. by apply IH, (account_step_ok x). Qed.

Lemma default_accounts_ok : accounts_ok (init_accounts no_users).
Proof.
  split.
  - apply (bool_decide_unpack _). by vm_compute.
  - apply (bool_decide_unpack _). by vm_compute.
  - intros u Hu. assert (H : Forall (λ u, is_u32 (u_uid u)) (USERS (init_accounts no_users))).
    { unfold is_u32. apply (bool_decide_unpack _). by vm_compute. }
    rewrite Forall_forall in H. by apply H.
  - eexists. split; [apply list_elem_of_here|]. done.
Qed.

Lemma accounts_invariant_witness :
  ∃ r d' f', useradd (mkCreds 0 (Some 0) 18) "alice" (init_accounts no_users) (mkFs ∅ 1 []) = Ret (r, (d', f')) ∧
    NoDup (u_uid <$> USERS d').
Proof.
  destruct (useradd (mkCreds 0 (Some 0) 18) "alice" (init_accounts no_users) (mkFs ∅ 1 []))
    as [[r [d' f']]| |] eqn:E; [|by vm_compute in E|by vm_compute in E].
  exists r, d', f'. split; [reflexivity|].
  apply (ao_uids d'), (accounts_invariant (init_accounts no_users)); [exact default_accounts_ok|].
  apply rtc_once. eapply as_add; [|exact E].
  intros u Hu. assert (H : Forall (λ u, u_uid u + 1 < u32_modulus) (USERS (init_accounts no_users))).
  { apply (bool_decide_unpack _). by vm_compute. }
  rewrite Forall_forall in H. by apply H.
Defined.

(** The right password is rejected: the stored hash is computed over the decimal
    salt and checked over the hexadecimal one, so neither default account can
    authenticate, and setting a new password does not help. *)
Theorem right_password_rejected :
  authenticate "root" "root" (init_accounts no_users) = false ∧
  authenticate "nodeai" "nodeai" (init_accounts no_users) = false ∧
  authenticate "root" "hunter2"
    (change_password_db "root" "hunter2" (init_accounts no_users)).2 = false.
Proof. by vm_compute. Qed.

(** Adding a user called "sudo" also adds a group of that name with that member,
    which is all [user_can_sudo] asks for. *)
Lemma sudo_user_can_sudo :
  user_can_sudo "sudo" (useradd_db "sudo" (init_accounts no_users)).2 = true.
Proof. by vm_compute. Qed.

(** [su] has no effect while a task is current: the user id is the task's. *)
Lemma su_ineffective name k d p e :
  scheduler_current_pid k = p → 0 < p → get_euid p k = Some e →
  current_uid k (switch_user name d).2 = e.
Proof. intros Hp Hpos He. unfold current_uid. cbv zeta. by rewrite Hp, decide_True, He. Qed.
