(* ===== verification/Bytes.v ===== *)
(** Byte strings as the wire formats and the cryptography use them: slices with
    Rust's bounds checks, big-endian integers, 32-bit words, exclusive or. *)
From stdpp Require Import base numbers list.
From S2P Require Import Prelude.

(** [&[u8]], [[u8; N]] and [Vec<u8>] are lists of bytes. *)
Definition byte_ok (b : Z) : Prop := 0 ≤ b < 256.
Abbreviation bytes_ok := (Forall byte_ok).

(** [x.to_be_bytes()] of an [8 n]-bit integer, and [from_be_bytes]. *)
Fixpoint to_be (n : nat) (x : Z) : list Z :=
  match n with
  | O => []
  | S n' => (x / 256 ^ Z.of_nat n') mod 256 :: to_be n' x
  end.
Definition from_be (l : list Z) : Z := foldl (λ a b, 256 * a + b) 0 l.
(** Little-endian words, as the processor stores them. *)
Definition to_le (n : nat) (x : Z) : list Z := rev (to_be n x).
Definition from_le (l : list Z) : Z := from_be (rev l).

(** [&l[a..b]] panics, [l.get(a..b)] does not. *)
Definition slice_get (a b : nat) (l : list Z) : option (list Z) :=
  if decide (a ≤ b ∧ b ≤ length l)%nat then Some (take (b - a) (drop a l)) else None.
Definition slice (a b : nat) (l : list Z) : res (list Z) :=
  match slice_get a b l with Some x => Ret x | None => Panic end.

(** [dst[i..i + src.len()].copy_from_slice(src)]. *)
Definition write_at (i : nat) (src dst : list Z) : res (list Z) :=
  if decide (i + length src ≤ length dst)%nat
  then Ret (take i dst ++ src ++ drop (i + length src) dst) else Panic.

(** [u32] arithmetic. *)
Definition add32 (a b : Z) : Z := u32 (a + b).
Definition sub32 (a b : Z) : Z := u32 (a - b).
Definition not32 (x : Z) : Z := Z.lxor x (u32_modulus - 1).
Definition rotl32 (x n : Z) : Z := Z.lor (u32 (Z.shiftl x n)) (Z.shiftr x (32 - n)).

(** [for i in .. { a[i] ^= b[i] }]. *)
Definition xor_bytes (a b : list Z) : list Z := zip_with Z.lxor a b.

(** ** Big-endian integers *)

Lemma length_to_be n x : length (to_be n x) = n.
Proof. induction n; simpl; congruence. Qed.

Lemma to_be_ok n x : bytes_ok (to_be n x).
Proof.
  induction n as [|n IH]; simpl; constructor; [|done]. apply Z.mod_pos_bound. lia.
Qed.

Lemma from_be_snoc l b : from_be (l ++ [b]) = 256 * from_be l + b.
Proof. unfold from_be. by rewrite foldl_app. Qed.

Lemma from_be_cons b l : from_be (b :: l) = b * 256 ^ Z.of_nat (length l) + from_be l.
Proof.
  induction l as [|c l IH] using rev_ind.
  - unfold from_be. simpl. rewrite Z.pow_0_r. lia.
  - rewrite app_comm_cons, !from_be_snoc, IH, length_app. simpl.
    rewrite Nat2Z.inj_add, Z.pow_add_r by lia. change (256 ^ Z.of_nat 1) with 256. lia.
Qed.

Lemma from_be_range l : bytes_ok l → 0 ≤ from_be l < 256 ^ Z.of_nat (length l).
Proof.
  induction 1 as [|b l Hb Hl IH]; [unfold from_be; simpl; lia|].
  rewrite from_be_cons. simpl length. rewrite Nat2Z.inj_succ, Z.pow_succ_r by lia.
  unfold byte_ok in Hb. nia.
Qed.

Lemma from_to_be n x : 0 ≤ x < 256 ^ Z.of_nat n → from_be (to_be n x) = x.
Proof.
  assert (H : ∀ x, from_be (to_be n x) = x mod 256 ^ Z.of_nat n).
  { clear. induction n as [|n IH]; intros x.
    - change (256 ^ Z.of_nat 0) with 1. by rewrite Z.mod_1_r.
    - simpl to_be. rewrite from_be_cons, length_to_be, IH. rewrite Nat2Z.inj_succ, Z.pow_succ_r by lia.
      pose proof (Z.pow_pos_nonneg 256 (Z.of_nat n) ltac:(lia) ltac:(lia)).
      rewrite (Z.mul_comm 256), Z.rem_mul_r by lia. lia. }
  intros Hx. by rewrite H, Z.mod_small.
Qed.

Lemma to_be_mod n x : to_be n (x mod 256 ^ Z.of_nat n) = to_be n x.
Proof.
  assert (H : ∀ m, (n ≤ m)%nat → to_be n (x mod 256 ^ Z.of_nat m) = to_be n x); [|by apply H].
  induction n as [|n IH]; intros m Hm; [done|]. simpl. f_equal; [|apply IH; lia].
  pose proof (Z.pow_pos_nonneg 256 (Z.of_nat n) ltac:(lia) ltac:(lia)).
  replace (Z.of_nat m) with (Z.of_nat n + 1 + Z.of_nat (m - S n)) by lia.
  rewrite !Z.pow_add_r by lia. change (256 ^ 1) with 256.
  pose proof (Z.pow_pos_nonneg 256 (Z.of_nat (m - S n)) ltac:(lia) ltac:(lia)).
  rewrite <- Z.mul_assoc, Z.rem_mul_r by nia.
  rewrite Z.mul_comm, Z.div_add, Z.div_small by (try apply Z.mod_pos_bound; lia).
  rewrite Z.rem_mul_r by lia. rewrite Z.add_0_l, Z.mul_comm, Z.mod_add, Z.mod_mod by lia. done.
Qed.

Lemma to_from_be l : bytes_ok l → to_be (length l) (from_be l) = l.
Proof.
  induction 1 as [|b l Hb Hl IH]; [done|]. simpl.
  pose proof (from_be_range l Hl) as Hr. set (m := 256 ^ Z.of_nat (length l)) in *.
  rewrite from_be_cons. fold m. f_equal.
  - rewrite Z.add_comm, Z.div_add, Z.div_small by lia. by rewrite Z.mod_small.
  - rewrite <- to_be_mod. fold m. rewrite Z.add_comm, Z.mod_add, Z.mod_small by lia. done.
Qed.

(** ** Slices *)

Lemma slice_ok a b l : (a ≤ b)%nat → (b ≤ length l)%nat → slice a b l = Ret (take (b - a) (drop a l)).
Proof. intros. unfold slice, slice_get. by rewrite decide_True. Qed.

Lemma slice_to_end a l : (a ≤ length l)%nat → slice a (length l) l = Ret (drop a l).
Proof. intros. rewrite slice_ok by lia. f_equal. apply take_ge. by rewrite length_drop. Qed.

Lemma slice_app_r a b l1 l2 :
  (length l1 ≤ a ≤ b)%nat → slice a b (l1 ++ l2) = slice (a - length l1) (b - length l1) l2.
Proof.
  intros H. unfold slice, slice_get. rewrite length_app.
  destruct (decide (a ≤ b ∧ b ≤ length l1 + length l2)%nat) as [H1|H1].
  - rewrite decide_True by lia. rewrite drop_app_ge by lia. do 2 f_equal. lia.
  - rewrite decide_False; [done|]. lia.
Qed.

Lemma write_at_ok i src dst : (i + length src ≤ length dst)%nat →
  write_at i src dst = Ret (take i dst ++ src ++ drop (i + length src) dst).
Proof. intros. unfold write_at. by rewrite decide_True. Qed.

Lemma write_at_length i src dst dst' : write_at i src dst = Ret dst' → length dst' = length dst.
Proof.
  unfold write_at. case_decide; [|done]. intros [= <-].
  rewrite !length_app, length_take, length_drop. lia.
Qed.

(** ** Exclusive or *)

Lemma length_xor_bytes a b : length (xor_bytes a b) = (length a `min` length b)%nat.
Proof. apply length_zip_with. Qed.

Lemma xor_bytes_cancel a b : (length a ≤ length b)%nat → xor_bytes (xor_bytes a b) b = a.
Proof.
  revert b. induction a as [|x a IH]; intros [|y b] H; simpl in *; [done|done|lia|].
  rewrite Z.lxor_assoc, Z.lxor_nilpotent, Z.lxor_0_r. f_equal. apply IH. lia.
Qed.

Lemma xor_bytes_comm a b : xor_bytes a b = xor_bytes b a.
Proof.
  revert b. induction a as [|x a IH]; intros [|y b]; simpl; [done..|]. by rewrite Z.lxor_comm, IH.
Qed.

(** ** Little-endian integers *)

Lemma length_to_le n x : length (to_le n x) = n.
Proof. unfold to_le. rewrite length_rev. apply length_to_be. Qed.
Lemma from_to_le n x : 0 ≤ x < 256 ^ Z.of_nat n → from_le (to_le n x) = x.
Proof. intros H. unfold from_le, to_le. rewrite rev_involutive. by apply from_to_be. Qed.
Lemma bytes_ok_rev l : bytes_ok l → bytes_ok (rev l).
Proof. intros H. rewrite rev_alt. change (bytes_ok (reverse l)). by apply Forall_reverse. Qed.
Lemma from_le_range l : bytes_ok l → 0 ≤ from_le l < 256 ^ Z.of_nat (length l).
Proof. intros H. unfold from_le. rewrite <- length_rev. by apply from_be_range, bytes_ok_rev. Qed.
