(* ===== verification/Sha1.v ===== *)
(** SHA-1, HMAC, PBKDF2 and the 802.11 key derivation: the first half of
    [kernel/src/wifi/crypto.rs]. *)
From stdpp Require Import base numbers list.
From S2P Require Import Prelude Bytes.

(** ** The hash *)

Abbreviation words5 := (Z * Z * Z * Z * Z)%type.
Definition SHA1_IV : words5 := (0x67452301, 0xEFCDAB89, 0x98BADCFE, 0x10325476, 0xC3D2E1F0).

Record Sha1 := mkSha1 { sha_state : words5; sha_buf : list Z; buflen : nat; sha_total : Z }.

Definition Sha1_new : Sha1 := mkSha1 SHA1_IV (replicate 64 0) 0 0.

(** The message schedule [w]: 16 words of the block, 64 more computed in place. *)
Definition schedule_step (w : list Z) (i : nat) : list Z :=
  w ++ [rotl32 (Z.lxor (Z.lxor (Z.lxor (w !!! (i - 3)%nat) (w !!! (i - 8)%nat))
    (w !!! (i - 14)%nat)) (w !!! (i - 16)%nat)) 1].
Definition schedule (buf : list Z) : list Z :=
  foldl schedule_step ((λ i, from_be (take 4 (drop (4 * i) buf))) <$> seq 0 16) (seq 16 64).

Definition round_fk (i : nat) (b c d : Z) : Z * Z :=
  if decide (i ≤ 19)%nat then (Z.lor (Z.land b c) (Z.land (not32 b) d), 0x5A827999)
  else if decide (i ≤ 39)%nat then (Z.lxor (Z.lxor b c) d, 0x6ED9EBA1)
  else if decide (i ≤ 59)%nat
  then (Z.lor (Z.lor (Z.land b c) (Z.land b d)) (Z.land c d), 0x8F1BBCDC)
  else (Z.lxor (Z.lxor b c) d, 0xCA62C1D6).

Definition sha_round (w : list Z) (v : words5) (i : nat) : words5 :=
  let '(a, b, c, d, e) := v in
  let (f, k) := round_fk i b c d in
  let temp := add32 (add32 (add32 (add32 (rotl32 a 5) f) e) k) (w !!! i) in
  (temp, a, rotl32 b 30, c, d).

Definition add_words (u v : words5) : words5 :=
  let '(a, b, c, d, e) := u in
  let '(a', b', c', d', e') := v in
  (add32 a a', add32 b b', add32 c c', add32 d d', add32 e e').

Definition compress_block (st : words5) (buf : list Z) : words5 :=
  add_words st (foldl (sha_round (schedule buf)) st (seq 0 80)).

Definition compress (s : Sha1) : Sha1 :=
  mkSha1 (compress_block (sha_state s) (sha_buf s)) (sha_buf s) (buflen s) (sha_total s).

(** The [while off < data.len()] loop of [update]. *)
Fixpoint update_loop (fuel : nat) (data : list Z) (off : nat) (s : Sha1) : res Sha1 :=
  if decide (off < length data)%nat then
    match fuel with
    | O => OutOfFuel
    | S fuel' =>
        let space := (64 - buflen s)%nat in
        let n := (space `min` (length data - off))%nat in
        let! piece := slice off (off + n) data in
        let! buf := write_at (buflen s) piece (sha_buf s) in
        let s := mkSha1 (sha_state s) buf (buflen s + n) (sha_total s) in
        let s := if decide (buflen s = 64)%nat
                 then let s := compress s in mkSha1 (sha_state s) (sha_buf s) 0 (sha_total s)
                 else s in
        update_loop fuel' data (off + n) s
    end
  else Ret s.

Definition update (data : list Z) (s : Sha1) : res Sha1 :=
  update_loop (length data) data 0
    (mkSha1 (sha_state s) (sha_buf s) (buflen s) (add64 (sha_total s) (Z.of_nat (length data)))).

Definition digest (v : words5) : list Z :=
  let '(a, b, c, d, e) := v in to_be 4 a ++ to_be 4 b ++ to_be 4 c ++ to_be 4 d ++ to_be 4 e.

(** [for i in a..b { self.buf[i] = 0 }]. *)
Definition zero_fill (a b : nat) (buf : list Z) : res (list Z) := write_at a (replicate (b - a) 0) buf.

Definition finalize (s : Sha1) : res (list Z) :=
  let bit_len := mul64 (sha_total s) 8 in
  let! buf := write_at (buflen s) [0x80] (sha_buf s) in
  let s := mkSha1 (sha_state s) buf (buflen s + 1) (sha_total s) in
  let! s := (if decide (56 < buflen s)%nat then
               let! buf := zero_fill (buflen s) 64 (sha_buf s) in
               let s := compress (mkSha1 (sha_state s) buf (buflen s) (sha_total s)) in
               Ret (mkSha1 (sha_state s) (sha_buf s) 0 (sha_total s))
             else Ret s) in
  let! buf := zero_fill (buflen s) 56 (sha_buf s) in
  let! buf := write_at 56 (to_be 8 bit_len) buf in
  let s := compress (mkSha1 (sha_state s) buf (buflen s) (sha_total s)) in
  Ret (digest (sha_state s)).

Definition sha1 (data : list Z) : res (list Z) :=
  let! s := update data Sha1_new in finalize s.

(** ** HMAC *)

(** Hash of several parts in turn: [new], [update] each, [finalize]. *)
Fixpoint update_all (parts : list (list Z)) (s : Sha1) : res Sha1 :=
  match parts with
  | [] => Ret s
  | p :: ps => let! s' := update p s in update_all ps s'
  end.

Definition normalize_key (key : list Z) : res (list Z) :=
  if decide (64 < length key)%nat then
    let! hk := sha1 key in write_at 0 hk (replicate 64 0)
  else write_at 0 key (replicate 64 0).

Definition hmac_sha1 (key data : list Z) : res (list Z) :=
  let! k := normalize_key key in
  let ipad := (λ x, Z.lxor x 0x36) <$> k in
  let opad := (λ x, Z.lxor x 0x5C) <$> k in
  let! inner := update ipad Sha1_new in
  let! inner := update data inner in
  let! inner_hash := finalize inner in
  let! outer := update opad Sha1_new in
  let! outer := update inner_hash outer in
  finalize outer.

Definition hmac_sha1_multi (key : list Z) (parts : list (list Z)) : res (list Z) :=
  let! k := normalize_key key in
  let ipad := (λ x, Z.lxor x 0x36) <$> k in
  let opad := (λ x, Z.lxor x 0x5C) <$> k in
  let! inner := update ipad Sha1_new in
  let! inner := update_all parts inner in
  let! inner_hash := finalize inner in
  let! outer := update opad Sha1_new in
  let! outer := update inner_hash outer in
  finalize outer.

(** ** Key derivation *)

(** [for _ in 1..iterations]: [u] and the running exclusive or [t]. *)
Fixpoint pbkdf2_iter (n : nat) (password u t : list Z) : res (list Z) :=
  match n with
  | O => Ret t
  | S n' =>
      let! u := hmac_sha1 password u in
      pbkdf2_iter n' password u (xor_bytes t u)
  end.

Definition pbkdf2_block (password salt : list Z) (iterations : nat) (b : nat) (out : list Z)
    : res (list Z) :=
  let bi := to_be 4 (Z.of_nat b) in
  let! u := hmac_sha1_multi password [salt; bi] in
  let! t := pbkdf2_iter (iterations - 1) password u u in
  let start := ((b - 1) * 20)%nat in
  let last := (length out `min` (start + 20))%nat in
  let! piece := slice 0 (last - start) t in
  write_at start piece out.

Fixpoint pbkdf2_blocks (password salt : list Z) (iterations : nat) (bs : list nat) (out : list Z)
    : res (list Z) :=
  match bs with
  | [] => Ret out
  | b :: bs' =>
      let! out := pbkdf2_block password salt iterations b out in
      pbkdf2_blocks password salt iterations bs' out
  end.

Definition pbkdf2_sha1 (password salt : list Z) (iterations : nat) (out : list Z) : res (list Z) :=
  let blocks := ((length out + 20 - 1) / 20)%nat in
  pbkdf2_blocks password salt iterations (seq 1 blocks) out.

Definition derive_pmk (passphrase ssid : list Z) : res (list Z) :=
  pbkdf2_sha1 passphrase ssid 4096 (replicate 32 0).

Fixpoint prf_blocks (key label data : list Z) (js : list nat) (out : list Z) : res (list Z) :=
  match js with
  | [] => Ret out
  | i :: js' =>
      let! mac := hmac_sha1_multi key [label; [0]; data; [Z.of_nat i mod 256]] in
      let start := (i * 20)%nat in
      let last := (length out `min` (start + 20))%nat in
      let! piece := slice 0 (last - start) mac in
      let! out := write_at start piece out in
      prf_blocks key label data js' out
  end.

Definition prf_384 (key label data : list Z) : res (list Z) :=
  prf_blocks key label data (seq 0 ((48 + 19) / 20)) (replicate 48 0).

(** [<] on byte arrays is lexicographic. *)
Fixpoint bytes_lt (a b : list Z) : bool :=
  match a, b with
  | x :: a', y :: b' => if x <? y then true else if y <? x then false else bytes_lt a' b'
  | [], _ :: _ => true
  | _, [] => false
  end.

Definition PTK_LABEL : list Z :=
  [80; 97; 105; 114; 119; 105; 115; 101; 32; 107; 101; 121; 32; 101; 120; 112; 97; 110; 115; 105; 111; 110].

Definition derive_ptk (pmk anonce snonce ap_mac sta_mac : list Z) : res (list Z) :=
  let (mac_min, mac_max) := if bytes_lt ap_mac sta_mac then (ap_mac, sta_mac) else (sta_mac, ap_mac) in
  let (nn_min, nn_max) := if bytes_lt anonce snonce then (anonce, snonce) else (snonce, anonce) in
  prf_384 pmk PTK_LABEL (mac_min ++ mac_max ++ nn_min ++ nn_max).

(** FIPS 180 test: "abc". *)
Example sha1_abc : sha1 [97; 98; 99] = Ret
  [0xA9; 0x99; 0x3E; 0x36; 0x47; 0x06; 0x81; 0x6A; 0xBA; 0x3E; 0x25; 0x71; 0x78; 0x50; 0xC2; 0x6C;
   0x9C; 0xD0; 0xD8; 0x9D].
Proof. vm_compute. reflexivity. Qed.
