(* ===== verification/Sha1Facts.v ===== *)
(** The streaming hash of [Sha1] against the padded block-by-block definition of
    FIPS 180-4. *)
From stdpp Require Import base numbers list.
From S2P Require Import Prelude Bytes Sha1.

(** ** FIPS 180-4 *)

Definition Ch (x y z : Z) : Z := Z.lxor (Z.land x y) (Z.land (not32 x) z).
Definition Parity (x y z : Z) : Z := Z.lxor (Z.lxor x y) z.
Definition Maj (x y z : Z) : Z := Z.lxor (Z.lxor (Z.land x y) (Z.land x z)) (Z.land y z).

Definition fips_f (t : nat) (x y z : Z) : Z :=
  if decide (t ≤ 19)%nat then Ch x y z else if decide (t ≤ 39)%nat then Parity x y z
  else if decide (t ≤ 59)%nat then Maj x y z else Parity x y z.
Definition fips_K (t : nat) : Z :=
  if decide (t ≤ 19)%nat then 0x5A827999 else if decide (t ≤ 39)%nat then 0x6ED9EBA1
  else if decide (t ≤ 59)%nat then 0x8F1BBCDC else 0xCA62C1D6.

Definition fips_round (w : list Z) (v : words5) (t : nat) : words5 :=
  let '(a, b, c, d, e) := v in
  (u32 (rotl32 a 5 + fips_f t b c d + e + fips_K t + w !!! t), a, rotl32 b 30, c, d).
Definition fips_block (st : words5) (blk : list Z) : words5 :=
  add_words st (foldl (fips_round (schedule blk)) st (seq 0 80)).

Definition block (i : nat) (m : list Z) : list Z := take 64 (drop (64 * i) m).
Definition pad (m : list Z) : list Z :=
  m ++ [0x80] ++ replicate (Z.to_nat ((55 - Z.of_nat (length m)) mod 64)) 0
    ++ to_be 8 (8 * Z.of_nat (length m)).
Definition fips_sha1 (m : list Z) : list Z :=
  digest (foldl (λ st i, fips_block st (block i (pad m))) SHA1_IV (seq 0 (length (pad m) / 64))).

(** ** The compression function *)

Definition words_ok (v : words5) : Prop :=
  let '(a, b, c, d, e) := v in is_u32 a ∧ is_u32 b ∧ is_u32 c ∧ is_u32 d ∧ is_u32 e.

Lemma u32_bits x : 0 ≤ x → is_u32 x ↔ ∀ n, 32 ≤ n → Z.testbit x n = false.
Proof.
  intros Hx. unfold is_u32. change u32_modulus with (2 ^ 32).
  rewrite <- (Z.bounded_iff_bits_nonneg 32) by lia. lia.
Qed.

Lemma u32_range x : is_u32 (u32 x).
Proof. apply Z.mod_pos_bound. done. Qed.

Lemma rotl32_range x n : 0 ≤ n ≤ 32 → is_u32 x → is_u32 (rotl32 x n).
Proof.
  intros Hn Hx. unfold rotl32. pose proof (u32_range (Z.shiftl x n)) as Hl.
  assert (0 ≤ Z.shiftr x (32 - n)) by (apply Z.shiftr_nonneg; apply Hx).
  apply u32_bits; [apply Z.lor_nonneg; split; [apply Hl|done]|].
  intros k Hk. rewrite Z.lor_spec. apply orb_false_iff. split.
  - revert k Hk. apply u32_bits; [apply Hl|done].
  - rewrite Z.shiftr_spec by lia. apply u32_bits; [apply Hx|done|lia].
Qed.

Lemma ch_or b c d : is_u32 d → Z.lor (Z.land b c) (Z.land (not32 b) d) = Ch b c d.
Proof.
  intros Hd. apply Z.bits_inj'. intros n Hn. unfold Ch.
  rewrite Z.lor_spec, Z.lxor_spec, !Z.land_spec. unfold not32. rewrite Z.lxor_spec.
  destruct (decide (n < 32)).
  - replace (u32_modulus - 1) with (Z.ones 32) by done. rewrite Z.ones_spec_low by lia.
    by destruct (Z.testbit b n), (Z.testbit c n), (Z.testbit d n).
  - rewrite (proj1 (u32_bits d (proj1 Hd)) Hd n) by lia. rewrite andb_false_r.
    by rewrite orb_false_r, xorb_false_r.
Qed.

Lemma maj_or b c d : Z.lor (Z.lor (Z.land b c) (Z.land b d)) (Z.land c d) = Maj b c d.
Proof.
  apply Z.bits_inj'. intros n Hn. unfold Maj. rewrite !Z.lor_spec, !Z.lxor_spec, !Z.land_spec.
  by destruct (Z.testbit b n), (Z.testbit c n), (Z.testbit d n).
Qed.

Lemma round_fk_fips i b c d : is_u32 d → round_fk i b c d = (fips_f i b c d, fips_K i).
Proof.
  intros Hd. unfold round_fk, fips_f, fips_K. rewrite ch_or, maj_or by done. by repeat case_decide.
Qed.

Lemma add32_u32 a b : add32 (u32 a) b = u32 (a + b).
Proof. unfold add32, u32, u32_modulus. by rewrite Z.add_mod_idemp_l by lia. Qed.

Lemma sha_round_fips w v i : words_ok v → sha_round w v i = fips_round w v i ∧ words_ok (sha_round w v i).
Proof.
  destruct v as [[[[a b] c] d] e]. intros (Ha & Hb & Hc & Hd & He). unfold sha_round, fips_round.
  rewrite round_fk_fips by done. cbv zeta. split.
  - do 4 f_equal. rewrite (eq_refl : add32 (rotl32 a 5) _ = u32 _). by rewrite !add32_u32.
  - split_and!; [apply u32_range|done|apply rotl32_range; [lia|done]|done|done].
Qed.

Lemma rounds_fips w l v : words_ok v → foldl (sha_round w) v l = foldl (fips_round w) v l.
Proof.
  revert v. induction l as [|i l IH]; intros v Hv; [done|]. cbn [foldl].
  destruct (sha_round_fips w v i Hv) as [E Hok]. rewrite <- E. by apply IH.
Qed.

Lemma compress_fips st blk : words_ok st →
  compress_block st blk = fips_block st blk ∧ words_ok (compress_block st blk).
Proof.
  intros Hst. unfold compress_block, fips_block. rewrite rounds_fips by done. split; [done|].
  destruct st as [[[[a b] c] d] e], (foldl _ _ _) as [[[[a' b'] c'] d'] e'].
  split_and!; apply u32_range.
Qed.

#[local] Opaque compress_block fips_block.

(** ** Blocks of a message *)

Definition process (n : nat) (m : list Z) : words5 :=
  foldl (λ st i, compress_block st (block i m)) SHA1_IV (seq 0 n).

Lemma process_S n m : process (S n) m = compress_block (process n m) (block n m).
Proof. unfold process. rewrite seq_S, foldl_app. reflexivity. Qed.

Lemma block_app i m x : (64 * S i ≤ length m)%nat → block i (m ++ x) = block i m.
Proof.
  intros H. unfold block. rewrite drop_app_le by lia. apply take_app_le. rewrite length_drop. lia.
Qed.

Lemma process_app n m x : (64 * n ≤ length m)%nat → process n (m ++ x) = process n m.
Proof.
  induction n as [|n IH]; intros H; [reflexivity|].
  rewrite !process_S, IH, block_app by lia. reflexivity.
Qed.

Lemma process_fips n m :
  process n m = foldl (λ st i, fips_block st (block i m)) SHA1_IV (seq 0 n) ∧ words_ok (process n m).
Proof.
  induction n as [|n [IH Hok]]; [split; [reflexivity|by vm_compute]|]. rewrite process_S, seq_S, foldl_app. rewrite <- IH. by apply compress_fips.
Qed.

#[local] Opaque process.

(** [m] has been absorbed: [q] whole blocks are in the state, [r] bytes wait. *)
Definition absorbed (q : nat) (m buf : list Z) (r : nat) (st : words5) : Prop :=
  length m = (64 * q + r)%nat ∧ (r < 64)%nat ∧ length buf = 64%nat ∧
  take r buf = drop (64 * q) m ∧ st = process q m.

Lemma absorb_block q m buf r st piece :
  absorbed q m buf r st → (r + length piece = 64)%nat →
  block q (m ++ piece) = take r buf ++ piece ∧
  process (S q) (m ++ piece) = compress_block st (take r buf ++ piece).
Proof.
  intros (Hm & Hr & Hb & Ht & ->) Hp.
  assert (E : block q (m ++ piece) = take r buf ++ piece).
  { unfold block. rewrite drop_app_le, <- Ht by lia. apply take_ge.
    rewrite length_app, length_take. lia. }
  split; [done|]. rewrite process_S, process_app, E by lia. done.
Qed.

Lemma absorb_more q m buf r st piece buf' :
  absorbed q m buf r st → (r + length piece < 64)%nat → write_at r piece buf = Ret buf' →
  absorbed q (m ++ piece) buf' (r + length piece) st.
Proof.
  intros (Hm & Hr & Hb & Ht & ->) Hp Hw. pose proof (write_at_length _ _ _ _ Hw) as Hl.
  rewrite write_at_ok in Hw by lia. injection Hw as <-. split_and!.
  - rewrite length_app. lia.
  - lia.
  - congruence.
  - rewrite drop_app_le, <- Ht by lia. rewrite app_assoc, take_app_le.
    + apply take_ge. rewrite length_app, length_take. lia.
    + rewrite length_app, length_take. lia.
  - by rewrite process_app by lia.
Qed.

Lemma absorb_full q m buf r st piece :
  absorbed q m buf r st → (r + length piece = 64)%nat →
  ∃ buf', write_at r piece buf = Ret buf' ∧
    absorbed (S q) (m ++ piece) buf' 0 (compress_block st buf').
Proof.
  intros H Hp. pose proof H as (Hm & Hr & Hb & Ht & Hst).
  exists (take r buf ++ piece). rewrite write_at_ok by lia. rewrite Hp.
  rewrite (drop_ge buf) by lia. rewrite app_nil_r. split; [done|].
  destruct (absorb_block _ _ _ _ _ _ H Hp) as [_ E]. split_and!.
  - rewrite length_app. lia.
  - lia.
  - rewrite length_app, length_take. lia.
  - rewrite drop_ge; [done|]. rewrite length_app. lia.
  - by rewrite E.
Qed.

(** ** Streaming *)

Definition sha_inv (s : Sha1) (m : list Z) : Prop :=
  (∃ q, absorbed q m (sha_buf s) (buflen s) (sha_state s)) ∧ sha_total s = u64 (Z.of_nat (length m)).

Lemma sha_inv_new : sha_inv Sha1_new [].
Proof. split; [exists 0%nat; repeat split; simpl; lia|reflexivity]. Qed.

Lemma take_drop_piece {X} (l : list X) off n : take (off + n) l = take off l ++ take n (drop off l).
Proof. by rewrite take_take_drop. Qed.

Lemma update_loop_spec fuel data off q m s :
  absorbed q (m ++ take off data) (sha_buf s) (buflen s) (sha_state s) →
  (length data ≤ fuel + off)%nat → (off ≤ length data)%nat →
  ∃ s' q', update_loop fuel data off s = Ret s' ∧
    absorbed q' (m ++ data) (sha_buf s') (buflen s') (sha_state s') ∧ sha_total s' = sha_total s.
Proof.
  revert off q s. induction fuel as [|fuel IH]; intros off q s H Hf Ho; cbn [update_loop].
  - rewrite decide_False by lia. exists s, q. rewrite (take_ge data) in H by lia. done.
  - case_decide as Hlt; [|exists s, q; rewrite (take_ge data) in H by lia; done].
    set (n := ((64 - buflen s) `min` (length data - off))%nat).
    pose proof H as (Hm & Hr & Hb & _ & _).
    cbv zeta. fold n. rewrite slice_ok by lia. replace (off + n - off)%nat with n by lia. cbn [res_bind].
    assert (Hp : length (take n (drop off data)) = n) by (rewrite length_take, length_drop; lia).
    assert (Hpre : m ++ take (off + n) data = (m ++ take off data) ++ take n (drop off data)).
    { by rewrite take_drop_piece, app_assoc. }
    destruct (decide (buflen s + n = 64)%nat) as [Hfull|Hpart].
    + destruct (absorb_full _ _ _ _ _ (take n (drop off data)) H) as (buf' & Hw & H'); [lia|].
      rewrite Hw. cbn [res_bind]. cbv zeta. cbn [buflen]. rewrite decide_True by done.
      match goal with |- context [update_loop fuel data _ ?x] =>
        destruct (IH (off + n)%nat (S q) x) as (s' & q' & E & A & T) end; [by rewrite Hpre|lia|lia|].
      by exists s', q'.
    + assert (∃ buf', write_at (buflen s) (take n (drop off data)) (sha_buf s) = Ret buf') as [buf' Hw]
        by (eexists; apply write_at_ok; lia).
      rewrite Hw.
      cbn [res_bind]. cbv zeta. cbn [buflen]. rewrite decide_False by done.
      assert (H' := absorb_more _ _ _ _ _ (take n (drop off data)) buf' H ltac:(lia) Hw). rewrite Hp in H'.
      match goal with |- context [update_loop fuel data _ ?x] =>
        destruct (IH (off + n)%nat q x) as (s' & q' & E & A & T) end; [by rewrite Hpre|lia|lia|].
      by exists s', q'.
Qed.

Lemma update_spec data m s : sha_inv s m → ∃ s', update data s = Ret s' ∧ sha_inv s' (m ++ data).
Proof.
  intros [[q H] Ht]. unfold update.
  destruct (update_loop_spec (length data) data 0 q m
    (mkSha1 (sha_state s) (sha_buf s) (buflen s) (add64 (sha_total s) (Z.of_nat (length data)))))
    as (s' & q' & E & H' & Ht'); [|lia|lia|].
  - by rewrite take_0, app_nil_r.
  - exists s'. split; [done|]. split; [by exists q'|]. rewrite Ht'. simpl. rewrite Ht, length_app.
    rewrite Nat2Z.inj_add. unfold add64, u64, u64_modulus. by rewrite Z.add_mod_idemp_l by lia.
Qed.

Lemma update_all_spec parts m s :
  sha_inv s m → ∃ s', update_all parts s = Ret s' ∧ sha_inv s' (m ++ concat parts).
Proof.
  revert m s. induction parts as [|p parts IH]; intros m s H; simpl.
  - exists s. by rewrite app_nil_r.
  - destruct (update_spec p m s H) as (s1 & E1 & H1). rewrite E1. simpl.
    destruct (IH _ _ H1) as (s2 & E2 & H2). exists s2. by rewrite app_assoc.
Qed.

(** ** Padding *)

Lemma pad_zeros q r : (r < 64)%nat →
  Z.to_nat ((55 - Z.of_nat (64 * q + r)) mod 64) = (if decide (r ≤ 55)%nat then 55 - r else 119 - r)%nat.
Proof.
  intros Hr. replace (55 - Z.of_nat (64 * q + r)) with (55 - Z.of_nat r + (- Z.of_nat q) * 64) by lia.
  rewrite Z.mod_add by lia. case_decide.
  - rewrite Z.mod_small by lia. lia.
  - replace (55 - Z.of_nat r) with (119 - Z.of_nat r + (-1) * 64) by lia.
    rewrite Z.mod_add, Z.mod_small by lia. lia.
Qed.

Lemma length_pad m q r : length m = (64 * q + r)%nat → (r < 64)%nat →
  length (pad m) = (if decide (r ≤ 55) then 64 * S q else 64 * S (S q))%nat.
Proof.
  intros Hm Hr. unfold pad. rewrite !length_app, length_replicate, length_to_be, Hm, pad_zeros by done.
  simpl. case_decide; lia.
Qed.

Lemma fips_sha1_process m q r : length m = (64 * q + r)%nat → (r < 64)%nat →
  fips_sha1 m = digest (process (if decide (r ≤ 55)%nat then S q else S (S q)) (pad m)).
Proof.
  intros Hm Hr. unfold fips_sha1. rewrite <- (proj1 (process_fips _ _)).
  rewrite (length_pad m q r Hm Hr). case_decide; rewrite Nat.mul_comm, Nat.div_mul by lia; reflexivity.
Qed.

Lemma to_be_bit_len (m : list Z) :
  to_be 8 (mul64 (u64 (Z.of_nat (length m))) 8) = to_be 8 (8 * Z.of_nat (length m)).
Proof.
  rewrite <- (to_be_mod 8 (8 * _)). f_equal. unfold mul64, u64, u64_modulus.
  change (256 ^ Z.of_nat 8) with 18446744073709551616.
  rewrite Z.mul_mod_idemp_l by lia. f_equal. lia.
Qed.

(** Writing behind a known prefix of the buffer. *)
Lemma write_next k p x buf :
  take k buf = p → (k + length x ≤ length buf)%nat →
  ∃ buf', write_at k x buf = Ret buf' ∧ length buf' = length buf ∧ take (k + length x) buf' = p ++ x.
Proof.
  intros Hp Hx. eexists. split; [by apply write_at_ok|]. split.
  - rewrite !length_app, length_take, length_drop. lia.
  - rewrite Hp, app_assoc, take_app_le by (rewrite length_app, <- Hp, length_take; lia).
    apply take_ge. rewrite length_app, <- Hp, length_take. lia.
Qed.

Lemma fill_last k p L buf :
  take k buf = p → length buf = 64%nat → length L = 8%nat → (k ≤ 56)%nat →
  ∃ buf1, zero_fill k 56 buf = Ret buf1 ∧ write_at 56 L buf1 = Ret (p ++ replicate (56 - k) 0 ++ L).
Proof.
  intros Hp Hb HL Hk. destruct (write_next k p (replicate (56 - k) 0) buf Hp) as (b1 & E1 & H1 & T1);
    [rewrite length_replicate; lia|]. rewrite length_replicate in T1.
  replace (k + (56 - k))%nat with 56%nat in T1 by lia.
  destruct (write_next 56 _ L b1 T1) as (b2 & E2 & H2 & T2); [lia|].
  exists b1. split; [done|]. rewrite E2. f_equal. rewrite <- app_assoc in T2. rewrite <- T2.
  symmetry. apply take_ge. lia.
Qed.

Lemma finalize_spec s m : sha_inv s m → finalize s = Ret (fips_sha1 m).
Proof.
  intros [[q H] Ht]. pose proof H as (Hm & Hr & Hb & Htk & Hst). unfold finalize. cbv zeta.
  rewrite Ht, to_be_bit_len, (fips_sha1_process m q (buflen s) Hm Hr). unfold pad.
  rewrite (f_equal (λ n, Z.to_nat ((55 - Z.of_nat n) mod 64)) Hm), pad_zeros by done. set (L := to_be 8 (8 * Z.of_nat (length m))).
  assert (HL : length L = 8%nat) by apply length_to_be.
  destruct (write_next (buflen s) _ [0x80] (sha_buf s) eq_refl) as (b1 & E1 & H1 & T1); [simpl; lia|].
  rewrite E1. cbn [res_bind buflen sha_buf sha_state]. change (length [0x80]) with 1%nat in T1.
  destruct (decide (buflen s ≤ 55)%nat) as [Hs|Hl].
  - rewrite (decide_False (P := (56 < _)%nat)) by lia. cbn [res_bind buflen sha_buf sha_state].
    destruct (fill_last _ _ L b1 T1) as (b2 & -> & E3); [lia|lia|lia|]. cbn [res_bind]. rewrite E3.
    cbn [res_bind compress sha_state sha_buf]. f_equal. f_equal.
    destruct (absorb_block q m (sha_buf s) (buflen s) (sha_state s)
      ([0x80] ++ replicate (55 - buflen s) 0 ++ L) H) as [_ ->].
    { rewrite !length_app, length_replicate, HL. simpl. lia. }
    rewrite <- app_assoc. by replace (56 - (buflen s + 1))%nat with (55 - buflen s)%nat by lia.
  - rewrite (decide_True (P := (56 < _)%nat)) by lia. unfold zero_fill at 1.
    set (Z1 := replicate (64 - (buflen s + 1)) 0).
    assert (HZ1 : length Z1 = (64 - (buflen s + 1))%nat) by apply length_replicate.
    destruct (write_next (buflen s + 1) _ Z1 b1 T1) as (b2 & -> & H2 & T2); [lia|].
    cbn [res_bind buflen sha_buf sha_state compress].
    rewrite take_ge, <- app_assoc in T2 by lia.
    destruct (absorb_full q m (sha_buf s) (buflen s) (sha_state s) ([0x80] ++ Z1) H)
      as (b2' & Hw & HA); [rewrite length_app, HZ1; simpl; lia|].
    rewrite write_at_ok in Hw by (rewrite length_app, HZ1; simpl; lia). injection Hw as Hw.
    rewrite (drop_ge (sha_buf s)), app_nil_r in Hw by (simpl; lia).
    change (128 :: Z1) with ([0x80] ++ Z1) in Hw. rewrite <- T2 in Hw.
    subst b2'. destruct (fill_last 0 [] L b2 eq_refl) as (b3 & -> & E3); [lia|lia|lia|].
    cbn [res_bind]. rewrite E3. cbn [res_bind compress sha_state sha_buf]. f_equal. f_equal.
    destruct (absorb_block (S q) (m ++ [0x80] ++ Z1) b2 0 (compress_block (sha_state s) b2)
      (replicate 56 0 ++ L) HA) as [_ E]; [rewrite length_app, HL; reflexivity|].
    replace (119 - buflen s)%nat with (64 - (buflen s + 1) + 56)%nat by lia.
    rewrite replicate_add. fold Z1. rewrite <- !app_assoc in E. rewrite <- !app_assoc. by rewrite E.
Qed.
