(* ===== verification/Sha1Props.v ===== *)
(** What the hash, HMAC and key-derivation functions of [Sha1] compute. *)
From stdpp Require Import base numbers list.
From S2P Require Import Prelude Bytes Sha1 Sha1Facts.

#[local] Opaque compress_block fips_block process.

(** ** HMAC of RFC 2104 *)

Definition block_key (key : list Z) : list Z :=
  let k := if decide (64 < length key)%nat then fips_sha1 key else key in
  k ++ replicate (64 - length k) 0.
Definition rfc2104 (key data : list Z) : list Z :=
  fips_sha1 (((λ x, Z.lxor x 0x5C) <$> block_key key)
    ++ fips_sha1 (((λ x, Z.lxor x 0x36) <$> block_key key) ++ data)).

Lemma length_fips_sha1 m : length (fips_sha1 m) = 20%nat.
Proof.
  unfold fips_sha1. destruct (foldl _ _ _) as [[[[a b] c] d] e]. unfold digest.
  by rewrite !length_app, !length_to_be.
Qed.

(** C30. However a message is cut into the pieces given to [update], the result is
    the FIPS 180-4 digest of the whole message: the message padded with a one bit,
    zeros and its 64-bit length, and compressed block by block. *)
Theorem sha1_streaming parts :
  (let! s := update_all parts Sha1_new in finalize s) = Ret (fips_sha1 (concat parts)) ∧
  sha1 (concat parts) = Ret (fips_sha1 (concat parts)).
Proof.
  split.
  - destruct (update_all_spec parts [] Sha1_new sha_inv_new) as (s & -> & H). by apply finalize_spec.
  - unfold sha1. destruct (update_spec (concat parts) [] Sha1_new sha_inv_new) as (s & -> & H).
    by apply finalize_spec.
Qed.

Lemma sha1_fips m : sha1 m = Ret (fips_sha1 m).
Proof.
  unfold sha1. destruct (update_spec m [] Sha1_new sha_inv_new) as (s & -> & H).
  by apply finalize_spec.
Qed.

Lemma normalize_key_spec key : normalize_key key = Ret (block_key key).
Proof.
  unfold normalize_key, block_key. cbv zeta. case_decide.
  - rewrite sha1_fips. cbn [res_bind]. rewrite write_at_ok by (rewrite length_fips_sha1; simpl; lia).
    rewrite take_0, app_nil_l, drop_replicate. by rewrite Nat.add_0_l.
  - rewrite write_at_ok by (rewrite length_replicate; lia).
    rewrite take_0, app_nil_l, drop_replicate. by rewrite Nat.add_0_l.
Qed.

(** The common tail of both HMAC functions. *)
Lemma hmac_outer k parts :
  (let! inner := update ((λ x, Z.lxor x 0x36) <$> k) Sha1_new in
   let! inner := update_all parts inner in
   let! inner_hash := finalize inner in
   let! outer := update ((λ x, Z.lxor x 0x5C) <$> k) Sha1_new in
   let! outer := update inner_hash outer in
   finalize outer) =
  Ret (fips_sha1 (((λ x, Z.lxor x 0x5C) <$> k)
    ++ fips_sha1 (((λ x, Z.lxor x 0x36) <$> k) ++ concat parts))).
Proof.
  destruct (update_spec ((λ x, Z.lxor x 0x36) <$> k) [] _ sha_inv_new) as (s1 & -> & H1). cbn [res_bind].
  destruct (update_all_spec parts _ _ H1) as (s2 & -> & H2). cbn [res_bind].
  rewrite (finalize_spec _ _ H2). cbn [res_bind].
  destruct (update_spec ((λ x, Z.lxor x 0x5C) <$> k) [] _ sha_inv_new) as (s3 & -> & H3). cbn [res_bind].
  match goal with |- context [update ?d s3] => destruct (update_spec d _ _ H3) as (s4 & -> & H4) end.
  by apply (finalize_spec _ _ H4).
Qed.

Lemma hmac_sha1_spec key data : hmac_sha1 key data = Ret (rfc2104 key data).
Proof.
  unfold hmac_sha1. rewrite normalize_key_spec. cbn [res_bind]. cbv zeta.
  pose proof (hmac_outer (block_key key) [data]) as E. simpl concat in E. rewrite app_nil_r in E.
  unfold rfc2104. rewrite <- E. clear E. destruct (update _ Sha1_new) as [s1| |]; cbn [res_bind]; [|done|done].
  unfold update_all. by destruct (update data s1).
Qed.

Lemma hmac_sha1_multi_spec key parts : hmac_sha1_multi key parts = Ret (rfc2104 key (concat parts)).
Proof.
  unfold hmac_sha1_multi. rewrite normalize_key_spec. cbn [res_bind]. cbv zeta. apply hmac_outer.
Qed.

Lemma length_rfc2104 key data : length (rfc2104 key data) = 20%nat.
Proof. apply length_fips_sha1. Qed.

(** ** Output blocks of 20 bytes *)

(** Block [k] of an output of [length out] bytes: the last one is cut. *)
Lemma write_block k t P out :
  length t = 20%nat → length P = (20 * k)%nat → take (20 * k) out = P → (20 * k < length out)%nat →
  let last := (length out `min` (k * 20 + 20))%nat in
  ∃ out', (let! piece := slice 0 (last - k * 20) t in write_at (k * 20) piece out) = Ret out' ∧
    length out' = length out ∧ take (20 * S k) out' = take (length out) (P ++ t).
Proof.
  intros Ht HP Hout Hk last. rewrite slice_ok by lia. cbn [res_bind]. rewrite drop_0, Nat.sub_0_r.
  set (piece := take (last - k * 20) t).
  assert (Hpiece : length piece = (last - k * 20)%nat) by (unfold piece; rewrite length_take; lia).
  destruct (write_next (k * 20) P piece out) as (out' & E & Hl & T);
    [by rewrite Nat.mul_comm|lia|].
  exists out'. split_and!; [done|done|]. rewrite Hpiece in T.
  assert (Hcut : take (length out) (P ++ t) = P ++ piece).
  { rewrite take_app_ge by lia. f_equal. unfold piece. rewrite HP.
    destruct (decide (length out ≤ k * 20 + 20)%nat) as [H1|H1].
    - f_equal. lia.
    - rewrite !take_ge by lia. done. }
  rewrite Hcut, <- T. destruct (decide (length out ≤ k * 20 + 20)%nat) as [H1|H1].
  - rewrite !take_ge by lia. done.
  - f_equal. lia.
Qed.

Definition blocks_upto (T : nat → list Z) (a n : nat) : list Z := concat (T <$> seq a n).

Lemma blocks_upto_S T a n : blocks_upto T a (S n) = blocks_upto T a n ++ T (a + n)%nat.
Proof. unfold blocks_upto. rewrite seq_S, fmap_app, concat_app. simpl. by rewrite app_nil_r. Qed.

Lemma length_blocks_upto T a n : (∀ i, length (T i) = 20%nat) → length (blocks_upto T a n) = (20 * n)%nat.
Proof.
  intros HT. induction n as [|n IH]; [done|]. rewrite blocks_upto_S, length_app, IH, HT. lia.
Qed.

(** A loop over blocks [a], [a+1], .. that writes block [T i] at its place. *)
Lemma write_blocks (T : nat → list Z) (a : nat) (step : nat → list Z → res (list Z))
    (run : list nat → list Z → res (list Z)) :
  (∀ i, length (T i) = 20%nat) →
  (∀ out, run [] out = Ret out) →
  (∀ i js out, run (i :: js) out = let! out := step i out in run js out) →
  (∀ k out, (20 * k < length out)%nat → step (a + k)%nat out =
     let! piece := slice 0 (length out `min` (k * 20 + 20) - k * 20) (T (a + k)%nat) in
     write_at (k * 20) piece out) →
  ∀ n k out, take (20 * k) out = blocks_upto T a k → (n = 0 ∨ 20 * (k + n - 1) < length out)%nat →
    (20 * k ≤ length out)%nat →
    ∃ out', run (seq (a + k) n) out = Ret out' ∧ length out' = length out ∧
      take (20 * (k + n)) out' = take (length out) (blocks_upto T a (k + n)).
Proof.
  intros HT Hnil Hcons Hstep. induction n as [|n IH]; intros k out Hout Hn Hk.
  - exists out. rewrite Hnil, Nat.add_0_r. split_and!; [done|done|]. rewrite Hout. symmetry.
    apply take_ge. rewrite length_blocks_upto by done. lia.
  - cbn [seq]. rewrite Hcons, Hstep by lia.
    destruct (write_block k (T (a + k)%nat) _ out (HT _) (length_blocks_upto T a k HT) Hout)
      as (out1 & -> & Hl1 & T1); [lia|]. cbn [res_bind]. rewrite <- blocks_upto_S in T1.
    destruct n as [|n].
    + exists out1. cbn [seq]. rewrite Hnil. split_and!; [done|done|].
      by replace (k + 1)%nat with (S k) by lia.
    + destruct (IH (S k) out1) as (out' & E & Hl & T2).
      * rewrite T1. apply take_ge. rewrite length_blocks_upto by done. lia.
      * right. lia.
      * lia.
      * replace (a + S k)%nat with (S (a + k)) in E by lia.
        replace (S k + S n)%nat with (k + S (S n))%nat in T2 by lia.
        exists out'. split_and!; [done|congruence|]. by rewrite T2, Hl1.
Qed.

(** ** PBKDF2 of RFC 2898 *)

(** [U j] of block [i], and [T i], the exclusive or of the first [c] of them. *)
Definition rfc_U (password salt : list Z) (i j : nat) : list Z :=
  Nat.iter j (rfc2104 password) (rfc2104 password (salt ++ to_be 4 (Z.of_nat i))).
Definition rfc_T (password salt : list Z) (c i : nat) : list Z :=
  foldl (λ t j, xor_bytes t (rfc_U password salt i j)) (rfc_U password salt i 0) (seq 1 (c - 1)).
Definition rfc_pbkdf2 (password salt : list Z) (c dklen : nat) : list Z :=
  take dklen (blocks_upto (rfc_T password salt c) 1 ((dklen + 19) / 20)).

Lemma pbkdf2_iter_spec n k password u t :
  pbkdf2_iter n password (Nat.iter k (rfc2104 password) u) t =
  Ret (foldl (λ t j, xor_bytes t (Nat.iter j (rfc2104 password) u)) t (seq (S k) n)).
Proof.
  revert k t. induction n as [|n IH]; intros k t; [done|]. cbn [pbkdf2_iter seq foldl].
  rewrite hmac_sha1_spec. cbn [res_bind]. by rewrite <- (IH (S k)).
Qed.

Lemma length_rfc_U password salt i j : length (rfc_U password salt i j) = 20%nat.
Proof. unfold rfc_U. destruct j; apply length_rfc2104. Qed.

Lemma length_rfc_T password salt c i : length (rfc_T password salt c i) = 20%nat.
Proof.
  unfold rfc_T. assert (H : ∀ l t, length t = 20%nat →
    length (foldl (λ t j, xor_bytes t (rfc_U password salt i j)) t l) = 20%nat); [|apply H, length_rfc_U].
  induction l as [|j l IH]; intros t Ht; [done|]. cbn [foldl]. apply IH.
  by rewrite length_xor_bytes, Ht, length_rfc_U.
Qed.

Lemma pbkdf2_block_spec password salt c k out :
  pbkdf2_block password salt c (1 + k) out =
  let! piece := slice 0 (length out `min` (k * 20 + 20) - k * 20) (rfc_T password salt c (1 + k)) in
  write_at (k * 20) piece out.
Proof.
  unfold pbkdf2_block. rewrite hmac_sha1_multi_spec. cbn [res_bind concat]. rewrite app_nil_r.
  pose proof (pbkdf2_iter_spec (c - 1) 0 password
    (rfc2104 password (salt ++ to_be 4 (Z.of_nat (1 + k))))
    (rfc2104 password (salt ++ to_be 4 (Z.of_nat (1 + k))))) as E.
  change (Nat.iter 0 _ ?u) with u in E. rewrite E. cbn [res_bind]. cbv zeta.
  replace (1 + k - 1)%nat with k by lia. done.
Qed.

(** The blocks that cover an output of [n] bytes. *)
Lemma cover_blocks n : let b := ((n + 20 - 1) / 20)%nat in
  (n ≤ 20 * b)%nat ∧ (b = 0 ∨ 20 * (b - 1) < n)%nat.
Proof.
  intros b. unfold b. pose proof (Nat.div_mod (n + 20 - 1) 20 ltac:(lia)).
  pose proof (Nat.mod_upper_bound (n + 20 - 1) 20 ltac:(lia)). lia.
Qed.

Lemma pbkdf2_spec password salt c out :
  pbkdf2_sha1 password salt c out = Ret (rfc_pbkdf2 password salt c (length out)).
Proof.
  unfold pbkdf2_sha1, rfc_pbkdf2. destruct (cover_blocks (length out)) as [Hb1 Hb2].
  replace (length out + 19)%nat with (length out + 20 - 1)%nat by lia.
  set (b := ((length out + 20 - 1) / 20)%nat) in *.
  destruct (write_blocks (rfc_T password salt c) 1 (pbkdf2_block password salt c)
    (pbkdf2_blocks password salt c) (length_rfc_T _ _ _) (λ _, eq_refl) (λ _ _ _, eq_refl)
    (λ k out _, pbkdf2_block_spec password salt c k out) b 0 out) as (out' & E & Hl & HT).
  - by rewrite Nat.mul_0_r, take_0.
  - rewrite Nat.add_0_l. done.
  - lia.
  - rewrite Nat.add_0_r in E. rewrite E. f_equal. rewrite Nat.add_0_l in HT. rewrite <- HT.
    symmetry. apply take_ge. lia.
Qed.

Lemma derive_pmk_spec passphrase ssid : derive_pmk passphrase ssid = Ret (rfc_pbkdf2 passphrase ssid 4096 32).
Proof. unfold derive_pmk. by rewrite pbkdf2_spec, length_replicate. Qed.

(** [pbkdf2_sha1] fills the output with the first bytes of PBKDF2 (RFC 2898)
    over HMAC-SHA1 (RFC 2104), for any output length: every block is there, the
    last one cut, and nothing is written out of range. *)
Theorem pbkdf2_correct password salt c out :
  pbkdf2_sha1 password salt c out = Ret (rfc_pbkdf2 password salt c (length out)).
Proof. apply pbkdf2_spec. Qed.

(** ** The pseudo-random function of 802.11 *)

Definition prf_block (key label data : list Z) (i : nat) : list Z :=
  rfc2104 key (label ++ [0] ++ data ++ [Z.of_nat i mod 256]).

Lemma prf_384_spec key label data :
  prf_384 key label data = Ret (take 48 (blocks_upto (prf_block key label data) 0 3)).
Proof.
  unfold prf_384. change ((48 + 19) / 20)%nat with 3%nat.
  destruct (write_blocks (prf_block key label data) 0
    (λ i out, let! piece := slice 0 (length out `min` (i * 20 + 20) - i * 20) (prf_block key label data i) in
              write_at (i * 20) piece out)
    (prf_blocks key label data)) with (n := 3%nat) (k := 0%nat) (out := replicate 48 0)
    as (out' & E & Hl & HT).
  - intros i. apply length_rfc2104.
  - done.
  - intros i js out. cbn [prf_blocks]. rewrite hmac_sha1_multi_spec. cbn [res_bind concat].
    rewrite app_nil_r. cbv zeta. fold (prf_block key label data i).
    destruct (slice _ _ _); done.
  - done.
  - done.
  - right. simpl. lia.
  - simpl. lia.
  - rewrite Nat.add_0_l in E. rewrite E. f_equal. rewrite Nat.add_0_l in HT.
    rewrite length_replicate in *. rewrite <- HT. symmetry. apply take_ge. rewrite Hl. simpl. lia.
Qed.

(** ** The pairwise key *)

Lemma bytes_lt_asym a b : bytes_lt a b = true → bytes_lt b a = false.
Proof.
  revert b. induction a as [|x a IH]; intros [|y b]; simpl; try done.
  destruct (Z.ltb_spec x y), (Z.ltb_spec y x); try done; try lia. apply IH.
Qed.

Lemma bytes_lt_total a b : bytes_lt a b = false → bytes_lt b a = false → a = b.
Proof.
  revert b. induction a as [|x a IH]; intros [|y b]; simpl; try done.
  destruct (Z.ltb_spec x y), (Z.ltb_spec y x); try done. intros H1 H2. f_equal; [lia|by apply IH].
Qed.

Lemma sort_pair_sym a b :
  (if bytes_lt a b then (a, b) else (b, a)) = (if bytes_lt b a then (b, a) else (a, b)).
Proof.
  destruct (bytes_lt a b) eqn:E1.
  - by rewrite (bytes_lt_asym _ _ E1).
  - destruct (bytes_lt b a) eqn:E2; [done|]. by rewrite (bytes_lt_total _ _ E1 E2).
Qed.

Lemma fips_sha1_bytes m : bytes_ok (fips_sha1 m).
Proof.
  unfold fips_sha1. destruct (foldl _ _ _) as [[[[a b] c] d] e]. unfold digest.
  repeat (apply Forall_app; split); apply to_be_ok.
Qed.

Lemma derive_ptk_ok pmk anonce snonce ap_mac sta_mac :
  ∃ ptk, derive_ptk pmk anonce snonce ap_mac sta_mac = Ret ptk ∧ length ptk = 48%nat ∧ bytes_ok ptk.
Proof.
  unfold derive_ptk. destruct (if bytes_lt ap_mac sta_mac then _ else _) as [m1 m2],
    (if bytes_lt anonce snonce then _ else _) as [n1 n2].
  rewrite prf_384_spec. eexists. split; [done|]. split.
  - rewrite length_take, length_blocks_upto by (intros; apply length_rfc2104). lia.
  - apply Forall_take. unfold blocks_upto. apply Forall_concat, Forall_fmap, Forall_true.
    intros i. apply fips_sha1_bytes.
Qed.

(** The two ends of a four-way handshake derive the same pairwise key: the
    result does not change when the two addresses, or the two nonces, are given in
    the other order. The derivation always returns 48 bytes. *)
Theorem ptk_symmetric pmk anonce snonce ap_mac sta_mac :
  derive_ptk pmk anonce snonce ap_mac sta_mac = derive_ptk pmk snonce anonce sta_mac ap_mac ∧
  ∃ ptk, derive_ptk pmk anonce snonce ap_mac sta_mac = Ret ptk ∧ length ptk = 48%nat.
Proof.
  split.
  - unfold derive_ptk. by rewrite (sort_pair_sym ap_mac), (sort_pair_sym anonce).
  - destruct (derive_ptk_ok pmk anonce snonce ap_mac sta_mac) as (ptk & E & Hl & _). by exists ptk.
Qed.
