(* ===== verification/Aes.v ===== *)
(** AES-128, AES-CMAC and CCMP: the second half of
    [kernel/src/wifi/crypto.rs].

    Arrays of fixed size are lists; an index that the code computes from
    constants is total here, a slice whose bounds come from input is checked. *)
From stdpp Require Import base numbers list.
From S2P Require Import Prelude Bytes.

(** ** AES-128 *)

Definition SBOX : list Z :=
  [
   0x63; 0x7c; 0x77; 0x7b; 0xf2; 0x6b; 0x6f; 0xc5; 0x30; 0x01; 0x67; 0x2b; 0xfe; 0xd7; 0xab; 0x76;
   0xca; 0x82; 0xc9; 0x7d; 0xfa; 0x59; 0x47; 0xf0; 0xad; 0xd4; 0xa2; 0xaf; 0x9c; 0xa4; 0x72; 0xc0;
   0xb7; 0xfd; 0x93; 0x26; 0x36; 0x3f; 0xf7; 0xcc; 0x34; 0xa5; 0xe5; 0xf1; 0x71; 0xd8; 0x31; 0x15;
   0x04; 0xc7; 0x23; 0xc3; 0x18; 0x96; 0x05; 0x9a; 0x07; 0x12; 0x80; 0xe2; 0xeb; 0x27; 0xb2; 0x75;
   0x09; 0x83; 0x2c; 0x1a; 0x1b; 0x6e; 0x5a; 0xa0; 0x52; 0x3b; 0xd6; 0xb3; 0x29; 0xe3; 0x2f; 0x84;
   0x53; 0xd1; 0x00; 0xed; 0x20; 0xfc; 0xb1; 0x5b; 0x6a; 0xcb; 0xbe; 0x39; 0x4a; 0x4c; 0x58; 0xcf;
   0xd0; 0xef; 0xaa; 0xfb; 0x43; 0x4d; 0x33; 0x85; 0x45; 0xf9; 0x02; 0x7f; 0x50; 0x3c; 0x9f; 0xa8;
   0x51; 0xa3; 0x40; 0x8f; 0x92; 0x9d; 0x38; 0xf5; 0xbc; 0xb6; 0xda; 0x21; 0x10; 0xff; 0xf3; 0xd2;
   0xcd; 0x0c; 0x13; 0xec; 0x5f; 0x97; 0x44; 0x17; 0xc4; 0xa7; 0x7e; 0x3d; 0x64; 0x5d; 0x19; 0x73;
   0x60; 0x81; 0x4f; 0xdc; 0x22; 0x2a; 0x90; 0x88; 0x46; 0xee; 0xb8; 0x14; 0xde; 0x5e; 0x0b; 0xdb;
   0xe0; 0x32; 0x3a; 0x0a; 0x49; 0x06; 0x24; 0x5c; 0xc2; 0xd3; 0xac; 0x62; 0x91; 0x95; 0xe4; 0x79;
   0xe7; 0xc8; 0x37; 0x6d; 0x8d; 0xd5; 0x4e; 0xa9; 0x6c; 0x56; 0xf4; 0xea; 0x65; 0x7a; 0xae; 0x08;
   0xba; 0x78; 0x25; 0x2e; 0x1c; 0xa6; 0xb4; 0xc6; 0xe8; 0xdd; 0x74; 0x1f; 0x4b; 0xbd; 0x8b; 0x8a;
   0x70; 0x3e; 0xb5; 0x66; 0x48; 0x03; 0xf6; 0x0e; 0x61; 0x35; 0x57; 0xb9; 0x86; 0xc1; 0x1d; 0x9e;
   0xe1; 0xf8; 0x98; 0x11; 0x69; 0xd9; 0x8e; 0x94; 0x9b; 0x1e; 0x87; 0xe9; 0xce; 0x55; 0x28; 0xdf;
   0x8c; 0xa1; 0x89; 0x0d; 0xbf; 0xe6; 0x42; 0x68; 0x41; 0x99; 0x2d; 0x0f; 0xb0; 0x54; 0xbb; 0x16
  ].
Definition RCON : list Z := [0x00; 0x01; 0x02; 0x04; 0x08; 0x10; 0x20; 0x40; 0x80; 0x1b; 0x36].

Definition sbox (b : Z) : Z := SBOX !!! Z.to_nat b.
(** [x << 1] on a [u8]. *)
Definition shl8 (x : Z) : Z := (2 * x) mod 256.

Definition xtime (x : Z) : Z := if decide (Z.land x 0x80 = 0) then shl8 x else Z.lxor (shl8 x) 0x1B.

Definition gmul_step (st : Z * Z * Z) : Z * Z * Z :=
  let '(r, a, b) := st in
  let r := if decide (Z.land b 1 = 0) then r else Z.lxor r a in
  let hi := Z.land a 0x80 in
  let a := shl8 a in
  let a := if decide (hi = 0) then a else Z.lxor a 0x1B in
  (r, a, Z.shiftr b 1).
Definition gmul (a b : Z) : Z := (Nat.iter 8 gmul_step (0, a, b)).1.1.

Definition sub_bytes (s : list Z) : list Z := sbox <$> s.

(** [s.swap(i, j)]. *)
Definition swap (i j : nat) (s : list Z) : list Z := <[j := s !!! i]> (<[i := s !!! j]> s).

Definition shift_rows (s : list Z) : list Z :=
  let t := s !!! 1%nat in
  let s := <[1%nat := s !!! 5%nat]> s in
  let s := <[5%nat := s !!! 9%nat]> s in
  let s := <[9%nat := s !!! 13%nat]> s in
  let s := <[13%nat := t]> s in
  let s := swap 6 14 (swap 2 10 s) in
  let t := s !!! 15%nat in
  let s := <[15%nat := s !!! 11%nat]> s in
  let s := <[11%nat := s !!! 7%nat]> s in
  let s := <[7%nat := s !!! 3%nat]> s in
  <[3%nat := t]> s.

Definition mix_column (s : list Z) (c : nat) : list Z :=
  let i := (c * 4)%nat in
  let s0 := s !!! i in
  let s1 := s !!! (i + 1)%nat in
  let s2 := s !!! (i + 2)%nat in
  let s3 := s !!! (i + 3)%nat in
  let s := <[i := Z.lxor (Z.lxor (Z.lxor (gmul 2 s0) (gmul 3 s1)) s2) s3]> s in
  let s := <[(i + 1)%nat := Z.lxor (Z.lxor (Z.lxor s0 (gmul 2 s1)) (gmul 3 s2)) s3]> s in
  let s := <[(i + 2)%nat := Z.lxor (Z.lxor (Z.lxor s0 s1) (gmul 2 s2)) (gmul 3 s3)]> s in
  <[(i + 3)%nat := Z.lxor (Z.lxor (Z.lxor (gmul 3 s0) s1) s2) (gmul 2 s3)]> s.
Definition mix_columns (s : list Z) : list Z := foldl mix_column s (seq 0 4).

Definition add_round_key (state rk : list Z) : list Z := xor_bytes state rk.

(** [&rk[i * 16..(i + 1) * 16]]. *)
Definition round_key (rk : list Z) (i : nat) : list Z := take 16 (drop (i * 16) rk).

Definition expand_step (rk : list Z) (i : nat) : list Z :=
  let prev := round_key rk (i - 1) in
  let temp := [prev !!! 13%nat; prev !!! 14%nat; prev !!! 15%nat; prev !!! 12%nat] in
  let temp := sbox <$> temp in
  let temp := <[0%nat := Z.lxor (temp !!! 0%nat) (RCON !!! i)]> temp in
  let n0 := xor_bytes (take 4 prev) temp in
  let n1 := xor_bytes (take 4 (drop 4 prev)) n0 in
  let n2 := xor_bytes (take 4 (drop 8 prev)) n1 in
  let n3 := xor_bytes (take 4 (drop 12 prev)) n2 in
  take (i * 16) rk ++ (n0 ++ n1 ++ n2 ++ n3) ++ drop ((i + 1) * 16) rk.
Definition aes128_key_expand (key : list Z) : list Z :=
  foldl expand_step (key ++ replicate 160 0) (seq 1 10).

Definition aes_round (rk : list Z) (block : list Z) (r : nat) : list Z :=
  add_round_key (mix_columns (shift_rows (sub_bytes block))) (round_key rk r).
Definition aes128_encrypt (block rk : list Z) : list Z :=
  let block := add_round_key block (round_key rk 0) in
  let block := foldl (aes_round rk) block (seq 1 9) in
  add_round_key (shift_rows (sub_bytes block)) (round_key rk 10).

(** ** AES-CMAC *)

(** The in-place left shift of a 16-byte string by one bit. *)
Fixpoint shl_bytes (k : list Z) : list Z :=
  match k with
  | [] => []
  | x :: k' => match k' with
               | [] => [shl8 x]
               | y :: _ => Z.lor (shl8 x) (Z.shiftr y 7) :: shl_bytes k'
               end
  end.
Definition subkey (l : list Z) : list Z :=
  let k := shl_bytes l in
  if decide (Z.land (l !!! 0%nat) 0x80 = 0) then k
  else <[15%nat := Z.lxor (k !!! 15%nat) 0x87]> k.
Definition generate_subkeys (rk : list Z) : list Z * list Z :=
  let l := aes128_encrypt (replicate 16 0) rk in
  let k1 := subkey l in
  (k1, subkey k1).

Fixpoint cmac_blocks (rk msg : list Z) (n i : nat) (x : list Z) : res (list Z) :=
  match n with
  | O => Ret x
  | S n' =>
      let! block := slice (i * 16) (i * 16 + 16) msg in
      cmac_blocks rk msg n' (S i) (aes128_encrypt (xor_bytes x block) rk)
  end.

Definition aes_cmac (key msg : list Z) : res (list Z) :=
  let rk := aes128_key_expand key in
  let (k1, k2) := generate_subkeys rk in
  let n := ((length msg + 15) / 16)%nat in
  let (n, flag) := if decide (n = 0)%nat then (1%nat, false)
                   else (n, bool_decide (length msg mod 16 = 0)%nat) in
  let! x := cmac_blocks rk msg (n - 1) 0 (replicate 16 0) in
  let last_start := ((n - 1) * 16)%nat in
  let last_len := (length msg - last_start)%nat in
  let! tail := slice last_start (length msg) msg in
  let! last := write_at 0 tail (replicate 16 0) in
  let! last := (if flag : bool then Ret (xor_bytes last k1)
                else let! last := write_at last_len [0x80] last in Ret (xor_bytes last k2)) in
  Ret (aes128_encrypt (xor_bytes x last) rk).

Definition eapol_mic (kck frame : list Z) : res (list Z) := aes_cmac kck frame.

(** ** CCMP *)

(** [((pn >> k) & 0xFF) as u8]. *)
Definition pn_byte (pn k : Z) : Z := Z.land (Z.shiftr pn k) 0xFF.

Definition ccmp_nonce (a2 : list Z) (pn : Z) : list Z :=
  0 :: a2 ++ [pn_byte pn 40; pn_byte pn 32; pn_byte pn 24; pn_byte pn 16; pn_byte pn 8; pn_byte pn 0].

(** [!x] on a [u8]. *)
Definition not8 (x : Z) : Z := Z.lxor x 0xFF.
Definition ccmp_aad (mac_hdr : list Z) : list Z :=
  let aad := mac_hdr in
  let aad := <[1%nat := Z.land (aad !!! 1%nat) (not8 0x40)]> aad in
  let aad := <[1%nat := Z.land (aad !!! 1%nat) (not8 0x38)]> aad in
  let aad := <[22%nat := Z.land (aad !!! 22%nat) 0x0F]> aad in
  <[23%nat := 0]> aad.

(** One block of the CBC-MAC. *)
Definition mac_block (rk x b : list Z) : list Z := aes128_encrypt (xor_bytes x b) rk.

(** [while i < padded_len]: [n] blocks of the plaintext, the last one padded. *)
Fixpoint mac_plaintext (rk plaintext : list Z) (n i : nat) (x : list Z) : res (list Z) :=
  match n with
  | O => Ret x
  | S n' =>
      let last := ((i + 16) `min` length plaintext)%nat in
      let! piece := slice i last plaintext in
      let! b := write_at 0 piece (replicate 16 0) in
      mac_plaintext rk plaintext n' (i + 16) (mac_block rk x b)
  end.

Definition ctr_block (nonce : list Z) (counter : Z) : list Z :=
  0x01 :: nonce ++ [Z.shiftr counter 8; Z.land counter 0xFF].

Definition ccmp_cbcmac (tk nonce aad plaintext : list Z) : res (list Z) :=
  let rk := aes128_key_expand tk in
  let plen := Z.of_nat (length plaintext) mod 65536 in
  let b0 := 0x59 :: nonce ++ [Z.shiftr plen 8; Z.land plen 0xFF] in
  let x := aes128_encrypt b0 rk in
  let aad_block := 0 :: 24 :: aad ++ replicate 6 0 in
  let x := mac_block rk x (take 16 aad_block) in
  let x := mac_block rk x (take 16 (drop 16 aad_block)) in
  let padded_len := ((length plaintext + 15) / 16 * 16)%nat in
  let! x := mac_plaintext rk plaintext (padded_len / 16) 0 x in
  let s0 := aes128_encrypt (ctr_block nonce 0) rk in
  Ret (xor_bytes (take 8 x) (take 8 s0)).

(** [while i < data.len()]: the counter is incremented before it is used. *)
Fixpoint ctr_loop (fuel : nat) (rk nonce : list Z) (counter : Z) (i : nat) (data : list Z)
    : res (list Z) :=
  if decide (i < length data)%nat then
    match fuel with
    | O => OutOfFuel
    | S fuel' =>
        let counter := (counter + 1) mod 65536 in
        let blk := aes128_encrypt (ctr_block nonce counter) rk in
        let last := (length data `min` (i + 16))%nat in
        let! piece := slice i last data in
        let! data := write_at i (xor_bytes piece blk) data in
        ctr_loop fuel' rk nonce counter (i + 16) data
    end
  else Ret data.

Definition ccmp_ctr (tk nonce data : list Z) : res (list Z) :=
  ctr_loop (length data) (aes128_key_expand tk) nonce 1 0 data.

Definition ccmp_encrypt (tk mac_hdr a2 : list Z) (pn : Z) (plaintext : list Z) : res (list Z) :=
  let nonce := ccmp_nonce a2 pn in
  let aad := ccmp_aad mac_hdr in
  let! mic := ccmp_cbcmac tk nonce aad plaintext in
  let! ct := ccmp_ctr tk nonce plaintext in
  Ret (ct ++ mic).

Definition ccmp_pn (h : list Z) : Z :=
  Z.lor (Z.lor (Z.lor (Z.lor (Z.lor (Z.shiftl (h !!! 7%nat) 40) (Z.shiftl (h !!! 6%nat) 32))
    (Z.shiftl (h !!! 5%nat) 24)) (Z.shiftl (h !!! 4%nat) 16)) (Z.shiftl (h !!! 1%nat) 8)) (h !!! 0%nat).

(** The CCMP header that the transmit path of [wifi/mod.rs] puts before the
    ciphertext. *)
Definition ccmp_header (pn : Z) : list Z :=
  [pn_byte pn 0; pn_byte pn 8; 0x00; 0x20; pn_byte pn 16; pn_byte pn 24; pn_byte pn 32; pn_byte pn 40].

Definition ccmp_decrypt (tk frame : list Z) : res (option (list Z)) :=
  if decide (length frame < 40)%nat then Ret None else
  let! mac_hdr := slice 0 24 frame in
  let! ccmp_hdr := slice 24 32 frame in
  let pn := ccmp_pn ccmp_hdr in
  let ct_end := (length frame - 8)%nat in
  let! ciphertext := slice 32 ct_end frame in
  let! rx_mic := slice ct_end (length frame) frame in
  let! a2 := slice 10 16 mac_hdr in
  let nonce := ccmp_nonce a2 pn in
  let! plaintext := ccmp_ctr tk nonce ciphertext in
  let! expected := ccmp_cbcmac tk nonce (ccmp_aad mac_hdr) plaintext in
  if decide (expected = rx_mic) then Ret (Some plaintext) else Ret None.

(** FIPS 197, appendix B. *)
Example aes_fips197 :
  aes128_encrypt [0x32; 0x43; 0xf6; 0xa8; 0x88; 0x5a; 0x30; 0x8d; 0x31; 0x31; 0x98; 0xa2; 0xe0; 0x37; 0x07; 0x34]
    (aes128_key_expand [0x2b; 0x7e; 0x15; 0x16; 0x28; 0xae; 0xd2; 0xa6; 0xab; 0xf7; 0x15; 0x88; 0x09; 0xcf; 0x4f; 0x3c])
  = [0x39; 0x25; 0x84; 0x1d; 0x02; 0xdc; 0x09; 0xfb; 0xdc; 0x11; 0x85; 0x97; 0x19; 0x6a; 0x0b; 0x32].
Proof. vm_compute. reflexivity. Qed.

(** RFC 4493, example 2. *)
Example cmac_rfc4493 :
  aes_cmac [0x2b; 0x7e; 0x15; 0x16; 0x28; 0xae; 0xd2; 0xa6; 0xab; 0xf7; 0x15; 0x88; 0x09; 0xcf; 0x4f; 0x3c]
    [0x6b; 0xc1; 0xbe; 0xe2; 0x2e; 0x40; 0x9f; 0x96; 0xe9; 0x3d; 0x7e; 0x11; 0x73; 0x93; 0x17; 0x2a]
  = Ret [0x07; 0x0a; 0x16; 0xb4; 0x6b; 0x4d; 0x41; 0x44; 0xf7; 0x9b; 0xdd; 0x9d; 0xd0; 0x4a; 0x28; 0x7c].
Proof. vm_compute. reflexivity. Qed.
