(* ===== verification/AesFacts.v ===== *)
(** AES-128 as a cipher: its field arithmetic and S-box against FIPS 197, and
    that encryption under a key is a permutation of 16-byte blocks. *)
From Stdlib Require Import Btauto.
From stdpp Require Import base numbers list sets.
From S2P Require Import Prelude Bytes Aes.

(** ** The field GF(2^8) *)

(** Product of polynomials over GF(2), then reduction by x^8+x^4+x^3+x+1. *)
Definition clmul (a b : Z) : Z :=
  foldl (λ p i, if Z.testbit b i then Z.lxor p (Z.shiftl a i) else p) 0 (seqZ 0 8).
Definition gf_reduce (p : Z) : Z :=
  foldl (λ p i, if Z.testbit p i then Z.lxor p (Z.shiftl 0x11B (i - 8)) else p) p
    [14; 13; 12; 11; 10; 9; 8].
Definition gf_mul (a b : Z) : Z := gf_reduce (clmul a b).
(** [x^2 x^4 .. x^128 = x^254], the inverse of a nonzero [x]. *)
Definition gf_inv (x : Z) : Z :=
  (Nat.iter 7 (λ st, let x2 := gf_mul st.1 st.1 in (x2, gf_mul st.2 x2)) (x, 1)).2.
(** The affine map of the S-box, bit [i] of the result from bits i, i+4 .. i+7. *)
Definition affine_bit (y i : Z) : bool :=
  xorb (xorb (xorb (xorb (xorb (Z.testbit y i) (Z.testbit y ((i + 4) mod 8)))
    (Z.testbit y ((i + 5) mod 8))) (Z.testbit y ((i + 6) mod 8))) (Z.testbit y ((i + 7) mod 8)))
    (Z.testbit 0x63 i).
Definition affine (y : Z) : Z :=
  foldl (λ r i, if affine_bit y i then r + 2 ^ i else r) 0 (seqZ 0 8).

(** A check of every byte. *)
Lemma forall_bytes (f : Z → bool) : forallb f (seqZ 0 256) = true → ∀ x, byte_ok x → f x = true.
Proof.
  intros H x Hx. rewrite forallb_forall in H. apply H. apply list_elem_of_In, elem_of_seqZ.
  unfold byte_ok in Hx. lia.
Qed.

Lemma sbox_gf x : byte_ok x →
  sbox x = affine (gf_inv x) ∧ (if x =? 0 then gf_inv x = 0 else gf_mul x (gf_inv x) = 1).
Proof.
  intros Hx. assert (H := forall_bytes (λ x, (sbox x =? affine (gf_inv x)) &&
    (if x =? 0 then gf_inv x =? 0 else gf_mul x (gf_inv x) =? 1))
    ltac:(vm_compute; reflexivity) x Hx).
  apply andb_prop in H as [H1 H2]. split; [by apply Z.eqb_eq|]. destruct (x =? 0); by apply Z.eqb_eq.
Qed.

(** ** Multiplication by a constant is linear *)

Definition xt (a : Z) : Z := if decide (Z.land a 0x80 = 0) then shl8 a else Z.lxor (shl8 a) 0x1B.
Fixpoint gsum (n : nat) (a b : Z) : Z :=
  match n with
  | O => 0
  | S n' => Z.lxor (if Z.testbit b 0 then a else 0) (gsum n' (xt a) (Z.shiftr b 1))
  end.

Lemma land_1_testbit b : Z.land b 1 = 0 ↔ Z.testbit b 0 = false.
Proof.
  change 1 with (Z.ones 1). rewrite Z.land_ones, Z.pow_1_r by lia. rewrite Zmod_odd, Z.bit0_odd.
  by destruct (Z.odd b).
Qed.

Lemma iter_gmul_step n r a b : (Nat.iter n gmul_step (r, a, b)).1.1 = Z.lxor r (gsum n a b).
Proof.
  revert r a b. induction n as [|n IH]; intros r a b; [by rewrite Z.lxor_0_r|].
  rewrite Nat.iter_succ_r. cbn [gmul_step gsum]. unfold gmul_step. fold (xt a). rewrite IH.
  rewrite <- Z.lxor_assoc. f_equal. destruct (Z.testbit b 0) eqn:E.
  - rewrite decide_False; [done|]. rewrite land_1_testbit. by rewrite E.
  - rewrite decide_True by (by apply land_1_testbit). by rewrite Z.lxor_0_r.
Qed.

Lemma gmul_gsum a b : gmul a b = gsum 8 a b.
Proof. unfold gmul. by rewrite iter_gmul_step, Z.lxor_0_l. Qed.

Lemma lxor_4 a b c d : Z.lxor (Z.lxor a b) (Z.lxor c d) = Z.lxor (Z.lxor a c) (Z.lxor b d).
Proof.
  rewrite !Z.lxor_assoc. f_equal. rewrite <- !Z.lxor_assoc. f_equal. apply Z.lxor_comm.
Qed.

Lemma gsum_linear n a x y : gsum n a (Z.lxor x y) = Z.lxor (gsum n a x) (gsum n a y).
Proof.
  revert a x y. induction n as [|n IH]; intros a x y; [done|]. cbn [gsum].
  rewrite Z.shiftr_lxor, IH, lxor_4. f_equal. rewrite Z.lxor_spec.
  destruct (Z.testbit x 0), (Z.testbit y 0); simpl;
    by rewrite ?Z.lxor_nilpotent, ?Z.lxor_0_r, ?Z.lxor_0_l.
Qed.

Lemma gmul_linear a x y : gmul a (Z.lxor x y) = Z.lxor (gmul a x) (gmul a y).
Proof. rewrite !gmul_gsum. apply gsum_linear. Qed.

(** A linear function on bytes is determined by its values at the powers of two. *)
Definition linear (f : Z → Z) : Prop := ∀ x y, f (Z.lxor x y) = Z.lxor (f x) (f y).

Lemma linear_0 f : linear f → f 0 = 0.
Proof.
  intros H. pose proof (H 0 0) as E. rewrite Z.lxor_0_l, Z.lxor_nilpotent in E. done.
Qed.

Lemma linear_foldl f g (l : list Z) r :
  linear f → f (foldl (λ r i, Z.lxor r (g i)) r l) = foldl (λ r i, Z.lxor r (f (g i))) (f r) l.
Proof.
  intros Hf. revert r. induction l as [|i l IH]; intros r; [done|]. cbn [foldl]. by rewrite IH, Hf.
Qed.

Lemma foldl_lxor_ext (f g : Z → Z) l r :
  (∀ i, i ∈ l → f i = g i) → foldl (λ r i, Z.lxor r (f i)) r l = foldl (λ r i, Z.lxor r (g i)) r l.
Proof.
  revert r. induction l as [|i l IH]; intros r H; [done|]. cbn [foldl]. rewrite H by set_solver.
  apply IH. set_solver.
Qed.

Lemma byte_bits x : byte_ok x →
  x = foldl (λ r i, Z.lxor r (if Z.testbit x i then 2 ^ i else 0)) 0 (seqZ 0 8).
Proof.
  intros Hx. apply Z.eqb_eq. revert x Hx. apply forall_bytes. vm_compute. reflexivity.
Qed.

Lemma linear_ext f g x :
  linear f → linear g → forallb (λ i, f (2 ^ i) =? g (2 ^ i)) (seqZ 0 8) = true → byte_ok x → f x = g x.
Proof.
  intros Hf Hg H Hx. rewrite (byte_bits x Hx), !linear_foldl, !linear_0 by done.
  assert (Hi : ∀ i, i ∈ seqZ 0 8 → f (if Z.testbit x i then 2 ^ i else 0) = g (if Z.testbit x i then 2 ^ i else 0)).
  { intros i Hi. rewrite forallb_forall in H. destruct (Z.testbit x i); [|by rewrite !linear_0].
    apply Z.eqb_eq, H. by apply list_elem_of_In. }
  by apply foldl_lxor_ext.
Qed.

Lemma clmul_linear a : linear (clmul a).
Proof.
  intros x y. unfold clmul.
  assert (H : ∀ l p q, foldl (λ p i, if Z.testbit (Z.lxor x y) i then Z.lxor p (Z.shiftl a i) else p) (Z.lxor p q) l
    = Z.lxor (foldl (λ p i, if Z.testbit x i then Z.lxor p (Z.shiftl a i) else p) p l)
        (foldl (λ p i, if Z.testbit y i then Z.lxor p (Z.shiftl a i) else p) q l)); [|exact (H _ 0 0)].
  induction l as [|i l IH]; intros p q; [done|]. cbn [foldl]. rewrite <- IH. f_equal.
  rewrite Z.lxor_spec. destruct (Z.testbit x i), (Z.testbit y i); simpl; [|..|done].
  - by rewrite lxor_4, Z.lxor_nilpotent, Z.lxor_0_r.
  - rewrite !Z.lxor_assoc. f_equal. apply Z.lxor_comm.
  - by rewrite Z.lxor_assoc.
Qed.

Lemma gf_reduce_linear : linear gf_reduce.
Proof.
  intros x y. unfold gf_reduce. revert x y.
  induction [14; 13; 12; 11; 10; 9; 8] as [|i l IH]; intros x y; [done|]. cbn [foldl]. rewrite <- IH. f_equal.
  rewrite Z.lxor_spec. destruct (Z.testbit x i), (Z.testbit y i); simpl; [|..|done].
  - by rewrite lxor_4, Z.lxor_nilpotent, Z.lxor_0_r.
  - rewrite !Z.lxor_assoc. f_equal. apply Z.lxor_comm.
  - by rewrite Z.lxor_assoc.
Qed.

Lemma gmul_gf a b : byte_ok a → byte_ok b → gmul a b = gf_mul a b.
Proof.
  intros Ha Hb. apply linear_ext; [intros x y; apply gmul_linear| | |done].
  - intros x y. unfold gf_mul. by rewrite clmul_linear, gf_reduce_linear.
  - revert a Ha. apply forall_bytes. vm_compute. reflexivity.
Qed.

(** ** Bytes *)

Lemma lxor_byte a b : byte_ok a → byte_ok b → byte_ok (Z.lxor a b).
Proof.
  intros [Ha Ha'] [Hb Hb'].
  assert (0 ≤ Z.lxor a b) by (apply Z.lxor_nonneg; tauto). split; [done|].
  change 256 with (2 ^ 8) in *.
  apply Z.bounded_iff_bits_nonneg; [lia|done|]. intros k Hk. rewrite Z.lxor_spec.
  rewrite (proj1 (Z.bounded_iff_bits_nonneg 8 a ltac:(lia) Ha) Ha' k Hk).
  by rewrite (proj1 (Z.bounded_iff_bits_nonneg 8 b ltac:(lia) Hb) Hb' k Hk).
Qed.

Lemma xor_bytes_ok a b : bytes_ok a → bytes_ok b → bytes_ok (xor_bytes a b).
Proof.
  intros Ha. revert b. induction Ha as [|x a Hx Ha IH]; intros b Hb; [constructor|].
  destruct Hb as [|y b Hy Hb]; constructor; [by apply lxor_byte|by apply IH].
Qed.

Lemma sbox_byte x : byte_ok x → byte_ok (sbox x).
Proof.
  intros Hx. assert (H := forall_bytes (λ x, (0 <=? sbox x) && (sbox x <? 256))
    ltac:(vm_compute; reflexivity) x Hx).
  apply andb_prop in H as [H1 H2]. split; [by apply Z.leb_le|by apply Z.ltb_lt].
Qed.

Lemma sbox_inj x y : byte_ok x → byte_ok y → sbox x = sbox y → x = y.
Proof.
  intros Hx Hy E. assert (Hnd : NoDup SBOX) by (apply (bool_decide_unpack _); by vm_compute).
  assert (Hlen : length SBOX = 256%nat) by done.
  assert (L : ∀ z, byte_ok z → SBOX !! Z.to_nat z = Some (sbox z)).
  { intros z Hz. apply list_lookup_lookup_total_lt. unfold byte_ok in Hz. lia. }
  unfold byte_ok in *. pose proof (L x Hx) as Lx. rewrite E in Lx.
  pose proof (NoDup_lookup _ _ _ _ Hnd Lx (L y Hy)). lia.
Qed.

Lemma gsum_byte n a b : byte_ok a → byte_ok (gsum n a b).
Proof.
  revert a b. induction n as [|n IH]; intros a b Ha; [by split|]. cbn [gsum]. apply lxor_byte.
  - by destruct (Z.testbit b 0).
  - apply IH. unfold xt. assert (byte_ok (shl8 a)) by (apply Z.mod_pos_bound; lia).
    case_decide; [done|]. by apply lxor_byte.
Qed.

Lemma gmul_byte a b : byte_ok a → byte_ok (gmul a b).
Proof. intros Ha. rewrite gmul_gsum. by apply gsum_byte. Qed.

(** ** The round functions *)

Definition block_ok (s : list Z) : Prop := length s = 16%nat ∧ bytes_ok s.

(** A block as its sixteen bytes. *)
Ltac explode_block s H :=
  let Hl := fresh in destruct H as [Hl H];
  do 16 (destruct s as [|? s]; [discriminate Hl|]); destruct s; [|discriminate Hl]; clear Hl;
  repeat match type of H with
         | Forall _ (_ :: _) => let Hx := fresh "Hb" in apply Forall_cons in H as [Hx H]
         end; clear H.

Lemma shift_rows_explicit x0 x1 x2 x3 x4 x5 x6 x7 x8 x9 x10 x11 x12 x13 x14 x15 :
  shift_rows [x0; x1; x2; x3; x4; x5; x6; x7; x8; x9; x10; x11; x12; x13; x14; x15] =
  [x0; x5; x10; x15; x4; x9; x14; x3; x8; x13; x2; x7; x12; x1; x6; x11].
Proof. reflexivity. Qed.

(** Sums in GF(2)^n: equal up to order. *)
Ltac xor_solve := apply Z.bits_inj'; intros ? _; rewrite !Z.lxor_spec; btauto.

(** A column is mixed by one sum, rotated. *)
Definition mixb (a b c d : Z) : Z := Z.lxor (Z.lxor (Z.lxor (gmul 2 a) (gmul 3 b)) c) d.
Definition mix4 (a b c d : Z) : list Z := [mixb a b c d; mixb b c d a; mixb c d a b; mixb d a b c].

#[local] Opaque gmul.

Lemma mix_columns_explicit x0 x1 x2 x3 x4 x5 x6 x7 x8 x9 x10 x11 x12 x13 x14 x15 :
  mix_columns [x0; x1; x2; x3; x4; x5; x6; x7; x8; x9; x10; x11; x12; x13; x14; x15] =
  mix4 x0 x1 x2 x3 ++ mix4 x4 x5 x6 x7 ++ mix4 x8 x9 x10 x11 ++ mix4 x12 x13 x14 x15.
Proof.
  assert (H1 : ∀ a b c d, mixb b c d a = Z.lxor (Z.lxor (Z.lxor a (gmul 2 b)) (gmul 3 c)) d)
    by (intros; unfold mixb; xor_solve).
  assert (H2 : ∀ a b c d, mixb c d a b = Z.lxor (Z.lxor (Z.lxor a b) (gmul 2 c)) (gmul 3 d))
    by (intros; unfold mixb; xor_solve).
  assert (H3 : ∀ a b c d, mixb d a b c = Z.lxor (Z.lxor (Z.lxor (gmul 3 a) b) c) (gmul 2 d))
    by (intros; unfold mixb; xor_solve).
  unfold mix4. rewrite (H1 x0), (H2 x0), (H3 x0), (H1 x4), (H2 x4), (H3 x4), (H1 x8), (H2 x8), (H3 x8),
    (H1 x12), (H2 x12), (H3 x12). reflexivity.
Qed.

(** The inverse of a column: multiplication by 14, 11, 13 and 9. *)
Definition unmix (a b c d : Z) : Z :=
  Z.lxor (Z.lxor (Z.lxor (gmul 14 a) (gmul 11 b)) (gmul 13 c)) (gmul 9 d).

#[local] Transparent gmul.
Definition sumA (a : Z) := Z.lxor (Z.lxor (Z.lxor (gmul 14 (gmul 2 a)) (gmul 11 a)) (gmul 13 a)) (gmul 9 (gmul 3 a)).
Definition sumB (b : Z) := Z.lxor (Z.lxor (Z.lxor (gmul 14 (gmul 3 b)) (gmul 11 (gmul 2 b))) (gmul 13 b)) (gmul 9 b).
Definition sumC (c : Z) := Z.lxor (Z.lxor (Z.lxor (gmul 14 c) (gmul 11 (gmul 3 c))) (gmul 13 (gmul 2 c))) (gmul 9 c).
Definition sumD (d : Z) := Z.lxor (Z.lxor (Z.lxor (gmul 14 d) (gmul 11 d)) (gmul 13 (gmul 3 d))) (gmul 9 (gmul 2 d)).

Lemma column_sums x : byte_ok x → sumA x = x ∧ sumB x = 0 ∧ sumC x = 0 ∧ sumD x = 0.
Proof.
  intros Hx. assert (H := forall_bytes (λ x, (sumA x =? x) && (sumB x =? 0) && (sumC x =? 0) && (sumD x =? 0))
    ltac:(vm_compute; reflexivity) x Hx).
  rewrite !andb_true_iff, !Z.eqb_eq in H. tauto.
Qed.
#[local] Opaque gmul.

Lemma unmix_mix4 a b c d : byte_ok a → byte_ok b → byte_ok c → byte_ok d →
  unmix (mixb a b c d) (mixb b c d a) (mixb c d a b) (mixb d a b c) = a.
Proof.
  intros Ha Hb Hc Hd. unfold unmix, mixb. rewrite !gmul_linear.
  transitivity (Z.lxor (Z.lxor (Z.lxor (sumA a) (sumB b)) (sumC c)) (sumD d)).
  - unfold sumA, sumB, sumC, sumD. xor_solve.
  - destruct (column_sums a Ha) as (-> & _), (column_sums b Hb) as (_ & -> & _),
      (column_sums c Hc) as (_ & _ & -> & _), (column_sums d Hd) as (_ & _ & _ & ->).
    by rewrite !Z.lxor_0_r.
Qed.

Lemma four_inj {X} (a b c d a' b' c' d' : X) :
  [a; b; c; d] = [a'; b'; c'; d'] → a = a' ∧ b = b' ∧ c = c' ∧ d = d'.
Proof. by intros [= -> -> -> ->]. Qed.

Lemma mix4_inj a b c d a' b' c' d' :
  byte_ok a → byte_ok b → byte_ok c → byte_ok d → byte_ok a' → byte_ok b' → byte_ok c' → byte_ok d' →
  mix4 a b c d = mix4 a' b' c' d' → [a; b; c; d] = [a'; b'; c'; d'].
Proof.
  intros Ha Hb Hc Hd Ha' Hb' Hc' Hd' E. apply four_inj in E as (E0 & E1 & E2 & E3).
  pose proof (unmix_mix4 a b c d Ha Hb Hc Hd) as A. pose proof (unmix_mix4 b c d a Hb Hc Hd Ha) as B.
  pose proof (unmix_mix4 c d a b Hc Hd Ha Hb) as C. pose proof (unmix_mix4 d a b c Hd Ha Hb Hc) as D.
  rewrite E0, E1, E2, E3, unmix_mix4 in A by assumption. rewrite E0, E1, E2, E3, unmix_mix4 in B by assumption.
  rewrite E0, E1, E2, E3, unmix_mix4 in C by assumption. rewrite E0, E1, E2, E3, unmix_mix4 in D by assumption.
  by subst.
Qed.

(** ** Encryption is a permutation *)

Lemma add_round_key_ok s k : block_ok s → block_ok k → block_ok (add_round_key s k).
Proof.
  intros [Hl Hs] [Hk Hb]. split; [unfold add_round_key; rewrite length_xor_bytes; lia|by apply xor_bytes_ok].
Qed.
Lemma add_round_key_inj s s' k :
  block_ok s → block_ok s' → block_ok k → add_round_key s k = add_round_key s' k → s = s'.
Proof.
  intros [Hl _] [Hl' _] [Hk _] E. unfold add_round_key in E.
  rewrite <- (xor_bytes_cancel s k), <- (xor_bytes_cancel s' k) by lia. by rewrite E.
Qed.

Lemma sub_bytes_ok s : block_ok s → block_ok (sub_bytes s).
Proof.
  intros [Hl Hs]. split; [unfold sub_bytes; by rewrite length_fmap|].
  apply Forall_fmap. eapply Forall_impl; [exact Hs|]. apply sbox_byte.
Qed.
Lemma sub_bytes_inj s s' : block_ok s → block_ok s' → sub_bytes s = sub_bytes s' → s = s'.
Proof.
  intros [_ Hs] [_ Hs']. revert s' Hs'. induction Hs as [|x s Hx Hs IH]; intros [|y s'] Hs' E; try done.
  apply Forall_cons in Hs' as [Hy Hs']. injection E as E1 E2. f_equal; [by apply sbox_inj|by apply IH].
Qed.

Lemma shift_rows_ok s : block_ok s → block_ok (shift_rows s).
Proof.
  intros H. explode_block s H. rewrite shift_rows_explicit. split; [done|].
  repeat (apply Forall_cons; split; [assumption|]). constructor.
Qed.
Lemma shift_rows_inj s s' : block_ok s → block_ok s' → shift_rows s = shift_rows s' → s = s'.
Proof.
  intros H H' E. explode_block s H. explode_block s' H'. rewrite !shift_rows_explicit in E.
  injection E as -> -> -> -> -> -> -> -> -> -> -> -> -> -> -> ->. done.
Qed.

Lemma mixb_byte a b c d : byte_ok c → byte_ok d → byte_ok (mixb a b c d).
Proof. intros. unfold mixb. repeat apply lxor_byte; try done; by apply gmul_byte. Qed.

Lemma mix4_bytes a b c d : byte_ok a → byte_ok b → byte_ok c → byte_ok d → bytes_ok (mix4 a b c d).
Proof. intros. unfold mix4. repeat (apply Forall_cons; split; [by apply mixb_byte|]). constructor. Qed.

Lemma mix_columns_ok s : block_ok s → block_ok (mix_columns s).
Proof.
  intros H. explode_block s H. rewrite mix_columns_explicit. split; [done|].
  repeat (apply Forall_app; split); by apply mix4_bytes.
Qed.

Lemma mix_columns_inj s s' : block_ok s → block_ok s' → mix_columns s = mix_columns s' → s = s'.
Proof.
  intros H H' E. explode_block s H. explode_block s' H'. rewrite !mix_columns_explicit in E.
  apply app_inj_1 in E as [E1 E]; [|done]. apply app_inj_1 in E as [E2 E]; [|done].
  apply app_inj_1 in E as [E3 E4]; [|done].
  apply mix4_inj in E1, E2, E3, E4; [|assumption..].
  injection E1 as -> -> -> ->. injection E2 as -> -> -> ->. injection E3 as -> -> -> ->.
  by injection E4 as -> -> -> ->.
Qed.

(** Round keys. *)
Lemma lookup_total_byte l j : bytes_ok l → byte_ok (l !!! j).
Proof.
  intros Hl. rewrite list_lookup_total_alt. destruct (l !! j) eqn:E; simpl; [|by split].
  by eapply Forall_lookup_1 in E.
Qed.

Lemma round_key_ok rk i : length rk = 176%nat → bytes_ok rk → (i ≤ 10)%nat → block_ok (round_key rk i).
Proof.
  intros Hl Hb Hi. split; [unfold round_key; rewrite length_take, length_drop; lia|].
  by apply Forall_take, Forall_drop.
Qed.

Lemma expand_step_ok rk i :
  (1 ≤ i ≤ 10)%nat → length rk = 176%nat ∧ bytes_ok rk →
  length (expand_step rk i) = 176%nat ∧ bytes_ok (expand_step rk i).
Proof.
  intros Hi [Hl Hb]. unfold expand_step. cbv zeta.
  destruct (round_key_ok rk (i - 1) Hl Hb ltac:(lia)) as [Hp1 Hp2]. set (prev := round_key rk (i - 1)) in *.
  assert (HR : byte_ok (RCON !!! i)) by (apply lookup_total_byte; unfold RCON, byte_ok; repeat constructor; lia).
  match goal with |- context [xor_bytes (take 4 prev) ?t] => set (temp := t) end.
  assert (HT : bytes_ok temp ∧ length temp = 4%nat).
  { split; [|done]. unfold temp. apply Forall_insert.
    - repeat (apply Forall_cons; split; [by apply sbox_byte, lookup_total_byte|]). constructor.
    - apply lxor_byte; [by apply sbox_byte, lookup_total_byte|done]. }
  destruct HT as [HT1 HT2].
  assert (HX : ∀ k t, (k + 4 ≤ 16)%nat → bytes_ok t → length t = 4%nat →
    bytes_ok (xor_bytes (take 4 (drop k prev)) t) ∧ length (xor_bytes (take 4 (drop k prev)) t) = 4%nat).
  { intros k t Hk Ht1 Ht2. split; [apply xor_bytes_ok; [by apply Forall_take, Forall_drop|done]|].
    rewrite length_xor_bytes, length_take, length_drop. lia. }
  set (n0 := xor_bytes (take 4 prev) temp). destruct (HX 0%nat temp) as [A0 L0]; [lia|done|done|].
  rewrite drop_0 in A0, L0. fold n0 in A0, L0.
  destruct (HX 4%nat n0) as [A1 L1]; [lia|done|done|]. destruct (HX 8%nat _ ltac:(lia) A1 L1) as [A2 L2].
  destruct (HX 12%nat _ ltac:(lia) A2 L2) as [A3 L3]. split.
  - rewrite !length_app, L0, L1, L2, L3, length_take, length_drop. lia.
  - repeat (apply Forall_app; split); try done; [by apply Forall_take|by apply Forall_drop].
Qed.

Lemma key_expand_ok key : block_ok key →
  length (aes128_key_expand key) = 176%nat ∧ bytes_ok (aes128_key_expand key).
Proof.
  intros [Hl Hb]. unfold aes128_key_expand.
  assert (H0 : length (key ++ replicate 160 0) = 176%nat ∧ bytes_ok (key ++ replicate 160 0)).
  { split; [rewrite length_app, Hl, length_replicate; done|].
    apply Forall_app. split; [done|]. apply Forall_replicate. by split. }
  revert H0. generalize (key ++ replicate 160 0).
  assert (HS : ∀ i, i ∈ seq 1 10 → (1 ≤ i ≤ 10)%nat) by (intros i Hi%elem_of_seq; lia). revert HS.
  induction (seq 1 10) as [|i l IH]; intros HS rk Hrk; [done|]. cbn [foldl]. apply IH; [set_solver|].
  apply expand_step_ok; [apply HS; set_solver|done].
Qed.

#[local] Opaque mix_columns shift_rows sub_bytes add_round_key.

Lemma aes_round_ok rk s r : block_ok (round_key rk r) → block_ok s → block_ok (aes_round rk s r).
Proof.
  intros Hr Hs. unfold aes_round. by apply add_round_key_ok; [apply mix_columns_ok, shift_rows_ok, sub_bytes_ok|].
Qed.

Lemma aes_round_inj rk s s' r :
  block_ok (round_key rk r) → block_ok s → block_ok s' → aes_round rk s r = aes_round rk s' r → s = s'.
Proof.
  intros Hr Hs Hs' E. unfold aes_round in E.
  apply add_round_key_inj in E; [|by apply mix_columns_ok, shift_rows_ok, sub_bytes_ok..|done].
  apply mix_columns_inj in E; [|by apply shift_rows_ok, sub_bytes_ok..].
  apply shift_rows_inj in E; [|by apply sub_bytes_ok..]. by apply sub_bytes_inj.
Qed.
#[local] Opaque aes_round.

Lemma rounds_ok rk js s :
  (∀ r, r ∈ js → block_ok (round_key rk r)) → block_ok s → block_ok (foldl (aes_round rk) s js).
Proof.
  revert s. induction js as [|r js IH]; intros s Hjs Hs; [done|]. cbn [foldl].
  apply IH; [set_solver|]. apply aes_round_ok; [apply Hjs; set_solver|done].
Qed.

Lemma rounds_inj rk js s s' :
  (∀ r, r ∈ js → block_ok (round_key rk r)) → block_ok s → block_ok s' →
  foldl (aes_round rk) s js = foldl (aes_round rk) s' js → s = s'.
Proof.
  revert s s'. induction js as [|r js IH]; intros s s' Hjs Hs Hs' E; [done|]. cbn [foldl] in E.
  assert (Hr : block_ok (round_key rk r)) by (apply Hjs; set_solver).
  apply IH in E; [|set_solver|by apply aes_round_ok..]. by eapply aes_round_inj.
Qed.

Lemma aes_encrypt_ok key b : block_ok key → block_ok b → block_ok (aes128_encrypt b (aes128_key_expand key)).
Proof.
  intros Hk Hb. destruct (key_expand_ok key Hk) as [Hl Hr]. unfold aes128_encrypt. cbv zeta.
  assert (K : ∀ r, (r ≤ 10)%nat → block_ok (round_key (aes128_key_expand key) r)) by (intros; by apply round_key_ok).
  apply add_round_key_ok; [|apply K; lia]. apply shift_rows_ok, sub_bytes_ok, rounds_ok.
  - intros r Hin%elem_of_seq. apply K. lia.
  - apply add_round_key_ok; [done|apply K; lia].
Qed.

Lemma aes_encrypt_inj key b b' : block_ok key → block_ok b → block_ok b' →
  aes128_encrypt b (aes128_key_expand key) = aes128_encrypt b' (aes128_key_expand key) → b = b'.
Proof.
  intros Hk Hb Hb'. destruct (key_expand_ok key Hk) as [Hl Hr]. unfold aes128_encrypt. cbv zeta.
  set (rk := aes128_key_expand key) in *. intros E.
  assert (K : ∀ r, (r ≤ 10)%nat → block_ok (round_key rk r)) by (intros; by apply round_key_ok).
  assert (HS : ∀ r, r ∈ seq 1 9 → block_ok (round_key rk r)) by (intros r Hin%elem_of_seq; apply K; lia).
  assert (K0 : block_ok (round_key rk 0)) by (apply K; lia).
  assert (HR : ∀ t, block_ok t → block_ok (foldl (aes_round rk) (add_round_key t (round_key rk 0)) (seq 1 9))).
  { intros t Ht. apply rounds_ok; [done|by apply add_round_key_ok]. }
  apply add_round_key_inj in E; [|by apply shift_rows_ok, sub_bytes_ok, HR..|apply K; lia].
  apply shift_rows_inj in E; [|by apply sub_bytes_ok, HR..]. apply sub_bytes_inj in E; [|by apply HR..].
  apply rounds_inj in E; [|done|by apply add_round_key_ok..]. by apply add_round_key_inj in E.
Qed.
