(* ===== verification/AesProps.v ===== *)
(** Theorems about AES-128 and CCMP. *)
From stdpp Require Import base numbers list sets.
From S2P Require Import Prelude Bytes Aes AesFacts.

#[local] Opaque aes128_encrypt aes128_key_expand.

(** The arithmetic of the cipher is that of FIPS 197: [gmul] is multiplication
    of polynomials over GF(2) modulo x^8+x^4+x^3+x+1, and every entry of [SBOX] is
    the affine map of the multiplicative inverse (of 0 for 0). *)
Theorem aes_tables_correct :
  (∀ a b, byte_ok a → byte_ok b → gmul a b = gf_mul a b) ∧
  (∀ x, byte_ok x → sbox x = affine (gf_inv x) ∧
     (if x =? 0 then gf_inv x = 0 else gf_mul x (gf_inv x) = 1)).
Proof. split; [exact gmul_gf|exact sbox_gf]. Qed.

(** Under any 16-byte key, [aes128_encrypt] with the expanded key maps 16-byte
    blocks to 16-byte blocks and never maps two of them to the same one: it is a
    permutation. *)
Theorem aes_permutation key b b' :
  block_ok key → block_ok b → block_ok b' →
  block_ok (aes128_encrypt b (aes128_key_expand key)) ∧
  (aes128_encrypt b (aes128_key_expand key) = aes128_encrypt b' (aes128_key_expand key) → b = b').
Proof. intros Hk Hb Hb'. split; [by apply aes_encrypt_ok|by apply aes_encrypt_inj]. Qed.

(** ** Counter mode *)

Definition nonce_ok (n : list Z) : Prop := length n = 13%nat ∧ bytes_ok n.

Lemma land_255 x : byte_ok (Z.land x 0xFF).
Proof. change 0xFF with (Z.ones 8). rewrite Z.land_ones by lia. apply Z.mod_pos_bound. lia. Qed.

Lemma shiftr_byte x : 0 ≤ x < 65536 → byte_ok (Z.shiftr x 8).
Proof.
  intros Hx. rewrite Z.shiftr_div_pow2 by lia. change (2 ^ 8) with 256. split.
  - apply Z.div_pos; lia.
  - apply Z.div_lt_upper_bound; lia.
Qed.

(** A flag byte, a nonce and a 16-bit field. *)
Lemma ccm_block_ok fl nonce c : byte_ok fl → nonce_ok nonce → 0 ≤ c < 65536 →
  block_ok (fl :: nonce ++ [Z.shiftr c 8; Z.land c 0xFF]).
Proof.
  intros Hf [Hl Hn] Hc. split; [simpl; rewrite length_app, Hl; done|].
  constructor; [done|]. apply Forall_app. split; [done|].
  repeat constructor; [by apply shiftr_byte..|apply land_255|apply land_255].
Qed.

Lemma ctr_block_ok nonce c : nonce_ok nonce → 0 ≤ c < 65536 → block_ok (ctr_block nonce c).
Proof. intros Hn Hc. by apply ccm_block_ok. Qed.

(** The blocks of counters [c + 1], [c + 2], .. *)
Fixpoint keystream (n : nat) (rk nonce : list Z) (c : Z) : list Z :=
  match n with
  | O => []
  | S n' => let c := (c + 1) mod 65536 in
            aes128_encrypt (ctr_block nonce c) rk ++ keystream n' rk nonce c
  end.

Lemma xor_bytes_app a b c d : length a = length c → xor_bytes (a ++ b) (c ++ d) = xor_bytes a c ++ xor_bytes b d.
Proof. intros. by apply zip_with_app. Qed.

Lemma xor_bytes_long a b c : (length a ≤ length b)%nat → xor_bytes a (b ++ c) = xor_bytes a b.
Proof.
  revert b. induction a as [|x a IH]; intros [|y b] H; simpl in *; [done..|lia|]. f_equal. apply IH. lia.
Qed.

Section ctr.
Context (tk : list Z) (Htk : block_ok tk) (nonce : list Z) (Hn : nonce_ok nonce).
Let rk := aes128_key_expand tk.

Lemma length_ctr_cipher c : 0 ≤ c < 65536 → length (aes128_encrypt (ctr_block nonce c) rk) = 16%nat.
Proof. intros Hc. by apply aes_encrypt_ok; [|apply ctr_block_ok]. Qed.

Lemma ctr_loop_spec fuel c pre rest :
  (length rest ≤ fuel)%nat →
  ctr_loop fuel rk nonce c (length pre) (pre ++ rest) =
  Ret (pre ++ xor_bytes rest (keystream fuel rk nonce c)).
Proof.
  revert c pre rest. induction fuel as [|fuel IH]; intros c pre rest Hf; cbn [ctr_loop].
  - destruct rest; [|simpl in Hf; lia]. rewrite app_nil_r, decide_False by lia. simpl. by rewrite app_nil_r.
  - destruct (decide (length rest = 0)%nat) as [H0|H0].
    { destruct rest; [|done]. rewrite app_nil_r, decide_False by lia. simpl. by rewrite app_nil_r. }
    rewrite length_app, decide_True by lia. cbv zeta. cbn [keystream].
    assert (Hc : 0 ≤ (c + 1) mod 65536 < 65536) by (apply Z.mod_pos_bound; lia).
    pose proof (length_ctr_cipher _ Hc) as HB. set (B := aes128_encrypt _ rk) in *.
    rewrite slice_app_r by lia. rewrite Nat.sub_diag, slice_ok by lia. cbn [res_bind]. rewrite drop_0, Nat.sub_0_r.
    set (piece := take _ rest).
    assert (Hp : length piece = (16 `min` length rest)%nat) by (unfold piece; rewrite length_take; lia).
    rewrite write_at_ok by (rewrite length_xor_bytes, length_app; lia). cbn [res_bind].
    rewrite take_app_length, length_xor_bytes, drop_app_ge by lia.
    replace (length pre + length piece `min` length B - length pre)%nat with (16 `min` length rest)%nat by lia.
    destruct (decide (16 ≤ length rest)%nat) as [Hl|Hs].
    + rewrite app_assoc. replace (length pre + 16)%nat with (length (pre ++ xor_bytes piece B))
        by (rewrite length_app, length_xor_bytes; lia).
      rewrite IH by (rewrite length_drop; lia). f_equal. rewrite <- app_assoc. f_equal.
      replace (16 `min` length rest)%nat with 16%nat by lia.
      assert (Hr : piece ++ drop 16 rest = rest).
      { transitivity (take 16 rest ++ drop 16 rest); [|apply take_drop]. unfold piece. do 2 f_equal. lia. }
      rewrite <- xor_bytes_app, Hr by lia. done.
    + rewrite (drop_ge rest), app_nil_r by lia. destruct fuel as [|fuel]; cbn [ctr_loop];
        (rewrite decide_False by (rewrite length_app, length_xor_bytes; lia));
        rewrite xor_bytes_long by lia; unfold piece; rewrite take_ge by lia; done.
Qed.

Lemma ccmp_ctr_spec data : ccmp_ctr tk nonce data = Ret (xor_bytes data (keystream (length data) rk nonce 1)).
Proof. unfold ccmp_ctr. by apply (ctr_loop_spec (length data) 1 [] data). Qed.

Lemma length_keystream n c : (16 * n ≤ length (keystream n rk nonce c))%nat.
Proof.
  revert c. induction n as [|n IH]; intros c; [lia|]. cbn [keystream]. rewrite length_app, length_ctr_cipher.
  - specialize (IH ((c + 1) mod 65536)). lia.
  - apply Z.mod_pos_bound. lia.
Qed.

(** Decryption is encryption. *)
Lemma ccmp_ctr_involutive data :
  ∃ ct, ccmp_ctr tk nonce data = Ret ct ∧ length ct = length data ∧ ccmp_ctr tk nonce ct = Ret data.
Proof.
  pose proof (length_keystream (length data) 1) as Hk. eexists. split; [apply ccmp_ctr_spec|].
  assert (Hl : length (xor_bytes data (keystream (length data) rk nonce 1)) = length data)
    by (rewrite length_xor_bytes; lia).
  split; [done|]. rewrite ccmp_ctr_spec, Hl. f_equal. apply xor_bytes_cancel. lia.
Qed.
End ctr.

(** ** The message integrity code *)

Lemma pad_block_ok piece b :
  bytes_ok piece → write_at 0 piece (replicate 16 0) = Ret b → block_ok b.
Proof.
  intros Hp E. split; [by rewrite (write_at_length _ _ _ _ E), length_replicate|].
  unfold write_at in E. case_decide; [|done]. injection E as <-. rewrite ?take_0, ?app_nil_l.
  apply Forall_app. split; [done|]. apply Forall_drop, (Forall_replicate byte_ok 16 0). by split.
Qed.

Section mac.
Context (tk : list Z) (Htk : block_ok tk).
Let rk := aes128_key_expand tk.

Lemma mac_block_ok x b : block_ok x → block_ok b → block_ok (mac_block rk x b).
Proof. intros Hx Hb. apply aes_encrypt_ok; [done|]. by apply add_round_key_ok. Qed.

Lemma mac_plaintext_total p n i x :
  bytes_ok p → block_ok x → (n = 0 ∨ i + 16 * (n - 1) ≤ length p)%nat →
  ∃ x', mac_plaintext rk p n i x = Ret x' ∧ block_ok x'.
Proof.
  intros Hp. revert i x. induction n as [|n IH]; intros i x Hx Hn; [by exists x|]. cbn [mac_plaintext].
  rewrite slice_ok by lia. cbn [res_bind]. set (piece := take _ _).
  assert (Hpl : (length piece ≤ 16)%nat) by (unfold piece; rewrite length_take; lia).
  assert (Hpb : bytes_ok piece) by (by apply Forall_take, Forall_drop).
  assert (∃ b, write_at 0 piece (replicate 16 0) = Ret b) as [b E].
  { eexists. apply write_at_ok. rewrite length_replicate. lia. }
  rewrite E. cbn [res_bind]. apply IH; [|lia]. apply mac_block_ok; [done|by eapply pad_block_ok].
Qed.

Lemma ccmp_cbcmac_total nonce aad p :
  nonce_ok nonce → length aad = 24%nat → bytes_ok aad → bytes_ok p →
  ∃ mic, ccmp_cbcmac tk nonce aad p = Ret mic ∧ length mic = 8%nat.
Proof.
  intros Hn Hal Hab Hp. unfold ccmp_cbcmac. cbv zeta. fold rk.
  assert (Hlen : 0 ≤ Z.of_nat (length p) mod 65536 < 65536) by (apply Z.mod_pos_bound; lia).
  set (ab := 0 :: 24 :: aad ++ replicate 6 0).
  assert (Hab1 : length ab = 32%nat) by (unfold ab; simpl; rewrite length_app, Hal; done).
  assert (Hab2 : bytes_ok ab).
  { unfold ab. constructor; [by split|]. constructor; [by split|]. apply Forall_app. split; [done|].
    apply Forall_replicate. by split. }
  assert (B0 := aes_encrypt_ok tk _ Htk (ccm_block_ok 0x59 nonce _ ltac:(by split) Hn Hlen)). fold rk in B0.
  assert (B1 : block_ok (take 16 ab)) by (split; [rewrite length_take; lia|by apply Forall_take]).
  assert (B2 : block_ok (take 16 (drop 16 ab)))
    by (split; [rewrite length_take, length_drop; lia|by apply Forall_take, Forall_drop]).
  rewrite Nat.div_mul by lia.
  destruct (mac_plaintext_total p ((length p + 15) / 16) 0
    (mac_block rk (mac_block rk _ (take 16 ab)) (take 16 (drop 16 ab))) Hp
    (mac_block_ok _ _ (mac_block_ok _ _ B0 B1) B2)) as (x & -> & Hx).
  { pose proof (Nat.div_mod (length p + 15) 16 ltac:(lia)).
    pose proof (Nat.mod_upper_bound (length p + 15) 16 ltac:(lia)). lia. }
  cbn [res_bind]. eexists. split; [done|]. rewrite length_xor_bytes, !length_take.
  destruct Hx as [-> _].
  destruct (aes_encrypt_ok tk _ Htk (ctr_block_ok nonce 0 Hn ltac:(lia))) as [HS _].
  fold rk in HS. by rewrite HS.
Qed.
End mac.

(** ** CMAC *)

Lemma shl8_byte x : byte_ok (shl8 x).
Proof. unfold shl8, byte_ok. apply Z.mod_pos_bound. lia. Qed.

Lemma lor_carry_byte x y : byte_ok y → byte_ok (Z.lor (shl8 x) (Z.shiftr y 7)).
Proof.
  intros Hy. pose proof (shl8_byte x) as Hx.
  assert (H7 : byte_ok (Z.shiftr y 7)).
  { unfold byte_ok in *. rewrite Z.shiftr_div_pow2 by lia. change (2 ^ 7) with 128. Z.div_mod_to_equations. lia. }
  unfold byte_ok in Hx, H7. change 256 with (2 ^ 8) in Hx, H7 |- *.
  assert (H0 : 0 ≤ Z.lor (shl8 x) (Z.shiftr y 7)) by (apply Z.lor_nonneg; lia).
  split; [done|]. apply (Z.bounded_iff_bits_nonneg 8); [lia|done|]. intros n Hn. rewrite Z.lor_spec.
  rewrite (proj1 (Z.bounded_iff_bits_nonneg 8 (shl8 x) ltac:(lia) ltac:(lia)) ltac:(lia) n Hn).
  by rewrite (proj1 (Z.bounded_iff_bits_nonneg 8 (Z.shiftr y 7) ltac:(lia) ltac:(lia)) ltac:(lia) n Hn).
Qed.

Lemma shl_bytes_ok k : bytes_ok k → length (shl_bytes k) = length k ∧ bytes_ok (shl_bytes k).
Proof.
  induction 1 as [|x k Hx Hk [IH1 IH2]]; [done|]. destruct k as [|y k].
  - split; [done|]. repeat constructor; apply shl8_byte.
  - cbn [shl_bytes] in *. split; [simpl in *; by f_equal|]. constructor; [|exact IH2].
    apply Forall_cons in Hk as [Hy _]. by apply lor_carry_byte.
Qed.

Lemma subkey_ok l : block_ok l → block_ok (subkey l).
Proof.
  intros [Hl Hb]. destruct (shl_bytes_ok l Hb) as [H1 H2]. unfold subkey. cbv zeta. case_decide; [by split; [lia|]|].
  split; [rewrite length_insert; lia|]. apply Forall_insert; [done|].
  apply lxor_byte; [by apply lookup_total_byte|by split].
Qed.

Lemma zero_block_ok : block_ok (replicate 16 0).
Proof. split; [done|]. apply Forall_replicate. by split. Qed.

Lemma cmac_blocks_total key msg n i x : block_ok key → bytes_ok msg → block_ok x → ((i + n) * 16 ≤ length msg)%nat →
  ∃ x', cmac_blocks (aes128_key_expand key) msg n i x = Ret x' ∧ block_ok x'.
Proof.
  intros Hk Hm. revert i x. induction n as [|n IH]; intros i x Hx Hn; [by exists x|]. cbn [cmac_blocks].
  rewrite slice_ok by lia. cbn [res_bind]. apply IH; [|lia]. apply aes_encrypt_ok; [done|].
  apply add_round_key_ok; [done|]. split; [rewrite length_take, length_drop; lia|by apply Forall_take, Forall_drop].
Qed.

(** The MAC of every message is a block. *)
Lemma aes_cmac_total key msg : block_ok key → bytes_ok msg → ∃ mac, aes_cmac key msg = Ret mac ∧ block_ok mac.
Proof.
  intros Hk Hm. unfold aes_cmac, generate_subkeys. cbv zeta. set (rk := aes128_key_expand key).
  assert (HL : block_ok (aes128_encrypt (replicate 16 0) rk)) by (apply aes_encrypt_ok; [done|apply zero_block_ok]).
  assert (HK1 := subkey_ok _ HL). assert (HK2 := subkey_ok _ HK1).
  set (k1 := subkey (aes128_encrypt (replicate 16 0) rk)) in *. set (k2 := subkey k1) in *. clearbody k1 k2.
  set (n := ((length msg + 15) / 16)%nat).
  assert (Hdiv : (16 * n ≤ length msg + 15 < 16 * n + 16)%nat).
  { unfold n. pose proof (Nat.div_mod (length msg + 15) 16 ltac:(lia)).
    pose proof (Nat.mod_upper_bound (length msg + 15) 16 ltac:(lia)). lia. }
  assert (H : ∀ m (flag : bool), ((m - 1) * 16 ≤ length msg)%nat → (length msg - (m - 1) * 16 ≤ 16)%nat →
    (flag = false → length msg - (m - 1) * 16 < 16)%nat →
    ∃ mac, (let! x := cmac_blocks rk msg (m - 1) 0 (replicate 16 0) in
      let! tail := slice ((m - 1) * 16) (length msg) msg in
      let! last := write_at 0 tail (replicate 16 0) in
      let! last := (if flag then Ret (xor_bytes last k1)
                    else let! last := write_at (length msg - (m - 1) * 16) [0x80] last in Ret (xor_bytes last k2)) in
      Ret (aes128_encrypt (xor_bytes x last) rk)) = Ret mac ∧ block_ok mac).
  { intros m flag H1 H2 H3.
    destruct (cmac_blocks_total key msg (m - 1) 0 (replicate 16 0) Hk Hm zero_block_ok ltac:(lia)) as (x & Ex & Hx).
    fold rk in Ex. rewrite Ex. cbn [res_bind]. rewrite slice_to_end by lia. cbn [res_bind]. set (tail := drop _ msg).
    assert (Ht : length tail = (length msg - (m - 1) * 16)%nat) by apply length_drop.
    assert (∃ b, write_at 0 tail (replicate 16 0) = Ret b) as [b Eb].
    { eexists. apply write_at_ok. rewrite length_replicate. lia. }
    assert (Hb : block_ok b) by (eapply pad_block_ok; [|exact Eb]; by apply Forall_drop).
    rewrite Eb. cbn [res_bind]. destruct flag; cbn [res_bind].
    - eexists. split; [done|]. apply aes_encrypt_ok; [done|]. by repeat apply add_round_key_ok.
    - destruct Hb as [Hb1 Hb2].
      assert (∃ b', write_at (length msg - (m - 1) * 16) [0x80] b = Ret b') as [b' Eb'].
      { eexists. apply write_at_ok. rewrite Hb1. simpl. specialize (H3 eq_refl). lia. }
      rewrite Eb'. cbn [res_bind]. eexists. split; [done|]. apply aes_encrypt_ok; [done|].
      apply add_round_key_ok; [done|]. apply add_round_key_ok; [|done].
      split; [by rewrite (write_at_length _ _ _ _ Eb')|]. unfold write_at in Eb'. case_decide; [|done].
      injection Eb' as <-. apply Forall_app. split; [by apply Forall_take|]. constructor; [by split|by apply Forall_drop]. }
  case_decide as Hn; [by apply (H 1%nat false); lia|].
  apply (H n (bool_decide _)); try lia. rewrite bool_decide_eq_false. intros Hmod.
  pose proof (Nat.div_mod (length msg) 16 ltac:(lia)). pose proof (Nat.mod_upper_bound (length msg) 16 ltac:(lia)). lia.
Qed.

(** ** The packet number *)

Lemma byte_bit b n : byte_ok b → 8 ≤ n → Z.testbit b n = false.
Proof.
  intros [H0 H1] Hn. change 256 with (2 ^ 8) in H1.
  by apply (proj1 (Z.bounded_iff_bits_nonneg 8 b ltac:(lia) H0) H1).
Qed.

(** Byte [i] of an integer put together from bytes. *)
Lemma pn_byte_spec h k : 0 ≤ k → pn_byte h k = Z.land (Z.shiftr h k) (Z.ones 8).
Proof. done. Qed.

Lemma ccmp_pn_bytes h0 h1 h2 h3 h4 h5 h6 h7 :
  byte_ok h0 → byte_ok h1 → byte_ok h4 → byte_ok h5 → byte_ok h6 → byte_ok h7 →
  let pn := ccmp_pn [h0; h1; h2; h3; h4; h5; h6; h7] in
  pn_byte pn 0 = h0 ∧ pn_byte pn 8 = h1 ∧ pn_byte pn 16 = h4 ∧ pn_byte pn 24 = h5 ∧
  pn_byte pn 32 = h6 ∧ pn_byte pn 40 = h7.
Proof.
  intros H0 H1 H4 H5 H6 H7 pn.
  assert (E : pn = Z.lor (Z.lor (Z.lor (Z.lor (Z.lor (Z.shiftl h7 40) (Z.shiftl h6 32)) (Z.shiftl h5 24))
    (Z.shiftl h4 16)) (Z.shiftl h1 8)) h0) by done.
  assert (B : ∀ k h, 0 ≤ k → byte_ok h →
    (∀ n, 0 ≤ n < 8 → Z.testbit pn (n + k) = Z.testbit h n) → pn_byte pn k = h).
  { intros k h Hk Hh Hb. rewrite pn_byte_spec by done. apply Z.bits_inj'. intros n Hn.
    rewrite Z.land_spec, Z.shiftr_spec by done. destruct (decide (n < 8)).
    - rewrite Z.ones_spec_low, andb_true_r by lia. apply Hb. lia.
    - rewrite Z.ones_spec_high, andb_false_r by lia. symmetry. apply byte_bit; [done|lia]. }
  split_and!; (apply B; [lia|done|]; intros n Hn; rewrite E, !Z.lor_spec, !Z.shiftl_spec by lia;
    repeat match goal with
           | |- context [Z.testbit ?h ?m] =>
               first [rewrite (byte_bit h m) by (done || lia) | rewrite (Z.testbit_neg_r h m) by lia]
           end; rewrite ?orb_false_l, ?orb_false_r; f_equal; lia).
Qed.

Lemma nonce_header a2 pn : ccmp_nonce a2 (ccmp_pn (ccmp_header pn)) = ccmp_nonce a2 pn.
Proof.
  unfold ccmp_header, ccmp_nonce.
  destruct (ccmp_pn_bytes (pn_byte pn 0) (pn_byte pn 8) 0 0x20 (pn_byte pn 16) (pn_byte pn 24)
    (pn_byte pn 32) (pn_byte pn 40)) as (-> & -> & -> & -> & -> & ->); [apply land_255..|done].
Qed.

Lemma ccmp_nonce_ok a2 pn : length a2 = 6%nat → bytes_ok a2 → nonce_ok (ccmp_nonce a2 pn).
Proof.
  intros Hl Hb. unfold ccmp_nonce. split; [simpl; rewrite length_app, Hl; done|].
  constructor; [by split|]. apply Forall_app. split; [done|]. repeat constructor; apply land_255.
Qed.

Lemma land_byte x m : byte_ok x → byte_ok (Z.land x m).
Proof.
  intros Hx. assert (H0 : 0 ≤ Z.land x m) by (apply Z.land_nonneg; left; apply Hx).
  split; [done|]. change 256 with (2 ^ 8). apply Z.bounded_iff_bits_nonneg; [lia|done|].
  intros n Hn. by rewrite Z.land_spec, (byte_bit x n).
Qed.

Lemma ccmp_aad_ok h : length h = 24%nat → bytes_ok h → length (ccmp_aad h) = 24%nat ∧ bytes_ok (ccmp_aad h).
Proof.
  intros Hl Hb. unfold ccmp_aad. cbv zeta. split; [by rewrite !length_insert|].
  assert (I : ∀ l i j m, bytes_ok l → bytes_ok (<[i := Z.land (l !!! j) m]> l))
    by (intros; apply Forall_insert; [done|by apply land_byte, lookup_total_byte]).
  apply Forall_insert; [|by split]. by apply I, I, I.
Qed.

(** ** Sending and receiving *)

(** C29. CCMP round trip: a frame made of a 24-byte header, the CCMP header for packet
    number [pn] and what [ccmp_encrypt] returns for the transmitter address of
    that header is accepted by [ccmp_decrypt] under the same key and gives the
    plaintext back, for a plaintext of any length and any packet number. *)
Theorem ccmp_roundtrip tk mac_hdr pn plaintext :
  block_ok tk → length mac_hdr = 24%nat → bytes_ok mac_hdr → bytes_ok plaintext →
  ∃ ct, ccmp_encrypt tk mac_hdr (take 6 (drop 10 mac_hdr)) pn plaintext = Ret ct ∧
    length ct = (length plaintext + 8)%nat ∧
    ccmp_decrypt tk (mac_hdr ++ ccmp_header pn ++ ct) = Ret (Some plaintext).
Proof.
  intros Htk Hl Hb Hp. unfold ccmp_encrypt. cbv zeta. set (a2 := take 6 (drop 10 mac_hdr)).
  assert (Hn : nonce_ok (ccmp_nonce a2 pn)).
  { apply ccmp_nonce_ok; [unfold a2; rewrite length_take, length_drop; lia|by apply Forall_take, Forall_drop]. }
  destruct (ccmp_aad_ok mac_hdr Hl Hb) as [Ha1 Ha2].
  destruct (ccmp_cbcmac_total tk Htk _ _ _ Hn Ha1 Ha2 Hp) as (mic & Em & Hm).
  destruct (ccmp_ctr_involutive tk Htk _ Hn plaintext) as (ct & Ec & Hcl & Ed).
  rewrite Em. cbn [res_bind]. rewrite Ec. cbn [res_bind]. eexists. split; [done|].
  split; [rewrite length_app; lia|]. unfold ccmp_decrypt.
  assert (Hh : length (ccmp_header pn) = 8%nat) by done.
  assert (HF : length (mac_hdr ++ ccmp_header pn ++ ct ++ mic) = (40 + length plaintext)%nat)
    by (rewrite !length_app; lia).
  rewrite decide_False by lia. rewrite HF. cbv zeta.
  rewrite slice_ok, drop_0, take_app_length' by lia. cbn [res_bind].
  rewrite slice_app_r by lia. rewrite Hl. change (24 - 24)%nat with 0%nat. change (32 - 24)%nat with 8%nat.
  rewrite slice_ok, drop_0, take_app_length' by (rewrite ?length_app; lia). cbn [res_bind].
  rewrite !app_assoc, <- (app_assoc _ ct), slice_app_r by (rewrite length_app; lia).
  rewrite slice_ok by (rewrite !length_app; lia). rewrite length_app, Hl, Hh. cbn [res_bind].
  change (32 - (24 + 8))%nat with 0%nat. rewrite drop_0, take_app_length' by lia.
  rewrite (app_assoc _ ct), slice_app_r by (rewrite !length_app; lia).
  rewrite slice_ok by (rewrite ?length_app; lia). cbn [res_bind].
  rewrite !length_app, Hl, Hh. rewrite (slice_ok 10 16) by lia. cbn [res_bind]. change (16 - 10)%nat with 6%nat. fold a2.
  rewrite nonce_header, Ed. cbn [res_bind]. rewrite Em. cbn [res_bind].
  rewrite decide_True; [done|].
  replace (40 + length plaintext - 8 - (24 + 8 + length ct))%nat with 0%nat by lia.
  rewrite drop_0. symmetry. apply take_ge. lia.
Qed.

Lemma ccmp_roundtrip_witness :
  ∃ ct, ccmp_encrypt (replicate 16 7) (replicate 24 9) (replicate 6 9) 258 [1; 2; 3] = Ret ct ∧
    ccmp_decrypt (replicate 16 7) (replicate 24 9 ++ ccmp_header 258 ++ ct) = Ret (Some [1; 2; 3]).
Proof.
  destruct (ccmp_roundtrip (replicate 16 7) (replicate 24 9) 258 [1; 2; 3]) as (ct & E & _ & D).
  - split; [done|]. unfold byte_ok. apply (bool_decide_unpack _). by vm_compute.
  - done.
  - unfold byte_ok. apply (bool_decide_unpack _). by vm_compute.
  - unfold byte_ok. apply (bool_decide_unpack _). by vm_compute.
  - exists ct. split; [exact E|exact D].
Defined.

Lemma aes_permutation_witness :
  block_ok (aes128_encrypt (replicate 16 1) (aes128_key_expand (replicate 16 7))) ∧
  aes128_encrypt (replicate 16 1) (aes128_key_expand (replicate 16 7)) ≠
  aes128_encrypt (replicate 16 2) (aes128_key_expand (replicate 16 7)).
Proof.
  assert (H : ∀ x, byte_ok x → block_ok (replicate 16 x)).
  { intros x Hx. split; [done|]. by apply (Forall_replicate byte_ok 16 x). }
  destruct (aes_permutation (replicate 16 7) (replicate 16 1) (replicate 16 2)) as [H1 H2];
    [apply H; by split|apply H; by split|apply H; by split|].
  split; [exact H1|]. intros E. apply H2 in E. discriminate.
Defined.

Lemma aes_tables_correct_witness :
  gmul 0x57 0x83 = gf_mul 0x57 0x83 ∧ sbox 0x53 = affine (gf_inv 0x53).
Proof.
  destruct aes_tables_correct as [H1 H2]. split.
  - apply H1; by split.
  - destruct (H2 0x53) as [H _]; [by split|]. exact H.
Defined.
