(* ===== verification/NetWire.v ===== *)
(** Packet formats of [kernel/src/net.rs]: Ethernet, ARP, IPv4, ICMP, UDP, TCP
    headers and the internet checksum. MAC and IP addresses are byte strings. *)
From stdpp Require Import base numbers list.
From S2P Require Import Prelude Bytes.

Definition ETHERTYPE_ARP : Z := 0x0806.
Definition ETHERTYPE_IPV4 : Z := 0x0800.
Definition ARP_REQUEST : Z := 1.
Definition ARP_REPLY : Z := 2.
Definition IP_PROTO_ICMP : Z := 1.
Definition IP_PROTO_UDP : Z := 17.
Definition IP_PROTO_TCP : Z := 6.
Definition BROADCAST_MAC : list Z := [255; 255; 255; 255; 255; 255].

(** [u16::from_be_bytes([raw[i], raw[i + 1]])] and the [u32] version. *)
Definition be16_at (i : nat) (raw : list Z) : res Z :=
  let! l := slice i (i + 2) raw in Ret (from_be l).
Definition be32_at (i : nat) (raw : list Z) : res Z :=
  let! l := slice i (i + 4) raw in Ret (from_be l).

(** ** Ethernet *)

Record EthFrame := mkEth { dst_mac : list Z; src_mac : list Z; ethertype : Z; eth_payload : list Z }.

Definition eth_parse (raw : list Z) : res (option EthFrame) :=
  if decide (length raw < 14)%nat then Ret None else
  let! d := slice 0 6 raw in
  let! s := slice 6 12 raw in
  let! t := be16_at 12 raw in
  let! p := slice 14 (length raw) raw in
  Ret (Some (mkEth d s t p)).

Definition eth_build (dst src : list Z) (ethertype : Z) (payload : list Z) : list Z :=
  dst ++ src ++ to_be 2 ethertype ++ payload.

(** ** ARP *)

Record ArpPacket := mkArp { arp_op : Z; arp_sha : list Z; arp_spa : list Z; arp_tha : list Z; arp_tpa : list Z }.

Definition arp_parse (raw : list Z) : res (option ArpPacket) :=
  if decide (length raw < 28)%nat then Ret None else
  let! htype := slice 0 2 raw in
  if decide (htype ≠ [0; 1]) then Ret None else
  let! ptype := slice 2 4 raw in
  if decide (ptype ≠ [8; 0]) then Ret None else
  let! op := be16_at 6 raw in
  let! sha := slice 8 14 raw in
  let! spa := slice 14 18 raw in
  let! tha := slice 18 24 raw in
  let! tpa := slice 24 28 raw in
  Ret (Some (mkArp op sha spa tha tpa)).

Definition arp_build_reply (our_mac our_ip req_mac req_ip : list Z) : list Z :=
  [0; 1] ++ [8; 0] ++ [6] ++ [4] ++ to_be 2 ARP_REPLY ++ our_mac ++ our_ip ++ req_mac ++ req_ip.
Definition arp_build_request (our_mac our_ip target_ip : list Z) : list Z :=
  [0; 1] ++ [8; 0] ++ [6] ++ [4] ++ to_be 2 ARP_REQUEST ++ our_mac ++ our_ip ++ BROADCAST_MAC ++ target_ip.

(** ** The internet checksum *)

(** [header.chunks(2)] as big-endian words; an odd last byte is the high one. *)
Fixpoint words16 (l : list Z) : list Z :=
  match l with
  | a :: b :: l' => from_be [a; b] :: words16 l'
  | [a] => [256 * a]
  | [] => []
  end.

(** [while sum >> 16 != 0]. *)
Fixpoint fold_carries (fuel : nat) (sum : Z) : res Z :=
  if decide (Z.shiftr sum 16 = 0) then Ret sum else
  match fuel with
  | O => OutOfFuel
  | S fuel' => fold_carries fuel' (u32 (Z.land sum 0xFFFF + Z.shiftr sum 16))
  end.

(** A 32-bit sum needs at most three rounds. *)
Definition ipv4_checksum (header : list Z) : res Z :=
  let sum := foldl (λ s w, u32 (s + w)) 0 (words16 header) in
  let! sum := fold_carries 3 sum in
  Ret (Z.lxor (sum mod 65536) 0xFFFF).

(** [h[i] = (csum >> 8) as u8; h[i + 1] = (csum & 0xFF) as u8]. *)
Definition put_checksum (i : nat) (csum : Z) (h : list Z) : res (list Z) :=
  write_at i [Z.shiftr csum 8 mod 256; Z.land csum 0xFF] h.

(** ** IPv4 *)

Record Ipv4Header := mkIpv4 {
  ihl : Z; tos : Z; total_len : Z; ip_id : Z; flags_frag : Z; ttl : Z; proto : Z; ip_checksum : Z;
  ip_src : list Z; ip_dst : list Z
}.

Definition ipv4_parse (raw : list Z) : res (option Ipv4Header) :=
  if decide (length raw < 20)%nat then Ret None else
  let! version_ihl := index raw 0 in
  if decide (Z.shiftr version_ihl 4 ≠ 4) then Ret None else
  let! tos := index raw 1 in
  let! total_len := be16_at 2 raw in
  let! id := be16_at 4 raw in
  let! ff := be16_at 6 raw in
  let! ttl := index raw 8 in
  let! proto := index raw 9 in
  let! csum := be16_at 10 raw in
  let! src := slice 12 16 raw in
  let! dst := slice 16 20 raw in
  Ret (Some (mkIpv4 (Z.land version_ihl 0xF) tos total_len id ff ttl proto csum src dst)).

Definition ipv4_header_len (h : Ipv4Header) : nat := Z.to_nat (ihl h * 4).

Definition ipv4_build (proto : Z) (src dst : list Z) (payload_len : nat) : res (list Z) :=
  let total := Z.of_nat (20 + payload_len) in
  let h := [0x45] ++ [0] ++ to_be 2 (total mod 65536) ++ [0; 1] ++ [0x40; 0] ++ [64] ++ [proto]
             ++ [0; 0] ++ src ++ dst in
  let! csum := ipv4_checksum h in
  put_checksum 10 csum h.

(** ** ICMP *)

Definition icmp_build (type_ id seq : Z) (data : list Z) : res (list Z) :=
  let pkt := [type_] ++ [0] ++ [0; 0] ++ to_be 2 id ++ to_be 2 seq ++ data in
  let! csum := ipv4_checksum pkt in
  put_checksum 2 csum pkt.
Definition build_icmp_echo_reply (id seq : Z) (data : list Z) : res (list Z) := icmp_build 0 id seq data.
Definition build_icmp_echo_request (id seq : Z) (data : list Z) : res (list Z) := icmp_build 8 id seq data.

(** ** UDP *)

Record UdpDatagram := mkUdp { udp_src_port : Z; udp_dst_port : Z; udp_payload : list Z }.

Definition udp_parse (raw : list Z) : res (option UdpDatagram) :=
  if decide (length raw < 8)%nat then Ret None else
  let! sp := be16_at 0 raw in
  let! dp := be16_at 2 raw in
  let! len := be16_at 4 raw in
  let len := Z.to_nat len in
  if decide (len < 8 ∨ length raw < len)%nat then Ret None else
  let! p := slice 8 len raw in
  Ret (Some (mkUdp sp dp p)).

Definition udp_build (src dst : Z) (payload : list Z) : list Z :=
  to_be 2 src ++ to_be 2 dst ++ to_be 2 (Z.of_nat (8 + length payload) mod 65536) ++ [0; 0] ++ payload.

(** ** TCP *)

Record TcpHeader := mkTcp {
  src_port : Z; dst_port : Z; tcp_seq : Z; tcp_ack : Z; data_off : Z; tcp_flags : Z; window : Z;
  tcp_csum : Z; urgent_ptr : Z
}.

Definition tcp_parse (raw : list Z) : res (option TcpHeader) :=
  if decide (length raw < 20)%nat then Ret None else
  let! off := index raw 12 in
  let! sp := be16_at 0 raw in
  let! dp := be16_at 2 raw in
  let! seq := be32_at 4 raw in
  let! ack := be32_at 8 raw in
  let! flags := index raw 13 in
  let! win := be16_at 14 raw in
  let! csum := be16_at 16 raw in
  let! urg := be16_at 18 raw in
  Ret (Some (mkTcp sp dp seq ack (Z.shiftr off 4) flags win csum urg)).

Definition tcp_header_len (h : TcpHeader) : nat := Z.to_nat (data_off h * 4).

Definition tcp_checksum (src_ip dst_ip seg : list Z) : res Z :=
  let len := Z.of_nat (length seg) mod 65536 in
  ipv4_checksum (src_ip ++ dst_ip ++ [0] ++ [IP_PROTO_TCP] ++ to_be 2 len ++ seg).

Definition tcp_build (sp dp seq ack flags win : Z) (src_ip dst_ip payload : list Z) : res (list Z) :=
  let seg := to_be 2 sp ++ to_be 2 dp ++ to_be 4 seq ++ to_be 4 ack ++ [0x50] ++ [flags] ++ to_be 2 win
               ++ [0; 0] ++ [0; 0] ++ payload in
  let! csum := tcp_checksum src_ip dst_ip seg in
  put_checksum 16 csum seg.
