(* ===== verification/NetWireFacts.v ===== *)
(** Checksums verify, and what is built parses back. *)
From stdpp Require Import base numbers list.
From S2P Require Import Prelude Bytes NetWire.

(** ** One's complement sums *)

Definition sum_words (l : list Z) : Z := foldr Z.add 0 (words16 l).
Definition word_ok (w : Z) : Prop := 0 ≤ w < 65536.

Lemma words16_ok l : bytes_ok l → Forall word_ok (words16 l) ∧ (2 * length (words16 l) ≤ length l + 1)%nat.
Proof.
  assert (H : ∀ n l, (length l ≤ n)%nat → bytes_ok l →
    Forall word_ok (words16 l) ∧ (2 * length (words16 l) ≤ length l + 1)%nat).
  { clear l. induction n as [|n IH]; intros [|a [|b l]] Hn Hl; simpl in *; try lia;
      try solve [split; [constructor|simpl; lia]].
    - apply Forall_cons in Hl as [Ha _]. split; [|simpl; lia].
      constructor; [|constructor]. unfold byte_ok, word_ok in *. lia.
    - apply Forall_cons in Hl as [Ha Hl]. apply Forall_cons in Hl as [Hb Hl].
      destruct (IH l) as [H1 H2]; [lia|done|]. split; [|simpl; lia]. constructor; [|done].
      unfold from_be, byte_ok, word_ok in *. simpl. lia. }
  by apply (H (length l)).
Qed.

Lemma sum_bound ws : Forall word_ok ws → 0 ≤ foldr Z.add 0 ws ≤ 65535 * Z.of_nat (length ws).
Proof. induction 1 as [|w ws Hw H IH]; simpl; [lia|]. unfold word_ok in Hw. lia. Qed.

Lemma foldl_u32_sum ws s : Forall word_ok ws → 0 ≤ s → s + foldr Z.add 0 ws < u32_modulus →
  foldl (λ s w, u32 (s + w)) s ws = s + foldr Z.add 0 ws.
Proof.
  intros H. revert s. induction H as [|w ws Hw H IH]; intros s Hs Hb; simpl in *; [lia|].
  pose proof (sum_bound ws H). unfold word_ok in Hw.
  unfold u32 at 2. rewrite Z.mod_small by lia. rewrite IH by lia. lia.
Qed.

(** Packets of at most 131073 bytes: the 32-bit sum does not wrap. *)
Definition summable (l : list Z) : Prop := bytes_ok l ∧ Z.of_nat (length l) ≤ 131073.

Lemma checksum_sum l : summable l →
  foldl (λ s w, u32 (s + w)) 0 (words16 l) = sum_words l ∧ 0 ≤ sum_words l < u32_modulus.
Proof.
  intros [Hb Hl]. destruct (words16_ok l Hb) as [Hw Hn]. pose proof (sum_bound _ Hw) as Hs.
  assert (0 ≤ sum_words l < u32_modulus) by (unfold sum_words, u32_modulus; lia).
  split; [|done]. rewrite foldl_u32_sum; [done|done|lia|]. fold (sum_words l). lia.
Qed.

Lemma carry_step s : 0 ≤ s < u32_modulus →
  u32 (Z.land s 0xFFFF + Z.shiftr s 16) = s mod 65536 + s / 65536.
Proof.
  intros Hs. change 0xFFFF with (Z.ones 16). rewrite Z.land_ones, Z.shiftr_div_pow2 by lia.
  change (2 ^ 16) with 65536. apply Z.mod_small. unfold u32_modulus in *.
  Z.div_mod_to_equations. lia.
Qed.

Lemma shiftr_16_zero s : 0 ≤ s → Z.shiftr s 16 = 0 ↔ s < 65536.
Proof.
  intros Hs. rewrite Z.shiftr_div_pow2 by lia. change (2 ^ 16) with 65536. split.
  - intros H. Z.div_mod_to_equations. lia.
  - intros H. by apply Z.div_small.
Qed.

Lemma fold_carries_spec s : 0 ≤ s < u32_modulus →
  ∃ f, fold_carries 3 s = Ret f ∧ word_ok f ∧ f mod 65535 = s mod 65535 ∧ (f = 0 ↔ s = 0).
Proof.
  intros Hs. assert (Hstep : ∀ n s, 65536 ≤ s < u32_modulus →
    fold_carries (S n) s = fold_carries n (s mod 65536 + s / 65536)).
  { intros n x Hx. cbn [fold_carries]. rewrite decide_False by (rewrite shiftr_16_zero; lia).
    by rewrite carry_step by lia. }
  assert (Hret : ∀ n s, 0 ≤ s < 65536 → fold_carries n s = Ret s).
  { intros n x Hx. destruct n; cbn [fold_carries]; by rewrite decide_True by (apply shiftr_16_zero; lia). }
  assert (Hmod : ∀ x, 0 ≤ x → (x mod 65536 + x / 65536) mod 65535 = x mod 65535).
  { intros x Hx. rewrite (Z.div_mod x 65536) at 3 by lia.
    replace (65536 * (x / 65536) + x mod 65536) with (x mod 65536 + x / 65536 + (x / 65536) * 65535) by lia.
    by rewrite Z.mod_add by lia. }
  destruct (decide (s < 65536)); [exists s; rewrite Hret by lia; unfold word_ok; split_and!; done || lia|].
  rewrite Hstep by (unfold u32_modulus in *; lia). set (s1 := s mod 65536 + s / 65536).
  assert (H1 : 0 < s1 ≤ 131070) by (unfold s1, u32_modulus in *; Z.div_mod_to_equations; lia).
  destruct (decide (s1 < 65536)).
  { exists s1. rewrite Hret by lia. unfold word_ok. split_and!; [done|lia|lia|by apply Hmod; lia|lia]. }
  rewrite Hstep by (unfold u32_modulus in *; lia). set (s2 := s1 mod 65536 + s1 / 65536).
  assert (H2 : 0 < s2 < 65536) by (unfold s2; Z.div_mod_to_equations; lia).
  exists s2. rewrite Hret by lia. unfold word_ok. split_and!; [done|lia|lia| |lia].
  unfold s2. rewrite Hmod by lia. by apply Hmod; lia.
Qed.

Lemma lxor_ffff f : word_ok f → Z.lxor (f mod 65536) 0xFFFF = 65535 - f.
Proof.
  intros Hf. unfold word_ok in Hf. rewrite Z.mod_small by lia.
  assert (H : Z.lxor f 65535 + f = 65535); [|lia].
  rewrite Z.add_nocarry_lxor.
  - rewrite Z.lxor_assoc, (Z.lxor_comm 65535), <- Z.lxor_assoc, Z.lxor_nilpotent. done.
  - apply Z.bits_inj'. intros n Hn. rewrite Z.land_spec, Z.lxor_spec, Z.bits_0.
    change 65535 with (Z.ones 16). destruct (decide (n < 16)).
    + rewrite Z.ones_spec_low by lia. by destruct (Z.testbit f n).
    + change 65536 with (2 ^ 16) in Hf.
      rewrite (proj1 (Z.bounded_iff_bits_nonneg 16 f ltac:(lia) ltac:(lia)) ltac:(lia) n) by lia.
      by rewrite andb_false_r.
Qed.

Lemma ipv4_checksum_spec l : summable l →
  ∃ c, ipv4_checksum l = Ret c ∧ word_ok c ∧ (c + sum_words l) mod 65535 = 0 ∧
    (sum_words l ≠ 0 → sum_words l mod 65535 = 0 → c = 0) ∧ (sum_words l = 0 → c = 65535).
Proof.
  intros Hl. destruct (checksum_sum l Hl) as [Es Hs]. unfold ipv4_checksum. rewrite Es.
  destruct (fold_carries_spec _ Hs) as (f & -> & Hf & Hm & Hz). cbn [res_bind].
  exists (65535 - f). rewrite lxor_ffff by done. unfold word_ok in *. split_and!; [done|lia|lia| | |].
  - rewrite Z.add_mod, <- Hm, <- Z.add_mod by lia. by replace (65535 - f + f) with (1 * 65535) by lia.
  - intros Hn H0. rewrite H0 in Hm. assert (f ≠ 0) by tauto. assert (f = 65535); [|lia].
    destruct (decide (f = 65535)); [done|]. rewrite Z.mod_small in Hm by lia. lia.
  - intros H0. apply Hz in H0. lia.
Qed.

Lemma words16_app a b : Nat.Even (length a) → words16 (a ++ b) = words16 a ++ words16 b.
Proof.
  intros [k Hk]. revert a Hk. induction k as [|k IH]; intros [|x [|y a]] Hk; simpl in *; try done; try lia.
  f_equal. apply IH. lia.
Qed.

Lemma sum_words_app a b : Nat.Even (length a) → sum_words (a ++ b) = sum_words a + sum_words b.
Proof.
  intros H. unfold sum_words. rewrite words16_app by done. rewrite foldr_app.
  generalize (words16 a). intros ws. induction ws as [|w ws IH]; simpl; lia.
Qed.

Definition csum_bytes (c : Z) : list Z := [Z.shiftr c 8 mod 256; Z.land c 0xFF].

Lemma csum_bytes_word c : word_ok c → bytes_ok (csum_bytes c) ∧ sum_words (csum_bytes c) = c.
Proof.
  intros Hc. unfold word_ok, csum_bytes in *. change 0xFF with (Z.ones 8).
  rewrite Z.land_ones, Z.shiftr_div_pow2 by lia. change (2 ^ 8) with 256. split.
  - unfold byte_ok. repeat (apply Forall_cons; split; [Z.div_mod_to_equations; lia|]). constructor.
  - unfold sum_words, from_be. simpl. rewrite (Z.mod_small (c / 256)) by (Z.div_mod_to_equations; lia).
    unfold from_be. cbn [foldl]. pose proof (Z.div_mod c 256 ltac:(lia)). lia.
Qed.

(** A packet with the checksum put into a zero field sums to nothing. *)
Lemma checksum_verifies a b c :
  Nat.Even (length a) → summable (a ++ [0; 0] ++ b) → ipv4_checksum (a ++ [0; 0] ++ b) = Ret c →
  word_ok c ∧ ipv4_checksum (a ++ csum_bytes c ++ b) = Ret 0.
Proof.
  intros Ha Hs Ec. destruct (ipv4_checksum_spec _ Hs) as (c' & E' & Hc & Hm & Hn & Hz).
  rewrite Ec in E'. injection E' as <-. split; [done|]. destruct (csum_bytes_word c Hc) as [Hcb Hcs].
  assert (Hsum : sum_words (a ++ csum_bytes c ++ b) = c + sum_words (a ++ [0; 0] ++ b)).
  { rewrite !sum_words_app by (done || (exists 1%nat; done)). rewrite Hcs.
    change (sum_words [0; 0]) with 0. lia. }
  destruct Hs as [Hb Hl].
  assert (Hs' : summable (a ++ csum_bytes c ++ b)).
  { split; [|rewrite !length_app in *; done].
    apply Forall_app in Hb as [? Hb]. apply Forall_app in Hb as [? ?]. by repeat (apply Forall_app; split). }
  destruct (ipv4_checksum_spec _ Hs') as (d & -> & _ & _ & Hd & _). f_equal. apply Hd.
  - rewrite Hsum. destruct (checksum_sum _ (conj Hb Hl)) as [_ Hpos]. unfold word_ok in Hc.
    destruct (decide (sum_words (a ++ [0; 0] ++ b) = 0)) as [E|]; [rewrite (Hz E)|]; lia.
  - by rewrite Hsum.
Qed.

(** ** Builders *)

Definition mac_ok (m : list Z) : Prop := length m = 6%nat ∧ bytes_ok m.
Definition ip_ok (i : list Z) : Prop := length i = 4%nat ∧ bytes_ok i.

Lemma put_checksum_spec a b c : 
  put_checksum (length a) c (a ++ [0; 0] ++ b) = Ret (a ++ csum_bytes c ++ b).
Proof.
  unfold put_checksum. rewrite write_at_ok by (rewrite !length_app; simpl; lia).
  rewrite take_app_length. do 3 f_equal. rewrite app_assoc.
  change (length [Z.shiftr c 8 mod 256; Z.land c 0xFF]) with (length [0; 0]). 
  by rewrite <- length_app, drop_app_length.
Qed.

(** Put the checksum of [pre ++ a ++ [0; 0] ++ b] into the field after [a]. *)
Lemma build_checksum pre a b :
  Nat.Even (length (pre ++ a)) → summable (pre ++ a ++ [0; 0] ++ b) →
  ∃ c, (let! csum := ipv4_checksum (pre ++ a ++ [0; 0] ++ b) in put_checksum (length a) csum (a ++ [0; 0] ++ b))
    = Ret (a ++ csum_bytes c ++ b) ∧ word_ok c ∧
    ipv4_checksum (pre ++ a ++ csum_bytes c ++ b) = Ret 0.
Proof.
  intros He Hs. destruct (ipv4_checksum_spec _ Hs) as (c & Ec & _). rewrite Ec. cbn [res_bind].
  exists c. split; [apply put_checksum_spec|]. rewrite app_assoc in Ec, Hs.
  destruct (checksum_verifies _ _ _ He Hs Ec) as [Hc H0]. split; [done|]. by rewrite app_assoc.
Qed.

Ltac solve_bytes :=
  repeat first
    [ done
    | apply to_be_ok
    | apply Forall_app; split
    | apply Forall_cons; split; [first [done|by split|unfold byte_ok in *; lia]|]
    | constructor ].

Lemma ipv4_build_spec proto src dst n : byte_ok proto → ip_ok src → ip_ok dst →
  ∃ c, ipv4_build proto src dst n = Ret ([0x45; 0] ++ to_be 2 (Z.of_nat (20 + n) mod 65536) ++
      [0; 1; 0x40; 0; 64; proto] ++ csum_bytes c ++ src ++ dst) ∧ word_ok c ∧
    ∀ h, ipv4_build proto src dst n = Ret h → ipv4_checksum h = Ret 0.
Proof.
  intros Hp [Hs1 Hs2] [Hd1 Hd2]. unfold ipv4_build. cbv zeta.
  set (L := to_be 2 (Z.of_nat (20 + n) mod 65536)).
  assert (HL : length L = 2%nat ∧ bytes_ok L) by (split; [apply length_to_be|apply to_be_ok]). destruct HL as [HL1 HL2].
  set (a := [0x45; 0] ++ L ++ [0; 1; 0x40; 0; 64; proto]).
  assert (Ha : length a = 10%nat) by (unfold a; rewrite !length_app, HL1; done).
  destruct (build_checksum [] a (src ++ dst)) as (c & E & Hc & V).
  - rewrite app_nil_l, Ha. by exists 5%nat.
  - split; [|rewrite !length_app, Ha, Hs1, Hd1; done]. unfold a. rewrite app_nil_l. solve_bytes.
  - rewrite Ha, !app_nil_l in E. rewrite app_nil_l in V.
    assert (E' : (let! csum := ipv4_checksum ([0x45] ++ [0] ++ L ++ [0; 1] ++ [0x40; 0] ++ [64] ++ [proto]
      ++ [0; 0] ++ src ++ dst) in put_checksum 10 csum ([0x45] ++ [0] ++ L ++ [0; 1] ++ [0x40; 0] ++ [64]
      ++ [proto] ++ [0; 0] ++ src ++ dst)) = Ret (a ++ csum_bytes c ++ src ++ dst)).
    { unfold a in E. rewrite <- !app_assoc in E. exact E. }
    exists c. rewrite E'. unfold a. rewrite <- !app_assoc. split_and!; [done|done|].
    intros h [= <-]. unfold a in V. rewrite <- !app_assoc in V. exact V.
Qed.

Lemma icmp_build_spec type_ id seq data : byte_ok type_ → bytes_ok data → Z.of_nat (length data) ≤ 65536 →
  ∃ c, icmp_build type_ id seq data = Ret ([type_; 0] ++ csum_bytes c ++ to_be 2 id ++ to_be 2 seq ++ data) ∧
    word_ok c ∧ ∀ p, icmp_build type_ id seq data = Ret p → ipv4_checksum p = Ret 0.
Proof.
  intros Ht Hd Hl. unfold icmp_build. cbv zeta.
  destruct (build_checksum [] [type_; 0] (to_be 2 id ++ to_be 2 seq ++ data)) as (c & E & Hc & V).
  - by exists 1%nat.
  - split; [rewrite app_nil_l; solve_bytes|]. rewrite !length_app, !length_to_be. simpl. lia.
  - exists c. rewrite !app_nil_l in E. change (length [type_; 0]) with 2%nat in E.
    change ([type_] ++ [0] ++ [0; 0] ++ to_be 2 id ++ to_be 2 seq ++ data)
      with ([type_; 0] ++ [0; 0] ++ to_be 2 id ++ to_be 2 seq ++ data).
    rewrite E. split_and!; [done|done|]. intros p [= <-]. exact V.
Qed.

Definition tcp_prefix (sp dp seq ack flags win : Z) : list Z :=
  to_be 2 sp ++ to_be 2 dp ++ to_be 4 seq ++ to_be 4 ack ++ [0x50; flags] ++ to_be 2 win.

Lemma tcp_build_spec sp dp seq ack flags win src dst payload :
  byte_ok flags → ip_ok src → ip_ok dst → bytes_ok payload → Z.of_nat (length payload) ≤ 65536 →
  ∃ c, tcp_build sp dp seq ack flags win src dst payload =
      Ret (tcp_prefix sp dp seq ack flags win ++ csum_bytes c ++ [0; 0] ++ payload) ∧ word_ok c ∧
    ∀ seg, tcp_build sp dp seq ack flags win src dst payload = Ret seg → tcp_checksum src dst seg = Ret 0.
Proof.
  intros Hf [Hs1 Hs2] [Hd1 Hd2] Hp Hl. unfold tcp_build. cbv zeta.
  set (a := tcp_prefix sp dp seq ack flags win).
  assert (Ha : length a = 16%nat) by (unfold a, tcp_prefix; rewrite !length_app, !length_to_be; done).
  assert (Hab : bytes_ok a) by (unfold a, tcp_prefix; solve_bytes).
  match goal with |- context [tcp_checksum src dst ?s] => set (seg := s) end.
  assert (Hseg : seg = a ++ [0; 0] ++ [0; 0] ++ payload).
  { unfold seg, a, tcp_prefix. by rewrite <- !app_assoc. }
  clearbody seg. subst seg.
  set (pre := src ++ dst ++ [0] ++ [IP_PROTO_TCP] ++ to_be 2 (Z.of_nat (length (a ++ [0; 0] ++ [0; 0] ++ payload)) mod 65536)).
  assert (Hpre : length pre = 12%nat) by (unfold pre; rewrite !length_app, Hs1, Hd1, length_to_be; done).
  destruct (build_checksum pre a ([0; 0] ++ payload)) as (c & E & Hc & V).
  - rewrite length_app, Hpre, Ha. by exists 14%nat.
  - split; [unfold pre; solve_bytes|]. rewrite !length_app, Hpre, Ha. simpl. lia.
  - exists c. unfold pre in E. rewrite <- !app_assoc in E. rewrite Ha in E.
    assert (E' : (let! csum := tcp_checksum src dst (a ++ [0; 0] ++ [0; 0] ++ payload) in
      put_checksum 16 csum (a ++ [0; 0] ++ [0; 0] ++ payload)) = Ret (a ++ csum_bytes c ++ [0; 0] ++ payload))
      by exact E.
    rewrite E'. split_and!; [done|done|]. intros s [= <-]. unfold tcp_checksum.
    replace (length (a ++ csum_bytes c ++ [0; 0] ++ payload)) with (length (a ++ [0; 0] ++ [0; 0] ++ payload))
      by (rewrite !length_app; done).
    unfold pre in V. rewrite <- !app_assoc in V. exact V.
Qed.

(** ** Parsing what was built *)

Lemma Ret_inj {X} (x y : X) : Ret x = Ret y → x = y.
Proof. by intros [=]. Qed.

Lemma to_be2_bytes x : ∃ e0 e1, to_be 2 x = [e0; e1] ∧ (word_ok x → from_be [e0; e1] = x).
Proof. eexists _, _. split; [reflexivity|]. intros Hx. by apply (from_to_be 2). Qed.

Lemma to_be4_bytes x :
  ∃ e0 e1 e2 e3, to_be 4 x = [e0; e1; e2; e3] ∧ (is_u32 x → from_be [e0; e1; e2; e3] = x).
Proof. eexists _, _, _, _. split; [reflexivity|]. intros Hx. by apply (from_to_be 4). Qed.

Lemma csum_bytes_be c : word_ok c → from_be (csum_bytes c) = c.
Proof. intros Hc. destruct (csum_bytes_word c Hc) as [_ E]. unfold sum_words in E. simpl in E. rewrite Z.add_0_r in E. exact E. Qed.

(** A byte string of known length as its bytes. *)
Tactic Notation "explode" ident(l) ident(H) integer(n) :=
  do n (destruct l as [|? l]; [discriminate H|]); destruct l; [|discriminate H]; clear H.

(** Evaluate a parser on a byte string whose first bytes are known. *)
Ltac run_parser :=
  repeat first
    [ rewrite decide_False by (simpl; lia)
    | rewrite decide_False by (let H := fresh in intros H; apply H; reflexivity)
    | rewrite slice_ok by (simpl; lia)
    | rewrite drop_0 | rewrite take_0
    | progress cbn [res_bind index lookup list_lookup take drop Nat.sub Nat.add] ].

Lemma eth_roundtrip d s t p : length d = 6%nat → length s = 6%nat → word_ok t →
  eth_parse (eth_build d s t p) = Ret (Some (mkEth d s t p)).
Proof.
  intros Hd Hs Ht. explode d Hd 6. explode s Hs 6. destruct (to_be2_bytes t) as (e0 & e1 & E & F).
  unfold eth_parse, eth_build, be16_at. rewrite E. cbn [app]. run_parser. rewrite F by done.
  simpl length. rewrite take_ge by lia. done.
Qed.

Lemma arp_roundtrip op sha spa tha tpa :
  length sha = 6%nat → length spa = 4%nat → length tha = 6%nat → length tpa = 4%nat → word_ok op →
  arp_parse ([0; 1] ++ [8; 0] ++ [6] ++ [4] ++ to_be 2 op ++ sha ++ spa ++ tha ++ tpa)
    = Ret (Some (mkArp op sha spa tha tpa)).
Proof.
  intros H1 H2 H3 H4 Hop. explode sha H1 6. explode spa H2 4. explode tha H3 6. explode tpa H4 4.
  destruct (to_be2_bytes op) as (e0 & e1 & E & F). unfold arp_parse, be16_at. rewrite E. cbn [app]. run_parser. by rewrite F.
Qed.

Lemma ipv4_roundtrip proto src dst payload h :
  byte_ok proto → ip_ok src → ip_ok dst → (20 + Z.of_nat (length payload) < 65536) →
  ipv4_build proto src dst (length payload) = Ret h →
  ∃ c, word_ok c ∧ ipv4_parse (h ++ payload) = Ret (Some (mkIpv4 5 0 (20 + Z.of_nat (length payload)) 1 0x4000 64 proto c src dst)) ∧
    length h = 20%nat.
Proof.
  intros Hp Hs Hd Hl E. destruct (ipv4_build_spec proto src dst (length payload) Hp Hs Hd) as (c & E1 & Hc & _).
  rewrite E in E1. apply Ret_inj in E1. subst. destruct Hs as [Hs _], Hd as [Hd _]. explode src Hs 4. explode dst Hd 4.
  pose proof (csum_bytes_be c Hc) as Fc. unfold csum_bytes in *.
  assert (Hw : word_ok (Z.of_nat (20 + length payload) mod 65536)) by (apply Z.mod_pos_bound; lia).
  destruct (to_be2_bytes (Z.of_nat (20 + length payload) mod 65536)) as (e0 & e1 & El & F). rewrite El.
  exists c. split; [done|]. split; [|done]. unfold ipv4_parse, be16_at. cbn [app]. run_parser. rewrite Fc, F by done.
  rewrite Z.mod_small by lia. do 2 f_equal. rewrite Nat2Z.inj_add. done.
Qed.

Lemma udp_roundtrip sp dp p : word_ok sp → word_ok dp → 8 + Z.of_nat (length p) < 65536 →
  udp_parse (udp_build sp dp p) = Ret (Some (mkUdp sp dp p)).
Proof.
  intros Hs Hd Hl. unfold udp_parse, udp_build, be16_at.
  destruct (to_be2_bytes sp) as (a0 & a1 & -> & Fa), (to_be2_bytes dp) as (b0 & b1 & -> & Fb).
  rewrite Z.mod_small by lia.
  destruct (to_be2_bytes (Z.of_nat (8 + length p))) as (e0 & e1 & -> & F). cbn [app]. run_parser.
  rewrite Fa, Fb, F by (done || (unfold word_ok; lia)). rewrite Nat2Z.id.
  rewrite decide_False by (simpl; lia). rewrite slice_ok by (simpl; lia). cbn [res_bind drop].
  rewrite drop_0, take_ge by lia. done.
Qed.

Lemma tcp_roundtrip sp dp seq ack flags win src dst payload seg :
  word_ok sp → word_ok dp → is_u32 seq → is_u32 ack → byte_ok flags → word_ok win →
  ip_ok src → ip_ok dst → bytes_ok payload → Z.of_nat (length payload) ≤ 65536 →
  tcp_build sp dp seq ack flags win src dst payload = Ret seg →
  ∃ c, tcp_parse seg = Ret (Some (mkTcp sp dp seq ack 5 flags win c 0)) ∧ drop 20 seg = payload.
Proof.
  intros Hsp Hdp Hseq Hack Hf Hw Hs Hd Hp Hl E.
  destruct (tcp_build_spec sp dp seq ack flags win src dst payload Hf Hs Hd Hp Hl) as (c & E1 & Hc & _).
  rewrite E in E1. apply Ret_inj in E1. subst. pose proof (csum_bytes_be c Hc) as Fc. unfold csum_bytes, tcp_prefix in *.
  destruct (to_be2_bytes sp) as (? & ? & -> & F1), (to_be2_bytes dp) as (? & ? & -> & F2),
    (to_be4_bytes seq) as (? & ? & ? & ? & -> & F3), (to_be4_bytes ack) as (? & ? & ? & ? & -> & F4),
    (to_be2_bytes win) as (? & ? & -> & F5).
  exists c. split; [|done]. unfold tcp_parse, be16_at, be32_at. cbn [app]. run_parser.
  rewrite Fc, F1, F2, F3, F4, F5 by done. done.
Qed.
