(* ===== verification/NetProto.v ===== *)
(** The stateless protocol code of [kernel/src/net.rs]: dotted addresses, DNS
    queries and replies, DHCP messages. Text is a list of UTF-8 bytes. *)
From stdpp Require Import base numbers list.
From S2P Require Import Prelude Bytes NetWire.

(** ** Dotted addresses *)

Definition DOT : Z := 46.

(** [s.split(c)] for an ASCII character. *)
Fixpoint split_on (c : Z) (l : list Z) : list (list Z) :=
  match l with
  | [] => [[]]
  | x :: l' =>
      let r := split_on c l' in
      if decide (x = c) then [] :: r
      else match r with
           | w :: ws => (x :: w) :: ws
           | [] => [[x]]
           end
  end.

(** [part.parse::<u8>()]: decimal digits after an optional plus sign, at most 255. *)
Fixpoint parse_digits (acc : Z) (l : list Z) : option Z :=
  match l with
  | [] => Some acc
  | d :: l' =>
      if decide (48 ≤ d ≤ 57) then
        let acc' := acc * 10 + (d - 48) in
        if decide (acc' ≤ 255) then parse_digits acc' l' else None
      else None
  end.
Definition parse_u8 (l : list Z) : option Z :=
  match l with
  | [] => None
  | 43 :: [] => None
  | 43 :: l' => parse_digits 0 l'
  | _ => parse_digits 0 l
  end.

Definition parse_ipv4 (s : list Z) : option (list Z) :=
  let parts := split_on DOT s in
  if decide (length parts = 4%nat) then mapM parse_u8 parts else None.

(** [{}] on a [u8]. *)
Definition format_u8 (x : Z) : list Z :=
  if decide (x < 10) then [48 + x]
  else if decide (x < 100) then [48 + x / 10; 48 + x mod 10]
  else [48 + x / 100; 48 + x / 10 mod 10; 48 + x mod 10].
Definition format_ipv4 (ip : list Z) : res (list Z) :=
  let! a := index ip 0 in let! b := index ip 1 in let! c := index ip 2 in let! d := index ip 3 in
  Ret (format_u8 a ++ [DOT] ++ format_u8 b ++ [DOT] ++ format_u8 c ++ [DOT] ++ format_u8 d).

(** [{:02x}] on a [u8]. *)
Definition hex_digit (x : Z) : Z := if decide (x < 10) then 48 + x else 87 + x.
Definition format_hex2 (x : Z) : list Z := [hex_digit (x / 16); hex_digit (x mod 16)].
Definition format_mac (mac : list Z) : list Z :=
  match mac with
  | [] => []
  | b :: bs => foldl (λ acc x, acc ++ [58] ++ format_hex2 x) (format_hex2 b) bs
  end.

(** ** DNS *)

(** The labels of the name; [None] when one is longer than 63 bytes. *)
Fixpoint dns_labels (ls : list (list Z)) : option (list Z) :=
  match ls with
  | [] => Some []
  | l :: ls' =>
      if decide (63 < length l)%nat then None
      else r ← dns_labels ls'; Some ([Z.of_nat (length l)] ++ l ++ r)
  end.
Definition dns_packet (txid : Z) (hostname : list Z) : option (list Z) :=
  labels ← dns_labels (split_on DOT hostname);
  Some (to_be 2 txid ++ [0x01; 0x00] ++ [0; 1] ++ [0; 0] ++ [0; 0] ++ [0; 0]
          ++ labels ++ [0] ++ [0; 1] ++ [0; 1]).

(** The loop over the question's name. *)
Fixpoint skip_qname (fuel : nat) (data : list Z) (pos : nat) : res nat :=
  if decide (pos < length data)%nat then
    match fuel with
    | O => OutOfFuel
    | S fuel' =>
        let! len := index data pos in
        if decide (len = 0) then Ret (pos + 1)%nat
        else if decide (0xC0 ≤ len) then Ret (pos + 2)%nat
        else skip_qname fuel' data (pos + 1 + Z.to_nat len)%nat
    end
  else Ret pos.
(** The loop over an answer's name, which knows no pointer inside the name. *)
Fixpoint skip_name (fuel : nat) (data : list Z) (pos : nat) : res nat :=
  if decide (pos < length data)%nat then
    match fuel with
    | O => OutOfFuel
    | S fuel' =>
        let! len := index data pos in
        if decide (len = 0) then Ret (pos + 1)%nat
        else skip_name fuel' data (pos + 1 + Z.to_nat len)%nat
    end
  else Ret pos.

(** [for _ in 0..ancount]. *)
Fixpoint dns_answers (n : nat) (data : list Z) (pos : nat) : res (option (list Z * Z)) :=
  match n with
  | O => Ret None
  | S n' =>
      if decide (length data < pos + 12)%nat then Ret None else
      let! b := index data pos in
      let! pos := if decide (0xC0 ≤ b) then Ret (pos + 2)%nat else skip_name (length data) data pos in
      if decide (length data < pos + 10)%nat then Ret None else
      let! rtype := be16_at pos data in
      let! ttl := be32_at (pos + 4) data in
      let! rdlength := be16_at (pos + 8) data in
      let rdlength := Z.to_nat rdlength in
      let pos := (pos + 10)%nat in
      if decide (rtype = 1 ∧ rdlength = 4%nat ∧ (pos + 4 ≤ length data)%nat) then
        let! ip := slice pos (pos + 4) data in Ret (Some (ip, ttl))
      else dns_answers n' data (pos + rdlength)%nat
  end.

Definition parse_dns_reply (data : list Z) : res (option (list Z * Z)) :=
  if decide (length data < 12)%nat then Ret None else
  let! flags := be16_at 2 data in
  if decide (Z.land flags 0x8000 = 0) then Ret None else
  let! ancount := be16_at 6 data in
  if decide (ancount = 0) then Ret None else
  let! pos := skip_qname (length data) data 12 in
  dns_answers (Z.to_nat ancount) data (pos + 4).

(** ** DHCP *)

Definition DHCP_DISCOVER : Z := 1.
Definition DHCP_OFFER : Z := 2.
Definition DHCP_REQUEST : Z := 3.
Definition DHCP_ACK : Z := 5.
Definition DHCP_COOKIE : list Z := [99; 130; 83; 99].

Record DhcpOffer := mkOffer {
  your_ip : list Z; server_ip : list Z; subnet : list Z; dhcp_gateway : list Z; dns : list Z; lease : Z
}.

Definition build_dhcp_msg (msg_type : Z) (our_mac : list Z) (requested_ip : option (list Z)) : list Z :=
  let pkt := [1] ++ [1] ++ [6] ++ [0] ++ to_be 4 0x4E4F4445 ++ [0; 0] ++ [0x80; 0]
    ++ replicate 4 0 ++ replicate 4 0 ++ replicate 4 0 ++ replicate 4 0
    ++ our_mac ++ replicate 10 0 ++ replicate 64 0 ++ replicate 128 0
    ++ DHCP_COOKIE ++ [53; 1; msg_type]
    ++ match requested_ip with Some ip => [50; 4] ++ ip | None => [] end
    ++ [55; 4; 1; 3; 6; 51] ++ [255] in
  pkt ++ replicate (300 - length pkt) 0.

(** The options seen so far: message type, subnet, gateway, server, lease. *)
Record DhcpOpts := mkOpts { o_type : Z; o_subnet : list Z; o_gateway : list Z; o_dns : list Z; o_lease : Z }.

(** One option with its (possibly truncated) value. *)
Definition dhcp_option (opt : Z) (val : list Z) (o : DhcpOpts) : DhcpOpts :=
  let long := bool_decide (4 ≤ length val)%nat in
  if decide (opt = 53) then
    match val with v :: _ => mkOpts v (o_subnet o) (o_gateway o) (o_dns o) (o_lease o) | [] => o end
  else if decide (opt = 1) then
    if long then mkOpts (o_type o) (take 4 val) (o_gateway o) (o_dns o) (o_lease o) else o
  else if decide (opt = 3) then
    if long then mkOpts (o_type o) (o_subnet o) (take 4 val) (o_dns o) (o_lease o) else o
  else if decide (opt = 6) then
    if long then mkOpts (o_type o) (o_subnet o) (o_gateway o) (take 4 val) (o_lease o) else o
  else if decide (opt = 51) then
    if long then mkOpts (o_type o) (o_subnet o) (o_gateway o) (o_dns o) (from_be (take 4 val)) else o
  else o.

Fixpoint dhcp_options (fuel : nat) (data : list Z) (pos : nat) (o : DhcpOpts) : res DhcpOpts :=
  if decide (pos < length data)%nat then
    match fuel with
    | O => OutOfFuel
    | S fuel' =>
        let! opt := index data pos in
        if decide (opt = 255) then Ret o
        else if decide (opt = 0) then dhcp_options fuel' data (pos + 1) o
        else if decide (length data ≤ pos + 1)%nat then Ret o
        else
          let! len := index data (pos + 1) in
          let len := Z.to_nat len in
          let! val := slice (pos + 2) ((pos + 2 + len) `min` length data) data in
          dhcp_options fuel' data (pos + 2 + len) (dhcp_option opt val o)
    end
  else Ret o.

Definition parse_dhcp_options (data : list Z) : res (option DhcpOffer) :=
  if decide (length data < 240)%nat then Ret None else
  let! cookie := slice 236 240 data in
  if decide (cookie ≠ DHCP_COOKIE) then Ret None else
  let! your := slice 16 20 data in
  let! server := slice 20 24 data in
  let! o := dhcp_options (length data) data 240
              (mkOpts 0 [255; 255; 255; 0] [0; 0; 0; 0] [0; 0; 0; 0] 86400) in
  if decide (o_type o = DHCP_OFFER ∨ o_type o = DHCP_ACK) then
    Ret (Some (mkOffer your server (o_subnet o) (o_gateway o) (o_dns o) (o_lease o)))
  else Ret None.
