(* ===== verification/Tcp.v ===== *)
(** The TCP part of [kernel/src/net.rs] (module [tcp]) with the deferral queue of
    [kernel/src/causal_deferral.rs].

    What the learned components answer is an input ([Hints]): whether a process's
    anomaly score exceeds 0.5 and 0.6, and its causal fan-out. *)
From stdpp Require Import base numbers list gmap sorting.
From S2P Require Import Prelude Bytes NetWire.

Definition FIN : Z := 0x01.
Definition SYN : Z := 0x02.
Definition RST : Z := 0x04.
Definition PSH : Z := 0x08.
Definition ACK : Z := 0x10.
(** [flags & f != 0]. *)
Definition flag (flags f : Z) : bool := negb (Z.land flags f =? 0).

Inductive TcpState :=
| Closed | Listen | SynSent | SynReceived | Established | Accepted
| FinWait1 | FinWait2 | CloseWait | Closing | LastAck | TimeWait.
#[export] Instance TcpState_eq_dec : EqDecision TcpState.
Proof. solve_decision. Defined.

Record TcpSocketKey := mkSockKey { local_port : Z; remote_ip : list Z; remote_port : Z }.
#[export] Instance TcpSocketKey_eq_dec : EqDecision TcpSocketKey.
Proof. solve_decision. Defined.
#[export] Instance TcpSocketKey_countable : Countable TcpSocketKey.
Proof.
  apply (inj_countable' (λ k, (local_port k, remote_ip k, remote_port k))
    (λ p, mkSockKey p.1.1 p.1.2 p.2)). by intros [].
Defined.

(** The derived order: port, address, port. *)
Fixpoint bytes_le (a b : list Z) : bool :=
  match a, b with
  | [], _ => true
  | _ :: _, [] => false
  | x :: a', y :: b' => if x <? y then true else if y <? x then false else bytes_le a' b'
  end.
Definition sock_key_le (a b : TcpSocketKey) : Prop :=
  local_port a < local_port b ∨ (local_port a = local_port b ∧
    ((remote_ip a ≠ remote_ip b ∧ bytes_le (remote_ip a) (remote_ip b) = true) ∨
     (remote_ip a = remote_ip b ∧ remote_port a ≤ remote_port b))).
#[export] Instance sock_key_le_dec : RelDecision sock_key_le.
Proof. intros a b. unfold sock_key_le. apply _. Defined.

Record TcpSocket := mkSock {
  t_state : TcpState;
  snd_nxt : Z; snd_una : Z; rcv_nxt : Z;
  snd_wnd : Z;
  rcv_buf : list Z;
  cwnd : Z; ssthresh : Z;
  last_send_ms : Z; rto_ms : Z; retransmit_buf : list Z;
  owner_pid : Z; ai_cwnd_mul : Z
}.

Definition MSS : Z := 1460.
Definition RTO_INITIAL_MS : Z := 1000.
Definition RTO_MAX_MS : Z := 60000.
Definition ISS : Z := 0xDEAD0000.

Definition set_tstate (v : TcpState) (s : TcpSocket) : TcpSocket :=
  mkSock v (snd_nxt s) (snd_una s) (rcv_nxt s) (snd_wnd s) (rcv_buf s) (cwnd s) (ssthresh s)
    (last_send_ms s) (rto_ms s) (retransmit_buf s) (owner_pid s) (ai_cwnd_mul s).
Definition set_snd_nxt (v : Z) (s : TcpSocket) : TcpSocket :=
  mkSock (t_state s) v (snd_una s) (rcv_nxt s) (snd_wnd s) (rcv_buf s) (cwnd s) (ssthresh s)
    (last_send_ms s) (rto_ms s) (retransmit_buf s) (owner_pid s) (ai_cwnd_mul s).
Definition set_snd_una (v : Z) (s : TcpSocket) : TcpSocket :=
  mkSock (t_state s) (snd_nxt s) v (rcv_nxt s) (snd_wnd s) (rcv_buf s) (cwnd s) (ssthresh s)
    (last_send_ms s) (rto_ms s) (retransmit_buf s) (owner_pid s) (ai_cwnd_mul s).
Definition set_rcv_nxt (v : Z) (s : TcpSocket) : TcpSocket :=
  mkSock (t_state s) (snd_nxt s) (snd_una s) v (snd_wnd s) (rcv_buf s) (cwnd s) (ssthresh s)
    (last_send_ms s) (rto_ms s) (retransmit_buf s) (owner_pid s) (ai_cwnd_mul s).
Definition set_snd_wnd (v : Z) (s : TcpSocket) : TcpSocket :=
  mkSock (t_state s) (snd_nxt s) (snd_una s) (rcv_nxt s) v (rcv_buf s) (cwnd s) (ssthresh s)
    (last_send_ms s) (rto_ms s) (retransmit_buf s) (owner_pid s) (ai_cwnd_mul s).
Definition set_rcv_buf (v : list Z) (s : TcpSocket) : TcpSocket :=
  mkSock (t_state s) (snd_nxt s) (snd_una s) (rcv_nxt s) (snd_wnd s) v (cwnd s) (ssthresh s)
    (last_send_ms s) (rto_ms s) (retransmit_buf s) (owner_pid s) (ai_cwnd_mul s).
Definition set_cwnd (v : Z) (s : TcpSocket) : TcpSocket :=
  mkSock (t_state s) (snd_nxt s) (snd_una s) (rcv_nxt s) (snd_wnd s) (rcv_buf s) v (ssthresh s)
    (last_send_ms s) (rto_ms s) (retransmit_buf s) (owner_pid s) (ai_cwnd_mul s).
Definition set_mul (v : Z) (s : TcpSocket) : TcpSocket :=
  mkSock (t_state s) (snd_nxt s) (snd_una s) (rcv_nxt s) (snd_wnd s) (rcv_buf s) (cwnd s) (ssthresh s)
    (last_send_ms s) (rto_ms s) (retransmit_buf s) (owner_pid s) v.

Definition new_syn_received (irs : Z) : TcpSocket :=
  mkSock SynReceived (add32 ISS 1) ISS (add32 irs 1) 65535 [] MSS 65535 0 RTO_INITIAL_MS [] 0 100.
Definition new_syn_sent (iss pid : Z) : TcpSocket :=
  mkSock SynSent (add32 iss 1) iss 0 65535 [] MSS 65535 0 RTO_INITIAL_MS [] pid 100.

Record DeferredTcpEvent := mkDeferred { ev_src_mac : list Z; ev_iph : Ipv4Header; ev_tcp_raw : list Z }.

(** [SOCKETS], [LISTENERS] with their accept queues, the next ephemeral port and
    the deferred segments. *)
Record Tcp := mkTcpTables {
  SOCKETS : gmap TcpSocketKey TcpSocket;
  LISTENERS : gmap Z (list TcpSocketKey);
  NEXT_EPH : Z;
  deferred_events : list DeferredTcpEvent
}.
Definition set_sockets (v : gmap TcpSocketKey TcpSocket) (t : Tcp) : Tcp :=
  mkTcpTables v (LISTENERS t) (NEXT_EPH t) (deferred_events t).
Definition set_listeners (v : gmap Z (list TcpSocketKey)) (t : Tcp) : Tcp :=
  mkTcpTables (SOCKETS t) v (NEXT_EPH t) (deferred_events t).
Definition set_deferred (v : list DeferredTcpEvent) (t : Tcp) : Tcp :=
  mkTcpTables (SOCKETS t) (LISTENERS t) (NEXT_EPH t) v.

Record Hints := mkHints {
  score_over_half : Z → bool;   (* [anomaly::score(pid) > 0.5] *)
  score_over_06 : Z → bool;     (* [anomaly::score(pid) > 0.6] *)
  causal_fanout : Z → Z
}.

Definition listen (port : Z) (t : Tcp) : Tcp :=
  match LISTENERS t !! port with
  | Some _ => t
  | None => set_listeners (<[port := []]> (LISTENERS t)) t
  end.

(** A TCP segment in an IP packet in an Ethernet frame. *)
Definition tcp_frame (our_mac our_ip dst_mac dst_ip : list Z) (sp dp seq ack flags win : Z)
    (payload : list Z) : res (list Z) :=
  let! seg := tcp_build sp dp seq ack flags win our_ip dst_ip payload in
  let! ip_hdr := ipv4_build IP_PROTO_TCP our_ip dst_ip (length seg) in
  Ret (eth_build dst_mac our_mac ETHERTYPE_IPV4 (ip_hdr ++ seg)).

(** ** The state machine *)

Section machine.
Context (h : Hints).

(** [saturating_add] and [saturating_mul] on [u32]. *)
Definition sat_add32 (a b : Z) : Z := Z.min (u32_modulus - 1) (a + b).
Definition sat_mul32 (a b : Z) : Z := Z.min (u32_modulus - 1) (a * b).

Definition cwnd_multiplier (pid : Z) : Z :=
  if score_over_06 h pid then 70
  else if decide (4 ≤ causal_fanout h pid) then 150
  else if decide (2 ≤ causal_fanout h pid) then 120
  else 100.

(** An acknowledgement in [Established]. *)
Definition on_ack (ack : Z) (s : TcpSocket) : TcpSocket :=
  let acked := sub32 ack (snd_una s) in
  if decide (0 < acked ∧ acked ≤ 65536) then
    let s := set_snd_una ack s in
    let s := if decide (cwnd s < ssthresh s) then set_cwnd (sat_add32 (cwnd s) acked) s
             else let inc := sat_mul32 MSS acked / Z.max (cwnd s) 1 in
                  set_cwnd (sat_add32 (cwnd s) (Z.max inc 1)) s in
    let cap := Z.max (snd_wnd s) MSS in
    let s := if decide (cap < cwnd s) then set_cwnd cap s else s in
    if decide (0 < owner_pid s) then set_mul (cwnd_multiplier (owner_pid s)) s else s
  else s.

(** [tcp_state_machine]: the socket, the listeners and the reply. *)
Definition tcp_state_machine (tcph : TcpHeader) (data our_mac our_ip remote_mac rip : list Z)
    (s : TcpSocket) (ls : gmap Z (list TcpSocketKey))
    : res (option (list Z) * TcpSocket * gmap Z (list TcpSocketKey)) :=
  let flags := tcp_flags tcph in
  let make_reply (s : TcpSocket) (tx_flags : Z) (tx_data : list Z) : res (list Z) :=
    tcp_frame our_mac our_ip remote_mac rip (dst_port tcph) (src_port tcph)
      (snd_nxt s) (rcv_nxt s) tx_flags 65535 tx_data in
  let reply (s : TcpSocket) := let! f := make_reply s ACK [] in Ret (Some f, s, ls) in
  match t_state s with
  | SynSent =>
      if bool_decide (Z.land flags (Z.lor SYN ACK) = Z.lor SYN ACK) && bool_decide (tcp_ack tcph = snd_nxt s) then
        let s := set_rcv_nxt (add32 (tcp_seq tcph) 1) s in
        let s := set_snd_una (snd_nxt s) s in
        let s := set_snd_wnd (window tcph) s in
        reply (set_tstate Established s)
      else Ret (None, s, ls)
  | SynReceived =>
      if flag flags ACK && bool_decide (tcp_ack tcph = snd_nxt s) then
        let s := set_snd_wnd (window tcph) (set_snd_una (snd_nxt s) (set_tstate Established s)) in
        let conn_key := mkSockKey (dst_port tcph) rip (src_port tcph) in
        let port := dst_port tcph in
        match ls !! port with
        | Some backlog => Ret (None, s, <[port := backlog ++ [conn_key]]> ls)
        | None => Ret (None, s, ls)
        end
      else Ret (None, s, ls)
  | Established =>
      let s := set_snd_wnd (window tcph) s in
      let s := if flag flags ACK then on_ack (tcp_ack tcph) s else s in
      if negb (bool_decide (data = [])) && bool_decide (tcp_seq tcph = rcv_nxt s) then
        let s := set_rcv_buf (rcv_buf s ++ data) s in
        let s := set_rcv_nxt (add32 (rcv_nxt s) (u32 (Z.of_nat (length data)))) s in
        let s := if flag flags FIN then set_tstate CloseWait (set_rcv_nxt (add32 (rcv_nxt s) 1) s) else s in
        reply s
      else if flag flags FIN then
        reply (set_tstate CloseWait (set_rcv_nxt (add32 (rcv_nxt s) 1) s))
      else Ret (None, s, ls)
  | CloseWait => Ret (None, s, ls)
  | LastAck => Ret (None, if flag flags ACK then set_tstate Closed s else s, ls)
  | FinWait1 =>
      let s := if flag flags ACK then set_tstate FinWait2 s else s in
      if flag flags FIN then
        reply (set_tstate TimeWait (set_rcv_nxt (add32 (rcv_nxt s) 1) s))
      else Ret (None, s, ls)
  | FinWait2 =>
      if flag flags FIN then
        reply (set_tstate TimeWait (set_rcv_nxt (add32 (rcv_nxt s) 1) s))
      else Ret (None, s, ls)
  | _ => Ret (None, s, ls)
  end.

Definition should_defer (pid : Z) : bool := if decide (pid = 0) then false else score_over_half h pid.

Definition handle_tcp_segment (our_mac our_ip src_mac : list Z) (iph : Ipv4Header) (tcp_raw : list Z) (t : Tcp)
    : res (option (list Z) * Tcp) :=
  let! o := tcp_parse tcp_raw in
  match o with
  | None => Ret (None, t)
  | Some tcph =>
      let key := mkSockKey (dst_port tcph) (ip_src iph) (src_port tcph) in
      let off := (tcp_header_len tcph `min` length tcp_raw)%nat in
      let! data := slice off (length tcp_raw) tcp_raw in
      let flags := tcp_flags tcph in
      if flag flags RST then Ret (None, set_sockets (delete key (SOCKETS t)) t) else
      match SOCKETS t !! key with
      | Some sock =>
          if should_defer (owner_pid sock) then
            Ret (None, set_deferred (deferred_events t ++ [mkDeferred src_mac iph tcp_raw]) t)
          else
            let! (r, ls) := tcp_state_machine tcph data our_mac our_ip src_mac (ip_src iph) sock (LISTENERS t) in
            Ret (r.1, set_listeners ls (set_sockets (<[key := r.2]> (SOCKETS t)) t))
      | None =>
          if flag flags SYN && negb (flag flags ACK) && bool_decide (is_Some (LISTENERS t !! dst_port tcph)) then
            let sock := new_syn_received (tcp_seq tcph) in
            let! f := tcp_frame our_mac our_ip src_mac (ip_src iph) (dst_port tcph) (src_port tcph)
                        ISS (rcv_nxt sock) (Z.lor SYN ACK) (snd_wnd sock) [] in
            Ret (Some f, set_sockets (<[key := sock]> (SOCKETS t)) t)
          else if flag flags SYN then
            let! f := tcp_frame our_mac our_ip src_mac (ip_src iph) (dst_port tcph) (src_port tcph)
                        0 (add32 (tcp_seq tcph) 1) (Z.lor RST ACK) 0 [] in
            Ret (Some f, t)
          else Ret (None, t)
      end
  end.

(** [CausalDeferralBuffer::flush]: the replies it transmits. *)
Fixpoint flush (fuel : nat) (our_mac our_ip : list Z) (t : Tcp) : res (list (list Z) * Tcp) :=
  match deferred_events t with
  | [] => Ret ([], t)
  | ev :: q =>
      match fuel with
      | O => OutOfFuel
      | S fuel' =>
          let! (o, t) := handle_tcp_segment our_mac our_ip (ev_src_mac ev) (ev_iph ev) (ev_tcp_raw ev)
                           (set_deferred q t) in
          let! (fs, t) := flush fuel' our_mac our_ip t in
          Ret (option_list o ++ fs, t)
      end
  end.
End machine.

(** ** The socket interface *)

(** The bytes [send] may take, and the states it sends in. *)
Definition send_allowed (s : TcpSocket) : nat :=
  let ai_cwnd := u32 (cwnd s * ai_cwnd_mul s / 100) in
  Z.to_nat (Z.max (Z.min ai_cwnd (snd_wnd s)) MSS).
Definition can_send (s : TcpSocket) : bool :=
  bool_decide (t_state s = Established) || bool_decide (t_state s = Accepted).
(** The copy kept for a retransmission. *)
Definition set_sent (data : list Z) (now : Z) (s : TcpSocket) : TcpSocket :=
  mkSock (t_state s) (snd_nxt s) (snd_una s) (rcv_nxt s) (snd_wnd s) (rcv_buf s)
    (cwnd s) (ssthresh s) now (rto_ms s) data (owner_pid s) (ai_cwnd_mul s).

(** The per-socket part of [poll_retransmit]. *)
Definition retransmit_due (now : Z) (s : TcpSocket) : bool :=
  can_send s && negb (bool_decide (retransmit_buf s = [])) &&
  negb (bool_decide (snd_una s = sub32 (snd_nxt s) (u32 (Z.of_nat (length (retransmit_buf s)))))) &&
  negb (bool_decide (last_send_ms s = 0)) &&
  bool_decide (rto_ms s ≤ sat_sub now (last_send_ms s)).
Definition back_off (now : Z) (s : TcpSocket) : TcpSocket :=
  mkSock (t_state s) (snd_nxt s) (snd_una s) (rcv_nxt s) (snd_wnd s) (rcv_buf s)
    MSS (Z.max (cwnd s / 2) MSS) now (Z.min (mul64 (rto_ms s) 2) RTO_MAX_MS) (retransmit_buf s)
    (owner_pid s) (ai_cwnd_mul s).
(** The sockets after the first loop, and the keys to retransmit in key order. *)
Definition retransmit_scan (now : Z) (m : gmap TcpSocketKey TcpSocket)
    : gmap TcpSocketKey TcpSocket * list (TcpSocketKey * list Z) :=
  ((λ s, if retransmit_due now s then back_off now s else s) <$> m,
   (λ p, (p.1, retransmit_buf p.2)) <$> filter (λ p, retransmit_due now p.2 = true) (btree_list sock_key_le m)).

Definition accept (port : Z) (t : Tcp) : option TcpSocketKey * Tcp :=
  match LISTENERS t !! port with
  | Some (key :: q) =>
      let t := set_listeners (<[port := q]> (LISTENERS t)) t in
      (Some key, set_sockets (alter (set_tstate Accepted) key (SOCKETS t)) t)
  | Some [] | None => (None, t)
  end.

Definition rx_buf_len (key : TcpSocketKey) (t : Tcp) : nat :=
  match SOCKETS t !! key with Some s => length (rcv_buf s) | None => 0%nat end.

(** [recv] into a buffer of [n] bytes. *)
Definition recv (key : TcpSocketKey) (n : nat) (t : Tcp) : list Z * Tcp :=
  match SOCKETS t !! key with
  | Some s =>
      let k := (n `min` length (rcv_buf s))%nat in
      (take k (rcv_buf s), set_sockets (<[key := set_rcv_buf (drop k (rcv_buf s)) s]> (SOCKETS t)) t)
  | None => ([], t)
  end.

Definition recv_vec (key : TcpSocketKey) (t : Tcp) : list Z * Tcp :=
  match SOCKETS t !! key with
  | Some s => (rcv_buf s, set_sockets (<[key := set_rcv_buf [] s]> (SOCKETS t)) t)
  | None => ([], t)
  end.

Definition has_data (key : TcpSocketKey) (t : Tcp) : bool :=
  match SOCKETS t !! key with Some s => negb (bool_decide (rcv_buf s = [])) | None => false end.

Definition established_for (port : Z) (t : Tcp) : list TcpSocketKey :=
  (filter (λ p, local_port p.1 = port ∧ t_state p.2 = Established) (btree_list sock_key_le (SOCKETS t))).*1.

(** The state [close] moves to, if it does anything. *)
Definition close_state (s : TcpState) : option TcpState :=
  match s with
  | Established => Some FinWait1
  | CloseWait => Some LastAck
  | _ => None
  end.

Definition next_ephemeral (port : Z) : Z := if decide (65534 ≤ port) then 49152 else port + 1.
