(* ===== verification/NetWireProps.v ===== *)
(** Round trips of the wire formats and of dotted addresses. *)
From stdpp Require Import base numbers list.
From S2P Require Import Prelude Bytes NetWire NetWireFacts NetProto Tcp.

(** A TCP segment sent by this kernel is one this kernel accepts: unwrapping
    the frame layer by layer gives back the addresses, ports, numbers, flags and
    data it was built from, and the IP and TCP checksums verify. *)
Theorem tcp_frame_roundtrip (smac sip dmac dip : list Z) (sp dp seq ack flags win : Z) (data frame : list Z) :
  length smac = 6%nat → length dmac = 6%nat → ip_ok sip → ip_ok dip → bytes_ok data →
  word_ok sp → word_ok dp → is_u32 seq → is_u32 ack → byte_ok flags → word_ok win →
  40 + Z.of_nat (length data) < 65536 →
  tcp_frame smac sip dmac dip sp dp seq ack flags win data = Ret frame →
  ∃ hd seg ipc tcpc,
    eth_parse frame = Ret (Some (mkEth dmac smac ETHERTYPE_IPV4 (hd ++ seg))) ∧
    ipv4_parse (hd ++ seg) = Ret (Some (mkIpv4 5 0 (40 + Z.of_nat (length data)) 1 0x4000 64 IP_PROTO_TCP ipc sip dip)) ∧
    slice_get 20 (40 + length data) (hd ++ seg) = Some seg ∧
    tcp_parse seg = Ret (Some (mkTcp sp dp seq ack 5 flags win tcpc 0)) ∧ drop 20 seg = data ∧
    ipv4_checksum hd = Ret 0 ∧ tcp_checksum sip dip seg = Ret 0.
Proof.
  intros Hsm Hdm Hsip Hdip Hd Hsp Hdp Hseq Hack Hf Hw Hl E. unfold tcp_frame in E.
  destruct (tcp_build_spec sp dp seq ack flags win sip dip data) as (c & Es & Hc & Vs); [done..|lia|].
  set (seg := tcp_prefix sp dp seq ack flags win ++ csum_bytes c ++ [0; 0] ++ data) in Es.
  assert (Hlen : length seg = (20 + length data)%nat).
  { unfold seg, tcp_prefix. rewrite !length_app, !length_to_be. simpl. lia. }
  rewrite Es in E. cbn [res_bind] in E.
  destruct (ipv4_build_spec IP_PROTO_TCP sip dip (length seg)) as (ic & Eh & _ & Vh); [done..|].
  set (hd := [0x45; 0] ++ _) in Eh. rewrite Eh in E. cbn [res_bind] in E. apply Ret_inj in E. subst frame.
  destruct (ipv4_roundtrip IP_PROTO_TCP sip dip seg hd) as (ipc & _ & Ep & Hh); [done..|lia|done|].
  destruct (tcp_roundtrip sp dp seq ack flags win sip dip data seg) as (tcpc & Et & Edt); [done..|lia|done|].
  exists hd, seg, ipc, tcpc. split_and!; [by apply eth_roundtrip| | |done|done|by apply Vh|by apply Vs].
  - rewrite Ep. do 3 f_equal. lia.
  - unfold slice_get. rewrite decide_True by (rewrite length_app; lia).
    rewrite drop_app_length' by done. rewrite take_ge by lia. done.
Qed.

Lemma tcp_frame_roundtrip_witness : ∃ frame,
  tcp_frame [1; 1; 1; 1; 1; 1] [10; 0; 2; 15] [2; 2; 2; 2; 2; 2] [10; 0; 2; 2] 80 5000 7 9 ACK 65535 [1; 2; 3] = Ret frame ∧
  ∃ hd seg, eth_parse frame = Ret (Some (mkEth [2; 2; 2; 2; 2; 2] [1; 1; 1; 1; 1; 1] ETHERTYPE_IPV4 (hd ++ seg))) ∧
    drop 20 seg = [1; 2; 3].
Proof.
  eexists. split; [vm_compute; reflexivity|].
  edestruct (tcp_frame_roundtrip [1; 1; 1; 1; 1; 1] [10; 0; 2; 15] [2; 2; 2; 2; 2; 2] [10; 0; 2; 2] 80 5000 7 9 ACK 65535 [1; 2; 3])
    as (hd & seg & ipc & tcpc & H1 & _ & _ & _ & H2 & _);
    [reflexivity|reflexivity|split; [reflexivity|solve_bytes]|split; [reflexivity|solve_bytes]|solve_bytes|
     by split|by split|by split|by split|by split|by split|reflexivity|vm_compute; reflexivity|].
  exists hd, seg. split; [exact H1|exact H2].
Defined.

(** ** Dotted addresses *)

Lemma split_on_nonempty c l : ∃ w ws, split_on c l = w :: ws.
Proof. induction l as [|x l (w & ws & IH)]; simpl; [by exists [], []|]. rewrite IH. case_decide; eauto. Qed.

Lemma split_on_app c w l : Forall (λ x, x ≠ c) w → split_on c (w ++ c :: l) = w :: split_on c l.
Proof.
  induction 1 as [|x w Hx Hw IH]; simpl; [by rewrite decide_True|]. by rewrite decide_False, IH.
Qed.
Lemma split_on_none c w : Forall (λ x, x ≠ c) w → split_on c w = [w].
Proof. induction 1 as [|x w Hx Hw IH]; simpl; [done|]. by rewrite decide_False, IH. Qed.

(** Checked for each of the 256 byte values. *)
Lemma format_u8_all : forallb (λ n, bool_decide (parse_u8 (format_u8 (Z.of_nat n)) = Some (Z.of_nat n))
    && bool_decide (Forall (λ x, x ≠ DOT) (format_u8 (Z.of_nat n)))) (seq 0 256) = true.
Proof. vm_compute. reflexivity. Qed.

Lemma format_u8_spec x : byte_ok x → parse_u8 (format_u8 x) = Some x ∧ Forall (λ x, x ≠ DOT) (format_u8 x).
Proof.
  intros Hx. unfold byte_ok in Hx. pose proof format_u8_all as H. rewrite forallb_forall in H.
  specialize (H (Z.to_nat x)). rewrite Z2Nat.id in H by lia.
  rewrite andb_true_iff, !bool_decide_eq_true in H. apply H. apply in_seq. lia.
Qed.

(** Printing an IPv4 address and parsing the text gives the address back. *)
Theorem dotted_roundtrip (ip : list Z) : ip_ok ip →
  ∃ text, format_ipv4 ip = Ret text ∧ parse_ipv4 text = Some ip.
Proof.
  intros [Hl Hb]. destruct ip as [|a [|b [|c [|d [|]]]]]; try done. rewrite !Forall_cons in Hb.
  destruct Hb as (Ha & Hb & Hc & Hd & _). eexists. split; [reflexivity|].
  destruct (format_u8_spec a Ha) as [Pa Na], (format_u8_spec b Hb) as [Pb Nb], (format_u8_spec c Hc) as [Pc Nc],
    (format_u8_spec d Hd) as [Pd Nd].
  unfold parse_ipv4. cbn [app]. rewrite !split_on_app, split_on_none by done. cbn [length].
  rewrite decide_True by done. cbn [mapM]. by rewrite Pa, Pb, Pc, Pd.
Qed.

Lemma dotted_roundtrip_witness : ∃ text, format_ipv4 [10; 0; 2; 15] = Ret text ∧ parse_ipv4 text = Some [10; 0; 2; 15].
Proof. apply (dotted_roundtrip [10; 0; 2; 15]). split; [reflexivity|solve_bytes]. Defined.
