(* ===== verification/NetState.v ===== *)
(** The state of [kernel/src/net.rs] and of the Wi-Fi code, and a small state
    monad for the code that uses it. The statics of the file are the fields of [NetState]; [tick] counts
    the calls of [poll] and selects what the environment delivers. *)
From stdpp Require Import base numbers list gmap.
From S2P Require Import Prelude Bytes NetWire NetProto Tcp.

Record RouteEntry := mkRoute { destination : list Z; netmask : list Z; gateway : list Z }.
Record DnsCacheEntry := mkDnsEntry { dns_ip : list Z; expires : Z }.

(** ** The statics of [wifi/mod.rs] and [wifi/ar9271.rs] *)

(** The SSID is UTF-8 text. *)
Record ApInfo := mkAp { ssid : list Z; bssid : list Z; channel : Z; rssi : Z; secured : bool }.

(** [usb_sent]: the transfers given to the dongle. *)
Record Wifi := mkWifi {
  connected : bool; current_ap : option ApInfo; scan_cache : list ApInfo; WIFI_READY : bool;
  AR9271_SLOT : Z; WMI_SEQ : Z; WIFI_PN : Z; WIFI_LAST_KEEPALIVE : Z; WIFI_IP : list Z;
  WIFI_BSSID : list Z; WIFI_TK : list Z; WIFI_MAC : list Z; usb_sent : list (list Z)
}.
Definition set_connected (v : bool) (w : Wifi) : Wifi :=
  mkWifi v (current_ap w) (scan_cache w) (WIFI_READY w) (AR9271_SLOT w) (WMI_SEQ w) (WIFI_PN w)
    (WIFI_LAST_KEEPALIVE w) (WIFI_IP w) (WIFI_BSSID w) (WIFI_TK w) (WIFI_MAC w) (usb_sent w).
Definition set_current_ap (v : option ApInfo) (w : Wifi) : Wifi :=
  mkWifi (connected w) v (scan_cache w) (WIFI_READY w) (AR9271_SLOT w) (WMI_SEQ w) (WIFI_PN w)
    (WIFI_LAST_KEEPALIVE w) (WIFI_IP w) (WIFI_BSSID w) (WIFI_TK w) (WIFI_MAC w) (usb_sent w).
Definition set_scan_cache (v : list ApInfo) (w : Wifi) : Wifi :=
  mkWifi (connected w) (current_ap w) v (WIFI_READY w) (AR9271_SLOT w) (WMI_SEQ w) (WIFI_PN w)
    (WIFI_LAST_KEEPALIVE w) (WIFI_IP w) (WIFI_BSSID w) (WIFI_TK w) (WIFI_MAC w) (usb_sent w).
Definition set_WIFI_READY (v : bool) (w : Wifi) : Wifi :=
  mkWifi (connected w) (current_ap w) (scan_cache w) v (AR9271_SLOT w) (WMI_SEQ w) (WIFI_PN w)
    (WIFI_LAST_KEEPALIVE w) (WIFI_IP w) (WIFI_BSSID w) (WIFI_TK w) (WIFI_MAC w) (usb_sent w).
Definition set_WMI_SEQ (v : Z) (w : Wifi) : Wifi :=
  mkWifi (connected w) (current_ap w) (scan_cache w) (WIFI_READY w) (AR9271_SLOT w) v (WIFI_PN w)
    (WIFI_LAST_KEEPALIVE w) (WIFI_IP w) (WIFI_BSSID w) (WIFI_TK w) (WIFI_MAC w) (usb_sent w).
Definition set_WIFI_PN (v : Z) (w : Wifi) : Wifi :=
  mkWifi (connected w) (current_ap w) (scan_cache w) (WIFI_READY w) (AR9271_SLOT w) (WMI_SEQ w) v
    (WIFI_LAST_KEEPALIVE w) (WIFI_IP w) (WIFI_BSSID w) (WIFI_TK w) (WIFI_MAC w) (usb_sent w).
Definition set_WIFI_LAST_KEEPALIVE (v : Z) (w : Wifi) : Wifi :=
  mkWifi (connected w) (current_ap w) (scan_cache w) (WIFI_READY w) (AR9271_SLOT w) (WMI_SEQ w) (WIFI_PN w) v
    (WIFI_IP w) (WIFI_BSSID w) (WIFI_TK w) (WIFI_MAC w) (usb_sent w).
Definition set_WIFI_IP (v : list Z) (w : Wifi) : Wifi :=
  mkWifi (connected w) (current_ap w) (scan_cache w) (WIFI_READY w) (AR9271_SLOT w) (WMI_SEQ w) (WIFI_PN w)
    (WIFI_LAST_KEEPALIVE w) v (WIFI_BSSID w) (WIFI_TK w) (WIFI_MAC w) (usb_sent w).
Definition set_WIFI_BSSID (v : list Z) (w : Wifi) : Wifi :=
  mkWifi (connected w) (current_ap w) (scan_cache w) (WIFI_READY w) (AR9271_SLOT w) (WMI_SEQ w) (WIFI_PN w)
    (WIFI_LAST_KEEPALIVE w) (WIFI_IP w) v (WIFI_TK w) (WIFI_MAC w) (usb_sent w).
Definition set_WIFI_TK (v : list Z) (w : Wifi) : Wifi :=
  mkWifi (connected w) (current_ap w) (scan_cache w) (WIFI_READY w) (AR9271_SLOT w) (WMI_SEQ w) (WIFI_PN w)
    (WIFI_LAST_KEEPALIVE w) (WIFI_IP w) (WIFI_BSSID w) v (WIFI_MAC w) (usb_sent w).
Definition set_WIFI_MAC (v : list Z) (w : Wifi) : Wifi :=
  mkWifi (connected w) (current_ap w) (scan_cache w) (WIFI_READY w) (AR9271_SLOT w) (WMI_SEQ w) (WIFI_PN w)
    (WIFI_LAST_KEEPALIVE w) (WIFI_IP w) (WIFI_BSSID w) (WIFI_TK w) v (usb_sent w).
Definition set_usb_sent (v : list (list Z)) (w : Wifi) : Wifi :=
  mkWifi (connected w) (current_ap w) (scan_cache w) (WIFI_READY w) (AR9271_SLOT w) (WMI_SEQ w) (WIFI_PN w)
    (WIFI_LAST_KEEPALIVE w) (WIFI_IP w) (WIFI_BSSID w) (WIFI_TK w) (WIFI_MAC w) v.

(** ** The statics of [net.rs] *)

(** [nic]: a device is installed. [nic_locked], [sockets_locked]: the spin locks
    [NIC] and [SOCKETS] are held. [transmitted]: frames given to the device. *)
Record NetState := mkNet {
  OUR_IP : list Z; OUR_MAC : list Z; ARP_CACHE : gmap (list Z) (list Z * Z);
  ROUTES : list RouteEntry; DNS_SERVER : list Z; HOSTS : gmap (list Z) (list Z);
  DNS_CACHE : gmap (list Z) DnsCacheEntry; DNS_REPLY : option (list Z); DNS_PENDING : bool;
  DHCP_REPLY : option DhcpOffer; DHCP_PENDING : bool; PING_PENDING : bool; PING_REPLY_TIME : Z;
  PING_ID : Z; PING_SEQ : Z; RX_PACKETS : Z; RX_BYTES : Z; tcp : Tcp; wifi : Wifi; nic : bool;
  nic_locked : bool; sockets_locked : bool; tick : nat; transmitted : list (list Z)
}.
Definition set_OUR_IP (v : list Z) (s : NetState) : NetState :=
  mkNet v (OUR_MAC s) (ARP_CACHE s) (ROUTES s) (DNS_SERVER s) (HOSTS s) (DNS_CACHE s) (DNS_REPLY s)
    (DNS_PENDING s) (DHCP_REPLY s) (DHCP_PENDING s) (PING_PENDING s) (PING_REPLY_TIME s) (PING_ID s)
    (PING_SEQ s) (RX_PACKETS s) (RX_BYTES s) (tcp s) (wifi s) (nic s) (nic_locked s) (sockets_locked s) (tick s)
    (transmitted s).
Definition set_OUR_MAC (v : list Z) (s : NetState) : NetState :=
  mkNet (OUR_IP s) v (ARP_CACHE s) (ROUTES s) (DNS_SERVER s) (HOSTS s) (DNS_CACHE s) (DNS_REPLY s)
    (DNS_PENDING s) (DHCP_REPLY s) (DHCP_PENDING s) (PING_PENDING s) (PING_REPLY_TIME s) (PING_ID s)
    (PING_SEQ s) (RX_PACKETS s) (RX_BYTES s) (tcp s) (wifi s) (nic s) (nic_locked s) (sockets_locked s) (tick s)
    (transmitted s).
Definition set_ARP_CACHE (v : gmap (list Z) (list Z * Z)) (s : NetState) : NetState :=
  mkNet (OUR_IP s) (OUR_MAC s) v (ROUTES s) (DNS_SERVER s) (HOSTS s) (DNS_CACHE s) (DNS_REPLY s) (DNS_PENDING s)
    (DHCP_REPLY s) (DHCP_PENDING s) (PING_PENDING s) (PING_REPLY_TIME s) (PING_ID s) (PING_SEQ s) (RX_PACKETS s)
    (RX_BYTES s) (tcp s) (wifi s) (nic s) (nic_locked s) (sockets_locked s) (tick s) (transmitted s).
Definition set_ROUTES (v : list RouteEntry) (s : NetState) : NetState :=
  mkNet (OUR_IP s) (OUR_MAC s) (ARP_CACHE s) v (DNS_SERVER s) (HOSTS s) (DNS_CACHE s) (DNS_REPLY s)
    (DNS_PENDING s) (DHCP_REPLY s) (DHCP_PENDING s) (PING_PENDING s) (PING_REPLY_TIME s) (PING_ID s)
    (PING_SEQ s) (RX_PACKETS s) (RX_BYTES s) (tcp s) (wifi s) (nic s) (nic_locked s) (sockets_locked s) (tick s)
    (transmitted s).
Definition set_DNS_SERVER (v : list Z) (s : NetState) : NetState :=
  mkNet (OUR_IP s) (OUR_MAC s) (ARP_CACHE s) (ROUTES s) v (HOSTS s) (DNS_CACHE s) (DNS_REPLY s) (DNS_PENDING s)
    (DHCP_REPLY s) (DHCP_PENDING s) (PING_PENDING s) (PING_REPLY_TIME s) (PING_ID s) (PING_SEQ s) (RX_PACKETS s)
    (RX_BYTES s) (tcp s) (wifi s) (nic s) (nic_locked s) (sockets_locked s) (tick s) (transmitted s).
Definition set_HOSTS (v : gmap (list Z) (list Z)) (s : NetState) : NetState :=
  mkNet (OUR_IP s) (OUR_MAC s) (ARP_CACHE s) (ROUTES s) (DNS_SERVER s) v (DNS_CACHE s) (DNS_REPLY s)
    (DNS_PENDING s) (DHCP_REPLY s) (DHCP_PENDING s) (PING_PENDING s) (PING_REPLY_TIME s) (PING_ID s)
    (PING_SEQ s) (RX_PACKETS s) (RX_BYTES s) (tcp s) (wifi s) (nic s) (nic_locked s) (sockets_locked s) (tick s)
    (transmitted s).
Definition set_DNS_CACHE (v : gmap (list Z) DnsCacheEntry) (s : NetState) : NetState :=
  mkNet (OUR_IP s) (OUR_MAC s) (ARP_CACHE s) (ROUTES s) (DNS_SERVER s) (HOSTS s) v (DNS_REPLY s) (DNS_PENDING s)
    (DHCP_REPLY s) (DHCP_PENDING s) (PING_PENDING s) (PING_REPLY_TIME s) (PING_ID s) (PING_SEQ s) (RX_PACKETS s)
    (RX_BYTES s) (tcp s) (wifi s) (nic s) (nic_locked s) (sockets_locked s) (tick s) (transmitted s).
Definition set_DNS_REPLY (v : option (list Z)) (s : NetState) : NetState :=
  mkNet (OUR_IP s) (OUR_MAC s) (ARP_CACHE s) (ROUTES s) (DNS_SERVER s) (HOSTS s) (DNS_CACHE s) v (DNS_PENDING s)
    (DHCP_REPLY s) (DHCP_PENDING s) (PING_PENDING s) (PING_REPLY_TIME s) (PING_ID s) (PING_SEQ s) (RX_PACKETS s)
    (RX_BYTES s) (tcp s) (wifi s) (nic s) (nic_locked s) (sockets_locked s) (tick s) (transmitted s).
Definition set_DNS_PENDING (v : bool) (s : NetState) : NetState :=
  mkNet (OUR_IP s) (OUR_MAC s) (ARP_CACHE s) (ROUTES s) (DNS_SERVER s) (HOSTS s) (DNS_CACHE s) (DNS_REPLY s) v
    (DHCP_REPLY s) (DHCP_PENDING s) (PING_PENDING s) (PING_REPLY_TIME s) (PING_ID s) (PING_SEQ s) (RX_PACKETS s)
    (RX_BYTES s) (tcp s) (wifi s) (nic s) (nic_locked s) (sockets_locked s) (tick s) (transmitted s).
Definition set_DHCP_REPLY (v : option DhcpOffer) (s : NetState) : NetState :=
  mkNet (OUR_IP s) (OUR_MAC s) (ARP_CACHE s) (ROUTES s) (DNS_SERVER s) (HOSTS s) (DNS_CACHE s) (DNS_REPLY s)
    (DNS_PENDING s) v (DHCP_PENDING s) (PING_PENDING s) (PING_REPLY_TIME s) (PING_ID s) (PING_SEQ s)
    (RX_PACKETS s) (RX_BYTES s) (tcp s) (wifi s) (nic s) (nic_locked s) (sockets_locked s) (tick s)
    (transmitted s).
Definition set_DHCP_PENDING (v : bool) (s : NetState) : NetState :=
  mkNet (OUR_IP s) (OUR_MAC s) (ARP_CACHE s) (ROUTES s) (DNS_SERVER s) (HOSTS s) (DNS_CACHE s) (DNS_REPLY s)
    (DNS_PENDING s) (DHCP_REPLY s) v (PING_PENDING s) (PING_REPLY_TIME s) (PING_ID s) (PING_SEQ s)
    (RX_PACKETS s) (RX_BYTES s) (tcp s) (wifi s) (nic s) (nic_locked s) (sockets_locked s) (tick s)
    (transmitted s).
Definition set_PING_PENDING (v : bool) (s : NetState) : NetState :=
  mkNet (OUR_IP s) (OUR_MAC s) (ARP_CACHE s) (ROUTES s) (DNS_SERVER s) (HOSTS s) (DNS_CACHE s) (DNS_REPLY s)
    (DNS_PENDING s) (DHCP_REPLY s) (DHCP_PENDING s) v (PING_REPLY_TIME s) (PING_ID s) (PING_SEQ s)
    (RX_PACKETS s) (RX_BYTES s) (tcp s) (wifi s) (nic s) (nic_locked s) (sockets_locked s) (tick s)
    (transmitted s).
Definition set_PING_REPLY_TIME (v : Z) (s : NetState) : NetState :=
  mkNet (OUR_IP s) (OUR_MAC s) (ARP_CACHE s) (ROUTES s) (DNS_SERVER s) (HOSTS s) (DNS_CACHE s) (DNS_REPLY s)
    (DNS_PENDING s) (DHCP_REPLY s) (DHCP_PENDING s) (PING_PENDING s) v (PING_ID s) (PING_SEQ s) (RX_PACKETS s)
    (RX_BYTES s) (tcp s) (wifi s) (nic s) (nic_locked s) (sockets_locked s) (tick s) (transmitted s).
Definition set_PING_ID (v : Z) (s : NetState) : NetState :=
  mkNet (OUR_IP s) (OUR_MAC s) (ARP_CACHE s) (ROUTES s) (DNS_SERVER s) (HOSTS s) (DNS_CACHE s) (DNS_REPLY s)
    (DNS_PENDING s) (DHCP_REPLY s) (DHCP_PENDING s) (PING_PENDING s) (PING_REPLY_TIME s) v (PING_SEQ s)
    (RX_PACKETS s) (RX_BYTES s) (tcp s) (wifi s) (nic s) (nic_locked s) (sockets_locked s) (tick s)
    (transmitted s).
Definition set_PING_SEQ (v : Z) (s : NetState) : NetState :=
  mkNet (OUR_IP s) (OUR_MAC s) (ARP_CACHE s) (ROUTES s) (DNS_SERVER s) (HOSTS s) (DNS_CACHE s) (DNS_REPLY s)
    (DNS_PENDING s) (DHCP_REPLY s) (DHCP_PENDING s) (PING_PENDING s) (PING_REPLY_TIME s) (PING_ID s) v
    (RX_PACKETS s) (RX_BYTES s) (tcp s) (wifi s) (nic s) (nic_locked s) (sockets_locked s) (tick s)
    (transmitted s).
Definition set_RX_PACKETS (v : Z) (s : NetState) : NetState :=
  mkNet (OUR_IP s) (OUR_MAC s) (ARP_CACHE s) (ROUTES s) (DNS_SERVER s) (HOSTS s) (DNS_CACHE s) (DNS_REPLY s)
    (DNS_PENDING s) (DHCP_REPLY s) (DHCP_PENDING s) (PING_PENDING s) (PING_REPLY_TIME s) (PING_ID s)
    (PING_SEQ s) v (RX_BYTES s) (tcp s) (wifi s) (nic s) (nic_locked s) (sockets_locked s) (tick s)
    (transmitted s).
Definition set_RX_BYTES (v : Z) (s : NetState) : NetState :=
  mkNet (OUR_IP s) (OUR_MAC s) (ARP_CACHE s) (ROUTES s) (DNS_SERVER s) (HOSTS s) (DNS_CACHE s) (DNS_REPLY s)
    (DNS_PENDING s) (DHCP_REPLY s) (DHCP_PENDING s) (PING_PENDING s) (PING_REPLY_TIME s) (PING_ID s)
    (PING_SEQ s) (RX_PACKETS s) v (tcp s) (wifi s) (nic s) (nic_locked s) (sockets_locked s) (tick s)
    (transmitted s).
Definition set_tcp (v : Tcp) (s : NetState) : NetState :=
  mkNet (OUR_IP s) (OUR_MAC s) (ARP_CACHE s) (ROUTES s) (DNS_SERVER s) (HOSTS s) (DNS_CACHE s) (DNS_REPLY s)
    (DNS_PENDING s) (DHCP_REPLY s) (DHCP_PENDING s) (PING_PENDING s) (PING_REPLY_TIME s) (PING_ID s)
    (PING_SEQ s) (RX_PACKETS s) (RX_BYTES s) v (wifi s) (nic s) (nic_locked s) (sockets_locked s) (tick s)
    (transmitted s).
Definition set_wifi (v : Wifi) (s : NetState) : NetState :=
  mkNet (OUR_IP s) (OUR_MAC s) (ARP_CACHE s) (ROUTES s) (DNS_SERVER s) (HOSTS s) (DNS_CACHE s) (DNS_REPLY s)
    (DNS_PENDING s) (DHCP_REPLY s) (DHCP_PENDING s) (PING_PENDING s) (PING_REPLY_TIME s) (PING_ID s)
    (PING_SEQ s) (RX_PACKETS s) (RX_BYTES s) (tcp s) v (nic s) (nic_locked s) (sockets_locked s) (tick s)
    (transmitted s).
Definition set_nic (v : bool) (s : NetState) : NetState :=
  mkNet (OUR_IP s) (OUR_MAC s) (ARP_CACHE s) (ROUTES s) (DNS_SERVER s) (HOSTS s) (DNS_CACHE s) (DNS_REPLY s)
    (DNS_PENDING s) (DHCP_REPLY s) (DHCP_PENDING s) (PING_PENDING s) (PING_REPLY_TIME s) (PING_ID s)
    (PING_SEQ s) (RX_PACKETS s) (RX_BYTES s) (tcp s) (wifi s) v (nic_locked s) (sockets_locked s) (tick s)
    (transmitted s).
Definition set_nic_locked (v : bool) (s : NetState) : NetState :=
  mkNet (OUR_IP s) (OUR_MAC s) (ARP_CACHE s) (ROUTES s) (DNS_SERVER s) (HOSTS s) (DNS_CACHE s) (DNS_REPLY s)
    (DNS_PENDING s) (DHCP_REPLY s) (DHCP_PENDING s) (PING_PENDING s) (PING_REPLY_TIME s) (PING_ID s)
    (PING_SEQ s) (RX_PACKETS s) (RX_BYTES s) (tcp s) (wifi s) (nic s) v (sockets_locked s) (tick s)
    (transmitted s).
Definition set_sockets_locked (v : bool) (s : NetState) : NetState :=
  mkNet (OUR_IP s) (OUR_MAC s) (ARP_CACHE s) (ROUTES s) (DNS_SERVER s) (HOSTS s) (DNS_CACHE s) (DNS_REPLY s)
    (DNS_PENDING s) (DHCP_REPLY s) (DHCP_PENDING s) (PING_PENDING s) (PING_REPLY_TIME s) (PING_ID s)
    (PING_SEQ s) (RX_PACKETS s) (RX_BYTES s) (tcp s) (wifi s) (nic s) (nic_locked s) v (tick s) (transmitted s).
Definition set_tick (v : nat) (s : NetState) : NetState :=
  mkNet (OUR_IP s) (OUR_MAC s) (ARP_CACHE s) (ROUTES s) (DNS_SERVER s) (HOSTS s) (DNS_CACHE s) (DNS_REPLY s)
    (DNS_PENDING s) (DHCP_REPLY s) (DHCP_PENDING s) (PING_PENDING s) (PING_REPLY_TIME s) (PING_ID s)
    (PING_SEQ s) (RX_PACKETS s) (RX_BYTES s) (tcp s) (wifi s) (nic s) (nic_locked s) (sockets_locked s) v
    (transmitted s).
Definition set_transmitted (v : list (list Z)) (s : NetState) : NetState :=
  mkNet (OUR_IP s) (OUR_MAC s) (ARP_CACHE s) (ROUTES s) (DNS_SERVER s) (HOSTS s) (DNS_CACHE s) (DNS_REPLY s)
    (DNS_PENDING s) (DHCP_REPLY s) (DHCP_PENDING s) (PING_PENDING s) (PING_REPLY_TIME s) (PING_ID s)
    (PING_SEQ s) (RX_PACKETS s) (RX_BYTES s) (tcp s) (wifi s) (nic s) (nic_locked s) (sockets_locked s) (tick s)
    v.

Definition modify_wifi_state (f : Wifi → Wifi) (s : NetState) : NetState := set_wifi (f (wifi s)) s.

(** ** Code that runs on the state *)

(** A call returns, waits for a lock its own caller holds, panics, or has used up
    the iterations it was given. *)
Inductive outcome (A : Type) : Type :=
| Done (a : A) (s : NetState)
| Deadlock
| Crashed
| Unfinished.
Arguments Done {A} a s.
Arguments Deadlock {A}.
Arguments Crashed {A}.
Arguments Unfinished {A}.

Definition net (A : Type) : Type := NetState → outcome A.
#[export] Instance net_ret : MRet net := λ A a s, Done a s.
#[export] Instance net_bind : MBind net := λ A B k m s,
  match m s with
  | Done a s' => k a s'
  | Deadlock => Deadlock
  | Crashed => Crashed
  | Unfinished => Unfinished
  end.

Definition gets {A} (f : NetState → A) : net A := λ s, Done (f s) s.
Definition modify (f : NetState → NetState) : net unit := λ s, Done () (f s).
Definition lift {A} (r : res A) : net A := λ s,
  match r with
  | Ret a => Done a s
  | Panic => Crashed
  | OutOfFuel => Unfinished
  end.

Definition unfinished {A} : net A := λ _, Unfinished.
Definition deadlock {A} : net A := λ _, Deadlock.

(** [spin::Mutex] is not reentrant. *)
Definition lock_nic : net unit := λ s, if nic_locked s then Deadlock else Done () (set_nic_locked true s).
Definition unlock_nic : net unit := modify (set_nic_locked false).
Definition lock_sockets : net unit := λ s,
  if sockets_locked s then Deadlock else Done () (set_sockets_locked true s).
Definition unlock_sockets : net unit := modify (set_sockets_locked false).

Definition modify_tcp (f : Tcp → Tcp) : net unit := modify (λ s, set_tcp (f (tcp s)) s).

Fixpoint for_each {A} (f : A → net unit) (l : list A) : net unit :=
  match l with
  | [] => mret ()
  | a :: l' => f a ;; for_each f l'
  end.

Lemma bind_done {A B} (k : A → net B) (m : net A) s a s' : m s = Done a s' → mbind k m s = k a s'.
Proof. intros H. unfold mbind, net_bind. by rewrite H. Qed.
Lemma bind_deadlock {A B} (k : A → net B) (m : net A) s : m s = Deadlock → mbind k m s = Deadlock.
Proof. intros H. unfold mbind, net_bind. by rewrite H. Qed.
