(* ===== verification/Net.v ===== *)
(** The operations of [kernel/src/net.rs]: caches and configuration, packet
    dispatch, the poll loop, the clients (ping, DNS, DHCP) and the TCP calls that
    transmit.

    What the outside does is an input: [env_now t] is the uptime and [env_rx t]
    the frames the device holds at the [t]-th call of [poll]. *)
From stdpp Require Import base numbers list gmap.
From S2P Require Import Prelude Bytes NetWire NetProto Tcp NetState.

(** ** Configuration and caches *)

Definition NULL_IP : list Z := [0; 0; 0; 0].
Definition BROADCAST_IP : list Z := [255; 255; 255; 255].

(** The statics before any initialisation. *)
Definition boot_state : NetState :=
  mkNet [10; 0; 2; 15] [0x52; 0x54; 0x00; 0x12; 0x34; 0x56] ∅ [] [10; 0; 2; 3] ∅ ∅ None false None false
    false 0 0 0 0 0 (mkTcpTables ∅ ∅ 49152 [])
    (mkWifi false None [] false 0xFF 1 1 0 NULL_IP (replicate 6 0) (replicate 16 0) (replicate 6 0) [])
    false false false 0 [].

Definition init_nic (mac : list Z) (s : NetState) : NetState := set_nic true (set_OUR_MAC mac s).

Definition init_routes (s : NetState) : NetState :=
  set_ROUTES (ROUTES s ++ [mkRoute NULL_IP NULL_IP [10; 0; 2; 2]]
                ++ [mkRoute [10; 0; 2; 0] [255; 255; 255; 0] NULL_IP]) s.

Definition configure_static_ip (ip netmask gw : list Z) (s : NetState) : NetState :=
  set_ROUTES [mkRoute NULL_IP NULL_IP gw; mkRoute (zip_with Z.land ip netmask) netmask NULL_IP]
    (set_OUR_IP ip s).

Definition arp_cache_lookup (ip : list Z) (s : NetState) : option (list Z) := fst <$> ARP_CACHE s !! ip.

(** ["localhost"] and ["gateway"]. *)
Definition init_hosts (s : NetState) : NetState :=
  set_HOSTS (<[[103; 97; 116; 101; 119; 97; 121] := [10; 0; 2; 2]]>
    (<[[108; 111; 99; 97; 108; 104; 111; 115; 116] := [127; 0; 0; 1]]> (HOSTS s))) s.

Definition dns_cache_flush (s : NetState) : NetState := set_DNS_CACHE ∅ s.

Section net.
Context (h : Hints) (env_now : nat → Z) (env_rx : nat → list (list Z)).

Definition uptime_ms (s : NetState) : Z := env_now (tick s).

Definition arp_cache_insert (ip mac : list Z) (s : NetState) : NetState :=
  set_ARP_CACHE (<[ip := (mac, uptime_ms s)]> (ARP_CACHE s)) s.

Definition dns_cache_insert (name ip : list Z) (ttl_secs : Z) (s : NetState) : NetState :=
  let ttl := if decide (ttl_secs = 0) then 60 else ttl_secs in
  set_DNS_CACHE (<[name := mkDnsEntry ip (add64 (uptime_ms s) (mul64 ttl 1000))]> (DNS_CACHE s)) s.

Definition dns_cache_lookup (name : list Z) : net (option (list Z)) := λ s,
  match DNS_CACHE s !! name with
  | Some e => if decide (uptime_ms s < expires e) then Done (Some (dns_ip e)) s
              else Done None (set_DNS_CACHE (delete name (DNS_CACHE s)) s)
  | None => Done None s
  end.

(** ** Packet dispatch *)

Definition handle_arp (src_mac payload : list Z) : net (option (list Z)) :=
  o ← lift (arp_parse payload);
  match o with
  | None => mret None
  | Some arp =>
      modify (arp_cache_insert (arp_spa arp) (arp_sha arp)) ;;
      if decide (arp_op arp = ARP_REPLY) then mret None
      else if decide (arp_op arp ≠ ARP_REQUEST) then mret None
      else
        s ← gets id;
        if decide (arp_tpa arp ≠ OUR_IP s ∧ arp_tpa arp ≠ WIFI_IP (wifi s)) then mret None
        else
          let reply_mac := if decide (arp_tpa arp = WIFI_IP (wifi s) ∧ WIFI_IP (wifi s) ≠ NULL_IP)
                           then WIFI_MAC (wifi s) else OUR_MAC s in
          mret (Some (eth_build src_mac reply_mac ETHERTYPE_ARP
                        (arp_build_reply reply_mac (arp_tpa arp) src_mac (arp_spa arp))))
  end.

Definition handle_udp (payload : list Z) : net (option (list Z)) :=
  o ← lift (udp_parse payload);
  match o with
  | None => mret None
  | Some udp =>
      s ← gets id;
      (if decide (udp_src_port udp = 53 ∧ DNS_PENDING s = true) then
         r ← lift (parse_dns_reply (udp_payload udp));
         match r with
         | Some (ip, _) => modify (set_DNS_REPLY (Some ip))
         | None => mret ()
         end
       else mret ()) ;;
      (if decide (udp_src_port udp = 67 ∧ udp_dst_port udp = 68 ∧ DHCP_PENDING s = true) then
         r ← lift (parse_dhcp_options (udp_payload udp));
         match r with
         | Some offer => modify (set_DHCP_REPLY (Some offer))
         | None => mret ()
         end
       else mret ()) ;;
      mret None
  end.

(** [tcp::handle_tcp_segment], under the lock of the socket table. *)
Definition tcp_input (src_mac : list Z) (iph : Ipv4Header) (raw : list Z) : net (option (list Z)) :=
  o ← lift (tcp_parse raw);
  match o with
  | None => mret None
  | Some _ =>
      lock_sockets ;;
      s ← gets id;
      r ← lift (handle_tcp_segment h (OUR_MAC s) (OUR_IP s) src_mac iph raw (tcp s));
      modify (set_tcp r.2) ;;
      unlock_sockets ;;
      mret r.1
  end.

Definition handle_icmp (src_mac : list Z) (iph : Ipv4Header) (ip_payload : list Z) : net (option (list Z)) :=
  if decide (length ip_payload < 8)%nat then mret None else
  icmp_type ← lift (index ip_payload 0);
  s ← gets id;
  if decide (icmp_type = 0 ∧ PING_PENDING s = true) then
    id ← lift (be16_at 4 ip_payload);
    seq ← lift (be16_at 6 ip_payload);
    (if decide (id = PING_ID s ∧ seq = PING_SEQ s)
     then modify (set_PING_REPLY_TIME (uptime_ms s)) else mret ()) ;;
    mret None
  else if decide (icmp_type ≠ 8) then mret None
  else
    id ← lift (be16_at 4 ip_payload);
    seq ← lift (be16_at 6 ip_payload);
    data ← lift (slice 8 (length ip_payload) ip_payload);
    icmp_reply ← lift (build_icmp_echo_reply id seq data);
    ip_part ← lift (ipv4_build IP_PROTO_ICMP (OUR_IP s) (ip_src iph) (length icmp_reply));
    mret (Some (eth_build src_mac (OUR_MAC s) ETHERTYPE_IPV4 (ip_part ++ icmp_reply))).

Definition count_rx (n : nat) (s : NetState) : NetState :=
  set_RX_BYTES (add64 (RX_BYTES s) (Z.of_nat n)) (set_RX_PACKETS (add64 (RX_PACKETS s) 1) s).

Definition handle_ipv4 (src_mac payload : list Z) : net (option (list Z)) :=
  o ← lift (ipv4_parse payload);
  match o with
  | None => mret None
  | Some iph =>
      s ← gets id;
      if decide (ip_dst iph ≠ OUR_IP s ∧ ip_dst iph ≠ WIFI_IP (wifi s) ∧ ip_dst iph ≠ BROADCAST_IP) then mret None
      else
        modify (arp_cache_insert (ip_src iph) src_mac) ;;
        modify (count_rx (length payload)) ;;
        match slice_get (ipv4_header_len iph) (Z.to_nat (total_len iph)) payload with
        | None => mret None
        | Some ip_payload =>
            if decide (proto iph = IP_PROTO_ICMP) then handle_icmp src_mac iph ip_payload
            else if decide (proto iph = IP_PROTO_UDP) then handle_udp ip_payload
            else if decide (proto iph = IP_PROTO_TCP) then tcp_input src_mac iph ip_payload
            else mret None
        end
  end.

Definition handle_frame (raw : list Z) : net (option (list Z)) :=
  o ← lift (eth_parse raw);
  match o with
  | None => mret None
  | Some eth =>
      if decide (ethertype eth = ETHERTYPE_ARP) then handle_arp (src_mac eth) (eth_payload eth)
      else if decide (ethertype eth = ETHERTYPE_IPV4) then handle_ipv4 (src_mac eth) (eth_payload eth)
      else mret None
  end.

(** ** Transmission and address resolution *)

Definition device_tx (frame : list Z) (s : NetState) : NetState :=
  set_transmitted (transmitted s ++ [frame]) s.

Definition transmit (frame : list Z) : net unit :=
  lock_nic ;;
  present ← gets nic;
  (if (present : bool) then modify (device_tx frame) else mret ()) ;;
  unlock_nic.

Definition arp_request (target_ip : list Z) : net unit :=
  s ← gets id;
  transmit (eth_build BROADCAST_MAC (OUR_MAC s) ETHERTYPE_ARP (arp_build_request (OUR_MAC s) (OUR_IP s) target_ip)).

(** The address asked for: the gateway outside the /24 of our address. *)
Definition arp_target (ip : list Z) (s : NetState) : list Z :=
  match snd <$> list_find (λ r, destination r = NULL_IP) (ROUTES s) with
  | Some r => if decide (take 3 ip = take 3 (OUR_IP s)) then ip else gateway r
  | None => ip
  end.

(** [for _ in 0..n { poll(); .. }]. *)
Fixpoint arp_wait (poll : net unit) (n : nat) (target : list Z) : net (option (list Z)) :=
  match n with
  | O => mret None
  | S n' =>
      poll ;;
      o ← gets (arp_cache_lookup target);
      match o with
      | Some mac => mret (Some mac)
      | None => arp_wait poll n' target
      end
  end.

Definition arp_resolve_for_ip (poll : net unit) (ip : list Z) : net (option (list Z)) :=
  o ← gets (arp_cache_lookup ip);
  match o with
  | Some mac => mret (Some mac)
  | None =>
      target ← gets (arp_target ip);
      o ← gets (arp_cache_lookup target);
      match o with
      | Some mac => mret (Some mac)
      | None => arp_request target ;; arp_wait poll 3000 target
      end
  end.

(** A TCP segment, resolved and transmitted. *)
Definition tcp_transmit (poll : net unit) (k : TcpSocketKey) (seq ack flags : Z) (data : list Z) : net unit :=
  s ← gets id;
  seg ← lift (tcp_build (local_port k) (remote_port k) seq ack flags 65535 (OUR_IP s) (remote_ip k) data);
  ip_hdr ← lift (ipv4_build IP_PROTO_TCP (OUR_IP s) (remote_ip k) (length seg));
  o ← arp_resolve_for_ip poll (remote_ip k);
  transmit (eth_build (default BROADCAST_MAC o) (OUR_MAC s) ETHERTYPE_IPV4 (ip_hdr ++ seg)).

(** ** The poll loop *)

Definition retransmit_one (poll : net unit) (e : TcpSocketKey * list Z) : net unit :=
  lock_sockets ;;
  o ← gets (λ s, SOCKETS (tcp s) !! e.1);
  unlock_sockets ;;
  match o with
  | Some sock => tcp_transmit poll e.1 (snd_una sock) (rcv_nxt sock) (Z.lor PSH ACK) e.2
  | None => mret ()
  end.

Definition poll_retransmit (poll : net unit) : net unit :=
  now ← gets uptime_ms;
  lock_sockets ;;
  r ← gets (λ s, retransmit_scan now (SOCKETS (tcp s)));
  modify_tcp (set_sockets r.1) ;;
  unlock_sockets ;;
  for_each (retransmit_one poll) r.2.

(** [nic.poll_rx]: the replies, in order. *)
Fixpoint handle_frames (frames : list (list Z)) : net (list (list Z)) :=
  match frames with
  | [] => mret []
  | f :: fs =>
      o ← handle_frame f;
      rs ← handle_frames fs;
      mret (option_list o ++ rs)
  end.

Definition poll_with (inner : net unit) : net unit :=
  modify (λ s, set_tick (S (tick s)) s) ;;
  lock_nic ;;
  present ← gets nic;
  if (present : bool) then
    frames ← gets (λ s, env_rx (tick s));
    replies ← handle_frames frames;
    modify (λ s, set_transmitted (transmitted s ++ replies) s) ;;
    poll_retransmit inner ;;
    unlock_nic
  else unlock_nic.

(** A nested [poll] would be called with the lock of the device held. *)
Definition poll : net unit := poll_with deadlock.

(** ** The clients *)

(** [while uptime_ms() < deadline { poll(); .. }]. *)
Fixpoint wait_while {A} (fuel : nat) (deadline : Z) (check : net (option A)) : net (option A) :=
  now ← gets uptime_ms;
  if decide (now < deadline) then
    match fuel with
    | O => unfinished
    | S fuel' =>
        poll ;;
        o ← check;
        match o with
        | Some a => mret (Some a)
        | None => wait_while fuel' deadline check
        end
    end
  else mret None.

(** [loop { poll(); ..; if uptime_ms() >= deadline { .. } }]. *)
Fixpoint wait_loop {A} (fuel : nat) (deadline : Z) (check : net (option A)) : net (option A) :=
  match fuel with
  | O => unfinished
  | S fuel' =>
      poll ;;
      o ← check;
      match o with
      | Some a => mret (Some a)
      | None =>
          now ← gets uptime_ms;
          if decide (deadline ≤ now) then mret None else wait_loop fuel' deadline check
      end
  end.

(** ["NodeAI ping"]. *)
Definition PING_DATA : list Z := [78; 111; 100; 101; 65; 73; 32; 112; 105; 110; 103].

Definition ping (fuel : nat) (dst_ip : list Z) (id seq timeout_ms : Z) : net (option Z) :=
  s ← gets Datatypes.id;
  modify (λ s, set_PING_PENDING true (set_PING_REPLY_TIME 0 (set_PING_SEQ seq (set_PING_ID id s)))) ;;
  icmp ← lift (build_icmp_echo_request id seq PING_DATA);
  ip_hdr ← lift (ipv4_build IP_PROTO_ICMP (OUR_IP s) dst_ip (length icmp));
  let hop := if decide (take 3 dst_ip = take 3 (OUR_IP s)) then dst_ip else [10; 0; 2; 2] in
  dst_mac ← gets (λ s, default BROADCAST_MAC (arp_cache_lookup hop s));
  send_time ← gets uptime_ms;
  transmit (eth_build dst_mac (OUR_MAC s) ETHERTYPE_IPV4 (ip_hdr ++ icmp)) ;;
  o ← wait_while fuel (add64 send_time timeout_ms)
        (gets (λ s, if decide (0 < PING_REPLY_TIME s) then Some (PING_REPLY_TIME s) else None));
  modify (set_PING_PENDING false) ;;
  mret ((λ t, sat_sub t send_time) <$> o).

Definition dns_query (fuel : nat) (hostname : list Z) : net (option (list Z)) :=
  s ← gets id;
  match dns_packet (Z.land (uptime_ms s) 0xFFFF) hostname with
  | None => mret None
  | Some dns =>
      let udp := udp_build 12345 53 dns in
      ip ← lift (ipv4_build IP_PROTO_UDP (OUR_IP s) (DNS_SERVER s) (length udp));
      o ← gets (arp_cache_lookup (DNS_SERVER s));
      dst_mac ← match o with
                | Some mac => mret mac
                | None =>
                    arp_request (DNS_SERVER s) ;;
                    o ← arp_wait poll 5000 (DNS_SERVER s);
                    mret (default BROADCAST_MAC o)
                end;
      modify (λ s, set_DNS_PENDING true (set_DNS_REPLY None s)) ;;
      transmit (eth_build dst_mac (OUR_MAC s) ETHERTYPE_IPV4 (ip ++ udp)) ;;
      now ← gets uptime_ms;
      o ← wait_while fuel (add64 now 3000) (gets DNS_REPLY);
      modify (set_DNS_PENDING false) ;;
      mret o
  end.

Definition resolve (fuel : nat) (hostname : list Z) : net (option (list Z)) :=
  match parse_ipv4 hostname with
  | Some ip => mret (Some ip)
  | None =>
      o ← gets (λ s, HOSTS s !! hostname);
      match o with
      | Some ip => mret (Some ip)
      | None =>
          o ← dns_cache_lookup hostname;
          match o with
          | Some ip => mret (Some ip)
          | None =>
              o ← dns_query fuel hostname;
              match o with
              | Some ip => modify (dns_cache_insert hostname ip 300) ;; mret (Some ip)
              | None => mret None
              end
          end
      end
  end.

(** A DHCP message, broadcast. *)
Definition dhcp_frame (our_mac : list Z) (msg_type : Z) (requested_ip : option (list Z)) : res (list Z) :=
  let udp := udp_build 68 67 (build_dhcp_msg msg_type our_mac requested_ip) in
  let! ip_hdr := ipv4_build IP_PROTO_UDP NULL_IP BROADCAST_IP (length udp) in
  Ret (eth_build BROADCAST_MAC our_mac ETHERTYPE_IPV4 (ip_hdr ++ udp)).

(** [DHCP_REPLY.lock().take()]. *)
Definition take_dhcp_reply : net (option DhcpOffer) := λ s, Done (DHCP_REPLY s) (set_DHCP_REPLY None s).

Definition dhcp_request (fuel : nat) : net bool :=
  our_mac ← gets OUR_MAC;
  frame ← lift (dhcp_frame our_mac DHCP_DISCOVER None);
  modify (λ s, set_DHCP_PENDING true (set_DHCP_REPLY None s)) ;;
  transmit frame ;;
  now ← gets uptime_ms;
  o ← wait_loop fuel (add64 now 5000) take_dhcp_reply;
  match o with
  | None => modify (set_DHCP_PENDING false) ;; mret false
  | Some offer =>
      frame ← lift (dhcp_frame our_mac DHCP_REQUEST (Some (your_ip offer)));
      modify (set_DHCP_REPLY None) ;;
      transmit frame ;;
      now ← gets uptime_ms;
      o ← wait_loop fuel (add64 now 5000) take_dhcp_reply;
      modify (set_DHCP_PENDING false) ;;
      match o with
      | None => mret false
      | Some ack =>
          modify (configure_static_ip (your_ip ack) (subnet ack) (dhcp_gateway ack)) ;;
          (if decide (dns ack ≠ NULL_IP) then modify (set_DNS_SERVER (dns ack)) else mret ()) ;;
          mret true
      end
  end.

(** ** TCP calls that transmit *)

Definition with_socket (key : TcpSocketKey) (f : TcpSocket → TcpSocket) : net unit :=
  modify_tcp (λ t, set_sockets (alter f key (SOCKETS t)) t).

Definition send (key : TcpSocketKey) (data : list Z) : net nat :=
  lock_sockets ;;
  o ← gets (λ s, SOCKETS (tcp s) !! key);
  match o with
  | None => unlock_sockets ;; mret 0%nat
  | Some sock =>
      if can_send sock then
        let send_data := take (length data `min` send_allowed sock) data in
        with_socket key (set_snd_nxt (add32 (snd_nxt sock) (u32 (Z.of_nat (length send_data))))) ;;
        tcp_transmit poll key (snd_nxt sock) (rcv_nxt sock) (Z.lor PSH ACK) send_data ;;
        now ← gets uptime_ms;
        with_socket key (set_sent send_data now) ;;
        unlock_sockets ;;
        mret (length send_data)
      else unlock_sockets ;; mret 0%nat
  end.

Definition close (key : TcpSocketKey) : net unit :=
  lock_sockets ;;
  o ← gets (λ s, SOCKETS (tcp s) !! key);
  match o with
  | None => unlock_sockets
  | Some sock =>
      match close_state (t_state sock) with
      | None => unlock_sockets
      | Some new_state =>
          with_socket key (λ k, set_tstate new_state (set_snd_nxt (add32 (snd_nxt k) 1) k)) ;;
          tcp_transmit poll key (snd_nxt sock) (rcv_nxt sock) (Z.lor FIN ACK) [] ;;
          unlock_sockets
      end
  end.

Inductive ConnectError := ArpFailed | ConnectTimeout.

(** [connect]'s last loop; other tasks run at [yield_cpu], they are not modelled. *)
Fixpoint connect_wait (fuel : nat) (key : TcpSocketKey) (deadline : Z) : net (Z + ConnectError) :=
  lock_sockets ;;
  o ← gets (λ s, SOCKETS (tcp s) !! key);
  unlock_sockets ;;
  if decide (t_state <$> o = Some Established) then mret (inl (local_port key)) else
  now ← gets uptime_ms;
  if decide (deadline ≤ now) then
    lock_sockets ;;
    modify_tcp (λ t, set_sockets (delete key (SOCKETS t)) t) ;;
    unlock_sockets ;;
    mret (inr ConnectTimeout)
  else
    match fuel with
    | O => unfinished
    | S fuel' => poll ;; connect_wait fuel' key deadline
    end.

Definition connect (fuel : nat) (pid : Z) (rip : list Z) (rport timeout_ms : Z) : net (Z + ConnectError) :=
  port ← gets (λ s, NEXT_EPH (tcp s));
  modify_tcp (λ t, mkTcpTables (SOCKETS t) (LISTENERS t) (next_ephemeral port) (deferred_events t)) ;;
  s ← gets id;
  o ← arp_resolve_for_ip poll rip;
  match o with
  | None => mret (inr ArpFailed)
  | Some dst_mac =>
      now ← gets uptime_ms;
      let iss := Z.lxor (u32 now) 0x13572468 in
      let key := mkSockKey port rip rport in
      lock_sockets ;;
      modify_tcp (λ t, set_sockets (<[key := new_syn_sent iss pid]> (SOCKETS t)) t) ;;
      unlock_sockets ;;
      frame ← lift (tcp_frame (OUR_MAC s) (OUR_IP s) dst_mac rip port rport iss 0 SYN 65535 []);
      transmit frame ;;
      now ← gets uptime_ms;
      connect_wait fuel key (add64 now timeout_ms)
  end.
End net.
