(* ===== verification/NetFacts.v ===== *)
(** The packet code of [Net] returns on every input and leaves the locks, the
    device and the configuration alone. *)
From stdpp Require Import base numbers list gmap.
From S2P Require Import Prelude Bytes NetWire NetWireFacts NetProto Tcp NetState Net.

(** ** Calls that return *)

Definition returns {A} (r : res A) : Prop := ∃ a, r = Ret a.

Create HintDb returns.

Lemma returns_ret {A} (a : A) : returns (Ret a).
Proof. by exists a. Qed.
Lemma returns_bind {A B} (r : res A) (k : A → res B) :
  returns r → (∀ a, r = Ret a → returns (k a)) → returns (res_bind r k).
Proof. intros [a ->] H. by apply H. Qed.
Lemma returns_slice a b l : (a ≤ b ∧ b ≤ length l)%nat → returns (slice a b l).
Proof. intros []. rewrite slice_ok by done. apply returns_ret. Qed.
Lemma returns_index {A} (l : list A) i : (i < length l)%nat → returns (index l i).
Proof. intros [x Hx]%lookup_lt_is_Some. unfold index. rewrite Hx. apply returns_ret. Qed.
Lemma returns_be16 i l : (i + 2 ≤ length l)%nat → returns (be16_at i l).
Proof. intros H. apply returns_bind; [apply returns_slice; lia|]. intros. apply returns_ret. Qed.
Lemma returns_be32 i l : (i + 4 ≤ length l)%nat → returns (be32_at i l).
Proof. intros H. apply returns_bind; [apply returns_slice; lia|]. intros. apply returns_ret. Qed.

(** Walk through a body of slices, indices and tests. *)
Ltac total :=
  repeat first
    [ apply returns_ret
    | apply returns_slice; simpl; lia
    | apply returns_index; simpl; lia
    | apply returns_be16; simpl; lia
    | apply returns_be32; simpl; lia
    | progress eauto with returns
    | case_decide
    | apply returns_bind; [|intros ? ?]
    | progress cbv zeta ].

Lemma eth_parse_total raw : returns (eth_parse raw).
Proof. unfold eth_parse. total. Qed.
Lemma arp_parse_total raw : returns (arp_parse raw).
Proof. unfold arp_parse. total. Qed.
Lemma ipv4_parse_total raw : returns (ipv4_parse raw).
Proof. unfold ipv4_parse. total. Qed.
Lemma udp_parse_total raw : returns (udp_parse raw).
Proof. unfold udp_parse. total. Qed.
Lemma tcp_parse_total raw : returns (tcp_parse raw).
Proof. unfold tcp_parse. total. Qed.

Lemma u32_is_u32 x : 0 ≤ u32 x < u32_modulus.
Proof. by apply Z.mod_pos_bound. Qed.

Lemma ipv4_checksum_total l : returns (ipv4_checksum l).
Proof.
  unfold ipv4_checksum. cbv zeta. set (sum := foldl _ _ _).
  assert (Hs : 0 ≤ sum < u32_modulus).
  { unfold sum. destruct (words16 l) as [|w ws] using rev_ind; [done|]. rewrite foldl_app. apply u32_is_u32. }
  destruct (fold_carries_spec sum Hs) as (f & -> & _). apply returns_ret.
Qed.

#[export] Hint Resolve eth_parse_total arp_parse_total ipv4_parse_total udp_parse_total tcp_parse_total
  ipv4_checksum_total : returns.

Lemma ipv4_build_total proto src dst n : returns (ipv4_build proto src dst n).
Proof. unfold ipv4_build. total. Qed.
Lemma icmp_build_total t id seq data : returns (icmp_build t id seq data).
Proof. unfold icmp_build. total. Qed.
Lemma tcp_build_total sp dp seq ack fl win src dst data : returns (tcp_build sp dp seq ack fl win src dst data).
Proof. unfold tcp_build, tcp_checksum. total. Qed.
#[export] Hint Resolve ipv4_build_total icmp_build_total tcp_build_total : returns.

Lemma tcp_frame_total m i dm di sp dp seq ack fl win data :
  returns (tcp_frame m i dm di sp dp seq ack fl win data).
Proof. unfold tcp_frame. total. Qed.
#[export] Hint Resolve tcp_frame_total : returns.

(** Name the frame a goal builds. *)
Ltac build_frame f E :=
  match goal with |- context [tcp_frame ?a ?b ?c ?d ?e ?p ?g ?i ?j ?k ?l] =>
    destruct (tcp_frame_total a b c d e p g i j k l) as [f E]; rewrite E; cbn [res_bind] end.

(** ** The DNS and DHCP parsers *)

Lemma skip_qname_total fuel data pos : (length data - pos ≤ fuel)%nat → returns (skip_qname fuel data pos).
Proof.
  revert pos. induction fuel as [|fuel IH]; intros pos Hf; simpl; total; try lia.
  apply IH. lia.
Qed.
Lemma skip_name_total fuel data pos : (length data - pos ≤ fuel)%nat → returns (skip_name fuel data pos).
Proof.
  revert pos. induction fuel as [|fuel IH]; intros pos Hf; simpl; total; try lia.
  apply IH. lia.
Qed.

Lemma dns_answers_total n data pos : returns (dns_answers n data pos).
Proof. revert pos. induction n as [|n IH]; intros pos; simpl; total. apply skip_name_total. lia. Qed.

Lemma parse_dns_reply_total data : returns (parse_dns_reply data).
Proof.
  unfold parse_dns_reply. total; [apply skip_qname_total; lia|apply dns_answers_total].
Qed.

Lemma dhcp_options_total fuel data pos o : (length data - pos ≤ fuel)%nat → returns (dhcp_options fuel data pos o).
Proof.
  revert pos o. induction fuel as [|fuel IH]; intros pos o Hf; simpl; total; try lia; apply IH; lia.
Qed.
Lemma parse_dhcp_options_total data : returns (parse_dhcp_options data).
Proof. unfold parse_dhcp_options. total. apply dhcp_options_total. lia. Qed.
#[export] Hint Resolve parse_dns_reply_total parse_dhcp_options_total : returns.

(** ** TCP input *)

Lemma tcp_state_machine_total h tcph data mac ip rmac rip s ls :
  returns (tcp_state_machine h tcph data mac ip rmac rip s ls).
Proof.
  unfold tcp_state_machine. cbv zeta. destruct (t_state s); try apply returns_ret;
    repeat (first [case_match; [total|] | total]); total.
Qed.
#[export] Hint Resolve tcp_state_machine_total : returns.

Lemma handle_tcp_segment_total h mac ip smac iph raw t : returns (handle_tcp_segment h mac ip smac iph raw t).
Proof.
  unfold handle_tcp_segment. apply returns_bind; [total|]. intros [tcph|] _; [|total].
  cbv zeta. apply returns_bind; [apply returns_slice; lia|]. intros data _.
  case_match; [total|]. case_match.
  - case_match; [total|]. apply returns_bind; [total|]. intros [r ls] _. total.
  - case_match; [total|]. case_match; total.
Qed.
#[export] Hint Resolve handle_tcp_segment_total : returns.

(** ** What packet handling leaves alone *)

Record undisturbed (s s' : NetState) : Prop := {
  same_ip : OUR_IP s' = OUR_IP s;
  same_mac : OUR_MAC s' = OUR_MAC s;
  same_routes : ROUTES s' = ROUTES s;
  same_wifi : wifi s' = wifi s;
  same_nic : nic s' = nic s ∧ nic_locked s' = nic_locked s;
  same_sockets_lock : sockets_locked s' = sockets_locked s;
  same_tick : tick s' = tick s;
  same_tx : transmitted s' = transmitted s
}.
#[export] Instance undisturbed_preorder : PreOrder undisturbed.
Proof.
  split; [by split|]. intros s1 s2 s3 [] []. split; (congruence || (split; destruct_and?; congruence)).
Qed.

(** The call returns, or it waits for the socket table its caller holds. *)
Definition quiet {A} (m : net A) : Prop :=
  ∀ s, (sockets_locked s = true ∧ m s = Deadlock) ∨ ∃ a s', m s = Done a s' ∧ undisturbed s s'.

Lemma quiet_free {A} (m : net A) s : quiet m → sockets_locked s = false →
  ∃ a s', m s = Done a s' ∧ undisturbed s s'.
Proof. intros Hm Hs. destruct (Hm s) as [[H _]|H]; [congruence|done]. Qed.

Lemma quiet_bind {A B} (m : net A) (k : A → net B) : quiet m → (∀ a, quiet (k a)) → quiet (m ≫= k).
Proof.
  intros Hm Hk s. destruct (Hm s) as [[Hs E1]|(a & s1 & E1 & U1)]; [left; split; [done|by apply bind_deadlock]|].
  destruct (Hk a s1) as [[Hs E2]|(b & s2 & E2 & U2)].
  - left. rewrite (same_sockets_lock _ _ U1) in Hs. split; [done|]. by erewrite bind_done.
  - right. exists b, s2. split; [|by transitivity s1]. by erewrite bind_done.
Qed.
Lemma quiet_ret {A} (a : A) : quiet (mret a).
Proof. intros s. right. by exists a, s. Qed.
Lemma quiet_gets {A} (f : NetState → A) : quiet (gets f).
Proof. intros s. right. by exists (f s), s. Qed.
Lemma quiet_lift {A} (r : res A) : returns r → quiet (lift r).
Proof. intros [a ->] s. right. by exists a, s. Qed.
Lemma quiet_modify f : (∀ s, undisturbed s (f s)) → quiet (modify f).
Proof. intros H s. right. by exists (), (f s). Qed.

Ltac quiet :=
  repeat first
    [ apply quiet_ret
    | apply quiet_gets
    | apply quiet_lift; by total
    | apply quiet_modify; intros ?; by split
    | assumption
    | case_decide
    | apply quiet_bind; [|intros ?]
    | case_match ].

Section quiet.
Context (h : Hints) (env_now : nat → Z) (env_rx : nat → list (list Z)).

Lemma handle_arp_quiet mac payload : quiet (handle_arp env_now mac payload).
Proof. unfold handle_arp. quiet. Qed.
Lemma handle_udp_quiet payload : quiet (handle_udp payload).
Proof. unfold handle_udp. quiet. Qed.
Lemma handle_icmp_quiet mac iph payload : quiet (handle_icmp env_now mac iph payload).
Proof. unfold handle_icmp, build_icmp_echo_reply. quiet. Qed.

Lemma tcp_input_quiet mac iph raw : quiet (tcp_input h mac iph raw).
Proof.
  intros s. unfold tcp_input. destruct (tcp_parse_total raw) as [[tcph|] E];
    (erewrite bind_done; [|rewrite E; reflexivity]); [|right; by exists None, s].
  destruct (sockets_locked s) eqn:Hs.
  { left. split; [done|]. apply bind_deadlock. unfold lock_sockets. by rewrite Hs. }
  destruct (handle_tcp_segment_total h (OUR_MAC s) (OUR_IP s) mac iph raw (tcp s)) as [r Er].
  right. exists r.1, (set_sockets_locked false (set_tcp r.2 (set_sockets_locked true s))).
  split; [|by split]. unfold lock_sockets, mbind, net_bind. rewrite Hs. cbn -[handle_tcp_segment].
  by rewrite Er.
Qed.

Lemma handle_frame_quiet raw : quiet (handle_frame h env_now raw).
Proof.
  unfold handle_frame. apply quiet_bind; [apply quiet_lift; total|]. intros [eth|]; [|quiet].
  case_decide; [apply handle_arp_quiet|]. case_decide; [|quiet].
  unfold handle_ipv4. apply quiet_bind; [apply quiet_lift; total|]. intros [iph|]; [|quiet].
  apply quiet_bind; [quiet|]. intros s. case_decide; [quiet|]. do 2 (apply quiet_bind; [quiet|intros _]).
  case_match; [|quiet].
  case_decide; [apply handle_icmp_quiet|]. case_decide; [apply handle_udp_quiet|].
  case_decide; [apply tcp_input_quiet|quiet].
Qed.

Lemma handle_frames_quiet frames : quiet (handle_frames h env_now frames).
Proof.
  induction frames as [|f fs IH]; simpl; [quiet|].
  apply quiet_bind; [apply handle_frame_quiet|intros o]. quiet.
Qed.
End quiet.
