(* ===== verification/TcpProps.v ===== *)
(** TCP as [Tcp] models it: the three-way handshake, in-order delivery of the
    peer's stream, what accepted connections do, and the deferral queue. *)
From stdpp Require Import base numbers list gmap.
From S2P Require Import Prelude Bytes NetWire NetWireFacts NetProto Tcp NetState Net NetFacts.

(** ** One segment *)

(** The header and the data of a segment, as [handle_tcp_segment] reads them. *)
Definition segment (raw : list Z) (tcph : TcpHeader) (data : list Z) : Prop :=
  tcp_parse raw = Ret (Some tcph) ∧ data = drop (tcp_header_len tcph `min` length raw) raw.
Definition key_of (iph : Ipv4Header) (tcph : TcpHeader) : TcpSocketKey :=
  mkSockKey (dst_port tcph) (ip_src iph) (src_port tcph).

Section segments.
Context (h : Hints) (mac ip : list Z).

Lemma handle_existing smac iph raw tcph data sock t :
  segment raw tcph data → flag (tcp_flags tcph) RST = false →
  SOCKETS t !! key_of iph tcph = Some sock →
  handle_tcp_segment h mac ip smac iph raw t =
    (if should_defer h (owner_pid sock) then
       Ret (None, set_deferred (deferred_events t ++ [mkDeferred smac iph raw]) t)
     else
       let! (r, ls) := tcp_state_machine h tcph data mac ip smac (ip_src iph) sock (LISTENERS t) in
       Ret (r.1, set_listeners ls (set_sockets (<[key_of iph tcph := r.2]> (SOCKETS t)) t))).
Proof.
  intros [E Ed] Hr Hk. unfold handle_tcp_segment. rewrite E. cbn [res_bind]. cbv zeta.
  rewrite slice_to_end by lia. cbn [res_bind]. rewrite Hr. fold (key_of iph tcph). rewrite Hk. by subst.
Qed.

(** A segment of another connection leaves the socket of [k] alone. *)
Lemma handle_other smac iph raw t o t' k :
  handle_tcp_segment h mac ip smac iph raw t = Ret (o, t') →
  (∀ tcph, tcp_parse raw = Ret (Some tcph) → key_of iph tcph ≠ k) →
  SOCKETS t' !! k = SOCKETS t !! k.
Proof.
  unfold handle_tcp_segment. destruct (tcp_parse_total raw) as [[tcph|] E]; rewrite E; cbn [res_bind];
    [|by intros [= _ <-]].
  cbv zeta. rewrite slice_to_end by lia. cbn [res_bind]. intros H Hk. specialize (Hk tcph eq_refl).
  fold (key_of iph tcph) in H. destruct (flag (tcp_flags tcph) RST).
  { injection H as _ <-. cbn. by apply lookup_delete_ne. }
  destruct (SOCKETS t !! key_of iph tcph) as [sock|].
  - destruct (should_defer h (owner_pid sock)); [by injection H as _ <-|].
    destruct (tcp_state_machine _ _ _ _ _ _ _ _ _) as [[r ls]| |]; try done. cbn [res_bind] in H.
    apply Ret_inj in H. simplify_eq. cbn. by apply lookup_insert_ne.
  - case_match; [|case_match; [|by injection H as _ <-]]; revert H; build_frame f Ef;
      intros H; apply Ret_inj in H; simplify_eq; [|done]. cbn. by apply lookup_insert_ne.
Qed.

(** ** What one segment does to a socket *)

(** Only [Established] takes data, and no other state a connection can be in
    after it leads back. *)
Lemma machine_not_established tcph data smac rip s ls r ls' :
  t_state s ≠ Established → t_state s ≠ SynSent → t_state s ≠ SynReceived →
  tcp_state_machine h tcph data mac ip smac rip s ls = Ret (r, ls') →
  rcv_buf r.2 = rcv_buf s ∧ t_state r.2 ≠ Established ∧ t_state r.2 ≠ SynSent ∧ t_state r.2 ≠ SynReceived.
Proof.
  unfold tcp_state_machine. cbv zeta. intros H1 H2 H3 H.
  destruct (t_state s) eqn:Es; try done; try (apply Ret_inj in H; simplify_eq; cbn; rewrite ?Es; done).
  - destruct (flag (tcp_flags tcph) FIN).
    + revert H. build_frame f Ef. intros H. apply Ret_inj in H. simplify_eq.
      by destruct (flag (tcp_flags tcph) ACK).
    + destruct (flag (tcp_flags tcph) ACK); apply Ret_inj in H; simplify_eq; cbn; rewrite ?Es; done.
  - destruct (flag (tcp_flags tcph) FIN).
    + revert H. build_frame f Ef. intros H. apply Ret_inj in H. by simplify_eq.
    + apply Ret_inj in H; simplify_eq; cbn; rewrite ?Es; done.
  - destruct (flag (tcp_flags tcph) ACK); apply Ret_inj in H; simplify_eq; cbn; rewrite ?Es; done.
Qed.

Lemma on_ack_same ack s : t_state (on_ack h ack s) = t_state s ∧ rcv_nxt (on_ack h ack s) = rcv_nxt s ∧
  rcv_buf (on_ack h ack s) = rcv_buf s ∧ snd_nxt (on_ack h ack s) = snd_nxt s ∧
  owner_pid (on_ack h ack s) = owner_pid s.
Proof. unfold on_ack. repeat case_decide; done. Qed.

(** A segment in [Established]: either its data is taken, at exactly the next
    expected byte, or the buffer stays. *)
Lemma machine_established tcph data smac rip s ls :
  t_state s = Established →
  ∃ o s', tcp_state_machine h tcph data mac ip smac rip s ls = Ret (o, s', ls) ∧ owner_pid s' = owner_pid s ∧
    if decide (data ≠ [] ∧ tcp_seq tcph = rcv_nxt s) then
      rcv_buf s' = rcv_buf s ++ data ∧
      (if flag (tcp_flags tcph) FIN then t_state s' = CloseWait
       else t_state s' = Established ∧ rcv_nxt s' = add32 (rcv_nxt s) (u32 (Z.of_nat (length data)))) ∧
      ∃ f, tcp_frame mac ip smac rip (dst_port tcph) (src_port tcph) (snd_nxt s) (rcv_nxt s') ACK 65535 [] = Ret f ∧
        o = Some f
    else
      rcv_buf s' = rcv_buf s ∧
      (if flag (tcp_flags tcph) FIN then t_state s' = CloseWait
       else t_state s' = Established ∧ rcv_nxt s' = rcv_nxt s ∧ o = None).
Proof.
  intros Hs. unfold tcp_state_machine. rewrite Hs. cbv zeta.
  set (s0 := set_snd_wnd (window tcph) s).
  set (s1 := if flag (tcp_flags tcph) ACK then on_ack h (tcp_ack tcph) s0 else s0).
  assert (H1 : t_state s1 = Established ∧ rcv_nxt s1 = rcv_nxt s ∧ rcv_buf s1 = rcv_buf s ∧
    snd_nxt s1 = snd_nxt s ∧ owner_pid s1 = owner_pid s).
  { unfold s1. destruct (flag (tcp_flags tcph) ACK); [|done].
    destruct (on_ack_same (tcp_ack tcph) s0) as (A & B & C & D & F). by rewrite A, B, C, D, F. }
  clearbody s1. destruct H1 as (H1 & H2 & H3 & H4 & H5). rewrite H2.
  rewrite <- bool_decide_not, <- bool_decide_and.
  destruct (decide (data ≠ [] ∧ tcp_seq tcph = rcv_nxt s)) as [Hd|Hd].
  - rewrite bool_decide_eq_true_2 by done.
    destruct (flag (tcp_flags tcph) FIN);
      build_frame fr Ef; eexists _, _; (split; [reflexivity|]); (split; [exact H5|]); cbn [rcv_buf t_state rcv_nxt set_tstate set_rcv_nxt set_rcv_buf];
      rewrite ?H2, ?H3; (split; [done|]); (split; [done|]); exists fr; (split; [|done]);
      rewrite <- Ef; cbn; by rewrite ?H2, ?H4.
  - rewrite bool_decide_eq_false_2 by done. destruct (flag (tcp_flags tcph) FIN).
    + build_frame fr Ef. eexists _, _. by split_and!.
    + eexists _, _. split; [reflexivity|]. by split_and!.
Qed.
End segments.

(** ** The byte stream of a connection *)

(** What happens to the socket tables: segments of any connection arrive, in any
    order and any number of times, and the socket interface is used. *)
Inductive tcp_op :=
| OpSegment (smac : list Z) (iph : Ipv4Header) (raw : list Z)
| OpRecv (k : TcpSocketKey) (n : nat)
| OpRecvVec (k : TcpSocketKey)
| OpListen (port : Z)
| OpAccept (port : Z).

Section stream.
Context (h : Hints) (mac ip : list Z) (k : TcpSocketKey).

(** One operation; [got] collects the bytes handed out for the connection [k]. *)
Definition tcp_op_step (op : tcp_op) (st : Tcp * list Z) : res (Tcp * list Z) :=
  let (t, got) := st in
  let hand (k' : TcpSocketKey) (r : list Z * Tcp) := Ret (r.2, if decide (k' = k) then got ++ r.1 else got) in
  match op with
  | OpSegment smac iph raw =>
      let! (_, t') := handle_tcp_segment h mac ip smac iph raw t in Ret (t', got)
  | OpRecv k' n => hand k' (recv k' n t)
  | OpRecvVec k' => hand k' (recv_vec k' t)
  | OpListen port => Ret (listen port t, got)
  | OpAccept port => Ret ((accept port t).2, got)
  end.
Fixpoint tcp_run (ops : list tcp_op) (st : Tcp * list Z) : res (Tcp * list Z) :=
  match ops with
  | [] => Ret st
  | op :: ops' => let! st' := tcp_op_step op st in tcp_run ops' st'
  end.

(** The stream the peer sends; its first byte has sequence number [first]. *)
Context (stream : list Z) (first : Z).

(** A segment of [k] carries bytes of the stream under their sequence number. *)
Definition genuine (op : tcp_op) : Prop :=
  match op with
  | OpSegment smac iph raw => ∀ tcph data, segment raw tcph data → key_of iph tcph = k →
      flag (tcp_flags tcph) RST = false ∧
      ∃ off, (off + length data ≤ length stream)%nat ∧ data = take (length data) (drop off stream) ∧
        tcp_seq tcph = u32 (first + Z.of_nat off)
  | _ => True
  end.

Definition stream_inv (st : Tcp * list Z) : Prop :=
  ∃ sock n, SOCKETS st.1 !! k = Some sock ∧ (n ≤ length stream)%nat ∧
    st.2 ++ rcv_buf sock = take n stream ∧
    t_state sock ≠ SynSent ∧ t_state sock ≠ SynReceived ∧
    (t_state sock = Established → rcv_nxt sock = u32 (first + Z.of_nat n)).

Context (Hlen : Z.of_nat (length stream) < u32_modulus).

Lemma same_offset a b : (a ≤ length stream)%nat → (b ≤ length stream)%nat →
  u32 (first + Z.of_nat a) = u32 (first + Z.of_nat b) → a = b.
Proof.
  intros Ha Hb E. unfold u32, u32_modulus in *.
  assert ((Z.of_nat a - Z.of_nat b) mod 4294967296 = 0) as H.
  { replace (Z.of_nat a - Z.of_nat b) with ((first + Z.of_nat a) - (first + Z.of_nat b)) by lia.
    by rewrite Zminus_mod, E, Z.sub_diag. }
  apply Z.mod_divide in H as [q Hq]; [|done]. nia.
Qed.

Lemma u32_add x y : u32 (u32 x + y) = u32 (x + y).
Proof. unfold u32. by rewrite Zplus_mod_idemp_l. Qed.
Lemma u32_add_r x y : u32 (x + u32 y) = u32 (x + y).
Proof. unfold u32. by rewrite Zplus_mod_idemp_r. Qed.

Lemma segment_inv smac iph raw tcph data st o t' :
  stream_inv st → genuine (OpSegment smac iph raw) → segment raw tcph data → key_of iph tcph = k →
  handle_tcp_segment h mac ip smac iph raw st.1 = Ret (o, t') → stream_inv (t', st.2).
Proof.
  intros (sock & n & Hk & Hn & Hb & Hs1 & Hs2 & Hr) Hg Hseg Hkey.
  destruct (Hg tcph data Hseg Hkey) as (Hrst & off & Hoff & Hdata & Hseq).
  rewrite (handle_existing h mac ip smac iph raw tcph data sock) by (rewrite ?Hkey; done).
  destruct (should_defer h (owner_pid sock)); [intros E; apply Ret_inj in E; simplify_eq; by exists sock, n|].
  intros E. destruct (decide (t_state sock = Established)) as [He|He].
  - destruct (machine_established h mac ip tcph data smac (ip_src iph) sock (LISTENERS st.1) He) as (o1 & s' & Em & _ & Hm).
    rewrite Em in E. cbn [res_bind] in E. apply Ret_inj in E. simplify_eq.
    exists s'. case_decide as Hd.
    + destruct Hd as [Hne Hsq]. destruct Hm as (Hb' & Hst & _).
      assert (off = n) as ->.
      { apply same_offset; [lia|done|]. by rewrite <- Hseq, Hsq, Hr. }
      exists (n + length data)%nat. cbn [fst snd SOCKETS set_listeners set_sockets]. rewrite Hkey, lookup_insert_eq. split_and!; [done|lia| | | |].
      * rewrite Hb', app_assoc, Hb, Hdata at 1. by rewrite take_take_drop.
      * destruct (flag _ FIN); destruct_and?; congruence.
      * destruct (flag _ FIN); destruct_and?; congruence.
      * destruct (flag _ FIN); [congruence|]. destruct Hst as [_ Hst]. intros _.
        rewrite Hst, (Hr He). unfold add32. rewrite u32_add_r, u32_add. f_equal. lia.
    + destruct Hm as (Hb' & Hst). exists n. cbn [fst snd SOCKETS set_listeners set_sockets]. rewrite Hkey, lookup_insert_eq, Hb'. split_and!; [done..| | |].
      * destruct (flag _ FIN); destruct_and?; congruence.
      * destruct (flag _ FIN); destruct_and?; congruence.
      * destruct (flag _ FIN); [congruence|]. destruct Hst as (_ & Hst & _). intros _. by rewrite Hst, (Hr He).
  - destruct (tcp_state_machine_total h tcph data mac ip smac (ip_src iph) sock (LISTENERS st.1)) as [[r ls] Em].
    rewrite Em in E. cbn [res_bind] in E. apply Ret_inj in E. simplify_eq.
    destruct (machine_not_established _ _ _ _ _ _ _ _ _ _ _ He Hs1 Hs2 Em) as (Hb' & H1 & H2 & H3).
    exists r.2, n. cbn [fst snd SOCKETS set_listeners set_sockets]. rewrite Hkey, lookup_insert_eq, Hb'. by split_and!.
Qed.

(** Handing out bytes from the front of the buffer. *)
Lemma recv_inv st k' n : stream_inv st →
  stream_inv ((recv k' n st.1).2, if decide (k' = k) then st.2 ++ (recv k' n st.1).1 else st.2).
Proof.
  intros (sock & m & Hk & Hm & Hb & H). unfold recv. case_decide as Hkk.
  - subst. rewrite Hk. eexists _, m. cbn [fst snd SOCKETS set_listeners set_sockets]. rewrite lookup_insert_eq. split; [reflexivity|]. split; [done|].
    split; [|done]. cbn. by rewrite <- app_assoc, take_drop.
  - destruct (SOCKETS st.1 !! k') as [s'|]; exists sock, m; [|done]. cbn.
    by rewrite lookup_insert_ne.
Qed.
Lemma recv_vec_inv st k' : stream_inv st →
  stream_inv ((recv_vec k' st.1).2, if decide (k' = k) then st.2 ++ (recv_vec k' st.1).1 else st.2).
Proof.
  intros (sock & m & Hk & Hm & Hb & H). unfold recv_vec. case_decide as Hkk.
  - subst. rewrite Hk. eexists _, m. cbn [fst snd SOCKETS set_listeners set_sockets]. rewrite lookup_insert_eq. split; [reflexivity|]. split; [done|].
    split; [|done]. cbn. by rewrite app_nil_r.
  - destruct (SOCKETS st.1 !! k') as [s'|]; exists sock, m; [|done]. cbn.
    by rewrite lookup_insert_ne.
Qed.

Lemma step_inv op st : stream_inv st → genuine op → ∃ st', tcp_op_step op st = Ret st' ∧ stream_inv st'.
Proof.
  destruct st as [t got]. intros Hi Hg. destruct op as [smac iph raw|k' n|k'|port|port]; cbn [tcp_op_step].
  - destruct (handle_tcp_segment_total h mac ip smac iph raw t) as [[o t'] E]. rewrite E. cbn [res_bind].
    exists (t', got). split; [done|]. destruct (tcp_parse_total raw) as [[tcph|] Ep].
    + destruct (decide (key_of iph tcph = k)) as [Hk|Hk].
      * eapply (segment_inv smac iph raw tcph _ (t, got)); [done|done|by split|done|done].
      * destruct Hi as (sock & n & Hsock & Hrest). exists sock, n. cbn in *.
        rewrite (handle_other h mac ip smac iph raw t o t' k E); [done|]. intros tcph' E'. rewrite Ep in E'. by simplify_eq.
    + unfold handle_tcp_segment in E. rewrite Ep in E. cbn in E. by simplify_eq.
  - eexists. split; [reflexivity|]. by apply (recv_inv (t, got)).
  - eexists. split; [reflexivity|]. by apply (recv_vec_inv (t, got)).
  - eexists. split; [reflexivity|]. unfold listen. by case_match.
  - eexists. split; [reflexivity|]. destruct Hi as (sock & n & Hk & Hn & Hb & H1 & H2 & H3).
    unfold accept. destruct (LISTENERS t !! port) as [[|k' q]|]; [by exists sock, n| |by exists sock, n].
    destruct (decide (k' = k)) as [->|Hne].
    + exists (set_tstate Accepted sock), n. cbn -[alter]. rewrite lookup_alter_at, decide_True by done.
      cbn in Hk. rewrite Hk. by split_and!.
    + exists sock, n. cbn -[alter]. by rewrite lookup_alter_at, decide_False by done.
Qed.

(** C24. In-order delivery. On an established connection, let the peer's segments
    carry pieces of one byte stream under their sequence numbers, and let them be
    lost, repeated and reordered in any way, mixed with segments of other
    connections and with calls of the socket interface. Then the bytes handed out
    by [recv] and [recv_vec] followed by the buffered ones are a prefix of the
    stream: nothing is skipped, repeated or invented. *)
Theorem tcp_stream_prefix (ops : list tcp_op) (t : Tcp) (sock : TcpSocket) :
  SOCKETS t !! k = Some sock → t_state sock = Established → rcv_buf sock = [] →
  rcv_nxt sock = u32 first → Forall genuine ops →
  ∃ t' got sock' n, tcp_run ops (t, []) = Ret (t', got) ∧ SOCKETS t' !! k = Some sock' ∧
    got ++ rcv_buf sock' = take n stream.
Proof.
  intros Hk Hs Hb Hr Hg.
  assert (Hrun : ∀ st, stream_inv st → ∃ st', tcp_run ops st = Ret st' ∧ stream_inv st').
  { clear Hk Hs Hb Hr. induction Hg as [|op ops Hop Hops IH]; intros st Hi; [by exists st|].
    destruct (step_inv op st Hi Hop) as (st1 & E & Hi1). destruct (IH st1 Hi1) as (st2 & E2 & Hi2).
    exists st2. split; [|done]. cbn [tcp_run]. by rewrite E. }
  destruct (Hrun (t, [])) as ([t' got] & E & (sock' & n & Hk' & _ & Hp & _)).
  { exists sock, 0%nat. cbn. rewrite Hs, Hb, Z.add_0_r. split_and!; (done || lia). }
  by exists t', got, sock', n.
Qed.

(** The segments of the stream from offset [off] on, one after the other. *)
Inductive in_order : nat → list tcp_op → Prop :=
| in_order_end : in_order (length stream) []
| in_order_next off smac iph raw tcph data ops :
    segment raw tcph data → key_of iph tcph = k →
    flag (tcp_flags tcph) RST = false → flag (tcp_flags tcph) FIN = false →
    (off + length data ≤ length stream)%nat → data = take (length data) (drop off stream) →
    tcp_seq tcph = u32 (first + Z.of_nat off) →
    in_order (off + length data) ops → in_order off (OpSegment smac iph raw :: ops).

(** C25. Complete delivery. When the segments that make up the stream arrive in
    order, none with FIN or RST, on an Established connection with an empty buffer
    whose owner's segments are not deferred, the whole stream is in the receive buffer
    afterwards, nothing is sent, and the next expected sequence number is the one after
    its last byte. (Connections taken by [accept] leave the Established state and receive
    nothing more, [accepted_is_deaf].) *)
Theorem tcp_stream_complete (ops : list tcp_op) (t : Tcp) (sock : TcpSocket) :
  SOCKETS t !! k = Some sock → t_state sock = Established → rcv_buf sock = [] →
  rcv_nxt sock = u32 first → should_defer h (owner_pid sock) = false → in_order 0 ops →
  ∃ t' sock', tcp_run ops (t, []) = Ret (t', []) ∧ SOCKETS t' !! k = Some sock' ∧
    t_state sock' = Established ∧ rcv_buf sock' = stream ∧
    rcv_nxt sock' = u32 (first + Z.of_nat (length stream)).
Proof using.
  intros Hk Hs Hb Hr Hd Ho.
  assert (Hrun : ∀ off, in_order off ops → ∀ t sock, SOCKETS t !! k = Some sock → t_state sock = Established →
    rcv_buf sock = take off stream → rcv_nxt sock = u32 (first + Z.of_nat off) →
    should_defer h (owner_pid sock) = false → (off ≤ length stream)%nat →
    ∃ t' sock', tcp_run ops (t, []) = Ret (t', []) ∧ SOCKETS t' !! k = Some sock' ∧
      t_state sock' = Established ∧ rcv_buf sock' = stream ∧
      rcv_nxt sock' = u32 (first + Z.of_nat (length stream))).
  { clear. induction 1 as [|off smac iph raw tcph data ops Hseg Hkey Hrst Hfin Hoff Hdata Hseq Ho IH];
      intros t sock Hk Hs Hb Hr Hd Hle.
    { exists t, sock. split_and!; try done. rewrite Hb. by apply take_ge. }
    cbn [tcp_run tcp_op_step]. rewrite (handle_existing h mac ip smac iph raw tcph data sock) by (rewrite ?Hkey; done).
    rewrite Hd. destruct (machine_established h mac ip tcph data smac (ip_src iph) sock (LISTENERS t) Hs)
      as (o & s' & Em & Hown & Hm). rewrite Em. cbn [res_bind fst snd]. rewrite Hfin in Hm.
    apply (IH _ s'); [by cbn; rewrite Hkey, lookup_insert_eq| | | |by rewrite Hown|done].
    all: case_decide as Hdd; [destruct Hm as (Hm1 & (Hm2 & Hm3) & _)|destruct Hm as (Hm1 & Hm2 & Hm3 & _)]; try done.
    - rewrite Hm1, Hb, Hdata at 1. by rewrite take_take_drop.
    - assert (data = []) as ->; [|by rewrite Hm1, Hb, Nat.add_0_r].
      destruct data as [|d data]; [done|]. exfalso. apply Hdd. by rewrite Hseq, Hr.
    - rewrite Hm3, Hr. unfold add32. rewrite u32_add_r, u32_add. f_equal. lia.
    - assert (data = []) as ->; [|by rewrite Hm3, Hr, Nat.add_0_r].
      destruct data as [|d data]; [done|]. exfalso. apply Hdd. by rewrite Hseq, Hr. }
  apply (Hrun 0%nat Ho t sock); [done..| |done|lia]. by rewrite Hr, Z.add_0_r.
Qed.
End stream.

(** ** Opening a connection *)

(** The three-way handshake as a server. A SYN to a listening port from an
    unknown peer is answered by a SYN-ACK with our initial number that
    acknowledges the peer's, the peer's acknowledgement of ours establishes the
    connection and queues it, and [accept] on an otherwise empty queue returns it;
    a second [accept] finds nothing. *)
Theorem handshake_accept (h : Hints) (mac ip smac : list Z) (iph : Ipv4Header) (raw1 raw2 : list Z)
    (syn ack : TcpHeader) (data1 data2 : list Z) (t : Tcp) :
  segment raw1 syn data1 → flag (tcp_flags syn) RST = false → flag (tcp_flags syn) SYN = true →
  flag (tcp_flags syn) ACK = false →
  segment raw2 ack data2 → flag (tcp_flags ack) RST = false → flag (tcp_flags ack) ACK = true →
  src_port ack = src_port syn → dst_port ack = dst_port syn → tcp_ack ack = add32 ISS 1 →
  SOCKETS t !! key_of iph syn = None → LISTENERS t !! dst_port syn = Some [] →
  ∃ f t1 t2 t3 sock,
    tcp_frame mac ip smac (ip_src iph) (dst_port syn) (src_port syn) ISS (add32 (tcp_seq syn) 1)
      (Z.lor SYN ACK) 65535 [] = Ret f ∧
    handle_tcp_segment h mac ip smac iph raw1 t = Ret (Some f, t1) ∧
    handle_tcp_segment h mac ip smac iph raw2 t1 = Ret (None, t2) ∧
    SOCKETS t2 !! key_of iph syn = Some sock ∧ t_state sock = Established ∧
    snd_una sock = snd_nxt sock ∧ rcv_nxt sock = add32 (tcp_seq syn) 1 ∧ rcv_buf sock = [] ∧
    accept (dst_port syn) t2 = (Some (key_of iph syn), t3) ∧
    (accept (dst_port syn) t3).1 = None.
Proof.
  intros [E1 D1] R1 S1 A1 Seg2 R2 A2 Hsp Hdp Hack Hk Hl.
  destruct (tcp_frame_total mac ip smac (ip_src iph) (dst_port syn) (src_port syn) ISS (add32 (tcp_seq syn) 1)
      (Z.lor SYN ACK) 65535 []) as [f Ef].
  set (k := key_of iph syn) in *. set (sock0 := new_syn_received (tcp_seq syn)).
  set (t1 := set_sockets (<[k := sock0]> (SOCKETS t)) t).
  assert (H1 : handle_tcp_segment h mac ip smac iph raw1 t = Ret (Some f, t1)).
  { unfold handle_tcp_segment. rewrite E1. cbn [res_bind]. cbv zeta. rewrite slice_to_end by lia. cbn [res_bind].
    rewrite R1. fold (key_of iph syn). fold k. rewrite Hk, S1, A1, Hl. cbn [negb andb].
    rewrite bool_decide_eq_true_2 by done. by setoid_rewrite Ef. }
  assert (Hk2 : key_of iph ack = k) by (unfold k, key_of; by rewrite Hsp, Hdp).
  set (sock := set_snd_wnd (window ack) (set_snd_una (snd_nxt sock0) (set_tstate Established sock0))).
  set (t2 := set_listeners (<[dst_port syn := [k]]> (LISTENERS t)) (set_sockets (<[k := sock]> (SOCKETS t1)) t1)).
  assert (H2 : handle_tcp_segment h mac ip smac iph raw2 t1 = Ret (None, t2)).
  { erewrite handle_existing; [|done|done|rewrite Hk2; apply lookup_insert_eq].
    rewrite Hk2. cbn [should_defer owner_pid sock0 new_syn_received]. unfold should_defer. rewrite decide_True by done.
    unfold tcp_state_machine. cbn [t_state sock0 new_syn_received snd_nxt]. rewrite A2, bool_decide_eq_true_2 by done.
    cbn [andb]. cbn [LISTENERS t1 set_sockets]. rewrite Hdp, Hl, Hsp. done. }
  eexists f, t1, t2, _, sock. split_and!; try done.
  - cbn. apply lookup_insert_eq.
  - unfold accept. cbn [LISTENERS t2 set_listeners set_sockets]. by rewrite lookup_insert_eq.
  - unfold accept. cbn [LISTENERS set_listeners set_sockets]. by rewrite lookup_insert_eq.
Qed.

(** The segments of one connection, one after the other: replies and tables. *)
Fixpoint feed (h : Hints) (mac ip : list Z) (segs : list (list Z * Ipv4Header * list Z)) (t : Tcp)
    : res (list (list Z) * Tcp) :=
  match segs with
  | [] => Ret ([], t)
  | (smac, iph, raw) :: segs' =>
      let! (o, t) := handle_tcp_segment h mac ip smac iph raw t in
      let! (fs, t) := feed h mac ip segs' t in
      Ret (option_list o ++ fs, t)
  end.

Definition belongs (k : TcpSocketKey) (seg : list Z * Ipv4Header * list Z) : Prop :=
  ∃ tcph, tcp_parse seg.2 = Ret (Some tcph) ∧ key_of seg.1.2 tcph = k ∧ flag (tcp_flags tcph) RST = false.

(** A state in which [tcp_state_machine] does nothing. *)
Definition deaf (st : TcpState) : Prop :=
  st = Accepted ∨ st = CloseWait ∨ st = TimeWait ∨ st = Closed ∨ st = Closing ∨ st = Listen.

Lemma machine_deaf h mac ip tcph data smac rip s ls : deaf (t_state s) →
  tcp_state_machine h tcph data mac ip smac rip s ls = Ret (None, s, ls).
Proof. unfold tcp_state_machine. by intros [->|[->|[->|[->|[->| ->]]]]]. Qed.

Lemma feed_deaf h mac ip k segs t sock :
  SOCKETS t !! k = Some sock → deaf (t_state sock) → Forall (belongs k) segs →
  ∃ t', feed h mac ip segs t = Ret ([], t') ∧ SOCKETS t' = SOCKETS t.
Proof.
  intros Hk Hd Hs. revert t Hk. induction Hs as [|[[smac iph] raw] segs (tcph & E & Hkey & Hr) Hs IH]; intros t Hk.
  { by exists t. }
  cbn [fst snd] in *. cbn [feed]. erewrite handle_existing; [|by split|done|by rewrite Hkey].
  destruct (should_defer h (owner_pid sock)).
  - cbn [res_bind]. edestruct IH as (t' & -> & E'); [|exists t'; split; [reflexivity|exact E']]. exact Hk.
  - rewrite machine_deaf by done. cbn [res_bind fst snd]. rewrite Hkey, insert_id by done.
    edestruct IH as (t' & -> & E'); [|exists t'; split; [reflexivity|exact E']]. exact Hk.
Qed.

(** Accepting a connection makes it deaf. Once [accept] has returned a
    connection, no segment the peer sends on it, data and FIN included, is ever
    acknowledged or changes the socket, so [recv] returns only what had arrived
    before, and [close] sends nothing and leaves the socket in the table. *)
Theorem accepted_is_deaf (h : Hints) (mac ip : list Z) (now : nat → Z) (rx : nat → list (list Z))
    (port : Z) (k : TcpSocketKey) (t t1 : Tcp) (sock : TcpSocket)
    (segs : list (list Z * Ipv4Header * list Z)) :
  accept port t = (Some k, t1) → SOCKETS t !! k = Some sock → Forall (belongs k) segs →
  ∃ t2, feed h mac ip segs t1 = Ret ([], t2) ∧
    SOCKETS t2 !! k = Some (set_tstate Accepted sock) ∧
    (∀ n, (recv k n t2).1 = take n (rcv_buf sock)) ∧
    (∀ s, sockets_locked s = false → tcp s = t2 →
       ∃ s', close h now rx k s = Done () s' ∧ tcp s' = t2 ∧ transmitted s' = transmitted s).
Proof.
  unfold accept. destruct (LISTENERS t !! port) as [[|k' q]|]; try done. intros [= -> <-] Hk Hs.
  assert (Hk1 : SOCKETS (set_sockets (alter (set_tstate Accepted) k (SOCKETS (set_listeners (<[port:=q]> (LISTENERS t)) t)))
    (set_listeners (<[port:=q]> (LISTENERS t)) t)) !! k = Some (set_tstate Accepted sock)).
  { cbn -[alter]. by rewrite lookup_alter_at, decide_True, Hk. }
  destruct (feed_deaf h mac ip k segs _ _ Hk1 (or_introl eq_refl) Hs) as (t2 & E1 & E2). exists t2.
  rewrite <- E2 in Hk1. split_and!; [exact E1|exact Hk1| |].
  - intros n. unfold recv. rewrite Hk1. cbn.
    destruct (Nat.min_spec n (length (rcv_buf sock))) as [[? ->]|[? ->]]; [done|by rewrite !take_ge by lia].
  - intros s Hl <-. unfold close. erewrite bind_done; [|unfold lock_sockets; rewrite Hl; reflexivity].
    erewrite bind_done by done. cbn [tcp set_sockets_locked]. rewrite Hk1. cbn [close_state t_state set_tstate].
    eexists. by split.
Qed.

(** A FIN that arrives early cuts the stream off. On an established
    connection, a FIN segment whose sequence number is not the next expected one
    (bytes before it are still missing) is acknowledged and closes the receiving
    side; every later segment of the connection is ignored without a reply, the
    missing bytes included. *)
Theorem early_fin_truncates (h : Hints) (mac ip smac : list Z) (iph : Ipv4Header) (raw : list Z)
    (fin : TcpHeader) (data : list Z) (t : Tcp) (sock : TcpSocket)
    (segs : list (list Z * Ipv4Header * list Z)) :
  segment raw fin data → flag (tcp_flags fin) RST = false → flag (tcp_flags fin) FIN = true →
  SOCKETS t !! key_of iph fin = Some sock → t_state sock = Established →
  should_defer h (owner_pid sock) = false → tcp_seq fin ≠ rcv_nxt sock →
  Forall (belongs (key_of iph fin)) segs →
  ∃ f t1 t2 sock', handle_tcp_segment h mac ip smac iph raw t = Ret (Some f, t1) ∧
    feed h mac ip segs t1 = Ret ([], t2) ∧ SOCKETS t2 !! key_of iph fin = Some sock' ∧
    t_state sock' = CloseWait ∧ rcv_buf sock' = rcv_buf sock.
Proof.
  intros Hseg Hr Hf Hk He Hd Hsq Hs.
  destruct (machine_established h mac ip fin data smac (ip_src iph) sock (LISTENERS t) He) as (o & s' & Em & _ & Hm).
  rewrite decide_False in Hm by (intros [_ ?]; done). rewrite Hf in Hm. destruct Hm as [Hb Hst].
  assert (Ho : is_Some o).
  { revert Em. unfold tcp_state_machine. rewrite He. cbv zeta. rewrite Hf.
    match goal with |- context [negb ?a && ?b] => destruct (negb a && b) end;
      build_frame fr Ef; intros E; apply Ret_inj in E; by simplify_eq. }
  destruct Ho as [f ->].
  assert (H1 : handle_tcp_segment h mac ip smac iph raw t =
    Ret (Some f, set_listeners (LISTENERS t) (set_sockets (<[key_of iph fin := s']> (SOCKETS t)) t))).
  { rewrite (handle_existing h mac ip smac iph raw fin data sock) by done. rewrite Hd, Em. done. }
  edestruct (feed_deaf h mac ip (key_of iph fin) segs
    (set_listeners (LISTENERS t) (set_sockets (<[key_of iph fin := s']> (SOCKETS t)) t)) s') as (t2 & E2 & S2).
  - cbn. apply lookup_insert_eq.
  - right. by left.
  - done.
  - eexists f, _, t2, s'. split_and!; [exact H1|exact E2| |done|done]. rewrite S2. cbn. apply lookup_insert_eq.
Qed.

(** ** The deferral queue *)

(** An event whose socket belongs to a process whose segments are deferred. *)
Definition sticky (h : Hints) (m : gmap TcpSocketKey TcpSocket) (ev : DeferredTcpEvent) : Prop :=
  ∃ tcph sock, tcp_parse (ev_tcp_raw ev) = Ret (Some tcph) ∧ flag (tcp_flags tcph) RST = false ∧
    m !! key_of (ev_iph ev) tcph = Some sock ∧ should_defer h (owner_pid sock) = true.

Lemma handle_sticky h mac ip ev t : sticky h (SOCKETS t) ev →
  handle_tcp_segment h mac ip (ev_src_mac ev) (ev_iph ev) (ev_tcp_raw ev) t =
    Ret (None, set_deferred (deferred_events t ++ [ev]) t).
Proof.
  intros (tcph & sock & E & Hr & Hk & Hd). erewrite handle_existing; [|by split|done|done].
  rewrite Hd. by destruct ev.
Qed.

Lemma handle_no_deferral h mac ip smac iph raw t o t' :
  (∀ pid, score_over_half h pid = false) →
  handle_tcp_segment h mac ip smac iph raw t = Ret (o, t') → deferred_events t' = deferred_events t.
Proof.
  intros Hh. unfold handle_tcp_segment. destruct (tcp_parse_total raw) as [[tcph|] ->]; cbn [res_bind];
    [|by intros [= _ <-]].
  cbv zeta. rewrite slice_to_end by lia. cbn [res_bind].
  destruct (flag (tcp_flags tcph) RST); [by intros [= _ <-]|].
  destruct (SOCKETS t !! _) as [sock|].
  - replace (should_defer h (owner_pid sock)) with false by (unfold should_defer; by case_decide).
    destruct (tcp_state_machine _ _ _ _ _ _ _ _ _) as [[r ls]| |]; try done. cbn [res_bind].
    intros H. apply Ret_inj in H. by simplify_eq.
  - case_match; [|case_match; [|by intros [= _ <-]]];
      build_frame fr Ef; intros H'; apply Ret_inj in H'; by simplify_eq.
Qed.

(** When flushing the deferral queue ends. If no process's score is over the
    threshold, it returns with the queue empty after one iteration per event. If
    every queued event belongs to a connection whose owner's score is still over
    it, it never ends: each event is put back at the end of the queue, so no
    number of iterations is enough. *)
Theorem flush_termination (h : Hints) (mac ip : list Z) (t : Tcp) :
  ((∀ pid, score_over_half h pid = false) →
     ∃ fs t', flush h (length (deferred_events t)) mac ip t = Ret (fs, t') ∧ deferred_events t' = []) ∧
  (deferred_events t ≠ [] → Forall (sticky h (SOCKETS t)) (deferred_events t) →
     ∀ fuel, flush h fuel mac ip t = OutOfFuel).
Proof.
  split.
  - intros Hh. remember (deferred_events t) as q eqn:Hq. symmetry in Hq.
    revert t Hq. induction q as [|ev q IH]; intros t Hq; [exists [], t; simpl; by rewrite Hq|].
    cbn [length flush]. rewrite Hq.
    destruct (handle_tcp_segment_total h mac ip (ev_src_mac ev) (ev_iph ev) (ev_tcp_raw ev) (set_deferred q t)) as [[o t1] E].
    rewrite E. cbn [res_bind].
    destruct (IH t1) as (fs & t2 & -> & Hq2); [by rewrite (handle_no_deferral _ _ _ _ _ _ _ _ _ Hh E)|].
    exists (option_list o ++ fs), t2. by split.
  - intros Hne Hs fuel. revert t Hne Hs. induction fuel as [|fuel IH]; intros t Hne Hs;
      destruct (deferred_events t) as [|ev q] eqn:Hq; try done; cbn [flush]; rewrite Hq; [done|].
    apply Forall_cons in Hs as [Hev Hs]. rewrite handle_sticky by done. cbn [res_bind].
    rewrite IH; [done| |].
    + cbn. by destruct q.
    + cbn. apply Forall_app. by split; [|constructor].
Qed.

(** ** A concrete connection *)

Definition demo_hints (over : bool) : Hints := mkHints (λ _, over) (λ _, false) (λ _, 0).
Definition demo_iph : Ipv4Header := mkIpv4 5 0 60 1 0x4000 64 6 0 [10; 0; 2; 2] [10; 0; 2; 15].
Definition demo_raw (seq ack flags : Z) (data : list Z) : list Z :=
  match tcp_build 5000 80 seq ack flags 65535 [10; 0; 2; 2] [10; 0; 2; 15] data with Ret r => r | _ => [] end.
Definition demo_key : TcpSocketKey := mkSockKey 80 [10; 0; 2; 2] 5000.
Definition demo_sock (st : TcpState) (pid : Z) : TcpSocket :=
  mkSock st 500 500 1000 65535 [] MSS 65535 0 1000 [] pid 100.
Definition demo_tcp (st : TcpState) (pid : Z) : Tcp :=
  mkTcpTables {[demo_key := demo_sock st pid]} {[80 := [demo_key]]} 49152 [].
Definition demo_stream : list Z := [1; 2; 3; 4; 5].
Definition demo_seg (off : Z) (data : list Z) : tcp_op :=
  OpSegment [2; 2; 2; 2; 2; 2] demo_iph (demo_raw (1000 + off) 500 ACK data).

Definition demo_header (raw : list Z) : TcpHeader :=
  match tcp_parse raw with Ret (Some x) => x | _ => mkTcp 0 0 0 0 0 0 0 0 0 end.

Lemma demo_segment raw tcph data : tcp_parse raw = Ret (Some (demo_header raw)) →
  segment raw tcph data →
  tcph = demo_header raw ∧ data = drop (tcp_header_len (demo_header raw) `min` length raw) raw.
Proof. intros E [E' ->]. rewrite E in E'. by simplify_eq. Qed.

(** Offset, data and header of a concrete segment agree. *)
Definition demo_check (off : nat) (data : list Z) : bool :=
  let raw := demo_raw (1000 + Z.of_nat off) 500 ACK data in
  let tcph := demo_header raw in
  bool_decide (key_of demo_iph tcph = demo_key) &&
  negb (flag (tcp_flags tcph) RST) && negb (flag (tcp_flags tcph) FIN) &&
  bool_decide (tcp_seq tcph = 1000 + Z.of_nat off) &&
  bool_decide (drop (tcp_header_len tcph `min` length raw) raw = data) &&
  bool_decide (off + length data ≤ 5)%nat && bool_decide (data = take (length data) (drop off demo_stream)).

Lemma demo_facts (off : nat) data :
  tcp_parse (demo_raw (1000 + Z.of_nat off) 500 ACK data) =
    Ret (Some (demo_header (demo_raw (1000 + Z.of_nat off) 500 ACK data))) →
  demo_check off data = true →
  genuine demo_key demo_stream 1000 (demo_seg (Z.of_nat off) data) ∧
  ∀ ops, in_order demo_key demo_stream 1000 (off + length data) ops →
    in_order demo_key demo_stream 1000 off (demo_seg (Z.of_nat off) data :: ops).
Proof.
  unfold demo_check. cbv zeta. set (raw := demo_raw _ _ _ _). intros E. rewrite !andb_true_iff, !negb_true_iff, !bool_decide_eq_true.
  intros ((((((Hkey & Hr) & Hf) & Hs) & Hd) & Hl) & Ht).
  assert (Hseq : tcp_seq (demo_header raw) = u32 (1000 + Z.of_nat off)).
  { rewrite Hs. symmetry. apply Z.mod_small. unfold u32_modulus. lia. }
  split.
  - intros tcph' data' Hseg _. destruct (demo_segment _ _ _ E Hseg) as [-> ->]. rewrite Hd. eauto.
  - intros ops Ho. eapply in_order_next; [split; [exact E|]|exact Hkey|done|done|done|done|done|done]. symmetry. exact Hd.
Qed.

(** The end of the stream arrives first, is sent again, and the start is read
    before it comes. *)
Definition demo_ops : list tcp_op :=
  [demo_seg 3 [4; 5]; demo_seg 0 [1; 2; 3]; OpRecv demo_key 2; demo_seg 3 [4; 5]].

Lemma tcp_stream_prefix_witness :
  ∃ t' got sock' n, tcp_run (demo_hints false) [] [10; 0; 2; 15] demo_key demo_ops (demo_tcp Established 0, []) = Ret (t', got) ∧
    SOCKETS t' !! demo_key = Some sock' ∧ got ++ rcv_buf sock' = take n demo_stream.
Proof.
  apply (tcp_stream_prefix (demo_hints false) [] [10; 0; 2; 15] demo_key demo_stream 1000 eq_refl demo_ops
    (demo_tcp Established 0) (demo_sock Established 0)); try reflexivity.
  assert (G3 : genuine demo_key demo_stream 1000 (demo_seg 3 [4; 5])) by
    (apply (demo_facts 3 [4; 5]); vm_compute; reflexivity).
  assert (G0 : genuine demo_key demo_stream 1000 (demo_seg 0 [1; 2; 3])) by
    (apply (demo_facts 0 [1; 2; 3]); vm_compute; reflexivity).
  apply Forall_cons; split; [exact G3|]. apply Forall_cons; split; [exact G0|].
  apply Forall_cons; split; [exact I|]. apply Forall_cons; split; [exact G3|]. apply Forall_nil_2.
Defined.

Lemma tcp_stream_complete_witness :
  ∃ t' sock', tcp_run (demo_hints false) [] [10; 0; 2; 15] demo_key [demo_seg 0 [1; 2; 3]; demo_seg 3 [4; 5]]
      (demo_tcp Established 0, []) = Ret (t', []) ∧
    SOCKETS t' !! demo_key = Some sock' ∧ t_state sock' = Established ∧ rcv_buf sock' = demo_stream ∧
    rcv_nxt sock' = u32 (1000 + Z.of_nat (length demo_stream)).
Proof.
  apply (tcp_stream_complete (demo_hints false) [] [10; 0; 2; 15] demo_key demo_stream 1000 _
    (demo_tcp Established 0) (demo_sock Established 0)); try reflexivity.
  apply (demo_facts 0 [1; 2; 3]); [vm_compute; reflexivity..|].
  apply (demo_facts 3 [4; 5]); [vm_compute; reflexivity..|]. apply in_order_end.
Defined.

Lemma handshake_accept_witness :
  let raw1 := demo_raw 999 0 SYN [] in let raw2 := demo_raw 1000 (add32 ISS 1) ACK [] in
  let t := mkTcpTables ∅ {[80 := []]} 49152 [] in
  ∃ f t1 t2, handle_tcp_segment (demo_hints false) [1; 1; 1; 1; 1; 1] [10; 0; 2; 15] [2; 2; 2; 2; 2; 2] demo_iph raw1 t = Ret (Some f, t1) ∧
    handle_tcp_segment (demo_hints false) [1; 1; 1; 1; 1; 1] [10; 0; 2; 15] [2; 2; 2; 2; 2; 2] demo_iph raw2 t1 = Ret (None, t2) ∧
    (accept 80 t2).1 = Some demo_key.
Proof.
  intros raw1 raw2 t.
  destruct (handshake_accept (demo_hints false) [1; 1; 1; 1; 1; 1] [10; 0; 2; 15] [2; 2; 2; 2; 2; 2] demo_iph raw1 raw2
    (demo_header raw1) (demo_header raw2) [] [] t) as (f & t1 & t2 & t3 & sock & _ & H1 & H2 & _ & _ & _ & _ & _ & H3 & _);
    [split; vm_compute; reflexivity|vm_compute; reflexivity|vm_compute; reflexivity|vm_compute; reflexivity|split; vm_compute; reflexivity|vm_compute; reflexivity..|].
  exists f, t1, t2. split; [exact H1|]. split; [exact H2|].
  change 80 with (dst_port (demo_header raw1)). rewrite H3. vm_compute. reflexivity.
Defined.

Definition demo_belongs (seq flags : Z) (data : list Z) : list Z * Ipv4Header * list Z :=
  ([2; 2; 2; 2; 2; 2], demo_iph, demo_raw seq 500 flags data).

Lemma demo_belongs_ok seq flags data :
  tcp_parse (demo_raw seq 500 flags data) = Ret (Some (demo_header (demo_raw seq 500 flags data))) →
  key_of demo_iph (demo_header (demo_raw seq 500 flags data)) = demo_key →
  flag (tcp_flags (demo_header (demo_raw seq 500 flags data))) RST = false →
  belongs demo_key (demo_belongs seq flags data).
Proof. intros H1 H2 H3. by exists (demo_header (demo_raw seq 500 flags data)). Qed.

Lemma accepted_is_deaf_witness :
  ∃ t2, feed (demo_hints false) [] [10; 0; 2; 15] [demo_belongs 1000 ACK [1; 2; 3]; demo_belongs 1003 (Z.lor FIN ACK) []]
      (accept 80 (demo_tcp Established 0)).2 = Ret ([], t2) ∧
    SOCKETS t2 !! demo_key = Some (demo_sock Accepted 0).
Proof.
  destruct (accepted_is_deaf (demo_hints false) [] [10; 0; 2; 15] (λ _, 0) (λ _, []) 80 demo_key (demo_tcp Established 0)
    (accept 80 (demo_tcp Established 0)).2 (demo_sock Established 0)
    [demo_belongs 1000 ACK [1; 2; 3]; demo_belongs 1003 (Z.lor FIN ACK) []]) as (t2 & H1 & H2 & _);
    [vm_compute; reflexivity..| |exists t2; split; [exact H1|exact H2]].
  apply Forall_cons; split; [apply demo_belongs_ok; vm_compute; reflexivity|].
  apply Forall_cons; split; [apply demo_belongs_ok; vm_compute; reflexivity|]. apply Forall_nil_2.
Defined.

Lemma early_fin_truncates_witness :
  ∃ f t1 t2 sock', handle_tcp_segment (demo_hints false) [] [10; 0; 2; 15] [2; 2; 2; 2; 2; 2] demo_iph
      (demo_raw 1003 500 (Z.lor FIN ACK) []) (demo_tcp Established 0) = Ret (Some f, t1) ∧
    feed (demo_hints false) [] [10; 0; 2; 15] [demo_belongs 1000 ACK [1; 2; 3]] t1 = Ret ([], t2) ∧
    SOCKETS t2 !! demo_key = Some sock' ∧ rcv_buf sock' = [].
Proof.
  destruct (early_fin_truncates (demo_hints false) [] [10; 0; 2; 15] [2; 2; 2; 2; 2; 2] demo_iph
    (demo_raw 1003 500 (Z.lor FIN ACK) []) (demo_header (demo_raw 1003 500 (Z.lor FIN ACK) [])) []
    (demo_tcp Established 0) (demo_sock Established 0) [demo_belongs 1000 ACK [1; 2; 3]])
    as (f & t1 & t2 & sock' & H1 & H2 & H3 & _ & H5); [split; vm_compute; reflexivity|vm_compute; reflexivity..|vm_compute; discriminate| |].
  - apply Forall_cons; split; [apply demo_belongs_ok; vm_compute; reflexivity|apply Forall_nil_2].
  - exists f, t1, t2, sock'. split; [exact H1|]. split; [exact H2|]. split; [exact H3|exact H5].
Defined.

Lemma flush_termination_witness :
  let t := set_deferred [mkDeferred [] demo_iph (demo_raw 1000 500 ACK [1])] (demo_tcp Established 7) in
  flush (demo_hints true) 1000 [] [10; 0; 2; 15] t = OutOfFuel.
Proof.
  intros t. apply (flush_termination (demo_hints true) [] [10; 0; 2; 15] t); [discriminate|].
  apply Forall_cons; split; [|apply Forall_nil_2].
  exists (demo_header (demo_raw 1000 500 ACK [1])), (demo_sock Established 7).
  split; [vm_compute; reflexivity|]. split; [vm_compute; reflexivity|]. split; vm_compute; reflexivity.
Defined.
