(* ===== verification/NetProps.v ===== *)
(** What the network code of [Net] does as a whole: packet handling is total, the
    poll loop and [send] return or deadlock, an echo request is answered. *)
From stdpp Require Import base numbers list gmap sorting.
From S2P Require Import Prelude Bytes NetWire NetWireFacts NetProto Tcp NetState Net NetFacts TcpProps.

Section poll.
Context (h : Hints) (env_now : nat → Z) (env_rx : nat → list (list Z)).

(** C26. No received frame, whatever its bytes, makes packet handling panic, loop
    or block: with the socket table free, [handle_frame] returns, and it changes
    neither our addresses, the routes, the device, the clock nor a lock. *)
Theorem handle_frame_safe (raw : list Z) (s : NetState) :
  sockets_locked s = false →
  ∃ reply s', handle_frame h env_now raw s = Done reply s' ∧ undisturbed s s'.
Proof. apply quiet_free, handle_frame_quiet. Qed.

(** ** Transmission *)

Lemma transmit_locked f s : nic_locked s = true → transmit f s = Deadlock.
Proof. intros H. unfold transmit. apply bind_deadlock. unfold lock_nic. by rewrite H. Qed.

Lemma transmit_free f s : nic s = true → nic_locked s = false →
  transmit f s = Done () (set_nic_locked false (device_tx f (set_nic_locked true s))).
Proof.
  intros Hn Hl. unfold transmit, lock_nic, mbind, net_bind. rewrite Hl. cbn. by rewrite Hn.
Qed.

Lemma arp_request_locked ip s : nic_locked s = true → arp_request ip s = Deadlock.
Proof. intros H. unfold arp_request. erewrite bind_done by done. by apply transmit_locked. Qed.

(** With the device locked, resolving an address answers from the cache or hangs. *)
Lemma arp_resolve_locked p ip s : nic_locked s = true →
  arp_resolve_for_ip p ip s = Deadlock ∨ ∃ mac, arp_resolve_for_ip p ip s = Done (Some mac) s.
Proof.
  intros H. unfold arp_resolve_for_ip. erewrite bind_done by done.
  destruct (arp_cache_lookup ip s) as [mac|]; [right; by exists mac|].
  erewrite bind_done by done. cbv beta. erewrite bind_done by done.
  destruct (arp_cache_lookup _ s) as [mac|]; [right; by exists mac|].
  left. apply bind_deadlock. by apply arp_request_locked.
Qed.

Lemma tcp_transmit_locked p k seq ack fl data s : nic_locked s = true →
  tcp_transmit p k seq ack fl data s = Deadlock.
Proof.
  intros H. unfold tcp_transmit. erewrite bind_done by done. cbv beta.
  destruct (tcp_build_total (local_port k) (remote_port k) seq ack fl 65535 (OUR_IP s) (remote_ip k) data) as [seg Es].
  erewrite bind_done; [|cbn [Datatypes.id]; rewrite Es; reflexivity].
  destruct (ipv4_build_total IP_PROTO_TCP (OUR_IP s) (remote_ip k) (length seg)) as [ip Ei].
  erewrite bind_done; [|cbn [Datatypes.id]; rewrite Ei; reflexivity].
  destruct (arp_resolve_locked p (remote_ip k) s H) as [E|[mac E]].
  - by apply bind_deadlock.
  - erewrite bind_done by exact E. by apply transmit_locked.
Qed.

(** ** The poll loop *)

Definition due (now : Z) (t : Tcp) : Prop :=
  ∃ k sock, SOCKETS t !! k = Some sock ∧ retransmit_due now sock = true.

Lemma retransmit_todo now m k data : (k, data) ∈ (retransmit_scan now m).2 →
  ∃ sock, m !! k = Some sock ∧ retransmit_due now sock = true.
Proof.
  cbn [retransmit_scan snd]. intros ([k' sock] & [= -> ->] & Hin)%list_elem_of_fmap.
  apply list_elem_of_filter in Hin as [Hd Hin]. apply elem_of_btree_list in Hin. by exists sock.
Qed.

Lemma retransmit_none now t : ¬ due now t → retransmit_scan now (SOCKETS t) = (SOCKETS t, []).
Proof.
  intros Hd. unfold retransmit_scan. f_equal.
  - rewrite <- (map_fmap_id (SOCKETS t)) at 2. apply map_fmap_ext. intros k sock Hk.
    destruct (retransmit_due now sock) eqn:E; [|done]. exfalso. apply Hd. by exists k, sock.
  - destruct (filter _ _) as [|[k sock] l] eqn:E; [done|]. exfalso. apply Hd.
    assert (Hin : (k, sock) ∈ filter (λ p, retransmit_due now p.2 = true) (btree_list sock_key_le (SOCKETS t)))
      by (rewrite E; left).
    apply list_elem_of_filter in Hin as [? Hin]. apply elem_of_btree_list in Hin. by exists k, sock.
Qed.

Lemma retransmit_some now t : due now t → ∃ e l, (retransmit_scan now (SOCKETS t)).2 = e :: l.
Proof.
  intros (k & sock & Hk & Hd). destruct (retransmit_scan now (SOCKETS t)).2 as [|e l] eqn:E; [|by exists e, l].
  exfalso. cbn [retransmit_scan snd] in E. apply fmap_nil_inv in E.
  assert (Hin : (k, sock) ∈ filter (λ p, retransmit_due now p.2 = true) (btree_list sock_key_le (SOCKETS t)))
    by (apply list_elem_of_filter; split; [done|by apply elem_of_btree_list]).
  rewrite E in Hin. by apply not_elem_of_nil in Hin.
Qed.

(** Called with the device locked and the socket table free. *)
Lemma poll_retransmit_outcome p s : nic_locked s = true → sockets_locked s = false →
  (due (env_now (tick s)) (tcp s) → poll_retransmit env_now p s = Deadlock) ∧
  (¬ due (env_now (tick s)) (tcp s) → poll_retransmit env_now p s = Done () s).
Proof.
  intros Hn Hs. unfold poll_retransmit, lock_sockets, mbind, net_bind.
  unfold gets, modify_tcp, unlock_sockets, modify. rewrite Hs. cbn -[retransmit_scan]. split.
  - intros Hd. destruct (retransmit_some _ _ Hd) as (e & l & E).
    destruct (retransmit_todo (env_now (tick s)) (SOCKETS (tcp s)) e.1 e.2) as (sock & Hk & Hdue).
    { rewrite E. destruct e. left. }
    unfold uptime_ms. cbn -[retransmit_scan]. rewrite E. cbn [for_each]. apply bind_deadlock.
    unfold retransmit_one. erewrite bind_done by done. erewrite bind_done by done.
    erewrite bind_done by done. cbn -[retransmit_scan].
    unfold retransmit_scan. cbn [fst]. rewrite lookup_fmap, Hk. by apply tcp_transmit_locked.
  - intros Hd. unfold uptime_ms. cbn -[retransmit_scan]. rewrite retransmit_none by done.
    destruct s as [? ? ? ? ? ? ? ? ? ? ? ? ? ? ? ? ? [] ? ? ? ? ? ?]. cbn in *. by subst.
Qed.

(** The state in which a poll handles its frames, and the state after them. *)
Definition polling (s : NetState) : NetState := set_nic_locked true (set_tick (S (tick s)) s).

Lemma poll_with_outcome p s replies s2 : nic s = true → nic_locked s = false → sockets_locked s = false →
  handle_frames h env_now (env_rx (S (tick s))) (polling s) = Done replies s2 →
  (due (env_now (S (tick s))) (tcp s2) → poll_with h env_now env_rx p s = Deadlock) ∧
  (¬ due (env_now (S (tick s))) (tcp s2) → poll_with h env_now env_rx p s =
     Done () (set_nic_locked false (set_transmitted (transmitted s ++ replies) s2))).
Proof.
  intros Hn Hl Hs E. destruct (quiet_free _ (polling s) (handle_frames_quiet h env_now (env_rx (S (tick s)))) Hs) as (r & s2' & E' & U).
  rewrite E in E'. injection E' as <- <-.
  assert (Hpoll : poll_with h env_now env_rx p s =
    (poll_retransmit env_now p ;; unlock_nic) (set_transmitted (transmitted s2 ++ replies) s2)).
  { unfold poll_with. erewrite bind_done by done. cbv beta. erewrite bind_done; [|unfold lock_nic; cbn; by rewrite Hl].
    erewrite bind_done by done. cbv beta. cbn [nic set_nic_locked set_tick]. rewrite Hn.
    erewrite bind_done by done. cbv beta. erewrite bind_done by exact E. by erewrite bind_done by done. }
  rewrite Hpoll. destruct U as [_ _ _ _ [_ U2] U3 U4 U5]. cbn in U2, U3, U4, U5.
  destruct (poll_retransmit_outcome p (set_transmitted (transmitted s2 ++ replies) s2)) as [H1 H2]; [done|exact (eq_trans U3 Hs)|].
  cbn [tick tcp set_transmitted] in H1, H2. rewrite U4 in H1, H2. split; intros Hd.
  - by apply bind_deadlock, H1.
  - erewrite bind_done by (by apply H2). by rewrite U5.
Qed.

(** One poll with a device present and no lock held. It handles the waiting
    frames; then, if no retransmission is due, it returns with the replies
    transmitted in order and the device unlocked, and if one is due it never
    returns, because the retransmission locks the device the poll still holds.
    So a nested poll is never reached. *)
Theorem poll_outcome (s : NetState) :
  nic s = true → nic_locked s = false → sockets_locked s = false →
  ∃ replies s2, handle_frames h env_now (env_rx (S (tick s))) (polling s) = Done replies s2 ∧
    (due (env_now (S (tick s))) (tcp s2) → poll h env_now env_rx s = Deadlock) ∧
    (¬ due (env_now (S (tick s))) (tcp s2) → poll h env_now env_rx s =
       Done () (set_nic_locked false (set_transmitted (transmitted s ++ replies) s2))) ∧
    (∀ p, poll_with h env_now env_rx p s = poll h env_now env_rx s).
Proof.
  intros Hn Hl Hs.
  destruct (quiet_free _ (polling s) (handle_frames_quiet h env_now (env_rx (S (tick s)))) Hs) as (replies & s2 & E & U).
  exists replies, s2. split; [done|].
  destruct (poll_with_outcome deadlock s replies s2 Hn Hl Hs E) as [H1 H2].
  split_and!; [exact H1|exact H2|]. intros p. destruct (poll_with_outcome p s replies s2 Hn Hl Hs E) as [H3 H4].
  destruct (decide (Exists (λ e, retransmit_due (env_now (S (tick s))) e.2 = true) (map_to_list (SOCKETS (tcp s2))))) as [Hd|Hd].
  - assert (due (env_now (S (tick s))) (tcp s2)).
    { apply Exists_exists in Hd as ([k sock] & Hin & Hdue). apply elem_of_map_to_list in Hin. by exists k, sock. }
    unfold poll. by rewrite H1, H3.
  - assert (¬ due (env_now (S (tick s))) (tcp s2)).
    { intros (k & sock & Hk & Hdue). apply Hd, Exists_exists. exists (k, sock). by rewrite elem_of_map_to_list. }
    unfold poll. by rewrite H2, H4.
Qed.

(** Polling with the socket table locked hangs. *)
Lemma poll_sockets_locked s : nic s = true → nic_locked s = false → sockets_locked s = true →
  poll h env_now env_rx s = Deadlock.
Proof.
  intros Hn Hl Hs. unfold poll, poll_with. erewrite bind_done by done. cbv beta.
  erewrite bind_done; [|unfold lock_nic; cbn; by rewrite Hl].
  erewrite bind_done by done. cbv beta. cbn [nic set_nic_locked set_tick]. rewrite Hn.
  erewrite bind_done by done. cbv beta.
  destruct (handle_frames_quiet h env_now (env_rx (S (tick s))) (polling s)) as [[_ E]|(r & s2 & E & U)].
  { by apply bind_deadlock. }
  erewrite bind_done by exact E. erewrite bind_done by done. apply bind_deadlock.
  unfold poll_retransmit. erewrite bind_done by done. apply bind_deadlock.
  unfold lock_sockets. cbn. by rewrite (eq_trans (same_sockets_lock _ _ U) Hs).
Qed.

(** ** Sending *)

(** The address [arp_resolve_for_ip] finds without asking. *)
Definition cached_mac (ip : list Z) (s : NetState) : option (list Z) :=
  match arp_cache_lookup ip s with
  | Some mac => Some mac
  | None => arp_cache_lookup (arp_target ip s) s
  end.

Lemma arp_resolve_cached p ip mac s : cached_mac ip s = Some mac →
  arp_resolve_for_ip p ip s = Done (Some mac) s.
Proof.
  unfold cached_mac, arp_resolve_for_ip. erewrite bind_done by done.
  destruct (arp_cache_lookup ip s) as [m|]; [by intros [= ->]|]. intros H.
  erewrite bind_done by done. erewrite bind_done by done. by rewrite H.
Qed.

Lemma arp_resolve_sockets_locked ip s : cached_mac ip s = None →
  nic s = true → nic_locked s = false → sockets_locked s = true →
  arp_resolve_for_ip (poll h env_now env_rx) ip s = Deadlock.
Proof.
  unfold cached_mac, arp_resolve_for_ip. intros H Hn Hl Hs. erewrite bind_done by done.
  destruct (arp_cache_lookup ip s) as [m|]; [done|].
  erewrite bind_done by done. erewrite bind_done by done. rewrite H. cbv beta.
  erewrite bind_done; [|unfold arp_request; erewrite bind_done by done; by apply transmit_free].
  change 3000%nat with (S 2999). cbn [arp_wait]. apply bind_deadlock. by apply poll_sockets_locked.
Qed.

Definition after_send (d : list Z) (now : Z) (sock : TcpSocket) : TcpSocket :=
  set_sent d now (set_snd_nxt (add32 (snd_nxt sock) (u32 (Z.of_nat (length d)))) sock).

(** [tcp_transmit] under the lock of the socket table. *)
Lemma tcp_transmit_outcome k seq ack fl data s :
  nic s = true → nic_locked s = false → sockets_locked s = true →
  match cached_mac (remote_ip k) s with
  | Some mac => ∃ frame,
      tcp_frame (OUR_MAC s) (OUR_IP s) mac (remote_ip k) (local_port k) (remote_port k) seq ack fl 65535 data = Ret frame ∧
      tcp_transmit (poll h env_now env_rx) k seq ack fl data s =
        Done () (set_nic_locked false (device_tx frame (set_nic_locked true s)))
  | None => tcp_transmit (poll h env_now env_rx) k seq ack fl data s = Deadlock
  end.
Proof.
  intros Hn Hl Hs. unfold tcp_transmit, tcp_frame. erewrite bind_done by done. cbn [Datatypes.id].
  destruct (tcp_build_total (local_port k) (remote_port k) seq ack fl 65535 (OUR_IP s) (remote_ip k) data) as [seg Es].
  rewrite Es. cbn [res_bind]. erewrite (bind_done _ _ s seg s); [|reflexivity].
  destruct (ipv4_build_total IP_PROTO_TCP (OUR_IP s) (remote_ip k) (length seg)) as [ip Ei].
  rewrite Ei. cbn [res_bind]. erewrite (bind_done _ _ s ip s); [|reflexivity].
  destruct (cached_mac (remote_ip k) s) as [mac|] eqn:Em.
  - eexists. split; [reflexivity|]. erewrite bind_done by (by apply arp_resolve_cached). by apply transmit_free.
  - by apply bind_deadlock, arp_resolve_sockets_locked.
Qed.

(** [send] on a connected socket, with a device present and no lock held.
    When the next hop's hardware address is cached, one segment goes out, carrying
    the longest prefix of the data the windows allow, and exactly that many bytes
    are counted, kept for retransmission and added to the sequence number. When
    it is not cached, the call never returns: it polls while it holds the socket
    table, which polling needs. *)
Theorem send_outcome (key : TcpSocketKey) (data : list Z) (sock : TcpSocket) (s : NetState) :
  nic s = true → nic_locked s = false → sockets_locked s = false →
  SOCKETS (tcp s) !! key = Some sock → can_send sock = true →
  let d := take (length data `min` send_allowed sock) data in
  match cached_mac (remote_ip key) s with
  | Some mac => ∃ frame s',
      tcp_frame (OUR_MAC s) (OUR_IP s) mac (remote_ip key) (local_port key) (remote_port key)
        (snd_nxt sock) (rcv_nxt sock) (Z.lor PSH ACK) 65535 d = Ret frame ∧
      send h env_now env_rx key data s = Done (length d) s' ∧
      transmitted s' = transmitted s ++ [frame] ∧
      SOCKETS (tcp s') = <[key := after_send d (env_now (tick s)) sock]> (SOCKETS (tcp s)) ∧
      nic_locked s' = false ∧ sockets_locked s' = false
  | None => send h env_now env_rx key data s = Deadlock
  end.
Proof.
  intros Hn Hl Hs Hk Hc d. unfold send.
  set (s1 := set_sockets_locked true s).
  set (s2 := set_tcp (set_sockets (alter (set_snd_nxt (add32 (snd_nxt sock) (u32 (Z.of_nat (length d))))) key
    (SOCKETS (tcp s))) (tcp s)) s1).
  assert (E1 : lock_sockets s = Done () s1) by (unfold lock_sockets; by rewrite Hs).
  erewrite bind_done by exact E1. erewrite bind_done by done. cbn [tcp s1 set_sockets_locked].
  rewrite Hk, Hc. fold d. erewrite (bind_done _ _ s1 () s2) by done.
  pose proof (tcp_transmit_outcome key (snd_nxt sock) (rcv_nxt sock) (Z.lor PSH ACK) d s2 Hn Hl eq_refl) as HT.
  change (cached_mac (remote_ip key) s2) with (cached_mac (remote_ip key) s) in HT.
  destruct (cached_mac (remote_ip key) s) as [mac|]; [|by apply bind_deadlock].
  destruct HT as (frame & Ef & ET). eexists frame, _. split; [exact Ef|].
  erewrite bind_done by exact ET. split; [reflexivity|]. split; [reflexivity|]. split; [|done].
  apply map_eq. intros i. cbn -[alter]. rewrite !lookup_alter_at, lookup_insert. case_decide; [|done].
  subst. by rewrite Hk.
Qed.

(** The retransmission timer has its test the wrong way round. A segment of
    which nothing has been acknowledged is never retransmitted, at any time. One
    that has been acknowledged in full is due for retransmission once the timeout
    has passed, and then the next poll never returns. *)
Theorem retransmit_inverted (key : TcpSocketKey) (sock : TcpSocket) (s : NetState) :
  nic s = true → nic_locked s = false → sockets_locked s = false →
  env_rx (S (tick s)) = [] →
  SOCKETS (tcp s) !! key = Some sock → can_send sock = true →
  is_u32 (snd_nxt sock) → 0 < Z.of_nat (length (retransmit_buf sock)) < u32_modulus →
  last_send_ms sock ≠ 0 → 0 ≤ rto_ms sock → last_send_ms sock + rto_ms sock ≤ env_now (S (tick s)) →
  (snd_una sock = sub32 (snd_nxt sock) (Z.of_nat (length (retransmit_buf sock))) →
     ∀ now, retransmit_due now sock = false) ∧
  (snd_una sock = snd_nxt sock → poll h env_now env_rx s = Deadlock).
Proof.
  intros Hn Hl Hs Hrx Hk Hc Hnxt Hlen Hls Hrto Htime.
  assert (Hlen32 : u32 (Z.of_nat (length (retransmit_buf sock))) = Z.of_nat (length (retransmit_buf sock)))
    by (apply Z.mod_small; lia).
  split.
  - intros Hu now. unfold retransmit_due. rewrite Hlen32, (bool_decide_eq_true_2 (snd_una sock = _)) by done.
    by rewrite !andb_false_r.
  - intros Hu. destruct (poll_with_outcome deadlock s [] (polling s) Hn Hl Hs) as [H _]; [by rewrite Hrx|].
    apply H. exists key, sock. split; [exact Hk|]. unfold retransmit_due. rewrite Hc, Hlen32, Hu.
    rewrite (bool_decide_eq_false_2 (retransmit_buf sock = [])), (bool_decide_eq_false_2 (snd_nxt sock = _)),
      (bool_decide_eq_false_2 (last_send_ms sock = 0)), bool_decide_eq_true_2;
      [done|unfold sat_sub; lia|done| |].
    + unfold sub32, u32, is_u32, u32_modulus in *. intros E. symmetry in E.
      destruct (decide (snd_nxt sock < Z.of_nat (length (retransmit_buf sock)))).
      * rewrite <- (Z.mod_add _ 1), Z.mod_small in E by lia. lia.
      * rewrite Z.mod_small in E by lia. lia.
    + intros E. rewrite E in Hlen. simpl in Hlen. lia.
Qed.
End poll.

(** ** Echo requests *)

(** An ICMP echo message from one host to another. *)
Definition icmp_frame (t : Z) (smac sip dmac dip : list Z) (id seq : Z) (data : list Z) : res (list Z) :=
  let! p := icmp_build t id seq data in
  let! hd := ipv4_build IP_PROTO_ICMP sip dip (length p) in
  Ret (eth_build dmac smac ETHERTYPE_IPV4 (hd ++ p)).

(** Handling an IP packet that is for us, once its header is parsed. *)
Lemma handle_ipv4_frame h now smac dmac sip dip proto payload hd s :
  length smac = 6%nat → length dmac = 6%nat → byte_ok proto → ip_ok sip → ip_ok dip →
  dip = OUR_IP s → 20 + Z.of_nat (length payload) < 65536 →
  ipv4_build proto sip dip (length payload) = Ret hd →
  ∃ c, handle_frame h now (eth_build dmac smac ETHERTYPE_IPV4 (hd ++ payload)) s =
    let iph := mkIpv4 5 0 (20 + Z.of_nat (length payload)) 1 0x4000 64 proto c sip dip in
    (if decide (proto = IP_PROTO_ICMP) then handle_icmp now smac iph payload
     else if decide (proto = IP_PROTO_UDP) then handle_udp payload
     else if decide (proto = IP_PROTO_TCP) then tcp_input h smac iph payload
     else mret None) (count_rx (length (hd ++ payload)) (arp_cache_insert now sip smac s)).
Proof.
  intros Hs Hd Hp Hsip Hdip Hus Hlen E.
  destruct (ipv4_roundtrip _ _ _ _ _ Hp Hsip Hdip Hlen E) as (c & _ & Ep & Hl). exists c.
  unfold handle_frame. erewrite bind_done; [|by rewrite eth_roundtrip]. cbn [ethertype src_mac eth_payload].
  rewrite decide_False, decide_True by done. unfold handle_ipv4.
  erewrite bind_done; [|by rewrite Ep]. cbv beta iota. erewrite bind_done by done. cbn [Datatypes.id ip_dst].
  rewrite decide_False by (intros (? & _); done).
  do 2 (erewrite bind_done by done).
  set (iph := mkIpv4 5 0 _ 1 0x4000 64 proto c sip dip).
  assert (Esl : slice_get (ipv4_header_len iph) (Z.to_nat (total_len iph)) (hd ++ payload) = Some payload).
  { unfold slice_get, ipv4_header_len. cbn [ihl total_len iph]. change (Z.to_nat (5 * 4)) with 20%nat.
    rewrite decide_True by (rewrite length_app, Hl; lia).
    rewrite <- Hl at 2. rewrite drop_app_length. rewrite take_ge by lia. done. }
  by rewrite Esl.
Qed.

Lemma icmp_parts t id seq data p : byte_ok t → bytes_ok data → word_ok id → word_ok seq →
  Z.of_nat (length data) ≤ 65536 → icmp_build t id seq data = Ret p →
  index p 0 = Ret t ∧ be16_at 4 p = Ret id ∧ be16_at 6 p = Ret seq ∧ drop 8 p = data ∧
  length p = (8 + length data)%nat ∧ ipv4_checksum p = Ret 0.
Proof.
  intros Ht Hd Hi Hs Hl E. destruct (icmp_build_spec t id seq data Ht Hd Hl) as (c & E1 & Hc & V).
  pose proof (V p E) as Vp. rewrite E in E1. apply Ret_inj in E1.
  destruct (to_be2_bytes id) as (a0 & a1 & Ea & Fa), (to_be2_bytes seq) as (b0 & b1 & Eb & Fb).
  rewrite Ea, Eb in E1. unfold csum_bytes in E1. cbn [app] in E1. subst p. unfold be16_at. run_parser.
  rewrite Fa, Fb by done. done.
Qed.

(** A well-formed echo request addressed to us, with any identifier, sequence
    number and data, is answered with the echo reply that carries the same three,
    sent from our addresses to the sender's, with IP and ICMP checksums that
    verify; the sender's hardware address is learned. *)
Theorem echo_reply_correct (h : Hints) (now : nat → Z) (s : NetState) (pmac pip data : list Z) (id seq : Z)
    (req : list Z) :
  length pmac = 6%nat → length (OUR_MAC s) = 6%nat → ip_ok pip → ip_ok (OUR_IP s) → bytes_ok data →
  word_ok id → word_ok seq → 28 + Z.of_nat (length data) < 65536 →
  icmp_frame 8 pmac pip (OUR_MAC s) (OUR_IP s) id seq data = Ret req →
  ∃ hd p s', handle_frame h now req s = Done (Some (eth_build pmac (OUR_MAC s) ETHERTYPE_IPV4 (hd ++ p))) s' ∧
    icmp_build 0 id seq data = Ret p ∧ ipv4_build IP_PROTO_ICMP (OUR_IP s) pip (length p) = Ret hd ∧
    ipv4_checksum hd = Ret 0 ∧ ipv4_checksum p = Ret 0 ∧
    arp_cache_lookup pip s' = Some pmac.
Proof.
  intros Hpm Hm Hpip Hip Hd Hi Hs Hl. unfold icmp_frame.
  destruct (icmp_build_total 8 id seq data) as [q Eq]. rewrite Eq. cbn [res_bind].
  destruct (icmp_parts 8 id seq data q) as (Q0 & Q4 & Q6 & Q8 & QL & _); [done..|lia|done|].
  destruct (ipv4_build_total IP_PROTO_ICMP pip (OUR_IP s) (length q)) as [hq Ehq]. rewrite Ehq. cbn [res_bind].
  intros Er. apply Ret_inj in Er. subst req.
  destruct (handle_ipv4_frame h now pmac (OUR_MAC s) pip (OUR_IP s) IP_PROTO_ICMP q hq s) as (c & ->); [done..| |done|].
  { rewrite QL. lia. }
  cbv zeta. rewrite decide_True by done. unfold handle_icmp. rewrite decide_False by lia.
  erewrite bind_done by (by rewrite Q0). erewrite bind_done by done.
  rewrite decide_False by (intros [? _]; done). rewrite decide_False by tauto.
  erewrite bind_done by (by rewrite Q4). erewrite bind_done by (by rewrite Q6).
  erewrite bind_done by (rewrite slice_to_end by lia; by rewrite Q8).
  destruct (icmp_build_total 0 id seq data) as [p Ep]. destruct (ipv4_build_total IP_PROTO_ICMP (OUR_IP s) pip (length p)) as [hd Ehd].
  erewrite bind_done by (unfold build_icmp_echo_reply; by rewrite Ep).
  erewrite bind_done by (cbn [Datatypes.id ip_src OUR_IP count_rx arp_cache_insert set_RX_BYTES set_RX_PACKETS set_ARP_CACHE]; by rewrite Ehd).
  eexists hd, p, _. split; [reflexivity|]. split; [done|]. split; [done|].
  destruct (icmp_parts 0 id seq data p) as (_ & _ & _ & _ & _ & Vp); [done..|lia|done|].
  destruct (ipv4_build_spec IP_PROTO_ICMP (OUR_IP s) pip (length p)) as (? & _ & _ & Vh); [done..|].
  split; [by apply Vh|]. split; [done|]. unfold arp_cache_lookup. cbn. by rewrite lookup_insert_eq.
Qed.

(** ** A concrete host *)

Definition demo_net (sock : TcpSocket) (arp : gmap (list Z) (list Z * Z)) : NetState :=
  set_ARP_CACHE arp (set_tcp (mkTcpTables {[demo_key := sock]} ∅ 49152 [])
    (init_nic [0x52; 0x54; 0; 0x12; 0x34; 0x56] boot_state)).
Definition demo_clock (t : nat) : Z := 5000 + Z.of_nat t.
(** A segment of three bytes sent at time 1, acknowledged in full. *)
Definition acked_sock : TcpSocket := mkSock Established 503 503 1000 65535 [] MSS 65535 1 1000 [1; 2; 3] 0 100.

Lemma handle_frame_safe_witness :
  ∃ reply s', handle_frame (demo_hints false) demo_clock [1; 2; 3] boot_state = Done reply s' ∧ undisturbed boot_state s'.
Proof. apply (handle_frame_safe (demo_hints false) demo_clock [1; 2; 3] boot_state). reflexivity. Defined.

Lemma poll_outcome_witness :
  poll (demo_hints false) demo_clock (λ _, []) (demo_net (demo_sock Established 0) ∅) =
    Done () (set_tick 1 (demo_net (demo_sock Established 0) ∅)).
Proof.
  destruct (poll_outcome (demo_hints false) demo_clock (λ _, []) (demo_net (demo_sock Established 0) ∅))
    as (replies & s2 & E & _ & H & _); [reflexivity..|].
  injection E as <- <-. rewrite H; [reflexivity|]. intros (k & sock & Hk & Hd).
  change (({[demo_key := demo_sock Established 0]} : gmap TcpSocketKey TcpSocket) !! k = Some sock) in Hk.
  apply lookup_singleton_Some in Hk as [_ <-]. discriminate Hd.
Defined.

Lemma send_outcome_witness :
  send (demo_hints false) demo_clock (λ _, []) demo_key [1; 2; 3] (demo_net (demo_sock Established 0) ∅) = Deadlock ∧
  ∃ s', send (demo_hints false) demo_clock (λ _, []) demo_key [1; 2; 3]
    (demo_net (demo_sock Established 0) {[ [10; 0; 2; 2] := ([2; 2; 2; 2; 2; 2], 0) ]}) = Done 3%nat s'.
Proof.
  split.
  - pose proof (send_outcome (demo_hints false) demo_clock (λ _, []) demo_key [1; 2; 3] (demo_sock Established 0)
      (demo_net (demo_sock Established 0) ∅) eq_refl eq_refl eq_refl ltac:(vm_compute; reflexivity) eq_refl) as H.
    cbv zeta in H. replace (cached_mac _ _) with (@None (list Z)) in H by (vm_compute; reflexivity). exact H.
  - pose proof (send_outcome (demo_hints false) demo_clock (λ _, []) demo_key [1; 2; 3] (demo_sock Established 0)
      (demo_net (demo_sock Established 0) {[ [10; 0; 2; 2] := ([2; 2; 2; 2; 2; 2], 0) ]})
      eq_refl eq_refl eq_refl ltac:(vm_compute; reflexivity) eq_refl) as H.
    cbv zeta in H. replace (cached_mac _ _) with (Some [2; 2; 2; 2; 2; 2]) in H by (vm_compute; reflexivity).
    destruct H as (f & s' & _ & H & _). exists s'. rewrite H. f_equal.
Defined.

Lemma retransmit_inverted_witness :
  poll (demo_hints false) demo_clock (λ _, []) (demo_net acked_sock ∅) = Deadlock.
Proof.
  apply (retransmit_inverted (demo_hints false) demo_clock (λ _, []) demo_key acked_sock (demo_net acked_sock ∅));
    (reflexivity || (split; (reflexivity || discriminate)) || discriminate).
Defined.

Lemma echo_reply_correct_witness :
  ∃ req hd p s', icmp_frame 8 [2; 2; 2; 2; 2; 2] [10; 0; 2; 2] (OUR_MAC boot_state) (OUR_IP boot_state) 7 1 [65; 66] = Ret req ∧
    handle_frame (demo_hints false) demo_clock req boot_state =
      Done (Some (eth_build [2; 2; 2; 2; 2; 2] (OUR_MAC boot_state) ETHERTYPE_IPV4 (hd ++ p))) s' ∧
    icmp_build 0 7 1 [65; 66] = Ret p.
Proof.
  eexists. edestruct (echo_reply_correct (demo_hints false) demo_clock boot_state [2; 2; 2; 2; 2; 2] [10; 0; 2; 2] [65; 66] 7 1)
    as (hd & p & s' & H1 & H2 & _);
    [reflexivity|reflexivity|split; [reflexivity|solve_bytes]|split; [reflexivity|solve_bytes]|solve_bytes|by split|by split|reflexivity| |].
  2: { exists hd, p, s'. split; [|split; [exact H1|exact H2]]. vm_compute. reflexivity. }
  vm_compute. reflexivity.
Defined.
