(* ===== verification/NetLive.v ===== *)
(** The clients of the network stack terminate: as long as no TCP data waits for its
    retransmission, [ping], [resolve], [dhcp_request] and [connect] return, and poll no
    longer than their timeouts allow. *)
From stdpp Require Import base numbers list gmap.
From S2P Require Import Prelude Bytes NetWire NetWireFacts NetProto Tcp NetState Net NetFacts TcpProps NetProps.

(** No socket keeps data for retransmission. *)
Definition idle (t : Tcp) : Prop := map_Forall (λ _ sock, retransmit_buf sock = []) (SOCKETS t).

Record calm (s : NetState) : Prop := {
  calm_nic : nic_locked s = false;
  calm_sockets : sockets_locked s = false;
  calm_idle : idle (tcp s)
}.

Lemma idle_not_due now t : idle t → ¬ due now t.
Proof.
  intros Hi (k & sock & Hk & Hd). unfold retransmit_due in Hd. rewrite (Hi _ _ Hk) in Hd.
  rewrite bool_decide_eq_true_2, !andb_false_r in Hd by done. done.
Qed.

(** ** Packet handling keeps the sockets idle *)

Lemma on_ack_retransmit h ack s : retransmit_buf (on_ack h ack s) = retransmit_buf s.
Proof. unfold on_ack. repeat case_decide; done. Qed.

Lemma machine_retransmit h tcph data mac ip smac rip s ls r ls' :
  tcp_state_machine h tcph data mac ip smac rip s ls = Ret (r, ls') → retransmit_buf r.2 = retransmit_buf s.
Proof.
  unfold tcp_state_machine. cbv zeta. destruct (t_state s);
    try (intros H; apply Ret_inj in H; simplify_eq; repeat case_match; done).
  - case_match; [build_frame f Ef|]; intros Hx; apply Ret_inj in Hx; by simplify_eq.
  - case_match; [case_match|]; intros Hx; apply Ret_inj in Hx; by simplify_eq.
  - set (s0 := set_snd_wnd (window tcph) s).
    set (s1 := if flag (tcp_flags tcph) ACK then on_ack h (tcp_ack tcph) s0 else s0).
    assert (H1 : retransmit_buf s1 = retransmit_buf s).
    { unfold s1. destruct (flag _ ACK); [|done]. by rewrite on_ack_retransmit. }
    clearbody s1. destruct (flag (tcp_flags tcph) FIN), (negb _ && _);
      try (build_frame f Ef); intros H; apply Ret_inj in H; by simplify_eq.
  - destruct (flag (tcp_flags tcph) FIN); [build_frame f Ef|]; intros H; apply Ret_inj in H; simplify_eq;
      by destruct (flag (tcp_flags tcph) ACK).
  - destruct (flag (tcp_flags tcph) FIN); [build_frame f Ef|]; intros H; apply Ret_inj in H; by simplify_eq.
Qed.

Lemma handle_idle h mac ip smac iph raw t o t' :
  handle_tcp_segment h mac ip smac iph raw t = Ret (o, t') → idle t → idle t'.
Proof.
  unfold handle_tcp_segment. destruct (tcp_parse_total raw) as [[tcph|] ->]; cbn [res_bind]; [|by intros [= _ <-]].
  cbv zeta. rewrite slice_to_end by lia. cbn [res_bind]. intros H Hi. destruct (flag (tcp_flags tcph) RST).
  { injection H as _ <-. by apply map_Forall_delete. }
  destruct (SOCKETS t !! _) as [sock|] eqn:Hk.
  - destruct (should_defer h (owner_pid sock)); [by injection H as _ <-|].
    destruct (tcp_state_machine _ _ _ _ _ _ _ _ _) as [[r ls]| |] eqn:Em; try done. cbn [res_bind] in H.
    apply Ret_inj in H. simplify_eq. apply map_Forall_insert_2; [|done].
    rewrite (machine_retransmit _ _ _ _ _ _ _ _ _ _ _ Em). by apply (Hi _ _ Hk).
  - revert H. case_match; [|case_match; [|by intros [= _ <-]]]; build_frame fr Ef; intros H'; apply Ret_inj in H'; simplify_eq;
      [|done]. by apply map_Forall_insert_2.
Qed.

(** ** Code that keeps the sockets idle *)

Definition keeps_idle {A} (m : net A) : Prop := ∀ s a s', m s = Done a s' → idle (tcp s) → idle (tcp s').

Lemma keeps_bind {A B} (m : net A) (k : A → net B) :
  keeps_idle m → (∀ a, keeps_idle (k a)) → keeps_idle (m ≫= k).
Proof.
  intros Hm Hk s b s'. unfold mbind, net_bind. destruct (m s) as [a s1| | |] eqn:E; try done.
  intros E' Hi. eapply Hk; [done|]. by eapply Hm.
Qed.
Lemma keeps_ret {A} (a : A) : keeps_idle (mret a).
Proof. by intros s b s' [= _ <-]. Qed.
Lemma keeps_gets {A} (f : NetState → A) : keeps_idle (gets f).
Proof. by intros s b s' [= _ <-]. Qed.
Lemma keeps_lift {A} (r : res A) : keeps_idle (lift r).
Proof. intros s b s'. destruct r; by intros [= _ <-]. Qed.
Lemma keeps_modify f : (∀ s, tcp (f s) = tcp s) → keeps_idle (modify f).
Proof. intros H s b s' [= _ <-]. by rewrite H. Qed.

Ltac keeps :=
  repeat first
    [ apply keeps_ret | apply keeps_gets | apply keeps_lift | apply keeps_modify; intros ?; reflexivity
    | case_decide | apply keeps_bind; [|intros ?] | case_match ].

Section live.
Context (h : Hints) (env_now : nat → Z) (env_rx : nat → list (list Z)).

Lemma tcp_input_keeps smac iph raw : keeps_idle (tcp_input h smac iph raw).
Proof.
  intros s a s'. unfold tcp_input. destruct (tcp_parse_total raw) as [[tcph|] E];
    (erewrite bind_done; [|rewrite E; reflexivity]); [|by intros [= _ <-]].
  unfold lock_sockets, mbind, net_bind. destruct (sockets_locked s); [done|]. cbn -[handle_tcp_segment].
  destruct (handle_tcp_segment_total h (OUR_MAC s) (OUR_IP s) smac iph raw (tcp s)) as [[o t'] Er]. rewrite Er.
  intros [= <- <-] Hi. cbn. by eapply handle_idle.
Qed.

Lemma handle_frame_keeps raw : keeps_idle (handle_frame h env_now raw).
Proof.
  unfold handle_frame, handle_arp, handle_ipv4, handle_icmp, handle_udp.
  apply keeps_bind; [keeps|]. intros [eth|]; [|keeps]. case_decide; [keeps|]. case_decide; [|keeps].
  apply keeps_bind; [keeps|]. intros [iph|]; [|keeps].
  apply keeps_bind; [keeps|]. intros s. case_decide; [keeps|]. do 2 (apply keeps_bind; [keeps|intros _]).
  case_match; [|keeps]. case_decide; [keeps|]. case_decide; [keeps|]. case_decide; [|keeps]. apply tcp_input_keeps.
Qed.

Lemma handle_frames_keeps frames : keeps_idle (handle_frames h env_now frames).
Proof.
  induction frames as [|f fs IH]; simpl; [keeps|]. apply keeps_bind; [apply handle_frame_keeps|intros o].
  apply keeps_bind; [done|intros rs]. keeps.
Qed.

(** ** Polling *)

Lemma poll_calm s : calm s → ∃ s', poll h env_now env_rx s = Done () s' ∧ calm s' ∧ tick s' = S (tick s).
Proof.
  intros [H1 H2 H3]. destruct (nic s) eqn:Hn.
  - destruct (quiet_free _ (polling s) (handle_frames_quiet h env_now (env_rx (S (tick s)))) H2) as (replies & s2 & E & U).
    assert (Hi : idle (tcp s2)) by (by eapply handle_frames_keeps).
    destruct (poll_with_outcome h env_now env_rx deadlock s replies s2 Hn H1 H2 E) as [_ H].
    eexists. split; [apply H; by apply idle_not_due|]. split; [|exact (same_tick _ _ U)].
    split; [done|exact (eq_trans (same_sockets_lock _ _ U) H2)|done].
  - exists (set_nic_locked false (polling s)). split; [|by split; [split|]].
    unfold poll, poll_with. erewrite bind_done by done. cbv beta.
    erewrite bind_done; [|unfold lock_nic; cbn; by rewrite H1].
    erewrite bind_done by done. cbn [nic set_nic_locked set_tick]. by rewrite Hn.
Qed.

(** ** Time *)

(** What a call may spend: at most [n] polls, or polls until the clock has advanced by
    [d] milliseconds. *)
Inductive stage := Polls (n : nat) | Wait (d : Z).

(** From the reading [t] of the clock to the reading [t'] no more is spent than the
    stages allow: a wait that starts at [t] polls on only while the clock is before its
    deadline. *)
Fixpoint elapsed (st : list stage) (t t' : nat) : Prop :=
  match st with
  | [] => t' = t
  | Polls n :: st => ∃ t1, (t ≤ t1 ≤ t + n)%nat ∧ elapsed st t1 t'
  | Wait d :: st =>
      ∃ t1, (t ≤ t1)%nat ∧ (∀ i, (t < i < t1)%nat → env_now i < add64 (env_now t) d) ∧ elapsed st t1 t'
  end.

Lemma elapsed_refl st t : elapsed st t t.
Proof. induction st as [|[n|d] st IH]; [done|..]; exists t; split_and!; (done || lia || (intros; lia)). Qed.
Lemma elapsed_le st t t' : elapsed st t t' → (t ≤ t')%nat.
Proof.
  revert t. induction st as [|[n|d] st IH]; intros t; cbn [elapsed].
  - intros ->. lia.
  - intros (t1 & H1 & H2). apply IH in H2. lia.
  - intros (t1 & H1 & _ & H2). apply IH in H2. lia.
Qed.
Lemma elapsed_app st1 st2 t t1 t2 : elapsed st1 t t1 → elapsed st2 t1 t2 → elapsed (st1 ++ st2) t t2.
Proof.
  revert t. induction st1 as [|[n|d] st1 IH]; intros t; cbn [elapsed app].
  - by intros ->.
  - intros (t0 & H1 & H2) H3. exists t0. eauto.
  - intros (t0 & H1 & H1' & H2) H3. exists t0. eauto.
Qed.

(** ** Calls that return *)

(** Started at reading [t] the call returns within the stages, given as many loop
    iterations as it makes polls. *)
Definition live {A} (t : nat) (st : list stage) (m : nat → net A) : Prop :=
  ∀ s, calm s → tick s = t →
  ∃ a s', (∀ fuel, (tick s' - t ≤ fuel)%nat → m fuel s = Done a s') ∧ calm s' ∧ elapsed st t (tick s').

(** A call that does not poll. *)
Definition steady {A} (m : net A) : Prop :=
  ∀ s, calm s → ∃ a s', m s = Done a s' ∧ calm s' ∧ tick s' = tick s.

Lemma live_done {A} t st (m : net A) : steady m → live t st (λ _, m).
Proof.
  intros H s Hs Ht. destruct (H s Hs) as (a & s' & E & Hc & Hk). exists a, s'. split_and!; [done..|].
  rewrite Hk, Ht. apply elapsed_refl.
Qed.
Lemma live_steady {A B} t st (m : net A) (k : nat → A → net B) :
  steady m → (∀ a, live t st (λ f, k f a)) → live t st (λ f, m ≫= k f).
Proof.
  intros Hm Hk s Hs Ht. destruct (Hm s Hs) as (a & s1 & E & H1 & T1).
  destruct (Hk a s1 H1 ltac:(congruence)) as (b & s2 & E2 & H2 & T2). exists b, s2. split_and!; [|done..].
  intros fuel Hf. erewrite bind_done by exact E. by apply E2.
Qed.
Lemma live_now {B} t st (k : nat → Z → net B) :
  live t st (λ f, k f (env_now t)) → live t st (λ f, gets (uptime_ms env_now) ≫= k f).
Proof.
  intros Hk s Hs Ht. destruct (Hk s Hs Ht) as (b & s2 & E2 & H2 & T2). exists b, s2. split_and!; [|done..].
  intros fuel Hf. erewrite bind_done by done. unfold uptime_ms. rewrite Ht. by apply E2.
Qed.
Lemma live_seq {A B} t st1 st2 (m : nat → net A) (k : nat → A → net B) :
  live t st1 m → (∀ a t1, live t1 st2 (λ f, k f a)) → live t (st1 ++ st2) (λ f, m f ≫= k f).
Proof.
  intros Hm Hk s Hs Ht. destruct (Hm s Hs Ht) as (a & s1 & E1 & H1 & T1).
  destruct (Hk a (tick s1) s1 H1 eq_refl) as (b & s2 & E2 & H2 & T2). exists b, s2.
  pose proof (elapsed_le _ _ _ T1). pose proof (elapsed_le _ _ _ T2).
  split_and!; [|done|by eapply elapsed_app]. intros fuel Hf. erewrite bind_done by (apply E1; lia). apply E2. lia.
Qed.
Lemma live_last {A B} t st (m : nat → net A) (k : A → net B) :
  live t st m → (∀ a, steady (k a)) → live t st (λ f, m f ≫= k).
Proof.
  intros Hm Hk. rewrite <- (app_nil_r st). apply (live_seq t st [] m (λ _, k)); [done|].
  intros a t1. by apply live_done.
Qed.

Lemma steady_bind {A B} (m : net A) (k : A → net B) : steady m → (∀ a, steady (k a)) → steady (m ≫= k).
Proof.
  intros Hm Hk s Hs. destruct (Hm s Hs) as (a & s1 & E & H1 & T1). destruct (Hk a s1 H1) as (b & s2 & E2 & H2 & T2).
  exists b, s2. erewrite bind_done by exact E. split_and!; congruence || done.
Qed.
Lemma steady_ret {A} (a : A) : steady (mret a).
Proof. intros s Hs. by exists a, s. Qed.
Lemma steady_gets {A} (f : NetState → A) : steady (gets f).
Proof. intros s Hs. by exists (f s), s. Qed.
Lemma steady_lift {A} (r : res A) : returns r → steady (lift r).
Proof. intros [a ->] s Hs. by exists a, s. Qed.
Lemma steady_modify f : (∀ s, calm s → calm (f s) ∧ tick (f s) = tick s) → steady (modify f).
Proof. intros H s Hs. exists (), (f s). split; [done|by apply H]. Qed.
Lemma steady_transmit frame : steady (transmit frame).
Proof.
  intros s [H1 H2 H3]. unfold transmit, lock_nic, mbind, net_bind. rewrite H1. cbn.
  destruct (nic s); (eexists _, _; split; [reflexivity|by split]).
Qed.
Lemma steady_arp_request ip : steady (arp_request ip).
Proof. apply steady_bind; [apply steady_gets|intros s; apply steady_transmit]. Qed.
(** An update of the socket table under its lock. *)
Lemma live_update {A} t st g (m : nat → net A) : (∀ tb, idle tb → idle (g tb)) → live t st m →
  live t st (λ f, lock_sockets ;; modify_tcp g ;; unlock_sockets ;; m f).
Proof.
  intros Hg Hm s [H1 H2 H3] Ht.
  destruct (Hm (set_sockets_locked false (set_tcp (g (tcp s)) (set_sockets_locked true s)))) as (a & s' & E & Hs' & T).
  { split; [done|done|by apply Hg]. } { done. }
  exists a, s'. split; [|done]. intros fuel Hf. unfold lock_sockets, mbind, net_bind. rewrite H2. by apply (E fuel).
Qed.

Ltac calm_modify := let s := fresh in let H := fresh in
  apply steady_modify; intros s H; destruct H; (split; [split|]); (assumption || reflexivity).
Ltac steady :=
  repeat first
    [ apply steady_ret | apply steady_gets | apply steady_lift; by total | calm_modify | apply steady_transmit
    | apply steady_arp_request | assumption | apply steady_bind; [|intros ?] | case_decide | case_match ].
(** The steps before a wait. *)
Ltac steps := repeat (first [apply live_now|apply live_steady; [steady|intros ?]]; cbv beta).

(** ** Waiting *)

Lemma live_arp_wait n t target : live t [Polls n] (λ _, arp_wait (poll h env_now env_rx) n target).
Proof.
  revert t. induction n as [|n IH]; intros t; [apply live_done, steady_ret|]. cbn [arp_wait]. intros s Hs Ht.
  destruct (poll_calm s Hs) as (s1 & E & H1 & T1). destruct (arp_cache_lookup target s1) as [mac|] eqn:El.
  - exists (Some mac), s1. split; [|split; [done|]].
    + intros _ _. erewrite bind_done by exact E. erewrite bind_done by done. by rewrite El.
    + exists (S t). split; [lia|]. cbn. lia.
  - destruct (IH (S t) s1 H1 ltac:(lia)) as (a & s2 & E2 & H2 & (t2 & T2 & T3)). exists a, s2. split; [|split; [done|]].
    + intros fuel Hf. erewrite bind_done by exact E. erewrite bind_done by done. rewrite El. apply (E2 fuel). lia.
    + exists t2. split; [lia|done].
Qed.

Lemma live_arp_resolve t ip : live t [Polls 3000] (λ _, arp_resolve_for_ip (poll h env_now env_rx) ip).
Proof.
  unfold arp_resolve_for_ip. apply (live_steady t _ _ (λ _, _)); [steady|intros [mac|]]; [apply live_done; steady|].
  apply (live_steady t _ _ (λ _, _)); [steady|intros target].
  apply (live_steady t _ _ (λ _, _)); [steady|intros [mac|]]; [apply live_done; steady|].
  apply (live_steady t _ _ (λ _, _)); [steady|intros _]. apply live_arp_wait.
Qed.

(** The clock reaches every time and stays past it. *)
Context (Hclock : ∀ x, ∃ n, ∀ m, (n ≤ m)%nat → x ≤ env_now m).

(** A loop that polls, starting at reading [t], as long as the clock is before the
    deadline [dl] and ends otherwise, ends. *)
Lemma live_until {A} t dl (loop : nat → net A) :
  (∀ s, calm s → (t ≤ tick s)%nat →
     (∃ a s', (∀ fuel, loop fuel s = Done a s') ∧ calm s' ∧ tick s' = tick s) ∨
     env_now (tick s) < dl ∧
     ((∃ a s', (∀ fuel, loop (S fuel) s = Done a s') ∧ calm s' ∧ tick s' = S (tick s)) ∨
      ∃ s', (∀ fuel, loop (S fuel) s = loop fuel s') ∧ calm s' ∧ tick s' = S (tick s))) →
  ∀ s, calm s → tick s = t →
  ∃ a s', (∀ fuel, (tick s' - t ≤ fuel)%nat → loop fuel s = Done a s') ∧ calm s' ∧ (t ≤ tick s')%nat ∧
    ∀ i, (t ≤ i < tick s')%nat → env_now i < dl.
Proof.
  intros Hl. destruct (Hclock dl) as [n Hn].
  assert (H : ∀ d s, calm s → (t ≤ tick s)%nat → (n - tick s ≤ d)%nat →
    ∃ a s', (∀ fuel, (tick s' - tick s ≤ fuel)%nat → loop fuel s = Done a s') ∧ calm s' ∧ (tick s ≤ tick s')%nat ∧
      ∀ i, (tick s ≤ i < tick s')%nat → env_now i < dl).
  { induction d as [|d IH]; intros s Hs Hts Hd;
      (destruct (Hl s Hs Hts) as [(a & s' & E & H' & T)|[Hlt Hstep]];
       [exists a, s'; split; [intros; apply E|]; split; [done|]; split; [lia|]; intros i Hi; lia|]).
    - exfalso. specialize (Hn (tick s) ltac:(lia)). lia.
    - destruct Hstep as [(a & s' & E & H' & T)|(s' & E & H' & T)].
      + exists a, s'. split; [intros [|fuel] Hf; [lia|apply E]|]. split; [done|]. split; [lia|].
        intros i Hi. by replace i with (tick s) by lia.
      + destruct (IH s' H') as (a & s2 & E2 & H2 & T2 & B2); [lia|lia|].
        exists a, s2. split; [intros [|fuel] Hf; [lia|]; rewrite E; apply E2; lia|]. split; [done|]. split; [lia|].
        intros i Hi. destruct (decide (i = tick s)) as [->|]; [done|]. apply B2. lia. }
  intros s Hs Ht. destruct (H _ s Hs ltac:(lia) (le_n _)) as (a & s' & E & H' & T & B).
  rewrite Ht in E, T, B. by exists a, s'.
Qed.

Lemma live_wait {A} t d (loop : nat → net A) :
  (∀ s, calm s → tick s = t →
   ∃ a s', (∀ fuel, (tick s' - t ≤ fuel)%nat → loop fuel s = Done a s') ∧ calm s' ∧ (t ≤ tick s')%nat ∧
     ∀ i, (t < i < tick s')%nat → env_now i < add64 (env_now t) d) → live t [Wait d] loop.
Proof.
  intros H s Hs Ht. destruct (H s Hs Ht) as (a & s' & E & Hc & T & B). exists a, s'. split_and!; [done..|].
  exists (tick s'). split_and!; done.
Qed.

Lemma live_wait_until {A} t d (loop : nat → net A) :
  (∀ s, calm s → (t ≤ tick s)%nat →
     (∃ a s', (∀ fuel, loop fuel s = Done a s') ∧ calm s' ∧ tick s' = tick s) ∨
     env_now (tick s) < add64 (env_now t) d ∧
     ((∃ a s', (∀ fuel, loop (S fuel) s = Done a s') ∧ calm s' ∧ tick s' = S (tick s)) ∨
      ∃ s', (∀ fuel, loop (S fuel) s = loop fuel s') ∧ calm s' ∧ tick s' = S (tick s))) →
  live t [Wait d] loop.
Proof.
  intros Hl. apply live_wait. intros s Hs Ht. destruct (live_until t _ loop Hl s Hs Ht) as (a & s' & E & H' & T & B).
  exists a, s'. split_and!; [done..|]. intros i Hi. apply B. lia.
Qed.

Lemma live_wait_while {A} t d (check : net (option A)) : steady check →
  live t [Wait d] (λ f, wait_while h env_now env_rx f (add64 (env_now t) d) check).
Proof.
  intros Hc. set (dl := add64 (env_now t) d). apply live_wait_until. intros s Hs Hts.
  destruct (decide (uptime_ms env_now s < dl)) as [Ht|Ht].
  - right. split; [done|]. destruct (poll_calm s Hs) as (s1 & E1 & H1 & T1).
    destruct (Hc s1 H1) as (o & s2 & E2 & H2 & T2).
    assert (Hw : ∀ fuel, wait_while h env_now env_rx (S fuel) dl check s =
      match o with Some a => Done (Some a) s2 | None => wait_while h env_now env_rx fuel dl check s2 end).
    { intros fuel. cbn [wait_while]. erewrite bind_done by done. rewrite decide_True by done.
      erewrite bind_done by exact E1. erewrite bind_done by exact E2. by destruct o. }
    destruct o as [a|]; [left; exists (Some a), s2|right; exists s2]; (split; [exact Hw|]; split; [done|lia]).
  - left. exists None, s. split; [|done]. intros [|fuel]; cbn [wait_while]; erewrite bind_done by done; by rewrite decide_False.
Qed.

Lemma live_wait_loop {A} t d (check : net (option A)) : steady check →
  live t [Wait d] (λ f, wait_loop h env_now env_rx f (add64 (env_now t) d) check).
Proof.
  intros Hc. set (dl := add64 (env_now t) d). apply live_wait. intros s Hs Ht.
  set (rest := λ fuel, o ← check; match o with
     | Some a => mret (Some a)
     | None => now ← gets (uptime_ms env_now); if decide (dl ≤ now) then mret None else wait_loop h env_now env_rx fuel dl check
     end).
  destruct (poll_calm s Hs) as (s1 & E1 & H1 & T1).
  destruct (live_until (S t) dl rest) with (s := s1) as (a & s' & E & H' & T & B); [|done|lia|].
  - clear s Hs Ht s1 E1 H1 T1. intros s Hs Hts. destruct (Hc s Hs) as (o & s2 & E2 & H2 & T2).
    assert (Hr : ∀ fuel, rest fuel s = match o with
      | Some a => Done (Some a) s2
      | None => if decide (dl ≤ env_now (tick s)) then Done None s2 else wait_loop h env_now env_rx fuel dl check s2 end).
    { intros fuel. unfold rest. erewrite bind_done by exact E2. destruct o; [done|]. erewrite bind_done by done.
      unfold uptime_ms. rewrite T2. by case_decide. }
    destruct o as [a|]; [left; exists (Some a), s2; by split; [intros; rewrite Hr|]|].
    destruct (decide (dl ≤ env_now (tick s))) as [Hd|Hd];
      [left; exists None, s2; split; [intros; by rewrite Hr|done]|].
    right. split; [lia|]. right. destruct (poll_calm s2 H2) as (s3 & E3 & H3 & T3). exists s3.
    split; [|split; [done|lia]]. intros fuel. rewrite Hr. cbn [wait_loop]. by erewrite bind_done by exact E3.
  - exists a, s'. split_and!; [|done|lia|].
    + intros [|fuel] Hf; [lia|]. cbn [wait_loop]. erewrite bind_done by exact E1. apply (E fuel). lia.
    + intros i Hi. apply B. lia.
Qed.

Lemma live_connect_wait t d key :
  live t [Wait d] (λ f, connect_wait h env_now env_rx f key (add64 (env_now t) d)).
Proof.
  set (dl := add64 (env_now t) d).
  assert (Hfst : ∀ fuel s, calm s → connect_wait h env_now env_rx fuel key dl s =
    if decide (t_state <$> SOCKETS (tcp s) !! key = Some Established) then Done (inl (local_port key)) s else
    if decide (dl ≤ uptime_ms env_now s)
    then Done (inr ConnectTimeout) (set_tcp (set_sockets (delete key (SOCKETS (tcp s))) (tcp s)) s)
    else match fuel with O => Unfinished | S fuel' =>
      (poll h env_now env_rx ;; connect_wait h env_now env_rx fuel' key dl) s end).
  { intros fuel s [H1 H2 H3]. assert (Es : set_sockets_locked false (set_sockets_locked true s) = s).
    { destruct s. cbn in *. by rewrite H2. }
    assert (EL : lock_sockets s = Done () (set_sockets_locked true s)) by (unfold lock_sockets; by rewrite H2).
    destruct fuel; cbn [connect_wait]; (erewrite bind_done by exact EL); (erewrite bind_done by done);
      cbn [tcp set_sockets_locked]; (erewrite (bind_done _ _ _ () s) by (unfold unlock_sockets, modify; by rewrite Es));
      (case_decide; [done|]); (erewrite bind_done by done); (case_decide; [|done]);
      (erewrite bind_done by exact EL); do 2 (erewrite bind_done by done);
      (destruct s; cbn in *; by rewrite H2). }
  apply live_wait_until. intros s Hs Hts.
  destruct (decide (t_state <$> SOCKETS (tcp s) !! key = Some Established)) as [He|He].
  { left. eexists _, s. split; [|done]. intros fuel. rewrite (Hfst fuel s Hs). by rewrite decide_True. }
  destruct (decide (dl ≤ uptime_ms env_now s)) as [Ht|Ht].
  { left. eexists _, _. split; [intros fuel; rewrite (Hfst fuel s Hs), decide_False, decide_True by done; reflexivity|].
    split; [|done]. destruct Hs. split; [done..|]. by apply map_Forall_delete. }
  right. split; [unfold uptime_ms in Ht; fold dl; lia|]. right. destruct (poll_calm s Hs) as (s1 & E1 & H1 & T1). exists s1.
  split; [|split; done]. intros fuel. rewrite (Hfst (S fuel) s Hs), !decide_False by done. by erewrite bind_done by exact E1.
Qed.

(** ** The clients *)

Lemma live_ping t ip id seq timeout : live t [Wait timeout] (λ f, ping h env_now env_rx f ip id seq timeout).
Proof.
  unfold ping, build_icmp_echo_request. cbv zeta. steps. apply live_last; [apply live_wait_while; steady|intros ?; steady].
Qed.

Lemma live_dns_query t hostname : live t [Polls 5000; Wait 3000] (λ f, dns_query h env_now env_rx f hostname).
Proof.
  unfold dns_query. apply live_steady; [steady|intros s0]. case_match; [|apply live_done; steady]. cbv zeta.
  do 2 (apply live_steady; [steady|intros ?]).
  change [Polls 5000; Wait 3000] with ([Polls 5000] ++ [Wait 3000]). eapply (live_seq t _ _ (λ _, _)).
  - case_match; [apply live_done; steady|]. apply (live_steady t _ _ (λ _, _)); [steady|intros _].
    apply (live_last t _ (λ _, _)); [apply live_arp_wait|intros ?; steady].
  - intros mac t1. steps. apply live_last; [apply live_wait_while; steady|intros ?; steady].
Qed.

Lemma steady_dns_cache name : steady (dns_cache_lookup env_now name).
Proof.
  intros s Hs. unfold dns_cache_lookup. case_match; [case_decide|]; (eexists _, _; split; [done|]; destruct Hs; by split; [split|]).
Qed.

Lemma live_resolve t hostname : live t [Polls 5000; Wait 3000] (λ f, resolve h env_now env_rx f hostname).
Proof.
  unfold resolve. case_match; [apply live_done; steady|]. apply live_steady; [steady|intros [ip|]]; [apply live_done; steady|].
  apply live_steady; [apply steady_dns_cache|intros [ip|]]; [apply live_done; steady|].
  apply live_last; [apply live_dns_query|intros ?; steady].
Qed.

Lemma dhcp_frame_total mac t o : returns (dhcp_frame mac t o).
Proof. unfold dhcp_frame. total. Qed.
Hint Resolve dhcp_frame_total : returns.

Lemma steady_take_reply : steady take_dhcp_reply.
Proof. intros s Hs. eexists _, _. split; [reflexivity|]. destruct Hs. by split; [split|]. Qed.

Lemma live_dhcp t : live t [Wait 5000; Wait 5000] (λ f, dhcp_request h env_now env_rx f).
Proof.
  unfold dhcp_request. steps. change [Wait 5000; Wait 5000] with ([Wait 5000] ++ [Wait 5000]).
  apply live_seq; [apply live_wait_loop, steady_take_reply|intros [offer|] t1]; [|apply live_done; steady].
  steps. apply live_last; [apply live_wait_loop, steady_take_reply|intros ?; steady].
Qed.

Lemma live_connect t pid rip rport timeout :
  live t [Polls 3000; Wait timeout] (λ f, connect h env_now env_rx f pid rip rport timeout).
Proof.
  unfold connect. apply live_steady; [steady|intros port]. apply live_steady; [unfold modify_tcp; calm_modify|intros _].
  apply live_steady; [steady|intros s0]. change [Polls 3000; Wait timeout] with ([Polls 3000] ++ [Wait timeout]).
  eapply (live_seq t _ _ (λ _, _)); [apply live_arp_resolve|intros [mac|] t1]; [|apply live_done; steady].
  apply live_now. cbv zeta.
  apply live_update; [intros tb Htb; by apply map_Forall_insert_2|]. steps. apply live_connect_wait.
Qed.

(** C27. The network clients terminate, and in time. With no lock held, no TCP data kept
    for retransmission and a clock that reaches every time, [ping], [resolve],
    [dhcp_request] and [connect] return, whatever frames arrive: it is enough to give
    their loops as many iterations as the call makes polls, and the polls are bounded by
    the timeouts. After at most 5000 (DNS server) or 3000 (TCP peer) polls for an
    address, a call polls on only while the clock is before its deadline: the given
    timeout for [ping] and [connect], 3 seconds for a name, twice 5 seconds for DHCP.
    Afterwards no lock is held and still nothing is kept for retransmission. *)
Theorem clients_terminate (s : NetState) : calm s →
  let returns_within {B} st (m : nat → net B) :=
    ∃ r s', (∀ fuel, (tick s' - tick s ≤ fuel)%nat → m fuel s = Done r s') ∧ calm s' ∧ elapsed st (tick s) (tick s') in
  (∀ ip id seq timeout, returns_within [Wait timeout] (λ fuel, ping h env_now env_rx fuel ip id seq timeout)) ∧
  (∀ hostname, returns_within [Polls 5000; Wait 3000] (λ fuel, resolve h env_now env_rx fuel hostname)) ∧
  returns_within [Wait 5000; Wait 5000] (dhcp_request h env_now env_rx) ∧
  (∀ pid rip rport timeout,
     returns_within [Polls 3000; Wait timeout] (λ fuel, connect h env_now env_rx fuel pid rip rport timeout)).
Proof.
  intros Hs. split_and!.
  - intros ip id seq timeout. by apply live_ping.
  - intros hostname. by apply live_resolve.
  - by apply live_dhcp.
  - intros pid rip rport timeout. by apply live_connect.
Qed.
End live.

(** No answer comes: the ping ends with the poll at which the clock reads 1000. *)
Lemma clients_terminate_witness :
  ∃ r s', (∀ fuel, (tick s' ≤ fuel)%nat →
     ping (demo_hints false) Z.of_nat (λ _, []) fuel [10; 0; 2; 2] 1 1 1000 boot_state = Done r s') ∧ (tick s' ≤ 1000)%nat.
Proof.
  destruct (clients_terminate (demo_hints false) Z.of_nat (λ _, [])) with (s := boot_state) as (H & _).
  - intros x. exists (Z.to_nat x). intros m Hm. lia.
  - split; [reflexivity|reflexivity|]. apply map_Forall_empty.
  - destruct (H [10; 0; 2; 2] 1 1 1000) as (r & s' & E & _ & (t1 & _ & B & Et)). cbn [elapsed] in Et.
    exists r, s'. rewrite Et. split.
    + intros fuel Hf. apply E. rewrite Et. lia.
    + destruct (decide (t1 ≤ 1000)%nat) as [|Hn]; [done|]. exfalso.
      specialize (B 1000%nat). assert (Ht : tick boot_state = 0%nat) by reflexivity. rewrite Ht in B.
      specialize (B ltac:(lia)). vm_compute in B. discriminate B.
Defined.
