(* ===== verification/Wifi.v ===== *)
(** [kernel/src/wifi/mod.rs] and the protocol part of [kernel/src/wifi/ar9271.rs]:
    802.11 frames, association, the WPA2 four-way handshake, protected and open
    data frames.

    The dongle is an input: [usb_in t] is what the [t]-th bulk read finds. The
    dwell loop of [set_channel] and logging are left out. *)
From stdpp Require Import base numbers list gmap.
From S2P Require Import Prelude Bytes Sha1 Aes NetWire NetProto Tcp NetState Net.

(** [u16::from_le_bytes([l[i], l[i + 1]])]. *)
Definition le16_at (i : nat) (l : list Z) : res Z :=
  let! b := slice i (i + 2) l in Ret (from_be (reverse b)).
Definition to_le16 (x : Z) : list Z := reverse (to_be 2 x).

(** [core::str::from_utf8(l).is_ok()]. *)
Definition between (a b x : Z) : bool := bool_decide (a ≤ x ≤ b).
Fixpoint utf8_valid (l : list Z) : bool :=
  match l with
  | [] => true
  | a :: l1 =>
      if between 0 0x7F a then utf8_valid l1 else
      match l1 with
      | [] => false
      | b :: l2 =>
          if between 0xC2 0xDF a && between 0x80 0xBF b then utf8_valid l2 else
          match l2 with
          | [] => false
          | c :: l3 =>
              if (bool_decide (a = 0xE0) && between 0xA0 0xBF b
                  || (between 0xE1 0xEC a || between 0xEE 0xEF a) && between 0x80 0xBF b
                  || bool_decide (a = 0xED) && between 0x80 0x9F b) && between 0x80 0xBF c
              then utf8_valid l3 else
              match l3 with
              | [] => false
              | d :: l4 =>
                  (bool_decide (a = 0xF0) && between 0x90 0xBF b
                   || between 0xF1 0xF3 a && between 0x80 0xBF b
                   || bool_decide (a = 0xF4) && between 0x80 0x8F b)
                  && between 0x80 0xBF c && between 0x80 0xBF d && utf8_valid l4
              end
          end
      end
  end.

(** ** Frames of ar9271.rs *)

Definition FC_PROBE_REQ : Z := 0x0040.
Definition FC_PROBE_RESP : Z := 0x0050.
Definition FC_AUTH : Z := 0x00B0.
Definition FC_ASSOC_REQ : Z := 0x0000.
Definition FC_ASSOC_RESP : Z := 0x0010.
Definition CAP_PRIVACY : Z := 16.
Definition RATES_IE : list Z := [1; 4; 0x82; 0x84; 0x8B; 0x96].
Definition WMI_CMD_SET_CHANNEL : Z := 0x0028.

Definition ssid_ie (s : list Z) : list Z := [0; Z.of_nat (length s) mod 256] ++ s.

(** [htc_wmi_frame] with the sequence number it drew. *)
Definition htc_wmi_frame (seq cmd_id : Z) (payload : list Z) : list Z :=
  let len := Z.of_nat (6 + length payload) in
  [2; 0] ++ [len / 256 mod 256; len mod 256] ++ [0; 0]
    ++ [cmd_id / 256 mod 256; cmd_id mod 256] ++ [seq / 256 mod 256; seq mod 256] ++ [0; 0] ++ payload.

Definition build_probe_request (our_mac s : list Z) : list Z :=
  to_le16 FC_PROBE_REQ ++ [0; 0] ++ replicate 6 0xFF ++ our_mac ++ replicate 6 0xFF ++ [0; 0]
    ++ ssid_ie s ++ RATES_IE.

(** The loop over the information elements. *)
Fixpoint probe_elements (fuel : nat) (frame : list Z) (pos : nat) (s : list Z) (ch : Z) : res (list Z * Z) :=
  if decide (pos + 2 ≤ length frame)%nat then
    match fuel with
    | O => OutOfFuel
    | S fuel' =>
        let! tag := index frame pos in
        let! len := index frame (pos + 1) in
        let len := Z.to_nat len in
        let pos := (pos + 2)%nat in
        if decide (length frame < pos + len)%nat then Ret (s, ch) else
        let! data := slice pos (pos + len) frame in
        let s := if decide (tag = 0) then if utf8_valid data then data else [] else s in
        let! ch := if decide (tag = 3 ∧ len = 1%nat) then index data 0 else Ret ch in
        probe_elements fuel' frame (pos + len) s ch
    end
  else Ret (s, ch).

Definition parse_probe_response (frame : list Z) (rssi : Z) : res (option ApInfo) :=
  if decide (length frame < 36)%nat then Ret None else
  let! fc := le16_at 0 frame in
  let frame_type := Z.land fc 0x00FC in
  if decide (frame_type ≠ Z.land FC_PROBE_RESP 0x00FC ∧ frame_type ≠ 0x0080) then Ret None else
  let! bssid := slice 16 22 frame in
  let! cap := le16_at 34 frame in
  let secured := negb (Z.land cap CAP_PRIVACY =? 0) in
  let! (s, ch) := probe_elements (length frame) frame 36 [] 0 in
  if decide (s = [] ∧ ch = 0) then Ret None else
  Ret (Some (mkAp s bssid ch rssi secured)).

Definition build_mgmt_header (fc : Z) (sa bssid : list Z) : list Z :=
  to_le16 fc ++ [0; 0] ++ bssid ++ sa ++ bssid ++ [0; 0].

Definition LLC_SNAP : list Z := [0xAA; 0xAA; 0x03; 0; 0; 0].
Definition build_data_frame (src dst : list Z) (ethertype : Z) (payload : list Z) : list Z :=
  [0x08; 0x01] ++ [0; 0] ++ dst ++ src ++ dst ++ [0; 0] ++ LLC_SNAP ++ to_be 2 ethertype ++ payload.

Definition EAPOL_TYPE : Z := 0x888E.
Definition KEY_INFO_MIC : Z := 256.
Definition KEY_INFO_ACK : Z := 128.
Definition KEY_INFO_INSTALL : Z := 64.
Definition KEY_INFO_KEY_TYPE : Z := 8.
Definition KEY_INFO_SECURE : Z := 512.

Definition extract_eapol (frame expected_src : list Z) : res (option (list Z)) :=
  if decide (length frame < 36)%nat then Ret None else
  let! fc := le16_at 0 frame in
  if decide (Z.land fc 0x000C ≠ 0x0008) then Ret None else
  let! src := slice 10 16 frame in
  if decide (src ≠ expected_src) then Ret None else
  let! ethertype := be16_at 30 frame in
  if decide (ethertype ≠ EAPOL_TYPE) then Ret None else
  let! p := slice 32 (length frame) frame in
  Ret (Some p).

(** What the four receive loops do with one bulk read: [Some] ends the loop. *)

Definition auth_accept (bssid buf : list Z) : res (option unit) :=
  if decide (length buf < 30)%nat then Ret None else
  let! frame := slice 4 (length buf) buf in
  if decide (length frame < 26)%nat then Ret None else
  let! fc := le16_at 0 frame in
  if decide (Z.land fc 0x00FC ≠ Z.land FC_AUTH 0x00FC) then Ret None else
  let! src := slice 10 16 frame in
  if decide (src ≠ bssid) then Ret None else
  let! seq_num := le16_at 24 frame in
  let! status := le16_at 26 frame in
  Ret (if decide (seq_num = 2 ∧ status = 0) then Some tt else None).

Definition assoc_accept (bssid buf : list Z) : res (option unit) :=
  if decide (length buf < 30)%nat then Ret None else
  let! frame := slice 4 (length buf) buf in
  if decide (length frame < 28)%nat then Ret None else
  let! fc := le16_at 0 frame in
  if decide (Z.land fc 0x00FC ≠ Z.land FC_ASSOC_RESP 0x00FC) then Ret None else
  let! src := slice 10 16 frame in
  if decide (src ≠ bssid) then Ret None else
  let! status := le16_at 26 frame in
  if decide (status = 0) then let! aid := le16_at 28 frame in Ret (Some tt) else Ret None.

Definition msg1_accept (ap_mac buf : list Z) : res (option (list Z)) :=
  if decide (length buf < 30)%nat then Ret None else
  let! frame := slice 4 (length buf) buf in
  let! o := extract_eapol frame ap_mac in
  match o with
  | None => Ret None
  | Some eapol =>
      if decide (length eapol < 95)%nat then Ret None else
      let! key_info := be16_at 5 eapol in
      if decide (Z.land key_info KEY_INFO_ACK ≠ 0 ∧ Z.land key_info KEY_INFO_MIC = 0)
      then let! anonce := slice 17 49 eapol in Ret (Some anonce) else Ret None
  end.

(** The message with its MIC field cleared. *)
Definition clear_mic (eapol : list Z) : res (list Z) := write_at 77 (replicate 16 0) eapol.

Definition msg3_accept (ap_mac kck buf : list Z) : res (option unit) :=
  if decide (length buf < 30)%nat then Ret None else
  let! frame := slice 4 (length buf) buf in
  let! o := extract_eapol frame ap_mac in
  match o with
  | None => Ret None
  | Some eapol =>
      if decide (length eapol < 95)%nat then Ret None else
      let! key_info := be16_at 5 eapol in
      let want := Z.lor (Z.lor KEY_INFO_ACK KEY_INFO_MIC) KEY_INFO_INSTALL in
      if decide (Z.land key_info want = want) then
        let! frame_copy := clear_mic eapol in
        let! expected_mic := eapol_mic kck frame_copy in
        let! mic := slice 77 93 eapol in
        Ret (if decide (expected_mic = mic) then Some tt else None)
      else Ret None
  end.

(** The key frames of messages 2 and 4, with the MIC over the cleared field. *)
Definition eapol_msg (key_info : Z) (key_len nonce : list Z) (kck : list Z) : res (list Z) :=
  let eapol := [2; 3; 0; 0x5F; 2] ++ to_be 2 key_info ++ key_len ++ replicate 8 0 ++ nonce ++ replicate 50 0 in
  let! mic := eapol_mic kck eapol in
  write_at 77 mic eapol.
Definition eapol_msg2 (snonce kck : list Z) : res (list Z) :=
  eapol_msg (Z.lor KEY_INFO_MIC KEY_INFO_KEY_TYPE) [0; 0x10] snonce kck.
Definition eapol_msg4 (kck : list Z) : res (list Z) :=
  eapol_msg (Z.lor (Z.lor KEY_INFO_MIC KEY_INFO_KEY_TYPE) KEY_INFO_SECURE) [0; 0] (replicate 32 0) kck.

(** [for i in 20..32]. *)
Definition snonce_step (n : list Z) (i : nat) : list Z :=
  n ++ [((Z.of_nat i * 0x37) mod 256 + default 0 (last n)) mod 256].
Definition make_snonce (ts : Z) (our_mac bssid : list Z) : list Z :=
  foldl snonce_step (reverse (to_be 8 ts) ++ our_mac ++ bssid) (seq 20 12).

(** ** The code that uses the dongle *)

Section wifi.
Context (h : Hints) (env_now : nat → Z) (usb_in : nat → list Z).

Definition modify_wifi (f : Wifi → Wifi) : net unit := modify (λ s, set_wifi (f (wifi s)) s).

(** [usb::bulk_in] into a buffer of [size] bytes: the bytes read. *)
Definition bulk_in (size : nat) : net (list Z) :=
  modify (λ s, set_tick (S (tick s)) s) ;; gets (λ s, take size (usb_in (tick s))).
Definition bulk_out (frame : list Z) : net unit := modify_wifi (λ w, set_usb_sent (usb_sent w ++ [frame]) w).

(** [while uptime_ms() < deadline { bulk_in(..); .. }]. *)
Fixpoint usb_wait {A} (fuel : nat) (deadline : Z) (size : nat) (accept : list Z → res (option A)) : net (option A) :=
  now ← gets (uptime_ms env_now);
  if decide (now < deadline) then
    match fuel with
    | O => unfinished
    | S fuel' =>
        buf ← bulk_in size;
        o ← lift (accept buf);
        match o with
        | Some a => mret (Some a)
        | None => usb_wait fuel' deadline size accept
        end
    end
  else mret None.

Definition wait_for {A} (fuel : nat) (timeout : Z) (size : nat) (accept : list Z → res (option A)) : net (option A) :=
  now ← gets (uptime_ms env_now); usb_wait fuel (add64 now timeout) size accept.
Definition wait_for_auth_response (fuel : nat) (bssid : list Z) : net bool :=
  o ← wait_for fuel 2000 64 (auth_accept bssid); mret (bool_decide (is_Some o)).
Definition wait_for_assoc_response (fuel : nat) (bssid : list Z) : net bool :=
  o ← wait_for fuel 2000 128 (assoc_accept bssid); mret (bool_decide (is_Some o)).

Definition auth_request (our_mac bssid : list Z) : list Z :=
  build_mgmt_header FC_AUTH our_mac bssid ++ [0; 0] ++ [1; 0] ++ [0; 0].

Definition connect_open (fuel : nat) (ap : ApInfo) : net bool :=
  our_mac ← gets OUR_MAC;
  bulk_out (auth_request our_mac (bssid ap)) ;;
  ok ← wait_for_auth_response fuel (bssid ap);
  if (ok : bool) then
    bulk_out (build_mgmt_header FC_ASSOC_REQ our_mac (bssid ap) ++ [0x21; 0] ++ [0x64; 0] ++ ssid_ie (ssid ap) ++ RATES_IE) ;;
    wait_for_assoc_response fuel (bssid ap)
  else mret false.

Definition RSN_IE : list Z :=
  [0x30; 0x14; 0x01; 0x00; 0x00; 0x0F; 0xAC; 0x04; 0x01; 0x00; 0x00; 0x0F; 0xAC; 0x04; 0x01; 0x00;
   0x00; 0x0F; 0xAC; 0x02; 0x00; 0x00].

Definition set_tk (tk bssid our_mac : list Z) : net unit :=
  modify_wifi (λ w, set_WIFI_MAC our_mac (set_WIFI_BSSID bssid (set_WIFI_TK tk w))).

Definition connect_wpa2 (fuel : nat) (ap : ApInfo) (passphrase : list Z) : net bool :=
  pmk ← lift (derive_pmk passphrase (ssid ap));
  our_mac ← gets OUR_MAC;
  bulk_out (auth_request our_mac (bssid ap)) ;;
  ok ← wait_for_auth_response fuel (bssid ap);
  if negb (ok : bool) then mret false else
  bulk_out (build_mgmt_header FC_ASSOC_REQ our_mac (bssid ap) ++ [0x31; 0x04] ++ [0x64; 0] ++ ssid_ie (ssid ap)
              ++ RATES_IE ++ RSN_IE) ;;
  ok ← wait_for_assoc_response fuel (bssid ap);
  if negb (ok : bool) then mret false else
  ts ← gets (uptime_ms env_now);
  let snonce := make_snonce ts our_mac (bssid ap) in
  o ← wait_for fuel 3000 256 (msg1_accept (bssid ap));
  match o with
  | None => mret false
  | Some anonce =>
      ptk ← lift (derive_ptk pmk anonce snonce (bssid ap) our_mac);
      kck ← lift (slice 0 16 ptk);
      msg2 ← lift (eapol_msg2 snonce kck);
      bulk_out (build_data_frame our_mac (bssid ap) EAPOL_TYPE msg2) ;;
      o ← wait_for fuel 3000 512 (msg3_accept (bssid ap) kck);
      match o with
      | None => mret false
      | Some _ =>
          msg4 ← lift (eapol_msg4 kck);
          bulk_out (build_data_frame our_mac (bssid ap) EAPOL_TYPE msg4) ;;
          tk ← lift (slice 32 48 ptk);
          set_tk tk (bssid ap) our_mac ;;
          mret true
      end
  end.

(** ** Scanning *)

Definition set_channel (ch : Z) : net unit :=
  seq ← gets (λ s, WMI_SEQ (wifi s));
  modify_wifi (set_WMI_SEQ ((seq + 1) mod 65536)) ;;
  let freq := 2407 + ch * 5 in
  bulk_out (htc_wmi_frame seq WMI_CMD_SET_CHANNEL [freq / 256 mod 256; Z.land freq 0xFF; 0; ch]).

(** [buf[2] as i8]. *)
Definition as_i8 (x : Z) : Z := if decide (x < 128) then x else x - 256.
Definition add_ap (aps : list ApInfo) (o : option ApInfo) : list ApInfo :=
  match o with
  | Some ap => if existsb (λ a, bool_decide (bssid a = bssid ap)) aps then aps else aps ++ [ap]
  | None => aps
  end.

Fixpoint scan_collect (fuel : nat) (deadline : Z) (aps : list ApInfo) : net (list ApInfo) :=
  now ← gets (uptime_ms env_now);
  if decide (now < deadline) then
    match fuel with
    | O => unfinished
    | S fuel' =>
        buf ← bulk_in 2346;
        if decide (length buf < 4)%nat then scan_collect fuel' deadline aps else
        r ← lift (index buf 2);
        frame ← lift (slice 4 (length buf) buf);
        o ← lift (parse_probe_response frame (as_i8 r));
        scan_collect fuel' deadline (add_ap aps o)
    end
  else mret aps.

Fixpoint scan_channels (fuel : nat) (our_mac : list Z) (chs : list Z) (aps : list ApInfo) : net (list ApInfo) :=
  match chs with
  | [] => mret aps
  | ch :: chs' =>
      set_channel ch ;;
      bulk_out (build_probe_request our_mac []) ;;
      now ← gets (uptime_ms env_now);
      aps ← scan_collect fuel (add64 now 50) aps;
      scan_channels fuel our_mac chs' aps
  end.
Definition scan_networks (fuel : nat) : net (list ApInfo) :=
  our_mac ← gets OUR_MAC;
  scan_channels fuel our_mac [1; 6; 11; 2; 3; 4; 5; 7; 8; 9; 10; 12; 13; 14] [].

Definition scan (fuel : nat) : net (list ApInfo) :=
  w ← gets wifi;
  if decide (AR9271_SLOT w = 0xFF) then mret (scan_cache w) else
  aps ← scan_networks fuel;
  (if decide (aps ≠ []) then modify_wifi (set_scan_cache aps) else mret ()) ;;
  mret aps.

(** ** The data plane *)

Definition wifi_tx (eth_frame tk bssid our_mac : list Z) : net unit :=
  if decide (length eth_frame < 14)%nat then mret () else
  pn ← gets (λ s, WIFI_PN (wifi s));
  modify_wifi (set_WIFI_PN (add64 pn 1)) ;;
  da ← lift (slice 0 6 eth_frame);
  let mac_hdr := [0x08; 0x41; 0; 0] ++ bssid ++ our_mac ++ da ++ [0; 0] in
  ethertype ← lift (be16_at 12 eth_frame);
  payload ← lift (slice 14 (length eth_frame) eth_frame);
  ciphertext ← lift (ccmp_encrypt tk mac_hdr our_mac pn (LLC_SNAP ++ to_be 2 ethertype ++ payload));
  bulk_out (mac_hdr ++ ccmp_header pn ++ ciphertext).

Definition wifi_tx_open (eth_frame bssid our_mac : list Z) : net unit :=
  if decide (length eth_frame < 14)%nat then mret () else
  ethertype ← lift (be16_at 12 eth_frame);
  payload ← lift (slice 14 (length eth_frame) eth_frame);
  bulk_out (build_data_frame our_mac bssid ethertype payload).

Definition null_frame (bssid our_mac : list Z) : list Z :=
  [0x48; 0x01; 0; 0] ++ bssid ++ our_mac ++ bssid ++ [0; 0].

(** The end of [poll]: inject the frame, send the reply. *)
Definition inject (eth : list Z) (tx : list Z → net unit) : net unit :=
  o ← handle_frame h env_now eth;
  match o with
  | Some reply => tx reply
  | None => mret ()
  end.

Definition rx_protected (frame tk bssid our_mac : list Z) : net unit :=
  mac_hdr ← lift (slice 0 24 frame);
  o ← lift (ccmp_decrypt tk frame);
  match o with
  | None => mret ()
  | Some plaintext =>
      if decide (length plaintext < 8)%nat then mret () else
      ethertype ← lift (be16_at 6 plaintext);
      payload ← lift (slice 8 (length plaintext) plaintext);
      da ← lift (slice 4 10 mac_hdr);
      sa ← lift (slice 16 22 mac_hdr);
      inject (da ++ sa ++ to_be 2 ethertype ++ payload) (λ reply, wifi_tx reply tk bssid our_mac)
  end.

Definition rx_open (frame bssid our_mac : list Z) : net unit :=
  if decide (length frame < 32)%nat then mret () else
  ethertype ← lift (be16_at 30 frame);
  payload ← lift (slice 32 (length frame) frame);
  da ← lift (slice 4 10 frame);
  sa ← lift (slice 16 22 frame);
  inject (da ++ sa ++ to_be 2 ethertype ++ payload) (λ reply, wifi_tx_open reply bssid our_mac).

Definition wifi_poll : net unit :=
  w ← gets wifi;
  if decide (AR9271_SLOT w = 0xFF ∨ connected w = false) then mret () else
  let tk := WIFI_TK w in let bssid := WIFI_BSSID w in let our_mac := WIFI_MAC w in
  now ← gets (uptime_ms env_now);
  (if decide (30000 ≤ sat_sub now (WIFI_LAST_KEEPALIVE w)) then
     modify_wifi (set_WIFI_LAST_KEEPALIVE now) ;; bulk_out (null_frame bssid our_mac)
   else mret ()) ;;
  buf ← bulk_in 2346;
  if decide (length buf < 32)%nat then mret () else
  frame ← lift (slice 4 (length buf) buf);
  if decide (length frame < 28)%nat then mret () else
  fc ← lift (le16_at 0 frame);
  let frame_type := Z.land (Z.shiftr fc 2) 0x3 in
  let frame_subtype := Z.land (Z.shiftr fc 4) 0xF in
  if decide (frame_type = 2 ∧ Z.land fc 0x4000 ≠ 0) then rx_protected frame tk bssid our_mac
  else if decide (frame_type = 2 ∧ frame_subtype = 0) then rx_open frame bssid our_mac
  else mret ().

(** ** Connecting *)

(** [loop { wifi::poll(); .. }]. *)
Fixpoint wifi_dhcp_wait (fuel : nat) (deadline : Z) : net (option DhcpOffer) :=
  match fuel with
  | O => unfinished
  | S fuel' =>
      wifi_poll ;;
      o ← take_dhcp_reply;
      match o with
      | Some offer => mret (Some offer)
      | None =>
          now ← gets (uptime_ms env_now);
          if decide (deadline ≤ now) then mret None else wifi_dhcp_wait fuel' deadline
      end
  end.

Definition wifi_tx_open_pub (frame : list Z) : net unit :=
  w ← gets wifi; wifi_tx_open frame (WIFI_BSSID w) (WIFI_MAC w).

Definition dhcp_request_wifi (fuel : nat) : net bool :=
  our_mac ← gets (λ s, WIFI_MAC (wifi s));
  if decide (our_mac = replicate 6 0) then mret false else
  frame ← lift (dhcp_frame our_mac DHCP_DISCOVER None);
  modify (λ s, set_DHCP_PENDING true (set_DHCP_REPLY None s)) ;;
  wifi_tx_open_pub frame ;;
  now ← gets (uptime_ms env_now);
  o ← wifi_dhcp_wait fuel (add64 now 5000);
  match o with
  | None => modify (set_DHCP_PENDING false) ;; mret false
  | Some offer =>
      frame ← lift (dhcp_frame our_mac DHCP_REQUEST (Some (your_ip offer)));
      modify (set_DHCP_REPLY None) ;;
      wifi_tx_open_pub frame ;;
      now ← gets (uptime_ms env_now);
      o ← wifi_dhcp_wait fuel (add64 now 5000);
      modify (set_DHCP_PENDING false) ;;
      match o with
      | None => mret false
      | Some ack => modify_wifi (set_WIFI_IP (your_ip ack)) ;; mret true
      end
  end.

Definition wifi_connect (fuel : nat) (name passphrase : list Z) : net bool :=
  w ← gets wifi;
  if WIFI_READY w then
    match snd <$> list_find (λ a, ssid a = name) (scan_cache w) with
    | None => mret false
    | Some ap =>
        ok ← (if secured ap then connect_wpa2 fuel ap passphrase else connect_open fuel ap);
        if (ok : bool) then
          modify_wifi (λ w, set_current_ap (Some ap) (set_connected true w)) ;;
          dhcp_request_wifi fuel ;;
          mret true
        else mret false
    end
  else mret false.

Definition disconnect : net unit := modify_wifi (λ w, set_current_ap None (set_connected false w)).
End wifi.
