(* ===== verification/WifiProps.v ===== *)
(** What the Wi-Fi code accepts: protected and open frames, the authentication
    response, and the key handshake. *)
From stdpp Require Import base numbers list gmap.
From S2P Require Import Prelude Bytes Sha1 Sha1Facts Sha1Props Aes AesFacts AesProps NetWire NetWireFacts NetProto Tcp NetState Net NetFacts TcpProps Wifi.

(** ** Receiving data frames *)

Section rx.
Context (h : Hints) (env_now : nat → Z) (usb_in : nat → list Z).

(** The state after the read of a poll in which no keepalive is due. *)
Definition after_read (s : NetState) : NetState := set_tick (S (tick s)) s.

Record listening (s : NetState) : Prop := {
  has_slot : AR9271_SLOT (wifi s) ≠ 0xFF;
  is_connected : connected (wifi s) = true;
  no_keepalive : sat_sub (env_now (tick s)) (WIFI_LAST_KEEPALIVE (wifi s)) < 30000
}.

(** A poll up to the dispatch on the frame type. *)
Lemma wifi_poll_dispatch s desc frame fc : listening s →
  usb_in (S (tick s)) = desc ++ frame → length desc = 4%nat →
  (28 ≤ length frame)%nat → Z.of_nat (length frame) ≤ 2342 → le16_at 0 frame = Ret fc →
  wifi_poll h env_now usb_in s =
    (if decide (Z.land (Z.shiftr fc 2) 0x3 = 2 ∧ Z.land fc 0x4000 ≠ 0)
     then rx_protected h env_now frame (WIFI_TK (wifi s)) (WIFI_BSSID (wifi s)) (WIFI_MAC (wifi s))
     else if decide (Z.land (Z.shiftr fc 2) 0x3 = 2 ∧ Z.land (Z.shiftr fc 4) 0xF = 0)
     then rx_open h env_now frame (WIFI_BSSID (wifi s)) (WIFI_MAC (wifi s))
     else mret ()) (after_read s).
Proof.
  intros [H1 H2 H3] Hin Hd Hl1 Hl2 Hfc. unfold wifi_poll. erewrite bind_done by done. cbv beta.
  rewrite decide_False by (rewrite H2; intros [?|?]; done). cbv zeta.
  erewrite bind_done by done. rewrite decide_False by (unfold uptime_ms; lia).
  erewrite bind_done by done. unfold bulk_in.
  erewrite bind_done; [|erewrite bind_done by done; reflexivity].
  change (tick (set_tick (S (tick s)) s)) with (S (tick s)). rewrite Hin.
  rewrite take_ge by (rewrite length_app, Hd; lia).
  rewrite decide_False by (rewrite length_app; lia).
  erewrite bind_done; [|rewrite slice_to_end by (rewrite length_app; lia); rewrite drop_app_length' by done; reflexivity].
  rewrite decide_False by lia. erewrite bind_done; [|rewrite Hfc; reflexivity]. done.
Qed.

(** An unprotected data frame as an access point relays it. *)
Definition open_frame (da a2 sa : list Z) (et : Z) (payload : list Z) : list Z :=
  [0x08; 0x02; 0; 0] ++ da ++ a2 ++ sa ++ [0; 0] ++ LLC_SNAP ++ to_be 2 et ++ payload.

(** Unprotected frames are accepted on a protected network. While connected,
    whatever key is installed, an unprotected data frame with any addresses is
    handled like traffic from the network: the Ethernet frame it carries goes to
    the protocol stack, and the reply goes out unencrypted. *)
Theorem unprotected_accepted (s : NetState) (desc da a2 sa : list Z) (et : Z) (payload : list Z) :
  listening s → length desc = 4%nat → length da = 6%nat → length a2 = 6%nat → length sa = 6%nat →
  word_ok et → Z.of_nat (length payload) ≤ 2310 →
  usb_in (S (tick s)) = desc ++ open_frame da a2 sa et payload →
  wifi_poll h env_now usb_in s =
    inject h env_now (eth_build da sa et payload)
      (λ reply, wifi_tx_open reply (WIFI_BSSID (wifi s)) (WIFI_MAC (wifi s))) (after_read s).
Proof.
  intros Hs Hdesc Hda Ha2 Hsa Het Hp Hin.
  assert (Hlen : length (open_frame da a2 sa et payload) = (32 + length payload)%nat).
  { unfold open_frame. rewrite !length_app, length_to_be, Hda, Ha2, Hsa. simpl. lia. }
  rewrite (wifi_poll_dispatch s desc _ 0x0208 Hs Hin Hdesc) by (rewrite ?Hlen; (lia || done)).
  rewrite decide_False by (intros [_ ?]; done). rewrite decide_True by done.
  unfold rx_open. rewrite decide_False by lia. rewrite Hlen.
  destruct (to_be2_bytes et) as (e0 & e1 & Ee & Fe).
  explode da Hda 6. explode a2 Ha2 6. explode sa Hsa 6. unfold open_frame, LLC_SNAP. rewrite Ee. cbn [app].
  erewrite bind_done; [|unfold be16_at; run_parser; rewrite Fe by done; reflexivity].
  erewrite bind_done; [|rewrite slice_ok by (simpl; lia); cbn [drop]; rewrite drop_0, take_ge by lia; reflexivity].
  erewrite bind_done; [|run_parser; reflexivity]. erewrite bind_done; [|run_parser; reflexivity].
  done.
Qed.

(** A protected data frame of an access point that uses the key [tk]. *)
Definition protected_hdr (da a2 sa seq : list Z) : list Z := [0x08; 0x42; 0; 0] ++ da ++ a2 ++ sa ++ seq.

(** A protected frame of the network is decrypted and handled, in every state
    with the key installed. Since the result does not depend on the frame's packet
    number or on what was received before, a recorded frame that is sent again is
    handled again. *)
Theorem protected_delivered (s : NetState) (desc da a2 sa seq : list Z) (pn et : Z) (payload : list Z) :
  listening s → block_ok (WIFI_TK (wifi s)) → length desc = 4%nat →
  mac_ok da → mac_ok a2 → mac_ok sa → length seq = 2%nat → bytes_ok seq → word_ok et → bytes_ok payload →
  Z.of_nat (length payload) ≤ 2290 →
  ∃ ct, ccmp_encrypt (WIFI_TK (wifi s)) (protected_hdr da a2 sa seq) a2 pn (LLC_SNAP ++ to_be 2 et ++ payload) = Ret ct ∧
    (usb_in (S (tick s)) = desc ++ protected_hdr da a2 sa seq ++ ccmp_header pn ++ ct →
     wifi_poll h env_now usb_in s =
       inject h env_now (eth_build da sa et payload)
         (λ reply, wifi_tx reply (WIFI_TK (wifi s)) (WIFI_BSSID (wifi s)) (WIFI_MAC (wifi s))) (after_read s)).
Proof.
  intros Hs Htk Hdesc [Hda Bda] [Ha2 Ba2] [Hsa Bsa] Hsq Bsq Het Bp Hp.
  set (hdr := protected_hdr da a2 sa seq). set (pt := LLC_SNAP ++ to_be 2 et ++ payload).
  assert (Hh : length hdr = 24%nat) by (unfold hdr, protected_hdr; rewrite !length_app, Hda, Ha2, Hsa, Hsq; done).
  assert (Hpt : length pt = (8 + length payload)%nat) by (unfold pt; rewrite !length_app, length_to_be; simpl; lia).
  assert (Ea2 : take 6 (drop 10 hdr) = a2).
  { unfold hdr, protected_hdr. rewrite app_assoc, drop_app_length' by (rewrite length_app, Hda; done).
    by rewrite take_app_length' by done. }
  destruct (ccmp_roundtrip (WIFI_TK (wifi s)) hdr pn pt) as (ct & Ec & Hct & Ed); [done|done| | |].
  { unfold hdr, protected_hdr. solve_bytes. }
  { unfold pt, LLC_SNAP. solve_bytes. }
  rewrite Ea2 in Ec. exists ct. split; [done|]. intros Hin.
  assert (Hlen : length (hdr ++ ccmp_header pn ++ ct) = (48 + length payload)%nat).
  { rewrite !length_app, Hh, Hct, Hpt. simpl. lia. }
  rewrite (wifi_poll_dispatch s desc _ 0x4208 Hs Hin Hdesc) by (rewrite ?Hlen; (lia || done)).
  rewrite decide_True by done. unfold rx_protected.
  erewrite bind_done; [|rewrite slice_ok by lia; rewrite drop_0, take_app_length' by lia; reflexivity].
  erewrite bind_done; [|rewrite Ed; reflexivity]. cbv beta iota. rewrite decide_False by lia.
  destruct (to_be2_bytes et) as (e0 & e1 & Ee & Fe).
  erewrite bind_done; [|unfold be16_at, pt, LLC_SNAP; rewrite Ee; cbn [app]; run_parser; rewrite Fe by done; reflexivity].
  erewrite bind_done; [|rewrite slice_to_end by lia; reflexivity].
  do 2 (erewrite bind_done; [|rewrite slice_ok by lia; reflexivity]).
  replace (take (22 - 16) (drop 16 hdr)) with sa.
  { by replace (take (10 - 4) (drop 4 hdr)) with da by 
      (unfold hdr, protected_hdr; rewrite drop_app_length' by done; by rewrite take_app_length' by done). }
  unfold hdr, protected_hdr. rewrite 2!app_assoc, drop_app_length' by (rewrite !length_app, Hda, Ha2; done).
  by rewrite take_app_length' by done.
Qed.
End rx.

(** ** Waiting for the dongle *)

(** What the wait loops leave alone. *)
Definition same_link (s s' : NetState) : Prop := wifi s' = wifi s ∧ OUR_MAC s' = OUR_MAC s.

Section link.
Context (env_now : nat → Z) (usb_in : nat → list Z).

Lemma usb_wait_sound {A} fuel deadline size (accept : list Z → res (option A)) s o s' :
  usb_wait env_now usb_in fuel deadline size accept s = Done o s' →
  same_link s s' ∧ (tick s ≤ tick s')%nat ∧
  ∀ a, o = Some a → ∃ t, (tick s < t ≤ tick s')%nat ∧ accept (take size (usb_in t)) = Ret (Some a).
Proof.
  revert s. induction fuel as [|fuel IH]; intros s; cbn [usb_wait]; (erewrite bind_done by done);
    (case_decide; [|intros [= <- <-]; by repeat split]); [done|].
  unfold bulk_in. erewrite bind_done; [|erewrite bind_done by done; reflexivity]. cbv beta.
  change (tick (set_tick (S (tick s)) s)) with (S (tick s)).
  destruct (accept (take size (usb_in (S (tick s))))) as [[a|]| |] eqn:Ea; try done.
  - erewrite bind_done by done. intros [= <- <-]. split; [done|]. split; [cbn; lia|].
    intros a' [= <-]. exists (S (tick s)). split; [cbn; lia|done].
  - erewrite bind_done by done. cbv beta iota. intros E.
    destruct (IH _ E) as ([H1 H2] & H3 & H4). cbn in H1, H2, H3.
    split; [by split|]. split; [lia|]. intros a' Ho. destruct (H4 a' Ho) as (t & Ht & Et). exists t. cbn in Ht. split; [lia|done].
Qed.

Lemma wait_for_sound {A} fuel timeout size (accept : list Z → res (option A)) s o s' :
  wait_for env_now usb_in fuel timeout size accept s = Done o s' →
  same_link s s' ∧ (tick s ≤ tick s')%nat ∧
  ∀ a, o = Some a → ∃ t, (tick s < t ≤ tick s')%nat ∧ accept (take size (usb_in t)) = Ret (Some a).
Proof. unfold wait_for. erewrite bind_done by done. apply usb_wait_sound. Qed.

(** ** The authentication response *)

(** The header of a management frame from the access point. *)
Definition mgmt_from (fc : Z) (sta ap : list Z) : list Z :=
  to_le16 fc ++ [0; 0] ++ sta ++ ap ++ ap ++ [0; 0].
(** Success: algorithm 0, as in [auth_request], transaction 2, status 0. *)
Definition auth_success (sta ap rest : list Z) : list Z :=
  mgmt_from FC_AUTH sta ap ++ [0; 0] ++ [2; 0] ++ [0; 0] ++ rest.

Lemma auth_success_rejected desc sta ap rest : length desc = 4%nat → length sta = 6%nat → length ap = 6%nat →
  auth_accept ap (desc ++ auth_success sta ap rest) = Ret None.
Proof.
  intros H1 H2 H3. explode desc H1 4. explode sta H2 6. explode ap H3 6.
  unfold auth_accept, auth_success, mgmt_from, to_le16, le16_at. cbn -[length slice decide take]. rewrite decide_False by (simpl; lia).
  rewrite slice_to_end by (simpl; lia). cbn [drop res_bind]. run_parser. done.
Qed.

Lemma short_auth_panics desc sta ap : length desc = 4%nat → length sta = 6%nat → length ap = 6%nat →
  auth_accept ap (desc ++ mgmt_from FC_AUTH sta ap ++ [0; 0]) = Panic.
Proof.
  intros H1 H2 H3. explode desc H1 4. explode sta H2 6. explode ap H3 6.
  unfold auth_accept, mgmt_from, to_le16, le16_at. cbn -[length slice decide take]. rewrite decide_False by (simpl; lia).
  rewrite slice_to_end by (simpl; lia). cbn [drop res_bind]. run_parser.
  unfold slice, slice_get. by rewrite decide_False by (simpl; lia).
Qed.

(** The authentication response is misread. Reading the fields two bytes too
    early, the code rejects every success response laid out like its own request
    (algorithm, transaction, status), so with an access point that sends only
    such responses an open connection is never made. And a response cut off after
    the algorithm number, from the access point's address, makes the kernel panic. *)
Theorem auth_response_misread (fuel : nat) (ap : ApInfo) (s : NetState) (sta : list Z) :
  length (bssid ap) = 6%nat → length sta = 6%nat →
  ((∀ t, ∃ desc rest, length desc = 4%nat ∧
       take 64 (usb_in t) = desc ++ auth_success sta (bssid ap) rest) →
     ∀ s', connect_open env_now usb_in fuel ap s ≠ Done true s') ∧
  ((∃ desc, length desc = 4%nat ∧ usb_in (S (tick s)) = desc ++ mgmt_from FC_AUTH sta (bssid ap) ++ [0; 0]) →
     is_u64 (env_now (tick s) + 2000) → connect_open env_now usb_in (S fuel) ap s = Crashed).
Proof.
  intros Hap Hsta. split.
  - intros Hin s'. unfold connect_open. erewrite bind_done by done. erewrite bind_done by done.
    unfold wait_for_auth_response. intros E. unfold mbind at 1, net_bind at 1 in E.
    unfold mbind at 1, net_bind at 1 in E.
    destruct (wait_for env_now usb_in fuel 2000 64 (auth_accept (bssid ap)) _) as [o s1| | |] eqn:Ew; try done.
    destruct (wait_for_sound _ _ _ _ _ _ _ Ew) as (_ & _ & Hs). destruct o as [a|]; [|done].
    destruct (Hs a eq_refl) as (t & _ & Et). destruct (Hin t) as (desc & rest & Hd & Hin').
    rewrite Hin', auth_success_rejected in Et by done. done.
  - intros (desc & Hd & Hin) Ht. unfold connect_open. erewrite bind_done by done. erewrite bind_done by done.
    unfold wait_for_auth_response, wait_for. unfold mbind at 1, net_bind at 1. unfold mbind at 1, net_bind at 1.
    erewrite bind_done by done. cbn [usb_wait]. erewrite bind_done by done.
    rewrite decide_True by (unfold uptime_ms; cbn; rewrite add64_small by (exact Ht); lia).
    unfold bulk_in. erewrite bind_done; [|erewrite bind_done by done; reflexivity].
    unfold mbind, net_bind. cbn [tick modify_wifi]. 
    match goal with |- context [take 64 (usb_in ?t)] => change t with (S (tick s)) end.
    rewrite Hin. rewrite take_ge.
    + by rewrite short_auth_panics.
    + unfold mgmt_from. rewrite !length_app, Hd, Hsta, Hap. simpl. lia.
Qed.

(** ** The key handshake *)

(** The message a bulk read holds, if it is a key frame of the access point. *)
Definition eapol_of (ap buf : list Z) : res (option (list Z)) :=
  let! frame := slice 4 (length buf) buf in extract_eapol frame ap.

(** The key information of a message 3: acknowledge (bit 7), MIC present (bit 8) and
    install (bit 6), which no other message of the handshake has together. *)
Definition message3 (key_info : Z) : Prop :=
  Z.testbit key_info 7 = true ∧ Z.testbit key_info 8 = true ∧ Z.testbit key_info 6 = true.
Lemma message3_flags ki : Z.land ki 448 = 448 → message3 ki.
Proof.
  intros H. assert (Hb : ∀ i, Z.testbit 448 i = true → Z.testbit ki i = true).
  { intros i Hi. rewrite <- H, Z.land_spec in Hi. by apply andb_prop in Hi as [? _]. }
  split_and!; apply Hb; reflexivity.
Qed.

Lemma msg3_accept_spec ap kck buf : msg3_accept ap kck buf = Ret (Some tt) →
  ∃ eapol ki cleared mic, eapol_of ap buf = Ret (Some eapol) ∧ be16_at 5 eapol = Ret ki ∧ message3 ki ∧
    clear_mic eapol = Ret cleared ∧ eapol_mic kck cleared = Ret mic ∧ slice 77 93 eapol = Ret mic.
Proof.
  unfold msg3_accept, eapol_of. case_decide; [done|].
  destruct (slice 4 (length buf) buf) as [frame| |]; try done. cbn [res_bind].
  destruct (extract_eapol frame ap) as [[eapol|]| |]; try done. cbn [res_bind]. case_decide; [done|].
  destruct (be16_at 5 eapol) as [ki| |] eqn:Ek; try done. cbn [res_bind]. cbv zeta. case_decide as Hw; [|done].
  destruct (clear_mic eapol) as [c| |] eqn:Ec; try done. cbn [res_bind].
  destruct (eapol_mic kck c) as [m| |] eqn:Em; try done. cbn [res_bind].
  destruct (slice 77 93 eapol) as [m'| |] eqn:Es; try done. cbn [res_bind]. case_decide; [|done]. subst.
  intros _. exists eapol, ki, c, m'. split_and!; try done. by apply message3_flags.
Qed.

(** Step through a successful run. *)
Lemma bind_inv {A B} (m : net A) (k : A → net B) s b s' :
  (m ≫= k) s = Done b s' → ∃ a s1, m s = Done a s1 ∧ k a s1 = Done b s'.
Proof. unfold mbind, net_bind. destruct (m s) as [a s1| | |]; try done. eauto. Qed.
Lemma lift_inv {A} (r : res A) s a s' : lift r s = Done a s' → r = Ret a ∧ s' = s.
Proof. unfold lift. destruct r; by intros [= -> ->]. Qed.

Lemma wait_bool_inv fuel timeout size (accept : list Z → res (option unit)) s ok s' :
  (o ← wait_for env_now usb_in fuel timeout size accept; mret (bool_decide (is_Some o))) s = Done ok s' →
  same_link s s' ∧ (tick s ≤ tick s')%nat.
Proof.
  intros (o & s1 & E & E')%bind_inv. injection E' as _ <-.
  destruct (wait_for_sound _ _ _ _ _ _ _ E) as (H & H' & _). done.
Qed.

(** C28. A protected connection needs a valid message 3. If [connect_wpa2] reports
    success, then with PMK = PBKDF2(passphrase, SSID), a first message of the
    access point gave a nonce, the keys were derived from it, a later EAPOL frame of
    the access point was a message 3 (its key information has the acknowledge, MIC and
    install flags) and carried the MIC that the derived confirmation key gives for
    it, and the installed key is bytes 32 to 48 of those keys. *)
Theorem wpa2_requires_mic (fuel : nat) (ap : ApInfo) (passphrase : list Z) (s s' : NetState) :
  connect_wpa2 env_now usb_in fuel ap passphrase s = Done true s' →
  ∃ pmk anonce ts ptk kck t1 t3 eapol ki cleared mic tk,
    derive_pmk passphrase (ssid ap) = Ret pmk ∧
    msg1_accept (bssid ap) (take 256 (usb_in t1)) = Ret (Some anonce) ∧
    derive_ptk pmk anonce (make_snonce ts (OUR_MAC s) (bssid ap)) (bssid ap) (OUR_MAC s) = Ret ptk ∧
    slice 0 16 ptk = Ret kck ∧ (tick s < t1 < t3)%nat ∧
    eapol_of (bssid ap) (take 512 (usb_in t3)) = Ret (Some eapol) ∧ be16_at 5 eapol = Ret ki ∧ message3 ki ∧
    clear_mic eapol = Ret cleared ∧ eapol_mic kck cleared = Ret mic ∧ slice 77 93 eapol = Ret mic ∧
    slice 32 48 ptk = Ret tk ∧ WIFI_TK (wifi s') = tk ∧ WIFI_BSSID (wifi s') = bssid ap.
Proof.
  unfold connect_wpa2.
  intros (pmk & s0 & [Epmk ->]%lift_inv & E)%bind_inv.
  apply bind_inv in E as (our_mac & ? & [= <- <-] & E).
  apply bind_inv in E as (? & s1 & [= _ <-] & E).
  apply bind_inv in E as (ok & s2 & [[L1 M1] T1]%wait_bool_inv & E). destruct ok; [|done]. cbn [negb] in E.
  apply bind_inv in E as (? & s3 & [= _ <-] & E).
  apply bind_inv in E as (ok & s4 & [[L2 M2] T2]%wait_bool_inv & E). destruct ok; [|done]. cbn [negb] in E.
  apply bind_inv in E as (ts & ? & [= <- <-] & E). cbv zeta in E.
  apply bind_inv in E as (o & s5 & W1 & E). destruct o as [anonce|]; [|done].
  destruct (wait_for_sound _ _ _ _ _ _ _ W1) as ([L3 M3] & T3 & S3).
  destruct (S3 anonce eq_refl) as (t1 & Ht1 & E1).
  apply bind_inv in E as (ptk & ? & [Eptk ->]%lift_inv & E).
  apply bind_inv in E as (kck & ? & [Ekck ->]%lift_inv & E).
  apply bind_inv in E as (msg2 & ? & [_ ->]%lift_inv & E).
  apply bind_inv in E as (? & s6 & [= _ <-] & E).
  apply bind_inv in E as (o & s7 & W3 & E). destruct o as [[]|]; [|done].
  destruct (wait_for_sound _ _ _ _ _ _ _ W3) as ([L4 M4] & T4 & S4).
  destruct (S4 tt eq_refl) as (t3 & Ht3 & E3).
  apply bind_inv in E as (msg4 & ? & [_ ->]%lift_inv & E).
  apply bind_inv in E as (? & s8 & [= _ <-] & E).
  apply bind_inv in E as (tk & ? & [Etk ->]%lift_inv & E).
  apply bind_inv in E as (? & s9 & [= _ <-] & E). injection E as <-.
  destruct (msg3_accept_spec _ _ _ E3) as (eapol & ki & cleared & mic & F1 & F2 & F3 & F4 & F5 & F6).
  exists pmk, anonce, (uptime_ms env_now s4), ptk, kck, t1, t3, eapol, ki, cleared, mic, tk.
  cbn [tick set_wifi] in T1, T2, T3, T4, Ht1, Ht3.
  split_and!; try first [assumption|reflexivity|lia].
Qed.
End link.

(** ** A handshake that succeeds *)

#[local] Opaque derive_pmk derive_ptk aes_cmac.

(** The key messages this code builds verify under the same key. *)
Lemma eapol_msg_verifies ki key_len nonce kck : block_ok kck → word_ok ki →
  length key_len = 2%nat → bytes_ok key_len → length nonce = 32%nat → bytes_ok nonce →
  ∃ m cleared mic, eapol_msg ki key_len nonce kck = Ret m ∧ length m = 99%nat ∧ be16_at 5 m = Ret ki ∧
    clear_mic m = Ret cleared ∧ eapol_mic kck cleared = Ret mic ∧ slice 77 93 m = Ret mic.
Proof.
  intros Hk Hki Hl Bl Hn Bn. unfold eapol_msg. cbv zeta.
  set (pre := [2; 3; 0; 0x5F; 2] ++ to_be 2 ki ++ key_len ++ replicate 8 0 ++ nonce ++ replicate 28 0).
  assert (Hpre : length pre = 77%nat).
  { unfold pre. rewrite !length_app, length_to_be, Hl, Hn, !length_replicate. done. }
  assert (E0 : [2; 3; 0; 0x5F; 2] ++ to_be 2 ki ++ key_len ++ replicate 8 0 ++ nonce ++ replicate 50 0 =
    pre ++ replicate 16 0 ++ replicate 6 0).
  { unfold pre. by rewrite <- !app_assoc. }
  rewrite E0. set (e0 := pre ++ replicate 16 0 ++ replicate 6 0).
  assert (Be0 : bytes_ok e0).
  { unfold e0, pre. repeat (apply Forall_app; split); try done; try apply to_be_ok;
      try (apply Forall_replicate; by split). solve_bytes. }
  destruct (aes_cmac_total kck e0 Hk Be0) as (mic & Em & Hm1 & _). unfold eapol_mic. rewrite Em. cbn [res_bind].
  assert (Ew : ∀ a b, length a = 16%nat → length b = 16%nat →
    write_at 77 b (pre ++ a ++ replicate 6 0) = Ret (pre ++ b ++ replicate 6 0)).
  { intros a b Ha Hb. rewrite write_at_ok by (rewrite !length_app, Hpre, Ha, Hb; simpl; lia).
    rewrite take_app_length' by done. do 3 f_equal.
    rewrite app_assoc, drop_app_length' by (rewrite length_app, Hpre; lia). done. }
  unfold e0. rewrite Ew by done. eexists _, e0, mic. split; [reflexivity|]. split_and!.
  - rewrite !length_app, Hpre, Hm1. done.
  - unfold pre. destruct (to_be2_bytes ki) as (a & b & Eab & F). rewrite Eab. unfold be16_at. cbn [app]. run_parser.
    by rewrite F.
  - unfold clear_mic. by rewrite Ew.
  - done.
  - rewrite slice_ok by (rewrite ?length_app, ?Hpre, ?Hm1; simpl; lia). rewrite drop_app_length' by done.
    by rewrite take_app_length' by done.
Qed.

(** Message 3 in a frame of the access point. *)
Lemma msg3_accepted desc sta ap kck m cleared mic :
  length desc = 4%nat → length sta = 6%nat → length ap = 6%nat → length m = 99%nat →
  be16_at 5 m = Ret 448 → clear_mic m = Ret cleared → eapol_mic kck cleared = Ret mic → slice 77 93 m = Ret mic →
  msg3_accept ap kck (desc ++ open_frame sta ap ap EAPOL_TYPE m) = Ret (Some tt).
Proof.
  intros H1 H2 H3 Hm Hk Hc He Hs.
  assert (Hlen : length (open_frame sta ap ap EAPOL_TYPE m) = 131%nat).
  { unfold open_frame. rewrite !length_app, length_to_be, H2, H3, Hm. done. }
  unfold msg3_accept. rewrite decide_False by (rewrite length_app; lia).
  rewrite slice_to_end, drop_app_length' by (rewrite ?length_app; lia). cbn [res_bind].
  assert (Ee : extract_eapol (open_frame sta ap ap EAPOL_TYPE m) ap = Ret (Some m)).
  { unfold extract_eapol. rewrite Hlen. explode sta H2 6. explode ap H3 6. unfold open_frame, LLC_SNAP, le16_at, be16_at.
    cbn [app to_be]. rewrite decide_False by lia. run_parser.
    do 2 f_equal. apply take_ge. lia. }
  rewrite Ee. cbn [res_bind]. rewrite decide_False by lia. rewrite Hk. cbn [res_bind].
  rewrite decide_True by reflexivity. rewrite Hc. cbn [res_bind]. rewrite He. cbn [res_bind]. rewrite Hs. cbn [res_bind].
  by rewrite decide_True.
Qed.

Section complete.
Context (env_now : nat → Z) (usb_in : nat → list Z) (Hzero : ∀ t, env_now t = 0).

Lemma wait_for_now {A} fuel timeout size (accept : list Z → res (option A)) s a :
  0 < timeout < u64_modulus → accept (take size (usb_in (S (tick s)))) = Ret (Some a) →
  wait_for env_now usb_in (S fuel) timeout size accept s = Done (Some a) (set_tick (S (tick s)) s).
Proof.
  intros Ht Ha. unfold wait_for. erewrite bind_done by done. cbn [usb_wait]. erewrite bind_done by done.
  unfold uptime_ms. rewrite !Hzero. rewrite decide_True by (rewrite add64_small; lia).
  unfold bulk_in. erewrite bind_done; [|erewrite bind_done by done; reflexivity].
  change (tick (set_tick (S (tick s)) s)) with (S (tick s)). rewrite Ha. by erewrite bind_done by done.
Qed.

(** An access point that knows the passphrase and answers in order. *)
Lemma wpa2_completes fuel ap passphrase s pmk anonce ptk kck tk :
  auth_accept (bssid ap) (take 64 (usb_in (1 + tick s))) = Ret (Some tt) →
  assoc_accept (bssid ap) (take 128 (usb_in (2 + tick s))) = Ret (Some tt) →
  msg1_accept (bssid ap) (take 256 (usb_in (3 + tick s))) = Ret (Some anonce) →
  derive_pmk passphrase (ssid ap) = Ret pmk →
  derive_ptk pmk anonce (make_snonce 0 (OUR_MAC s) (bssid ap)) (bssid ap) (OUR_MAC s) = Ret ptk →
  slice 0 16 ptk = Ret kck → slice 32 48 ptk = Ret tk → block_ok kck →
  length (make_snonce 0 (OUR_MAC s) (bssid ap)) = 32%nat → bytes_ok (make_snonce 0 (OUR_MAC s) (bssid ap)) →
  msg3_accept (bssid ap) kck (take 512 (usb_in (4 + tick s))) = Ret (Some tt) →
  ∃ s', connect_wpa2 env_now usb_in (S fuel) ap passphrase s = Done true s'.
Proof.
  intros R1 R2 R3 Ep Et Ek Etk Hk Hl Hb R4. unfold connect_wpa2.
  destruct (eapol_msg_verifies (Z.lor KEY_INFO_MIC KEY_INFO_KEY_TYPE) [0; 0x10] (make_snonce 0 (OUR_MAC s) (bssid ap)) kck)
    as (m2 & _ & _ & Em2 & _); [done|by split|done|solve_bytes|done|done|].
  destruct (eapol_msg_verifies (Z.lor (Z.lor KEY_INFO_MIC KEY_INFO_KEY_TYPE) KEY_INFO_SECURE) [0; 0] (replicate 32 0) kck)
    as (m4 & _ & _ & Em4 & _); [done|by split|done|solve_bytes|done|apply Forall_replicate; by split|].
  erewrite bind_done by (rewrite Ep; reflexivity). erewrite bind_done by done. erewrite bind_done by done. cbv beta.
  unfold wait_for_auth_response, wait_for_assoc_response.
  erewrite bind_done by (erewrite bind_done by (apply wait_for_now; [done|exact R1]); reflexivity).
  cbn [negb]. rewrite bool_decide_eq_true_2 by done. cbn [negb].
  erewrite bind_done by done. cbv beta.
  erewrite bind_done by (erewrite bind_done by (apply wait_for_now; [done|exact R2]); reflexivity).
  rewrite bool_decide_eq_true_2 by done. cbn [negb].
  erewrite bind_done by done. cbv beta zeta.
  assert (Hup : ∀ s, uptime_ms env_now s = 0) by (intros; apply Hzero). rewrite !Hup.
  erewrite bind_done by (apply wait_for_now; [done|exact R3]). cbv beta iota.
  erewrite bind_done by (rewrite Et; reflexivity). erewrite bind_done by (rewrite Ek; reflexivity).
  erewrite bind_done by (unfold eapol_msg2; rewrite Em2; reflexivity). erewrite bind_done by done. cbv beta.
  erewrite bind_done by (apply wait_for_now; [done|exact R4]). cbv beta iota.
  erewrite bind_done by (unfold eapol_msg4; rewrite Em4; reflexivity). erewrite bind_done by done.
  erewrite bind_done by (rewrite Etk; reflexivity). erewrite bind_done by done. eexists. reflexivity.
Qed.
End complete.

Definition demo_ap : ApInfo := mkAp [78; 101; 116] [2; 2; 2; 2; 2; 2] 6 (-40) true.
Definition demo_sta : list Z := OUR_MAC boot_state.
Definition demo_anonce : list Z := replicate 32 7.
(** What the access point sends, the last message given. *)
Definition demo_reads (m3 : list Z) (t : nat) : list Z :=
  match t with
  | 1%nat => [0; 0; 0; 0] ++ mgmt_from FC_AUTH demo_sta (bssid demo_ap) ++ [2; 0] ++ [0; 0]
  | 2%nat => [0; 0; 0; 0] ++ mgmt_from FC_ASSOC_RESP demo_sta (bssid demo_ap) ++ [0; 0] ++ [0; 0] ++ [1; 0]
  | 3%nat => [0; 0; 0; 0] ++ open_frame demo_sta (bssid demo_ap) (bssid demo_ap) EAPOL_TYPE
               ([2; 3; 0; 0x5F; 2] ++ [0; 0x88] ++ [0; 0x10] ++ replicate 8 0 ++ demo_anonce ++ replicate 50 0)
  | 4%nat => [0; 0; 0; 0] ++ open_frame demo_sta (bssid demo_ap) (bssid demo_ap) EAPOL_TYPE m3
  | _ => []
  end.

Lemma demo_handshake passphrase :
  ∃ m3 s', connect_wpa2 (λ _, 0) (demo_reads m3) 1 demo_ap passphrase boot_state = Done true s'.
Proof.
  assert (B16 : bytes_ok [0; 0x10]) by solve_bytes.
  destruct (derive_ptk_ok (rfc_pbkdf2 passphrase (ssid demo_ap) 4096 32) demo_anonce
    (make_snonce 0 demo_sta (bssid demo_ap)) (bssid demo_ap) demo_sta) as (ptk & Ept & Hl & Hb).
  assert (Hk : block_ok (take 16 ptk)) by (split; [rewrite length_take; lia|by apply Forall_take]).
  assert (Hn : bool_decide (bytes_ok (make_snonce 0 demo_sta (bssid demo_ap))) = true) by (vm_compute; reflexivity).
  apply bool_decide_eq_true in Hn.
  destruct (eapol_msg_verifies 448 [0; 0x10] demo_anonce (take 16 ptk) Hk) as (m3 & c & mic & _ & Hm & Hki & Hc & He & Hs);
    [by split|reflexivity|exact B16|reflexivity|apply Forall_replicate; by split|].
  exists m3. apply (wpa2_completes (λ _, 0) (demo_reads m3) (λ _, eq_refl) 0 demo_ap passphrase boot_state
    (rfc_pbkdf2 passphrase (ssid demo_ap) 4096 32) demo_anonce ptk (take 16 ptk) (take 16 (drop 32 ptk)));
    [vm_compute; reflexivity|vm_compute; reflexivity|vm_compute; reflexivity| |exact Ept| | |done|vm_compute; reflexivity|done|].
  - apply derive_pmk_spec.
  - by rewrite slice_ok, drop_0 by lia.
  - by rewrite slice_ok by lia.
  - change (demo_reads m3 (4 + tick boot_state))
      with ([0; 0; 0; 0] ++ open_frame demo_sta (bssid demo_ap) (bssid demo_ap) EAPOL_TYPE m3).
    rewrite (take_ge (_ ++ _) 512) by (unfold open_frame; rewrite !length_app, length_to_be, Hm; simpl; lia).
    by eapply msg3_accepted.
Qed.

Lemma wpa2_requires_mic_witness :
  ∃ m3 t3 kck eapol ki cleared mic, eapol_of (bssid demo_ap) (take 512 (demo_reads m3 t3)) = Ret (Some eapol) ∧
    be16_at 5 eapol = Ret ki ∧ message3 ki ∧ clear_mic eapol = Ret cleared ∧ eapol_mic kck cleared = Ret mic ∧ slice 77 93 eapol = Ret mic.
Proof.
  destruct (demo_handshake [112; 119]) as (m3 & s' & E).
  destruct (wpa2_requires_mic _ _ _ _ _ _ _ E)
    as (pmk & anonce & ts & ptk & kck & t1 & t3 & eapol & ki & cleared & mic & tk & _ & _ & _ & _ & Ht & E1 & E2 & E3 & E4 & E5 & E6 & _).
  exists m3, t3, kck, eapol, ki, cleared, mic. split; [exact E1|]. split; [exact E2|]. split; [exact E3|].
  split; [exact E4|]. split; [exact E5|exact E6].
Defined.

Definition demo_wifi : NetState :=
  set_wifi (mkWifi true (Some demo_ap) [] true 1 1 1 0 NULL_IP (bssid demo_ap) (replicate 16 9) demo_sta []) boot_state.

Lemma demo_listening : listening (λ _, 0) demo_wifi.
Proof. split; [discriminate|reflexivity|reflexivity]. Qed.

Lemma unprotected_accepted_witness :
  let plain := open_frame demo_sta [3; 3; 3; 3; 3; 3] [4; 4; 4; 4; 4; 4] ETHERTYPE_IPV4 [1; 2; 3] in
  wifi_poll (demo_hints false) (λ _, 0) (λ _, [0; 0; 0; 0] ++ plain) demo_wifi =
    inject (demo_hints false) (λ _, 0) (eth_build demo_sta [4; 4; 4; 4; 4; 4] ETHERTYPE_IPV4 [1; 2; 3])
      (λ reply, wifi_tx_open reply (bssid demo_ap) demo_sta) (after_read demo_wifi).
Proof.
  apply (unprotected_accepted (demo_hints false) (λ _, 0) _ demo_wifi [0; 0; 0; 0] demo_sta [3; 3; 3; 3; 3; 3]);
    [exact demo_listening|reflexivity|reflexivity|reflexivity|reflexivity|split; [discriminate|reflexivity]|discriminate|reflexivity].
Defined.

Lemma protected_delivered_witness :
  ∃ ct, wifi_poll (demo_hints false) (λ _, 0)
      (λ _, [0; 0; 0; 0] ++ protected_hdr demo_sta (bssid demo_ap) [4; 4; 4; 4; 4; 4] [0; 0] ++ ccmp_header 5 ++ ct) demo_wifi =
    inject (demo_hints false) (λ _, 0) (eth_build demo_sta [4; 4; 4; 4; 4; 4] ETHERTYPE_IPV4 [1; 2; 3])
      (λ reply, wifi_tx reply (replicate 16 9) (bssid demo_ap) demo_sta) (after_read demo_wifi).
Proof.
  assert (Hmac : ∀ l, length l = 6%nat → forallb (λ b, bool_decide (byte_ok b)) l = true → mac_ok l).
  { intros l Hl Hb. split; [exact Hl|]. apply Forall_forall. intros x Hx. rewrite forallb_forall in Hb.
    apply list_elem_of_In, Hb, bool_decide_eq_true in Hx. exact Hx. }
  assert (Htk : block_ok (replicate 16 9)) by (split; [reflexivity|apply Forall_replicate; by split]).
  assert (H0 : bytes_ok [0; 0]) by solve_bytes. assert (H3 : bytes_ok [1; 2; 3]) by solve_bytes.
  assert (Het : word_ok ETHERTYPE_IPV4) by (split; [discriminate|reflexivity]).
  pose proof (λ rx, protected_delivered (demo_hints false) (λ _, 0) rx demo_wifi [0; 0; 0; 0] demo_sta (bssid demo_ap)
    [4; 4; 4; 4; 4; 4] [0; 0] 5 ETHERTYPE_IPV4 [1; 2; 3] demo_listening Htk eq_refl
    (Hmac demo_sta eq_refl ltac:(vm_compute; reflexivity)) (Hmac (bssid demo_ap) eq_refl ltac:(vm_compute; reflexivity))
    (Hmac [4; 4; 4; 4; 4; 4] eq_refl ltac:(vm_compute; reflexivity)) eq_refl H0 Het H3 ltac:(discriminate)) as T.
  destruct (T (λ _, [])) as (ct & Ec & _). exists ct.
  destruct (T (λ _, [0; 0; 0; 0] ++ protected_hdr demo_sta (bssid demo_ap) [4; 4; 4; 4; 4; 4] [0; 0] ++ ccmp_header 5 ++ ct))
    as (ct' & Ec' & H). rewrite Ec in Ec'. apply Ret_inj in Ec'. subst ct'. apply H. reflexivity.
Defined.

Lemma auth_response_misread_witness :
  connect_open (λ _, 0) (λ _, [0; 0; 0; 0] ++ mgmt_from FC_AUTH demo_sta (bssid demo_ap) ++ [0; 0]) 1 demo_ap boot_state = Crashed.
Proof.
  apply (auth_response_misread (λ _, 0) _ 0 demo_ap boot_state demo_sta); [reflexivity|reflexivity| |split; [discriminate|reflexivity]].
  exists [0; 0; 0; 0]. split; reflexivity.
Defined.
