(* ===== verification/F32.v ===== *)
(** Rust's [f32]: IEEE 754 binary32 with round-to-nearest-even, by the Standard
    Library's executable specification of floating-point operations, and the sign
    and order facts the bounded quantities of the kernel rely on. *)
From Stdlib Require Import ZArith SpecFloat.
From stdpp Require Import base numbers list.
From S2P Require Import Prelude.

Abbreviation f32 := spec_float.

(** [n as f32], and the literal whose decimal value is [n / d]: for small [n] and
    [d] both are exact, so one division rounds as the literal does. *)
Definition f32_of (n : Z) : f32 := binary_normalize 24 128 n 0 false.
Definition f32_lit (n d : Z) : f32 := SFdiv 24 128 (f32_of n) (f32_of d).

Definition fadd (x y : f32) : f32 := SFadd 24 128 x y.
Definition fsub (x y : f32) : f32 := SFsub 24 128 x y.
Definition fmul (x y : f32) : f32 := SFmul 24 128 x y.
Definition fdiv (x y : f32) : f32 := SFdiv 24 128 x y.
Definition flt (x y : f32) : bool := SFltb x y.
Definition fle (x y : f32) : bool := SFleb x y.
Definition is_nan (x : f32) : bool := match x with S754_nan => true | _ => false end.

Definition f0 : f32 := S754_zero false.
Definition f1 : f32 := S754_finite false 8388608 (-23).

(** [f32::min], [f32::max] and [f32::clamp]. *)
Definition fmin (x y : f32) : f32 :=
  if is_nan x then y else if is_nan y then x else if flt y x then y else x.
Definition fmax (x y : f32) : f32 :=
  if is_nan x then y else if is_nan y then x else if flt x y then y else x.
Definition fclamp (lo hi x : f32) : f32 :=
  let x := if flt x lo then lo else x in if flt hi x then hi else x.

Example f32_literals :
  f32_lit 4 10 = S754_finite false 13421773 (-25) ∧ f32_lit 9 10 = S754_finite false 15099494 (-24) ∧
  f32_of 1 = f1 ∧ flt (fadd (f32_lit 1 10) (f32_lit 2 10)) (f32_lit 3 10) = false.
Proof. vm_compute. repeat split; reflexivity. Qed.

(** ** Sign and order *)

Definition nonneg (x : f32) : Prop := fle f0 x = true.
Definition in_unit (x : f32) : Prop := fle f0 x = true ∧ fle x f1 = true.

Lemma shr_1_nonneg r : 0 ≤ shr_m r → 0 ≤ shr_m (shr_1 r).
Proof. destruct r as [[|[p|p|]|p] ? ?]; simpl; lia. Qed.

Lemma shr_nonneg r e n : 0 ≤ shr_m r → 0 ≤ shr_m (shr r e n).1.
Proof.
  intros H. unfold shr. destruct n as [|p|p]; simpl; [done| |done].
  revert r H. induction p as [p IH|p IH|]; intros r H; simpl; eauto using shr_1_nonneg.
Qed.

Definition has_sign (s : bool) (x : f32) : Prop :=
  match x with S754_zero s' | S754_infinity s' | S754_finite s' _ _ => s' = s | S754_nan => False end.

(** Rounding keeps the sign and gives a number. *)
Lemma round_sign s m e l : 0 ≤ m → has_sign s (binary_round_aux 24 128 s m e l).
Proof.
  intros Hm. unfold binary_round_aux, shr_fexp.
  assert (H0 : ∀ m l, 0 ≤ m → 0 ≤ shr_m (shr_record_of_loc m l)) by (intros ? [|[]]; done).
  destruct (shr (shr_record_of_loc m l) e _) as [r1 e1] eqn:E1.
  assert (H1 : 0 ≤ shr_m r1).
  { change r1 with (r1, e1).1. rewrite <- E1. apply shr_nonneg, H0, Hm. }
  set (m2 := round_nearest_even _ _).
  assert (H2 : 0 ≤ m2) by (unfold m2, round_nearest_even; repeat case_match; lia).
  destruct (shr (shr_record_of_loc m2 _) e1 _) as [r3 e3] eqn:E3.
  assert (H3 : 0 ≤ shr_m r3).
  { change r3 with (r3, e3).1. rewrite <- E3. apply shr_nonneg, H0, H2. }
  destruct (shr_m r3) as [|p|p]; [done| |lia]. by case_match.
Qed.

Lemma round_nonneg m e l : 0 ≤ m → nonneg (binary_round_aux 24 128 false m e l).
Proof.
  intros Hm. pose proof (round_sign false m e l Hm) as H.
  destruct (binary_round_aux _ _ _ _ _ _) as [[]|[]| |[]]; done.
Qed.

Lemma normalize_nonneg m e : 0 ≤ m → nonneg (binary_normalize 24 128 m e false).
Proof.
  intros Hm. destruct m as [|p|p]; [done| |lia]. simpl. unfold binary_round.
  case_match. by apply round_nonneg.
Qed.

Lemma f32_of_nonneg n : 0 ≤ n → nonneg (f32_of n).
Proof. apply normalize_nonneg. Qed.

Lemma fadd_nonneg x y : nonneg x → nonneg y → nonneg (fadd x y).
Proof.
  destruct x as [[]|[]| |[] mx ex]; try done; destruct y as [[]|[]| |[] my ey]; try done.
  intros _ _. unfold fadd, SFadd, cond_Zopp. apply normalize_nonneg. lia.
Qed.

Lemma fmul_nonneg x y : nonneg x → nonneg y → is_nan (fmul x y) = false → nonneg (fmul x y).
Proof.
  destruct x as [[]|[]| |[] mx ex]; try done; destruct y as [[]|[]| |[] my ey]; try done.
  intros _ _ _. unfold fmul, SFmul. simpl xorb. by apply round_nonneg.
Qed.

Lemma flt_fle x y : flt x y = true → fle x y = true.
Proof. unfold flt, fle, SFltb, SFleb. by repeat case_match. Qed.

(** Comparisons are total on numbers. *)
Lemma not_flt x y : is_nan x = false → is_nan y = false → flt y x = false → fle x y = true.
Proof.
  unfold flt, fle, SFltb, SFleb.
  destruct x as [[]|[]| |[] mx ex]; try done; destruct y as [[]|[]| |[] my ey]; try done; simpl;
    intros _ _;
    rewrite (Z.compare_antisym ex ey); destruct (ex ?= ey) eqn:Ec; simpl; try done;
    change (PosDef.Pos.compare_cont Eq my mx) with (my ?= mx)%positive;
    change (PosDef.Pos.compare_cont Eq mx my) with (mx ?= my)%positive;
    rewrite (Pos.compare_antisym mx my); by destruct (mx ?= my)%positive.
Qed.

Lemma nonneg_not_nan x : nonneg x → is_nan x = false.
Proof. by destruct x. Qed.

(** What the updates of a bounded quantity do. *)
Lemma in_unit_f1 : in_unit f1.
Proof. split; vm_compute; reflexivity. Qed.
Lemma in_unit_f0 : in_unit f0.
Proof. split; vm_compute; reflexivity. Qed.

Lemma fmin_in_unit x : nonneg x → in_unit (fmin x f1).
Proof.
  intros Hx. pose proof (nonneg_not_nan x Hx) as Hn. unfold fmin. rewrite Hn.
  change (is_nan f1) with false. cbn [andb]. destruct (flt f1 x) eqn:E; [apply in_unit_f1|].
  split; [done|]. by apply not_flt.
Qed.

Lemma fclamp_in_unit x : is_nan x = false → in_unit (fclamp f0 f1 x).
Proof.
  intros Hx. unfold fclamp. destruct (flt x f0) eqn:E0.
  - change (flt f1 f0) with false. cbv iota. apply in_unit_f0.
  - destruct (flt f1 x) eqn:E1; [apply in_unit_f1|].
    split; apply not_flt; done.
Qed.

Lemma fmax_f0_nonneg x : nonneg (fmax x f0).
Proof.
  unfold fmax. destruct (is_nan x) eqn:E; [done|]. change (is_nan f0) with false. cbv iota.
  destruct (flt x f0) eqn:E1; [done|]. by apply not_flt.
Qed.

(** ** Rounding does not cross one *)

(** [r] is [m] shifted right by [k]: its flags say whether bits were lost. *)
Definition shifted (m k : Z) (r : shr_record) : Prop :=
  0 ≤ k ∧ 0 ≤ shr_m r ∧
  if shr_r r || shr_s r then shr_m r * 2 ^ k < m else shr_m r * 2 ^ k = m.

Lemma shifted_step m k r : shifted m k r → shifted m (k + 1) (shr_1 r).
Proof.
  intros (Hk & H0 & H). unfold shifted. rewrite Z.pow_add_r, Z.pow_1_r by lia.
  pose proof (Z.pow_pos_nonneg 2 k ltac:(lia) Hk).
  destruct r as [[|[p|p|]|p] [] []]; simpl in *; try lia; repeat split; lia.
Qed.

Lemma shifted_shr m e n :
  0 ≤ m → ∃ k, shifted m k (shr (Build_shr_record m false false) e n).1 ∧
    k = Z.max 0 n ∧ (shr (Build_shr_record m false false) e n).2 = e + k.
Proof.
  intros Hm. assert (H0 : shifted m 0 (Build_shr_record m false false)).
  { unfold shifted. cbn. rewrite ?Z.pow_0_r. lia. }
  unfold shr. destruct n as [|p|p]; cbn [fst snd]; [exists 0; split_and!; [done|lia|lia]| |exists 0; split_and!; [done|lia|lia]].
  exists (Z.pos p). split_and!; [|lia|lia].
  change (Z.pos p) with (0 + Z.pos p). revert H0. generalize 0 at 1 2. generalize (Build_shr_record m false false).
  induction p as [p IH|p IH|]; intros r k Hr; simpl iter_pos.
  - replace (k + Z.pos p~1) with (k + 1 + Z.pos p + Z.pos p) by lia. by apply IH, IH, shifted_step.
  - replace (k + Z.pos p~0) with (k + Z.pos p + Z.pos p) by lia. by apply IH, IH.
  - by apply shifted_step.
Qed.

Lemma digits_low p : 2 ^ (Z.pos (digits2_pos p) - 1) ≤ Z.pos p.
Proof.
  induction p as [p IH|p IH|]; simpl digits2_pos; [| |done];
    rewrite Pos2Z.inj_succ, <- Z.add_1_r, Z.add_simpl_r;
    replace (Z.pos (digits2_pos p)) with (Z.pos (digits2_pos p) - 1 + 1) by lia;
    rewrite Z.pow_add_r by lia; lia.
Qed.

(** A value of at most one has a small exponent. *)
Lemma fexp_one m e : 0 ≤ m → e ≤ -23 → m ≤ 2 ^ (- e) → fexp 24 128 (Zdigits2 m + e) ≤ -23.
Proof.
  intros Hm He Hle. unfold fexp, emin. destruct m as [|p|p]; [simpl; lia| |lia].
  simpl Zdigits2. enough (Z.pos (digits2_pos p) - 1 ≤ - e) by lia.
  apply (Z.pow_le_mono_r_iff 2); [lia|lia|]. pose proof (digits_low p). lia.
Qed.

Lemma shr_one m e :
  0 ≤ m → e ≤ -23 → m ≤ 2 ^ (- e) →
  ∀ r e', shr_fexp 24 128 m e loc_Exact = (r, e') →
  e' ≤ -23 ∧ 0 ≤ shr_m r ∧ shr_m r + (if shr_r r || shr_s r then 1 else 0) ≤ 2 ^ (- e').
Proof.
  intros Hm He Hle r e'. unfold shr_fexp. cbn [shr_record_of_loc].
  pose proof (fexp_one m e Hm He Hle) as Hf.
  destruct (shifted_shr m e (fexp 24 128 (Zdigits2 m + e) - e) Hm) as (k & (Hk & H0 & Hs) & Hkn & He2).
  destruct (shr _ _ _) as [r' e2]. cbn [fst snd] in *. intros [= <- <-]. subst e2. split; [lia|].
  split; [done|]. replace (- e) with (- (e + k) + k) in Hle by lia. rewrite Z.pow_add_r in Hle by lia.
  pose proof (Z.pow_pos_nonneg 2 k ltac:(lia) Hk). destruct (shr_r r' || shr_s r'); nia.
Qed.

Lemma fle_finite m1 e1 m2 e2 :
  fle (S754_finite false m1 e1) (S754_finite false m2 e2) =
    match e1 ?= e2 with Lt => true | Gt => false | Eq => (m1 <=? m2)%positive end.
Proof.
  unfold fle, SFleb. simpl. change (PosDef.Pos.compare_cont Eq m1 m2) with (m1 ?= m2)%positive.
  destruct (e1 ?= e2); [|done|done]. by destruct (Pos.leb_spec m1 m2), (Pos.compare_spec m1 m2); try lia.
Qed.

Lemma round_at_most_one m e :
  0 ≤ m → e ≤ -23 → m ≤ 2 ^ (- e) → fle (binary_round_aux 24 128 false m e loc_Exact) f1 = true.
Proof.
  intros Hm He Hle. unfold binary_round_aux.
  destruct (shr_fexp 24 128 m e loc_Exact) as [r1 e1] eqn:E1.
  destruct (shr_one m e Hm He Hle r1 e1 E1) as (H1 & H2 & H3).
  set (m2 := round_nearest_even _ _).
  assert (Hm2 : 0 ≤ m2 ≤ 2 ^ (- e1)).
  { unfold m2, round_nearest_even, loc_of_shr_record. destruct r1 as [m1 [] []]; simpl in *; try case_match; lia. }
  destruct (shr_fexp 24 128 m2 e1 loc_Exact) as [r3 e3] eqn:E3.
  destruct (shr_one m2 e1 ltac:(lia) H1 ltac:(lia) r3 e3 E3) as (H4 & H5 & H6).
  destruct (shr_m r3) as [|p|p]; [done| |done].
  rewrite (proj2 (Z.leb_le e3 (128 - 24))) by lia. unfold f1. rewrite fle_finite.
  destruct (e3 ?= -23) eqn:Ec; [|done|apply Z.compare_gt_iff in Ec; lia].
  apply Z.compare_eq in Ec as ->. change (2 ^ (- -23)) with 8388608 in H6.
  apply Pos.leb_le. clear -H6. revert H6. generalize 8388608%positive. intros q.
  destruct (shr_r r3 || shr_s r3); lia.
Qed.

Lemma pos_iter_xO p d : Z.pos (PosDef.Pos.iter xO p d) = Z.pos p * 2 ^ Z.pos d.
Proof.
  revert p. induction d as [|d IH] using Pos.peano_ind; intros p; [simpl; lia|].
  rewrite Pos.iter_succ, Pos2Z.inj_succ, Z.pow_succ_r by lia. rewrite Pos2Z.inj_xO, IH. lia.
Qed.

Lemma normalize_at_most_one m e :
  0 ≤ m → e ≤ 0 → m ≤ 2 ^ (- e) → fle (binary_normalize 24 128 m e false) f1 = true.
Proof.
  intros Hm He Hle. destruct m as [|p|p]; [done| |lia]. cbn [binary_normalize]. unfold binary_round, shl_align.
  set (x := fexp 24 128 (Z.pos (digits2_pos p) + e)).
  assert (Hd : Z.pos (digits2_pos p) - 1 ≤ - e).
  { apply (Z.pow_le_mono_r_iff 2); [lia|lia|]. pose proof (digits_low p). lia. }
  assert (Hx : x ≤ -23) by (unfold x, fexp, emin; lia).
  destruct (x - e) as [|d|d] eqn:Ed; cbv beta iota; [apply round_at_most_one; lia|apply round_at_most_one; lia|].
  apply round_at_most_one; [done|lia|].
  rewrite pos_iter_xO. replace (- x) with (- e + Z.pos d) by lia. rewrite Z.pow_add_r by lia.
  pose proof (Z.pow_pos_nonneg 2 (Z.pos d) ltac:(lia) ltac:(lia)). nia.
Qed.

(** ** Bounded quantities *)

(** Mantissa and exponent of a number of the format. *)
Definition canonical (x : f32) : Prop :=
  match x with S754_finite _ m e => Z.pos m < 2 ^ 24 ∧ -149 ≤ e | _ => True end.

Lemma digits_high p : Z.pos p < 2 ^ Z.pos (digits2_pos p).
Proof.
  induction p as [p IH|p IH|]; simpl digits2_pos; [| |done];
    rewrite Pos2Z.inj_succ, Z.pow_succ_r by lia; lia.
Qed.

Lemma shr_canonical m e r e' :
  0 ≤ m → shr_fexp 24 128 m e loc_Exact = (r, e') → shr_m r < 2 ^ 24 ∧ -149 ≤ e'.
Proof.
  intros Hm. unfold shr_fexp. cbn [shr_record_of_loc].
  destruct (shifted_shr m e (fexp 24 128 (Zdigits2 m + e) - e) Hm) as (k & (Hk & H0 & Hs) & Hkn & He2).
  destruct (shr _ _ _) as [r' e2]. cbn [fst snd] in *. intros [= <- <-].
  assert (Hf : Z.max (Zdigits2 m + e - 24) (-149) ≤ e2) by (subst; unfold fexp, emin in *; lia).
  split; [|lia]. assert (Hd : m < 2 ^ (24 + k)).
  { destruct m as [|p|p]; [apply Z.pow_pos_nonneg; lia| |lia].
    eapply Z.lt_le_trans; [apply digits_high|]. apply Z.pow_le_mono_r; [lia|]. simpl Zdigits2 in Hf. lia. }
  rewrite Z.pow_add_r in Hd by lia. pose proof (Z.pow_pos_nonneg 2 k ltac:(lia) Hk).
  destruct (shr_r r' || shr_s r'); nia.
Qed.

Lemma round_canonical s m e l : 0 ≤ m → canonical (binary_round_aux 24 128 s m e l).
Proof.
  intros Hm. unfold binary_round_aux.
  destruct (shr_fexp 24 128 m e l) as [r1 e1] eqn:E1.
  assert (H1 : 0 ≤ shr_m r1).
  { unfold shr_fexp in E1. change r1 with (r1, e1).1. rewrite <- E1. apply shr_nonneg. by destruct l as [|[]]. }
  set (m2 := round_nearest_even _ _).
  assert (H2 : 0 ≤ m2) by (unfold m2, round_nearest_even; repeat case_match; lia).
  destruct (shr_fexp 24 128 m2 e1 loc_Exact) as [r3 e3] eqn:E3.
  destruct (shr_canonical m2 e1 r3 e3 H2 E3) as [H3 H4].
  destruct (shr_m r3) as [|p|p]; [done| |done]. by case_match.
Qed.

Lemma normalize_canonical m e z : canonical (binary_normalize 24 128 m e z).
Proof.
  destruct m as [|p|p]; simpl; [done| |]; unfold binary_round; case_match; by apply round_canonical.
Qed.

Lemma fadd_canonical x y : canonical x → canonical y → canonical (fadd x y).
Proof.
  destruct x as [[]|[]| |sx mx ex], y as [[]|[]| |sy my ey]; try done.
  intros _ _. apply normalize_canonical.
Qed.
Lemma fsub_canonical x y : canonical x → canonical y → canonical (fsub x y).
Proof.
  destruct x as [[]|[]| |sx mx ex], y as [[]|[]| |sy my ey]; try done.
  intros _ _. apply normalize_canonical.
Qed.

(** A quantity the kernel keeps in the unit interval. *)
Definition unit_ok (x : f32) : Prop := canonical x ∧ in_unit x.

Lemma unit_ok_f0 : unit_ok f0.
Proof. split; [done|apply in_unit_f0]. Qed.

Lemma unit_ok_add x c : unit_ok x → canonical c → nonneg c → unit_ok (fmin (fadd x c) f1).
Proof.
  intros [Hx [H0 H1]] Hc Hc0. split; [|apply fmin_in_unit; by apply fadd_nonneg].
  unfold fmin. repeat case_match; try done. by apply fadd_canonical.
Qed.

(** The integer mantissa of a number below one, at a common exponent. *)
Lemma below_one_scaled m e z :
  Z.pos m < 2 ^ 24 → fle (S754_finite false m e) f1 = true → z ≤ e →
  e ≤ -23 ∧ Z.pos (fst (shl_align m e z)) ≤ 2 ^ (- z).
Proof.
  intros Hm Hle Hz. unfold f1 in Hle. rewrite fle_finite in Hle.
  assert (He : e ≤ -23 ∧ Z.pos m ≤ 2 ^ (- e)).
  { destruct (e ?= -23) eqn:Ec; [| |done].
    - apply Z.compare_eq in Ec as ->. split; [lia|]. apply Pos.leb_le in Hle.
      change (2 ^ (- -23)) with (Z.pos 8388608). revert Hle. generalize 8388608%positive. lia.
    - apply (proj1 (Z.compare_lt_iff e (-23))) in Ec. split; [clear -Ec; lia|].
      enough (2 ^ 24 ≤ 2 ^ (- e)) by lia. apply Z.pow_le_mono_r; lia. }
  destruct He as [He Hle1]. split; [done|]. unfold shl_align.
  destruct (z - e) as [|d|d] eqn:Ed; [|lia|].
  { replace z with e by lia. done. }
  cbn [fst]. replace (- z) with (- e + Z.pos d) by lia. rewrite Z.pow_add_r by lia.
  rewrite pos_iter_xO. pose proof (Z.pow_pos_nonneg 2 (Z.pos d) ltac:(lia) ltac:(lia)). nia.
Qed.

Lemma unit_ok_sub x c : unit_ok x → canonical c → nonneg c → unit_ok (fmax (fsub x c) f0).
Proof.
  intros [Hx [H0 H1]] Hc Hc0. split; [|split; [apply fmax_f0_nonneg|]].
  { unfold fmax. repeat case_match; try done. by apply fsub_canonical. }
  destruct (flt (fsub x c) f0) eqn:Elt.
  { unfold fmax. rewrite Elt. by repeat case_match. }
  enough (Hle : fle (fsub x c) f1 = true).
  { unfold fmax. rewrite Elt. by repeat case_match. }
  destruct x as [[]|[]| |[] mx ex]; try done; destruct c as [[]|[]| |[] my ey]; try done.
  unfold fsub, SFsub in *. cbn [cond_Zopp] in *. set (z := IntDef.Z.min ex ey) in *.
  assert (Hz : z ≤ ex) by (unfold z; lia).
  destruct (below_one_scaled mx ex z (proj1 Hx) H1 Hz) as [He Hm].
  set (m := _ - _) in *. assert (Hmm : m ≤ 2 ^ (- z)) by (unfold m; lia).
  destruct (Z.le_gt_cases 0 m) as [Hm0|Hm0]; [apply normalize_at_most_one; lia|].
  destruct m as [|p|p]; [lia|lia|]. cbn [binary_normalize]. unfold binary_round. case_match.
  match goal with |- fle (binary_round_aux _ _ _ ?a ?b ?l) _ = _ => pose proof (round_sign true a b l) as Hs end.
  destruct (binary_round_aux _ _ _ _ _ _) as [[]|[]| |[]]; try done; by destruct Hs.
Qed.

(** ** Positive integers do not round to zero *)

Lemma shr_1_low m k r :
  0 ≤ k → 0 ≤ shr_m r → m < (shr_m r + 1) * 2 ^ k → m < (shr_m (shr_1 r) + 1) * 2 ^ (k + 1).
Proof.
  intros Hk H0 H. rewrite Z.pow_add_r, Z.pow_1_r by lia. pose proof (Z.pow_pos_nonneg 2 k ltac:(lia) Hk).
  destruct r as [[|[p|p|]|p] [] []]; simpl in *; lia.
Qed.

Lemma iter_shr_low m p k r :
  0 ≤ k → 0 ≤ shr_m r → m < (shr_m r + 1) * 2 ^ k →
  0 ≤ shr_m (SpecFloat.iter_pos shr_1 p r) ∧ m < (shr_m (SpecFloat.iter_pos shr_1 p r) + 1) * 2 ^ (k + Z.pos p).
Proof.
  revert k r. induction p as [p IH|p IH|]; intros k r Hk H0 H; simpl SpecFloat.iter_pos.
  - destruct (IH (k + 1) (shr_1 r)) as [H1 H2]; [lia|by apply shr_1_nonneg|by apply shr_1_low|].
    destruct (IH (k + 1 + Z.pos p) _ ltac:(lia) H1 H2) as [H3 H4]. split; [done|].
    replace (k + Z.pos p~1) with (k + 1 + Z.pos p + Z.pos p) by lia. done.
  - destruct (IH k r Hk H0 H) as [H1 H2]. destruct (IH (k + Z.pos p) _ ltac:(lia) H1 H2) as [H3 H4]. split; [done|].
    replace (k + Z.pos p~0) with (k + Z.pos p + Z.pos p) by lia. done.
  - split; [by apply shr_1_nonneg|by apply shr_1_low].
Qed.

Lemma shr_fexp_pos m e r e' :
  0 < m → -149 ≤ e → shr_fexp 24 128 m e loc_Exact = (r, e') → 0 < shr_m r ∧ -149 ≤ e'.
Proof.
  intros Hm He. unfold shr_fexp. cbn [shr_record_of_loc]. destruct m as [|p|p]; [lia| |lia]. simpl Zdigits2.
  pose proof (digits_low p) as Hd. pose proof (digits_high p).
  destruct (fexp 24 128 (Z.pos (digits2_pos p) + e) - e) as [|n|n] eqn:En; unfold shr; cbv iota.
  1, 3: intros [= <- <-]; cbn; lia.
  intros [= <- <-]. split; [|lia].
  destruct (iter_shr_low (Z.pos p) n 0 (Build_shr_record (Z.pos p) false false)) as [H1 H2]; [cbn; lia..|].
  destruct (Z.eq_dec (shr_m (SpecFloat.iter_pos shr_1 n (Build_shr_record (Z.pos p) false false))) 0) as [E|E]; [|lia].
  rewrite E in H2. exfalso. unfold fexp, emin in En.
  assert (2 ^ (0 + Z.pos n) ≤ 2 ^ (Z.pos (digits2_pos p) - 1)) by (apply Z.pow_le_mono_r; lia). lia.
Qed.

Lemma round_pos m e : 0 < m → -149 ≤ e →
  match binary_round_aux 24 128 false m e loc_Exact with S754_finite _ _ _ | S754_infinity _ => True | _ => False end.
Proof.
  intros Hm He. unfold binary_round_aux.
  destruct (shr_fexp 24 128 m e loc_Exact) as [r1 e1] eqn:E1.
  destruct (shr_fexp_pos m e r1 e1 Hm He E1) as [H1 H2].
  set (m2 := round_nearest_even _ _).
  assert (H3 : 0 < m2) by (unfold m2, round_nearest_even; repeat case_match; lia).
  destruct (shr_fexp 24 128 m2 e1 loc_Exact) as [r3 e3] eqn:E3.
  destruct (shr_fexp_pos m2 e1 r3 e3 H3 H2 E3) as [H4 H5].
  destruct (shr_m r3) as [|p|p]; [lia| |lia]. by destruct (e3 <=? 128 - 24).
Qed.

Lemma f32_of_pos n : 0 < n → fdiv f0 (f32_of n) = f0.
Proof.
  intros Hn. destruct n as [|p|p]; [lia| |lia]. unfold f32_of. cbn [binary_normalize]. unfold binary_round, shl_align.
  set (x := fexp 24 128 (Z.pos (digits2_pos p) + 0)).
  assert (Hx : -149 ≤ x) by (unfold x, fexp, emin; lia).
  assert (H : ∀ m e, 0 < m → -149 ≤ e → fdiv f0 (binary_round_aux 24 128 false m e loc_Exact) = f0).
  { intros m e Hm He. pose proof (round_pos m e Hm He) as Hp. pose proof (round_sign false m e loc_Exact ltac:(lia)) as Hs.
    destruct (binary_round_aux 24 128 false m e loc_Exact) as [|s| |s mm ee]; try done; cbn in Hs |- *; by subst. }
  destruct (x - 0) as [|d|d] eqn:Ed; cbv beta iota; apply H; lia.
Qed.
