(* ===== verification/Anomaly.v ===== *)
(** The syscall anomaly detector: [kernel/src/anomaly.rs]. The threshold that
    [autotune] keeps is an argument. What an alert or an escalation triggers
    elsewhere is returned to the caller. *)
From Stdlib Require Import ZArith SpecFloat.
From stdpp Require Import base numbers list gmap.
From S2P Require Import Prelude Bytes F32.

Definition WARMUP_CALLS : Z := 200.
Definition AC_WINDOW : nat := 16.
Definition CHAOTIC_AC_THRESHOLD : f32 := f32_lit (-2) 10.
Definition CHAOTIC_STREAK_LIMIT : Z := 3.

Definition ring_at (ring : list Z) (i : nat) : f32 := f32_of (ring !!! (i mod AC_WINDOW)%nat).

Definition lag1_autocorr (ring : list Z) (head : nat) : f32 :=
  let mean := fdiv (foldl (λ sum v, fadd sum (f32_of v)) f0 ring) (f32_of 16) in
  let '(cov, var) :=
    foldl (λ '(cov, var) t,
      let x_t := fsub (ring_at ring (head + t)) mean in
      let x_t1 := fsub (ring_at ring (head + t + AC_WINDOW - 1)) mean in
      (fadd cov (fmul x_t x_t1), fadd var (fmul x_t x_t))) (f0, f0) (seq 0 AC_WINDOW) in
  if flt var (f32_lit 1 1000000) then f1 else fclamp (f32_of (-1)) f1 (fdiv cov var).

Record TaskAnomaly := mkAnomaly {
  prev_nr : Z;
  an_total : Z;
  bigrams : gmap (Z * Z) Z;
  marginals : gmap Z Z;
  an_phi : f32;
  an_autocorr : f32;
  ac_ring : list Z;
  ac_head : nat;
  ac_len : nat;
  ac_chaotic_streak : Z;
  an_valence : f32;
  an_score : f32;
  an_streak : Z
}.

Definition new_anomaly : TaskAnomaly :=
  mkAnomaly 0 0 ∅ ∅ f1 f1 (replicate AC_WINDOW 0) 0 0 0 (f32_lit 1 2) f0 0.

(** The ring buffer and the autocorrelation: ring, head, length, value, streak. *)
Definition push_ring (nr : Z) (t : TaskAnomaly) : list Z * nat * nat * f32 * Z :=
  let ring := <[ac_head t := nr]> (ac_ring t) in
  let head := ((ac_head t + 1) mod AC_WINDOW)%nat in
  let len := if decide (ac_len t < AC_WINDOW)%nat then (ac_len t + 1)%nat else ac_len t in
  if decide (len = AC_WINDOW) then
    let ac := lag1_autocorr ring head in
    (ring, head, len, ac,
     if flt ac CHAOTIC_AC_THRESHOLD then Z.min (ac_chaotic_streak t + 1) 255 else 0)
  else (ring, head, len, an_autocorr t, ac_chaotic_streak t).

Definition count {K} `{Countable K} (k : K) (m : gmap K Z) : Z := default 0 (m !! k).
Definition bump {K} `{Countable K} (k : K) (m : gmap K Z) : gmap K Z := <[k := u32 (count k m + 1)]> m.

(** The predictability estimate, from the bigram's frequency and the
    autocorrelation. *)
Definition blend_phi (bigram marginal : Z) (ac phi : f32) : f32 :=
  let p := fdiv (f32_of bigram) (f32_of marginal) in
  let ac_signal := fmul (fadd ac f1) (f32_lit 1 2) in
  let blended := fadd (fmul p (f32_lit 7 10)) (fmul ac_signal (f32_lit 3 10)) in
  fadd (fmul phi (f32_lit 95 100)) (fmul blended (f32_lit 5 100)).

Definition drift_valence (phi q : f32) : f32 :=
  let delta_q := fadd (fmul (fmul (f32_lit 1 100) q) (fsub f1 q)) (fmul (f32_lit 5 1000) (fmul phi q)) in
  fclamp f0 f1 (fadd q delta_q).

(** [TaskAnomaly::observe]: alert, score, escalate. *)
Definition observe_task (thr : f32) (nr : Z) (t : TaskAnomaly) : bool * f32 * bool * TaskAnomaly :=
  let prev := prev_nr t in
  let key := (prev, nr) in
  let total := Z.min (an_total t + 1) (u32_modulus - 1) in
  let '(ring, head, len, ac, chaotic) := push_ring nr t in
  let marginal_count := count prev (marginals t) in
  let bigram_count := count key (bigrams t) in
  let phi := if decide (WARMUP_CALLS ≤ total ∧ 0 < marginal_count)
             then blend_phi bigram_count marginal_count ac (an_phi t) else an_phi t in
  let ms := bump prev (marginals t) in
  let bs := bump key (bigrams t) in
  if decide (total < WARMUP_CALLS) then
    (false, f0, false,
     mkAnomaly nr total bs ms phi ac ring head len chaotic (an_valence t) (an_score t) (an_streak t))
  else
    let freq := fdiv (f32_of bigram_count) (f32_of total) in
    let anomalous := flt freq thr && bool_decide (bigram_count = 0) in
    let score := if anomalous then fmin (fadd (an_score t) (f32_lit 1 10)) f1
                 else fmax (fsub (an_score t) (f32_lit 2 100)) f0 in
    let q := drift_valence phi (an_valence t) in
    let q := if anomalous then fmax (fsub q (f32_lit 5 100)) f0 else q in
    let streak := if anomalous then u32 (an_streak t + 1) else 0 in
    (anomalous && bool_decide (3 ≤ streak), score, bool_decide (CHAOTIC_STREAK_LIMIT ≤ chaotic),
     mkAnomaly nr total bs ms phi ac ring head len chaotic q score streak).

(** [DETECTORS]. *)
Abbreviation Detectors := (gmap Z TaskAnomaly).

(** [observe]: alert, score, whether confinement is escalated. *)
Definition observe (thr : f32) (pid nr : Z) (d : Detectors) : bool * f32 * bool * Detectors :=
  let '(r, t) := observe_task thr (nr mod 65536) (default new_anomaly (d !! pid)) in
  (r, <[pid := t]> d).

Definition rare_pairs (t : TaskAnomaly) (l : list Z) : Z :=
  Z.of_nat (length (filter (λ k, count k (bigrams t) = 0) (zip l (tail l)))).

Definition score_sequence (reference_pid : Z) (syscalls : list Z) (d : Detectors) : Z :=
  if decide (length syscalls < 2)%nat then 0 else
  match d !! reference_pid with
  | Some t => if decide (WARMUP_CALLS ≤ an_total t) then rare_pairs t syscalls else 0
  | None => 0
  end.

Definition anomaly_remove (pid : Z) (d : Detectors) : Detectors := delete pid d.
Definition phi (pid : Z) (d : Detectors) : f32 := default f1 (an_phi <$> d !! pid).
Definition autocorr (pid : Z) (d : Detectors) : f32 := default f1 (an_autocorr <$> d !! pid).
Definition qualia_valence (pid : Z) (d : Detectors) : f32 := default (f32_lit 1 2) (an_valence <$> d !! pid).
Definition score (pid : Z) (d : Detectors) : f32 := default f0 (an_score <$> d !! pid).
Definition tracked_pids (d : Detectors) : list Z := (btree_list (≤) d).*1.

(** Sums over the table run in key order. *)
Definition fsum (l : list f32) : f32 := foldl fadd f0 l.
Definition global_mean (f : TaskAnomaly → f32) (none : f32) (ts : list TaskAnomaly) : f32 :=
  if decide (ts = []) then none
  else fdiv (fsum (f <$> ts)) (f32_of (Z.of_nat (length ts))).
Definition detectors (d : Detectors) : list TaskAnomaly := (btree_list (≤) d).*2.
Definition global_autocorr (d : Detectors) : f32 :=
  global_mean an_autocorr f1 (filter (λ t, ac_len t = AC_WINDOW) (detectors d)).
Definition global_phi (d : Detectors) : f32 := global_mean an_phi f1 (detectors d).
Definition global_score (d : Detectors) : f32 := global_mean an_score f0 (detectors d).

(** ** Facts *)

(** A detector fed with a list of syscall numbers, oldest first. *)
Definition run_detector (thr : f32) (nrs : list Z) (t : TaskAnomaly) : TaskAnomaly :=
  foldl (λ t nr, (observe_task thr nr t).2) t nrs.

Lemma observe_score_ok thr nr t :
  unit_ok (an_score t) →
  unit_ok (an_score (observe_task thr nr t).2) ∧ unit_ok (observe_task thr nr t).1.1.2.
Proof.
  intros Ht. unfold observe_task. destruct (push_ring nr t) as [[[[ring head] len] ac] chaotic].
  case_decide; cbn [fst snd an_score]; [split; [done|apply unit_ok_f0]|].
  assert (Hb : ∀ b : bool, unit_ok (if b then fmin (fadd (an_score t) (f32_lit 1 10)) f1
                                 else fmax (fsub (an_score t) (f32_lit 2 100)) f0)).
  { intros []; [apply unit_ok_add|apply unit_ok_sub]; try done; vm_compute; split; congruence. }
  split; apply Hb.
Qed.

(** * Theorems about the anomaly detector: its score stays in the unit interval, and
    an alert means three never-seen transitions in a row. *)

(** ** What the detector has seen *)

(** The transitions of a task that made the calls [nrs]; the first is from 0. *)
Definition transitions (nrs : list Z) : list (Z * Z) := zip (0 :: nrs) nrs.

Definition occurrences {K} `{EqDecision K} (k : K) (l : list K) : nat := length (filter (k =.) l).

(** The number of calls at the end of [nrs] that were made after the warm-up and
    whose transition was new. *)
Fixpoint fresh_run (rev_nrs : list Z) : nat :=
  match rev_nrs with
  | [] => 0
  | nr :: older =>
      let k := (hd 0 older, nr) in
      if decide (WARMUP_CALLS ≤ Z.of_nat (length rev_nrs) ∧ k ∉ transitions (rev older))
      then S (fresh_run older) else 0
  end.

Record seen (nrs : list Z) (t : TaskAnomaly) : Prop := {
  se_prev : prev_nr t = hd 0 (rev nrs);
  se_total : an_total t = Z.of_nat (length nrs);
  se_bigrams k : count k (bigrams t) = Z.of_nat (occurrences k (transitions nrs));
  se_streak : an_streak t = Z.of_nat (fresh_run (rev nrs))
}.

Lemma occurrences_app {K} `{EqDecision K} (k : K) l l' :
  occurrences k (l ++ l') = (occurrences k l + occurrences k l')%nat.
Proof. unfold occurrences. by rewrite filter_app, length_app. Qed.

Lemma occurrences_0 {K} `{EqDecision K} (k : K) l : occurrences k l = 0%nat ↔ k ∉ l.
Proof.
  unfold occurrences. rewrite length_zero_iff_nil. induction l as [|x l IH]; [split; [intros _; apply not_elem_of_nil|done]|].
  rewrite filter_cons, not_elem_of_cons. case_decide as E; [subst; split; [done|by intros []]|]. rewrite IH. naive_solver.
Qed.

Lemma occurrences_le {K} `{EqDecision K} (k : K) l : (occurrences k l ≤ length l)%nat.
Proof. apply length_filter. Qed.

Lemma transitions_length nrs : length (transitions nrs) = length nrs.
Proof. unfold transitions. rewrite length_zip_with. cbn [length]. lia. Qed.

Lemma transitions_snoc nrs nr : transitions (nrs ++ [nr]) = transitions nrs ++ [(hd 0 (rev nrs), nr)].
Proof.
  unfold transitions. generalize 0. induction nrs as [|y l IH]; intros a; [done|].
  change (zip (a :: (y :: l) ++ [nr]) ((y :: l) ++ [nr])) with ((a, y) :: zip (y :: l ++ [nr]) (l ++ [nr])).
  rewrite IH. cbn [zip_with app rev]. do 3 f_equal. by destruct (rev l).
Qed.

Lemma count_bump {K} `{Countable K} (k k' : K) m :
  count k (bump k' m) = if decide (k = k') then u32 (count k m + 1) else count k m.
Proof.
  unfold count, bump. destruct (decide (k = k')) as [->|Hne]; [by rewrite lookup_insert_eq|].
  by rewrite lookup_insert_ne.
Qed.

Lemma fresh_run_le l : (fresh_run l ≤ length l)%nat.
Proof. induction l as [|x l IH]; [done|]. cbn [fresh_run]. case_decide; cbn [length]; lia. Qed.

Lemma seen_new : seen [] new_anomaly.
Proof. split; try done. Qed.

Lemma observe_bigrams thr nr t :
  bigrams (observe_task thr nr t).2 = bump (prev_nr t, nr) (bigrams t) ∧
  prev_nr (observe_task thr nr t).2 = nr ∧
  an_total (observe_task thr nr t).2 = Z.min (an_total t + 1) (u32_modulus - 1).
Proof. unfold observe_task. destruct (push_ring nr t) as [[[[ring head] len] ac] chaotic]. by case_decide. Qed.

(** After the warm-up a call is anomalous when its transition is new. *)
Lemma observe_streak thr nr t :
  flt f0 thr = true → 0 < an_total t + 1 →
  let total := Z.min (an_total t + 1) (u32_modulus - 1) in
  let fresh := bool_decide (WARMUP_CALLS ≤ total ∧ count (prev_nr t, nr) (bigrams t) = 0) in
  an_streak (observe_task thr nr t).2 =
    (if fresh then u32 (an_streak t + 1) else if decide (total < WARMUP_CALLS) then an_streak t else 0) ∧
  (observe_task thr nr t).1.1.1 = fresh && bool_decide (3 ≤ u32 (an_streak t + 1)).
Proof.
  intros Hthr Ht total fresh. unfold observe_task.
  destruct (push_ring nr t) as [[[[ring head] len] ac] chaotic]. fold total.
  destruct (decide (total < WARMUP_CALLS)) as [Hw|Hw]; cbn [fst snd an_streak].
  { unfold fresh. rewrite bool_decide_eq_false_2 by lia. done. }
  destruct (decide (count (prev_nr t, nr) (bigrams t) = 0)) as [E|E].
  - unfold fresh. rewrite (bool_decide_eq_true_2 (_ ∧ _)) by lia. rewrite E, (bool_decide_eq_true_2 (0 = 0)) by done.
    change (f32_of 0) with f0. rewrite f32_of_pos by (unfold total, u32_modulus; lia). rewrite Hthr. done.
  - unfold fresh. rewrite (bool_decide_eq_false_2 (_ ∧ _)) by lia. rewrite (bool_decide_eq_false_2 (_ = 0)) by done.
    rewrite andb_false_r. done.
Qed.

Lemma seen_step thr nrs nr t :
  flt f0 thr = true → Z.of_nat (length nrs) + 1 < u32_modulus → seen nrs t →
  seen (nrs ++ [nr]) (observe_task thr nr t).2 ∧
  (observe_task thr nr t).1.1.1 = bool_decide (3 ≤ fresh_run (rev (nrs ++ [nr])))%nat.
Proof.
  intros Hthr Hlen [Hp Ht Hb Hs].
  destruct (observe_bigrams thr nr t) as (E1 & E2 & E3).
  assert (Htot : Z.min (an_total t + 1) (u32_modulus - 1) = Z.of_nat (length nrs) + 1) by lia.
  destruct (observe_streak thr nr t Hthr ltac:(lia)) as [E4 E5]. cbv zeta in E4, E5. rewrite Htot in *.
  pose proof (fresh_run_le (rev nrs)) as Hf. rewrite length_rev in Hf.
  assert (Hocc : (occurrences (hd 0%Z (rev nrs), nr) (transitions nrs) ≤ length nrs)%nat).
  { rewrite <- (transitions_length nrs). apply occurrences_le. }
  assert (Hk : count (prev_nr t, nr) (bigrams t) = 0 ↔ (hd 0 (rev nrs), nr) ∉ transitions nrs).
  { rewrite Hb, Hp, <- occurrences_0. lia. }
  assert (Hu : u32 (an_streak t + 1) = Z.of_nat (S (fresh_run (rev nrs)))).
  { rewrite Hs. unfold u32. rewrite Z.mod_small by (unfold u32_modulus in *; lia). lia. }
  assert (Hfr : fresh_run (rev (nrs ++ [nr])) =
    if bool_decide (WARMUP_CALLS ≤ Z.of_nat (length nrs) + 1 ∧ count (prev_nr t, nr) (bigrams t) = 0)
    then S (fresh_run (rev nrs)) else 0%nat).
  { rewrite rev_app_distr. cbn [rev app fresh_run length]. rewrite length_rev, rev_involutive.
    rewrite Nat2Z.inj_succ, <- Z.add_1_r. destruct (decide (_ ∧ _)); case_bool_decide; try done; exfalso; tauto. }
  rewrite Hu in E4, E5. rewrite Hfr. split.
  - split.
    + rewrite E2, rev_app_distr. done.
    + rewrite E3, length_app. simpl. lia.
    + intros k. rewrite E1, count_bump, Hb, transitions_snoc, occurrences_app, Hp.
      change (occurrences k [(hd 0 (rev nrs), nr)]) with (length (filter (k =.) [(hd 0 (rev nrs), nr)])).
      rewrite filter_cons, filter_nil. destruct (decide (k = _)) as [->|Hne]; cbn [length]; [|lia].
      unfold u32. rewrite Z.mod_small by (unfold u32_modulus in *; lia). lia.
    + rewrite E4, Hfr. case_bool_decide; [done|]. destruct (decide _) as [D|D]; [|done].
      rewrite Hs. enough (fresh_run (rev nrs) = 0%nat) as -> by done.
      destruct (rev nrs) as [|x l] eqn:Er; [done|]. cbn [fresh_run]. rewrite decide_False; [done|].
      rewrite <- Er, length_rev. unfold WARMUP_CALLS in *. lia.
  - rewrite E5. case_bool_decide; cbn [andb]; [|done]. apply bool_decide_ext. lia.
Qed.

Lemma run_snoc thr nrs nr t :
  run_detector thr (nrs ++ [nr]) t = (observe_task thr nr (run_detector thr nrs t)).2.
Proof. unfold run_detector. by rewrite foldl_app. Qed.

Lemma run_seen thr nrs :
  flt f0 thr = true → Z.of_nat (length nrs) < u32_modulus → seen nrs (run_detector thr nrs new_anomaly).
Proof.
  intros Hthr. induction nrs as [|nr nrs IH] using rev_ind; [intros _; apply seen_new|].
  rewrite length_app. simpl. intros Hlen. rewrite run_snoc. apply seen_step; [done|lia|apply IH; lia].
Qed.

(** ** Theorems *)

(** A task is reported exactly when its last three calls were made after the
    warm-up of 200 and each was a transition the task had never made before,
    whatever the (positive) threshold; calls are counted in 32 bits. *)
Theorem alert_iff_three_new thr nrs nr :
  flt f0 thr = true → Z.of_nat (length nrs) + 1 < u32_modulus →
  (observe_task thr nr (run_detector thr nrs new_anomaly)).1.1.1 = true ↔
    (3 ≤ fresh_run (rev (nrs ++ [nr])))%nat.
Proof.
  intros Hthr Hlen. destruct (seen_step thr nrs nr _ Hthr Hlen (run_seen thr nrs Hthr ltac:(lia))) as [_ ->].
  by rewrite bool_decide_eq_true.
Qed.

(** A table of detectors fed with calls of any tasks. *)
Definition run_detectors (thr : f32) (calls : list (Z * Z)) (d : Detectors) : Detectors :=
  foldl (λ d c, (observe thr c.1 c.2 d).2) d calls.

(** C36. The score of every task, and the score each call is answered with, is a number
    of the closed unit interval: adding and decaying never leave it, whatever
    rounding does, and it is never NaN. *)
Theorem score_in_unit thr calls pid nr :
  in_unit (score pid (run_detectors thr calls ∅)) ∧
  in_unit (observe thr pid nr (run_detectors thr calls ∅)).1.1.2.
Proof.
  assert (H : ∀ p, unit_ok (score p (run_detectors thr calls ∅))).
  { induction calls as [|[q m] calls IH] using rev_ind; intros p; [apply unit_ok_f0|].
    unfold run_detectors. rewrite foldl_app. fold (run_detectors thr calls ∅). cbn [foldl fst snd].
    set (d := run_detectors thr calls ∅) in *. unfold observe.
    assert (Hq : unit_ok (an_score (default new_anomaly (d !! q)))).
    { specialize (IH q). unfold score in IH. destruct (d !! q); [done|apply unit_ok_f0]. }
    destruct (observe_score_ok thr (m mod 65536) _ Hq) as [H1 H2].
    destruct (observe_task thr (m mod 65536) _) as [r t] eqn:E. cbn [snd] in *. unfold score.
    destruct (decide (p = q)) as [->|Hne]; [by rewrite lookup_insert_eq|]. rewrite lookup_insert_ne by done. apply IH. }
  split; [apply H|]. set (d := run_detectors thr calls ∅) in *. unfold observe.
  assert (Hq : unit_ok (an_score (default new_anomaly (d !! pid)))).
  { specialize (H pid). unfold score in H. destruct (d !! pid); [done|apply unit_ok_f0]. }
  destruct (observe_score_ok thr (nr mod 65536) _ Hq) as [_ H2].
  destruct (observe_task thr (nr mod 65536) _) as [r t]. apply H2.
Qed.

(** ** Concrete instances *)

(** 200 calls of 5, then 6, 7, 8. *)
Lemma alert_iff_three_new_witness :
  (observe_task (f32_lit 1 100) 8 (run_detector (f32_lit 1 100) (replicate 200 5 ++ [6; 7]) new_anomaly)).1.1.1 = true.
Proof. apply (alert_iff_three_new (f32_lit 1 100) (replicate 200 5 ++ [6; 7]) 8); [done..|vm_compute; lia]. Defined.
