(* ===== verification/Security.v ===== *)
(** Capabilities and syscall filters: [kernel/src/security.rs]. The CR4 bits, the
    stack canary and the KASLR offset are hardware state and not modelled. *)
From stdpp Require Import base numbers list gmap.
From S2P Require Import Prelude.

(** ** Capabilities *)

Module cap.
Definition SYS_ADMIN : Z := 1.
Definition NET_RAW : Z := 2.
Definition SYS_PTRACE : Z := 4.
Definition DAC_OVERRIDE : Z := 8.
Definition SETUID : Z := 16.
Definition SYS_MODULE : Z := 32.
Definition NET_BIND : Z := 64.
Definition SYS_BOOT : Z := 128.
Definition SYS_NICE : Z := 256.
Definition AI_OVERRIDE : Z := 2 ^ 62.
Definition KERNEL : Z := u64_modulus - 1.
End cap.

(** [SECURITY_CONTEXTS]: the capability word of each task. *)
Abbreviation Contexts := (gmap Z Z).

Definition init_task_context (pid : Z) (parent : option Z) (m : Contexts) : Contexts :=
  let caps := if decide (pid = 0 ∨ pid = 1) then cap.KERNEL
              else match parent with Some pp => default 0 (m !! pp) | None => 0 end in
  <[pid := caps]> m.

Definition cleanup_task_context (pid : Z) (m : Contexts) : Contexts := delete pid m.

Definition has_capability (pid c : Z) (m : Contexts) : bool :=
  if decide (pid = 0 ∨ pid = 1) then true
  else match m !! pid with
       | Some caps => bool_decide (Z.land caps c = c)
       | None => false
       end.

Definition MIN_CONFINABLE_PID : Z := 8.
Definition REVOKE_MASK : Z := Z.lor (Z.lor cap.NET_BIND cap.SYS_MODULE) (Z.lor cap.SETUID cap.SYS_BOOT).

(** The capabilities whose handles are invalidated next, if any. *)
Definition escalate_confinement (pid : Z) (m : Contexts) : option Z * Contexts :=
  if decide (pid < MIN_CONFINABLE_PID) then (None, m) else
  match m !! pid with
  | Some caps =>
      let revoked := Z.land caps REVOKE_MASK in
      if decide (revoked = 0) then (None, m) else
      (if decide (Z.land revoked cap.NET_BIND = 0) then None else Some cap.NET_RAW,
       <[pid := Z.land caps (not64 REVOKE_MASK)]> m)
  | None => (None, m)
  end.

Definition revoke_capability (pid c : Z) (m : Contexts) : Contexts :=
  alter (λ caps, Z.land caps (not64 c)) pid m.

(** ** Syscall filters *)

Inductive SeccompAction := Allow | Block | Kill.
#[export] Instance SeccompAction_eq_dec : EqDecision SeccompAction.
Proof. solve_decision. Defined.

(** Four words of allowed numbers. *)
Record SyscallFilter := mkFilter { allowed : list Z; default_action : SeccompAction }.
Definition allow_all : SyscallFilter := mkFilter (replicate 4 (u64_modulus - 1)) Allow.
Definition deny_all : SyscallFilter := mkFilter (replicate 4 0) Block.

Definition filter_word (nr : Z) : nat := Z.to_nat (nr / 64).
Definition filter_bit (nr : Z) : Z := Z.shiftl 1 (nr mod 64).

Definition filter_allow (nr : Z) (f : SyscallFilter) : SyscallFilter :=
  if decide (nr < 256)
  then mkFilter (alter (λ w, Z.lor w (filter_bit nr)) (filter_word nr) (allowed f)) (default_action f)
  else f.
Definition filter_block (nr : Z) (f : SyscallFilter) : SyscallFilter :=
  if decide (nr < 256)
  then mkFilter (alter (λ w, Z.land w (not64 (filter_bit nr))) (filter_word nr) (allowed f)) (default_action f)
  else f.
Definition filter_check (nr : Z) (f : SyscallFilter) : SeccompAction :=
  if decide (nr < 256) then
    if decide (Z.land (allowed f !!! filter_word nr) (filter_bit nr) ≠ 0) then Allow else default_action f
  else default_action f.

(** ** Facts *)

(** A capability is held when each of its bits is. *)
Lemma land_eq_bits a c : Z.land a c = c ↔ ∀ i, Z.testbit c i = true → Z.testbit a i = true.
Proof.
  split.
  - intros H i Hi. rewrite <- H, Z.land_spec in Hi. by apply andb_prop in Hi as [? _].
  - intros H. apply Z.bits_inj'. intros i _. rewrite Z.land_spec.
    destruct (Z.testbit c i) eqn:E; [by rewrite H|by rewrite andb_false_r].
Qed.

Lemma has_capability_spec pid c m :
  pid ≠ 0 → pid ≠ 1 →
  has_capability pid c m = true ↔
    ∃ caps, m !! pid = Some caps ∧ ∀ i, Z.testbit c i = true → Z.testbit caps i = true.
Proof.
  intros H0 H1. unfold has_capability. rewrite decide_False by naive_solver.
  destruct (m !! pid) as [caps|] eqn:E; [|naive_solver].
  rewrite bool_decide_eq_true, land_eq_bits. naive_solver.
Qed.
