(* ===== verification/Namespaces.v ===== *)
(** Behavioural namespaces: [kernel/src/namespaces.rs]. The policy hook of
    [el_engine] is an argument. *)
From Stdlib Require Import ZArith SpecFloat.
From stdpp Require Import base numbers list gmap strings.
From S2P Require Import Prelude F32 Anomaly RunQueue Task Scheduler Users Ramfs Vfs.

Inductive IsoLevel := Normal | Watched | Contained | Isolated | Quarantine.
#[export] Instance IsoLevel_eq_dec : EqDecision IsoLevel.
Proof. solve_decision. Defined.
Definition level_nr (l : IsoLevel) : Z :=
  match l with Normal => 0 | Watched => 1 | Contained => 2 | Isolated => 3 | Quarantine => 4 end.
(** [PartialOrd] of the enum. *)
Definition lvl_ge (a b : IsoLevel) : bool := bool_decide (level_nr b ≤ level_nr a).
Definition lvl_gt (a b : IsoLevel) : bool := bool_decide (level_nr b < level_nr a).

Definition from_score (score : f32) : IsoLevel :=
  if fle (f32_lit 90 100) score then Quarantine
  else if fle (f32_lit 75 100) score then Isolated
  else if fle (f32_lit 60 100) score then Contained
  else if fle (f32_lit 40 100) score then Watched
  else Normal.

Definition redirect_writes (l : IsoLevel) : bool := lvl_ge l Quarantine.
Definition block_network (l : IsoLevel) : bool := lvl_ge l Isolated.
Definition restrict_exec (l : IsoLevel) : bool := lvl_ge l Isolated.
Definition trace_syscalls (l : IsoLevel) : bool := lvl_ge l Watched.

Record SemanticProfile := mkSemProfile {
  causal_graph_read : bool; mutation_propose : bool; raw_socket : bool; restricted_vfs : bool
}.
Definition default_sem_profile : SemanticProfile := mkSemProfile false false false false.

Record ProcNs := mkNs {
  ns_level : IsoLevel; ns_profile : SemanticProfile; ns_transitions : Z; ns_last_score : f32;
  sandbox_path : string; ns_shadow_path : string
}.
(** [NS_TABLE] and the two counters. *)
Record NsState := mkNsState { NS_TABLE : gmap Z ProcNs; TOTAL_PROMOTIONS : Z; TOTAL_DEMOTIONS : Z }.

Definition level_of (pid : Z) (n : NsState) : IsoLevel := default Normal (ns_level <$> NS_TABLE n !! pid).
Definition profile_of (pid : Z) (n : NsState) : SemanticProfile :=
  default default_sem_profile (ns_profile <$> NS_TABLE n !! pid).

Definition threshold_for (l : IsoLevel) : f32 :=
  match l with
  | Normal => f0
  | Watched => f32_lit 40 100
  | Contained => f32_lit 60 100
  | Isolated => f32_lit 75 100
  | Quarantine => f32_lit 90 100
  end.

Definition effective_score (score qualia phi : f32) : f32 :=
  if flt (f32_lit 6 10) phi && flt (f32_lit 6 10) qualia then fmin (fmul score (f32_lit 5 10)) f1
  else if flt phi (f32_lit 4 10) && flt qualia (f32_lit 4 10) then fmin (fmul score (f32_lit 15 10)) f1
  else score.

Definition derive_profile (l : IsoLevel) (qualia phi : f32) : SemanticProfile :=
  let restricted := lvl_ge l Contained in
  if flt (f32_lit 8 10) qualia && flt (f32_lit 7 10) phi then mkSemProfile true true false restricted
  else if flt (f32_lit 6 10) qualia then mkSemProfile true false false restricted
  else mkSemProfile false false false restricted.

Definition new_ns (pid : Z) : ProcNs :=
  mkNs Normal default_sem_profile 0 f0 (String.append "/sandbox/" (dec pid)) (String.append "/quarantine/" (dec pid)).

(** Create [/name] and [/name/pid] where they are missing. *)
Definition make_tree (c : Creds) (root : Z) (name : string) (pid : Z) (f : Fs) : Fs :=
  let top := String.append "/" name in
  let f := match resolve top f with Ok _ => f | Err _ => (mkdir c root name f).2 end in
  match resolve (String.append top (String.append "/" (dec pid))) f with
  | Ok _ => f
  | Err _ => match resolve top f with Ok d => (mkdir c d (dec pid) f).2 | Err _ => f end
  end.

Definition on_promote (c : Creds) (root pid : Z) (l : IsoLevel) (f : Fs) : Fs :=
  let f := make_tree c root "sandbox" pid f in
  if decide (l = Quarantine) then make_tree c root "quarantine" pid f else f.

(** [update]: the level moves up at once, and down only when the score is 0.10
    below the threshold of the level that is left. *)
Definition update (c : Creds) (root pid : Z) (score : f32) (d : Detectors) (n : NsState) (f : Fs)
    : NsState * Fs :=
  let qualia := qualia_valence pid d in
  let ph := phi pid d in
  let new_level := from_score (effective_score score qualia ph) in
  let ns := default (new_ns pid) (NS_TABLE n !! pid) in
  let old_level := ns_level ns in
  let moved (l : IsoLevel) (t : Z) :=
    <[pid := mkNs l (derive_profile new_level qualia ph) t score (sandbox_path ns) (ns_shadow_path ns)]>
      (NS_TABLE n) in
  if lvl_gt new_level old_level then
    (mkNsState (moved new_level (u32 (ns_transitions ns + 1))) (add64 (TOTAL_PROMOTIONS n) 1) (TOTAL_DEMOTIONS n),
     on_promote c root pid new_level f)
  else if lvl_gt old_level new_level && flt score (fsub (threshold_for old_level) (f32_lit 1 10)) then
    (mkNsState (moved new_level (u32 (ns_transitions ns + 1))) (TOTAL_PROMOTIONS n) (add64 (TOTAL_DEMOTIONS n) 1), f)
  else (mkNsState (moved old_level (ns_transitions ns)) (TOTAL_PROMOTIONS n) (TOTAL_DEMOTIONS n), f).

Definition NET_NRS : list Z := [41; 42; 43; 44; 45; 46; 47; 48; 49; 50].

Definition allow_syscall (el_hook : Z → Z → bool) (pid nr : Z) (is_write : bool) (n : NsState) : bool :=
  let l := level_of pid n in
  if decide (l = Normal) then true
  else if bool_decide (l = Quarantine) && is_write then false
  else if block_network l && bool_decide (nr ∈ NET_NRS) then false
  else el_hook pid nr.

Definition vfs_root (pid : Z) (n : NsState) : option string :=
  ns ← NS_TABLE n !! pid; if lvl_ge (ns_level ns) Isolated then Some (sandbox_path ns) else None.
Definition shadow_path (pid : Z) (n : NsState) : option string :=
  ns ← NS_TABLE n !! pid; if redirect_writes (ns_level ns) then Some (ns_shadow_path ns) else None.
Definition cleanup_ns (pid : Z) (n : NsState) : NsState :=
  mkNsState (delete pid (NS_TABLE n)) (TOTAL_PROMOTIONS n) (TOTAL_DEMOTIONS n).
