(* ===== verification/SemGate.v ===== *)
(** The semantic gatekeeper and the path fuzzer that [sys_open] consults:
    [kernel/src/semantic_gate.rs] and [kernel/src/fuzzer.rs]. The verdict of the
    neural model and the entropy pool are arguments. *)
From Stdlib Require Import Ascii.
From stdpp Require Import base numbers list gmap strings.
From S2P Require Import Prelude Bytes.

(** ** The gatekeeper *)

Inductive SemDecision := Permitted | Denied | NeedsEvaluation.
#[export] Instance SemDecision_eq_dec : EqDecision SemDecision.
Proof. solve_decision. Defined.

Record EvaluationRequest := mkEval { er_pid : Z; er_sys_nr : Z; er_path : string }.
Record SemanticGatekeeper := mkGate { g_cache : gmap Z SemDecision; g_queue : list EvaluationRequest }.
Definition new_gate : SemanticGatekeeper := mkGate ∅ [].

Definition str_bytes (s : string) : list Z :=
  (λ c, Z.of_N (Ascii.N_of_ascii c)) <$> String.list_ascii_of_string s.

(** [hash_key]: the eight bytes are the little-endian word, so the word itself. *)
Definition hash_key (pid sys_nr : Z) (path : string) : Z :=
  let h := mul64 pid 0x9E3779B97F4A7C15 in
  let h := Z.lxor h (mul64 sys_nr 0xC6A4A7935BD1E995) in
  let path_hash := foldl (λ acc b, add64 (mul64 acc 31) b) 0 (str_bytes path) in
  Z.lxor h (mul64 path_hash 0x811C9DC5).

(** [check]: a path not seen before is queued and permitted. *)
Definition gate_check (pid sys_nr : Z) (path : string) (g : SemanticGatekeeper) : SemDecision * SemanticGatekeeper :=
  let key := hash_key pid sys_nr path in
  match g_cache g !! key with
  | Some d => (d, g)
  | None => (Permitted, mkGate (<[key := NeedsEvaluation]> (g_cache g))
                          (g_queue g ++ [mkEval pid sys_nr path]))
  end.

Definition process_queue (is_semantically_safe : Z → string → bool) (g : SemanticGatekeeper)
    : SemanticGatekeeper :=
  match g_queue g with
  | [] => g
  | r :: q =>
      let d := if is_semantically_safe (er_pid r) (er_path r) then Permitted else Denied in
      mkGate (<[hash_key (er_pid r) (er_sys_nr r) (er_path r) := d]> (g_cache g)) q
  end.

(** ** UTF-8 *)

Definition cont (b : Z) : bool := bool_decide (0x80 ≤ b ≤ 0xBF).
Definition cont_val (b : Z) : Z := Z.land b 0x3F.

(** [core::str::from_utf8] followed by [chars]: the code points, or nothing when
    the bytes are not UTF-8. *)
Fixpoint utf8_decode (l : list Z) : option (list Z) :=
  match l with
  | [] => Some []
  | a :: l1 =>
      if bool_decide (a < 0x80) then (a ::.) <$> utf8_decode l1
      else match l1 with
      | [] => None
      | b :: l2 =>
          if bool_decide (0xC2 ≤ a ≤ 0xDF) then
            if cont b then (64 * Z.land a 0x1F + cont_val b ::.) <$> utf8_decode l2 else None
          else match l2 with
          | [] => None
          | c :: l3 =>
              if bool_decide (0xE0 ≤ a ≤ 0xEF) then
                if bool_decide ((if decide (a = 0xE0) then 0xA0 else 0x80) ≤ b ≤ (if decide (a = 0xED) then 0x9F else 0xBF))
                   && cont c
                then (4096 * Z.land a 0x0F + 64 * cont_val b + cont_val c ::.) <$> utf8_decode l3 else None
              else match l3 with
              | [] => None
              | d :: l4 =>
                  if bool_decide (0xF0 ≤ a ≤ 0xF4) &&
                     bool_decide ((if decide (a = 0xF0) then 0x90 else 0x80) ≤ b ≤ (if decide (a = 0xF4) then 0x8F else 0xBF))
                     && cont c && cont d
                  then (262144 * Z.land a 0x07 + 4096 * cont_val b + 64 * cont_val c + cont_val d ::.) <$> utf8_decode l4
                  else None
              end
          end
      end
  end.

(** [String::push]. *)
Definition utf8_encode (c : Z) : list Z :=
  if decide (c < 0x80) then [c]
  else if decide (c < 0x800) then [0xC0 + c / 64; 0x80 + c mod 64]
  else if decide (c < 0x10000) then [0xE0 + c / 4096; 0x80 + c / 64 mod 64; 0x80 + c mod 64]
  else [0xF0 + c / 262144; 0x80 + c / 4096 mod 64; 0x80 + c / 64 mod 64; 0x80 + c mod 64].

Example utf8_samples :
  utf8_decode [0x24; 0xC2; 0xA3; 0xE2; 0x82; 0xAC; 0xF0; 0x90; 0x8D; 0x88] = Some [0x24; 0xA3; 0x20AC; 0x10348] ∧
  mjoin (utf8_encode <$> [0x24; 0xA3; 0x20AC; 0x10348]) = [0x24; 0xC2; 0xA3; 0xE2; 0x82; 0xAC; 0xF0; 0x90; 0x8D; 0x88] ∧
  utf8_decode [0xED; 0xA0; 0x80] = None ∧ utf8_decode [0xC0; 0x80] = None.
Proof. vm_compute. repeat split; reflexivity. Qed.

(** ** The fuzzer *)

Definition ZERO_WIDTH_CHARS : list Z := [0x200B; 0x200C; 0x200D; 0xFEFF].
(** Cyrillic look-alikes of a, c, e, o, p, x, y, and the fraction slash. *)
Definition HOMOGLYPHS : list (Z * Z) :=
  [(97, 0x430); (99, 0x441); (101, 0x435); (111, 0x43E); (112, 0x440); (120, 0x445); (121, 0x443); (47, 0x2044)].

(** What one character becomes, given a random byte. *)
Definition perturb_char (rand c : Z) : list Z :=
  (if decide (rand < 13) then [ZERO_WIDTH_CHARS !!! Z.to_nat (rand mod 4)] else []) ++
  [match (if decide (230 < rand) then list_find (λ p, p.1 = c) HOMOGLYPHS else None) with
   | Some (_, (_, homo)) => homo
   | None => c
   end].

(** [perturb_path] on the characters of the path; [rand i] is the [i]-th byte
    drawn from the pool. *)
Definition perturb_path (rand : nat → Z) (path : list Z) : list Z :=
  mjoin (imap (λ i c, perturb_char (rand i) c) path).
