(* ===== verification/Ptrace.v ===== *)
(** Tracing: [kernel/src/ptrace.rs]. The recent syscalls of a task, which
    [transformer_sched] records, are an argument; so is physical memory. *)
From stdpp Require Import base numbers list gmap.
From S2P Require Import Prelude RunQueue Task Scheduler.

Definition PTRACE_TRACEME : Z := 0.
Definition PTRACE_PEEKDATA : Z := 2.
Definition PTRACE_CONT : Z := 7.
Definition PTRACE_GETREGS : Z := 12.
Definition PTRACE_ATTACH : Z := 16.
Definition PTRACE_DETACH : Z := 17.
Definition PTRACE_ON_ANOMALY : Z := 0x4200.
Definition PTRACE_PREDICT_NR : Z := 0x4201.

Record TraceeState := mkTracee {
  tracer_pid : Z; on_anomaly_only : bool; halts : Z; last_predicted : Z; last_actual : Z
}.
Record Tracing := mkTracing { TRACEES : gmap Z TraceeState; TOTAL_HALTS : Z }.
Definition set_tracees (m : gmap Z TraceeState) (t : Tracing) : Tracing := mkTracing m (TOTAL_HALTS t).

Definition SIGCONT : Z := 18.
Definition SIGSTOP : Z := 19.

(** [max_by_key] keeps the last of the maximal entries, in key order. *)
Definition max_tally (m : gmap Z Z) : option Z :=
  fst <$> foldl (λ best e, match best with
                           | Some b => if decide (b.2 ≤ e.2) then Some e else best
                           | None => Some e
                           end) None (btree_list (≤) m).

(** [predict_next_syscall]: the successors of the last syscall in the window. *)
Definition predict_next_syscall (history : list Z) : Z :=
  if decide (length history < 4)%nat then 0 else
  match last history with
  | None => 0
  | Some last_nr =>
      let tally := foldl (λ m w, if decide (w.1 = last_nr) then <[w.2 := u32 (default 0 (m !! w.2) + 1)]> m else m)
                     (∅ : gmap Z Z) (zip history (tail history)) in
      default 0 (max_tally tally)
  end.

Definition check_trace_point (history : list Z) (pid actual_nr : Z) (t : Tracing) (k : Kernel) : Tracing * Kernel :=
  match TRACEES t !! pid with
  | Some s =>
      if on_anomaly_only s then
        let predicted := predict_next_syscall history in
        let mismatch := bool_decide (predicted ≠ 0 ∧ predicted ≠ actual_nr) in
        let s := mkTracee (tracer_pid s) true (if mismatch then add64 (halts s) 1 else halts s) predicted actual_nr in
        let t := set_tracees (<[pid := s]> (TRACEES t)) t in
        if mismatch then (mkTracing (TRACEES t) (add64 (TOTAL_HALTS t) 1), send_signal pid SIGSTOP k) else (t, k)
      else (t, k)
  | None => (t, k)
  end.

Definition ptrace_traceme (t : Tracing) (k : Kernel) : Z * Tracing :=
  let pid := scheduler_current_pid k in
  (0, match TRACEES t !! pid with
      | Some _ => t
      | None => set_tracees (<[pid := mkTracee 0 false 0 0 0]> (TRACEES t)) t
      end).

Definition ptrace_attach (tracee : Z) (t : Tracing) (k : Kernel) : Z * Tracing * Kernel :=
  if pid_exists tracee k then
    (0, set_tracees (<[tracee := mkTracee (scheduler_current_pid k) false 0 0 0]> (TRACEES t)) t,
     send_signal tracee SIGSTOP k)
  else (-3, t, k).

Definition ptrace_detach (tracee : Z) (t : Tracing) (k : Kernel) : Z * Tracing * Kernel :=
  match TRACEES t !! tracee with
  | Some _ => (0, set_tracees (delete tracee (TRACEES t)) t, send_signal tracee SIGCONT k)
  | None => (-3, t, k)
  end.

Definition ptrace_cont (tracee : Z) (t : Tracing) (k : Kernel) : Z * Kernel :=
  match TRACEES t !! tracee with
  | Some _ => (0, send_signal tracee SIGCONT k)
  | None => (-3, k)
  end.

(** [phys_word a]: the word at physical address [a], through the kernel's window
    at [phys_off]. The tracee's page tables are not consulted. *)
Definition ptrace_peekdata (phys_off : Z) (phys_word : Z → Z) (tracee addr : Z) (k : Kernel) : Z :=
  if pid_exists tracee k then
    let virt := add64 phys_off addr in
    if decide (virt < phys_off ∨ Z.min (virt + 8) (u64_modulus - 1) < virt) then -14
    else as_i64 (phys_word (u64 (virt - phys_off)))
  else -3.

Definition ptrace_on_anomaly (tracee : Z) (t : Tracing) : Z * Tracing :=
  match TRACEES t !! tracee with
  | Some s => (0, set_tracees (<[tracee := mkTracee (tracer_pid s) true (halts s) (last_predicted s) (last_actual s)]>
                                 (TRACEES t)) t)
  | None => (-3, t)
  end.

Definition sys_ptrace (phys_off : Z) (phys_word : Z → Z) (history : list Z) (request pid addr : Z)
    (t : Tracing) (k : Kernel) : Z * Tracing * Kernel :=
  if decide (request = PTRACE_TRACEME) then let (r, t) := ptrace_traceme t k in (r, t, k)
  else if decide (request = PTRACE_ATTACH) then ptrace_attach pid t k
  else if decide (request = PTRACE_DETACH) then ptrace_detach pid t k
  else if decide (request = PTRACE_CONT) then let (r, k) := ptrace_cont pid t k in (r, t, k)
  else if decide (request = PTRACE_PEEKDATA) then (ptrace_peekdata phys_off phys_word pid addr k, t, k)
  else if decide (request = PTRACE_ON_ANOMALY) then let (r, t) := ptrace_on_anomaly pid t in (r, t, k)
  else if decide (request = PTRACE_PREDICT_NR) then (predict_next_syscall history, t, k)
  else (-38, t, k).

Definition cleanup_tracee (pid : Z) (t : Tracing) : Tracing := set_tracees (delete pid (TRACEES t)) t.

Example predict_sample : predict_next_syscall [0; 1; 0; 1; 0; 3; 0] = 1.
Proof. vm_compute. reflexivity. Qed.
