(* ===== verification/SysState.v ===== *)
(** The state behind the system calls of [kernel/src/syscall/mod.rs]: descriptor
    tables, pipes, event counters, wait queues, user memory.

    The statics of the file are grouped by what they serve. A [Box<dyn
    FileHandle>] is a value of [FileHandle]; what handles share through an [Arc]
    (pipe states, event counters) lives in a table and the handle names its entry.
    [vmem] is memory as the running process sees it: a byte per page-table root and
    virtual address. *)
From Stdlib Require Import Ascii.
From stdpp Require Import base numbers list gmap sets strings.
From S2P Require Import Prelude Bytes Pmm RunQueue Task Rlimit JobControl Scheduler Users Ramfs Vfs Tcp F32.
From S2P Require Import Anomaly Security Namespaces SemGate Ptrace.

(** ** Error numbers *)

Definition EPERM : Z := -1.
Definition ENOENT : Z := -2.
Definition EBADF : Z := -9.
Definition EFAULT : Z := -14.
Definition EINVAL : Z := -22.
Definition EAGAIN : Z := -11.
Definition ENOTSOCK : Z := -88.
Definition ENOSYS : Z := -38.
Definition EACCES : Z := -13.
Definition ENOTDIR : Z := -20.

(** [x as u64] of an [i32]. *)
Definition i32_as_u64 (x : Z) : Z := u64 x.

(** ** Handles *)

Abbreviation FdKey := (Z * Z)%type.

Inductive FileHandle :=
| RamFileHandle (h : Handle)
| PipeHandle (pipe_id : Z) (is_write : bool)
| EventFdHandle (counter : Z) (semaphore : bool)
| TimerHandle (expiry_ms interval_ms expirations : Z)
| SignalfdHandle (sf_pid sf_mask : Z)
| SocketHandle
| ConnectedSocketHandle (key : TcpSocketKey).

#[export] Instance Meta_eq_dec : EqDecision Meta.
Proof. solve_decision. Defined.
#[export] Instance Handle_eq_dec : EqDecision Handle.
Proof. solve_decision. Defined.
#[export] Instance FileHandle_eq_dec : EqDecision FileHandle.
Proof. solve_decision. Defined.

Record PipeState := mkPipe { p_buf : list Z; writer_count : Z; reader_count : Z }.
Definition new_pipe : PipeState := mkPipe [] 1 1.

Record EpollInterest := mkInterest { ei_events : Z; ei_data : Z; ei_edge : bool; ei_last_ready : bool }.

Record SocketOpts := mkOpts {
  tcp_nodelay : bool; o_rcv_buf : Z; o_snd_buf : Z; reuseaddr : bool; keepalive : bool; adaptive : bool
}.
Definition default_opts : SocketOpts := mkOpts false 87380 16384 false false false.

(** The descriptor tables. [counters]: the [Arc<AtomicU64>] of each eventfd. *)
Record Fds := mkFds {
  FD_TABLE : gmap FdKey FileHandle;
  NEXT_FD : gmap Z Z;
  FD_PATH_TABLE : gmap FdKey string;
  FD_FLAGS : gmap FdKey Z;
  DIR_NODES : gmap FdKey Z;
  SOCKET_PORTS : gmap FdKey Z;
  SOCKET_PEERNAME : gmap FdKey (list Z * Z);
  SOCKET_OPTS : gmap FdKey SocketOpts;
  TIMERFD_EXPIRY : gmap FdKey (Z * Z);
  EPOLL_TABLE : gmap FdKey (gmap Z EpollInterest);
  PIPE_TABLE : gmap Z PipeState;
  NEXT_PIPE : Z;
  counters : gmap Z Z;
  next_counter : Z
}.
Definition no_fds : Fds := mkFds ∅ ∅ ∅ ∅ ∅ ∅ ∅ ∅ ∅ ∅ ∅ 0 ∅ 0.

Definition eta_fds (f : Fds) : Fds :=
  mkFds (FD_TABLE f) (NEXT_FD f) (FD_PATH_TABLE f) (FD_FLAGS f) (DIR_NODES f) (SOCKET_PORTS f)
    (SOCKET_PEERNAME f) (SOCKET_OPTS f) (TIMERFD_EXPIRY f) (EPOLL_TABLE f) (PIPE_TABLE f) (NEXT_PIPE f)
    (counters f) (next_counter f).
Ltac fds_setter field v :=
  let body := eval cbv delta [eta_fds] in eta_fds in
  let p := eval pattern field in body in
  match p with
  | ?f _ => let r := eval cbv beta in (f (fun _ : Fds => v)) in exact r
  end.
Definition set_fd_table (v : gmap FdKey FileHandle) : Fds → Fds := ltac:(fds_setter FD_TABLE v).
Definition set_next_fd (v : gmap Z Z) : Fds → Fds := ltac:(fds_setter NEXT_FD v).
Definition set_fd_paths (v : gmap FdKey string) : Fds → Fds := ltac:(fds_setter FD_PATH_TABLE v).
Definition set_fd_flags (v : gmap FdKey Z) : Fds → Fds := ltac:(fds_setter FD_FLAGS v).
Definition set_dir_nodes (v : gmap FdKey Z) : Fds → Fds := ltac:(fds_setter DIR_NODES v).
Definition set_socket_ports (v : gmap FdKey Z) : Fds → Fds := ltac:(fds_setter SOCKET_PORTS v).
Definition set_peernames (v : gmap FdKey (list Z * Z)) : Fds → Fds := ltac:(fds_setter SOCKET_PEERNAME v).
Definition set_socket_opts (v : gmap FdKey SocketOpts) : Fds → Fds := ltac:(fds_setter SOCKET_OPTS v).
Definition set_timerfds (v : gmap FdKey (Z * Z)) : Fds → Fds := ltac:(fds_setter TIMERFD_EXPIRY v).
Definition set_epolls (v : gmap FdKey (gmap Z EpollInterest)) : Fds → Fds := ltac:(fds_setter EPOLL_TABLE v).
Definition set_pipes (v : gmap Z PipeState) : Fds → Fds := ltac:(fds_setter PIPE_TABLE v).
Definition set_next_pipe (v : Z) : Fds → Fds := ltac:(fds_setter NEXT_PIPE v).
Definition set_counters (v : gmap Z Z) : Fds → Fds := ltac:(fds_setter counters v).
Definition set_next_counter (v : Z) : Fds → Fds := ltac:(fds_setter next_counter v).

(** ** Wait queues, memory areas, the per-CPU block *)

Record FutexStats := mkStats { avg_hold_ms : Z; wait_start_ms : Z; n_wakes : Z }.
Record Futexes := mkFutexes { FUTEX_WAITERS : gmap Z (list Z); FUTEX_STATS : gmap Z FutexStats }.

Record Vma := mkVma { v_end : Z; v_writable : bool; v_executable : bool }.
Record FileVma := mkFileVma { fv_end : Z; fv_path : string; fv_off : Z; fv_ino : Z; fv_writable : bool }.
Record Vmas := mkVmas {
  VMA_TABLE : gmap FdKey Vma; FILE_VMA_TABLE : gmap FdKey FileVma; MMAP_NEXT_ADDR : Z
}.

(** The fields of [PercpuData] the system-call path uses. *)
Record Percpu := mkPercpu {
  pc_user_rsp : Z; signal_new_rip : Z; signal_new_rsp : Z; signal_new_rflags : Z; signal_signum : Z
}.

(** ** Isolation *)

Record SeccompPolicy := mkPolicy { sp_allowed : gset Z; sp_locked : bool }.
Record Isolation := mkIso {
  SECURITY_CONTEXTS : Contexts;
  ns : NsState;
  tracing : Tracing;
  DETECTORS : Detectors;
  gate : SemanticGatekeeper;
  SECCOMP_TABLE : gmap Z SeccompPolicy;
  CONFINED_PIDS : gset Z
}.
Definition no_isolation : Isolation :=
  mkIso ∅ (mkNsState ∅ 0 0) (mkTracing ∅ 0) ∅ new_gate ∅ ∅.

Definition eta_iso (i : Isolation) : Isolation :=
  mkIso (SECURITY_CONTEXTS i) (ns i) (tracing i) (DETECTORS i) (gate i) (SECCOMP_TABLE i) (CONFINED_PIDS i).
Ltac iso_setter field v :=
  let body := eval cbv delta [eta_iso] in eta_iso in
  let p := eval pattern field in body in
  match p with
  | ?f _ => let r := eval cbv beta in (f (fun _ : Isolation => v)) in exact r
  end.
Definition set_contexts (v : Contexts) : Isolation → Isolation := ltac:(iso_setter SECURITY_CONTEXTS v).
Definition set_ns (v : NsState) : Isolation → Isolation := ltac:(iso_setter ns v).
Definition set_tracing (v : Tracing) : Isolation → Isolation := ltac:(iso_setter tracing v).
Definition set_detectors (v : Detectors) : Isolation → Isolation := ltac:(iso_setter DETECTORS v).
Definition set_gate (v : SemanticGatekeeper) : Isolation → Isolation := ltac:(iso_setter gate v).
Definition set_seccomp (v : gmap Z SeccompPolicy) : Isolation → Isolation := ltac:(iso_setter SECCOMP_TABLE v).
Definition set_confined (v : gset Z) : Isolation → Isolation := ltac:(iso_setter CONFINED_PIDS v).

(** ** What descriptors need of the network stack *)

(** The socket calls of [net::tcp] that handles make. A read never produces more
    than was asked for, and what is available is what a large read returns. *)
Class SocketLayer (N : Type) := {
  sl_rx_len : TcpSocketKey → N → nat;
  sl_recv : TcpSocketKey → nat → N → list Z * N;
  sl_send : TcpSocketKey → list Z → N → res (nat * N);
  sl_recv_len key n s : length (sl_recv key n s).1 = (n `min` sl_rx_len key s)%nat
}.

(** ** The system *)

Record Sys (N : Type) := mkSys {
  kern : Kernel;
  usr : Users;
  vfs : Fs;
  netst : N;
  vmem : gmap (Z * Z) Z;
  sfds : Fds;
  futexes : Futexes;
  vmas : Vmas;
  percpu : Percpu;
  iso : Isolation
}.
Arguments mkSys {N}.
Arguments kern {N}.
Arguments usr {N}.
Arguments vfs {N}.
Arguments netst {N}.
Arguments vmem {N}.
Arguments sfds {N}.
Arguments futexes {N}.
Arguments vmas {N}.
Arguments percpu {N}.
Arguments iso {N}.

Section state.
Context {N : Type}.
Implicit Types s : Sys N.

Definition set_kern (v : Kernel) s : Sys N :=
  mkSys v (usr s) (vfs s) (netst s) (vmem s) (sfds s) (futexes s) (vmas s) (percpu s) (iso s).
Definition set_vfs (v : Fs) s : Sys N :=
  mkSys (kern s) (usr s) v (netst s) (vmem s) (sfds s) (futexes s) (vmas s) (percpu s) (iso s).
Definition set_netst (v : N) s : Sys N :=
  mkSys (kern s) (usr s) (vfs s) v (vmem s) (sfds s) (futexes s) (vmas s) (percpu s) (iso s).
Definition set_vmem (v : gmap (Z * Z) Z) s : Sys N :=
  mkSys (kern s) (usr s) (vfs s) (netst s) v (sfds s) (futexes s) (vmas s) (percpu s) (iso s).
Definition set_sfds (v : Fds) s : Sys N :=
  mkSys (kern s) (usr s) (vfs s) (netst s) (vmem s) v (futexes s) (vmas s) (percpu s) (iso s).
Definition set_futexes (v : Futexes) s : Sys N :=
  mkSys (kern s) (usr s) (vfs s) (netst s) (vmem s) (sfds s) v (vmas s) (percpu s) (iso s).
Definition set_vmas (v : Vmas) s : Sys N :=
  mkSys (kern s) (usr s) (vfs s) (netst s) (vmem s) (sfds s) (futexes s) v (percpu s) (iso s).
Definition set_percpu (v : Percpu) s : Sys N :=
  mkSys (kern s) (usr s) (vfs s) (netst s) (vmem s) (sfds s) (futexes s) (vmas s) v (iso s).
Definition set_iso (v : Isolation) s : Sys N :=
  mkSys (kern s) (usr s) (vfs s) (netst s) (vmem s) (sfds s) (futexes s) (vmas s) (percpu s) v.

Definition upd_fds (f : Fds → Fds) s : Sys N := set_sfds (f (sfds s)) s.
Definition upd_iso (f : Isolation → Isolation) s : Sys N := set_iso (f (iso s)) s.
Definition upd_kern (f : Kernel → Kernel) s : Sys N := set_kern (f (kern s)) s.

(** [scheduler::current_pid()] and the caller's identity for node creation. *)
Definition cur s : Z := scheduler_current_pid (kern s).
Definition creds s : Creds := creds_of (kern s) (usr s).

(** ** User memory *)

Definition USER_END : Z := 0x800000000000.

(** [validate_user_ptr]: [true] is [Ok]. *)
Definition validate_user_ptr (ptr len : Z) : bool :=
  negb (bool_decide (ptr = 0 ∨ USER_END < Z.min (ptr + len) U64_MAX)).

Definition root_cr3 s : Z := cpu_cr3 (CPU (kern s)).
Definition uread (a : Z) (n : nat) s : list Z :=
  (λ i, default 0 (vmem s !! (root_cr3 s, u64 (a + Z.of_nat i)))) <$> seq 0 n.
Fixpoint write_bytes_at (root a : Z) (l : list Z) (m : gmap (Z * Z) Z) : gmap (Z * Z) Z :=
  match l with
  | [] => m
  | b :: l' => write_bytes_at root (u64 (a + 1)) l' (<[(root, u64 a) := b]> m)
  end.
Definition uwrite (a : Z) (l : list Z) s : Sys N :=
  set_vmem (write_bytes_at (root_cr3 s) a l (vmem s)) s.
Definition uread_le (a : Z) (n : nat) s : Z := from_le (uread a n s).
Definition uwrite_le (a : Z) (n : nat) (x : Z) s : Sys N := uwrite a (to_le n x) s.

(** [read_user_cstr]: the bytes up to the first zero; the pointer is only
    compared with null. [valid_utf8] is [core::str::from_utf8]. *)
Definition cstr_bytes (a : Z) (max : nat) s : list Z :=
  let bytes := uread a max s in
  match list_find (λ b, b = 0) bytes with
  | Some (i, _) => take i bytes
  | None => bytes
  end.
End state.

(** Text: a [str] whose bytes are [l]. *)
Definition str_of (l : list Z) : string :=
  String.string_of_list_ascii ((λ b, Ascii.ascii_of_N (Z.to_N b)) <$> l).
