(* ===== verification/SysFd.v ===== *)
(** Descriptors: the handle implementations and the file system calls of
    [kernel/src/syscall/mod.rs].

    Outside effects are arguments: what other tasks do while the caller has
    yielded ([yield_cpu]), the key waiting at the keyboard, the entropy bytes the
    fuzzer draws. Prefetch hints, logging and the audit trail are dropped. *)
From Stdlib Require Import Ascii.
From stdpp Require Import base numbers list gmap sets strings.
From S2P Require Import Prelude Bytes RunQueue Task Rlimit Scheduler Users Ramfs Vfs Tcp Namespaces SemGate.
From S2P Require Import SysState.

Definition O_NONBLOCK : Z := 0x800.
Definition RLIMIT_NOFILE : nat := 7.
Definition FD_MAX : Z := U64_MAX.

(** ** Descriptor numbers *)

(** [alloc_fd]: the limit is compared with the number about to be handed out. *)
Definition alloc_fd (limits : rlimit_table) (pid : Z) (f : Fds) : Z * Fds :=
  let rl := get_limit pid RLIMIT_NOFILE limits in
  let fd := default 3 (NEXT_FD f !! pid) in
  if decide (Rlimit.cur rl < fd ∧ Rlimit.cur rl ≠ U64_MAX) then (FD_MAX, f)
  else (fd, set_next_fd (<[pid := add64 fd 1]> (NEXT_FD f)) f).

(** ** Pipes *)

Definition pipe_read (id : Z) (n : nat) (f : Fds) : vres (list Z) * Fds :=
  match PIPE_TABLE f !! id with
  | None => (Ok [], f)
  | Some p =>
      if decide (p_buf p = []) then
        (if decide (writer_count p = 0) then Ok [] else Err WouldBlock, f)
      else
        let k := (n `min` length (p_buf p))%nat in
        (Ok (take k (p_buf p)),
         set_pipes (<[id := mkPipe (drop k (p_buf p)) (writer_count p) (reader_count p)]> (PIPE_TABLE f)) f)
  end.

Definition pipe_write (id : Z) (b : list Z) (f : Fds) : vres Z * Fds :=
  match PIPE_TABLE f !! id with
  | None => (Err Io, f)
  | Some p =>
      (Ok (Z.of_nat (length b)),
       set_pipes (<[id := mkPipe (p_buf p ++ b) (writer_count p) (reader_count p)]> (PIPE_TABLE f)) f)
  end.

(** [clone_box] and [drop]: one more or one fewer open end. *)
Definition pipe_retain (w : bool) (p : PipeState) : PipeState :=
  if w then mkPipe (p_buf p) (u32 (writer_count p + 1)) (reader_count p)
  else mkPipe (p_buf p) (writer_count p) (u32 (reader_count p + 1)).
Definition pipe_release (w : bool) (p : PipeState) : PipeState :=
  if w then mkPipe (p_buf p) (sat_sub (writer_count p) 1) (reader_count p)
  else mkPipe (p_buf p) (writer_count p) (sat_sub (reader_count p) 1).

Definition drop_handle (h : FileHandle) (f : Fds) : Fds :=
  match h with
  | PipeHandle id w =>
      match PIPE_TABLE f !! id with
      | Some p =>
          let p := pipe_release w p in
          if decide (writer_count p = 0 ∧ reader_count p = 0)
          then set_pipes (delete id (PIPE_TABLE f)) f
          else set_pipes (<[id := p]> (PIPE_TABLE f)) f
      | None => f
      end
  | _ => f
  end.

(** [FileHandle::clone_box]; a file handle keeps the trait's default. *)
Definition clone_box (h : FileHandle) (f : Fds) : option FileHandle * Fds :=
  match h with
  | RamFileHandle _ => (None, f)
  | PipeHandle id w => (Some h, set_pipes (alter (pipe_retain w) id (PIPE_TABLE f)) f)
  | _ => (Some h, f)
  end.

Definition is_network_socket (h : FileHandle) : bool :=
  match h with SocketHandle | ConnectedSocketHandle _ => true | _ => false end.

(** [FD_TABLE.insert] and [remove]: a handle that leaves the table is dropped. *)
Definition drop_opt (o : option FileHandle) (f : Fds) : Fds :=
  match o with Some h => drop_handle h f | None => f end.
Definition fd_insert (k : FdKey) (h : FileHandle) (f : Fds) : Fds :=
  drop_opt (FD_TABLE f !! k) (set_fd_table (<[k := h]> (FD_TABLE f)) f).
Definition fd_remove (k : FdKey) (f : Fds) : Fds :=
  drop_opt (FD_TABLE f !! k) (set_fd_table (delete k (FD_TABLE f)) f).

(** Tuples are ordered lexicographically. *)
Definition fd_le (a b : FdKey) : Prop := a.1 < b.1 ∨ (a.1 = b.1 ∧ a.2 ≤ b.2).
#[export] Instance fd_le_dec : RelDecision fd_le.
Proof. intros a b. unfold fd_le. apply _. Defined.

(** [retain(|&(p, _), _| p != pid)]. *)
Definition not_of {A} (pid : Z) (m : gmap FdKey A) : gmap FdKey A := filter (λ e, e.1.1 ≠ pid) m.
Definition fds_of (pid : Z) (f : Fds) : list FdKey :=
  filter (λ k, k.1 = pid) (btree_list fd_le (FD_TABLE f)).*1.

(** [cleanup_pid_fds]: eight of the ten tables. *)
Definition cleanup_pid_fds (pid : Z) (f : Fds) : Fds :=
  let f := foldl (λ f k, fd_remove k f) f (fds_of pid f) in
  let f := set_fd_paths (not_of pid (FD_PATH_TABLE f)) f in
  let f := set_fd_flags (not_of pid (FD_FLAGS f)) f in
  let f := set_epolls (not_of pid (EPOLL_TABLE f)) f in
  let f := set_next_fd (delete pid (NEXT_FD f)) f in
  let f := set_dir_nodes (not_of pid (DIR_NODES f)) f in
  let f := set_socket_ports (not_of pid (SOCKET_PORTS f)) f in
  set_peernames (not_of pid (SOCKET_PEERNAME f)) f.

Definition list_pid_fds (pid : Z) (f : Fds) : list Z := (fds_of pid f).*2.
Definition fd_path (pid fd : Z) (f : Fds) : option string := FD_PATH_TABLE f !! (pid, fd).

(** [invalidate_handles] for [NET_RAW]; other capabilities have no handles. *)
Definition invalidate_handles (pid c : Z) (f : Fds) : Fds :=
  if decide (c = Security.cap.NET_RAW) then
    foldl (λ f k, fd_remove k f) f
      (filter (λ k, is_network_socket <$> FD_TABLE f !! k = Some true) (fds_of pid f))
  else f.

(** ** The other handles *)

Definition eventfd_take (n : nat) (c : Z) (semaphore : bool) (f : Fds) : vres (list Z) * Fds :=
  if decide (n < 8)%nat then (Err InvalidArgument, f) else
  let v := default 0 (counters f !! c) in
  if decide (v = 0) then (Err WouldBlock, f) else
  let '(new_val, ret_val) := if semaphore then (v - 1, 1) else (0, v) in
  (Ok (to_le 8 ret_val), set_counters (<[c := new_val]> (counters f)) f).

Definition eventfd_add (b : list Z) (c : Z) (f : Fds) : vres Z * Fds :=
  if decide (length b < 8)%nat then (Err InvalidArgument, f) else
  let val := from_le (take 8 b) in
  if decide (val = U64_MAX) then (Err InvalidArgument, f) else
  let v := default 0 (counters f !! c) in
  if decide (v + val < U64_MAX) then (Ok 8, set_counters (<[c := v + val]> (counters f)) f)
  else (Err WouldBlock, f).

Definition timer_take (n : nat) (now expiry interval expirations : Z) : list Z * FileHandle :=
  if decide (n < 8)%nat then ([], TimerHandle expiry interval expirations) else
  let '(expiry', count) :=
    if decide (0 < expiry ≤ now) then
      let extra := if decide (0 < interval) then (now - expiry) / interval else 0 in
      (if decide (0 < interval) then add64 now interval else 0, add64 expirations (1 + extra))
    else (expiry, expirations) in
  (to_le 8 count, TimerHandle expiry' interval 0).

Definition signalfd_take (n : nat) (p mask : Z) (k : Kernel) : vres (list Z) * Kernel :=
  if decide (n < 128)%nat then (Err InvalidArgument, k) else
  let (o, k) := consume_masked_signal p mask k in
  (Ok (match o with Some signum => to_le 4 signum ++ replicate 124 0 | None => [] end), k).

Definition plain_stat (nlink mode : Z) : Stat := mkStat 0 0 false nlink 0 0 mode.

Section calls.
Context {N : Type} {SL : SocketLayer N}.
Context (yield_cpu : Sys N → Sys N) (key_ready : option Z) (rand : nat → Z).
Implicit Types s : Sys N.

Definition handle_available (h : FileHandle) s : Z :=
  match h with
  | RamFileHandle h => bytes_available h
  | PipeHandle id w =>
      if w then 0 else match PIPE_TABLE (sfds s) !! id with Some p => Z.of_nat (length (p_buf p)) | None => 0 end
  | EventFdHandle c _ => if decide (0 < default 0 (counters (sfds s) !! c)) then 8 else 0
  | TimerHandle expiry _ expirations =>
      if decide (0 < expirations) then 8
      else if decide (0 < expiry ≤ uptime_ms (kern s)) then 8 else 0
  | SignalfdHandle p mask => if decide (Z.land (get_pending_signals p (kern s)) mask ≠ 0) then 128 else 0
  | SocketHandle => 0
  | ConnectedSocketHandle key => Z.of_nat (sl_rx_len key (netst s))
  end.

(** [FileHandle::read] into a buffer of [n] bytes: what it produced, and the
    handle afterwards. *)
Definition read_handle (h : FileHandle) (n : nat) s : res (vres (list Z) * FileHandle * Sys N) :=
  match h with
  | RamFileHandle rh => let! (b, rh) := handle_read n rh in Ret (Ok b, RamFileHandle rh, s)
  | PipeHandle id w =>
      if w then Ret (Err PermissionDenied, h, s)
      else let (r, f) := pipe_read id n (sfds s) in Ret (r, h, set_sfds f s)
  | EventFdHandle c sem => let (r, f) := eventfd_take n c sem (sfds s) in Ret (r, h, set_sfds f s)
  | TimerHandle expiry interval expirations =>
      let (b, h) := timer_take n (uptime_ms (kern s)) expiry interval expirations in Ret (Ok b, h, s)
  | SignalfdHandle p mask =>
      let (r, k) := signalfd_take n p mask (kern s) in Ret (r, h, set_kern k s)
  | SocketHandle => Ret (Ok [], h, s)
  | ConnectedSocketHandle key => let (b, nt) := sl_recv key n (netst s) in Ret (Ok b, h, set_netst nt s)
  end.

Definition write_handle (h : FileHandle) (b : list Z) s : res (vres Z * FileHandle * Sys N) :=
  match h with
  | RamFileHandle rh => let! (n, rh) := handle_write b rh in Ret (Ok n, RamFileHandle rh, s)
  | PipeHandle id w =>
      if w then let (r, f) := pipe_write id b (sfds s) in Ret (r, h, set_sfds f s)
      else Ret (Err PermissionDenied, h, s)
  | EventFdHandle c _ => let (r, f) := eventfd_add b c (sfds s) in Ret (r, h, set_sfds f s)
  | TimerHandle _ _ _ | SignalfdHandle _ _ => Ret (Ok 0, h, s)
  | SocketHandle => Ret (Ok (Z.of_nat (length b)), h, s)
  | ConnectedSocketHandle key =>
      let! (n, nt) := sl_send key b (netst s) in Ret (Ok (Z.of_nat n), h, set_netst nt s)
  end.

Definition seek_handle (pos : Z) (h : FileHandle) : Z * FileHandle :=
  match h with RamFileHandle rh => (pos, RamFileHandle (handle_seek pos rh)) | _ => (0, h) end.

(** Modes 0o622 and 0o600. *)
Definition stat_handle (h : FileHandle) : Stat :=
  match h with
  | RamFileHandle rh => handle_stat rh
  | PipeHandle _ _ => plain_stat 2 402
  | _ => plain_stat 1 384
  end.

Definition truncate_handle (len : Z) (h : FileHandle) : FileHandle :=
  match h with RamFileHandle rh => RamFileHandle (handle_truncate len rh) | _ => h end.

(** The entry changes in place: nothing is dropped. *)
Definition put_handle (k : FdKey) (h : FileHandle) s : Sys N :=
  upd_fds (λ f, set_fd_table (<[k := h]> (FD_TABLE f)) f) s.

(** ** Reading and writing *)

Definition sys_read (fd buf_ptr len : Z) s : res (Z * Sys N) :=
  if decide (len = 0) then Ret (0, s) else
  let safe_len := Z.min len 65536 in
  if negb (validate_user_ptr buf_ptr safe_len) then Ret (EFAULT, s) else
  if decide (fd = 0) then
    match key_ready with
    | Some ch => Ret (1, uwrite buf_ptr [ch] s)
    | None => Ret (0, s)
    end
  else
    let pid := cur s in
    match FD_TABLE (sfds s) !! (pid, fd) with
    | None => Ret (EBADF, s)
    | Some h =>
        let! (r, h, s) := read_handle h (Z.to_nat safe_len) s in
        let s := put_handle (pid, fd) h s in
        match r with
        | Ok b => Ret (Z.of_nat (length b), uwrite buf_ptr b s)
        | Err WouldBlock =>
            if decide (Z.land (default 0 (FD_FLAGS (sfds s) !! (pid, fd))) O_NONBLOCK ≠ 0)
            then Ret (EAGAIN, s) else Ret (0, yield_cpu s)
        | Err _ => Ret (EINVAL, s)
        end
    end.

Definition sys_write (fd buf_ptr len : Z) s : res (Z * Sys N) :=
  if decide (len = 0) then Ret (0, s) else
  let safe_len := Z.min len 65536 in
  if negb (validate_user_ptr buf_ptr safe_len) then Ret (EFAULT, s) else
  let slice := uread buf_ptr (Z.to_nat safe_len) s in
  if decide (fd = 1 ∨ fd = 2) then Ret (safe_len, s)
  else
    let pid := cur s in
    match FD_TABLE (sfds s) !! (pid, fd) with
    | None => Ret (EBADF, s)
    | Some h =>
        let! (r, h, s) := write_handle h slice s in
        let s := put_handle (pid, fd) h s in
        match r with
        | Ok n => Ret (n, s)
        | Err _ => Ret (EINVAL, s)
        end
    end.

(** The [for] loops of [writev] and [readv] over [iovec]s from index [i]. *)
Fixpoint writev_loop (count : nat) (fd iov total : Z) s : res (Z * Sys N) :=
  match count with
  | O => Ret (total, s)
  | S count' =>
      let iov_base := uread_le iov 8 s in
      let iov_len := uread_le (add64 iov 8) 8 s in
      if decide (iov_len = 0) then writev_loop count' fd (add64 iov 16) total s else
      let! (n, s) := sys_write fd iov_base iov_len s in
      if decide (n < 0) then Ret (n, s) else writev_loop count' fd (add64 iov 16) (total + n) s
  end.
Definition sys_writev (fd iov_ptr iovcnt : Z) s : res (Z * Sys N) :=
  writev_loop (Z.to_nat (Z.min iovcnt 1024)) fd iov_ptr 0 s.

Fixpoint readv_loop (count : nat) (fd iov total : Z) s : res (Z * Sys N) :=
  match count with
  | O => Ret (total, s)
  | S count' =>
      let iov_base := uread_le iov 8 s in
      let iov_len := uread_le (add64 iov 8) 8 s in
      if decide (iov_len = 0) then readv_loop count' fd (add64 iov 16) total s else
      let! (n, s) := sys_read fd iov_base iov_len s in
      if decide (n < 0) then Ret (n, s)
      else if decide (n < iov_len) then Ret (total + n, s)
      else readv_loop count' fd (add64 iov 16) (total + n) s
  end.
Definition sys_readv (fd iov_ptr iovcnt : Z) s : res (Z * Sys N) :=
  readv_loop (Z.to_nat (Z.min iovcnt 1024)) fd iov_ptr 0 s.

(** [whence] is ignored. *)
Definition sys_lseek (fd offset : Z) s : Z * Sys N :=
  let k := (cur s, fd) in
  match FD_TABLE (sfds s) !! k with
  | Some h => let (pos, h) := seek_handle offset h in (as_i64 pos, put_handle k h s)
  | None => (EBADF, s)
  end.

Definition sys_pread64 (fd buf len off : Z) s : res (Z * Sys N) := sys_read fd buf len (sys_lseek fd off s).2.
Definition sys_pwrite64 (fd buf len off : Z) s : res (Z * Sys N) := sys_write fd buf len (sys_lseek fd off s).2.

(** ** Opening and closing *)

Definition drop_nuls (l : list Z) : list Z :=
  rev (snd (foldl (λ '(tail, acc) b, if tail && bool_decide (b = 0) then (true, acc) else (false, acc ++ [b]))
                  (true, []) (rev l))).

(** The path [sys_open] looks up for an isolated process. *)
Definition fuzzed (path : list Z) : list Z :=
  match utf8_decode path with
  | Some cs => mjoin (utf8_encode <$> perturb_path rand cs)
  | None => path
  end.

Definition sys_open (path_ptr path_len : Z) s : Z * Sys N :=
  let safe_len := Z.min path_len 4096 in
  if negb (validate_user_ptr path_ptr safe_len) then (EFAULT, s) else
  let bytes := uread path_ptr (Z.to_nat safe_len) s in
  match utf8_decode bytes with
  | None => (EINVAL, s)
  | Some _ =>
      let path := drop_nuls bytes in
      let pid := cur s in
      let (decision, g) := gate_check pid 2 (str_of path) (gate (iso s)) in
      let s := upd_iso (set_gate g) s in
      if decide (decision = Denied) then (EACCES, s) else
      let lookup_path := if lvl_ge (level_of pid (ns (iso s))) Isolated then fuzzed path else path in
      match resolve (str_of lookup_path) (vfs s) with
      | Err _ => (ENOENT, s)
      | Ok node =>
          match node_open node (vfs s) with
          | Err _ => (ENOENT, s)
          | Ok h =>
              let (fd, f) := alloc_fd (RLIMITS (kern s)) pid (sfds s) in
              let is_dir := match node_stat node (vfs s) with Ok st => st_is_dir st | Err _ => false end in
              let f := if is_dir then set_dir_nodes (<[(pid, fd) := node]> (DIR_NODES f)) f else f in
              let f := fd_insert (pid, fd) (RamFileHandle h) f in
              let f := set_fd_paths (<[(pid, fd) := str_of path]> (FD_PATH_TABLE f)) f in
              (as_i64 fd, set_sfds f s)
          end
      end
  end.

Definition sys_close (fd : Z) s : Z * Sys N :=
  let k := (cur s, fd) in
  let f := sfds s in
  let f := set_dir_nodes (delete k (DIR_NODES f)) f in
  let f := set_fd_paths (delete k (FD_PATH_TABLE f)) f in
  let f := set_epolls (delete k (EPOLL_TABLE f)) f in
  (match FD_TABLE f !! k with Some _ => 0 | None => EBADF end, set_sfds (fd_remove k f) s).

(** The 64 bytes are cleared before the descriptor is looked up. *)
Definition sys_fstat (fd stat_ptr : Z) s : Z * Sys N :=
  if negb (validate_user_ptr stat_ptr 64) then (EFAULT, s) else
  let s := uwrite stat_ptr (replicate 64 0) s in
  match (if decide (fd < 3) then Some (mkStat (fd + 1) 0 false 1 0 0 438)
         else stat_handle <$> FD_TABLE (sfds s) !! (cur s, fd)) with
  | None => (EBADF, s)
  | Some st =>
      (0, uwrite stat_ptr (to_le 8 (st_ino st) ++ to_le 8 (st_size st)
                             ++ to_le 4 (if st_is_dir st then 0x41FF else 0x81B6) ++ to_le 4 (st_nlink st)) s)
  end.

Definition sys_ftruncate (fd length : Z) s : Z * Sys N :=
  let k := (cur s, fd) in
  match FD_TABLE (sfds s) !! k with
  | Some h => (0, put_handle k (truncate_handle length h) s)
  | None => (EBADF, s)
  end.

(** ** Duplication *)

Definition copy_flags (pid oldfd newfd : Z) (f : Fds) : Fds :=
  match FD_FLAGS f !! (pid, oldfd) with
  | Some fl => set_fd_flags (<[(pid, newfd) := fl]> (FD_FLAGS f)) f
  | None => f
  end.

(** The fallback: open the recorded path again. *)
Definition reopen (k : FdKey) (f : Fds) (fs : Fs) : option (string * Handle) :=
  match FD_PATH_TABLE f !! k with
  | Some p => match resolve p fs with
              | Ok node => match node_open node fs with Ok h => Some (p, h) | Err _ => None end
              | Err _ => None
              end
  | None => None
  end.

Definition do_dup (pid oldfd newfd : Z) s : Z * Sys N :=
  let f := sfds s in
  if decide (oldfd < 3) then (as_i64 newfd, set_sfds (set_fd_flags (delete (pid, newfd) (FD_FLAGS f)) f) s) else
  let '(cloned, f) := match FD_TABLE f !! (pid, oldfd) with
                      | Some h => clone_box h f
                      | None => (None, f)
                      end in
  match cloned with
  | Some h => (as_i64 newfd, set_sfds (copy_flags pid oldfd newfd (fd_insert (pid, newfd) h f)) s)
  | None =>
      match reopen (pid, oldfd) f (vfs s) with
      | Some (p, h) =>
          let f := fd_insert (pid, newfd) (RamFileHandle h) f in
          let f := set_fd_paths (<[(pid, newfd) := p]> (FD_PATH_TABLE f)) f in
          (as_i64 newfd, set_sfds (copy_flags pid oldfd newfd f) s)
      | None =>
          (match FD_TABLE f !! (pid, oldfd) with Some _ => as_i64 newfd | None => EBADF end, set_sfds f s)
      end
  end.

Definition sys_dup (oldfd : Z) s : Z * Sys N :=
  let pid := cur s in
  let (newfd, f) := alloc_fd (RLIMITS (kern s)) pid (sfds s) in
  do_dup pid oldfd newfd (set_sfds f s).

Definition sys_dup2 (oldfd newfd : Z) s : Z * Sys N :=
  if decide (oldfd = newfd) then (as_i64 oldfd, s) else
  let k := (cur s, newfd) in
  let f := fd_remove k (sfds s) in
  let f := set_fd_paths (delete k (FD_PATH_TABLE f)) f in
  let f := set_fd_flags (delete k (FD_FLAGS f)) f in
  do_dup (cur s) oldfd newfd (set_sfds f s).

(** The default status flag is O_RDWR. *)
Definition sys_fcntl (fd cmd arg : Z) s : Z * Sys N :=
  let k := (cur s, fd) in
  if decide (cmd = 1) then (1, s)
  else if decide (cmd = 2) then (0, s)
  else if decide (cmd = 3) then (default 2 (FD_FLAGS (sfds s) !! k), s)
  else if decide (cmd = 4) then (0, upd_fds (λ f, set_fd_flags (<[k := as_i32 arg]> (FD_FLAGS f)) f) s)
  else if decide (cmd = 0) then sys_dup fd s
  else (EINVAL, s).

(** ** Pipes, event counters, timers, signal descriptors *)

Definition sys_pipe2 (fds_ptr : Z) s : Z * Sys N :=
  if negb (validate_user_ptr fds_ptr 8) then (EFAULT, s) else
  let f := sfds s in
  let pipe_id := NEXT_PIPE f in
  let f := set_next_pipe (add64 pipe_id 1) f in
  let f := set_pipes (<[pipe_id := new_pipe]> (PIPE_TABLE f)) f in
  let pid := cur s in
  let (rfd, f) := alloc_fd (RLIMITS (kern s)) pid f in
  let (wfd, f) := alloc_fd (RLIMITS (kern s)) pid f in
  let f := fd_insert (pid, rfd) (PipeHandle pipe_id false) f in
  let f := fd_insert (pid, wfd) (PipeHandle pipe_id true) f in
  (0, uwrite fds_ptr (to_le 4 (u32 rfd) ++ to_le 4 (u32 wfd)) (set_sfds f s)).

Definition EFD_SEMAPHORE : Z := 1.

(** A fresh descriptor for a handle. *)
Definition new_fd (h : FileHandle) s : Z * Sys N :=
  let pid := cur s in
  let (fd, f) := alloc_fd (RLIMITS (kern s)) pid (sfds s) in
  (fd, set_sfds (fd_insert (pid, fd) h f) s).

Definition sys_eventfd2 (initval flags : Z) s : Z * Sys N :=
  let c := next_counter (sfds s) in
  let (fd, s) := new_fd (EventFdHandle c (bool_decide (Z.land flags EFD_SEMAPHORE ≠ 0))) s in
  let s := upd_fds (λ f, set_next_counter (c + 1) (set_counters (<[c := initval]> (counters f)) f)) s in
  (as_i64 fd,
   if decide (Z.land flags O_NONBLOCK ≠ 0)
   then upd_fds (λ f, set_fd_flags (<[(cur s, fd) := O_NONBLOCK]> (FD_FLAGS f)) f) s else s).

Definition sys_timerfd_create s : Z * Sys N := let (fd, s) := new_fd (TimerHandle 0 0 0) s in (as_i64 fd, s).

(** [(sec as u64) * 1000 + (nsec.max(0) as u64) / 1_000_000]. *)
Definition timespec_ms (sec nsec : Z) : Z := add64 (mul64 sec 1000) (Z.max 0 (as_i64 nsec) / 1000000).

(** The side table is written before the descriptor is looked up. *)
Definition sys_timerfd_settime (fd new_value_ptr : Z) s : Z * Sys N :=
  if decide (new_value_ptr = 0) then (EFAULT, s)
  else if negb (validate_user_ptr new_value_ptr 32) then (EFAULT, s) else
  let interval := timespec_ms (uread_le new_value_ptr 8 s) (uread_le (new_value_ptr + 8) 8 s) in
  let value := timespec_ms (uread_le (new_value_ptr + 16) 8 s) (uread_le (new_value_ptr + 24) 8 s) in
  let k := (cur s, fd) in
  let expiry := if decide (0 < value) then add64 (uptime_ms (kern s)) value else 0 in
  let s := upd_fds (λ f, set_timerfds (<[k := (expiry, interval)]> (TIMERFD_EXPIRY f)) f) s in
  match FD_TABLE (sfds s) !! k with
  | Some _ => (0, upd_fds (fd_insert k (TimerHandle expiry interval 0)) s)
  | None => (EBADF, s)
  end.

Definition sys_timerfd_gettime (fd curr_value_ptr : Z) s : Z * Sys N :=
  if decide (curr_value_ptr = 0) then (EFAULT, s) else
  let '(expiry, interval) := default (0, 0) (TIMERFD_EXPIRY (sfds s) !! (cur s, fd)) in
  let remaining := sat_sub expiry (uptime_ms (kern s)) in
  (0, if validate_user_ptr curr_value_ptr 32
      then uwrite curr_value_ptr (to_le 8 (interval / 1000) ++ to_le 8 (interval mod 1000 * 1000000)
                                    ++ to_le 8 (remaining / 1000) ++ to_le 8 (remaining mod 1000 * 1000000)) s
      else s).

Definition sys_signalfd4 (fd sigmask_ptr : Z) s : Z * Sys N :=
  let pid := cur s in
  if bool_decide (sigmask_ptr ≠ 0) && negb (validate_user_ptr sigmask_ptr 8) then (EFAULT, s) else
  let mask := if decide (sigmask_ptr = 0) then U64_MAX else uread_le sigmask_ptr 8 s in
  if decide (fd = U64_MAX) then let (nfd, s) := new_fd (SignalfdHandle pid mask) s in (as_i64 nfd, s)
  else match FD_TABLE (sfds s) !! (pid, fd) with
       | Some _ => (as_i64 fd, upd_fds (fd_insert (pid, fd) (SignalfdHandle pid mask)) s)
       | None => (EBADF, s)
       end.

(** ** [sendfile]: [kbuf] is the address of the 4 KiB buffer on the kernel stack. *)

Fixpoint sendfile_loop (fuel : nat) (kbuf out_fd in_fd total remaining : Z) s : res (Z * Sys N) :=
  if decide (remaining = 0) then Ret (total, s) else
  match fuel with
  | O => OutOfFuel
  | S fuel' =>
      let k := (cur s, in_fd) in
      match FD_TABLE (sfds s) !! k with
      | None => Ret (total, s)
      | Some h =>
          let! (r, h, s) := read_handle h (Z.to_nat (Z.min remaining 4096)) s in
          let s := put_handle k h s in
          match r with
          | Err _ => Ret (total, s)
          | Ok b =>
              let s := uwrite kbuf b s in
              let n := Z.of_nat (length b) in
              if decide (n = 0) then Ret (total, s) else
              let! (wrote, s) := sys_write out_fd kbuf n s in
              if decide (wrote < 0) then Ret (total, s)
              else sendfile_loop fuel' kbuf out_fd in_fd (total + n) (remaining - n) s
          end
      end
  end.
Definition sys_sendfile (kbuf out_fd in_fd count : Z) s : res (Z * Sys N) :=
  sendfile_loop (Z.to_nat count) kbuf out_fd in_fd 0 count s.

(** ** Directories *)

(** One [linux_dirent64] record: header, name, padding to eight bytes. *)
Definition dirent_len (name : string) : nat := ((19 + String.length name + 1 + 7) / 8 * 8)%nat.
Definition dirent_bytes (idx : nat) (e : DirEntry) : list Z :=
  let reclen := dirent_len (d_name e) in
  to_le 8 (d_ino e) ++ to_le 8 (Z.of_nat (idx + 1) * Z.of_nat reclen) ++ to_le 2 (Z.of_nat reclen)
    ++ [if d_is_dir e then 4 else 8] ++ resize (reclen - 19) 0 (str_bytes (d_name e)).
Fixpoint dirents (idx : nat) (room : Z) (es : list DirEntry) : list Z :=
  match es with
  | [] => []
  | e :: es' =>
      let n := Z.of_nat (dirent_len (d_name e)) in
      if decide (room < n) then [] else dirent_bytes idx e ++ dirents (S idx) (room - n) es'
  end.

Definition sys_getdents64 (fd buf_ptr buf_len : Z) s : Z * Sys N :=
  match DIR_NODES (sfds s) !! (cur s, fd) with
  | None => (EBADF, s)
  | Some node =>
      match node_readdir node (vfs s) with
      | Err _ => (ENOTDIR, s)
      | Ok entries =>
          if negb (validate_user_ptr buf_ptr buf_len) then (EFAULT, s) else
          let b := dirents 0 buf_len entries in (Z.of_nat (length b), uwrite buf_ptr b s)
      end
  end.
End calls.
