(* ===== verification/SysFdFacts.v ===== *)
(** Lemmas on the descriptor tables: the reference counts of pipes, user memory,
    what each call leaves alone. *)
From stdpp Require Import base numbers list gmap sets strings.
From S2P Require Import Prelude Bytes RunQueue Task Rlimit Scheduler Users Ramfs Vfs Tcp Namespaces SemGate.
From S2P Require Import SysState SysFd.

(** ** Counting open ends *)

Definition one_if (P : Prop) `{Decision P} : nat := if decide P then 1%nat else 0%nat.

(** The descriptors that are end [w] of pipe [id], and the handles of a list that
    are. *)
Definition ends (id : Z) (w : bool) (t : gmap FdKey FileHandle) : nat :=
  size (filter (λ e, e.2 = PipeHandle id w) t).
Definition held (id : Z) (w : bool) (hs : list FileHandle) : nat :=
  length (filter (.= PipeHandle id w) hs).

Lemma ends_insert_new id w k h t :
  t !! k = None → ends id w (<[k := h]> t) = (one_if (h = PipeHandle id w) + ends id w t)%nat.
Proof.
  intros Hk. unfold ends, one_if. case_decide as E.
  - rewrite map_filter_insert_True by done. apply map_size_insert_None.
    apply map_lookup_filter_None. by left.
  - rewrite map_filter_insert_False by done. by rewrite delete_id.
Qed.

Lemma ends_delete id w k h t :
  t !! k = Some h → ends id w t = (one_if (h = PipeHandle id w) + ends id w (delete k t))%nat.
Proof.
  intros Hk. rewrite <- (insert_delete_id t k h Hk) at 1. apply ends_insert_new, lookup_delete_eq.
Qed.

Lemma held_cons id w h hs : held id w (h :: hs) = (one_if (h = PipeHandle id w) + held id w hs)%nat.
Proof. unfold held, one_if. rewrite filter_cons. by case_decide. Qed.

Lemma ends_insert id w k h t :
  (ends id w (<[k := h]> t) + held id w (option_list (t !! k)) =
   one_if (h = PipeHandle id w) + ends id w t)%nat.
Proof.
  destruct (t !! k) as [h0|] eqn:E; simpl.
  - rewrite <- insert_delete_eq, ends_insert_new by apply lookup_delete_eq.
    rewrite (ends_delete id w k h0 t E), held_cons. unfold held. simpl. lia.
  - rewrite ends_insert_new by done. unfold held. simpl. lia.
Qed.

Lemma ends_remove id w k t :
  (ends id w (delete k t) + held id w (option_list (t !! k)) = ends id w t)%nat.
Proof.
  destruct (t !! k) as [h0|] eqn:E; simpl.
  - rewrite (ends_delete id w k h0 t E), held_cons. unfold held. simpl. lia.
  - rewrite delete_id by done. unfold held. simpl. lia.
Qed.

Lemma ends_le id w t : (ends id w t ≤ size t)%nat.
Proof. unfold ends. apply map_subseteq_size, map_filter_subseteq. Qed.

(** ** The invariant of the pipe table *)

(** Each pipe's counters are the open ends, in the table or in flight (handles
    that are about to enter it or to be dropped); a pipe without open ends is
    gone, and identifiers are below the next one. *)
Definition pipes_exact (hs : list FileHandle) (f : Fds) : Prop :=
  ∀ id, match PIPE_TABLE f !! id with
        | Some p =>
            writer_count p = Z.of_nat (ends id true (FD_TABLE f) + held id true hs) ∧
            reader_count p = Z.of_nat (ends id false (FD_TABLE f) + held id false hs) ∧
            0 < writer_count p + reader_count p ∧ id < NEXT_PIPE f
        | None => ∀ w, (ends id w (FD_TABLE f) + held id w hs = 0)%nat
        end.

(** Both tables, and the counter, as they were. *)
Definition same_pipes (f f' : Fds) : Prop :=
  FD_TABLE f' = FD_TABLE f ∧ PIPE_TABLE f' = PIPE_TABLE f ∧ NEXT_PIPE f' = NEXT_PIPE f.

Lemma same_pipes_exact hs f f' : same_pipes f f' → pipes_exact hs f → pipes_exact hs f'.
Proof. intros (H1 & H2 & H3). unfold pipes_exact. by rewrite H1, H2, H3. Qed.

(** A handle that moves between the table and flight. *)
Lemma pipes_exact_table hs hs' t f :
  (∀ id w, ends id w t + held id w hs' = ends id w (FD_TABLE f) + held id w hs)%nat →
  pipes_exact hs f → pipes_exact hs' (set_fd_table t f).
Proof.
  intros Ht H id. specialize (H id). unfold set_fd_table. cbn [PIPE_TABLE FD_TABLE NEXT_PIPE].
  destruct (PIPE_TABLE f !! id) as [p|]; [by rewrite !Ht|]. intros w. by rewrite Ht.
Qed.

Lemma drop_other h f : (∀ id w, h ≠ PipeHandle id w) → drop_handle h f = f.
Proof. destruct h; try done. intros H. by destruct (H pipe_id is_write). Qed.

Lemma held_other id w h hs : h ≠ PipeHandle id w → held id w (h :: hs) = held id w hs.
Proof. intros H. rewrite held_cons. unfold one_if. by rewrite decide_False. Qed.

Lemma one_if_eq (P : Prop) `{Decision P} : P → one_if P = 1%nat.
Proof. intros. unfold one_if. by rewrite decide_True. Qed.
Lemma pipe_inj id w id' w' : PipeHandle id w = PipeHandle id' w' ↔ id = id' ∧ w = w'.
Proof. split; [by intros [= -> ->]|by intros [-> ->]]. Qed.

#[export] Instance is_pipe_dec h : Decision (∃ i w, h = PipeHandle i w).
Proof. destruct h; try (right; naive_solver); left; eauto. Defined.

Lemma drop_exact h hs f : pipes_exact (h :: hs) f → pipes_exact hs (drop_handle h f).
Proof.
  intros H. destruct (decide (∃ i w, h = PipeHandle i w)) as [(i & w & ->)|Hh].
  2: { assert (Hn : ∀ i w, h ≠ PipeHandle i w) by naive_solver. rewrite drop_other by done.
       intros id. specialize (H id). destruct (PIPE_TABLE f !! id).
       - by rewrite !held_other in H.
       - intros w. specialize (H w). by rewrite held_other in H. }
  cbn [drop_handle]. destruct (PIPE_TABLE f !! i) as [p|] eqn:Ei.
  2: { specialize (H i). rewrite Ei in H. specialize (H w). rewrite held_cons, one_if_eq in H by done. lia. }
  assert (Hi : ∀ w', held i w' (PipeHandle i w :: hs) = (one_if (w' = w) + held i w' hs)%nat).
  { intros w'. rewrite held_cons. unfold one_if. by destruct w, w'; simpl; repeat case_decide; naive_solver. }
  assert (Hne : ∀ id w', id ≠ i → held id w' (PipeHandle i w :: hs) = held id w' hs).
  { intros id w' Hid. apply held_other. congruence. }
  pose proof (H i) as Hp. rewrite Ei, !Hi in Hp. destruct Hp as (Hw & Hr & Hpos & Hn).
  assert (Hrel : writer_count (pipe_release w p) = Z.of_nat (ends i true (FD_TABLE f) + held i true hs) ∧
                 reader_count (pipe_release w p) = Z.of_nat (ends i false (FD_TABLE f) + held i false hs)).
  { unfold one_if in *. destruct w; unfold pipe_release, sat_sub; cbn [writer_count reader_count];
      repeat case_decide; try done; lia. }
  destruct Hrel as [Hw' Hr'].
  assert (Hother : ∀ id, id ≠ i →
    match PIPE_TABLE f !! id with
    | Some p => writer_count p = Z.of_nat (ends id true (FD_TABLE f) + held id true hs) ∧
                reader_count p = Z.of_nat (ends id false (FD_TABLE f) + held id false hs) ∧
                0 < writer_count p + reader_count p ∧ id < NEXT_PIPE f
    | None => ∀ w, (ends id w (FD_TABLE f) + held id w hs = 0)%nat
    end).
  { intros id Hid. specialize (H id). destruct (PIPE_TABLE f !! id); [by rewrite !Hne in H by done|].
    intros w'. by rewrite <- (H w'), Hne. }
  cbv zeta. destruct (decide (writer_count (pipe_release w p) = 0 ∧ reader_count (pipe_release w p) = 0)) as [Hz|Hz];
    intros id; unfold set_pipes; cbn [PIPE_TABLE FD_TABLE NEXT_PIPE];
    (destruct (decide (id = i)) as [->|Hid];
     [rewrite ?lookup_delete_eq, ?lookup_insert_eq
     |rewrite ?lookup_delete_ne, ?lookup_insert_ne by congruence; by apply Hother]).
  - intros []; lia.
  - split_and!; try done. lia.
Qed.

Lemma u32_id x : 0 ≤ x < u32_modulus → u32 x = x.
Proof. apply Z.mod_small. Qed.

(** Retaining an end of a pipe that has one: the counter does not wrap while the
    descriptors number less than 2^32. *)
Lemma clone_exact h hs f o f' :
  clone_box h f = (o, f') →
  (∀ id w, h = PipeHandle id w → (0 < ends id w (FD_TABLE f))%nat) →
  (∀ id w, Z.of_nat (ends id w (FD_TABLE f) + held id w hs) + 1 < u32_modulus) →
  pipes_exact hs f → pipes_exact (option_list o ++ hs) f' ∧ FD_TABLE f' = FD_TABLE f ∧ NEXT_FD f' = NEXT_FD f.
Proof.
  intros Hc Hown Hsmall H.
  assert (Hcase : (h = PipeHandle (match h with PipeHandle i _ => i | _ => 0 end)
                        (match h with PipeHandle _ w => w | _ => true end)) ∨
                  (f' = f ∧ (o = None ∨ (o = Some h ∧ ∀ i w, h ≠ PipeHandle i w)))).
  { destruct h; cbn in Hc; injection Hc as <- <-; eauto; right; eauto 10. }
  destruct Hcase as [Heq|[-> Ho]].
  - revert Heq. generalize (match h with PipeHandle i _ => i | _ => 0 end) as i,
      (match h with PipeHandle _ w => w | _ => true end) as w. intros i w ->.
    cbn in Hc. injection Hc as <- <-. split; [|done]. change (option_list (Some (PipeHandle i w)) ++ hs) with (PipeHandle i w :: hs).
    specialize (Hown i w eq_refl). intros id. pose proof (H id) as Hid. pose proof (Hsmall id) as Hs.
    unfold set_pipes. cbn [PIPE_TABLE FD_TABLE NEXT_PIPE].
    destruct (decide (id = i)) as [->|Hne].
    + rewrite lookup_alter_at, decide_True by done. destruct (PIPE_TABLE f !! i) as [p|]; cbn [fmap option_fmap option_map].
      * destruct Hid as (Hw & Hr & Hpos & Hlt). pose proof (Hs true). pose proof (Hs false).
        rewrite !held_cons. unfold one_if. destruct w; cbn [pipe_retain writer_count reader_count];
          rewrite u32_id by lia;
          repeat (destruct (decide (PipeHandle _ _ = _)); try congruence); split_and!; lia.
      * specialize (Hid w). lia.
    + rewrite lookup_alter_at, decide_False by congruence.
      destruct (PIPE_TABLE f !! id); [by rewrite !held_other by congruence|].
      intros w'. by rewrite held_other by congruence.
  - split; [|done]. destruct Ho as [->|[-> Hn]]; [done|]. change (option_list (Some h) ++ hs) with (h :: hs). intros id.
    specialize (H id). destruct (PIPE_TABLE f !! id); [by rewrite !held_other|].
    intros w. by rewrite held_other.
Qed.

Lemma drop_opt_exact o hs f : pipes_exact (option_list o ++ hs) f → pipes_exact hs (drop_opt o f).
Proof. destruct o; [apply drop_exact|done]. Qed.

Lemma held_app id w hs hs' : held id w (hs ++ hs') = (held id w hs + held id w hs')%nat.
Proof. unfold held. by rewrite filter_app, length_app. Qed.

Lemma fd_insert_exact k h hs f : pipes_exact (h :: hs) f → pipes_exact hs (fd_insert k h f).
Proof.
  intros H. unfold fd_insert. apply drop_opt_exact. eapply pipes_exact_table; [|exact H].
  intros id w. rewrite held_app, held_cons. pose proof (ends_insert id w k h (FD_TABLE f)). lia.
Qed.

Lemma fd_insert_plain k h hs f :
  (∀ id w, h ≠ PipeHandle id w) → pipes_exact hs f → pipes_exact hs (fd_insert k h f).
Proof.
  intros Hh H. apply fd_insert_exact. intros id. specialize (H id).
  destruct (PIPE_TABLE f !! id); [by rewrite !held_other|]. intros w. by rewrite held_other.
Qed.

Lemma fd_remove_exact k hs f : pipes_exact hs f → pipes_exact hs (fd_remove k f).
Proof.
  intros H. unfold fd_remove. apply drop_opt_exact. eapply pipes_exact_table; [|exact H].
  intros id w. rewrite held_app. pose proof (ends_remove id w k (FD_TABLE f)). lia.
Qed.

Lemma fd_removes_exact ks hs f : pipes_exact hs f → pipes_exact hs (foldl (λ f k, fd_remove k f) f ks).
Proof. revert f. induction ks as [|k ks IH]; intros f H; [done|]. by apply IH, fd_remove_exact. Qed.

(** ** What table operations leave in the table *)

Lemma drop_handle_table h f :
  FD_TABLE (drop_handle h f) = FD_TABLE f ∧ NEXT_FD (drop_handle h f) = NEXT_FD f ∧
  NEXT_PIPE (drop_handle h f) = NEXT_PIPE f ∧ FD_FLAGS (drop_handle h f) = FD_FLAGS f ∧
  FD_PATH_TABLE (drop_handle h f) = FD_PATH_TABLE f ∧ counters (drop_handle h f) = counters f.
Proof. destruct h; try done. unfold drop_handle. repeat case_match; try done; by case_decide. Qed.

Lemma fd_insert_table k h f : FD_TABLE (fd_insert k h f) = <[k := h]> (FD_TABLE f).
Proof. unfold fd_insert, drop_opt. case_match; [|done]. by rewrite (proj1 (drop_handle_table _ _)). Qed.
Lemma fd_remove_table k f : FD_TABLE (fd_remove k f) = delete k (FD_TABLE f).
Proof. unfold fd_remove, drop_opt. case_match; [|done]. by rewrite (proj1 (drop_handle_table _ _)). Qed.
Lemma fd_insert_flags k h f : FD_FLAGS (fd_insert k h f) = FD_FLAGS f.
Proof. unfold fd_insert, drop_opt. case_match; [|done]. by destruct (drop_handle_table f0 (set_fd_table (<[k:=h]> (FD_TABLE f)) f)) as (_ & _ & _ & -> & _). Qed.

Lemma alloc_fd_same limits pid f fd f' : alloc_fd limits pid f = (fd, f') → same_pipes f f'.
Proof. unfold alloc_fd. case_decide; intros [= <- <-]; done. Qed.

(** ** Effects *)

(** Pipes that survive keep their bytes; an identifier is not used twice. *)
Definition bufs_kept (f f' : Fds) : Prop :=
  NEXT_PIPE f ≤ NEXT_PIPE f' ∧
  ∀ id p', PIPE_TABLE f' !! id = Some p' → id < NEXT_PIPE f →
    ∃ p, PIPE_TABLE f !! id = Some p ∧ p_buf p' = p_buf p.

(** An operation on behalf of [pid]: counts stay exact, buffered bytes stay, and
    the descriptors of other processes stay. *)
Record fd_effect (pid : Z) (f f' : Fds) : Prop := {
  fe_exact : pipes_exact [] f → pipes_exact [] f';
  fe_bufs : bufs_kept f f';
  fe_others k : k.1 ≠ pid → FD_TABLE f' !! k = FD_TABLE f !! k
}.

#[export] Instance bufs_kept_preorder : PreOrder bufs_kept.
Proof.
  split.
  - intros f. split; [lia|]. eauto.
  - intros f g h [H1 H2] [H3 H4]. split; [lia|]. intros id p Hp Hid.
    destruct (H4 id p Hp ltac:(lia)) as (p1 & Hp1 & E1). destruct (H2 id p1 Hp1 Hid) as (p2 & Hp2 & E2).
    exists p2. split; congruence.
Qed.

#[export] Instance fd_effect_preorder pid : PreOrder (fd_effect pid).
Proof.
  split.
  - intros f. split; [done|reflexivity|done].
  - intros f g h [A1 B1 C1] [A2 B2 C2]. split; [auto|by etrans|].
    intros k Hk. by rewrite C2, C1.
Qed.

Lemma same_pipes_effect pid f f' : same_pipes f f' → fd_effect pid f f'.
Proof.
  intros H. split; [by apply same_pipes_exact| |]; destruct H as (H1 & H2 & H3).
  - split; [lia|]. rewrite H2. eauto.
  - intros k _. by rewrite H1.
Qed.

Lemma drop_bufs h f : bufs_kept f (drop_handle h f).
Proof.
  destruct h as [|i w| | | | |]; try reflexivity. unfold drop_handle.
  destruct (PIPE_TABLE f !! i) as [p|] eqn:E; [|reflexivity].
  cbv zeta. destruct (decide (writer_count (pipe_release w p) = 0 ∧ _)); split; try (cbn; lia); intros id p';
    cbn [PIPE_TABLE set_pipes]; intros Hp _.
  - apply lookup_delete_Some in Hp as [_ Hp]. eauto.
  - apply lookup_insert_Some in Hp as [[<- <-]|[_ Hp]]; [|eauto]. exists p. split; [done|]. by destruct w.
Qed.

Lemma drop_opt_bufs o f : bufs_kept f (drop_opt o f).
Proof. destruct o; [apply drop_bufs|reflexivity]. Qed.

Lemma table_bufs t f : bufs_kept f (set_fd_table t f).
Proof. split; [done|]. eauto. Qed.

Lemma fd_insert_effect pid fd h f :
  (∀ id w, h ≠ PipeHandle id w) → fd_effect pid f (fd_insert (pid, fd) h f).
Proof.
  intros Hh. split.
  - by apply fd_insert_plain.
  - unfold fd_insert. etrans; [apply table_bufs|apply drop_opt_bufs].
  - intros k Hk. rewrite fd_insert_table, lookup_insert_ne; [done|]. by intros <-.
Qed.

Lemma fd_remove_effect pid k f : k.1 = pid → fd_effect pid f (fd_remove k f).
Proof.
  intros Hk. split.
  - apply fd_remove_exact.
  - unfold fd_remove. etrans; [apply table_bufs|apply drop_opt_bufs].
  - intros k' Hk'. rewrite fd_remove_table, lookup_delete_ne; [done|]. intros <-. done.
Qed.

Lemma fd_removes_effect pid ks f :
  Forall (λ k, k.1 = pid) ks → fd_effect pid f (foldl (λ f k, fd_remove k f) f ks).
Proof.
  intros Hks. revert f. induction Hks as [|k ks Hk _ IH]; intros f; [reflexivity|].
  simpl. etrans; [by apply fd_remove_effect|apply IH].
Qed.

Lemma clone_bufs h f : bufs_kept f (clone_box h f).2.
Proof.
  destruct h as [|i w| | | | |]; try reflexivity. split; [done|]. intros id p'. cbn [PIPE_TABLE set_pipes clone_box snd].
  rewrite lookup_alter_at. case_decide; [|eauto]. subst. intros Hp _.
  apply fmap_Some in Hp as (p & Hp & ->). exists p. split; [done|]. by destruct w.
Qed.

(** Fewer descriptors than a 32-bit counter can count. *)
Definition few_fds (f : Fds) : Prop := Z.of_nat (size (FD_TABLE f)) + 1 < u32_modulus.

(** Cloning a handle of the table into the table. *)
Lemma clone_insert_effect pid oldfd newfd h c f f1 :
  few_fds f → FD_TABLE f !! (pid, oldfd) = Some h → clone_box h f = (Some c, f1) →
  fd_effect pid f (fd_insert (pid, newfd) c f1).
Proof.
  intros Hfew Hh Hc. pose proof (clone_bufs h f) as Hb. rewrite Hc in Hb. cbn [snd] in Hb.
  assert (Ht : FD_TABLE f1 = FD_TABLE f).
  { clear -Hc. by destruct h; cbn in Hc; simplify_eq. }
  split.
  - intros He. apply fd_insert_exact. eapply (clone_exact h [] f (Some c) f1) in He; [by destruct He|done| |].
    + intros id w ->. pose proof (ends_delete id w _ _ _ Hh) as E. rewrite one_if_eq in E by done. lia.
    + intros id w. pose proof (ends_le id w (FD_TABLE f)). unfold few_fds, held in *. simpl. lia.
  - etrans; [exact Hb|]. unfold fd_insert. etrans; [apply table_bufs|apply drop_opt_bufs].
  - intros k Hk. rewrite fd_insert_table, Ht, lookup_insert_ne; [done|]. by intros <-.
Qed.

Ltac same_pipes_tac := apply same_pipes_effect; split_and!; reflexivity.

Lemma alloc_fd_effect limits pid pid' f fd f' : alloc_fd limits pid f = (fd, f') → fd_effect pid' f f'.
Proof. intros H. eapply same_pipes_effect, alloc_fd_same, H. Qed.

Section user_memory.
Context {N : Type}.
Implicit Types s : Sys N.

(** ** User memory *)

Lemma write_bytes_outside (root a : Z) (l : list Z) (m : gmap (Z * Z) Z) (k : Z * Z) :
  0 ≤ a → a + Z.of_nat (length l) ≤ u64_modulus → (k.1 ≠ root ∨ k.2 < a) →
  write_bytes_at root a l m !! k = m !! k.
Proof.
  revert a m. induction l as [|b l IH]; intros a m Ha Hl Hk; [done|]. simpl in Hl. cbn [write_bytes_at].
  assert (Hself : <[(root, u64 a) := b]> m !! k = m !! k).
  { apply lookup_insert_ne. rewrite u64_small by (unfold is_u64, u64_modulus in *; lia).
    destruct k as [r x]. cbn in Hk. intros [= -> ->]. lia. }
  destruct l as [|b' l']; [done|].
  assert (Hn : u64 (a + 1) = a + 1) by (apply u64_small; simpl in Hl; (unfold is_u64, u64_modulus in *; lia)).
  rewrite Hn, IH; [done|lia|simpl in *; lia|]. destruct Hk; [by left|right; lia].
Qed.

Lemma write_bytes_inside (root a : Z) (l : list Z) (m : gmap (Z * Z) Z) (i : nat) (b : Z) :
  0 ≤ a → a + Z.of_nat (length l) ≤ u64_modulus → l !! i = Some b →
  write_bytes_at root a l m !! (root, a + Z.of_nat i) = Some b.
Proof.
  revert a i m. induction l as [|b0 l IH]; intros a i m Ha Hl Hi; [done|]. simpl in Hl. cbn [write_bytes_at].
  rewrite (u64_small a) by (unfold is_u64, u64_modulus in *; lia). destruct i as [|i]; simpl in Hi.
  - injection Hi as ->. rewrite Z.add_0_r. destruct l as [|b' l']; [by apply lookup_insert_eq|].
    rewrite u64_small by (simpl in *; (unfold is_u64, u64_modulus in *; lia)).
    rewrite write_bytes_outside by (simpl in *; try lia; right; simpl; lia). by apply lookup_insert_eq.
  - destruct l as [|b' l']; [done|].
    rewrite u64_small by (simpl in *; (unfold is_u64, u64_modulus in *; lia)).
    replace (a + Z.of_nat (S i)) with (a + 1 + Z.of_nat i) by lia.
    apply IH; [lia|simpl in *; lia|done].
Qed.

(** What is copied to the user is what the user then reads. *)
Lemma uread_uwrite a (l : list Z) s :
  0 ≤ a → a + Z.of_nat (length l) ≤ u64_modulus → uread a (length l) (uwrite a l s) = l.
Proof.
  intros Ha Hl. apply list_eq_same_length with (length l); [done|unfold uread; by rewrite length_fmap, length_seq|].
  intros i x y Hi Hx Hy. unfold uread in Hx. rewrite list_lookup_fmap, lookup_seq_lt in Hx by lia.
  cbn in Hx. injection Hx as <-. rewrite u64_small by (unfold is_u64, u64_modulus in *; lia).
  unfold uwrite, set_vmem. cbn [vmem root_cr3 kern].
  change (root_cr3 _) with (root_cr3 s) at 1. by rewrite (write_bytes_inside _ _ _ _ _ y).
Qed.

Lemma validated ptr len :
  0 ≤ ptr → 0 ≤ len → validate_user_ptr ptr len = true → 0 < ptr ∧ ptr + len ≤ USER_END.
Proof.
  unfold validate_user_ptr. rewrite negb_true_iff, bool_decide_eq_false. unfold USER_END, U64_MAX. lia.
Qed.

(** A part of what was written. *)
Lemma uread_part a (l : list Z) (i n : nat) s :
  0 ≤ a → a + Z.of_nat (length l) ≤ u64_modulus → (i + n ≤ length l)%nat →
  uread (a + Z.of_nat i) n (uwrite a l s) = take n (drop i l).
Proof.
  intros Ha Hl Hi. apply list_eq_same_length with n.
  - rewrite length_take, length_drop. lia.
  - unfold uread. by rewrite length_fmap, length_seq.
  - intros j x y Hj Hx Hy. unfold uread in Hx. rewrite list_lookup_fmap, lookup_seq_lt in Hx by lia.
    cbn in Hx. injection Hx as <-. rewrite lookup_take_lt, lookup_drop in Hy by lia.
    rewrite u64_small by (unfold is_u64, u64_modulus in *; lia).
    replace (a + Z.of_nat i + Z.of_nat j) with (a + Z.of_nat (i + j)) by lia.
    unfold uwrite, set_vmem. cbn [vmem root_cr3 kern].
    change (root_cr3 _) with (root_cr3 s) at 1. by rewrite (write_bytes_inside _ _ _ _ _ y).
Qed.

(** A word of a list of words. *)
Definition words_le (ws : list Z) : list Z := foldr (λ w l, to_le 8 w ++ l) [] ws.
Lemma length_words_le ws : length (words_le ws) = (8 * length ws)%nat.
Proof.
  unfold words_le. induction ws as [|w ws IH]; [done|]. cbn [foldr].
  rewrite length_app, length_to_le, IH. cbn [length]. lia.
Qed.
Lemma words_le_lookup ws i w : ws !! i = Some w → take 8 (drop (8 * i) (words_le ws)) = to_le 8 w.
Proof.
  revert i. induction ws as [|w0 ws IH]; intros i Hi; [done|]. unfold words_le. cbn [foldr].
  fold (words_le ws). destruct i as [|i]; cbn in Hi.
  - injection Hi as ->. rewrite Nat.mul_0_r, drop_0, take_app_le, take_ge by (rewrite length_to_le; lia). done.
  - rewrite drop_app_ge by (rewrite length_to_le; lia). rewrite length_to_le.
    replace (8 * S i - 8)%nat with (8 * i)%nat by lia. by apply IH.
Qed.

Lemma uread_word a ws (i : nat) w s :
  0 ≤ a → a + 8 * Z.of_nat (length ws) ≤ u64_modulus → ws !! i = Some w → is_u64 w →
  uread_le (a + 8 * Z.of_nat i) 8 (uwrite a (words_le ws) s) = w.
Proof.
  intros Ha Hl Hi Hw. unfold uread_le. pose proof (lookup_lt_Some _ _ _ Hi).
  replace (8 * Z.of_nat i) with (Z.of_nat (8 * i)) by lia.
  rewrite uread_part by (rewrite ?length_words_le; lia). rewrite (words_le_lookup _ _ _ Hi).
  apply from_to_le. exact Hw.
Qed.
End user_memory.
