(* ===== verification/SysFdProps.v ===== *)
(** Theorems about descriptors and pipes: reference counts, the byte stream, the
    separation of processes, and where the calls lose data or crash. *)
From stdpp Require Import base numbers list gmap sets strings.
From S2P Require Import Prelude Bytes RunQueue Task Rlimit Scheduler SchedulerProps Users Ramfs Vfs VfsProps.
From S2P Require Import Tcp Namespaces SemGate SysState SysFd SysFdFacts.

Section props.
Context {N : Type} {SL : SocketLayer N}.
Implicit Types s : Sys N.

(** ** The effect of each call on the tables *)

Lemma put_effect k h h' s :
  FD_TABLE (sfds s) !! k = Some h → (h' = h ∨ ∀ id w, h ≠ PipeHandle id w ∧ h' ≠ PipeHandle id w) →
  fd_effect k.1 (sfds s) (sfds (put_handle k h' s)).
Proof.
  intros Hk Hh. unfold put_handle, upd_fds, set_sfds. cbn [sfds]. split.
  - apply pipes_exact_table. intros id w. pose proof (ends_insert id w k h' (FD_TABLE (sfds s))) as E.
    rewrite Hk in E. change (option_list (Some h)) with [h] in E. rewrite held_cons in E.
    destruct Hh as [->|Hh]; [unfold held in *; simpl in *; lia|]. destruct (Hh id w) as [Hh1 Hh2].
    unfold one_if in E. rewrite !decide_False in E by done. unfold held in *. simpl in *. lia.
  - apply table_bufs.
  - intros k' Hk'. apply lookup_insert_ne. by intros <-.
Qed.

(** Reading or writing a handle that is not a pipe's end of that kind. *)
Definition not_pipe_end (w : bool) (h : FileHandle) : Prop := ∀ id, h ≠ PipeHandle id w.

Lemma read_handle_effect pid h n s r h' s' :
  not_pipe_end false h → read_handle h n s = Ret (r, h', s') →
  fd_effect pid (sfds s) (sfds s') ∧ FD_TABLE (sfds s') = FD_TABLE (sfds s) ∧
  (h' = h ∨ ∀ id w, h ≠ PipeHandle id w ∧ h' ≠ PipeHandle id w).
Proof.
  intros Hp. destruct h as [rh|id []|c sem|e i x|p m| |key]; cbn [read_handle]; try (by destruct (Hp id)).
  - destruct (handle_read n rh) as [[b rh']| |]; try done. intros [= _ <- <-]. split_and!; [reflexivity|done|naive_solver].
  - intros [= _ <- <-]. split_and!; [reflexivity|done|by left].
  - unfold eventfd_take. repeat case_decide; try (intros [= _ <- <-]; split_and!; [same_pipes_tac|done|by left]).
    destruct sem; intros [= _ <- <-]; split_and!; try same_pipes_tac; try done; by left.
  - unfold timer_take. case_decide; [intros [= _ <- <-]; split_and!; [reflexivity|done|by left]|].
    match goal with |- context [if decide (0 < e ≤ ?now) then ?a else ?b] =>
      destruct (if decide (0 < e ≤ now) then a else b) as [e' c] end.
    intros [= _ <- <-]. split_and!; [reflexivity|done|by right].
  - destruct (signalfd_take n p m (kern s)) as [o k]. intros [= _ <- <-].
    split_and!; [same_pipes_tac|done|by left].
  - intros [= _ <- <-]. split_and!; [reflexivity|done|by left].
  - destruct (sl_recv key n (netst s)) as [b nt]. intros [= _ <- <-]. split_and!; [same_pipes_tac|done|by left].
Qed.

Lemma write_handle_effect pid h b s r h' s' :
  not_pipe_end true h → write_handle h b s = Ret (r, h', s') →
  fd_effect pid (sfds s) (sfds s') ∧ FD_TABLE (sfds s') = FD_TABLE (sfds s) ∧
  (h' = h ∨ ∀ id w, h ≠ PipeHandle id w ∧ h' ≠ PipeHandle id w).
Proof.
  intros Hp. destruct h as [rh|id []|c sem|e i x|p m| |key]; cbn [write_handle]; try (by destruct (Hp id));
    try (intros [= _ <- <-]; split_and!; [reflexivity|done|by left]).
  - destruct (handle_write b rh) as [[n rh']| |]; try done. intros [= _ <- <-]. split_and!; [reflexivity|done|naive_solver].
  - unfold eventfd_add. repeat case_decide; intros [= _ <- <-]; (split_and!; [same_pipes_tac|done|by left]).
  - destruct (sl_send key b (netst s)) as [[k nt]| |]; try done. intros [= _ <- <-].
    split_and!; [same_pipes_tac|done|by left].
Qed.

Lemma sfds_uwrite a l s : sfds (uwrite a l s) = sfds s.
Proof. done. Qed.

Lemma new_fd_effect h s :
  (∀ id w, h ≠ PipeHandle id w) → fd_effect (cur s) (sfds s) (sfds (new_fd h s).2).
Proof.
  intros Hh. unfold new_fd. destruct (alloc_fd _ _ _) as [fd f] eqn:E. cbn [snd].
  etrans; [eapply alloc_fd_effect, E|]. by apply fd_insert_effect.
Qed.

Lemma open_effect rand p l s : fd_effect (cur s) (sfds s) (sfds (sys_open rand p l s).2).
Proof.
  unfold sys_open. case_match; [reflexivity|]. case_match; [|reflexivity].
  destruct (gate_check _ _ _ _) as [d g]. case_decide; [same_pipes_tac|].
  destruct (resolve _ _) as [node|]; [|same_pipes_tac].
  destruct (node_open _ _) as [h|]; [|same_pipes_tac].
  destruct (alloc_fd _ _ _) as [fd f] eqn:E. cbn [snd]. etrans; [eapply alloc_fd_effect, E|].
  match goal with |- context [fd_insert _ _ ?x] => set (f1 := x) end.
  etrans; [|etrans; [apply (fd_insert_effect (cur s) fd (RamFileHandle h) f1); done|same_pipes_tac]].
  unfold f1. case_match; same_pipes_tac.
Qed.

Lemma close_effect fd s : fd_effect (cur s) (sfds s) (sfds (sys_close fd s).2).
Proof.
  unfold sys_close. cbn [snd]. unfold set_sfds at 1. cbn [sfds].
  etrans; [|by apply fd_remove_effect]. same_pipes_tac.
Qed.

Lemma lseek_effect fd off s : fd_effect (cur s) (sfds s) (sfds (sys_lseek fd off s).2).
Proof.
  unfold sys_lseek. destruct (FD_TABLE _ !! _) as [h|] eqn:E; [|reflexivity].
  destruct (seek_handle off h) as [pos h'] eqn:Es. apply (put_effect _ _ _ _ E).
  destruct h; cbn in Es; injection Es as <- <-; try by left. by right.
Qed.

Lemma ftruncate_effect fd len s : fd_effect (cur s) (sfds s) (sfds (sys_ftruncate fd len s).2).
Proof.
  unfold sys_ftruncate. destruct (FD_TABLE _ !! _) as [h|] eqn:E; [|reflexivity].
  apply (put_effect _ _ _ _ E). destruct h; try by left. by right.
Qed.

Lemma fstat_same fd p s : sfds (sys_fstat fd p s).2 = sfds s.
Proof. unfold sys_fstat. repeat case_match; done. Qed.
Lemma getdents_same fd p l s : sfds (sys_getdents64 fd p l s).2 = sfds s.
Proof. unfold sys_getdents64. repeat case_match; done. Qed.
Lemma gettime_same fd p s : sfds (sys_timerfd_gettime fd p s).2 = sfds s.
Proof. unfold sys_timerfd_gettime. repeat case_match; done. Qed.

Lemma copy_flags_effect pid a b f : fd_effect pid f (copy_flags pid a b f).
Proof. unfold copy_flags. case_match; same_pipes_tac. Qed.

Lemma do_dup_effect pid a b s :
  few_fds (sfds s) → fd_effect pid (sfds s) (sfds (do_dup pid a b s).2).
Proof.
  intros Hfew. unfold do_dup. case_decide; [same_pipes_tac|].
  destruct (FD_TABLE (sfds s) !! (pid, a)) as [h|] eqn:Eh.
  - destruct (clone_box h (sfds s)) as [[c|] f1] eqn:Ec.
    + cbn [snd]. etrans; [by eapply clone_insert_effect|apply copy_flags_effect].
    + assert (f1 = sfds s) as -> by (destruct h; cbn in Ec; congruence).
      destruct (reopen _ _ _) as [[p h']|]; cbn [snd]; [|same_pipes_tac].
      etrans; [apply (fd_insert_effect pid b (RamFileHandle h')); done|]. etrans; [|apply copy_flags_effect]. same_pipes_tac.
  - destruct (reopen _ _ _) as [[p h']|]; cbn [snd]; [|same_pipes_tac].
    etrans; [apply (fd_insert_effect pid b (RamFileHandle h')); done|]. etrans; [|apply copy_flags_effect]. same_pipes_tac.
Qed.

Lemma dup_effect fd s : few_fds (sfds s) → fd_effect (cur s) (sfds s) (sfds (sys_dup fd s).2).
Proof.
  intros Hfew. unfold sys_dup. destruct (alloc_fd _ _ _) as [nfd f] eqn:E.
  destruct (alloc_fd_same _ _ _ _ _ E) as (Ht & _).
  etrans; [eapply alloc_fd_effect, E|]. apply (do_dup_effect (cur s) fd nfd (set_sfds f s)).
  unfold few_fds, set_sfds. cbn [sfds]. by rewrite Ht.
Qed.

Lemma few_remove k f : few_fds f → few_fds (fd_remove k f).
Proof.
  unfold few_fds. rewrite fd_remove_table.
  pose proof (map_subseteq_size _ _ (delete_subseteq (FD_TABLE f) k)). lia.
Qed.

Lemma dup2_effect a b s : few_fds (sfds s) → fd_effect (cur s) (sfds s) (sfds (sys_dup2 a b s).2).
Proof.
  intros Hfew. unfold sys_dup2. case_decide; [reflexivity|].
  etrans; [apply (fd_remove_effect (cur s) (cur s, b)); done|].
  etrans; [|apply do_dup_effect; unfold set_sfds; cbn [sfds]; by apply (few_remove (cur s, b))].
  same_pipes_tac.
Qed.

Lemma fcntl_effect fd c a s : few_fds (sfds s) → fd_effect (cur s) (sfds s) (sfds (sys_fcntl fd c a s).2).
Proof. intros Hfew. unfold sys_fcntl. repeat case_decide; try same_pipes_tac. by apply dup_effect. Qed.

Lemma eventfd_effect v fl s : fd_effect (cur s) (sfds s) (sfds (sys_eventfd2 v fl s).2).
Proof.
  unfold sys_eventfd2. set (h := EventFdHandle _ _). pose proof (new_fd_effect h s ltac:(done)) as H.
  destruct (new_fd h s) as [fd s1]. cbn [snd] in *. etrans; [exact H|]. case_decide; same_pipes_tac.
Qed.

Lemma timerfd_create_effect s : fd_effect (cur s) (sfds s) (sfds (sys_timerfd_create s).2).
Proof.
  unfold sys_timerfd_create. pose proof (new_fd_effect (TimerHandle 0 0 0) s ltac:(done)) as H.
  by destruct (new_fd _ s) as [fd s1].
Qed.

Lemma timerfd_settime_effect fd p s : fd_effect (cur s) (sfds s) (sfds (sys_timerfd_settime fd p s).2).
Proof.
  unfold sys_timerfd_settime. case_decide; [reflexivity|]. case_match; [reflexivity|].
  set (e := if decide _ then _ else _). set (i := timespec_ms _ _).
  match goal with |- context [FD_TABLE (sfds ?s1) !! _] => set (s2 := s1) end.
  assert (H2 : fd_effect (cur s) (sfds s) (sfds s2)) by (unfold s2; same_pipes_tac).
  destruct (FD_TABLE (sfds s2) !! _) as [h|]; [|done].
  etrans; [exact H2|]. by apply fd_insert_effect.
Qed.

Lemma signalfd_effect fd p s : fd_effect (cur s) (sfds s) (sfds (sys_signalfd4 fd p s).2).
Proof.
  unfold sys_signalfd4. case_match; [reflexivity|]. set (m := if decide (p = 0) then _ else _).
  destruct (decide (fd = U64_MAX)).
  - pose proof (new_fd_effect (SignalfdHandle (cur s) m) s ltac:(done)) as H'. destruct (new_fd (SignalfdHandle (cur s) m) s) as [nfd s1]. exact H'.
  - destruct (FD_TABLE (sfds s) !! _); [|reflexivity]. by apply fd_insert_effect.
Qed.

(** A new pipe, with its two ends in flight. *)
Definition add_pipe (f : Fds) : Fds :=
  set_pipes (<[NEXT_PIPE f := new_pipe]> (PIPE_TABLE f)) (set_next_pipe (add64 (NEXT_PIPE f) 1) f).

Lemma add_pipe_exact f :
  0 ≤ NEXT_PIPE f → NEXT_PIPE f + 1 < u64_modulus → pipes_exact [] f →
  pipes_exact [PipeHandle (NEXT_PIPE f) false; PipeHandle (NEXT_PIPE f) true] (add_pipe f).
Proof.
  intros H0 Hn H id. unfold add_pipe. cbn [PIPE_TABLE FD_TABLE NEXT_PIPE set_pipes set_next_pipe].
  rewrite add64_small by lia. pose proof (H id) as Hid. destruct (decide (id = NEXT_PIPE f)) as [->|Hne].
  - rewrite lookup_insert_eq. cbn [writer_count reader_count new_pipe].
    destruct (PIPE_TABLE f !! NEXT_PIPE f); [lia|].
    pose proof (Hid true). pose proof (Hid false). rewrite !held_cons. unfold one_if.
    repeat (destruct (decide (PipeHandle _ _ = _)); try congruence). unfold held in *. simpl in *. lia.
  - rewrite lookup_insert_ne by congruence. rewrite !held_cons. unfold one_if.
    repeat (destruct (decide (PipeHandle _ _ = _)); try congruence).
    destruct (PIPE_TABLE f !! id); [destruct Hid as (?&?&?&?); split_and!; [done|done|done|lia]|].
    intros w. rewrite !held_cons. unfold one_if.
    repeat (destruct (decide (PipeHandle _ _ = _)); try congruence). apply Hid.
Qed.

Lemma add_pipe_bufs f : 0 ≤ NEXT_PIPE f → NEXT_PIPE f + 1 < u64_modulus → bufs_kept f (add_pipe f).
Proof.
  intros H0 Hn. split; unfold add_pipe; cbn [PIPE_TABLE NEXT_PIPE set_pipes set_next_pipe].
  - rewrite add64_small by lia. lia.
  - intros id p' Hp Hid. rewrite lookup_insert_ne in Hp by lia. eauto.
Qed.

Lemma fd_insert_bufs k h f : bufs_kept f (fd_insert k h f).
Proof. unfold fd_insert. etrans; [apply table_bufs|apply drop_opt_bufs]. Qed.

Lemma pipe2_effect p s :
  0 ≤ NEXT_PIPE (sfds s) → NEXT_PIPE (sfds s) + 1 < u64_modulus →
  fd_effect (cur s) (sfds s) (sfds (sys_pipe2 p s).2).
Proof.
  intros H0 Hn. unfold sys_pipe2. case_match; [reflexivity|].
  change (set_pipes _ _) with (add_pipe (sfds s)).
  destruct (alloc_fd _ _ (add_pipe (sfds s))) as [rfd f1] eqn:E1.
  destruct (alloc_fd _ _ f1) as [wfd f2] eqn:E2. cbn [snd]. rewrite sfds_uwrite. unfold set_sfds. cbn [sfds].
  apply alloc_fd_same in E1, E2. split.
  - intros He. do 2 apply fd_insert_exact. eapply same_pipes_exact; [exact E2|].
    eapply same_pipes_exact; [exact E1|]. by apply add_pipe_exact.
  - etrans; [by apply add_pipe_bufs|]. etrans; [eapply (same_pipes_effect 0), E1|].
    etrans; [eapply (same_pipes_effect 0), E2|]. etrans; apply fd_insert_bufs.
  - intros k Hk. rewrite !fd_insert_table. destruct E1 as [E1 _], E2 as [E2 _].
    rewrite !lookup_insert_ne by (by intros <-). by rewrite E2, E1.
Qed.

Lemma fds_of_pid pid f : Forall (λ k, k.1 = pid) (fds_of pid f).
Proof. apply Forall_forall. intros k Hk. unfold fds_of in Hk. by apply list_elem_of_filter in Hk as [? _]. Qed.

Lemma cleanup_effect pid f : fd_effect pid f (cleanup_pid_fds pid f).
Proof.
  etrans; [apply (fd_removes_effect pid (fds_of pid f)), fds_of_pid|]. unfold cleanup_pid_fds. same_pipes_tac.
Qed.

Lemma invalidate_effect pid c f : fd_effect pid f (invalidate_handles pid c f).
Proof.
  unfold invalidate_handles. case_decide; [|reflexivity]. apply fd_removes_effect.
  apply Forall_forall. intros k Hk. apply list_elem_of_filter in Hk as [_ Hk].
  by apply (proj1 (Forall_forall _ _) (fds_of_pid pid f)).
Qed.

(** ** Reading and writing pipes *)

(** The end of a pipe a descriptor is, as [sys_read] ([w = false]) and [sys_write]
    see it: descriptor 0 is the keyboard, 1 and 2 the log. *)
Definition pipe_end (w : bool) (fd : Z) s : option Z :=
  if (if w then bool_decide (fd = 1 ∨ fd = 2) else bool_decide (fd = 0)) then None else
  match FD_TABLE (sfds s) !! (cur s, fd) with
  | Some (PipeHandle id w') => if decide (w' = w) then Some id else None
  | _ => None
  end.

Inductive pipe_event := PRead (id : Z) (b : list Z) | PWrite (id : Z) (b : list Z).
Definition reads (id : Z) (es : list pipe_event) : list Z :=
  mjoin ((λ e, match e with PRead i b => if decide (i = id) then b else [] | PWrite _ _ => [] end) <$> es).
Definition writes (id : Z) (es : list pipe_event) : list Z :=
  mjoin ((λ e, match e with PWrite i b => if decide (i = id) then b else [] | PRead _ _ => [] end) <$> es).

(** What a reader finds in its buffer and a writer had in its own. *)
Definition read_events (fd buf n : Z) s s' : list pipe_event :=
  match pipe_end false fd s with
  | Some id => if decide (0 < n) then [PRead id (uread buf (Z.to_nat n) s')] else []
  | None => []
  end.
Definition write_events (fd buf n : Z) s : list pipe_event :=
  match pipe_end true fd s with
  | Some id => if decide (0 < n) then [PWrite id (uread buf (Z.to_nat n) s)] else []
  | None => []
  end.

(** Bytes leave a pipe in the order they entered it. *)
Definition streams (es : list pipe_event) (f f' : Fds) : Prop :=
  NEXT_PIPE f ≤ NEXT_PIPE f' ∧
  ∀ id p', PIPE_TABLE f' !! id = Some p' → id < NEXT_PIPE f →
    ∃ p, PIPE_TABLE f !! id = Some p ∧ reads id es ++ p_buf p' = p_buf p ++ writes id es.

Lemma streams_nil f f' : bufs_kept f f' → streams [] f f'.
Proof.
  intros [H1 H2]. split; [done|]. intros id p' Hp Hid. destruct (H2 id p' Hp Hid) as (p & Hp' & E).
  exists p. split; [done|]. cbn. by rewrite app_nil_r.
Qed.

Lemma streams_app es1 es2 f g h : streams es1 f g → streams es2 g h → streams (es1 ++ es2) f h.
Proof.
  intros [A1 A2] [B1 B2]. split; [lia|]. intros id p Hp Hid.
  destruct (B2 id p Hp ltac:(lia)) as (q & Hq & Eq). destruct (A2 id q Hq Hid) as (r & Hr & Er).
  exists r. split; [done|]. unfold reads, writes in *. rewrite !fmap_app, !join_app.
  by rewrite <- app_assoc, Eq, app_assoc, Er, app_assoc.
Qed.

Lemma pipe_end_table w fd s id :
  pipe_end w fd s = Some id → FD_TABLE (sfds s) !! (cur s, fd) = Some (PipeHandle id w).
Proof. unfold pipe_end. repeat case_match; intros [= <-]; congruence. Qed.

Lemma put_same k h s : FD_TABLE (sfds s) !! k = Some h → sfds (put_handle k h s) = sfds s.
Proof. intros H. unfold put_handle, upd_fds, set_sfds. cbn [sfds]. rewrite insert_id by done. by destruct (sfds s). Qed.

Lemma read_effect key fd buf len s n s' :
  pipe_end false fd s = None → sys_read (λ s, s) key fd buf len s = Ret (n, s') →
  fd_effect (cur s) (sfds s) (sfds s').
Proof.
  intros Hp. unfold sys_read. case_decide; [intros [= _ <-]; reflexivity|]. cbv zeta.
  destruct (negb _); [intros [= _ <-]; reflexivity|].
  destruct (decide (fd = 0)); [destruct key; intros [= _ <-]; reflexivity|].
  unfold pipe_end in Hp. rewrite bool_decide_eq_false_2 in Hp by done.
  destruct (FD_TABLE (sfds s) !! (cur s, fd)) as [h|] eqn:Eh; [|intros [= _ <-]; reflexivity].
  destruct (read_handle h _ s) as [[[r h'] s1]| |] eqn:Er; try done. cbn [res_bind].
  assert (Hne : not_pipe_end false h) by (intros id ->; by rewrite decide_True in Hp).
  destruct (read_handle_effect (cur s) h _ s r h' s1 Hne Er) as (H1 & H2 & H3).
  assert (Hput : fd_effect (cur s) (sfds s) (sfds (put_handle (cur s, fd) h' s1))).
  { etrans; [exact H1|]. apply (put_effect (cur s, fd) h h' s1); [by rewrite H2|done]. }
  destruct r as [b|[]]; try (intros [= _ <-]; exact Hput).
  cbv zeta. case_decide; intros [= _ <-]; exact Hput.
Qed.

Lemma write_effect fd buf len s n s' :
  pipe_end true fd s = None → sys_write fd buf len s = Ret (n, s') → fd_effect (cur s) (sfds s) (sfds s').
Proof.
  intros Hp. unfold sys_write. case_decide; [intros [= _ <-]; reflexivity|]. cbv zeta.
  destruct (negb _); [intros [= _ <-]; reflexivity|].
  destruct (decide (fd = 1 ∨ fd = 2)); [intros [= _ <-]; reflexivity|].
  unfold pipe_end in Hp. rewrite bool_decide_eq_false_2 in Hp by done.
  destruct (FD_TABLE (sfds s) !! (cur s, fd)) as [h|] eqn:Eh; [|intros [= _ <-]; reflexivity].
  destruct (write_handle h _ s) as [[[r h'] s1]| |] eqn:Er; try done. cbn [res_bind].
  assert (Hne : not_pipe_end true h) by (intros id ->; by rewrite decide_True in Hp).
  destruct (write_handle_effect (cur s) h _ s r h' s1 Hne Er) as (H1 & H2 & H3).
  assert (Hput : fd_effect (cur s) (sfds s) (sfds (put_handle (cur s, fd) h' s1))).
  { etrans; [exact H1|]. apply (put_effect (cur s, fd) h h' s1); [by rewrite H2|done]. }
  destruct r as [b|e]; intros [= _ <-]; exact Hput.
Qed.

Lemma put_id k h s : FD_TABLE (sfds s) !! k = Some h → put_handle k h s = s.
Proof.
  intros H. unfold put_handle, upd_fds, set_sfds, set_fd_table. rewrite insert_id by done.
  destruct s as [? ? ? ? ? f]. cbn. by destruct f.
Qed.
Lemma uwrite_nil a s : uwrite a [] s = s.
Proof. by destruct s. Qed.
Lemma set_sfds_id s : set_sfds (sfds s) s = s.
Proof. by destruct s. Qed.

(** Take [k] bytes out of a pipe, put bytes in. *)
Definition drain (id : Z) (k : nat) (p : PipeState) (f : Fds) : Fds :=
  set_pipes (<[id := mkPipe (drop k (p_buf p)) (writer_count p) (reader_count p)]> (PIPE_TABLE f)) f.
Definition fill (id : Z) (b : list Z) (p : PipeState) (f : Fds) : Fds :=
  set_pipes (<[id := mkPipe (p_buf p ++ b) (writer_count p) (reader_count p)]> (PIPE_TABLE f)) f.

(** A pipe read by a descriptor, on every branch. *)
Lemma sys_read_pipe y key fd buf len s id :
  pipe_end false fd s = Some id → len ≠ 0 → validate_user_ptr buf (Z.min len 65536) = true →
  sys_read y key fd buf len s =
    match PIPE_TABLE (sfds s) !! id with
    | Some p =>
        if decide (p_buf p = []) then
          if decide (writer_count p = 0) then Ret (0, s)
          else if decide (Z.land (default 0 (FD_FLAGS (sfds s) !! (cur s, fd))) O_NONBLOCK ≠ 0)
               then Ret (EAGAIN, s) else Ret (0, y s)
        else
          let k := (Z.to_nat (Z.min len 65536) `min` length (p_buf p))%nat in
          Ret (Z.of_nat k, uwrite buf (take k (p_buf p)) (set_sfds (drain id k p (sfds s)) s))
    | None => Ret (0, s)
    end.
Proof.
  intros He Hlen Hv. pose proof (pipe_end_table _ _ _ _ He) as Ht.
  unfold sys_read. rewrite decide_False by done. cbv zeta. rewrite Hv. cbn [negb].
  assert (Hfd : fd ≠ 0). { intros ->. unfold pipe_end in He. by rewrite bool_decide_eq_true_2 in He. }
  rewrite decide_False by done. rewrite Ht. cbn [read_handle]. unfold pipe_read.
  destruct (PIPE_TABLE (sfds s) !! id) as [p|]; cbn [res_bind].
  - destruct (decide (p_buf p = [])) as [Hb|Hb]; cbn [res_bind].
    + rewrite set_sfds_id, put_id by done. destruct (decide (writer_count p = 0)); [by rewrite uwrite_nil|done].
    + rewrite length_take. rewrite put_id by done. rewrite Nat.min_l by lia. done.
  - rewrite set_sfds_id, put_id by done. by rewrite uwrite_nil.
Qed.

Lemma sys_write_pipe fd buf len s id :
  pipe_end true fd s = Some id → len ≠ 0 → validate_user_ptr buf (Z.min len 65536) = true →
  sys_write fd buf len s =
    match PIPE_TABLE (sfds s) !! id with
    | Some p => let b := uread buf (Z.to_nat (Z.min len 65536)) s in
                Ret (Z.of_nat (length b), set_sfds (fill id b p (sfds s)) s)
    | None => Ret (EINVAL, s)
    end.
Proof.
  intros He Hlen Hv. pose proof (pipe_end_table _ _ _ _ He) as Ht.
  unfold sys_write. rewrite decide_False by done. cbv zeta. rewrite Hv. cbn [negb].
  assert (Hfd : ¬ (fd = 1 ∨ fd = 2)).
  { intros Hfd. unfold pipe_end in He. by rewrite bool_decide_eq_true_2 in He. }
  rewrite decide_False by done. rewrite Ht. cbn [write_handle]. unfold pipe_write.
  destruct (PIPE_TABLE (sfds s) !! id) as [p|]; cbn [res_bind].
  - by rewrite put_id.
  - by rewrite set_sfds_id, put_id.
Qed.

Lemma replace_pipe_exact id p p' hs f :
  PIPE_TABLE f !! id = Some p → writer_count p' = writer_count p → reader_count p' = reader_count p →
  pipes_exact hs f → pipes_exact hs (set_pipes (<[id := p']> (PIPE_TABLE f)) f).
Proof.
  intros Hp Hw Hr H i. specialize (H i). unfold set_pipes. cbn [PIPE_TABLE FD_TABLE NEXT_PIPE].
  destruct (decide (i = id)) as [->|Hi]; [|by rewrite lookup_insert_ne by congruence].
  rewrite lookup_insert_eq. rewrite Hp in H. by rewrite Hw, Hr.
Qed.

Lemma take_min_length {A} n (l : list A) : take (n `min` length l) l = take n l.
Proof. apply list_eq. intros i. rewrite !lookup_take. repeat case_decide; try done; [lia|]. symmetry. apply lookup_ge_None. lia. Qed.

(** One call of [sys_read]: counts, stream, other processes. *)
Lemma read_step key fd buf len s n s' :
  is_u64 buf → is_u64 len → sys_read (λ s, s) key fd buf len s = Ret (n, s') →
  (pipes_exact [] (sfds s) → pipes_exact [] (sfds s')) ∧
  streams (read_events fd buf n s s') (sfds s) (sfds s') ∧
  ∀ k, k.1 ≠ cur s → FD_TABLE (sfds s') !! k = FD_TABLE (sfds s) !! k.
Proof.
  intros Hbuf Hlen Hr. unfold read_events. destruct (pipe_end false fd s) as [id|] eqn:Ep.
  2: { destruct (read_effect _ _ _ _ _ _ _ Ep Hr) as [H1 H2 H3]. split_and!; [done|by apply streams_nil|done]. }
  destruct (decide (len = 0)) as [->|Hl].
  { unfold sys_read in Hr. rewrite decide_True in Hr by done. injection Hr as <- <-.
    split_and!; [done|by apply streams_nil|done]. }
  destruct (validate_user_ptr buf (Z.min len 65536)) eqn:Hv.
  2: { unfold sys_read in Hr. rewrite decide_False in Hr by done. cbv zeta in Hr. rewrite Hv in Hr.
       injection Hr as <- <-. split_and!; [done|by apply streams_nil|done]. }
  rewrite (sys_read_pipe _ _ _ _ _ _ _ Ep Hl Hv) in Hr.
  destruct (PIPE_TABLE (sfds s) !! id) as [p|] eqn:Et.
  2: { injection Hr as <- <-. split_and!; [done|by apply streams_nil|done]. }
  destruct (decide (p_buf p = [])) as [Hb|Hb].
  { assert (n ≤ 0 ∧ s' = s) as [Hn ->] by (revert Hr; unfold EAGAIN; repeat case_decide; naive_solver lia).
    rewrite decide_False by lia. split_and!; [done|by apply streams_nil|done]. }
  cbv zeta in Hr. set (k := (_ `min` _)%nat) in Hr. injection Hr as <- <-.
  destruct (validated buf (Z.min len 65536)) as [Hb0 Hb1]; [apply Hbuf|destruct Hlen; lia|done|].
  assert (Hk : (0 < k)%nat).
  { unfold k. destruct (p_buf p); [done|]. simpl. destruct Hlen. lia. }
  assert (Hlk : length (take k (p_buf p)) = k) by (rewrite length_take; unfold k; lia).
  split_and!.
  - apply (replace_pipe_exact id p); done.
  - rewrite decide_True by lia. rewrite Nat2Z.id. split; [done|]. intros i q Hq Hi.
    cbn [sfds uwrite set_vmem set_sfds drain set_pipes PIPE_TABLE] in Hq.
    assert (Hu : uread buf k (uwrite buf (take k (p_buf p)) (set_sfds (drain id k p (sfds s)) s)) = take k (p_buf p)).
    { rewrite <- Hlk at 1. apply uread_uwrite; [lia|]. rewrite Hlk. unfold USER_END, u64_modulus, k in *. lia. }
    rewrite Hu. unfold reads, writes. cbn. rewrite !app_nil_r.
    apply lookup_insert_Some in Hq as [[<- <-]|[Hne Hq]].
    + exists p. split; [done|]. rewrite decide_True by done. cbn. rewrite ?app_nil_r. apply take_drop.
    + exists q. split; [done|]. rewrite decide_False by congruence. cbn. by rewrite ?app_nil_r.
  - done.
Qed.

Lemma write_step fd buf len s n s' :
  is_u64 len → sys_write fd buf len s = Ret (n, s') →
  (pipes_exact [] (sfds s) → pipes_exact [] (sfds s')) ∧
  streams (write_events fd buf n s) (sfds s) (sfds s') ∧
  ∀ k, k.1 ≠ cur s → FD_TABLE (sfds s') !! k = FD_TABLE (sfds s) !! k.
Proof.
  intros Hlen Hr. unfold write_events. destruct (pipe_end true fd s) as [id|] eqn:Ep.
  2: { destruct (write_effect _ _ _ _ _ _ Ep Hr) as [H1 H2 H3]. split_and!; [done|by apply streams_nil|done]. }
  destruct (decide (len = 0)) as [->|Hl].
  { unfold sys_write in Hr. rewrite decide_True in Hr by done. injection Hr as <- <-.
    split_and!; [done|by apply streams_nil|done]. }
  destruct (validate_user_ptr buf (Z.min len 65536)) eqn:Hv.
  2: { unfold sys_write in Hr. rewrite decide_False in Hr by done. cbv zeta in Hr. rewrite Hv in Hr.
       injection Hr as <- <-. split_and!; [done|by apply streams_nil|done]. }
  rewrite (sys_write_pipe _ _ _ _ _ Ep Hl Hv) in Hr.
  destruct (PIPE_TABLE (sfds s) !! id) as [p|] eqn:Et.
  2: { injection Hr as <- <-. split_and!; [done|by apply streams_nil|done]. }
  cbv zeta in Hr. set (b := uread _ _ _) in Hr. injection Hr as <- <-.
  assert (Hlb : length b = Z.to_nat (Z.min len 65536)) by (unfold b, uread; by rewrite length_fmap, length_seq).
  split_and!.
  - apply (replace_pipe_exact id p); done.
  - rewrite decide_True by (destruct Hlen; lia). rewrite Nat2Z.id, Hlb. fold b. split; [done|]. intros i q Hq Hi.
    cbn [sfds set_sfds fill set_pipes PIPE_TABLE] in Hq. unfold reads, writes. cbn.
    apply lookup_insert_Some in Hq as [[<- <-]|[Hne Hq]].
    + exists p. split; [done|]. rewrite decide_True by done. cbn. by rewrite app_nil_r.
    + exists q. split; [done|]. rewrite decide_False by congruence. cbn. by rewrite app_nil_r.
  - done.
Qed.

(** ** Runs of the kernel, as the descriptor tables see them *)

(** One call of a process on its descriptors, the exit of a process, the
    revocation of a capability, or anything that leaves the tables alone. A read
    that finds a pipe empty yields and returns: what other tasks do meanwhile are
    later steps. Counters of 32 and 64 bits are assumed not to wrap. *)
Inductive fd_step : Sys N → Z → list pipe_event → Sys N → Prop :=
| step_read key fd buf len n s s' :
    is_u64 buf → is_u64 len → sys_read (λ s, s) key fd buf len s = Ret (n, s') →
    fd_step s (cur s) (read_events fd buf n s s') s'
| step_write fd buf len n s s' :
    is_u64 len → sys_write fd buf len s = Ret (n, s') → fd_step s (cur s) (write_events fd buf n s) s'
| step_open rand p l s : fd_step s (cur s) [] (sys_open rand p l s).2
| step_close fd s : fd_step s (cur s) [] (sys_close fd s).2
| step_lseek fd off s : fd_step s (cur s) [] (sys_lseek fd off s).2
| step_fstat fd p s : fd_step s (cur s) [] (sys_fstat fd p s).2
| step_ftruncate fd len s : fd_step s (cur s) [] (sys_ftruncate fd len s).2
| step_dup fd s : few_fds (sfds s) → fd_step s (cur s) [] (sys_dup fd s).2
| step_dup2 a b s : few_fds (sfds s) → fd_step s (cur s) [] (sys_dup2 a b s).2
| step_fcntl fd c a s : few_fds (sfds s) → fd_step s (cur s) [] (sys_fcntl fd c a s).2
| step_pipe2 p s :
    0 ≤ NEXT_PIPE (sfds s) → NEXT_PIPE (sfds s) + 1 < u64_modulus → fd_step s (cur s) [] (sys_pipe2 p s).2
| step_eventfd v fl s : fd_step s (cur s) [] (sys_eventfd2 v fl s).2
| step_timerfd_create s : fd_step s (cur s) [] (sys_timerfd_create s).2
| step_timerfd_settime fd p s : fd_step s (cur s) [] (sys_timerfd_settime fd p s).2
| step_timerfd_gettime fd p s : fd_step s (cur s) [] (sys_timerfd_gettime fd p s).2
| step_signalfd fd p s : fd_step s (cur s) [] (sys_signalfd4 fd p s).2
| step_getdents fd p l s : fd_step s (cur s) [] (sys_getdents64 fd p l s).2
| step_exit pid s : fd_step s pid [] (upd_fds (cleanup_pid_fds pid) s)
| step_revoke pid c s : fd_step s pid [] (upd_fds (invalidate_handles pid c) s)
| step_other pid s s' : sfds s' = sfds s → fd_step s pid [] s'.

Lemma fd_step_effect s p es s' :
  fd_step s p es s' →
  (pipes_exact [] (sfds s) → pipes_exact [] (sfds s')) ∧ streams es (sfds s) (sfds s') ∧
  ∀ k, k.1 ≠ p → FD_TABLE (sfds s') !! k = FD_TABLE (sfds s) !! k.
Proof.
  assert (H : ∀ p f f', fd_effect p f f' →
    (pipes_exact [] f → pipes_exact [] f') ∧ streams [] f f' ∧ ∀ k, k.1 ≠ p → FD_TABLE f' !! k = FD_TABLE f !! k).
  { intros q f f' [H1 H2 H3]. split_and!; [done|by apply streams_nil|done]. }
  destruct 1; eauto using read_step, write_step; apply H;
    auto using open_effect, close_effect, lseek_effect, ftruncate_effect, dup_effect, dup2_effect, fcntl_effect,
      pipe2_effect, eventfd_effect, timerfd_create_effect, timerfd_settime_effect, signalfd_effect;
    rewrite ?fstat_same, ?gettime_same, ?getdents_same; try reflexivity;
    unfold upd_fds, set_sfds; cbn [sfds]; auto using cleanup_effect, invalidate_effect.
  replace (sfds s') with (sfds s). reflexivity.
Qed.

Inductive fd_run : Sys N → list pipe_event → Sys N → Prop :=
| run_nil s : fd_run s [] s
| run_step s p es s1 es' s2 : fd_step s p es s1 → fd_run s1 es' s2 → fd_run s (es ++ es') s2.

Lemma fd_run_effect s es s' :
  fd_run s es s' → (pipes_exact [] (sfds s) → pipes_exact [] (sfds s')) ∧ streams es (sfds s) (sfds s').
Proof.
  induction 1 as [s|s p es s1 es' s2 Hst Hr (IH1 & IH2)]; [split; [done|by apply streams_nil]|].
  destruct (fd_step_effect _ _ _ _ Hst) as (H1 & H2 & _). split; [auto|by eapply streams_app].
Qed.

(** ** Theorems *)

(** C20. Over any sequence of descriptor calls, exits and revocations from boot, the
    two counters of every pipe are the numbers of its open write and read
    descriptors, over all processes; a pipe exists exactly as long as one is
    open. *)
Theorem pipe_refcounts s es s' :
  sfds s = no_fds → fd_run s es s' →
  ∀ id, match PIPE_TABLE (sfds s') !! id with
        | Some p =>
            writer_count p = Z.of_nat (size (filter (λ e, e.2 = PipeHandle id true) (FD_TABLE (sfds s')))) ∧
            reader_count p = Z.of_nat (size (filter (λ e, e.2 = PipeHandle id false) (FD_TABLE (sfds s')))) ∧
            0 < writer_count p + reader_count p
        | None => ∀ k w, FD_TABLE (sfds s') !! k ≠ Some (PipeHandle id w)
        end.
Proof.
  intros Hs Hrun id. destruct (fd_run_effect _ _ _ Hrun) as [He _].
  assert (H0 : pipes_exact [] (sfds s)) by (rewrite Hs; intros i; cbn; by rewrite lookup_empty).
  specialize (He H0 id). destruct (PIPE_TABLE (sfds s') !! id) as [p|].
  - change (held id true []) with 0%nat in He. change (held id false []) with 0%nat in He.
    rewrite !Nat.add_0_r in He. by destruct He as (H1 & H2 & H3 & _).
  - intros k w Hk. pose proof (ends_delete id w k _ _ Hk) as E. rewrite one_if_eq in E by done.
    specialize (He w). lia.
Qed.

(** C21. Bytes leave a pipe in the order they entered it and none is lost or
    duplicated: over any run of the calls of [fd_step] (read, write, open, close, dup,
    dup2, fcntl, pipe2 and the other single-descriptor calls, exits and revocations, by any
    processes) during which the pipe exists, what readers found in their buffers
    followed by what is still in the pipe is what was in the pipe followed by what
    writers had in theirs. [sys_sendfile] is not among the calls: it takes bytes from
    a pipe before it knows that they can be written, and drops them when they cannot. *)
Theorem pipe_fifo s es s' id p p' :
  pipes_exact [] (sfds s) → PIPE_TABLE (sfds s) !! id = Some p →
  fd_run s es s' → PIPE_TABLE (sfds s') !! id = Some p' →
  reads id es ++ p_buf p' = p_buf p ++ writes id es.
Proof.
  intros He Hp Hrun Hp'. destruct (fd_run_effect _ _ _ Hrun) as [_ [_ Hst]].
  specialize (He id). rewrite Hp in He. destruct He as (_ & _ & _ & Hlt).
  destruct (Hst id p' Hp' Hlt) as (q & Hq & E). congruence.
Qed.

(** A read from an empty pipe: end of file exactly when no write descriptor is
    open in any process; with one open, [EAGAIN] for a non-blocking descriptor,
    and for a blocking one a single yield and then 0, which the caller cannot tell
    from end of file. *)
Theorem pipe_empty_read y key fd buf len s id p :
  pipes_exact [] (sfds s) → pipe_end false fd s = Some id →
  PIPE_TABLE (sfds s) !! id = Some p → p_buf p = [] →
  len ≠ 0 → validate_user_ptr buf (Z.min len 65536) = true →
  ((∀ k, FD_TABLE (sfds s) !! k ≠ Some (PipeHandle id true)) → sys_read y key fd buf len s = Ret (0, s)) ∧
  (∀ k, FD_TABLE (sfds s) !! k = Some (PipeHandle id true) →
     sys_read y key fd buf len s =
       if decide (Z.land (default 0 (FD_FLAGS (sfds s) !! (cur s, fd))) O_NONBLOCK ≠ 0)
       then Ret (EAGAIN, s) else Ret (0, y s)).
Proof.
  intros He Hend Hp Hb Hlen Hv. rewrite (sys_read_pipe _ _ _ _ _ _ _ Hend Hlen Hv), Hp.
  rewrite decide_True by done. specialize (He id). rewrite Hp in He. destruct He as (Hw & _).
  change (held id true []) with 0%nat in Hw. rewrite Nat.add_0_r in Hw. split.
  - intros Hno. rewrite decide_True; [done|]. rewrite Hw.
    enough (ends id true (FD_TABLE (sfds s)) = 0%nat) as -> by done.
    unfold ends. apply map_size_empty_iff, map_empty. intros k. apply map_lookup_filter_None.
    right. intros h Hk. cbn. intros ->. by destruct (Hno k).
  - intros k Hk. rewrite decide_False; [done|]. rewrite Hw.
    pose proof (ends_delete id true k _ _ Hk) as E. rewrite one_if_eq in E by done. lia.
Qed.

(** A process's calls do not reach another's descriptors: after a step of
    process [p], every other process has the same handles under the same
    numbers. *)
Theorem descriptors_private s p es s' q fd :
  fd_step s p es s' → q ≠ p → FD_TABLE (sfds s') !! (q, fd) = FD_TABLE (sfds s) !! (q, fd).
Proof. intros Hst Hq. destruct (fd_step_effect _ _ _ _ Hst) as (_ & _ & H). by apply H. Qed.

(** The calls on files. *)
Inductive file_call : Sys N → Sys N → Prop :=
| fc_read key fd buf len n s s' : sys_read (λ s, s) key fd buf len s = Ret (n, s') → file_call s s'
| fc_write fd buf len n s s' : sys_write fd buf len s = Ret (n, s') → file_call s s'
| fc_open rand p l s : file_call s (sys_open rand p l s).2
| fc_close fd s : file_call s (sys_close fd s).2
| fc_lseek fd off s : file_call s (sys_lseek fd off s).2
| fc_ftruncate fd len s : file_call s (sys_ftruncate fd len s).2
| fc_dup fd s : file_call s (sys_dup fd s).2
| fc_dup2 a b s : file_call s (sys_dup2 a b s).2.

Lemma read_handle_vfs h n s r h' s' : read_handle h n s = Ret (r, h', s') → vfs s' = vfs s.
Proof.
  destruct h; cbn [read_handle]; repeat (case_match; try done); intros; simplify_eq; try done.
  - destruct (handle_read n h) as [[]| |]; cbn in *; by simplify_eq.
Qed.
Lemma write_handle_vfs h b s r h' s' : write_handle h b s = Ret (r, h', s') → vfs s' = vfs s.
Proof.
  destruct h; cbn [write_handle]; repeat (case_match; try done); intros; simplify_eq; try done.
  - destruct (handle_write b h) as [[]| |]; cbn in *; by simplify_eq.
  - destruct (sl_send key b (netst s)) as [[]| |]; cbn in *; by simplify_eq.
Qed.

Lemma do_dup_vfs pid a b s : vfs (do_dup pid a b s).2 = vfs s.
Proof.
  unfold do_dup. destruct (decide (a < 3)); [done|].
  destruct (match FD_TABLE (sfds s) !! (pid, a) with Some h => clone_box h (sfds s) | None => (None, sfds s) end)
    as [[c|] f]; [done|]. by destruct (reopen _ _ _) as [[]|].
Qed.

Lemma file_call_vfs s s' : file_call s s' → vfs s' = vfs s.
Proof.
  destruct 1.
  - unfold sys_read in *. repeat (case_match; simplify_eq; try done).
    destruct (read_handle _ _ s) as [[[r h'] s1]| |] eqn:E; cbn in *; try done.
    apply read_handle_vfs in E. repeat case_match; simplify_eq; done.
  - unfold sys_write in *. repeat (case_match; simplify_eq; try done).
    destruct (write_handle _ _ s) as [[[r h'] s1]| |] eqn:E; cbn in *; try done.
    apply write_handle_vfs in E. repeat case_match; simplify_eq; done.
  - unfold sys_open. repeat (case_match; try done).
  - done.
  - unfold sys_lseek. repeat (case_match; try done).
  - unfold sys_ftruncate. repeat (case_match; try done).
  - unfold sys_dup. case_match. by rewrite do_dup_vfs.
  - unfold sys_dup2. case_decide; [done|]. by rewrite do_dup_vfs.
Qed.

(** What a process writes through a descriptor is never stored: no sequence of
    [open], [read], [write], [lseek], [ftruncate], [dup] and [close] calls, by any
    process, changes the file system. *)
Theorem descriptor_writes_lost s s' : rtc file_call s s' → vfs s' = vfs s.
Proof. induction 1 as [|s1 s2 s3 H _ IH]; [done|]. rewrite IH. by apply file_call_vfs. Qed.

(** Any process with an open file can stop the kernel: it seeks past the end and
    reads, and the slice of the file's bytes panics. *)
Theorem seek_read_panics y key fd off buf len s h :
  FD_TABLE (sfds s) !! (cur s, fd) = Some (RamFileHandle h) → h_len h < off →
  fd ≠ 0 → len ≠ 0 → validate_user_ptr buf (Z.min len 65536) = true →
  sys_read y key fd buf len (sys_lseek fd off s).2 = Panic.
Proof.
  intros Hfd Hoff H0 Hlen Hv. unfold sys_lseek. rewrite Hfd. cbn [seek_handle snd].
  unfold sys_read. rewrite (decide_False (P := len = 0)) by done. rewrite Hv. cbn [negb].
  rewrite decide_False by done. change (cur (put_handle _ _ s)) with (cur s).
  assert (E : FD_TABLE (sfds (put_handle (cur s, fd) (RamFileHandle (handle_seek off h)) s)) !! (cur s, fd)
              = Some (RamFileHandle (handle_seek off h))) by apply lookup_insert_eq.
  rewrite E.
  cbn [read_handle]. unfold handle_read. rewrite decide_True by (cbn; exact Hoff). done.
Qed.

(** At the limit on open files a call reports -1, but the handle is in the table,
    under the number [u64::MAX]. *)
Lemma fd_limit_installs (h : FileHandle) s n :
  NEXT_FD (sfds s) !! cur s = Some n →
  Rlimit.cur (get_limit (cur s) RLIMIT_NOFILE (RLIMITS (kern s))) < n →
  Rlimit.cur (get_limit (cur s) RLIMIT_NOFILE (RLIMITS (kern s))) ≠ U64_MAX →
  as_i64 (new_fd h s).1 = -1 ∧ FD_TABLE (sfds (new_fd h s).2) !! (cur s, U64_MAX) = Some h.
Proof.
  intros Hn Hlim Hinf. unfold new_fd, alloc_fd. rewrite Hn. cbn [default]. rewrite decide_True by done.
  cbn [fst snd set_sfds sfds]. rewrite fd_insert_table, lookup_insert_eq. done.
Qed.
End props.

(** ** Concrete instances *)

#[export] Instance no_sockets : SocketLayer unit.
Proof.
  refine {| sl_rx_len := λ _ _, 0%nat; sl_recv := λ _ _ n, ([], n); sl_send := λ _ _ n, Ret (0%nat, n) |}.
  intros. simpl. lia.
Defined.

(** Process 2 runs; three bytes are at 0x2000 in its memory. *)
Definition demo_sys : Sys unit :=
  mkSys demo_family no_users demo_fs tt
    {[ (4096, 0x2000) := 7; (4096, 0x2001) := 8; (4096, 0x2002) := 9 ]}
    no_fds (mkFutexes ∅ ∅) (mkVmas ∅ ∅ 0x100000000) (mkPercpu 0 0 0 0 0) no_isolation.

(** [pipe2] gives descriptors 3 and 4; three bytes go in, two come out. *)
Definition demo_piped : Sys unit := (sys_pipe2 0x1000 demo_sys).2.
Definition demo_written : res (Z * Sys unit) := sys_write 4 0x2000 3 demo_piped.
Definition ret_state {N} (s0 : Sys N) (r : res (Z * Sys N)) : Sys N :=
  match r with Ret (_, s) => s | _ => s0 end.
Definition demo_full : Sys unit := ret_state demo_sys demo_written.
Definition demo_drained : Sys unit := ret_state demo_sys (sys_read (λ s, s) None 3 0x3000 2 demo_full).

Lemma demo_run_pipe : fd_run demo_piped ([PWrite 0 [7; 8; 9]] ++ [PRead 0 [7; 8]] ++ []) demo_drained.
Proof.
  replace [PWrite 0 [7; 8; 9]] with (write_events 4 0x2000 3 demo_piped) by (vm_compute; reflexivity).
  replace [PRead 0 [7; 8]] with (read_events 3 0x3000 2 demo_full demo_drained) by (vm_compute; reflexivity).
  eapply run_step.
  { apply (step_write 4 0x2000 3 3 demo_piped demo_full); [done|vm_compute; reflexivity]. }
  eapply run_step; [|constructor].
  apply (step_read None 3 0x3000 2 2 demo_full demo_drained); [done..|vm_compute; reflexivity].
Qed.

Lemma demo_run_boot : fd_run demo_sys ([] ++ [PWrite 0 [7; 8; 9]] ++ [PRead 0 [7; 8]] ++ []) demo_drained.
Proof. eapply run_step; [apply step_pipe2; done|exact demo_run_pipe]. Qed.

Lemma pipe_refcounts_witness :
  PIPE_TABLE (sfds demo_drained) !! 0 = Some (mkPipe [9] 1 1) ∧
  size (filter (λ e, e.2 = PipeHandle 0 true) (FD_TABLE (sfds demo_drained))) = 1%nat.
Proof.
  split; [vm_compute; reflexivity|]. pose proof (pipe_refcounts demo_sys _ demo_drained eq_refl demo_run_boot 0) as H.
  assert (E : PIPE_TABLE (sfds demo_drained) !! 0 = Some (mkPipe [9] 1 1)) by (vm_compute; reflexivity).
  rewrite E in H. destruct H as [Hw _].
  cbn [writer_count] in Hw. lia.
Defined.

Lemma demo_piped_exact : pipes_exact [] (sfds demo_piped).
Proof.
  apply (pipe2_effect 0x1000 demo_sys); [done..|]. intros i. cbn. by rewrite lookup_empty.
Qed.

Lemma pipe_fifo_witness : reads 0 ([PWrite 0 [7; 8; 9]] ++ [PRead 0 [7; 8]] ++ []) ++ [9] = [7; 8; 9].
Proof.
  apply (pipe_fifo demo_piped ([PWrite 0 [7; 8; 9]] ++ [PRead 0 [7; 8]] ++ []) demo_drained 0 (mkPipe [] 1 1) (mkPipe [9] 1 1));
    [exact demo_piped_exact|vm_compute; reflexivity|exact demo_run_pipe|vm_compute; reflexivity].
Defined.

Lemma pipe_empty_read_witness : sys_read (λ s, s) None 3 0x3000 2 demo_piped = Ret (0, demo_piped).
Proof.
  destruct (pipe_empty_read (λ s, s) None 3 0x3000 2 demo_piped 0 (mkPipe [] 1 1)) as [_ H];
    [exact demo_piped_exact|vm_compute; reflexivity..|done|vm_compute; reflexivity|].
  rewrite (H (2, 4)) by (vm_compute; reflexivity). rewrite decide_False; [done|by vm_compute].
Defined.

Lemma descriptors_private_witness : FD_TABLE (sfds demo_piped) !! (5, 3) = FD_TABLE (sfds demo_sys) !! (5, 3).
Proof. apply (descriptors_private demo_sys (cur demo_sys) []); [apply step_pipe2; done|done]. Defined.

(** The path of the file is at 0x2000. *)
Definition demo_files : Sys unit := uwrite 0x2000 (str_bytes "/secret") demo_sys.
Definition demo_opened : Sys unit := (sys_open (λ _, 0) 0x2000 7 demo_files).2.

Lemma descriptor_writes_lost_witness :
  vfs (sys_close 3 (ret_state demo_sys (sys_write 3 0x2000 3 demo_opened))).2 = demo_fs.
Proof.
  change demo_fs with (vfs demo_files).
  apply (descriptor_writes_lost demo_files).
  eapply rtc_l; [apply (fc_open (λ _, 0) 0x2000 7)|].
  eapply rtc_l; [apply (fc_write 3 0x2000 3 3); vm_compute; reflexivity|].
  apply rtc_once, fc_close.
Defined.

Lemma seek_read_panics_witness :
  sys_read (λ s, s) None 3 0x3000 16 (sys_lseek 3 100 demo_opened).2 = Panic.
Proof.
  assert (H : ∃ h, FD_TABLE (sfds demo_opened) !! (cur demo_opened, 3) = Some (RamFileHandle h) ∧ h_len h < 100)
    by (eexists; split; [vm_compute; reflexivity|done]).
  destruct H as (h & H1 & H2).
  exact (seek_read_panics (λ s, s) None 3 100 0x3000 16 demo_opened h H1 H2 ltac:(done) ltac:(done) eq_refl).
Defined.
