(* ===== verification/SysProc.v ===== *)
(** Processes, signals, futexes and seccomp: the process calls of
    [kernel/src/syscall/mod.rs], the gate every call passes and the path back to
    user mode.

    What other tasks do while the caller has yielded, sleeps or waits for an
    interrupt is an argument; so are the page-table side of [fork] and of an exit,
    the entropy bytes, and what the float models outside the detector report. *)
From Stdlib Require Import Ascii.
From stdpp Require Import base numbers list gmap sets strings.
From S2P Require Import Prelude Bytes Pmm RunQueue Task Rlimit JobControl Scheduler Users Ramfs Vfs Tcp F32.
From S2P Require Import Anomaly Security Namespaces SemGate Ptrace SysState SysFd.

(** ** Leaving *)

(** [cleanup_pid_vmas]. *)
Definition cleanup_pid_vmas (pid : Z) (v : Vmas) : Vmas :=
  mkVmas (not_of pid (VMA_TABLE v)) (not_of pid (FILE_VMA_TABLE v)) (MMAP_NEXT_ADDR v).

Section calls.
Context {N : Type} {SL : SocketLayer N}.
Context (vm_exit : cow_release) (vm_copy : vm_fork).
Context (yield_cpu wait_irq : Sys N → Sys N) (rand : nat → Z).
Implicit Types s : Sys N.

(** What both exits forget besides the scheduler's tables. *)
Definition forget_pid (pid : Z) s : Sys N :=
  let s := upd_fds (cleanup_pid_fds pid) s in
  let s := set_vmas (cleanup_pid_vmas pid (vmas s)) s in
  let s := upd_iso (λ i, set_tracing (cleanup_tracee pid (tracing i)) i) s in
  let s := upd_iso (λ i, set_ns (cleanup_ns pid (ns i)) i) s in
  upd_iso (λ i, set_contexts (cleanup_task_context pid (SECURITY_CONTEXTS i)) i) s.

(** [sys_exit] up to the final [hlt] loop. *)
Definition sys_exit (code : Z) s : Sys N :=
  let pid := default 0 (current_pid (RUNQUEUE (kern s))) in
  let s := upd_iso (λ i, set_detectors (anomaly_remove pid (DETECTORS i)) i) (forget_pid pid s) in
  upd_kern (exit_current vm_exit code) s.

(** [scheduler::exit_current_direct]: the detector keeps its entry. *)
Definition exit_direct (pid code : Z) s : Sys N :=
  upd_kern (exit_current_direct vm_exit pid code) (forget_pid pid s).

(** ** Creating, waiting, signalling *)

Definition sys_getpid s : Z := as_i64 (cur s).
Definition sys_getppid s : Z := as_i64 (get_parent_pid (cur s) (kern s)).
Definition sys_getuid s : Z := (get_credentials (cur s) (kern s)).1.1.1.
Definition sys_getgid s : Z := (get_credentials (cur s) (kern s)).1.1.2.

Definition sys_fork s : res (Z * Sys N) :=
  let parent := cur s in
  let! (o, k) := fork_task vm_copy parent (kern s) in
  let s := set_kern k s in
  match o with
  | Some child =>
      Ret (as_i64 child,
           upd_iso (λ i, set_contexts (init_task_context child (Some parent) (SECURITY_CONTEXTS i)) i) s)
  | None => Ret (EINVAL, s)
  end.

Definition CLONE_VM : Z := 0x100.
Definition CLONE_SETTLS : Z := 0x80000.

Definition sys_clone (flags stack_ptr tls : Z) s : res (Z * Sys N) :=
  if decide (Z.land flags CLONE_VM = 0) then sys_fork s else
  let! (o, k) := spawn_user_thread (cur s) stack_ptr tls (bool_decide (Z.land flags CLONE_SETTLS ≠ 0)) (kern s) in
  Ret (match o with Some tid => as_i64 tid | None => EINVAL end, set_kern k s).

(** The status word of a reaped child. *)
Definition report_child (wstatus_ptr child code : Z) s : Z * Sys N :=
  (as_i64 child,
   if bool_decide (wstatus_ptr ≠ 0) && validate_user_ptr wstatus_ptr 4
   then uwrite_le wstatus_ptr 4 (Z.shiftl (Z.land code 255) 8) s else s).

Definition ECHILD : Z := -10.
Definition WNOHANG : Z := 1.

Definition reap s : option (Z * Z) * Sys N :=
  let (o, k) := reap_zombie_child (cur s) (kern s) in (o, set_kern k s).

(** The pid argument is ignored. The second look is made for the caller, whatever
    ran in between. *)
Definition sys_wait4 (wstatus_ptr options : Z) s : Z * Sys N :=
  let parent := cur s in
  match reap s with
  | (Some (child, code), s) => report_child wstatus_ptr child code s
  | (None, s) =>
      if decide (Z.land options WNOHANG ≠ 0) then (0, s) else
      let s := yield_cpu (upd_kern sleep_current s) in
      let (o, k) := reap_zombie_child parent (kern s) in
      let s := set_kern k s in
      match o with
      | Some (child, code) => report_child wstatus_ptr child code s
      | None => (ECHILD, s)
      end
  end.

Definition sys_kill (pid sig : Z) s : Z * Sys N :=
  if decide (sig ≤ 0 ∨ 64 < sig) then (EINVAL, s)
  else if decide (0 < pid) then (0, upd_kern (send_signal pid sig) s)
  else if decide (pid = 0) then (0, upd_kern (send_signal (cur s) sig) s)
  else (EINVAL, s).

(** ** Handlers and masks *)

Definition sys_rt_sigaction (signum act_ptr oldact_ptr : Z) s : res (Z * Sys N) :=
  let pid := cur s in
  let! s :=
    if bool_decide (oldact_ptr ≠ 0) && validate_user_ptr oldact_ptr 32 then
      let s := uwrite oldact_ptr (replicate 32 0) s in
      if decide (signum < 64) then
        let! handler := get_signal_handler pid (Z.to_nat signum) (kern s) in
        Ret (uwrite_le oldact_ptr 8 handler s)
      else Ret s
    else Ret s in
  Ret (0, if bool_decide (act_ptr ≠ 0 ∧ signum < 64) && validate_user_ptr act_ptr 8
          then upd_kern (set_signal_handler pid (Z.to_nat signum) (uread_le act_ptr 8 s)) s else s).

Definition sys_rt_sigprocmask (how set oldset : Z) s : Z * Sys N :=
  let pid := cur s in
  let s := if bool_decide (oldset ≠ 0) && validate_user_ptr oldset 8
           then uwrite_le oldset 8 (get_signal_mask pid (kern s)) s else s in
  (0, if bool_decide (set ≠ 0 ∧ how ≤ 2) && validate_user_ptr set 8 then
        let new_bits := uread_le set 8 s in
        upd_kern (if decide (how = 0) then mask_signals pid new_bits
                  else if decide (how = 1) then unmask_signals pid new_bits
                  else set_signal_mask pid new_bits) s
      else s).

Definition SS_DISABLE : Z := 4.
Definition sys_sigaltstack (old_ss_ptr : Z) s : Z * Sys N :=
  (0, if bool_decide (old_ss_ptr ≠ 0) && validate_user_ptr old_ss_ptr 24
      then uwrite_le (old_ss_ptr + 8) 4 SS_DISABLE (uwrite old_ss_ptr (replicate 24 0) s) else s).

Definition sys_set_robust_list (head len : Z) s : Z * Sys N :=
  if decide (len = 24) then (0, upd_kern (set_robust_list (cur s) head len) s) else (EINVAL, s).

(** ** Delivery on the way back to user mode *)

Definition VDSO_ADDR : Z := 0x7FFFFFE00000.
Definition SIGFRAME_SLOTS : nat := 6.

Inductive Delivery := NoDelivery | Died | Delivered (signum : Z).

(** The exit code of a default action; [None]: the signal is dropped. *)
Definition default_exit (signum : Z) : option Z :=
  if decide (signum = 9) then Some 137
  else if decide (signum = 15) then Some 143
  else if decide (signum = 11) then Some 139
  else if decide (signum = 8) then Some 136
  else if decide (signum = 6) then Some 134
  else None.

Definition sigframe_base (user_rsp : Z) : Z :=
  sub64 (Z.land (sub64 user_rsp (Z.of_nat SIGFRAME_SLOTS * 8)) (not64 15)) 8.

Definition set_override (rip rsp rflags signum : Z) s : Sys N :=
  set_percpu (mkPercpu (pc_user_rsp (percpu s)) rip rsp rflags signum) s.

Definition maybe_deliver_signal (user_rip user_rflags user_rsp saved_rax : Z) s : Delivery * Sys N :=
  let pid := cur s in
  let (o, k) := take_pending_signal pid (kern s) in
  let s := set_kern k s in
  match o with
  | None => (NoDelivery, s)
  | Some (signum, handler) =>
      if decide (handler = 0) then
        match default_exit signum with
        | Some code => (Died, exit_direct pid code s)
        | None => (NoDelivery, s)
        end
      else
        let new_rsp := sigframe_base user_rsp in
        let s := uwrite new_rsp (to_le 8 VDSO_ADDR ++ to_le 8 signum ++ to_le 8 saved_rax
                                   ++ to_le 8 user_rip ++ to_le 8 user_rflags ++ to_le 8 user_rsp) s in
        (Delivered signum, set_override handler new_rsp 0x202 signum s)
  end.

Definition sys_rt_sigreturn s : Z * Sys N :=
  let frame_base := sub64 (pc_user_rsp (percpu s)) 8 in
  let slot i := uread_le (add64 frame_base (8 * i)) 8 s in
  (as_i64 (slot 2), set_override (slot 3) (slot 5) (slot 4) (signal_signum (percpu s)) s).

(** The registers with which [sysretq] resumes the process. *)
Record UserRegs := mkRegs { u_rip : Z; u_rsp : Z; u_rflags : Z; u_rax : Z; u_rdi : Z }.

(** The end of [_syscall_entry]. RCX, R11 and RDI are caller-saved: after the call
    they hold what [maybe_deliver_signal] left in them, an argument here; the user's
    RIP and RFLAGS are not reloaded. *)
Definition syscall_return (clob_rcx clob_r11 clob_rdi : Z) (result user_rip user_rflags : Z) s
    : option UserRegs * Sys N :=
  match maybe_deliver_signal user_rip user_rflags (pc_user_rsp (percpu s)) (u64 result) s with
  | (Died, s) => (None, s)
  | (d, s) =>
      let rdi := match d with Delivered signum => if decide (signum = 0) then clob_rdi else signum | _ => clob_rdi end in
      let p := percpu s in
      if decide (signal_new_rip p = 0) then
        (Some (mkRegs clob_rcx (pc_user_rsp p) clob_r11 (u64 result) rdi), s)
      else
        (Some (mkRegs (signal_new_rip p) (signal_new_rsp p) (signal_new_rflags p) (u64 result) rdi),
         set_percpu (mkPercpu (signal_new_rsp p) 0 (signal_new_rsp p) (signal_new_rflags p) (signal_signum p)) s)
  end.

(** ** Futexes *)

Definition FUTEX_WAIT : Z := 0.
Definition FUTEX_WAKE : Z := 1.
Definition FUTEX_REQUEUE : Z := 3.
Definition FUTEX_CMP_REQUEUE : Z := 4.
Definition SPIN_THRESHOLD_MS : Z := 4.
Definition SPIN_MAX_ITERS : nat := 8.

Definition upd_waiters (f : gmap Z (list Z) → gmap Z (list Z)) s : Sys N :=
  set_futexes (mkFutexes (f (FUTEX_WAITERS (futexes s))) (FUTEX_STATS (futexes s))) s.
Definition upd_stats (f : gmap Z FutexStats → gmap Z FutexStats) s : Sys N :=
  set_futexes (mkFutexes (FUTEX_WAITERS (futexes s)) (f (FUTEX_STATS (futexes s)))) s.

(** The bounded spin: [true] when the word changed. *)
Fixpoint futex_spin (iters : nat) (uaddr val : Z) s : bool * Sys N :=
  match iters with
  | O => (false, s)
  | S i =>
      let s := wait_irq s in
      if decide (uread_le uaddr 4 s ≠ val) then (true, s) else futex_spin i uaddr val s
  end.

Definition futex_park (uaddr : Z) s : Z * Sys N :=
  let pid := cur s in
  let s := upd_waiters (λ m, <[uaddr := default [] (m !! uaddr) ++ [pid]]> m) s in
  (0, yield_cpu (upd_kern sleep_current s)).

Definition futex_wait (uaddr val : Z) s : Z * Sys N :=
  if decide (uaddr = 0) then (EFAULT, s)
  else if decide (uread_le uaddr 4 s ≠ val) then (EAGAIN, s) else
  let predicted_hold := default U64_MAX (avg_hold_ms <$> FUTEX_STATS (futexes s) !! uaddr) in
  if decide (predicted_hold < SPIN_THRESHOLD_MS) then
    let s := upd_stats (λ m,
               let st := default (mkStats (Z.min predicted_hold (SPIN_THRESHOLD_MS - 1)) 0 0) (m !! uaddr) in
               <[uaddr := mkStats (avg_hold_ms st) (uptime_ms (kern s)) (n_wakes st)]> m) s in
    match futex_spin SPIN_MAX_ITERS uaddr val s with
    | (true, s) => (0, s)
    | (false, s) => futex_park uaddr s
    end
  else futex_park uaddr s.

(** The drained waiters, oldest first; an empty list leaves the table. *)
Definition futex_drain (uaddr n : Z) s : list Z * Sys N :=
  match FUTEX_WAITERS (futexes s) !! uaddr with
  | None => ([], s)
  | Some l =>
      let k := Z.to_nat (Z.min n (Z.of_nat (length l))) in
      (take k l, upd_waiters (λ m, if decide (drop k l = []) then delete uaddr m else <[uaddr := drop k l]> m) s)
  end.

Definition wake_all (pids : list Z) s : Sys N := upd_kern (λ k, foldl (λ k p, wake_pid p k) k pids) s.

Definition note_hold (uaddr : Z) s : Sys N :=
  upd_stats (alter (λ st,
    if decide (0 < wait_start_ms st) then
      let hold := sat_sub (uptime_ms (kern s)) (wait_start_ms st) in
      mkStats (add64 (Z.min (avg_hold_ms st * 7) U64_MAX) hold / 8) 0 (add64 (n_wakes st) 1)
    else st) uaddr) s.

Definition futex_wake (uaddr n : Z) s : Z * Sys N :=
  let (pids, s) := futex_drain uaddr n s in
  (Z.of_nat (length pids), wake_all pids (note_hold uaddr s)).

(** Waiters are woken but none is moved. *)
Definition futex_requeue (uaddr n : Z) s : Z * Sys N :=
  let (pids, s) := futex_drain uaddr n s in (Z.of_nat (length pids), wake_all pids s).

Definition sys_futex (uaddr op val : Z) s : Z * Sys N :=
  let op_code := Z.land op (Z.lnot 128) in
  if decide (op_code = FUTEX_WAIT) then futex_wait uaddr val s
  else if decide (op_code = FUTEX_WAKE) then futex_wake uaddr val s
  else if decide (op_code = FUTEX_CMP_REQUEUE ∨ op_code = FUTEX_REQUEUE) then futex_requeue uaddr val s
  else (ENOSYS, s).

(** ** Seccomp *)

Definition SECCOMP_AI_LOCK : Z := 100.
Definition STRICT_NRS : gset Z := {[ 0; 1; 60; 231 ]}.

Definition seccomp_observe (pid nr : Z) (t : gmap Z SeccompPolicy) : gmap Z SeccompPolicy :=
  alter (λ p, if sp_locked p then p else mkPolicy ({[ nr ]} ∪ sp_allowed p) false) pid t.
Definition seccomp_check (pid nr : Z) (t : gmap Z SeccompPolicy) : bool :=
  match t !! pid with
  | Some p => if sp_locked p then bool_decide (nr ∈ sp_allowed p) else true
  | None => true
  end.
Definition seccomp_cleanup (pid : Z) (t : gmap Z SeccompPolicy) : gmap Z SeccompPolicy := delete pid t.

Definition sys_seccomp (op : Z) s : Z * Sys N :=
  let pid := cur s in
  let t := SECCOMP_TABLE (iso s) in
  if decide (op = 0) then (0, upd_iso (set_seccomp (<[pid := mkPolicy STRICT_NRS true]> t)) s)
  else if decide (op = SECCOMP_AI_LOCK) then
    (0, upd_iso (set_seccomp (<[pid := mkPolicy (default ∅ (sp_allowed <$> t !! pid)) true]> t)) s)
  else (EINVAL, s).

(** ** The gate of [syscall_dispatch_extern] *)

Definition CONFINEMENT_THRESHOLD : f32 := f32_lit 75 100.
Definition CONFINEMENT_RELEASE : f32 := f32_lit 25 100.
Definition CONFINEMENT_BLOCKED : list Z := [57; 56; 56; 435; 59; 101].

Definition is_write_syscall (nr : Z) : bool :=
  bool_decide (nr ∈ [1; 17; 20; 44; 46; 83; 85; 86; 87; 88; 90; 92] ∨ 257 ≤ nr ≤ 264).
Definition is_confined (pid : Z) s : bool := bool_decide (pid ∈ CONFINED_PIDS (iso s)).

(** What the float models report for this call: the threshold of the detector, the
    coherence of the process, the policy hook, its recent calls. [root] is the
    inode of the root directory. *)
Record GateInputs := mkGateIn {
  gi_thr : f32; gi_coherence : f32; gi_hook : Z → Z → bool; gi_history : list Z; gi_root : Z
}.

(** The detector, and the capabilities it revokes. *)
Definition gate_observe (g : GateInputs) (pid nr : Z) s : f32 * Sys N :=
  let '((_, score, escalate), d) := observe (gi_thr g) pid nr (DETECTORS (iso s)) in
  let s := upd_iso (set_detectors d) s in
  (score,
   if escalate then
     let (revoked, m) := escalate_confinement pid (SECURITY_CONTEXTS (iso s)) in
     let s := upd_iso (set_contexts m) s in
     match revoked with Some c => upd_fds (invalidate_handles pid c) s | None => s end
   else s).

(** The isolation level, from the score scaled by [1.5 - coherence]. *)
Definition gate_namespace (g : GateInputs) (pid : Z) (score : f32) s : Sys N :=
  let final_score := fclamp f0 f1 (fmul score (fsub (f32_lit 15 10) (gi_coherence g))) in
  let (n, f) := update (creds s) (gi_root g) pid final_score (DETECTORS (iso s)) (ns (iso s)) (vfs s) in
  set_vfs f (upd_iso (set_ns n) s).

Definition gate_confinement (pid : Z) (score : f32) (c : gset Z) : gset Z :=
  if fle CONFINEMENT_THRESHOLD score && negb (bool_decide (pid ∈ c)) then {[ pid ]} ∪ c
  else if flt score CONFINEMENT_RELEASE && bool_decide (pid ∈ c) then c ∖ {[ pid ]}
  else c.

(** [true]: the call is dispatched; [false]: it returns EPERM. *)
Definition syscall_gate (g : GateInputs) (nr : Z) s : bool * Sys N :=
  let pid := cur s in
  let (score, s) := gate_observe g pid nr s in
  let s := gate_namespace g pid score s in
  if negb (allow_syscall (gi_hook g) pid nr (is_write_syscall nr) (ns (iso s))) then (false, s) else
  if bool_decide (nr = 41) && negb (has_capability pid cap.NET_RAW (SECURITY_CONTEXTS (iso s))) then (false, s) else
  if bool_decide (nr = 165 ∨ nr = 166 ∨ nr = 272 ∨ nr = 161)
     && negb (has_capability pid cap.SYS_ADMIN (SECURITY_CONTEXTS (iso s))) then (false, s) else
  let s := upd_iso (λ i, set_confined (gate_confinement pid score (CONFINED_PIDS i)) i) s in
  if is_confined pid s && bool_decide (nr ∈ CONFINEMENT_BLOCKED) then (false, s) else
  let (t, k) := check_trace_point (gi_history g) pid nr (tracing (iso s)) (kern s) in
  let s := set_kern k (upd_iso (set_tracing t) s) in
  let s := upd_iso (λ i, set_seccomp (seccomp_observe pid nr (SECCOMP_TABLE i)) i) s in
  if bool_decide (nr ≠ 317) && negb (seccomp_check pid nr (SECCOMP_TABLE (iso s))) then (false, s)
  else (true, s).

(** ** Time, names, limits *)

Fixpoint sleep_until (fuel : nat) (deadline : Z) s : res (Z * Sys N) :=
  if decide (uptime_ms (kern s) < deadline) then
    match fuel with
    | O => OutOfFuel
    | S fuel' => sleep_until fuel' deadline (yield_cpu s)
    end
  else Ret (0, s).
Definition sys_nanosleep (fuel : nat) (req_ptr : Z) s : res (Z * Sys N) :=
  if decide (req_ptr = 0) then Ret (EFAULT, s) else
  let ms := add64 (mul64 (uread_le req_ptr 8 s) 1000) (uread_le (add64 req_ptr 8) 8 s / 1000000) in
  if decide (ms = 0) then Ret (0, s) else sleep_until fuel (add64 (uptime_ms (kern s)) ms) s.

Definition sys_clock_gettime (tp_ptr : Z) s : Z * Sys N :=
  if decide (tp_ptr = 0) then (EFAULT, s) else
  let ms := uptime_ms (kern s) in
  (0, uwrite_le (add64 tp_ptr 8) 8 (ms mod 1000 * 1000000) (uwrite_le tp_ptr 8 (ms / 1000) s)).
Definition sys_gettimeofday (tv_ptr : Z) s : Z * Sys N :=
  if decide (tv_ptr = 0) then (0, s) else
  let ms := uptime_ms (kern s) in
  (0, uwrite_le (add64 tv_ptr 8) 8 (ms mod 1000 * 1000) (uwrite_le tv_ptr 8 (ms / 1000) s)).

Definition uname_fields : list string :=
  ["NodeAI"; "nodeai"; "1.0.0-nodeai"; "NodeAI Kernel 1.0.0"; "x86_64"; "nodeai.local"]%string.
Definition sys_uname (buf_ptr : Z) s : Z * Sys N :=
  if negb (validate_user_ptr buf_ptr 390) then (EFAULT, s)
  else (0, uwrite buf_ptr (mjoin ((λ f, resize 65 0 (take 64 (str_bytes f))) <$> uname_fields)) s).

Definition sys_getrandom (buf_ptr len : Z) s : Z * Sys N :=
  let safe_len := Z.min len 4096 in
  if negb (validate_user_ptr buf_ptr safe_len) then (EFAULT, s)
  else (safe_len, uwrite buf_ptr (rand <$> seq 0 (Z.to_nat safe_len)) s).

Definition PR_GET_NAME : Z := 16.
Definition sys_prctl (op arg2 : Z) s : Z * Sys N :=
  (0, if decide (op = PR_GET_NAME ∧ arg2 ≠ 0) then uwrite arg2 (str_bytes "nodeai-proc" ++ [0]) s else s).

Definition sys_getrlimit (resource rlim_ptr : Z) s : Z * Sys N :=
  if decide (rlim_ptr = 0) then (0, s) else
  let rl := get_limit (cur s) (Z.to_nat resource) (RLIMITS (kern s)) in
  (0, uwrite_le (add64 rlim_ptr 8) 8 (Rlimit.max rl) (uwrite_le rlim_ptr 8 (Rlimit.cur rl) s)).
Definition sys_setrlimit (resource rlim_ptr : Z) s : Z * Sys N :=
  if decide (rlim_ptr = 0) then (0, s) else
  let (r, t) := set_limit (cur s) (Z.to_nat resource) (uread_le rlim_ptr 8 s)
                  (uread_le (add64 rlim_ptr 8) 8 s) (RLIMITS (kern s)) in
  (r, upd_kern (set_rlimits t) s).
End calls.
