(* ===== verification/SysProcProps.v ===== *)
(** Theorems about signals, futexes, seccomp and the gate of the system calls. *)
From Stdlib Require Import SpecFloat.
From stdpp Require Import base numbers list gmap sets strings.
From S2P Require Import Prelude Bytes Pmm RunQueue Task Rlimit Scheduler SchedulerFacts SchedulerProps Users.
From S2P Require Import Ramfs Vfs VfsProps Tcp F32 Anomaly Security Namespaces SemGate Ptrace SysState SysFd.
From S2P Require Import SysFdFacts SysFdProps SysProc.

Section props.
Context {N : Type} {SL : SocketLayer N}.
Implicit Types s : Sys N.

(** ** Signals *)

Section signals.
Context (vm_exit : cow_release).


(** The frame lies below the stack pointer, its base eight below a multiple of 16. *)
Lemma sigframe_place rsp :
  72 ≤ rsp < u64_modulus →
  0 < sigframe_base rsp ∧ sigframe_base rsp + 56 ≤ rsp ∧ (sigframe_base rsp + 8) mod 16 = 0.
Proof.
  intros H. unfold sigframe_base. change (Z.of_nat SIGFRAME_SLOTS * 8) with 48. unfold sub64.
  rewrite (u64_small (rsp - 48)) by (unfold is_u64, u64_modulus in *; lia). change 15 with (Z.ones 4).
  rewrite land_not_ones by (try unfold is_u64, u64_modulus in *; lia). change (2 ^ 4) with 16.
  pose proof (Z.div_mod (rsp - 48) 16 ltac:(lia)). pose proof (Z.mod_pos_bound (rsp - 48) 16 ltac:(lia)).
  rewrite u64_small by (unfold is_u64, u64_modulus in *; lia).
  split_and!; [lia|lia|]. replace (_ - 8 + 8) with ((rsp - 48) / 16 * 16) by lia. by apply Z.mod_mul.
Qed.

Definition sigframe (signum rax rip rflags rsp : Z) : list Z := [VDSO_ADDR; signum; rax; rip; rflags; rsp].

(** A signal with a handler: the state after delivery. *)
Lemma deliver_handler rip rflags rsp rax s signum handler k :
  take_pending_signal (cur s) (kern s) = (Some (signum, handler), k) → handler ≠ 0 →
  maybe_deliver_signal vm_exit rip rflags rsp rax s =
    (Delivered signum,
     set_override handler (sigframe_base rsp) 0x202 signum
       (uwrite (sigframe_base rsp) (words_le (sigframe signum rax rip rflags rsp)) (set_kern k s))).
Proof.
  intros Ht Hh. unfold maybe_deliver_signal. rewrite Ht. rewrite decide_False by done.
  unfold words_le, sigframe. cbn [foldr]. by rewrite app_nil_r.
Qed.

Definition user_word (a : Z) s : Z := uread_le a 8 s.

(** What the handler finds on its stack. *)
Lemma sigframe_slot base signum rax rip rflags rsp (i : nat) w s :
  0 ≤ base → base + 48 ≤ u64_modulus → sigframe signum rax rip rflags rsp !! i = Some w → is_u64 w →
  user_word (base + 8 * Z.of_nat i) (uwrite base (words_le (sigframe signum rax rip rflags rsp)) s) = w.
Proof.
  intros Hb Hl Hi Hw. unfold user_word. apply uread_word; [exact Hb| |exact Hi|exact Hw].
  change (length (sigframe signum rax rip rflags rsp)) with 6%nat. lia.
Qed.

Lemma user_word_percpu a v s : user_word a (set_percpu v s) = user_word a s.
Proof. reflexivity. Qed.
#[local] Opaque words_le.


(** With no signal to deliver, the process does not resume where it made the
    call: RIP and RFLAGS are whatever the called function left in RCX and R11. *)
Theorem return_address_lost c1 c2 c3 result rip rflags s :
  (take_pending_signal (cur s) (kern s)).1 = None → signal_new_rip (percpu s) = 0 →
  ∃ s', syscall_return vm_exit c1 c2 c3 result rip rflags s =
    (Some (mkRegs c1 (pc_user_rsp (percpu s)) c2 (u64 result) c3), s').
Proof.
  intros Hno Hov. unfold syscall_return, maybe_deliver_signal.
  destruct (take_pending_signal (cur s) (kern s)) as [o k]. cbn in Hno. subst o.
  cbn [percpu set_kern]. rewrite decide_True by done. by eexists.
Qed.

(** A signal that is pending at [rt_sigreturn] costs the program its interrupted
    context: what the new frame saves is the trampoline's own instruction and stack
    pointers, so the next [rt_sigreturn] resumes the trampoline. *)
Theorem sigreturn_context_lost c1 c2 c3 rip rflags s signum handler k :
  let rsp := pc_user_rsp (percpu s) in
  let r := sys_rt_sigreturn s in
  take_pending_signal (cur s) (kern s) = (Some (signum, handler), k) →
  handler ≠ 0 → is_u64 rip → 72 ≤ rsp < u64_modulus →
  ∃ regs s', syscall_return vm_exit c1 c2 c3 r.1 rip rflags r.2 = (Some regs, s') ∧
    u_rip regs = handler ∧ user_word (u_rsp regs + 8 * 3) s' = rip ∧ user_word (u_rsp regs + 8 * 5) s' = rsp.
Proof.
  intros rsp r Ht Hh Hr64 Hrsp. destruct (sigframe_place rsp Hrsp) as (Hb0 & Hb1 & _).
  set (base := sigframe_base rsp) in *. unfold syscall_return.
  assert (Hp : pc_user_rsp (percpu r.2) = rsp) by done. assert (Hk : kern r.2 = kern s) by done.
  assert (Hc : cur r.2 = cur s) by done. clearbody r. rewrite Hp, (deliver_handler _ _ _ _ _ signum handler k)
    by (rewrite ?Hk, ?Hc; done). fold base. unfold set_override.
  cbn [percpu set_percpu signal_new_rip signal_new_rsp signal_new_rflags signal_signum]. rewrite decide_False by done.
  eexists _, _. split; [reflexivity|]. cbn [u_rip u_rsp]. split; [done|].
  set (s1 := set_percpu _ _).
  assert (Hslot : ∀ (i : nat) w, sigframe signum (u64 r.1) rip rflags rsp !! i = Some w → is_u64 w →
            user_word (base + 8 * Z.of_nat i) s1 = w).
  { intros i w Hi Hw. unfold s1. rewrite !user_word_percpu. apply sigframe_slot; [lia|lia|exact Hi|exact Hw]. }
  split; [by apply (Hslot 3%nat)|]. apply (Hslot 5%nat); [done|]. unfold is_u64. lia.
Qed.

End signals.

(** ** Futexes *)

Lemma wake_pid_state p k q :
  state <$> TASKS (wake_pid p k) !! q =
    (λ t, if decide (q = p ∧ state t = Sleeping) then Runnable else state t) <$> TASKS k !! q.
Proof.
  unfold wake_pid. destruct (TASKS k !! p) as [t|] eqn:Hp.
  - destruct (decide (state t = Sleeping)) as [Hs|Hs].
    + unfold set_rq, with_task, set_tasks. cbn [TASKS]. rewrite lookup_alter_at.
      destruct (decide (p = q)) as [->|Hne].
      * rewrite Hp. cbn. by rewrite decide_True.
      * destruct (TASKS k !! q) as [t'|]; [|done]. cbn. rewrite decide_False; [done|]. by intros [-> _].
    + destruct (TASKS k !! q) as [t'|] eqn:Hq; [|done]. cbn. rewrite decide_False; [done|].
      intros [-> H]. by simplify_eq.
  - destruct (TASKS k !! q) as [t'|] eqn:Hq; [|done]. cbn. rewrite decide_False; [done|]. intros [-> H]. by simplify_eq.
Qed.

Lemma wake_pids_state pids k q :
  state <$> TASKS (foldl (λ k p, wake_pid p k) k pids) !! q =
    (λ t, if decide (q ∈ pids ∧ state t = Sleeping) then Runnable else state t) <$> TASKS k !! q.
Proof.
  revert k. induction pids as [|p pids IH]; intros k; cbn [foldl].
  - destruct (TASKS k !! q); [|done]. cbn. rewrite decide_False; [done|]. intros [H _]. by apply elem_of_nil in H.
  - rewrite IH. pose proof (wake_pid_state p k q) as H.
    destruct (TASKS (wake_pid p k) !! q) as [t1|], (TASKS k !! q) as [t|]; try done. cbn in *. injection H as ->.
    f_equal. destruct (decide (q = p ∧ state t = Sleeping)) as [[-> Hs]|Hn].
    + rewrite (decide_False (P := _ ∧ Runnable = Sleeping)) by naive_solver. rewrite decide_True; [done|].
      split; [left|done].
    + destruct (decide (q ∈ pids ∧ state t = Sleeping)) as [[H1 H2]|H1].
      * rewrite decide_True; [done|]. split; [by right|done].
      * rewrite decide_False; [done|]. rewrite elem_of_cons. naive_solver.
Qed.

(** [FUTEX_WAKE] takes the oldest waiters of the address, at most as many as asked
    for, and reports how many; each of them that sleeps becomes runnable, no other
    task changes state, and the others keep waiting in order. *)
Theorem futex_wake_correct uaddr n s :
  0 ≤ n →
  let l := default [] (FUTEX_WAITERS (futexes s) !! uaddr) in
  let woken := take (Z.to_nat n) l in
  let r := futex_wake uaddr n s in
  r.1 = Z.of_nat (length woken) ∧
  default [] (FUTEX_WAITERS (futexes r.2) !! uaddr) = drop (Z.to_nat n) l ∧
  (∀ a, a ≠ uaddr → FUTEX_WAITERS (futexes r.2) !! a = FUTEX_WAITERS (futexes s) !! a) ∧
  ∀ q, state <$> TASKS (kern r.2) !! q =
    (λ t, if decide (q ∈ woken ∧ state t = Sleeping) then Runnable else state t) <$> TASKS (kern s) !! q.
Proof.
  intros Hn l woken r. unfold r, futex_wake, futex_drain, woken, l.
  destruct (FUTEX_WAITERS (futexes s) !! uaddr) as [w|] eqn:Hw.
  - change (default [] (Some w)) with w. set (k := Z.to_nat (n `min` Z.of_nat (length w))).
    assert (Ht : take k w = take (Z.to_nat n) w).
    { unfold k. destruct (decide (n ≤ Z.of_nat (length w))) as [Hle|Hle]; [by rewrite Z.min_l|].
      rewrite Z.min_r, Nat2Z.id by lia. by rewrite !take_ge by lia. }
    assert (Hd : drop k w = drop (Z.to_nat n) w).
    { unfold k. destruct (decide (n ≤ Z.of_nat (length w))) as [Hle|Hle]; [by rewrite Z.min_l|].
      rewrite Z.min_r, Nat2Z.id by lia. by rewrite !drop_ge by lia. }
    rewrite Ht, Hd. unfold wake_all, note_hold, upd_stats, upd_waiters, upd_kern, set_kern, set_futexes.
    cbn [fst snd futexes FUTEX_WAITERS kern]. split_and!; [done|..].
    + case_decide as E; [by rewrite lookup_delete_eq, E|by rewrite lookup_insert_eq].
    + intros a Ha. case_decide; [by rewrite lookup_delete_ne|by rewrite lookup_insert_ne].
    + apply wake_pids_state.
  - change (default [] None) with (@nil Z). rewrite take_nil, drop_nil. unfold wake_all, note_hold, upd_stats, upd_kern, set_kern, set_futexes.
    cbn [fst snd futexes FUTEX_WAITERS kern foldl]. rewrite Hw. split_and!; try done.
Qed.

(** The adaptive spin never runs: if no statistics exist, as at boot, no futex call
    creates any, every wait goes to sleep at once, and what an interrupt would do
    during the spin is irrelevant. *)
Theorem futex_never_spins yield w w' uaddr op val s :
  (∀ s, FUTEX_STATS (futexes s) = ∅ → FUTEX_STATS (futexes (yield s)) = ∅) →
  FUTEX_STATS (futexes s) = ∅ →
  FUTEX_STATS (futexes (sys_futex yield w uaddr op val s).2) = ∅ ∧
  sys_futex yield w uaddr op val s = sys_futex yield w' uaddr op val s.
Proof.
  intros Hy He. unfold sys_futex. set (c := Z.land op (Z.lnot 128)).
  assert (Hdr : ∀ m, FUTEX_STATS (futexes (futex_drain uaddr m s).2) = ∅).
  { intros m. unfold futex_drain. by case_match. }
  destruct (decide (c = FUTEX_WAIT)).
  - unfold futex_wait. rewrite He, lookup_empty. cbn [fmap option_fmap option_map default].
    repeat case_decide; try done. split; [|done]. unfold futex_park. cbn [snd]. by apply Hy.
  - split; [|done]. destruct (decide (c = FUTEX_WAKE)).
    + unfold futex_wake. specialize (Hdr val). destruct (futex_drain uaddr val s) as [pids s1]. cbn in *.
      unfold note_hold, upd_stats, set_futexes. cbn. rewrite Hdr. apply alter_empty.
    + destruct (decide _); [|done]. unfold futex_requeue. specialize (Hdr val).
      destruct (futex_drain uaddr val s) as [pids s1]. done.
Qed.

(** ** Seccomp and the gate *)

(** The policies that can exist. *)
Definition locked_policy (p : SeccompPolicy) : Prop :=
  sp_locked p = true ∧ (sp_allowed p = ∅ ∨ sp_allowed p = STRICT_NRS).
Definition policies_locked (t : gmap Z SeccompPolicy) : Prop := ∀ pid p, t !! pid = Some p → locked_policy p.

Lemma observe_locked pid nr t : policies_locked t → policies_locked (seccomp_observe pid nr t).
Proof.
  intros Ht q p. unfold seccomp_observe. rewrite lookup_alter_at. case_decide as E; [|apply Ht]. subst q.
  destruct (t !! pid) as [p0|] eqn:Hp; [|done]. cbn. destruct (Ht _ _ Hp) as [Hl Ha]. rewrite Hl. by intros [= <-].
Qed.

Lemma gate_observe_seccomp g pid nr s :
  SECCOMP_TABLE (iso (gate_observe g pid nr s).2) = SECCOMP_TABLE (iso s).
Proof.
  unfold gate_observe. destruct (observe _ _ _ _) as [[[a sc] esc] d]. destruct esc; [|done].
  destruct (escalate_confinement _ _) as [[c|] m]; done.
Qed.
Lemma gate_namespace_seccomp g pid sc s :
  SECCOMP_TABLE (iso (gate_namespace g pid sc s)) = SECCOMP_TABLE (iso s).
Proof. unfold gate_namespace. by destruct (update _ _ _ _ _ _ _). Qed.

Lemma confine_not_release x : fle CONFINEMENT_THRESHOLD x = true → flt x CONFINEMENT_RELEASE = false.
Proof.
  replace CONFINEMENT_THRESHOLD with (S754_finite false 12582912 (-24)) by (vm_compute; reflexivity).
  replace CONFINEMENT_RELEASE with (S754_finite false 8388608 (-25)) by (vm_compute; reflexivity).
  unfold fle, flt, SFleb, SFltb. destruct x as [[]|[]| |[] m e]; try done. cbn [SFcompare].
  destruct (Z.compare_spec (-24) e) as [He|He|He]; try done; intros _;
    destruct (Z.compare_spec e (-25)) as [He'|He'|He']; try done; lia.
Qed.

(** What each refusal of the gate rests on. *)
Record gate_passed (g : GateInputs) (pid nr : Z) (score : f32) s0 s' : Prop := {
  gp_ns : allow_syscall (gi_hook g) pid nr (is_write_syscall nr) (ns (iso s')) = true;
  gp_socket : nr = 41 → has_capability pid cap.NET_RAW (SECURITY_CONTEXTS (iso s')) = true;
  gp_admin : nr ∈ [165; 166; 272; 161] → has_capability pid cap.SYS_ADMIN (SECURITY_CONTEXTS (iso s')) = true;
  gp_confined : nr ∈ CONFINEMENT_BLOCKED →
    pid ∉ CONFINED_PIDS (iso s') ∧ fle CONFINEMENT_THRESHOLD score = false;
  gp_seccomp : nr ≠ 317 → ∀ p, SECCOMP_TABLE (iso s0) !! pid = Some p → sp_locked p = true → nr ∈ sp_allowed p
}.

Lemma gate_spec g nr s :
  let pid := cur s in
  let o := gate_observe g pid nr s in
  (SECCOMP_TABLE (iso (syscall_gate g nr s).2) = SECCOMP_TABLE (iso s) ∨
   SECCOMP_TABLE (iso (syscall_gate g nr s).2) = seccomp_observe pid nr (SECCOMP_TABLE (iso s))) ∧
  ((syscall_gate g nr s).1 = true → gate_passed g pid nr o.1 s (syscall_gate g nr s).2).
Proof.
  intros pid o. unfold syscall_gate. fold pid. pose proof (gate_observe_seccomp g pid nr s) as Ho. fold o in Ho |- *.
  destruct o as [score s1]. cbn [fst snd] in *.
  pose proof (gate_namespace_seccomp g pid score s1) as Hn. rewrite Ho in Hn.
  set (s2 := gate_namespace g pid score s1) in *. clearbody s2.
  destruct (allow_syscall _ _ _ _ _) eqn:E1; cbn [negb]; [|split; [by left|done]].
  destruct (bool_decide (nr = 41) && _) eqn:E2; [split; [by left|done]|].
  destruct (bool_decide (nr = 165 ∨ _) && _) eqn:E3; [split; [by left|done]|].
  set (c := gate_confinement pid score (CONFINED_PIDS (iso s2))).
  set (s3 := upd_iso _ s2). assert (Hc : CONFINED_PIDS (iso s3) = c) by done.
  destruct (is_confined pid s3 && _) eqn:E4; [split; [by left|done]|].
  destruct (check_trace_point _ _ _ _ _) as [t k]. set (s4 := upd_iso _ (set_kern _ _)).
  assert (Ht : SECCOMP_TABLE (iso s4) = seccomp_observe pid nr (SECCOMP_TABLE (iso s))) by (cbn; by rewrite Hn).
  destruct (bool_decide (nr ≠ 317) && _) eqn:E5; cbn [fst snd]; [split; [by right|done]|].
  split; [by right|]. intros _. split.
  - exact E1.
  - intros Hnr. rewrite bool_decide_eq_true_2 in E2 by done. by apply negb_false_iff in E2.
  - intros Hnr. rewrite bool_decide_eq_true_2 in E3; [by apply negb_false_iff in E3|].
    repeat (apply elem_of_cons in Hnr as [->|Hnr]; [tauto|]). by apply elem_of_nil in Hnr.
  - intros Hnr. rewrite (bool_decide_eq_true_2 (nr ∈ _)), andb_true_r in E4 by done.
    unfold is_confined in E4. apply bool_decide_eq_false in E4. rewrite Hc in E4.
    change (CONFINED_PIDS (iso s4)) with (CONFINED_PIDS (iso s3)). rewrite Hc. split; [done|].
    destruct (fle CONFINEMENT_THRESHOLD score) eqn:Ef; [|done]. exfalso. apply E4. unfold c, gate_confinement. rewrite Ef.
    cbn [andb]. destruct (bool_decide (pid ∈ CONFINED_PIDS (iso s2))) eqn:Ein; cbn [negb]; [|set_solver].
    apply bool_decide_eq_true in Ein. rewrite andb_true_r. destruct (flt score CONFINEMENT_RELEASE) eqn:Er; [|done].
    by rewrite confine_not_release in Er.
  - intros Hnr p Hp Hl. rewrite bool_decide_eq_true_2 in E5 by done. apply negb_false_iff in E5.
    unfold seccomp_check in E5. rewrite Ht in E5. unfold seccomp_observe in E5. rewrite lookup_alter_at in E5.
    rewrite decide_True, Hp in E5 by done. cbn in E5. rewrite Hl in E5. cbn in E5. rewrite Hl in E5.
    by apply bool_decide_eq_true in E5.
Qed.

(** C23. A call that the gate lets through was allowed by every layer: the isolation
    level, the capabilities of [socket] and of the administrative calls, the
    confinement of processes whose score is high (which cannot fork, exec or
    trace), and the seccomp policy, if it is locked. *)
Theorem gate_safe g nr s s' :
  syscall_gate g nr s = (true, s') → gate_passed g (cur s) nr (gate_observe g (cur s) nr s).1 s s'.
Proof. intros H. destruct (gate_spec g nr s) as [_ Hg]. rewrite H in Hg. by apply Hg. Qed.

(** What changes the policies: the gate, the call and the clean-up. *)
Inductive seccomp_step : Sys N → Sys N → Prop :=
| sc_gate g nr s : seccomp_step s (syscall_gate g nr s).2
| sc_call op s : seccomp_step s (sys_seccomp op s).2
| sc_cleanup pid s : seccomp_step s (upd_iso (λ i, set_seccomp (seccomp_cleanup pid (SECCOMP_TABLE i)) i) s)
| sc_other s s' : SECCOMP_TABLE (iso s') = SECCOMP_TABLE (iso s) → seccomp_step s s'.

Lemma seccomp_step_locked s s' :
  seccomp_step s s' → policies_locked (SECCOMP_TABLE (iso s)) → policies_locked (SECCOMP_TABLE (iso s')).
Proof.
  destruct 1 as [g nr s|op s|pid s|s s' E]; intros Hl.
  - destruct (gate_spec g nr s) as [[->| ->] _]; [done|by apply observe_locked].
  - unfold sys_seccomp. repeat case_decide; try done; intros q p; cbn; rewrite lookup_insert;
      (case_decide; [|apply Hl]); intros [= <-]; (split; [done|]); cbn [sp_allowed]; [by right|].
    destruct (SECCOMP_TABLE (iso s) !! cur s) as [p0|] eqn:Hp; cbn; [|by left]. by apply (Hl _ _ Hp).
  - intros q p. cbn. unfold seccomp_cleanup. rewrite lookup_delete. case_decide; [done|]. apply Hl.
  - by rewrite E.
Qed.

(** Seccomp never learns: a policy comes into being already locked, so in every
    state reached from boot each one allows nothing or the four calls of strict
    mode, and a process that asks for the learned allowlist may then make no call
    but [seccomp], not even [exit]. *)
Theorem seccomp_never_learns s0 s :
  SECCOMP_TABLE (iso s0) = ∅ → rtc seccomp_step s0 s →
  policies_locked (SECCOMP_TABLE (iso s)) ∧
  (SECCOMP_TABLE (iso s) !! cur s = None →
   ∀ g nr s1, (sys_seccomp SECCOMP_AI_LOCK s).2 = s1 → nr ≠ 317 → (syscall_gate g nr s1).1 = false).
Proof.
  intros H0 Hrun. split.
  - assert (Hl : policies_locked (SECCOMP_TABLE (iso s0))) by (rewrite H0; intros q p; by rewrite lookup_empty).
    clear H0. induction Hrun as [|s1 s2 s3 Hs _ IH]; [done|]. by apply IH, (seccomp_step_locked s1).
  - intros Hno g nr s1 <- Hnr. destruct (syscall_gate g nr _) as [[] s'] eqn:E; [|done]. exfalso.
    destruct (gate_spec g nr (sys_seccomp SECCOMP_AI_LOCK s).2) as [_ Hg]. rewrite E in Hg.
    destruct (Hg eq_refl) as [_ _ _ _ Hs].
    specialize (Hs Hnr (mkPolicy ∅ true)). apply (not_elem_of_empty (C := gset Z) nr). apply Hs; [|done].
    unfold sys_seccomp. rewrite decide_False, decide_True by done. cbn. rewrite Hno. apply lookup_insert_eq.
Qed.

(** [pwrite64] (18) is not in the list of writing calls: quarantine, which refuses
    every call of the list, lets it through. *)
Lemma quarantine_allows_pwrite hook pid n :
  level_of pid n = Quarantine → hook pid 18 = true →
  allow_syscall hook pid 18 (is_write_syscall 18) n = true ∧
  allow_syscall hook pid 17 (is_write_syscall 17) n = false.
Proof. intros Hl Hh. unfold allow_syscall. rewrite Hl. by rewrite Hh. Qed.

End props.

(** ** Concrete instances *)

(** Process 2 handles signal 10 at 0x5000; its stack is at 0x9000. *)
Definition demo_signalled : Sys unit :=
  set_percpu (mkPercpu 0x9000 0 0 0 0)
    (upd_kern (λ k, send_signal 2 10 (set_signal_handler 2 10 0x5000 k)) demo_sys).
Definition no_release : cow_release := λ _ b, b.
Definition demo_in_handler : Sys unit := (syscall_return no_release 0 0 0 7 0x4000 0x246 demo_signalled).2.
(** Back at the trampoline. *)
Definition demo_trampoline : Sys unit := set_percpu (mkPercpu (0x8FC8 + 8) 0 0 0 10) demo_in_handler.



Lemma return_address_lost_witness :
  ∃ s', syscall_return no_release 0xBAD 0 0 0 0x4000 0x246 demo_sys = (Some (mkRegs 0xBAD 0 0 0 0), s').
Proof. apply (return_address_lost no_release 0xBAD 0 0 0 0x4000 0x246 demo_sys); vm_compute; reflexivity. Defined.

(** A second signal is pending at the trampoline. *)
Definition demo_second : Sys unit := upd_kern (send_signal 2 10) demo_trampoline.
Lemma demo_take_second : ∃ k, take_pending_signal (cur demo_second) (kern demo_second) = (Some (10, 0x5000), k).
Proof. eexists. vm_compute. reflexivity. Qed.

Lemma sigreturn_context_lost_witness :
  ∃ regs s', syscall_return no_release 0 0 0 (sys_rt_sigreturn demo_second).1 0x7FFFFFE00009 0x202
               (sys_rt_sigreturn demo_second).2 = (Some regs, s') ∧
    u_rip regs = 0x5000 ∧ user_word (u_rsp regs + 8 * 3) s' = 0x7FFFFFE00009 ∧
    user_word (u_rsp regs + 8 * 5) s' = 0x8FD0.
Proof.
  destruct demo_take_second as [k Hk].
  exact (sigreturn_context_lost no_release 0 0 0 0x7FFFFFE00009 0x202 demo_second 10 0x5000 k Hk
           ltac:(done) ltac:(done) ltac:(done)).
Defined.

(** Processes 1 and 2 wait at 0x3000; 1 sleeps. *)
Definition demo_waiting : Sys unit :=
  set_futexes (mkFutexes {[ 0x3000 := [1; 2] ]} ∅) demo_sys.
Lemma futex_wake_correct_witness : (futex_wake 0x3000 1 demo_waiting).1 = 1.
Proof. exact (proj1 (futex_wake_correct 0x3000 1 demo_waiting ltac:(lia))). Defined.

Lemma futex_never_spins_witness :
  FUTEX_STATS (futexes (sys_futex (λ s, s) (λ s, s) 0x3000 0 0 demo_waiting).2) = ∅.
Proof. by apply (futex_never_spins (λ s, s) (λ s, s) (λ s, s) 0x3000 0 0 demo_waiting). Defined.

Definition demo_gate : GateInputs := mkGateIn (f32_lit 1 100) (f32_lit 1 2) (λ _ _, true) [] 1.
Lemma gate_safe_witness : has_capability 2 cap.NET_RAW (SECURITY_CONTEXTS (iso (syscall_gate demo_gate 41
    (upd_iso (set_contexts {[ 2 := 2 ]}) demo_sys)).2)) = true.
Proof.
  destruct (syscall_gate demo_gate 41 (upd_iso (set_contexts {[ 2 := 2 ]}) demo_sys)) as [b s'] eqn:E.
  assert (b = true) as ->.
  { change b with (b, s').1. rewrite <- E. vm_compute. reflexivity. }
  exact (gp_socket _ _ _ _ _ _ (gate_safe demo_gate 41 _ s' E) eq_refl).
Defined.

Lemma seccomp_never_learns_witness :
  (syscall_gate demo_gate 60 (sys_seccomp SECCOMP_AI_LOCK demo_sys).2).1 = false.
Proof.
  destruct (seccomp_never_learns demo_sys demo_sys eq_refl ltac:(apply rtc_refl)) as [_ H].
  by apply (H eq_refl demo_gate 60 _ eq_refl).
Defined.
