(* ===== verification/SysNet.v ===== *)
(** Sockets and readiness: the socket calls, epoll and poll of
    [kernel/src/syscall/mod.rs].

    The connection calls of [net::tcp] are the class [SocketControl]; [SocketNet]
    has the instance from the network stack. *)
From stdpp Require Import base numbers list gmap sets strings.
From S2P Require Import Prelude Bytes RunQueue Task Rlimit Scheduler Users Ramfs Vfs Tcp.
From S2P Require Import Namespaces SysState SysFd.

(** [connect] gives the local port or an error; [OutOfFuel] is a call that does not
    return. *)
Class SocketControl (N : Type) := {
  sc_connect : Z → list Z → Z → Z → N → res (option Z * N);
  sc_listen : Z → N → N;
  sc_accept : Z → N → option TcpSocketKey * N;
  sc_close : TcpSocketKey → N → res N;
  sc_our_ip : N → list Z
}.

Definition AF_INET : Z := 2.
Definition SOCK_STREAM : Z := 1.
Definition ETIMEDOUT : Z := -110.

Section calls.
Context {N : Type} {SL : SocketLayer N} {SC : SocketControl N}.
Context (yield_cpu : Sys N → Sys N).
Implicit Types s : Sys N.

(** ** Sockets *)

Definition sys_socket (domain sock_type : Z) s : Z * Sys N :=
  if decide (domain = AF_INET ∧ Z.land sock_type 15 = SOCK_STREAM)
  then let (fd, s) := new_fd SocketHandle s in (as_i64 fd, s)
  else (ENOSYS, s).

(** The address as [sys_connect] reads it: a little-endian word written out
    big-endian. *)
Definition sockaddr_ip (addr_ptr : Z) s : list Z := to_be 4 (uread_le (addr_ptr + 4) 4 s).
Definition sockaddr_port (addr_ptr : Z) s : Z := from_be (uread (addr_ptr + 2) 2 s).

Definition set_ports (k : FdKey) (port : Z) s : Sys N :=
  upd_fds (λ f, set_socket_ports (<[k := port]> (SOCKET_PORTS f)) f) s.
Definition set_peer (k : FdKey) (ip : list Z) (port : Z) s : Sys N :=
  upd_fds (λ f, set_peernames (<[k := (ip, port)]> (SOCKET_PEERNAME f)) f) s.

Definition sys_connect (sockfd addr_ptr alen : Z) s : res (Z * Sys N) :=
  if decide (addr_ptr = 0) then Ret (EFAULT, s)
  else if decide (alen < 8) then Ret (EINVAL, s)
  else if negb (validate_user_ptr addr_ptr 8) then Ret (EFAULT, s)
  else if decide (uread_le addr_ptr 2 s ≠ AF_INET) then Ret (ENOSYS, s) else
  let remote_port := sockaddr_port addr_ptr s in
  let remote_ip := sockaddr_ip addr_ptr s in
  let pid := cur s in
  if lvl_ge (level_of pid (ns (iso s))) Isolated
     && bool_decide (remote_ip ≠ [127; 0; 0; 1] ∨ remote_port ≠ 9050)
  then Ret (EPERM, s) else
  match FD_TABLE (sfds s) !! (pid, sockfd) with
  | None => Ret (EBADF, s)
  | Some _ =>
      let! (o, n) := sc_connect pid remote_ip remote_port 5000 (netst s) in
      let s := set_netst n s in
      match o with
      | Some local_port =>
          let h := ConnectedSocketHandle (mkSockKey local_port remote_ip remote_port) in
          let s := upd_fds (fd_insert (pid, sockfd) h) s in
          Ret (0, set_peer (pid, sockfd) remote_ip remote_port (set_ports (pid, sockfd) local_port s))
      | None => Ret (ETIMEDOUT, s)
      end
  end.

Definition sys_bind (sockfd addr_ptr alen : Z) s : Z * Sys N :=
  if decide (addr_ptr = 0 ∨ alen < 4) then (EFAULT, s)
  else if negb (validate_user_ptr addr_ptr 4) then (EFAULT, s) else
  match FD_TABLE (sfds s) !! (cur s, sockfd) with
  | None => (EBADF, s)
  | Some _ => (0, set_ports (cur s, sockfd) (sockaddr_port addr_ptr s) s)
  end.

Definition sys_listen (sockfd : Z) s : Z * Sys N :=
  match SOCKET_PORTS (sfds s) !! (cur s, sockfd) with
  | Some p => (0, set_netst (sc_listen p (netst s)) s)
  | None => (EINVAL, s)
  end.

Definition sys_accept (sockfd : Z) s : Z * Sys N :=
  let pid := cur s in
  match SOCKET_PORTS (sfds s) !! (pid, sockfd) with
  | None => (EINVAL, s)
  | Some port =>
      let (o, n) := sc_accept port (netst s) in
      let s := set_netst n s in
      match o with
      | None => (EAGAIN, s)
      | Some key =>
          let (fd, s) := new_fd (ConnectedSocketHandle key) s in
          (as_i64 fd, set_peer (pid, fd) (remote_ip key) (remote_port key) (set_ports (pid, fd) (local_port key) s))
      end
  end.

Definition sys_sendto (fd buf len : Z) s : res (Z * Sys N) := sys_write fd buf len s.
Definition sys_recvfrom (key_ready : option Z) (fd buf len : Z) s : res (Z * Sys N) :=
  sys_read yield_cpu key_ready fd buf len s.

Definition write_sockaddr_in (addr_ptr addrlen_ptr : Z) (ip : list Z) (port : Z) s : Z * Sys N :=
  if negb (validate_user_ptr addr_ptr 16) then (EFAULT, s) else
  let s := uwrite addr_ptr (to_le 2 2 ++ to_be 2 port ++ to_le 4 (from_be ip) ++ replicate 8 0) s in
  (0, if bool_decide (addrlen_ptr ≠ 0) && validate_user_ptr addrlen_ptr 4 then uwrite_le addrlen_ptr 4 16 s else s).

Definition sys_shutdown (sockfd how : Z) s : res (Z * Sys N) :=
  match SOCKET_PORTS (sfds s) !! (cur s, sockfd) with
  | None => Ret (EBADF, s)
  | Some local_port =>
      match (if decide (how = 1 ∨ how = 2) then SOCKET_PEERNAME (sfds s) !! (cur s, sockfd) else None) with
      | Some (rip, rport) =>
          let! n := sc_close (mkSockKey local_port rip rport) (netst s) in Ret (0, set_netst n s)
      | None => Ret (0, s)
      end
  end.

Definition sys_getsockname (fd addr_ptr addrlen_ptr : Z) s : Z * Sys N :=
  if decide (addr_ptr = 0) then (EFAULT, s) else
  match SOCKET_PORTS (sfds s) !! (cur s, fd) with
  | Some p => write_sockaddr_in addr_ptr addrlen_ptr (sc_our_ip (netst s)) p s
  | None => write_sockaddr_in addr_ptr addrlen_ptr [0; 0; 0; 0] 0 s
  end.
Definition sys_getpeername (fd addr_ptr addrlen_ptr : Z) s : Z * Sys N :=
  if decide (addr_ptr = 0) then (EFAULT, s) else
  match SOCKET_PEERNAME (sfds s) !! (cur s, fd) with
  | Some (ip, p) => write_sockaddr_in addr_ptr addrlen_ptr ip p s
  | None => write_sockaddr_in addr_ptr addrlen_ptr [0; 0; 0; 0] 0 s
  end.

(** ** Options *)

Definition SOL_SOCKET : Z := 1.
Definition SOL_TCP : Z := 6.
Definition SO_REUSEADDR : Z := 2.
Definition SO_TYPE : Z := 3.
Definition SO_ERROR : Z := 4.
Definition SO_KEEPALIVE : Z := 9.
Definition TCP_NODELAY : Z := 1.
Definition TCP_CORK : Z := 3.
Definition TCP_NODELAY_AI : Z := 200.

(** [SO_RCVBUF] and [SO_SNDBUF] are not constants of the crate: in the pattern the
    first is a variable and takes every other option of the level. *)
Definition set_option (level optname int_val : Z) (o : SocketOpts) : SocketOpts :=
  let b := bool_decide (int_val ≠ 0) in
  if decide (level = SOL_SOCKET ∧ optname = SO_REUSEADDR)
  then mkOpts (tcp_nodelay o) (o_rcv_buf o) (o_snd_buf o) b (keepalive o) (adaptive o)
  else if decide (level = SOL_SOCKET ∧ optname = SO_KEEPALIVE)
  then mkOpts (tcp_nodelay o) (o_rcv_buf o) (o_snd_buf o) (reuseaddr o) b (adaptive o)
  else if decide (level = SOL_SOCKET)
  then mkOpts (tcp_nodelay o) (Z.max int_val 0) (o_snd_buf o) (reuseaddr o) (keepalive o) (adaptive o)
  else if decide (level = SOL_TCP ∧ optname = TCP_NODELAY)
  then mkOpts b (o_rcv_buf o) (o_snd_buf o) (reuseaddr o) (keepalive o) false
  else if decide (level = SOL_TCP ∧ optname = TCP_CORK)
  then mkOpts (negb b) (o_rcv_buf o) (o_snd_buf o) (reuseaddr o) (keepalive o) (adaptive o)
  else if decide (level = SOL_TCP ∧ optname = TCP_NODELAY_AI)
  then mkOpts (tcp_nodelay o) (o_rcv_buf o) (o_snd_buf o) (reuseaddr o) (keepalive o) b
  else o.

Definition sys_setsockopt (fd level optname val_ptr vlen : Z) s : Z * Sys N :=
  let k := (cur s, fd) in
  let int_val := if bool_decide (val_ptr ≠ 0 ∧ 4 ≤ vlen) && validate_user_ptr val_ptr 4
                 then as_i32 (uread_le val_ptr 4 s) else 0 in
  (0, upd_fds (λ f, set_socket_opts (<[k := set_option level optname int_val (default default_opts (SOCKET_OPTS f !! k))]>
                                       (SOCKET_OPTS f)) f) s).

Definition b2z (b : bool) : Z := if b then 1 else 0.
Definition get_option (level optname : Z) (o : option SocketOpts) : Z :=
  if decide (level = SOL_SOCKET ∧ optname = SO_TYPE) then 1
  else if decide (level = SOL_SOCKET ∧ optname = SO_ERROR) then 0
  else if decide (level = SOL_SOCKET ∧ optname = SO_REUSEADDR) then default 0 (b2z ∘ reuseaddr <$> o)
  else if decide (level = SOL_SOCKET ∧ optname = SO_KEEPALIVE) then default 0 (b2z ∘ keepalive <$> o)
  else if decide (level = SOL_SOCKET) then default 87380 (o_rcv_buf <$> o)
  else if decide (level = SOL_TCP ∧ optname = TCP_NODELAY) then default 0 (b2z ∘ tcp_nodelay <$> o)
  else if decide (level = SOL_TCP ∧ optname = TCP_NODELAY_AI) then default 0 (b2z ∘ adaptive <$> o)
  else 0.

Definition sys_getsockopt (fd level optname val_ptr len_ptr : Z) s : Z * Sys N :=
  if decide (val_ptr = 0) then (EINVAL, s) else
  let want_len := if decide (len_ptr ≠ 0) then uread_le len_ptr 4 s else 4 in
  if decide (want_len < 4) then (EINVAL, s) else
  let out := get_option level optname (SOCKET_OPTS (sfds s) !! (cur s, fd)) in
  (0, if validate_user_ptr val_ptr 4 then
        let s := uwrite_le val_ptr 4 (u32 out) s in
        if decide (len_ptr ≠ 0) then uwrite_le len_ptr 4 4 s else s
      else s).

(** [socket_nodelay]; [sensitive] is the fingerprint's verdict on the process. *)
Definition socket_nodelay (sensitive : Z → bool) (pid fd : Z) (f : Fds) : bool :=
  match SOCKET_OPTS f !! (pid, fd) with
  | None => false
  | Some o => if adaptive o then sensitive pid else tcp_nodelay o
  end.

(** ** epoll *)

Definition EPOLL_CTL_ADD : Z := 1.
Definition EPOLL_CTL_DEL : Z := 2.
Definition EPOLL_CTL_MOD : Z := 3.
Definition EPOLLIN : Z := 1.
Definition EPOLLOUT : Z := 4.
Definition EPOLLERR : Z := 8.
Definition EPOLLHUP : Z := 16.
Definition EPOLLET : Z := 2 ^ 31.

(** The descriptor has no handle, only the interest list. *)
Definition sys_epoll_create1 s : Z * Sys N :=
  let pid := cur s in
  let (epfd, f) := alloc_fd (RLIMITS (kern s)) pid (sfds s) in
  (as_i64 epfd, set_sfds (set_epolls (<[(pid, epfd) := ∅]> (EPOLL_TABLE f)) f) s).

Definition read_interest (event_ptr : Z) s : EpollInterest :=
  let events_raw := uread_le event_ptr 4 s in
  mkInterest (Z.land events_raw (Z.lxor EPOLLET (2 ^ 32 - 1))) (uread_le (event_ptr + 4) 8 s)
    (bool_decide (Z.land events_raw EPOLLET ≠ 0)) false.

Definition sys_epoll_ctl (epfd op watched_fd event_ptr : Z) s : Z * Sys N :=
  let k := (cur s, epfd) in
  let given := bool_decide (op ≠ EPOLL_CTL_DEL ∧ event_ptr ≠ 0) in
  if given && negb (validate_user_ptr event_ptr 12) then (EFAULT, s) else
  let interest := if given then read_interest event_ptr s else mkInterest 0 0 false false in
  match EPOLL_TABLE (sfds s) !! k with
  | None => (EBADF, s)
  | Some inst =>
      let put inst := upd_fds (λ f, set_epolls (<[k := inst]> (EPOLL_TABLE f)) f) s in
      if decide (op = EPOLL_CTL_ADD ∨ op = EPOLL_CTL_MOD) then (0, put (<[watched_fd := interest]> inst))
      else if decide (op = EPOLL_CTL_DEL) then (0, put (delete watched_fd inst))
      else (EINVAL, s)
  end.

(** What one watched descriptor shows: the events, and whether it is ready. *)
Definition epoll_probe (pid watched_fd : Z) (i : EpollInterest) s : Z * bool :=
  let wfd := u64 watched_fd in
  let wants b := bool_decide (Z.land (ei_events i) b ≠ 0) in
  if decide (wfd = 1 ∨ wfd = 2) then (if wants EPOLLOUT then EPOLLOUT else 0, wants EPOLLOUT)
  else match FD_TABLE (sfds s) !! (pid, wfd) with
       | Some h =>
           let has_in := wants EPOLLIN && bool_decide (0 < handle_available h s) in
           let has_out := wants EPOLLOUT in
           (Z.lor (if has_in then EPOLLIN else 0) (if has_out then EPOLLOUT else 0), has_in || has_out)
       | None => (Z.lor EPOLLHUP EPOLLERR, true)
       end.

Definition should_report (i : EpollInterest) (revents : Z) (now_ready : bool) : bool :=
  (if ei_edge i then now_ready && negb (ei_last_ready i) else bool_decide (revents ≠ 0)) && bool_decide (revents ≠ 0).

(** One pass over the interests: the events reported, and the new edge states. *)
Fixpoint epoll_scan (max : nat) (pid : Z) (l : list (Z * EpollInterest)) s
    : list (Z * Z) * list (Z * bool) :=
  match l, max with
  | [], _ | _, O => ([], [])
  | (fd, i) :: l', S max' =>
      let (revents, now_ready) := epoll_probe pid fd i s in
      let report := should_report i revents now_ready in
      let (evs, ups) := epoll_scan (if report then max' else max) pid l' s in
      (if report then (revents, ei_data i) :: evs else evs,
       if ei_edge i then (fd, now_ready) :: ups else ups)
  end.

Definition set_last_ready (r : bool) (i : EpollInterest) : EpollInterest :=
  mkInterest (ei_events i) (ei_data i) (ei_edge i) r.
Definition apply_edges (ups : list (Z * bool)) (inst : gmap Z EpollInterest) : gmap Z EpollInterest :=
  foldl (λ m u, alter (set_last_ready u.2) u.1 m) inst ups.

Definition event_bytes (e : Z * Z) : list Z := to_le 4 e.1 ++ to_le 8 e.2.

Fixpoint epoll_loop (fuel : nat) (pid epfd events_out : Z) (max : nat) (deadline : Z) s : res (Z * Sys N) :=
  let k := (pid, epfd) in
  match EPOLL_TABLE (sfds s) !! k with
  | None => Ret (EBADF, s)
  | Some inst =>
      let (evs, ups) := epoll_scan max pid (btree_list (≤) inst) s in
      let s := uwrite events_out (mjoin (event_bytes <$> evs)) s in
      let s := upd_fds (λ f, set_epolls (alter (apply_edges ups) k (EPOLL_TABLE f)) f) s in
      if decide (evs ≠ [] ∨ deadline ≤ uptime_ms (kern s)) then Ret (Z.of_nat (length evs), s)
      else match fuel with
           | O => OutOfFuel
           | S fuel' => epoll_loop fuel' pid epfd events_out max deadline (yield_cpu s)
           end
  end.

Definition wait_deadline (timeout_ms : Z) s : Z :=
  if decide (timeout_ms < 0) then U64_MAX else add64 (uptime_ms (kern s)) timeout_ms.

Definition sys_epoll_wait (fuel : nat) (epfd events_out maxevents timeout_ms : Z) s : res (Z * Sys N) :=
  if decide (maxevents ≤ 0) then Ret (EINVAL, s)
  else if negb (validate_user_ptr events_out (Z.min (maxevents * 12) U64_MAX)) then Ret (EFAULT, s)
  else epoll_loop fuel (cur s) epfd events_out (Z.to_nat maxevents) (wait_deadline timeout_ms s) s.

(** ** poll *)

Definition POLLIN : Z := 1.
Definition POLLOUT : Z := 4.

Definition poll_probe (pid fd events : Z) s : Z :=
  let wants b := bool_decide (Z.land events b ≠ 0) in
  if decide (fd = 1 ∨ fd = 2) then (if wants POLLOUT then POLLOUT else 0)
  else
    let available := match FD_TABLE (sfds s) !! (pid, fd) with Some h => handle_available h s | None => 0 end in
    Z.lor (if wants POLLIN && bool_decide (0 < available) then POLLIN else 0) (if wants POLLOUT then POLLOUT else 0).

(** The entries from address [a] on. *)
Fixpoint poll_scan (nfds : nat) (pid a ready : Z) s : Z * Sys N :=
  match nfds with
  | O => (ready, s)
  | S n =>
      let fd := as_i32 (uread_le a 4 s) in
      let events := uread_le (add64 a 4) 2 s in
      let s := uwrite_le (add64 a 6) 2 0 s in
      if decide (fd < 0) then poll_scan n pid (add64 a 8) ready s else
      let revents := poll_probe pid fd events s in
      if decide (revents ≠ 0) then poll_scan n pid (add64 a 8) (ready + 1) (uwrite_le (add64 a 6) 2 revents s)
      else poll_scan n pid (add64 a 8) ready s
  end.

Fixpoint poll_loop (fuel : nat) (pid fds_ptr : Z) (nfds : nat) (deadline : Z) s : res (Z * Sys N) :=
  let (ready, s) := poll_scan nfds pid fds_ptr 0 s in
  if decide (0 < ready ∨ deadline ≤ uptime_ms (kern s)) then Ret (ready, s)
  else match fuel with
       | O => OutOfFuel
       | S fuel' => poll_loop fuel' pid fds_ptr nfds deadline (yield_cpu s)
       end.

Definition sys_poll (fuel : nat) (fds_ptr nfds timeout_ms : Z) s : res (Z * Sys N) :=
  if decide (fds_ptr = 0 ∨ nfds = 0) then Ret (0, s)
  else if negb (validate_user_ptr fds_ptr (Z.min (nfds * 8) U64_MAX)) then Ret (EFAULT, s)
  else poll_loop fuel (cur s) fds_ptr (Z.to_nat nfds) (wait_deadline timeout_ms s) s.
End calls.
