(* ===== verification/SocketNet.v ===== *)
(** The network stack behind the descriptors: instances of the classes of [SysState]
    and [SysNet] from [Net]. [SOCKETS] and [LISTENERS] are free between calls. *)
From stdpp Require Import base numbers list gmap.
From S2P Require Import Prelude Bytes SysState SysNet NetWire NetProto Tcp NetState Net.

(** A call that spins on a lock it holds, or polls without end, does not return. *)
Definition net_res {A} (o : outcome A) : res (A * NetState) :=
  match o with
  | Done a s => Ret (a, s)
  | Crashed => Panic
  | Deadlock | Unfinished => OutOfFuel
  end.

Section instances.
Context (h : Hints) (env_now : nat → Z) (env_rx : nat → list (list Z)) (fuel : nat).

Lemma recv_length key n t : length (recv key n t).1 = (n `min` rx_buf_len key t)%nat.
Proof.
  unfold recv, rx_buf_len. destruct (SOCKETS t !! key) as [k|]; cbn; [|lia]. rewrite length_take. lia.
Qed.

Definition sock_recv (key : TcpSocketKey) (n : nat) (s : NetState) : list Z * NetState :=
  let (b, t) := recv key n (tcp s) in (b, set_tcp t s).

#[export] Instance net_sockets : SocketLayer NetState.
Proof.
  refine {| sl_rx_len key s := rx_buf_len key (tcp s); sl_recv := sock_recv;
            sl_send key b s := net_res (send h env_now env_rx key b s) |}.
  intros key n s. pose proof (recv_length key n (tcp s)) as H. unfold sock_recv.
  destruct (recv key n (tcp s)) as [b t] eqn:E. exact H.
Defined.

#[export] Instance net_control : SocketControl NetState := {|
  sc_connect pid ip port timeout s :=
    match net_res (connect h env_now env_rx fuel pid ip port timeout s) with
    | Ret (inl local_port, s) => Ret (Some local_port, s)
    | Ret (inr _, s) => Ret (None, s)
    | Panic => Panic
    | OutOfFuel => OutOfFuel
    end;
  sc_listen port s := set_tcp (listen port (tcp s)) s;
  sc_accept port s := let (o, t) := accept port (tcp s) in (o, set_tcp t s);
  sc_close key s :=
    match net_res (close h env_now env_rx key s) with
    | Ret (_, s) => Ret s
    | Panic => Panic
    | OutOfFuel => OutOfFuel
    end;
  sc_our_ip s := OUR_IP s
|}.
End instances.
