(* ===== verification/SysNetProps.v ===== *)
(** Theorems about sockets, epoll and poll. *)
From stdpp Require Import base numbers list gmap sets strings.
From S2P Require Import NetState Net TcpProps.
From S2P Require Import Prelude Bytes RunQueue Task Rlimit Scheduler Users Ramfs Vfs Tcp Namespaces.
From S2P Require Import SysState SysFd SysFdFacts SysFdProps SysNet SocketNet.
From S2P Require Import VfsProps SchedulerProps.

Section epoll.
Context {N : Type} {SL : SocketLayer N}.
Implicit Types s : Sys N.

(** ** One scan *)

(** What a watched descriptor contributes, on its own. *)
Definition reported (pid : Z) s (e : Z * EpollInterest) : option (Z * Z) :=
  let (revents, now_ready) := epoll_probe pid e.1 e.2 s in
  if should_report e.2 revents now_ready then Some (revents, ei_data e.2) else None.
Definition edge_update (pid : Z) s (e : Z * EpollInterest) : option (Z * bool) :=
  if ei_edge e.2 then Some (e.1, (epoll_probe pid e.1 e.2 s).2) else None.

(** The events of a pass, against the reference. *)
Definition ready_events (pid : Z) (max : nat) (inst : gmap Z EpollInterest) s : list (Z * Z) :=
  take max (omap (reported pid s) (btree_list (≤) inst)).

Lemma scan_events max pid l s : (epoll_scan max pid l s).1 = take max (omap (reported pid s) l).
Proof.
  revert max. induction l as [|[fd i] l IH]; intros max; [by destruct max|].
  destruct max as [|max]; [done|]. cbn [epoll_scan]. simpl omap. unfold reported at 1. cbn [fst snd].
  destruct (epoll_probe pid fd i s) as [rv now]. destruct (should_report i rv now).
  - specialize (IH max). destruct (epoll_scan max pid l s). cbn in *. by rewrite IH.
  - specialize (IH (S max)). destruct (epoll_scan (S max) pid l s). cbn [fst] in *. by rewrite IH.
Qed.

Lemma length_omap_le {A B} (f : A → option B) (l : list A) : (length (omap f l) ≤ length l)%nat.
Proof.
  induction l as [|x l IH]; [simpl; lia|].
  change (omap f (x :: l)) with (match f x with Some y => y :: omap f l | None => omap f l end).
  destruct (f x); cbn [length]; lia.
Qed.

(** A pass that is not cut short looks at every interest. *)
Lemma scan_edges max pid l s :
  (length l ≤ max)%nat → (epoll_scan max pid l s).2 = omap (edge_update pid s) l.
Proof.
  revert max. induction l as [|[fd i] l IH]; intros max Hm; [done|].
  destruct max as [|max]; simpl in Hm; [lia|]. cbn [epoll_scan]. simpl omap. unfold edge_update at 1. cbn [fst snd].
  destruct (epoll_probe pid fd i s) as [rv now]. cbn [snd].
  destruct (should_report i rv now).
  - specialize (IH max ltac:(lia)). destruct (epoll_scan max pid l s). cbn in *. subst. by destruct (ei_edge i).
  - specialize (IH (S max) ltac:(lia)). destruct (epoll_scan (S max) pid l s). cbn [snd] in *. subst. by destruct (ei_edge i).
Qed.

Lemma length_events evs : length (mjoin (event_bytes <$> evs)) = (12 * length evs)%nat.
Proof.
  induction evs as [|e evs IH]; [done|]. rewrite fmap_cons.
  change (mjoin (event_bytes e :: ?l)) with (event_bytes e ++ mjoin l).
  rewrite length_app, IH. unfold event_bytes. rewrite length_app, !length_to_le. cbn [length]. lia.
Qed.

(** ** Edge-triggered interests *)

Lemma lookup_apply_edges ups inst fd :
  apply_edges ups inst !! fd = foldl (λ o u, if decide (u.1 = fd) then set_last_ready u.2 <$> o else o) (inst !! fd) ups.
Proof.
  unfold apply_edges. revert inst. induction ups as [|[g r] ups IH]; intros inst; [done|]. cbn [foldl fst snd].
  rewrite IH, lookup_alter_at. done.
Qed.

Lemma fold_edges_none fd ups (o : option EpollInterest) :
  fd ∉ ups.*1 → foldl (λ o (u : Z * bool), if decide (u.1 = fd) then set_last_ready u.2 <$> o else o) o ups = o.
Proof.
  revert o. induction ups as [|[g r] ups IH]; intros o Hn; [done|]. rewrite fmap_cons in Hn. apply not_elem_of_cons in Hn as [Hg Hn].
  cbn [foldl fst]. rewrite decide_False by done. by apply IH.
Qed.

(** An interest after a complete pass. *)
Lemma edges_recorded pid inst s fd i :
  inst !! fd = Some i → ei_edge i = true →
  apply_edges (omap (edge_update pid s) (btree_list (≤) inst)) inst !! fd =
    Some (set_last_ready (epoll_probe pid fd i s).2 i).
Proof.
  intros Hi He. rewrite lookup_apply_edges, Hi.
  assert (Hin : (fd, i) ∈ btree_list (≤) inst) by (by apply elem_of_btree_list).
  apply list_elem_of_split in Hin as (l1 & l2 & El). pose proof (NoDup_btree_keys (≤) inst) as Hnd.
  rewrite El in Hnd |- *. rewrite fmap_app, fmap_cons in Hnd. apply NoDup_app in Hnd as (_ & H1 & H2).
  apply NoDup_cons in H2 as [H2 _].
  assert (Hno : ∀ l, fd ∉ l.*1 → fd ∉ (omap (edge_update pid s) l).*1).
  { intros l Hl Hin. apply Hl. apply list_elem_of_fmap in Hin as ([g r] & -> & Hin).
    apply list_elem_of_omap in Hin as ([g' i'] & Hin & E). unfold edge_update in E. cbn in E.
    destruct (ei_edge i'); [|done]. injection E as -> _. apply list_elem_of_fmap. by exists (g, i'). }
  rewrite omap_app. simpl omap. unfold edge_update at 2. cbn [fst snd]. rewrite He, foldl_app.
  rewrite (fold_edges_none fd _ (Some i)).
  2:{ apply Hno. intros Hf. apply (H1 fd Hf). by left. }
  cbn [foldl fst snd]. rewrite decide_True by done. cbn [fmap option_fmap option_map]. apply fold_edges_none, Hno, H2.
Qed.

Lemma level_kept pid inst s fd i :
  inst !! fd = Some i → ei_edge i = false →
  apply_edges (omap (edge_update pid s) (btree_list (≤) inst)) inst !! fd = Some i.
Proof.
  intros Hi He. rewrite lookup_apply_edges, Hi. apply fold_edges_none. intros Hin.
  apply list_elem_of_fmap in Hin as ([g r] & -> & Hin). apply list_elem_of_omap in Hin as ([g' i'] & Hin & E).
  unfold edge_update in E. cbn in E. apply elem_of_btree_list in Hin.
  destruct (ei_edge i') eqn:He'; [|done]. injection E as -> _. cbn in Hi. congruence.
Qed.

Lemma edges_absent ups inst fd : inst !! fd = None → apply_edges ups inst !! fd = None.
Proof.
  intros Hi. rewrite lookup_apply_edges, Hi. induction ups as [|u ups IH]; [done|]. cbn [foldl]. by case_decide.
Qed.

Lemma probe_ready pid fd i s : (epoll_probe pid fd i s).2 = bool_decide ((epoll_probe pid fd i s).1 ≠ 0).
Proof.
  unfold epoll_probe. repeat case_match; cbn [fst snd]; repeat case_bool_decide; try done; cbn in *;
    try (exfalso; lia); by destruct (bool_decide (0 < handle_available f s)).
Qed.

Lemma reported_iff pid fd i s ev :
  reported pid s (fd, i) = Some ev ↔
  ev = ((epoll_probe pid fd i s).1, ei_data i) ∧ (epoll_probe pid fd i s).2 = true ∧
  (ei_edge i = true → ei_last_ready i = false).
Proof.
  unfold reported, should_report. cbn [fst snd]. pose proof (probe_ready pid fd i s) as Hr.
  destruct (epoll_probe pid fd i s) as [rv now]. cbn [fst snd] in *. rewrite <- Hr.
  destruct now, (ei_edge i), (ei_last_ready i); cbn; naive_solver.
Qed.

(** Triggering. Let a pass of [sys_epoll_wait] over an epoll instance leave room
    for every watched descriptor. Then the next pass, in whatever state it finds the
    system, reports exactly the descriptors ready then, each with the events it was
    registered for; of the edge-triggered ones, only those that were not ready at the
    previous pass. *)
Theorem epoll_edges_correct pid (inst : gmap Z EpollInterest) (max : nat) s s2 ev :
  (size inst ≤ max)%nat →
  let inst' := apply_edges (epoll_scan max pid (btree_list (≤) inst) s).2 inst in
  ev ∈ (epoll_scan max pid (btree_list (≤) inst') s2).1 ↔
  ∃ fd i, inst !! fd = Some i ∧ ev = ((epoll_probe pid fd i s2).1, ei_data i) ∧
    (epoll_probe pid fd i s2).2 = true ∧
    (if ei_edge i then (epoll_probe pid fd i s).2 = false else True).
Proof.
  intros Hm inst'. rewrite scan_events.
  assert (Hlen : ∀ m : gmap Z EpollInterest, length (btree_list (≤) m) = size m).
  { intros m. rewrite btree_list_perm. apply length_map_to_list. }
  assert (Hdom : ∀ fd, is_Some (inst' !! fd) → is_Some (inst !! fd)).
  { intros fd H. destruct (inst !! fd) eqn:E; [done|]. unfold inst' in H. rewrite edges_absent in H by done.
    by destruct H. }
  unfold inst' in *. rewrite scan_edges in * by (rewrite Hlen; done).
  rewrite take_ge.
  2:{ etrans; [apply length_omap_le|]. rewrite Hlen, <- (size_dom (D:=gset Z)).
      etrans; [|exact Hm]. rewrite <- (size_dom (D:=gset Z) inst). apply subseteq_size. intros fd. rewrite !elem_of_dom. auto. }
  rewrite list_elem_of_omap. split.
  - intros ([fd j] & Hin & Hr). apply elem_of_btree_list in Hin. destruct (Hdom fd) as [i Hi]; [by eexists|].
    exists fd, i. apply reported_iff in Hr as (-> & Hnow & Hlast). destruct (ei_edge i) eqn:He.
    + rewrite (edges_recorded _ _ _ _ _ Hi He) in Hin. injection Hin as <-. by specialize (Hlast He).
    + rewrite (level_kept _ _ _ _ _ Hi He) in Hin. by injection Hin as <-.
  - intros (fd & i & Hi & -> & Hnow & Hlast). destruct (ei_edge i) eqn:He.
    + eexists (fd, _). split; [apply elem_of_btree_list, (edges_recorded _ _ _ _ _ Hi He)|].
      apply reported_iff. split_and!; [done..|]. intros _. exact Hlast.
    + exists (fd, i). split; [apply elem_of_btree_list, (level_kept _ _ _ _ _ Hi He)|].
      apply reported_iff. split_and!; [done..|]. congruence.
Qed.

End epoll.

(** ** Waiting *)

Section waiting.
Context {N : Type} {SL : SocketLayer N}.
Context (yield_cpu : Sys N → Sys N).
Implicit Types s : Sys N.

Definition record_edges (pid epfd : Z) (max : nat) (inst : gmap Z EpollInterest) s : Sys N :=
  upd_fds (λ f, set_epolls (alter (apply_edges (epoll_scan max pid (btree_list (≤) inst) s).2) (pid, epfd)
                                  (EPOLL_TABLE f)) f) s.

(** From [s] to [s'] by passes that find nothing, each followed by a yield. *)
Inductive idles (pid epfd : Z) (max : nat) : Sys N → Sys N → Prop :=
| idle_none s : idles pid epfd max s s
| idle_turn s s' inst :
    EPOLL_TABLE (sfds s) !! (pid, epfd) = Some inst → ready_events pid max inst s = [] →
    idles pid epfd max (yield_cpu (record_edges pid epfd max inst s)) s' → idles pid epfd max s s'.

(** What a wait that ends in state [s1] gives back. *)
Definition wait_result (pid epfd out : Z) (max : nat) (deadline : Z) s1 (n : Z) s' : Prop :=
  match EPOLL_TABLE (sfds s1) !! (pid, epfd) with
  | None => n = EBADF ∧ s' = s1
  | Some inst =>
      let evs := ready_events pid max inst s1 in
      n = Z.of_nat (length evs) ∧ (evs = [] → deadline ≤ uptime_ms (kern s1)) ∧
      s' = record_edges pid epfd max inst (uwrite out (mjoin (event_bytes <$> evs)) s1)
  end.

Lemma scan_uwrite max pid l a b s : epoll_scan max pid l (uwrite a b s) = epoll_scan max pid l s.
Proof.
  revert max. induction l as [|[fd i] l IH]; intros [|max]; [done..|]. cbn [epoll_scan].
  change (epoll_probe pid fd i (uwrite a b s)) with (epoll_probe pid fd i s).
  destruct (epoll_probe pid fd i s). by rewrite IH.
Qed.

Lemma epoll_loop_step fuel pid epfd out max deadline s inst :
  EPOLL_TABLE (sfds s) !! (pid, epfd) = Some inst →
  let evs := ready_events pid max inst s in
  epoll_loop yield_cpu fuel pid epfd out max deadline s =
    if decide (evs ≠ [] ∨ deadline ≤ uptime_ms (kern s))
    then Ret (Z.of_nat (length evs), record_edges pid epfd max inst (uwrite out (mjoin (event_bytes <$> evs)) s))
    else match fuel with
         | O => OutOfFuel
         | S fuel' => epoll_loop yield_cpu fuel' pid epfd out max deadline (yield_cpu (record_edges pid epfd max inst s))
         end.
Proof.
  intros Hk evs. assert (Hev : (epoll_scan max pid (btree_list (≤) inst) s).1 = evs) by apply scan_events.
  assert (Hre : ∀ b, record_edges pid epfd max inst (uwrite out b s) =
    upd_fds (λ f, set_epolls (alter (apply_edges (epoll_scan max pid (btree_list (≤) inst) s).2) (pid, epfd)
                                    (EPOLL_TABLE f)) f) (uwrite out b s)).
  { intros b. unfold record_edges. by rewrite scan_uwrite. }
  destruct fuel; cbn [epoll_loop]; rewrite Hk, Hre;
    destruct (epoll_scan max pid (btree_list (≤) inst) s) as [evs' ups] eqn:Es; cbn [fst snd] in *; subst evs';
    change (uptime_ms (kern (upd_fds ?f (uwrite out ?b s)))) with (uptime_ms (kern s)).
  - done.
  - destruct (decide (evs ≠ [] ∨ deadline ≤ uptime_ms (kern s))) as [|Hn]; [done|].
    assert (evs = []) as -> by (destruct evs; [done|exfalso; apply Hn; by left]).
    change (mjoin (event_bytes <$> [])) with (@nil Z). rewrite uwrite_nil. unfold record_edges. by rewrite Es.
Qed.

Lemma epoll_loop_returns fuel pid epfd out max deadline s :
  (∀ s, uptime_ms (kern s) < uptime_ms (kern (yield_cpu s))) →
  deadline ≤ uptime_ms (kern s) + Z.of_nat fuel →
  ∃ n s1 s', epoll_loop yield_cpu fuel pid epfd out max deadline s = Ret (n, s') ∧
    idles pid epfd max s s1 ∧ wait_result pid epfd out max deadline s1 n s'.
Proof.
  intros Hclock. revert s. induction fuel as [|fuel IH]; intros s Hd;
    (destruct (EPOLL_TABLE (sfds s) !! (pid, epfd)) as [inst|] eqn:Hk;
      [|exists EBADF, s, s; cbn [epoll_loop]; rewrite Hk; split; [done|]; split; [constructor|];
        unfold wait_result; by rewrite Hk]);
    rewrite (epoll_loop_step _ _ _ _ _ _ _ _ Hk);
    (destruct (decide (ready_events pid max inst s ≠ [] ∨ deadline ≤ uptime_ms (kern s))) as [Hdone|Hn];
      [eexists _, s, _; split; [done|]; split; [constructor|]; unfold wait_result; rewrite Hk;
        split_and!; [done| |done]; intros E; by destruct Hdone|]).
  - exfalso. apply Hn. right. lia.
  - specialize (Hclock (record_edges pid epfd max inst s)).
    change (uptime_ms (kern (record_edges pid epfd max inst s))) with (uptime_ms (kern s)) in Hclock.
    destruct (IH (yield_cpu (record_edges pid epfd max inst s))) as (n & s1 & s' & E & Hi & Hr); [lia|].
    exists n, s1, s'. split; [exact E|]. split; [|done]. eapply idle_turn; [done| |done].
    destruct (ready_events pid max inst s); [done|]. exfalso. apply Hn. by left.
Qed.

(** C37. Waiting ends and reports what is ready. With a timeout, and a clock that
    moves at least one millisecond while the caller is off the processor,
    [sys_epoll_wait] returns within [timeout_ms] turns. Between the call and the
    return every pass found nothing; the last one is the result: the first
    [maxevents] reports of the watched descriptors in ascending order, written to the
    caller's array one after the other, and zero only once the deadline has passed. *)
Theorem epoll_wait_correct epfd out maxevents timeout_ms s :
  (∀ s, uptime_ms (kern s) < uptime_ms (kern (yield_cpu s))) →
  0 < maxevents → 0 ≤ out → validate_user_ptr out (Z.min (maxevents * 12) U64_MAX) = true →
  0 ≤ timeout_ms → 0 ≤ uptime_ms (kern s) → uptime_ms (kern s) + timeout_ms < u64_modulus →
  ∃ n s1 s', sys_epoll_wait yield_cpu (Z.to_nat timeout_ms) epfd out maxevents timeout_ms s = Ret (n, s') ∧
    idles (cur s) epfd (Z.to_nat maxevents) s s1 ∧
    match EPOLL_TABLE (sfds s1) !! (cur s, epfd) with
    | None => n = EBADF
    | Some inst =>
        let evs := take (Z.to_nat maxevents) (omap (reported (cur s) s1) (btree_list (≤) inst)) in
        n = Z.of_nat (length evs) ∧ (evs = [] → uptime_ms (kern s) + timeout_ms ≤ uptime_ms (kern s1)) ∧
        uread out (12 * length evs) s' = mjoin (event_bytes <$> evs)
    end.
Proof.
  intros Hclock Hmax Hout Hv Ht H0 Hu. unfold sys_epoll_wait. rewrite decide_False, Hv by lia. cbn [negb].
  assert (Hd : wait_deadline timeout_ms s = uptime_ms (kern s) + timeout_ms).
  { unfold wait_deadline. rewrite decide_False by lia. apply u64_small. unfold is_u64. lia. }
  destruct (epoll_loop_returns (Z.to_nat timeout_ms) (cur s) epfd out (Z.to_nat maxevents) (wait_deadline timeout_ms s) s)
    as (n & s1 & s' & E & Hi & Hr); [done|lia|].
  exists n, s1, s'. split; [exact E|]. split; [done|]. unfold wait_result in Hr.
  destruct (EPOLL_TABLE (sfds s1) !! (cur s, epfd)) as [inst|]; [|by destruct Hr].
  destruct Hr as (Hn & Hdl & ->). rewrite Hd in Hdl. split_and!; [done..|].
  apply validated in Hv; [|done|unfold U64_MAX, u64_modulus in *; lia].
  rewrite <- length_events.
  change (uread ?a ?m (record_edges ?p ?e ?x ?i ?t)) with (uread a m t).
  apply uread_uwrite; [done|]. rewrite length_events, length_take.
  unfold USER_END, U64_MAX, u64_modulus in *. lia.
Qed.

(** [poll] and its deadline. *)
Lemma poll_scan_kern nfds pid a r s : kern (poll_scan nfds pid a r s).2 = kern s.
Proof. revert a r s. induction nfds; intros a r s; [done|]. cbn [poll_scan]. by repeat case_decide; rewrite IHnfds. Qed.

Lemma poll_returns fuel pid p nfds deadline s :
  (∀ s, uptime_ms (kern s) < uptime_ms (kern (yield_cpu s))) →
  deadline ≤ uptime_ms (kern s) + Z.of_nat fuel →
  ∃ n s', poll_loop yield_cpu fuel pid p nfds deadline s = Ret (n, s').
Proof.
  intros Hclock. revert s. induction fuel as [|fuel IH]; intros s Hd; cbn [poll_loop];
    pose proof (poll_scan_kern nfds pid p 0 s) as Hk; destruct (poll_scan nfds pid p 0 s) as [r s1]; cbn [snd] in Hk;
    rewrite Hk; (destruct (decide (0 < r ∨ deadline ≤ uptime_ms (kern s))) as [|Hn]; [by eexists _, _|]).
  - exfalso. apply Hn. right. lia.
  - apply IH. specialize (Hclock s1). rewrite Hk in Hclock. lia.
Qed.
End waiting.

(** ** Addresses *)

Section sockets.
Context {N : Type} {SL : SocketLayer N} {SC : SocketControl N}.
Implicit Types s : Sys N.

Lemma length_uread a n s : length (uread a n s) = n.
Proof. unfold uread. by rewrite length_fmap, length_seq. Qed.

Lemma sockaddr_ip_reversed a s :
  bytes_ok (uread (a + 4) 4 s) → sockaddr_ip a s = rev (uread (a + 4) 4 s).
Proof.
  intros Hb. unfold sockaddr_ip, uread_le, from_le.
  rewrite <- (length_uread (a + 4) 4 s) at 1. rewrite <- length_rev. by apply to_from_be, bytes_ok_rev.
Qed.

Lemma peer_bytes ip : bytes_ok ip → length ip = 4%nat → to_le 4 (from_be (rev ip)) = ip.
Proof.
  intros Hb Hl. unfold to_le. replace 4%nat with (length (rev ip)) by (by rewrite length_rev).
  rewrite to_from_be by (by apply bytes_ok_rev). apply rev_involutive.
Qed.

(** [connect] past its checks. *)
Lemma sys_connect_inet fd a alen s h :
  a ≠ 0 → 8 ≤ alen → validate_user_ptr a 8 = true → uread_le a 2 s = AF_INET →
  FD_TABLE (sfds s) !! (cur s, fd) = Some h →
  sys_connect fd a alen s =
    if lvl_ge (level_of (cur s) (ns (iso s))) Isolated &&
       bool_decide (sockaddr_ip a s ≠ [127; 0; 0; 1] ∨ sockaddr_port a s ≠ 9050)
    then Ret (EPERM, s) else
    let! (o, n) := sc_connect (cur s) (sockaddr_ip a s) (sockaddr_port a s) 5000 (netst s) in
    match o with
    | Some local_port =>
        Ret (0, set_peer (cur s, fd) (sockaddr_ip a s) (sockaddr_port a s) (set_ports (cur s, fd) local_port
          (upd_fds (fd_insert (cur s, fd) (ConnectedSocketHandle (mkSockKey local_port (sockaddr_ip a s) (sockaddr_port a s))))
             (set_netst n s))))
    | None => Ret (ETIMEDOUT, set_netst n s)
    end.
Proof.
  intros Ha Hl Hv Hf Hk. unfold sys_connect. rewrite decide_False, decide_False, Hv, decide_False, Hk by (lia || congruence).
  cbn [negb]. done.
Qed.

(** Connections go to the reversed address. A program that asks for address
    [ip], given in network order as [sockaddr_in] has it, is connected to the address
    with the four bytes in the opposite order, while [getpeername] writes back the
    address it asked for. An isolated process, which may only reach 127.0.0.1:9050,
    is refused exactly when it names that address. *)
Theorem connect_address_reversed fd a alen s h ip port :
  a ≠ 0 → 8 ≤ alen → validate_user_ptr a 8 = true → uread_le a 2 s = AF_INET →
  sockaddr_port a s = port → uread (a + 4) 4 s = ip → bytes_ok ip →
  FD_TABLE (sfds s) !! (cur s, fd) = Some h →
  (∀ lp n, lvl_ge (level_of (cur s) (ns (iso s))) Isolated = false →
    sc_connect (cur s) (rev ip) port 5000 (netst s) = Ret (Some lp, n) →
    ∃ s', sys_connect fd a alen s = Ret (0, s') ∧
      FD_TABLE (sfds s') !! (cur s, fd) = Some (ConnectedSocketHandle (mkSockKey lp (rev ip) port)) ∧
      ∀ p, 0 < p → validate_user_ptr p 16 = true →
        ∃ s2, sys_getpeername fd p 0 s' = (0, s2) ∧ uread (p + 4) 4 s2 = ip) ∧
  (lvl_ge (level_of (cur s) (ns (iso s))) Isolated = true → ip = [127; 0; 0; 1] →
    sys_connect fd a alen s = Ret (EPERM, s)).
Proof.
  intros Ha Hl Hv Hf Hport Hip Hb Hk. rewrite (sys_connect_inet _ _ _ _ _ Ha Hl Hv Hf Hk), Hport.
  rewrite sockaddr_ip_reversed, Hip by (by rewrite Hip). split.
  - intros lp n Hlv Hc. rewrite Hlv, Hc. cbn [andb res_bind]. eexists. split; [done|].
    split; [cbn [set_peer set_ports upd_fds set_sfds sfds set_netst set_peernames set_socket_ports FD_TABLE];
            rewrite fd_insert_table; apply lookup_insert_eq|].
    intros p Hp Hvp. unfold sys_getpeername. rewrite decide_False by lia.
    cbn [set_peer upd_fds set_sfds sfds set_peernames SOCKET_PEERNAME].
    change (cur (set_peer ?k ?i ?q ?t)) with (cur t). rewrite lookup_insert_eq.
    unfold write_sockaddr_in. rewrite Hvp. cbn [negb]. eexists. split; [done|].
    rewrite peer_bytes by (subst ip; first [done|apply length_uread]).
    change (bool_decide (0 ≠ 0) && _) with false. cbv iota.
    apply validated in Hvp as [_ Hvp]; [|lia..].
    assert (Hlen : length (to_le 2 2 ++ to_be 2 port ++ ip ++ replicate 8 0) = 16%nat).
    { rewrite !length_app, length_to_le, length_to_be, length_replicate. subst ip. by rewrite length_uread. }
    change 4 with (Z.of_nat 4). rewrite uread_part; [|lia|unfold USER_END, u64_modulus in *; lia|lia].
    rewrite drop_app_ge, drop_app_ge by (rewrite ?length_to_le, ?length_to_be; lia).
    rewrite length_to_le, length_to_be. change (4 - 2 - 2)%nat with 0%nat. rewrite drop_0, take_app_length' by (by rewrite <- Hip, length_uread). done.
  - intros Hlv ->. by rewrite Hlv.
Qed.
End sockets.

(** ** Readiness and reading *)

Section readiness.
Context {N : Type} {SL : SocketLayer N}.
Implicit Types s : Sys N.

Lemma nonempty_length {A} (l : list A) : (0 < length l)%nat → l ≠ [].
Proof. destruct l; simpl; [lia|done]. Qed.

Lemma to_le_nonempty n x : (0 < n)%nat → to_le n x ≠ [].
Proof. intros Hn. apply nonempty_length. by rewrite length_to_le. Qed.

Lemma timer_take_bytes n now expiry interval expirations :
  (8 ≤ n)%nat → ∃ c h, timer_take n now expiry interval expirations = (to_le 8 c, h).
Proof. intros Hn. unfold timer_take. rewrite decide_False by lia. repeat case_decide; by eexists _, _. Qed.

Lemma available_reads h n s :
  0 < handle_available h s → (128 ≤ n)%nat → (∀ rh, h = RamFileHandle rh → 0 ≤ h_pos rh) →
  ∃ b h' s', read_handle h n s = Ret (Ok b, h', s') ∧ b ≠ [] ∧ (length b ≤ n)%nat.
Proof.
  intros Ha Hn Hpos. destruct h as [rh|id w|c sem|expiry interval expirations|p mask| |key];
    cbn [handle_available read_handle] in *.
  - specialize (Hpos rh eq_refl). unfold bytes_available, sat_sub, handle_read, h_len in *. rewrite decide_False by lia.
    cbn [res_bind]. eexists _, _, _. split; [done|]. split; [apply nonempty_length|];
      rewrite length_take, length_drop; unfold sat_sub; lia.
  - destruct w; [lia|]. unfold pipe_read. destruct (PIPE_TABLE (sfds s) !! id) as [p|]; [|lia].
    rewrite decide_False by (intros E; rewrite E in Ha; simpl in Ha; lia). eexists _, _, _. split; [done|].
    split; [apply nonempty_length|]; rewrite length_take; lia.
  - case_decide; [|lia]. unfold eventfd_take. rewrite !decide_False by lia.
    destruct sem; eexists _, _, _; (split; [done|]); rewrite length_to_le; split; (apply to_le_nonempty || idtac); lia.
  - destruct (timer_take_bytes n (uptime_ms (kern s)) expiry interval expirations) as (c & h' & ->); [lia|].
    eexists _, _, _. split; [done|]. rewrite length_to_le. split; [apply to_le_nonempty|]; lia.
  - case_decide as Hm; [|lia]. unfold signalfd_take, consume_masked_signal, get_pending_signals in *.
    rewrite decide_False by lia. destruct (TASKS (kern s) !! p) as [t|]; [|by rewrite Z.land_0_l in Hm].
    cbn [fmap option_fmap option_map default] in Hm. rewrite decide_False by done.
    eexists _, _, _. split; [done|]. rewrite length_app, length_to_le, length_replicate.
    split; [apply nonempty_length; rewrite length_app, length_to_le|]; lia.
  - lia.
  - pose proof (sl_recv_len key n (netst s)) as Hl. destruct (sl_recv key n (netst s)) as [b nt]. cbn [fst] in Hl.
    eexists _, _, _. split; [done|]. split; [apply nonempty_length|]; lia.
Qed.

Lemma testbit_in (i a b : bool) : Z.testbit (Z.lor (if a then EPOLLIN else 0) (if b then EPOLLOUT else 0)) 0 = i → a = i.
Proof. by destruct a, b, i. Qed.

(** Readiness is sound. When a pass of [sys_epoll_wait] shows EPOLLIN for a
    descriptor above the standard ones, a read of at least 128 bytes from it, whatever
    the descriptor is (file, pipe, event counter, timer, signal or socket), returns at
    least one byte at once and never more than it was asked for. The socket case rests
    only on the interface to the network stack. *)
Theorem epollin_read_returns y key fd buf len i s :
  2 < fd < u64_modulus → Z.testbit (epoll_probe (cur s) fd i s).1 0 = true → 128 ≤ len →
  0 ≤ buf → validate_user_ptr buf (Z.min len 65536) = true →
  (∀ rh, FD_TABLE (sfds s) !! (cur s, fd) = Some (RamFileHandle rh) → 0 ≤ h_pos rh) →
  ∃ n s', sys_read y key fd buf len s = Ret (n, s') ∧ 0 < n ≤ len.
Proof.
  intros Hfd Hin Hlen Hbuf Hv Hpos. unfold epoll_probe in Hin.
  rewrite u64_small, decide_False in Hin by (unfold is_u64; lia).
  destruct (FD_TABLE (sfds s) !! (cur s, fd)) as [h|] eqn:Hk; [|done]. cbn [fst] in Hin.
  apply testbit_in, andb_true_iff in Hin as [_ Hav]. apply bool_decide_eq_true in Hav.
  destruct (available_reads h (Z.to_nat (Z.min len 65536)) s) as (b & h' & s1 & Hr & Hne & Hb); [done|lia|naive_solver|].
  unfold sys_read. rewrite decide_False, Hv, decide_False, Hk, Hr by lia. cbn [negb res_bind].
  eexists _, _. split; [done|]. destruct b; [done|]. cbn [length] in *. lia.
Qed.

(** The two buffer sizes of a socket share one field. *)
Lemma sndbuf_sets_rcvbuf v o :
  set_option SOL_SOCKET 7 v o = set_option SOL_SOCKET 8 v o ∧
  o_snd_buf (set_option SOL_SOCKET 7 v o) = o_snd_buf o ∧
  get_option SOL_SOCKET 7 (Some (set_option SOL_SOCKET 7 v o)) = Z.max v 0 ∧
  get_option SOL_SOCKET 7 None = 87380.
Proof. done. Qed.
End readiness.

(** ** Sockets of the network stack *)

Section stack.
Context (h : Hints) (env_now : nat → Z) (env_rx : nat → list (list Z)).
#[local] Existing Instance net_sockets.

(** Bytes reach the program in order. A read from a connected socket copies the
    first bytes of the connection's receive buffer, as many as fit, to the caller's
    memory and removes exactly those from the buffer: with the stream property of the
    buffer, the program sees the peer's bytes in order. *)
Theorem socket_read_correct y key_ready fd buf len (s : Sys NetState) key sk :
  fd ≠ 0 → 0 < len → 0 ≤ buf → validate_user_ptr buf (Z.min len 65536) = true →
  FD_TABLE (sfds s) !! (cur s, fd) = Some (ConnectedSocketHandle key) →
  SOCKETS (tcp (netst s)) !! key = Some sk →
  let n := (Z.to_nat (Z.min len 65536) `min` length (rcv_buf sk))%nat in
  ∃ s', sys_read (SL := net_sockets h env_now env_rx) y key_ready fd buf len s = Ret (Z.of_nat n, s') ∧
    uread buf n s' = take n (rcv_buf sk) ∧
    SOCKETS (tcp (netst s')) !! key = Some (set_rcv_buf (drop n (rcv_buf sk)) sk) ∧
    ∀ key', key' ≠ key → SOCKETS (tcp (netst s')) !! key' = SOCKETS (tcp (netst s)) !! key'.
Proof.
  intros Hfd Hlen Hbuf Hv Hk Hs n. unfold sys_read. rewrite decide_False, Hv, decide_False, Hk by lia.
  cbn [negb read_handle]. change (@sl_recv _ _ key ?m ?t) with (sock_recv key m t). unfold sock_recv, recv. rewrite Hs.
  cbn [res_bind]. apply validated in Hv; [|lia..].
  assert (Hl : length (take n (rcv_buf sk)) = n) by (rewrite length_take; lia).
  change (Z.to_nat (Z.min len 65536) `min` length (rcv_buf sk))%nat with n.
  eexists. split; [by rewrite Hl|]. split_and!.
  - rewrite <- Hl at 1. apply uread_uwrite; [done|]. unfold USER_END, u64_modulus in *. lia.
  - cbn. apply lookup_insert_eq.
  - intros key' Hne. cbn. by apply lookup_insert_ne.
Qed.
End stack.

(** ** Concrete instances *)

(** The read end of a pipe is watched, edge-triggered; the pipe fills. *)
Definition demo_inst : gmap Z EpollInterest := {[ 3 := mkInterest EPOLLIN 42 true false ]}.

Lemma epoll_edges_correct_witness :
  (EPOLLIN, 42) ∈ (epoll_scan 4 2 (btree_list (≤)
     (apply_edges (epoll_scan 4 2 (btree_list (≤) demo_inst) demo_piped).2 demo_inst)) demo_full).1.
Proof.
  apply (epoll_edges_correct 2 demo_inst 4 demo_piped demo_full (EPOLLIN, 42)); [vm_compute; lia|].
  exists 3, (mkInterest EPOLLIN 42 true false). split_and!; vm_compute; reflexivity.
Defined.

(** A millisecond passes at each turn. *)
Definition tick_yield (s : Sys unit) : Sys unit := upd_kern (λ k, set_uptime (UPTIME_MS k + 1) k) s.
Definition demo_watching : Sys unit :=
  upd_fds (λ f, set_epolls {[ (2, 5) := demo_inst ]} f) demo_piped.

Lemma epoll_wait_correct_witness :
  ∃ n s1 s', sys_epoll_wait tick_yield 10 5 0x3000 4 10 demo_watching = Ret (n, s') ∧
    idles tick_yield 2 5 4 demo_watching s1.
Proof.
  destruct (epoll_wait_correct tick_yield 5 0x3000 4 10 demo_watching) as (n & s1 & s' & E & Hi & _);
    [intros s; unfold uptime_ms; cbn; lia|lia|lia|vm_compute; reflexivity|lia|vm_compute; congruence|vm_compute; reflexivity|].
  exists n, s1, s'. split; [exact E|exact Hi].
Defined.

(** A stack that accepts every connection from local port 49152. *)
#[export] Instance open_sockets : SocketControl unit :=
  {| sc_connect := λ _ _ _ _ n, Ret (Some 49152, n); sc_listen := λ _ n, n; sc_accept := λ _ n, (None, n);
     sc_close := λ _ n, Ret n; sc_our_ip := λ _, [10; 0; 2; 15] |}.

Definition demo_dialling : Sys unit :=
  (sys_socket AF_INET SOCK_STREAM (uwrite 0x2000 [2; 0; 0; 80; 10; 0; 2; 2] demo_sys)).2.

Lemma connect_address_reversed_witness :
  ∃ s', sys_connect 3 0x2000 16 demo_dialling = Ret (0, s') ∧
    FD_TABLE (sfds s') !! (2, 3) = Some (ConnectedSocketHandle (mkSockKey 49152 [2; 2; 0; 10] 80)).
Proof.
  destruct (connect_address_reversed 3 0x2000 16 demo_dialling SocketHandle [10; 0; 2; 2] 80) as [H _];
    [lia|lia|vm_compute; reflexivity|vm_compute; reflexivity|vm_compute; reflexivity|vm_compute; reflexivity
    |repeat constructor; unfold byte_ok; lia|vm_compute; reflexivity|].
  destruct (H 49152 tt) as (s' & E & Hf & _); [vm_compute; reflexivity..|]. exists s'. split; [exact E|exact Hf].
Defined.

Lemma epollin_read_returns_witness :
  ∃ n s', sys_read (λ s, s) None 3 0x3000 128 demo_full = Ret (n, s') ∧ 0 < n ≤ 128.
Proof.
  apply (epollin_read_returns (λ s, s) None 3 0x3000 128 (mkInterest EPOLLIN 42 true false) demo_full);
    [unfold u64_modulus; lia|vm_compute; reflexivity|lia|lia|vm_compute; reflexivity|].
  intros rh E. vm_compute in E. discriminate.
Defined.

(** Five bytes wait on a connection that descriptor 3 names. *)
Definition demo_sock_sys : Sys NetState :=
  mkSys (kern demo_sys) no_users demo_fs
    (set_tcp (set_sockets {[ demo_key := set_rcv_buf demo_stream (demo_sock Established 2) ]} (demo_tcp Established 2)) boot_state)
    ∅ (set_fd_table {[ (2, 3) := ConnectedSocketHandle demo_key ]} no_fds) (futexes demo_sys) (vmas demo_sys)
    (percpu demo_sys) no_isolation.

Lemma socket_read_correct_witness :
  ∃ s', sys_read (SL := net_sockets (TcpProps.demo_hints false) (λ _, 0) (λ _, [])) (λ s, s) None 3 0x3000 3 demo_sock_sys
          = Ret (3, s') ∧ uread 0x3000 3 s' = [1; 2; 3].
Proof.
  destruct (socket_read_correct (TcpProps.demo_hints false) (λ _, 0) (λ _, []) (λ s, s) None 3 0x3000 3 demo_sock_sys demo_key
    (set_rcv_buf demo_stream (demo_sock Established 2))) as (s' & E & Hr & _); [lia|lia|lia|vm_compute; reflexivity..|].
  exists s'. split; [exact E|exact Hr].
Defined.
