(* ===== verification/Elf.v ===== *)
(** The ELF loader and the module relocator: [kernel/src/elf.rs].

    A file is a list of bytes; offsets and sizes are [usize]. A structure read
    through a raw pointer outside the slice is undefined behaviour in the source and
    [Panic] here, like an index out of range. Text is kept as its bytes. *)
From stdpp Require Import base numbers list.
From S2P Require Import Prelude Bytes SemGate.

(** ** Constants *)

Definition ELFMAG : list Z := [0x7f; 69; 76; 70].
Definition ELFCLASS64 : Z := 2.
Definition ELFDATA2LSB : Z := 1.
Definition ET_REL : Z := 1.
Definition ET_EXEC : Z := 2.
Definition ET_DYN : Z := 3.
Definition EM_X86_64 : Z := 62.
Definition PT_LOAD : Z := 1.
Definition PT_INTERP : Z := 3.
Definition PT_PHDR : Z := 6.
Definition PF_X : Z := 1.
Definition PF_W : Z := 2.

(** ** Structures *)

Record Elf64Ehdr := mkEhdr {
  e_ident : list Z; e_type : Z; e_machine : Z; e_version : Z; e_entry : Z; e_phoff : Z; e_shoff : Z;
  e_flags : Z; e_ehsize : Z; e_phentsize : Z; e_phnum : Z; e_shentsize : Z; e_shnum : Z; e_shstrndx : Z
}.
Record Elf64Phdr := mkPhdr {
  p_type : Z; p_flags : Z; p_offset : Z; p_vaddr : Z; p_paddr : Z; p_filesz : Z; p_memsz : Z; p_align : Z
}.
Record Elf64Shdr := mkShdr {
  sh_name : Z; sh_type : Z; sh_flags : Z; sh_addr : Z; sh_offset : Z; sh_size : Z; sh_link : Z; sh_info : Z;
  sh_addralign : Z; sh_entsize : Z
}.
Record Elf64Sym := mkSym { st_name : Z; st_info : Z; st_other : Z; st_shndx : Z; st_value : Z; st_size : Z }.
Record Elf64Rela := mkRela { r_offset : Z; r_info : Z; r_addend : Z }.

(** [core::mem::size_of]. *)
Definition EHDR_SIZE : nat := 64.
Definition PHDR_SIZE : nat := 56.
Definition SHDR_SIZE : nat := 64.
Definition SYM_SIZE : nat := 24.
Definition RELA_SIZE : nat := 24.

(** The fields at their [repr(C)] offsets. *)
Definition field (b : list Z) (off n : nat) : Z := from_le (take n (drop off b)).
Definition ehdr_of (b : list Z) : Elf64Ehdr :=
  mkEhdr (take 16 b) (field b 16 2) (field b 18 2) (field b 20 4) (field b 24 8) (field b 32 8) (field b 40 8)
    (field b 48 4) (field b 52 2) (field b 54 2) (field b 56 2) (field b 58 2) (field b 60 2) (field b 62 2).
Definition phdr_of (b : list Z) : Elf64Phdr :=
  mkPhdr (field b 0 4) (field b 4 4) (field b 8 8) (field b 16 8) (field b 24 8) (field b 32 8) (field b 40 8)
    (field b 48 8).
Definition shdr_of (b : list Z) : Elf64Shdr :=
  mkShdr (field b 0 4) (field b 4 4) (field b 8 8) (field b 16 8) (field b 24 8) (field b 32 8) (field b 40 4)
    (field b 44 4) (field b 48 8) (field b 56 8).
Definition sym_of (b : list Z) : Elf64Sym :=
  mkSym (field b 0 4) (field b 4 1) (field b 5 1) (field b 6 2) (field b 8 8) (field b 16 8).
Definition rela_of (b : list Z) : Elf64Rela :=
  mkRela (field b 0 8) (field b 8 8) (as_i64 (field b 16 8)).

Definition sym_idx (r : Elf64Rela) : Z := Z.shiftr (r_info r) 32.
Definition rel_type (r : Elf64Rela) : Z := Z.land (r_info r) 0xFFFFFFFF.

Definition zlen (l : list Z) : Z := Z.of_nat (length l).
(** [&l[a..b]] with [usize] ends. *)
Definition slice64 (a b : Z) (l : list Z) : res (list Z) :=
  if decide (a ≤ b ∧ b ≤ zlen l) then Ret (take (Z.to_nat (b - a)) (drop (Z.to_nat a) l)) else Panic.
(** [&*(data.as_ptr().add(off) as *const T)] with [n = size_of::<T>()]. *)
Definition struct_at (off : Z) (n : nat) (data : list Z) : res (list Z) := slice64 off (off + Z.of_nat n) data.

Inductive ElfError := NotElf | BadArch | NotExecutable | BadPhdrs | SegmentOutOfBounds | NeedsDynLinker | Truncated.

Record LoadedSegment := mkSegment { s_vaddr : Z; s_memsz : Z; s_data : list Z; s_pflags : Z }.
Record ElfImage := mkImage {
  entry : Z; segments : list LoadedSegment; interp : option (list Z); phdr_vaddr : option Z; phnum : Z
}.

(** ** Executables *)

(** The bytes before the first zero. *)
Fixpoint before_nul (l : list Z) : list Z :=
  match l with
  | [] => []
  | b :: l' => if decide (b = 0) then [] else b :: before_nul l'
  end.

(** What the loop over the program headers has collected. *)
Record Collected := mkCollected { c_segments : list LoadedSegment; c_interp : option (list Z); c_phdr : option Z }.

Definition parse_phdr (data : list Z) (p : Elf64Phdr) (c : Collected) : res (Collected + ElfError) :=
  if decide (p_type p = PT_INTERP) then
    let start := p_offset p in
    let end_ := sat_add64 start (p_filesz p) in
    if decide (end_ ≤ zlen data) then
      let! raw := slice64 start end_ data in
      let path := before_nul raw in
      Ret (inl (match utf8_decode path with
                | Some _ => mkCollected (c_segments c) (Some path) (c_phdr c)
                | None => c
                end))
    else Ret (inl c)
  else if decide (p_type p = PT_PHDR) then
    Ret (inl (mkCollected (c_segments c) (c_interp c) (Some (p_vaddr p))))
  else if decide (p_type p = PT_LOAD) then
    let file_end := p_offset p + p_filesz p in
    if decide (u64_modulus ≤ file_end) then Ret (inr SegmentOutOfBounds)
    else if decide (zlen data < file_end) then Ret (inr SegmentOutOfBounds)
    else if decide (p_memsz p < p_filesz p) then Ret (inr SegmentOutOfBounds) else
    let! seg_data := slice64 (p_offset p) file_end data in
    Ret (inl (mkCollected (c_segments c ++ [mkSegment (p_vaddr p) (p_memsz p) seg_data (p_flags p)])
                (c_interp c) (c_phdr c)))
  else Ret (inl c).

(** [for i in 0..e_phnum], from offset [off] on. *)
Fixpoint parse_phdrs (n : nat) (off : Z) (data : list Z) (c : Collected) : res (Collected + ElfError) :=
  match n with
  | O => Ret (inl c)
  | S n' =>
      let! b := struct_at off PHDR_SIZE data in
      let! r := parse_phdr data (phdr_of b) c in
      match r with
      | inl c => parse_phdrs n' (add64 off (Z.of_nat PHDR_SIZE)) data c
      | inr e => Ret (inr e)
      end
  end.

(** The checks on the header, in order. *)
Definition check_ehdr (h : Elf64Ehdr) (len : Z) : option ElfError :=
  if decide (take 4 (e_ident h) ≠ ELFMAG) then Some NotElf
  else if decide (e_ident h !! 4%nat ≠ Some ELFCLASS64) then Some NotElf
  else if decide (e_ident h !! 5%nat ≠ Some ELFDATA2LSB) then Some BadArch
  else if decide (e_ident h !! 6%nat ≠ Some 1) then Some NotElf
  else if decide (e_machine h ≠ EM_X86_64) then Some BadArch
  else if decide (e_type h ≠ ET_EXEC ∧ e_type h ≠ ET_DYN) then Some NotExecutable
  else if decide (e_phentsize h ≠ Z.of_nat PHDR_SIZE) then Some BadPhdrs
  else let phdrs_end := e_phoff h + e_phnum h * Z.of_nat PHDR_SIZE in
       if decide (u64_modulus ≤ phdrs_end) then Some BadPhdrs
       else if decide (len < phdrs_end) then Some BadPhdrs
       else None.

Definition parse (data : list Z) : res (ElfImage + ElfError) :=
  if decide (zlen data < Z.of_nat EHDR_SIZE) then Ret (inr Truncated) else
  let! b := struct_at 0 EHDR_SIZE data in
  let ehdr := ehdr_of b in
  match check_ehdr ehdr (zlen data) with
  | Some e => Ret (inr e)
  | None =>
      let! r := parse_phdrs (Z.to_nat (e_phnum ehdr)) (e_phoff ehdr) data (mkCollected [] None None) in
      Ret (match r with
           | inl c => inl (mkImage (e_entry ehdr) (c_segments c) (c_interp c) (c_phdr c) (e_phnum ehdr))
           | inr e => inr e
           end)
  end.

(** ** The dynamic linker *)

Definition LDSO_LOAD_BIAS : Z := 0x7F0000000000.

Fixpoint dyn_phdrs (n : nat) (off : Z) (data : list Z) (acc : list LoadedSegment)
    : res (option (list LoadedSegment)) :=
  match n with
  | O => Ret (Some acc)
  | S n' =>
      let! b := struct_at off PHDR_SIZE data in
      let p := phdr_of b in
      let next := add64 off (Z.of_nat PHDR_SIZE) in
      if decide (p_type p ≠ PT_LOAD) then dyn_phdrs n' next data acc else
      let fs := p_offset p in
      let fe := add64 fs (p_filesz p) in
      if decide (zlen data < fe) then Ret None else
      let! d := slice64 fs fe data in
      dyn_phdrs n' next data (acc ++ [mkSegment (p_vaddr p) (p_memsz p) d (p_flags p)])
  end.

Definition parse_dyn_so (data : list Z) : res (option ElfImage) :=
  if decide (zlen data < Z.of_nat EHDR_SIZE) then Ret None else
  let! b := struct_at 0 EHDR_SIZE data in
  let ehdr := ehdr_of b in
  if decide (take 4 (e_ident ehdr) ≠ ELFMAG) then Ret None
  else if decide (e_ident ehdr !! 4%nat ≠ Some ELFCLASS64) then Ret None
  else if decide (e_machine ehdr ≠ EM_X86_64) then Ret None else
  let ph_end := add64 (e_phoff ehdr) (e_phnum ehdr * Z.of_nat PHDR_SIZE) in
  if decide (zlen data < ph_end) then Ret None else
  let! r := dyn_phdrs (Z.to_nat (e_phnum ehdr)) (e_phoff ehdr) data [] in
  Ret ((λ segs, mkImage (e_entry ehdr) segs None None (e_phnum ehdr)) <$> r).
