(* ===== verification/Reloc.v ===== *)
(** The relocation engine for kernel modules: the second half of
    [kernel/src/elf.rs].

    The addresses of the kernel's exported functions are fixed when the kernel is
    linked: [kernel_addr] gives them. *)
From stdpp Require Import base numbers list strings.
From S2P Require Import Prelude Bytes SemGate Elf.

Definition SHT_NULL : Z := 0.
Definition SHT_SYMTAB : Z := 2.
Definition SHT_RELA : Z := 4.
Definition SHT_NOBITS : Z := 8.
Definition R_X86_64_NONE : Z := 0.
Definition R_X86_64_64 : Z := 1.
Definition R_X86_64_PC32 : Z := 2.
Definition R_X86_64_PLT32 : Z := 4.
Definition R_X86_64_32 : Z := 10.
Definition R_X86_64_32S : Z := 11.

Inductive RelocError :=
| NotRelocatable | BadSectionTable | MissingSymbol (name : list Z) | Overflow32 | UnsupportedReloc (t : Z) | BadStrtab.

Definition I32_MIN : Z := - 2 ^ 31.
Definition I32_MAX : Z := 2 ^ 31 - 1.
Definition U32_MAX : Z := u32_modulus - 1.

(** The bytes of an ASCII literal. *)
Definition ascii_bytes (s : string) : list Z :=
  (λ a, Z.of_N (Ascii.N_of_ascii a)) <$> String.list_ascii_of_string s.

(** Names as text: [core::str::from_utf8(..).unwrap_or("")]. *)
Definition read_str (strtab : list Z) (off : Z) : list Z :=
  if decide (zlen strtab ≤ off) then [] else
  let name := before_nul (drop (Z.to_nat off) strtab) in
  match utf8_decode name with Some _ => name | None => [] end.

Definition kernel_exports : list string :=
  ["scheduler_uptime_ms"; "scheduler_current_pid"; "scheduler_send_signal"; "vfs_write_file"; "vfs_read_file";
   "entropy_fill"; "entropy_stir"].

(** ** Patching *)

(** [if off + n > buf.len() { return Ok(()) }] and the copy. *)
Definition patch (buf : list Z) (off : Z) (b : list Z) : res (list Z) :=
  let end_ := add64 off (zlen b) in
  if decide (zlen buf < end_) then Ret buf
  else if decide (off ≤ end_) then write_at (Z.to_nat off) b buf else Panic.

Definition apply_reloc (buf : list Z) (off rel_type sym pc addend : Z) : res (list Z + RelocError) :=
  let ok b := let! buf := patch buf off b in Ret (inl buf) in
  if decide (rel_type = R_X86_64_NONE) then Ret (inl buf)
  else if decide (rel_type = R_X86_64_64) then ok (to_le 8 (add64 sym addend))
  else if decide (rel_type = R_X86_64_PC32 ∨ rel_type = R_X86_64_PLT32) then
    let val := as_i64 (u64 (sym + addend - pc)) in
    if decide (I32_MAX < val ∨ val < I32_MIN) then Ret (inr Overflow32) else ok (to_le 4 (u32 val))
  else if decide (rel_type = R_X86_64_32) then
    let val := add64 sym addend in
    if decide (U32_MAX < val) then Ret (inr Overflow32) else ok (to_le 4 val)
  else if decide (rel_type = R_X86_64_32S) then
    let val := as_i64 (u64 (sym + addend)) in
    if decide (I32_MAX < val ∨ val < I32_MIN) then Ret (inr Overflow32) else ok (to_le 4 (u32 val))
  else Ret (inr (UnsupportedReloc rel_type)).

(** ** Sections and symbols *)

Definition shdr_at (data : list Z) (sh_off idx : Z) : res (Elf64Shdr + RelocError) :=
  let off := add64 sh_off (idx * Z.of_nat SHDR_SIZE) in
  if decide (zlen data < add64 off (Z.of_nat SHDR_SIZE)) then Ret (inr BadSectionTable) else
  let! b := struct_at off SHDR_SIZE data in Ret (inl (shdr_of b)).

(** [shdr_at(..)?] *)
Definition res_try {A B E} (r : res (A + E)) (k : A → res (B + E)) : res (B + E) :=
  let! x := r in match x with inl a => k a | inr e => Ret (inr e) end.

(** The addresses given to the sections, the next free address, the buffer. *)
Record Layout := mkLayout { section_addrs : list Z; cursor : Z; l_buf : list Z }.

Definition place_section (data : list Z) (load_addr : Z) (sh : Elf64Shdr) (l : Layout) : res Layout :=
  if decide (sh_type sh = SHT_NOBITS ∨ sh_type sh = SHT_NULL) then
    Ret (mkLayout (section_addrs l ++ [cursor l]) (cursor l) (l_buf l))
  else if decide (0 < sh_size sh) then
    let align := Z.max (sh_addralign sh) 1 in
    let cur := Z.land (add64 (cursor l) (align - 1)) (not64 (align - 1)) in
    let off := sh_offset sh in
    let sz := sh_size sh in
    let! buf :=
      if decide (add64 off sz ≤ zlen data) then
        let buf_off := sub64 cur load_addr in
        if decide (add64 buf_off sz ≤ zlen (l_buf l)) then
          let! src := slice64 off (add64 off sz) data in
          let! _ := slice64 buf_off (add64 buf_off sz) (l_buf l) in
          write_at (Z.to_nat buf_off) src (l_buf l)
        else Ret (l_buf l)
      else Ret (l_buf l) in
    Ret (mkLayout (section_addrs l ++ [cur]) (add64 cur sz) buf)
  else Ret (mkLayout (section_addrs l ++ [cursor l]) (cursor l) (l_buf l)).

(** [for i in 0..sh_count]. *)
Fixpoint place_sections (n : nat) (i : Z) (data : list Z) (sh_off load_addr : Z) (l : Layout)
    : res (Layout + RelocError) :=
  match n with
  | O => Ret (inl l)
  | S n' =>
      res_try (shdr_at data sh_off i) (λ sh,
        let! l := place_section data load_addr sh l in
        place_sections n' (i + 1) data sh_off load_addr l)
  end.

Fixpoint find_section (n : nat) (i t : Z) (data : list Z) (sh_off : Z) : res (option Elf64Shdr + RelocError) :=
  match n with
  | O => Ret (inl None)
  | S n' =>
      res_try (shdr_at data sh_off i) (λ sh,
        if decide (sh_type sh = t) then Ret (inl (Some sh)) else find_section n' (i + 1) t data sh_off)
  end.

Definition find_symtab (data : list Z) (sh_off sh_count : Z) : res ((Elf64Shdr * Elf64Shdr) + RelocError) :=
  res_try (find_section (Z.to_nat sh_count) 0 SHT_SYMTAB data sh_off) (λ o,
    match o with
    | None => Ret (inr BadSectionTable)
    | Some symtab =>
        let! r := shdr_at data sh_off (sh_link symtab) in
        match r with
        | inl strtab => Ret (inl (symtab, strtab))
        | inr _ => Ret (inr BadStrtab)
        end
    end).

(** [Vec::with_capacity(count)] panics when the bytes exceed [isize::MAX]. *)
Fixpoint read_symbols_loop (fuel : nat) (i count off : Z) (data : list Z) (acc : list Elf64Sym) : res (list Elf64Sym) :=
  if decide (count ≤ i) then Ret acc else
  match fuel with
  | O => OutOfFuel
  | S fuel' =>
      let p := add64 off (i * Z.of_nat SYM_SIZE) in
      if decide (zlen data < add64 p (Z.of_nat SYM_SIZE)) then Ret acc else
      let! b := struct_at p SYM_SIZE data in
      read_symbols_loop fuel' (i + 1) count off data (acc ++ [sym_of b])
  end.
Definition read_symbols (data : list Z) (symtab : Elf64Shdr) : res (list Elf64Sym) :=
  let count := sh_size symtab / Z.of_nat SYM_SIZE in
  if decide (2 ^ 63 ≤ count * Z.of_nat SYM_SIZE) then Panic
  else read_symbols_loop (S (length data)) 0 count (sh_offset symtab) data [].

Fixpoint find_symbol (strtab : list Z) (syms : list Elf64Sym) (name : list Z) (addrs : list Z) : option Z :=
  match syms with
  | [] => None
  | s :: syms' =>
      match (if decide (read_str strtab (st_name s) = name) then addrs !! Z.to_nat (st_shndx s) else None) with
      | Some a => Some (add64 a (st_value s))
      | None => find_symbol strtab syms' name addrs
      end
  end.

Section relocation.
Context (kernel_addr : string → Z).

Definition resolve_kernel_symbol (name : list Z) : option Z :=
  kernel_addr <$> find (λ s, bool_decide (ascii_bytes s = name)) kernel_exports.

(** One entry: [None] is [continue]. *)
Definition symbol_value (strtab : list Z) (sh_count : Z) (addrs : list Z) (s : Elf64Sym) : option Z + RelocError :=
  if decide (st_shndx s = 0) then
    match resolve_kernel_symbol (read_str strtab (st_name s)) with
    | Some a => inl (Some a)
    | None => inr (MissingSymbol (read_str strtab (st_name s)))
    end
  else if decide (st_shndx s < sh_count) then
    inl ((λ a, add64 a (st_value s)) <$> addrs !! Z.to_nat (st_shndx s))
  else inl None.

Definition apply_rela (strtab : list Z) (syms : list Elf64Sym) (sh_count : Z) (addrs : list Z)
    (target_addr load_addr : Z) (r : Elf64Rela) (buf : list Z) : res (list Z + RelocError) :=
  match syms !! Z.to_nat (sym_idx r) with
  | None => Ret (inl buf)
  | Some s =>
      match symbol_value strtab sh_count addrs s with
      | inr e => Ret (inr e)
      | inl None => Ret (inl buf)
      | inl (Some sym_val) =>
          let patch_va := add64 target_addr (r_offset r) in
          let patch_off := sub64 patch_va load_addr in
          apply_reloc buf patch_off (rel_type r) sym_val patch_va (r_addend r)
      end
  end.

(** [for r in 0..rela_count]: the entries are read without a bounds check. *)
Fixpoint rela_loop (fuel : nat) (i count rela_off : Z) (data strtab : list Z) (syms : list Elf64Sym)
    (sh_count : Z) (addrs : list Z) (target_addr load_addr : Z) (buf : list Z) : res (list Z + RelocError) :=
  if decide (count ≤ i) then Ret (inl buf) else
  match fuel with
  | O => OutOfFuel
  | S fuel' =>
      let! b := struct_at (add64 rela_off (i * Z.of_nat RELA_SIZE)) RELA_SIZE data in
      res_try (apply_rela strtab syms sh_count addrs target_addr load_addr (rela_of b) buf) (λ buf,
        rela_loop fuel' (i + 1) count rela_off data strtab syms sh_count addrs target_addr load_addr buf)
  end.

Fixpoint apply_sections (n : nat) (i : Z) (data strtab : list Z) (syms : list Elf64Sym) (sh_off sh_count : Z)
    (addrs : list Z) (load_addr : Z) (buf : list Z) : res (list Z + RelocError) :=
  match n with
  | O => Ret (inl buf)
  | S n' =>
      res_try (shdr_at data sh_off i) (λ sh,
        let next := apply_sections n' (i + 1) data strtab syms sh_off sh_count addrs load_addr in
        if decide (sh_type sh ≠ SHT_RELA ∨ sh_count ≤ sh_info sh) then next buf else
        let! target_addr := index addrs (Z.to_nat (sh_info sh)) in
        res_try (rela_loop (S (length data)) 0 (sh_size sh / Z.of_nat RELA_SIZE) (sh_offset sh) data strtab syms
                   sh_count addrs target_addr load_addr buf) next)
  end.

Definition relocate_module (data buf : list Z) (load_addr : Z) : res (Z * list Z + RelocError) :=
  if decide (zlen data < Z.of_nat EHDR_SIZE) then Ret (inr NotRelocatable) else
  let! b := struct_at 0 EHDR_SIZE data in
  let ehdr := ehdr_of b in
  if decide (take 4 (e_ident ehdr) ≠ ELFMAG ∨ e_type ehdr ≠ ET_REL) then Ret (inr NotRelocatable) else
  let sh_off := e_shoff ehdr in
  let sh_count := e_shnum ehdr in
  if decide (zlen data < add64 sh_off (sh_count * Z.of_nat SHDR_SIZE)) then Ret (inr BadSectionTable) else
  res_try (place_sections (Z.to_nat sh_count) 0 data sh_off load_addr (mkLayout [] load_addr buf)) (λ l,
  res_try (find_symtab data sh_off sh_count) (λ '(symtab, strtab_sh),
    let! syms := read_symbols data symtab in
    let strtab_end := add64 (sh_offset strtab_sh) (sh_size strtab_sh) in
    let! strtab := if decide (strtab_end ≤ zlen data) then slice64 (sh_offset strtab_sh) strtab_end data else Ret [] in
    res_try (apply_sections (Z.to_nat sh_count) 0 data strtab syms sh_off sh_count (section_addrs l) load_addr (l_buf l))
      (λ buf,
        let e := default load_addr (find_symbol strtab syms (ascii_bytes "module_init") (section_addrs l)) in
        Ret (inl (e, buf))))).
End relocation.
