(* ===== verification/Modules.v ===== *)
(** Kernel modules: [kernel/src/modules.rs].

    A [str] is the list of its code points. What [module_init] does when it is called
    is not part of the kernel: [load_module] says which address is called. *)
From stdpp Require Import base numbers list gmap strings.
From S2P Require Import Prelude Bytes SemGate F32 Anomaly Elf Reloc.

Inductive ModuleState := Active | Removed.
Record KernelModule := mkModule {
  km_name : list Z; km_state : ModuleState; km_size : Z; ai_risk : f32; load_time_ms : Z; entry_addr : Z; relocated : bool
}.
Inductive ModError := NotAnElf | RiskTooHigh | AlreadyLoaded | NotFound.

(** ** The validator *)

Definition bump (c risk : f32) : f32 := fmin (fadd risk c) f1.

(** [for w in data.windows(n)]. *)
Fixpoint scan_windows (n : nat) (hit : list Z → bool) (c : f32) (data : list Z) (risk : f32) : f32 :=
  match data with
  | [] => risk
  | _ :: data' =>
      if decide (length data < n)%nat then risk
      else scan_windows n hit c data' (if hit (take n data) then bump c risk else risk)
  end.

Definition cr3_write (w : list Z) : bool :=
  match w with [a; b; c] => bool_decide (a = 0x0F ∧ b = 0x22 ∧ Z.land c 0xF8 = 0xD8) | _ => false end.
Definition wrmsr (w : list Z) : bool := bool_decide (w = [0x0F; 0x30]).
Definition invlpg (w : list Z) : bool := bool_decide (w = [0x0F; 0x01]).
Definition count_byte (b : Z) (data : list Z) : nat := length (filter (λ x, x = b) data).

Definition module_risk (sys_anom : f32) (data : list Z) : f32 :=
  let risk := scan_windows 3 cr3_write (f32_lit 30 100) data f0 in
  let risk := scan_windows 2 wrmsr (f32_lit 20 100) data risk in
  let risk := if decide (count_byte 0xFB data + 2 < count_byte 0xFA data)%nat then bump (f32_lit 15 100) risk else risk in
  let risk := scan_windows 2 invlpg (f32_lit 10 100) data risk in
  bump (fmul sys_anom (f32_lit 15 100)) risk.

Definition ai_validate (sys_anom : f32) (data : list Z) : f32 + ModError :=
  if decide (length data < 64 ∨ take 4 data ≠ ELFMAG)%nat then inr NotAnElf else
  let risk := module_risk sys_anom data in
  if flt (f32_lit 80 100) risk then inr RiskTooHigh else inl risk.

(** ** Names *)

(** [char::is_whitespace]. *)
Definition is_whitespace (c : Z) : bool :=
  bool_decide (9 ≤ c ≤ 13 ∨ c = 32 ∨ c = 0x85 ∨ c = 0xA0 ∨ c = 0x1680 ∨ 0x2000 ≤ c ≤ 0x200A ∨ c = 0x2028 ∨ c = 0x2029
               ∨ c = 0x202F ∨ c = 0x205F ∨ c = 0x3000).
Fixpoint split_whitespace (tok : list Z) (l : list Z) : list (list Z) :=
  match l with
  | [] => if decide (tok = []) then [] else [tok]
  | c :: l' =>
      if is_whitespace c then (if decide (tok = []) then [] else [tok]) ++ split_whitespace [] l'
      else split_whitespace (tok ++ [c]) l'
  end.
(** [tok.splitn(2, '=')]: the part before, and the part after if there is one. *)
Fixpoint split_eq (l : list Z) : list Z * option (list Z) :=
  match l with
  | [] => ([], None)
  | c :: l' => if decide (c = 61) then ([], Some l') else let (a, b) := split_eq l' in (c :: a, b)
  end.
Definition token_name (tok : list Z) : option (list Z) :=
  let (k, v) := split_eq tok in if decide (k = ascii_bytes "name") then v else None.

(** [{:x}]. *)
Definition hex_digit (d : Z) : Z := if decide (d < 10) then 48 + d else 87 + d.
Fixpoint hex_digits (fuel : nat) (x : Z) (acc : list Z) : list Z :=
  match fuel with
  | O => acc
  | S n => let acc := hex_digit (x mod 16) :: acc in if decide (x / 16 = 0) then acc else hex_digits n (x / 16) acc
  end.
Definition module_name (now : Z) (params : list Z) : list Z :=
  match omap token_name (split_whitespace [] params) with
  | n :: _ => n
  | [] => ascii_bytes "mod_" ++ hex_digits 16 now []
  end.

(** ** Loading *)

(** [usize::next_power_of_two]. *)
Definition next_power_of_two (n : Z) : Z := if decide (n ≤ 1) then 1 else 2 ^ (Z.log2 (n - 1) + 1).

Definition try_relocate (kernel_addr : string → Z) (buf_addr : Z) (data : list Z) : res (Z * bool) :=
  if decide (length data < 18)%nat then Ret (0, false)
  else if decide (from_le (take 2 (drop 16 data)) ≠ 1) then Ret (0, false) else
  let buf_size := Z.max (next_power_of_two (zlen data)) 4096 in
  let! r := relocate_module kernel_addr data (replicate (Z.to_nat buf_size) 0) buf_addr in
  Ret (match r with
       | inl (e, _) => (if decide (e = buf_addr) then 0 else e, true)
       | inr _ => (0, false)
       end).

(** The error or the address called as [module_init], and the table. [now_name] and
    [now_load] are the two readings of the clock. *)
Definition load_module (kernel_addr : string → Z) (sys_anom : f32) (buf_addr now_name now_load : Z)
    (data params : list Z) (mods : gmap (list Z) KernelModule)
    : res ((option Z + ModError) * gmap (list Z) KernelModule) :=
  let name := module_name now_name params in
  if decide (is_Some (mods !! name)) then Ret (inr AlreadyLoaded, mods) else
  match ai_validate sys_anom data with
  | inr e => Ret (inr e, mods)
  | inl risk =>
      let! (entry_addr, relocated) := try_relocate kernel_addr buf_addr data in
      Ret (inl (if relocated && bool_decide (entry_addr ≠ 0) then Some entry_addr else None),
           <[name := mkModule name Active (zlen data) risk now_load entry_addr relocated]> mods)
  end.

Definition remove_module (name : list Z) (mods : gmap (list Z) KernelModule)
    : option ModError * gmap (list Z) KernelModule :=
  match mods !! name with
  | Some _ => (None, delete name mods)
  | None => (Some NotFound, mods)
  end.

Definition module_count (mods : gmap (list Z) KernelModule) : nat := size mods.
