(* ===== verification/ElfProps.v ===== *)
(** Theorems about the ELF loader. *)
From stdpp Require Import base numbers list strings.
From S2P Require Import Prelude Bytes SemGate Elf.

(** ** Reading *)

Lemma slice64_ok a b l :
  0 ≤ a → a ≤ b → b ≤ zlen l → slice64 a b l = Ret (take (Z.to_nat (b - a)) (drop (Z.to_nat a) l)).
Proof. intros. unfold slice64. by rewrite decide_True. Qed.

Lemma struct_at_ok off n data :
  0 ≤ off → off + Z.of_nat n ≤ zlen data → struct_at off n data = Ret (take n (drop (Z.to_nat off) data)).
Proof.
  intros. unfold struct_at. rewrite slice64_ok by lia. do 3 f_equal. lia.
Qed.

Lemma field_range b off n : bytes_ok b → 0 ≤ field b off n < 256 ^ Z.of_nat n.
Proof.
  intros Hb. unfold field. assert (Ht : bytes_ok (take n (drop off b))) by (by apply Forall_take, Forall_drop).
  apply from_le_range in Ht. split; [lia|]. eapply Z.lt_le_trans; [apply Ht|].
  apply Z.pow_le_mono_r; [lia|]. rewrite length_take. lia.
Qed.

(** ** What the loop computes *)

Definition phdrs_from (n : nat) (off : Z) (data : list Z) : list Elf64Phdr :=
  (λ i, phdr_of (take PHDR_SIZE (drop (Z.to_nat off + PHDR_SIZE * i) data))) <$> seq 0 n.

(** A loadable segment that is not in the file, or larger in it than in memory. *)
Definition bad_load (len : Z) (p : Elf64Phdr) : bool :=
  bool_decide (p_type p = PT_LOAD ∧ (len < p_offset p + p_filesz p ∨ p_memsz p < p_filesz p)).
Definition file_part (data : list Z) (p : Elf64Phdr) : list Z :=
  take (Z.to_nat (p_filesz p)) (drop (Z.to_nat (p_offset p)) data).
Definition load_segment (data : list Z) (p : Elf64Phdr) : option LoadedSegment :=
  if decide (p_type p = PT_LOAD) then Some (mkSegment (p_vaddr p) (p_memsz p) (file_part data p) (p_flags p)) else None.
Definition interp_path (data : list Z) (p : Elf64Phdr) : option (list Z) :=
  if decide (p_type p = PT_INTERP ∧ p_offset p + p_filesz p ≤ zlen data) then
    let path := before_nul (file_part data p) in
    match utf8_decode path with Some _ => Some path | None => None end
  else None.
Definition phdr_addr (p : Elf64Phdr) : option Z := if decide (p_type p = PT_PHDR) then Some (p_vaddr p) else None.

(** The last of the values found, or the one before. *)
Definition last_of {A B} (f : A → option B) (o : option B) (l : list A) : option B :=
  foldl (λ o x, match f x with Some y => Some y | None => o end) o l.

Definition parse_steps (data : list Z) : ElfImage + ElfError :=
  if decide (zlen data < Z.of_nat EHDR_SIZE) then inr Truncated else
  let h := ehdr_of (take EHDR_SIZE data) in
  match check_ehdr h (zlen data) with
  | Some e => inr e
  | None =>
      let ps := phdrs_from (Z.to_nat (e_phnum h)) (e_phoff h) data in
      if existsb (bad_load (zlen data)) ps then inr SegmentOutOfBounds
      else inl (mkImage (e_entry h) (omap (load_segment data) ps) (last_of (interp_path data) None ps)
                  (last_of phdr_addr None ps) (e_phnum h))
  end.

Definition phdr_ok (p : Elf64Phdr) : Prop :=
  0 ≤ p_offset p < u64_modulus ∧ 0 ≤ p_filesz p < u64_modulus.
Lemma phdr_of_ok b : bytes_ok b → phdr_ok (phdr_of b).
Proof. intros Hb. split; cbn; apply (field_range b _ 8 Hb). Qed.

(** ** One header *)

Lemma file_part_slice data p :
  phdr_ok p → p_offset p + p_filesz p ≤ zlen data →
  slice64 (p_offset p) (p_offset p + p_filesz p) data = Ret (file_part data p).
Proof.
  intros [Ho Hf] Hl. rewrite slice64_ok by lia. unfold file_part. do 3 f_equal. lia.
Qed.

Definition collect (data : list Z) (p : Elf64Phdr) (c : Collected) : Collected :=
  mkCollected (c_segments c ++ option_list (load_segment data p)) (last_of (interp_path data) (c_interp c) [p])
    (last_of phdr_addr (c_phdr c) [p]).

Lemma parse_phdr_spec data p c :
  zlen data < u64_modulus - 1 → phdr_ok p →
  parse_phdr data p c = Ret (if bad_load (zlen data) p then inr SegmentOutOfBounds else inl (collect data p c)).
Proof.
  intros Hd Hp. unfold parse_phdr, bad_load, collect, load_segment, last_of, interp_path, phdr_addr. cbn [foldl].
  destruct Hp as [Ho Hf]. destruct (decide (p_type p = PT_INTERP)) as [Hi|Hi].
  - rewrite Hi. rewrite bool_decide_eq_false_2 by (intros [? _]; done). change (PT_INTERP = PT_LOAD) with (3 = 1).
    cbn [decide_rel option_list]. rewrite (decide_False (P := 3 = 1)) by done. cbn [option_list]. rewrite app_nil_r.
    change (PT_INTERP = PT_PHDR) with (3 = 6). rewrite (decide_False (P := 3 = 6)) by done.
    destruct (decide (p_offset p + p_filesz p ≤ zlen data)) as [Hl|Hl].
    + unfold sat_add64. rewrite Z.min_r by lia. rewrite !decide_True by done.
      rewrite file_part_slice by done. cbn [res_bind]. destruct (utf8_decode (before_nul (file_part data p))); by destruct c.
    + rewrite (decide_False (P := _ ∧ _)) by naive_solver.
      rewrite decide_False; [by destruct c|]. unfold sat_add64. lia.
  - rewrite (decide_False (P := _ ∧ p_offset p + p_filesz p ≤ zlen data)) by naive_solver.
    destruct (decide (p_type p = PT_PHDR)) as [Hq|Hq].
    + rewrite bool_decide_eq_false_2 by (intros [? _]; rewrite Hq in *; done).
      rewrite (decide_False (P := p_type p = PT_LOAD)) by (rewrite Hq; done). cbn [option_list]. by rewrite app_nil_r.
    + destruct (decide (p_type p = PT_LOAD)) as [Hl|Hl].
      * destruct (decide (p_memsz p < p_filesz p)) as [Hm|Hm].
        { rewrite bool_decide_eq_true_2 by (split; [done|by right]). by repeat case_decide. }
        destruct (decide (zlen data < p_offset p + p_filesz p)) as [He|He].
        { rewrite bool_decide_eq_true_2 by (split; [done|by left]). by repeat case_decide. }
        rewrite bool_decide_eq_false_2 by (intros [_ [?|?]]; done).
        rewrite decide_False by lia. rewrite file_part_slice by (done || lia). done.
      * rewrite bool_decide_eq_false_2 by (intros [? _]; done). cbn [option_list]. rewrite app_nil_r. by destruct c.
Qed.

Lemma phdrs_from_S n off data :
  0 ≤ off →
  phdrs_from (S n) off data =
    phdr_of (take PHDR_SIZE (drop (Z.to_nat off) data)) :: phdrs_from n (off + Z.of_nat PHDR_SIZE) data.
Proof.
  intros Ho. unfold phdrs_from. rewrite <- cons_seq, fmap_cons. f_equal; [do 3 f_equal; lia|].
  rewrite <- fmap_S_seq, <- list_fmap_compose. apply list_fmap_ext. intros i x _. unfold compose. do 3 f_equal. lia.
Qed.

Lemma omap_cons {A B} (f : A → option B) x (l : list A) : omap f (x :: l) = option_list (f x) ++ omap f l.
Proof. simpl. by destruct (f x). Qed.

Lemma parse_phdrs_spec n off data c :
  bytes_ok data → zlen data < u64_modulus - 1 → 0 ≤ off → off + Z.of_nat (PHDR_SIZE * n) ≤ zlen data →
  parse_phdrs n off data c =
    let ps := phdrs_from n off data in
    Ret (if existsb (bad_load (zlen data)) ps then inr SegmentOutOfBounds
         else inl (mkCollected (c_segments c ++ omap (load_segment data) ps)
                     (last_of (interp_path data) (c_interp c) ps) (last_of phdr_addr (c_phdr c) ps))).
Proof.
  intros Hb Hd. revert off c. induction n as [|n IH]; intros off c Ho Hl.
  - cbn. rewrite app_nil_r. by destruct c.
  - cbn zeta. rewrite phdrs_from_S by done. cbn [parse_phdrs existsb].
    rewrite struct_at_ok by (unfold PHDR_SIZE in *; lia). cbn [res_bind].
    set (p := phdr_of _). rewrite parse_phdr_spec; [|done|by apply phdr_of_ok, Forall_take, Forall_drop].
    cbn [res_bind]. destruct (bad_load (zlen data) p); [done|]. cbn [orb].
    rewrite add64_small by (unfold PHDR_SIZE in *; lia).
    rewrite IH by (unfold PHDR_SIZE in *; lia). cbn zeta. rewrite omap_cons.
    unfold collect. cbn [c_segments c_interp c_phdr]. by rewrite <- app_assoc.
Qed.

Lemma check_ehdr_bounds h len : check_ehdr h len = None → e_phoff h + e_phnum h * Z.of_nat PHDR_SIZE ≤ len.
Proof. unfold check_ehdr. repeat case_decide; try done. lia. Qed.

Lemma parse_spec data :
  bytes_ok data → zlen data < u64_modulus - 1 → parse data = Ret (parse_steps data).
Proof.
  intros Hb Hd. unfold parse, parse_steps. case_decide as Hs; [done|].
  rewrite struct_at_ok by lia. cbn [res_bind]. change (drop (Z.to_nat 0) data) with data.
  set (h := ehdr_of _). destruct (check_ehdr h (zlen data)) as [e|] eqn:Hc; [done|].
  assert (Ht : bytes_ok (take EHDR_SIZE data)) by (by apply Forall_take).
  apply check_ehdr_bounds in Hc.
  assert (Hp : 0 ≤ e_phoff h) by apply (field_range _ 32 8 Ht).
  assert (Hn : 0 ≤ e_phnum h) by apply (field_range _ 56 2 Ht).
  rewrite parse_phdrs_spec by (done || lia). cbn zeta. cbn [res_bind].
  destruct (existsb _ _); [done|]. done.
Qed.

(** ** The reference *)

(** The [n] bytes at [off] as a little-endian number. *)
Definition le (data : list Z) (off n : nat) : Z :=
  foldr (λ i acc, default 0 (data !! (off + i)%nat) + 256 * acc) 0 (seq 0 n).

(** What a file must satisfy, by the bytes of its header, and the error it is refused
    with otherwise. *)
Definition header_rules (data : list Z) : list (bool * ElfError) :=
  [(bool_decide (take 4 data = [0x7f; 0x45; 0x4c; 0x46]), NotElf);
   (bool_decide (data !! 4%nat = Some 2), NotElf);
   (bool_decide (data !! 5%nat = Some 1), BadArch);
   (bool_decide (data !! 6%nat = Some 1), NotElf);
   (bool_decide (le data 18 2 = 62), BadArch);
   (bool_decide (le data 16 2 = 2 ∨ le data 16 2 = 3), NotExecutable);
   (bool_decide (le data 54 2 = 56), BadPhdrs);
   (bool_decide (le data 32 8 + 56 * le data 56 2 ≤ zlen data), BadPhdrs)].
Definition first_failure (rules : list (bool * ElfError)) : option ElfError :=
  foldr (λ r o, if r.1 : bool then o else Some r.2) None rules.

(** The program header at offset [o]. *)
Definition phdr_at (data : list Z) (o : nat) : Elf64Phdr :=
  mkPhdr (le data o 4) (le data (o + 4) 4) (le data (o + 8) 8) (le data (o + 16) 8) (le data (o + 24) 8)
    (le data (o + 32) 8) (le data (o + 40) 8) (le data (o + 48) 8).

(** The path in an interpreter header: up to the first zero, when it is in the file
    and is text. *)
Definition up_to_zero (l : list Z) : list Z := take (from_option fst (length l) (list_find (λ b, b = 0) l)) l.
Definition named_interp (data : list Z) (p : Elf64Phdr) : option (list Z) :=
  if decide (p_type p = 3 ∧ p_offset p + p_filesz p ≤ zlen data) then
    let path := up_to_zero (file_part data p) in if utf8_decode path then Some path else None
  else None.

Definition parse_reference (data : list Z) : ElfImage + ElfError :=
  if decide (zlen data < 64) then inr Truncated else
  match first_failure (header_rules data) with
  | Some e => inr e
  | None =>
      let count := le data 56 2 in
      let ps := (λ i, phdr_at data (Z.to_nat (le data 32 8) + 56 * i)) <$> seq 0 (Z.to_nat count) in
      if existsb (bad_load (zlen data)) ps then inr SegmentOutOfBounds
      else inl (mkImage (le data 24 8) (omap (load_segment data) ps) (last_of (named_interp data) None ps)
                  (last_of phdr_addr None ps) count)
  end.

Lemma le_skip b data off n : le (b :: data) (S off) n = le data off n.
Proof. done. Qed.
Lemma le_first b data n : le (b :: data) 0 (S n) = b + 256 * le data 0 n.
Proof.
  unfold le. cbn [seq foldr]. change (default 0 ((b :: data) !! (0 + 0)%nat)) with b. do 2 f_equal.
  rewrite <- (fmap_S_seq 0 n), foldr_fmap. done.
Qed.

Lemma from_le_cons b l : from_le (b :: l) = b + 256 * from_le l.
Proof. unfold from_le. cbn [rev]. rewrite from_be_snoc. lia. Qed.

Lemma field_le data off n : (off + n ≤ length data)%nat → field data off n = le data off n.
Proof.
  unfold field. revert data. induction off as [|off IH]; intros data Hl.
  - rewrite drop_0. revert data Hl. induction n as [|n IHn]; intros data Hl; [done|].
    destruct data as [|b data]; [cbn in Hl; lia|]. rewrite le_first. cbn [firstn take]. rewrite from_le_cons.
    rewrite IHn by (cbn in Hl; lia). done.
  - destruct data as [|b data]; [cbn in Hl; lia|]. rewrite le_skip. apply IH. cbn in Hl. lia.
Qed.

(** A field of a structure is the bytes of the file. *)
Lemma field_part data o size off n :
  (off + n ≤ size)%nat → (o + size ≤ length data)%nat → field (take size (drop o data)) off n = le data (o + off) n.
Proof.
  intros Hs Hl. rewrite <- field_le by lia. unfold field. f_equal.
  rewrite skipn_firstn_comm, take_take, drop_drop. f_equal. lia.
Qed.

Lemma phdr_of_at data o : (o + PHDR_SIZE ≤ length data)%nat → phdr_of (take PHDR_SIZE (drop o data)) = phdr_at data o.
Proof.
  intros Hl. unfold phdr_of, phdr_at. rewrite !field_part by (done || (unfold PHDR_SIZE; lia)). by rewrite Nat.add_0_r.
Qed.

Lemma before_nul_up_to_zero l : before_nul l = up_to_zero l.
Proof.
  induction l as [|b l IH]; [done|]. unfold up_to_zero in *. cbn [before_nul list_find]. case_decide; [done|].
  rewrite IH. destruct (list_find _ l) as [[i x]|]; done.
Qed.
Lemma interp_path_named data p : interp_path data p = named_interp data p.
Proof.
  unfold interp_path, named_interp. change PT_INTERP with 3. case_decide; [|done].
  rewrite before_nul_up_to_zero. by destruct (utf8_decode _).
Qed.

Lemma header_rules_checked data :
  (64 ≤ length data)%nat → zlen data < u64_modulus →
  check_ehdr (ehdr_of (take EHDR_SIZE data)) (zlen data) = first_failure (header_rules data).
Proof.
  intros Hl Hu. assert (F : ∀ off n, (off + n ≤ 64)%nat → field (take EHDR_SIZE data) off n = le data off n).
  { intros off n Ho. by rewrite <- (drop_0 data) at 1; rewrite (field_part data 0 EHDR_SIZE) by (unfold EHDR_SIZE; lia). }
  unfold check_ehdr, ehdr_of. cbn [e_ident e_machine e_type e_phentsize e_phoff e_phnum]. rewrite !F by lia.
  rewrite !take_take, !lookup_take_lt by (unfold EHDR_SIZE; lia).
  change ((4 `min` 16) `min` EHDR_SIZE)%nat with 4%nat. unfold header_rules, first_failure, ELFMAG, ELFCLASS64, ELFDATA2LSB, EM_X86_64, ET_EXEC, ET_DYN, PHDR_SIZE.
  cbn [foldr fst snd]. change (Z.of_nat 56) with 56.
  do 7 (case_decide; case_bool_decide; try done; try tauto; try lia). repeat case_decide; case_bool_decide; done || lia.
Qed.

Lemma steps_reference data : bytes_ok data → zlen data < u64_modulus → parse_steps data = parse_reference data.
Proof.
  intros Hb Hu. unfold parse_steps, parse_reference. change (Z.of_nat EHDR_SIZE) with 64. case_decide as Hs; [done|].
  assert (Hl : (64 ≤ length data)%nat) by (unfold zlen in Hs; lia).
  pose proof (header_rules_checked data Hl Hu) as Hc. rewrite <- Hc. set (h := ehdr_of (take EHDR_SIZE data)) in *.
  assert (F : ∀ off n, (off + n ≤ 64)%nat → field (take EHDR_SIZE data) off n = le data off n).
  { intros off n Ho. by rewrite <- (drop_0 data) at 1; rewrite (field_part data 0 EHDR_SIZE) by (unfold EHDR_SIZE; lia). }
  assert (Hn : e_phnum h = le data 56 2) by (apply F; lia). assert (Ho : e_phoff h = le data 32 8) by (apply F; lia).
  assert (He : e_entry h = le data 24 8) by (apply F; lia).
  destruct (check_ehdr h (zlen data)) as [e|] eqn:E; [done|]. apply check_ehdr_bounds in E. cbv zeta.
  assert (Hps : phdrs_from (Z.to_nat (e_phnum h)) (e_phoff h) data =
    ((λ i, phdr_at data (Z.to_nat (le data 32 8) + 56 * i)) <$> seq 0 (Z.to_nat (le data 56 2)))).
  { rewrite Hn, Ho. unfold phdrs_from. apply list_fmap_ext. intros i x Hi. apply lookup_seq in Hi as [-> Hi].
    assert (H8 : 0 ≤ e_phoff h) by (apply (field_range (take EHDR_SIZE data) 32 8); by apply Forall_take).
    apply phdr_of_at. rewrite Ho, Hn in E. rewrite Ho in H8. unfold PHDR_SIZE, zlen in *. lia. }
  rewrite Hps, Hn, He. destruct (existsb _ _); [done|]. do 2 f_equal.
  generalize ((λ i, phdr_at data (Z.to_nat (le data 32 8) + 56 * i)) <$> seq 0 (Z.to_nat (le data 56 2))). intros ps.
  unfold last_of. generalize (@None (list Z)). induction ps as [|p ps IH]; intros o; [done|].
  cbn [foldl]. by rewrite interp_path_named, IH.
Qed.

(** C16. Loading is total and does what the format says. On any file, however
    malformed, [parse] reads nothing outside it, does not panic, and returns exactly
    what a reference written on the bytes of the file does: the error of the first
    failing rule for the header, SegmentOutOfBounds when a loadable segment is not in
    the file or larger there than in memory, and otherwise the entry point, one segment
    per loadable header in order with precisely the bytes the header names, and the
    interpreter path and table address of the last header that gives one. A file that
    names an interpreter is accepted, where the documentation of [parse] announces an
    error. *)
Theorem parse_correct data :
  bytes_ok data → zlen data < u64_modulus - 1 → parse data = Ret (parse_reference data).
Proof. intros Hb Hd. rewrite parse_spec by done. by rewrite steps_reference by (done || lia). Qed.

(** ** Writing a file *)

Definition ehdr_bytes (h : Elf64Ehdr) : list Z :=
  e_ident h ++ to_le 2 (e_type h) ++ to_le 2 (e_machine h) ++ to_le 4 (e_version h) ++ to_le 8 (e_entry h) ++
  to_le 8 (e_phoff h) ++ to_le 8 (e_shoff h) ++ to_le 4 (e_flags h) ++ to_le 2 (e_ehsize h) ++
  to_le 2 (e_phentsize h) ++ to_le 2 (e_phnum h) ++ to_le 2 (e_shentsize h) ++ to_le 2 (e_shnum h) ++
  to_le 2 (e_shstrndx h).
Definition phdr_bytes (p : Elf64Phdr) : list Z :=
  to_le 4 (p_type p) ++ to_le 4 (p_flags p) ++ to_le 8 (p_offset p) ++ to_le 8 (p_vaddr p) ++ to_le 8 (p_paddr p) ++
  to_le 8 (p_filesz p) ++ to_le 8 (p_memsz p) ++ to_le 8 (p_align p).

Lemma field_here n x b : 0 ≤ x < 256 ^ Z.of_nat n → field (to_le n x ++ b) 0 n = x.
Proof. intros Hx. unfold field. rewrite drop_0, take_app_length' by (by rewrite length_to_le). by apply from_to_le. Qed.
Lemma field_skip a b off n : (length a ≤ off)%nat → field (a ++ b) off n = field b (off - length a) n.
Proof. intros Hl. unfold field. by rewrite drop_app_ge. Qed.

(** Steps over the fields in front, then reads. *)
Ltac read_field :=
  repeat (rewrite field_skip by (rewrite ?length_to_le; lia); rewrite ?length_to_le; cbn [Nat.sub]);
  apply field_here.

Definition fits (n : nat) (x : Z) : Prop := 0 ≤ x < 256 ^ Z.of_nat n.
Definition phdr_fits (p : Elf64Phdr) : Prop :=
  fits 4 (p_type p) ∧ fits 4 (p_flags p) ∧ fits 8 (p_offset p) ∧ fits 8 (p_vaddr p) ∧ fits 8 (p_paddr p) ∧
  fits 8 (p_filesz p) ∧ fits 8 (p_memsz p) ∧ fits 8 (p_align p).

Lemma phdr_roundtrip p : phdr_fits p → phdr_of (phdr_bytes p) = p.
Proof.
  destruct p as [ty fl po va pa fs ms al]. unfold phdr_fits, fits.
  cbn [p_type p_flags p_offset p_vaddr p_paddr p_filesz p_memsz p_align]. intros (H1 & H2 & H3 & H4 & H5 & H6 & H7 & H8).
  unfold phdr_of, phdr_bytes. cbn [p_type p_flags p_offset p_vaddr p_paddr p_filesz p_memsz p_align].
  rewrite <- (app_nil_r (to_le 8 al)). f_equal; by read_field.
Qed.

Lemma length_phdr_bytes p : length (phdr_bytes p) = PHDR_SIZE.
Proof. unfold phdr_bytes. by rewrite !length_app, !length_to_le. Qed.

Definition ehdr_fits (h : Elf64Ehdr) : Prop :=
  length (e_ident h) = 16%nat ∧ fits 2 (e_type h) ∧ fits 2 (e_machine h) ∧ fits 4 (e_version h) ∧ fits 8 (e_entry h) ∧
  fits 8 (e_phoff h) ∧ fits 8 (e_shoff h) ∧ fits 4 (e_flags h) ∧ fits 2 (e_ehsize h) ∧ fits 2 (e_phentsize h) ∧
  fits 2 (e_phnum h) ∧ fits 2 (e_shentsize h) ∧ fits 2 (e_shnum h) ∧ fits 2 (e_shstrndx h).

Lemma ehdr_roundtrip h : ehdr_fits h → ehdr_of (ehdr_bytes h) = h.
Proof.
  destruct h as [id ty ma ve en ph sh fl eh pe pn se sn sx]. unfold ehdr_fits, fits.
  cbn [e_ident e_type e_machine e_version e_entry e_phoff e_shoff e_flags e_ehsize e_phentsize e_phnum e_shentsize e_shnum e_shstrndx].
  intros (H0 & H1 & H2 & H3 & H4 & H5 & H6 & H7 & H8 & H9 & H10 & H11 & H12 & H13).
  unfold ehdr_of, ehdr_bytes.
  cbn [e_ident e_type e_machine e_version e_entry e_phoff e_shoff e_flags e_ehsize e_phentsize e_phnum e_shentsize e_shnum e_shstrndx].
  rewrite <- (app_nil_r (to_le 2 sx)). f_equal; [by rewrite take_app_length'|..];
    rewrite field_skip by lia; rewrite H0; cbn [Nat.sub]; by read_field.
Qed.

Lemma length_ehdr_bytes h : length (e_ident h) = 16%nat → length (ehdr_bytes h) = EHDR_SIZE.
Proof. intros H. unfold ehdr_bytes. rewrite !length_app, !length_to_le, H. done. Qed.

(** A static executable: the header, one program header per segment, the contents
    one after the other. *)
Definition elf_header (ty ent : Z) (n : nat) : Elf64Ehdr :=
  mkEhdr (ELFMAG ++ [ELFCLASS64; ELFDATA2LSB; 1] ++ replicate 9 0) ty EM_X86_64 1 ent (Z.of_nat EHDR_SIZE) 0 0
    (Z.of_nat EHDR_SIZE) (Z.of_nat PHDR_SIZE) (Z.of_nat n) 0 0 0.
Fixpoint seg_headers (off : Z) (segs : list LoadedSegment) : list Elf64Phdr :=
  match segs with
  | [] => []
  | s :: segs' =>
      mkPhdr PT_LOAD (s_pflags s) off (s_vaddr s) (s_vaddr s) (zlen (s_data s)) (s_memsz s) 4096
        :: seg_headers (off + zlen (s_data s)) segs'
  end.
Definition contents (segs : list LoadedSegment) : list Z := mjoin (s_data <$> segs).
Definition payload_off (n : nat) : nat := EHDR_SIZE + PHDR_SIZE * n.
Definition elf_file (ty ent : Z) (segs : list LoadedSegment) : list Z :=
  ehdr_bytes (elf_header ty ent (length segs)) ++
  mjoin (phdr_bytes <$> seg_headers (Z.of_nat (payload_off (length segs))) segs) ++ contents segs.

Definition seg_ok (s : LoadedSegment) : Prop :=
  fits 8 (s_vaddr s) ∧ fits 8 (s_memsz s) ∧ fits 4 (s_pflags s) ∧ bytes_ok (s_data s) ∧ zlen (s_data s) ≤ s_memsz s.

Lemma mjoin_cons {A} (x : list A) l : mjoin (x :: l) = x ++ mjoin l.
Proof. done. Qed.

Lemma length_seg_headers off segs : length (seg_headers off segs) = length segs.
Proof. revert off. induction segs; intros; cbn; auto. Qed.

Lemma length_phdrs_bytes ps : length (mjoin (phdr_bytes <$> ps)) = (PHDR_SIZE * length ps)%nat.
Proof.
  induction ps as [|p ps IH]; [done|]. rewrite fmap_cons, mjoin_cons, length_app, length_phdr_bytes, IH. cbn [length]. lia.
Qed.

(** The headers are read back. *)
Lemma phdrs_from_bytes pre ps rest :
  Forall phdr_fits ps →
  phdrs_from (length ps) (zlen pre) (pre ++ mjoin (phdr_bytes <$> ps) ++ rest) = ps.
Proof.
  intros Hf. revert pre. induction Hf as [|p ps Hp Hf IH]; intros pre; [done|].
  cbn [length]. rewrite phdrs_from_S by (unfold zlen; lia). f_equal.
  - unfold zlen. rewrite Nat2Z.id, drop_app_length, fmap_cons, mjoin_cons, <- app_assoc.
    rewrite take_app_length' by (by rewrite length_phdr_bytes). by apply phdr_roundtrip.
  - rewrite fmap_cons, mjoin_cons. specialize (IH (pre ++ phdr_bytes p)).
    replace (zlen (pre ++ phdr_bytes p)) with (zlen pre + Z.of_nat PHDR_SIZE) in IH
      by (unfold zlen; rewrite length_app, length_phdr_bytes; lia).
    rewrite <- !app_assoc in IH |- *. exact IH.
Qed.

(** So are the segments. *)
Lemma segments_read pre segs data :
  Forall seg_ok segs → data = pre ++ contents segs →
  omap (load_segment data) (seg_headers (zlen pre) segs) = segs ∧
  existsb (bad_load (zlen data)) (seg_headers (zlen pre) segs) = false.
Proof.
  intros Hf. revert pre. induction Hf as [|s segs Hs Hf IH]; intros pre Hd; [done|].
  unfold contents in Hd. rewrite fmap_cons, mjoin_cons in Hd. fold (contents segs) in Hd.
  destruct (IH (pre ++ s_data s)) as [IH1 IH2]; [by rewrite <- app_assoc|].
  cbn [seg_headers existsb]. replace (zlen pre + zlen (s_data s)) with (zlen (pre ++ s_data s))
    by (unfold zlen; rewrite length_app; lia).
  rewrite omap_cons, IH1, IH2, orb_false_r. split.
  - unfold load_segment, file_part. cbn [p_type p_vaddr p_memsz p_flags p_offset p_filesz]. rewrite decide_True by done.
    cbn [option_list app]. f_equal. unfold zlen. rewrite !Nat2Z.id, Hd, drop_app_length, take_app_length. by destruct s.
  - destruct Hs as (_ & _ & _ & _ & Hm). unfold bad_load. cbn [p_type p_memsz p_offset p_filesz].
    apply bool_decide_eq_false_2. intros [_ [H|H]]; [|lia]. rewrite Hd in H. unfold zlen in *. rewrite !length_app in H. lia.
Qed.

Lemma seg_headers_fit off segs :
  0 ≤ off → Forall seg_ok segs → off + zlen (contents segs) < u64_modulus → Forall phdr_fits (seg_headers off segs).
Proof.
  intros Ho Hf. revert off Ho. induction Hf as [|s segs (H1 & H2 & H3 & _ & H5) Hf IH]; intros off Ho Hl; [constructor|].
  unfold contents in Hl. rewrite fmap_cons, mjoin_cons in Hl. fold (contents segs) in Hl. unfold zlen in *. rewrite length_app in Hl.
  cbn [seg_headers]. constructor.
  - unfold phdr_fits, fits, zlen in *. cbn [p_type p_flags p_offset p_vaddr p_paddr p_filesz p_memsz p_align].
    change (256 ^ Z.of_nat 8) with u64_modulus in *. change (256 ^ Z.of_nat 4) with u32_modulus in *.
    unfold u64_modulus, u32_modulus, PT_LOAD in *. split_and!; lia.
  - apply IH; unfold zlen; lia.
Qed.

Lemma seg_headers_plain data off segs :
  last_of (interp_path data) None (seg_headers off segs) = None ∧ last_of phdr_addr None (seg_headers off segs) = None.
Proof.
  revert off. unfold last_of. induction segs as [|s segs IH]; intros off; [done|]. cbn [seg_headers foldl].
  unfold interp_path at 2, phdr_addr at 2. cbn [p_type]. rewrite !decide_False by naive_solver. apply IH.
Qed.

Lemma to_le_ok n x : bytes_ok (to_le n x).
Proof. apply bytes_ok_rev, to_be_ok. Qed.
Lemma mjoin_bytes_ok (l : list (list Z)) : Forall bytes_ok l → bytes_ok (mjoin l).
Proof. induction 1; [constructor|]. rewrite mjoin_cons. by apply Forall_app. Qed.

Lemma elf_file_ok ty ent segs : Forall seg_ok segs → bytes_ok (elf_file ty ent segs).
Proof.
  intros Hs. unfold elf_file. rewrite !Forall_app. split_and!.
  - unfold ehdr_bytes. rewrite !Forall_app. split_and!; try apply to_le_ok.
    cbn. repeat constructor; done.
  - apply mjoin_bytes_ok, Forall_fmap, Forall_forall. intros p _.
    unfold compose, phdr_bytes. rewrite !Forall_app. split_and!; apply to_le_ok.
  - apply mjoin_bytes_ok, Forall_fmap. eapply Forall_impl; [exact Hs|]. intros s Hok. apply Hok.
Qed.

Lemma elf_header_fits ty ent n :
  ty = ET_EXEC ∨ ty = ET_DYN → fits 8 ent → Z.of_nat n < 65536 → ehdr_fits (elf_header ty ent n).
Proof.
  intros Hty He Hn. unfold ehdr_fits, elf_header, fits in *.
  cbn [e_ident e_type e_machine e_version e_entry e_phoff e_shoff e_flags e_ehsize e_phentsize e_phnum e_shentsize e_shnum e_shstrndx].
  change (256 ^ Z.of_nat 2) with 65536. change (256 ^ Z.of_nat 4) with u32_modulus. change (256 ^ Z.of_nat 8) with u64_modulus in *.
  unfold ET_EXEC, ET_DYN, EM_X86_64, EHDR_SIZE, PHDR_SIZE, u32_modulus, u64_modulus in *.
  split_and!; first [done|lia|destruct Hty as [-> | ->]; lia].
Qed.

Lemma check_elf_header ty ent n len :
  ty = ET_EXEC ∨ ty = ET_DYN → Z.of_nat (payload_off n) ≤ len → len < u64_modulus →
  check_ehdr (elf_header ty ent n) len = None.
Proof.
  intros Hty Hl Hu. unfold check_ehdr, elf_header, payload_off in *.
  cbn [e_ident e_type e_machine e_phoff e_phentsize e_phnum].
  rewrite !decide_False; [done|..]; try (cbn; naive_solver); unfold EHDR_SIZE, PHDR_SIZE in *; lia.
Qed.

(** C17. Executables are read back. The file written for an entry point and a list of
    segments, each with its address, permissions, contents and a size in memory of at
    least its contents, parses to exactly that entry point and those segments. *)
Theorem elf_roundtrip ty ent segs :
  ty = ET_EXEC ∨ ty = ET_DYN → fits 8 ent → Z.of_nat (length segs) < 65536 → Forall seg_ok segs →
  zlen (elf_file ty ent segs) < u64_modulus - 1 →
  parse (elf_file ty ent segs) = Ret (inl (mkImage ent segs None None (Z.of_nat (length segs)))).
Proof.
  intros Hty He Hn Hs Hl. set (n := length segs) in *. set (h := elf_header ty ent n).
  set (ps := seg_headers (Z.of_nat (payload_off n)) segs).
  assert (Hpre : zlen (ehdr_bytes h) = Z.of_nat EHDR_SIZE) by (unfold zlen; by rewrite length_ehdr_bytes).
  assert (Hps : length ps = n) by apply length_seg_headers.
  assert (Hpay : zlen (ehdr_bytes h ++ mjoin (phdr_bytes <$> ps)) = Z.of_nat (payload_off n)).
  { unfold zlen in *. rewrite length_app, length_phdrs_bytes, Hps. unfold payload_off. lia. }
  assert (Hdata : elf_file ty ent segs = (ehdr_bytes h ++ mjoin (phdr_bytes <$> ps)) ++ contents segs)
    by (unfold elf_file; by rewrite <- app_assoc).
  assert (Hlen : zlen (elf_file ty ent segs) = Z.of_nat (payload_off n) + zlen (contents segs)).
  { rewrite Hdata. unfold zlen in *. rewrite length_app. lia. }
  rewrite parse_spec by (done || by apply elf_file_ok). f_equal. unfold parse_steps.
  assert (Hbig : Z.of_nat EHDR_SIZE ≤ Z.of_nat (payload_off n)) by (unfold payload_off; lia).
  rewrite decide_False by (unfold zlen at 2 in Hlen; lia).
  assert (Hh : ehdr_of (take EHDR_SIZE (elf_file ty ent segs)) = h).
  { unfold elf_file. rewrite take_app_length' by (by rewrite length_ehdr_bytes). by apply ehdr_roundtrip, elf_header_fits. }
  rewrite Hh. unfold h at 1. rewrite check_elf_header; [|done|unfold zlen at 2 in Hlen; lia|lia].
  change (e_phnum h) with (Z.of_nat n). change (e_phoff h) with (Z.of_nat EHDR_SIZE). change (e_entry h) with ent.
  assert (Hfit : Forall phdr_fits ps) by (apply seg_headers_fit; [lia|done|lia]).
  assert (Hread : phdrs_from (Z.to_nat (Z.of_nat n)) (Z.of_nat EHDR_SIZE) (elf_file ty ent segs) = ps).
  { rewrite Nat2Z.id, <- Hpre, <- Hps. exact (phdrs_from_bytes (ehdr_bytes h) ps (contents segs) Hfit). }
  rewrite Hread.
  destruct (segments_read _ segs _ Hs Hdata) as [Hseg Hbad]. rewrite Hpay in Hseg, Hbad. fold ps in Hseg, Hbad.
  rewrite Hbad, Hseg. unfold ps. destruct (seg_headers_plain (elf_file ty ent segs) (Z.of_nat (payload_off n)) segs) as [-> ->].
  done.
Qed.

(** ** The dynamic linker's reader *)

(** The dynamic linker is read without care. When the end of the program header
    table wraps around the word, [parse_dyn_so] takes the check for passed and reads a
    header outside the file; [parse] reports such a file as having bad headers. *)
Theorem dyn_so_table_wraps data :
  bytes_ok data → Z.of_nat EHDR_SIZE ≤ zlen data → zlen data < u64_modulus - 1 →
  let h := ehdr_of (take EHDR_SIZE data) in
  take 4 (e_ident h) = ELFMAG → e_ident h !! 4%nat = Some ELFCLASS64 → e_machine h = EM_X86_64 →
  0 < e_phnum h → u64_modulus ≤ e_phoff h + e_phnum h * Z.of_nat PHDR_SIZE →
  add64 (e_phoff h) (e_phnum h * Z.of_nat PHDR_SIZE) ≤ zlen data → zlen data < e_phoff h + Z.of_nat PHDR_SIZE →
  parse_dyn_so data = Panic ∧ ∃ e, parse data = Ret (inr e).
Proof.
  intros Hb Hl Hu h Hm Hc Ha Hn Hw Hend Hout. split.
  - unfold parse_dyn_so. rewrite decide_False by lia. rewrite struct_at_ok by lia. cbn [res_bind].
    change (drop (Z.to_nat 0) data) with data. fold h. rewrite !decide_False by (tauto || lia).
    destruct (Z.to_nat (e_phnum h)) eqn:En; [lia|]. cbn [dyn_phdrs]. unfold struct_at, slice64.
    rewrite decide_False by lia. done.
  - rewrite parse_spec by done. unfold parse_steps. rewrite decide_False by lia. fold h.
    destruct (check_ehdr h (zlen data)) as [e|] eqn:E; [by exists e|]. apply check_ehdr_bounds in E. lia.
Qed.

(** ** Concrete instances *)

(** A text segment of three bytes and a data segment with room for zeros. *)
Definition demo_segs : list LoadedSegment :=
  [mkSegment 0x400000 3 [0x90; 0x90; 0xC3] 5; mkSegment 0x601000 16 [1; 2] 6].

Lemma demo_segs_ok : Forall seg_ok demo_segs.
Proof. unfold demo_segs. repeat constructor; unfold fits, zlen; cbn; try lia. Qed.

Lemma elf_roundtrip_witness :
  parse (elf_file ET_EXEC 0x400000 demo_segs) = Ret (inl (mkImage 0x400000 demo_segs None None 2)).
Proof.
  apply (elf_roundtrip ET_EXEC 0x400000 demo_segs); [by left|unfold fits; lia|cbn; lia|apply demo_segs_ok|vm_compute; reflexivity].
Defined.

(** A file that names an interpreter. *)
Definition demo_dynamic : list Z :=
  ehdr_bytes (elf_header ET_DYN 0x1000 1) ++ phdr_bytes (mkPhdr PT_INTERP 4 120 0 0 4 4 1) ++ [47; 108; 100; 0].
Lemma parse_correct_witness :
  parse demo_dynamic = Ret (inl (mkImage 0x1000 [] (Some [47; 108; 100]) None 1)).
Proof.
  replace (inl (mkImage 0x1000 [] (Some [47; 108; 100]) None 1)) with (parse_reference demo_dynamic) by (vm_compute; reflexivity).
  apply (parse_correct demo_dynamic); [|vm_compute; reflexivity].
  apply (bool_decide_unpack _). vm_compute. exact I.
Defined.

(** A header whose table starts one entry below the end of the address space. *)
Definition demo_wrapping : list Z :=
  ehdr_bytes (mkEhdr (ELFMAG ++ [ELFCLASS64; ELFDATA2LSB; 1] ++ replicate 9 0) ET_DYN EM_X86_64 1 0
    (u64_modulus - Z.of_nat PHDR_SIZE) 0 0 64 (Z.of_nat PHDR_SIZE) 1 0 0 0).

Lemma dyn_so_table_wraps_witness : parse_dyn_so demo_wrapping = Panic.
Proof.
  apply (dyn_so_table_wraps demo_wrapping); try (vm_compute; congruence); [|vm_compute; reflexivity..].
  apply (bool_decide_unpack _). vm_compute. exact I.
Defined.
