(* ===== verification/RelocProps.v ===== *)
(** Theorems about the relocation engine and the modules. *)
From stdpp Require Import base numbers list gmap strings.
From S2P Require Import Prelude Bytes SemGate F32 Anomaly Elf Reloc ElfProps Modules.

(** ** Single relocations *)

(** The field a relocation patches, and the number the processor reads there. *)
Definition reloc_width (t : Z) : nat := if decide (t = R_X86_64_64) then 8 else 4.
Definition reloc_read (t : Z) (b : list Z) : Z :=
  if decide (t = R_X86_64_64 ∨ t = R_X86_64_32) then from_le b else as_i32 (from_le b).
(** S + A, or S + A - P. *)
Definition reloc_target (t sym pc addend : Z) : Z :=
  if decide (t = R_X86_64_PC32 ∨ t = R_X86_64_PLT32) then sym + addend - pc else sym + addend.
Definition supported (t : Z) : Prop :=
  t = R_X86_64_64 ∨ t = R_X86_64_PC32 ∨ t = R_X86_64_PLT32 ∨ t = R_X86_64_32 ∨ t = R_X86_64_32S.

Lemma patch_ok buf off b :
  0 ≤ off → off + zlen b ≤ zlen buf → zlen buf < u64_modulus →
  patch buf off b = Ret (take (Z.to_nat off) buf ++ b ++ drop (Z.to_nat off + length b) buf).
Proof.
  intros Ho Hl Hu. unfold patch. rewrite add64_small by (unfold zlen in *; lia). rewrite decide_False, decide_True by (unfold zlen in *; lia).
  unfold write_at. rewrite decide_True by (unfold zlen in *; lia). done.
Qed.

Lemma u64_as_i64_mod x : u64 (as_i64 (u64 x)) = u64 x.
Proof.
  unfold as_i64. case_decide; unfold u64, u64_modulus; [by rewrite Zmod_mod|].
  change (2 ^ 64) with 18446744073709551616. rewrite Zminus_mod, Zmod_mod, Z_mod_same_full, Z.sub_0_r. by rewrite !Zmod_mod.
Qed.

Lemma as_i32_small v : I32_MIN ≤ v ≤ I32_MAX → as_i32 (u32 v) = v.
Proof.
  unfold I32_MIN, I32_MAX, as_i32, u32, u32_modulus. intros Hv. rewrite Zmod_mod.
  change (2 ^ 31) with 2147483648 in *. change (2 ^ 32) with 4294967296.
  destruct (decide (0 ≤ v)) as [Hs|Hs].
  - rewrite Z.mod_small by lia. rewrite decide_True by lia. done.
  - replace (v mod 4294967296) with (v + 4294967296) by (apply (Z.mod_unique _ _ (-1)); lia).
    rewrite decide_False by lia. lia.
Qed.

Lemma as_i32_range x : I32_MIN ≤ as_i32 x ≤ I32_MAX.
Proof.
  unfold as_i32, I32_MIN, I32_MAX, u32, u32_modulus. change (2 ^ 31) with 2147483648. change (2 ^ 32) with 4294967296.
  pose proof (Z.mod_pos_bound x 4294967296 ltac:(lia)). case_decide; lia.
Qed.

(** A signed word read back as [u64] is the value iff the value fits. *)
Lemma as_i64_of_i32 x y : u64 (as_i32 x) = u64 y → as_i64 (u64 y) = as_i32 x.
Proof.
  intros H. rewrite <- H. pose proof (as_i32_range x) as Hr. unfold I32_MIN, I32_MAX in Hr. revert Hr.
  generalize (as_i32 x). intros v Hv. unfold as_i64, u64, u64_modulus. change (2 ^ 31) with 2147483648 in *.
  change (2 ^ 63) with 9223372036854775808. change (2 ^ 64) with 18446744073709551616.
  destruct (decide (0 ≤ v)).
  - rewrite Z.mod_small by lia. rewrite decide_True by lia. done.
  - replace (v mod 18446744073709551616) with (v + 18446744073709551616) by (apply (Z.mod_unique _ _ (-1)); lia).
    rewrite decide_False by lia. lia.
Qed.

Section one.
Context (buf : list Z) (off sym pc addend : Z).
Hypotheses (Hoff : 0 ≤ off) (Hu : zlen buf < u64_modulus).

(** The outcome the format asks for: the patched buffer reads as the target, or no
    field content would. *)
Definition reloc_spec (t : Z) (r : res (list Z + RelocError)) : Prop :=
  (∃ b, r = Ret (inl (take (Z.to_nat off) buf ++ b ++ drop (Z.to_nat off + reloc_width t) buf)) ∧
        length b = reloc_width t ∧ u64 (reloc_read t b) = u64 (reloc_target t sym pc addend)) ∨
  (r = Ret (inr Overflow32) ∧
   ∀ b, bytes_ok b → length b = reloc_width t → u64 (reloc_read t b) ≠ u64 (reloc_target t sym pc addend)).

Lemma patched n x :
  off + Z.of_nat n ≤ zlen buf →
  (let! buf := patch buf off (to_le n x) in Ret (inl buf)) =
    Ret (inl (B := RelocError) (take (Z.to_nat off) buf ++ to_le n x ++ drop (Z.to_nat off + n) buf)).
Proof.
  intros Hl. rewrite patch_ok by (done || (unfold zlen in *; rewrite length_to_le; lia)). cbn [res_bind]. by rewrite length_to_le.
Qed.

Lemma signed_field v :
  off + 4 ≤ zlen buf →
  ∀ t, supported t → reloc_width t = 4%nat → t ≠ R_X86_64_32 → reloc_target t sym pc addend = v →
  reloc_spec t (if decide (I32_MAX < as_i64 (u64 v) ∨ as_i64 (u64 v) < I32_MIN) then Ret (inr Overflow32)
                else let! buf := patch buf off (to_le 4 (u32 (as_i64 (u64 v)))) in Ret (inl buf)).
Proof.
  intros Hl t Ht Hw Hn Hv. unfold reloc_spec. rewrite Hw, Hv.
  assert (Hn' : ¬ (t = R_X86_64_64 ∨ t = R_X86_64_32)).
  { intros [->| ->]; [by vm_compute in Hw|done]. }
  assert (Hrd : ∀ b, reloc_read t b = as_i32 (from_le b)) by (intros b; unfold reloc_read; by rewrite decide_False).
  case_decide as Hr.
  - right. split; [done|]. intros b Hb Hlb E. rewrite Hrd in E. apply as_i64_of_i32 in E. pose proof (as_i32_range (from_le b)). lia.
  - left. exists (to_le 4 (u32 (as_i64 (u64 v)))). rewrite patched by done. split; [done|]. split; [apply length_to_le|].
    rewrite Hrd, from_to_le by apply (Z.mod_pos_bound _ u32_modulus eq_refl).
    rewrite as_i32_small by lia. apply u64_as_i64_mod.
Qed.

(** C31. Relocations are exact. At an offset inside the module, a supported
    relocation changes only the field it names and leaves there a number that the
    processor reads as S + A, or S + A - P for the relative kinds, modulo the word
    size; it reports overflow exactly when no content of the field would do. *)
Theorem apply_reloc_correct t :
  supported t → off + Z.of_nat (reloc_width t) ≤ zlen buf →
  reloc_spec t (apply_reloc buf off t sym pc addend).
Proof.
  intros Ht Hl. destruct Ht as [->|[->|[->|[->| ->]]]].
  - left. exists (to_le 8 (add64 sym addend)). change (reloc_width R_X86_64_64) with 8%nat in *.
    unfold apply_reloc. rewrite decide_False, decide_True, patched by done. split; [done|]. split; [apply length_to_le|].
    change (reloc_read R_X86_64_64 ?b) with (from_le b). rewrite from_to_le by apply u64_range.
    change (reloc_target R_X86_64_64 sym pc addend) with (sym + addend). apply (Zmod_mod _ u64_modulus).
  - apply (signed_field (sym + addend - pc) Hl R_X86_64_PC32); try done. right. by left.
  - apply (signed_field (sym + addend - pc) Hl R_X86_64_PLT32); try done. right. right. by left.
  - change (reloc_width R_X86_64_32) with 4%nat in *. unfold apply_reloc.
    rewrite !decide_False by (unfold R_X86_64_NONE, R_X86_64_64, R_X86_64_PC32, R_X86_64_PLT32, R_X86_64_32; lia).
    rewrite decide_True by done. unfold reloc_spec. change (reloc_width R_X86_64_32) with 4%nat.
    change (reloc_target R_X86_64_32 sym pc addend) with (sym + addend).
    change (reloc_read R_X86_64_32) with from_le. case_decide as Hr.
    + right. split; [done|]. intros b Hb Hlb E. pose proof (from_le_range b Hb) as Hrb. rewrite Hlb in Hrb.
      change (256 ^ Z.of_nat 4) with u32_modulus in Hrb. unfold add64, U32_MAX in Hr.
      rewrite <- E, u64_small in Hr; unfold is_u64, u64_modulus, u32_modulus in *; lia.
    + left. exists (to_le 4 (add64 sym addend)). rewrite patched by done. split; [done|]. split; [apply length_to_le|].
      pose proof (u64_range (sym + addend)). unfold add64, U32_MAX in *.
      rewrite from_to_le by (change (256 ^ Z.of_nat 4) with u32_modulus; unfold is_u64 in *; lia).
      apply (Zmod_mod _ u64_modulus).
  - apply (signed_field (sym + addend) Hl R_X86_64_32S); try done. by do 4 right.
Qed.
End one.

(** ** Termination *)

(** [r] is not a loop that ran out of iterations. *)
Definition ends {A} (r : res A) : Prop := r ≠ OutOfFuel.

Lemma ends_bind {A B} (r : res A) (k : A → res B) : ends r → (∀ a, r = Ret a → ends (k a)) → ends (let! x := r in k x).
Proof. unfold ends. destruct r; cbn; auto. Qed.
Lemma ends_try {A B E} (r : res (A + E)) (k : A → res (B + E)) :
  ends r → (∀ a, r = Ret (inl a) → ends (k a)) → ends (res_try r k).
Proof. unfold ends, res_try. destruct r as [[a|e]| |]; cbn; auto; congruence. Qed.
Lemma ends_ret {A} (a : A) : ends (Ret a).
Proof. done. Qed.
Lemma ends_panic {A} : ends (@Panic A).
Proof. done. Qed.
Lemma ends_if {A} (P : Prop) `{Decision P} (r1 r2 : res A) : ends r1 → ends r2 → ends (if decide P then r1 else r2).
Proof. by case_decide. Qed.
Lemma ends_slice a b l : ends (slice64 a b l).
Proof. unfold slice64. by case_decide. Qed.
Lemma ends_struct off n data : ends (struct_at off n data).
Proof. apply ends_slice. Qed.
Lemma ends_write i a b : ends (write_at i a b).
Proof. unfold write_at. by case_decide. Qed.
Lemma ends_index {A} (l : list A) i : ends (index l i).
Proof. unfold index. by destruct (l !! i). Qed.

Create HintDb ends_db.
#[local] Hint Resolve ends_ret ends_panic ends_slice ends_struct ends_write ends_index ends_bind ends_try ends_if : ends_db.

Lemma ends_shdr data off i : ends (shdr_at data off i).
Proof. unfold shdr_at. auto with ends_db. Qed.
#[local] Hint Resolve ends_shdr : ends_db.

Lemma ends_place_section data la sh l : ends (place_section data la sh l).
Proof. unfold place_section. auto 12 with ends_db. Qed.
#[local] Hint Resolve ends_place_section : ends_db.
Lemma ends_place_sections n i data off la l : ends (place_sections n i data off la l).
Proof. revert i l. induction n; intros i l; cbn [place_sections]; auto 12 with ends_db. Qed.
Lemma ends_find_section n i t data off : ends (find_section n i t data off).
Proof. revert i. induction n; intros i; cbn [find_section]; auto 12 with ends_db. Qed.
#[local] Hint Resolve ends_place_sections ends_find_section : ends_db.

Lemma ends_find_symtab data off n : ends (find_symtab data off n).
Proof.
  unfold find_symtab. apply ends_try; [auto with ends_db|]. intros [sh|] _; [|auto with ends_db].
  apply ends_bind; [auto with ends_db|]. intros [?|?] _; auto with ends_db.
Qed.
#[local] Hint Resolve ends_find_symtab : ends_db.

(** A structure that was read lies in the file, so offsets that advance by its size
    leave the file before the fuel is used up. *)
Lemma struct_at_inside off n data b : struct_at off n data = Ret b → off + Z.of_nat n ≤ zlen data.
Proof. unfold struct_at, slice64. case_decide; [lia|done]. Qed.

Lemma next_offset off i n data :
  zlen data < u64_modulus → (0 < n)%nat → add64 off (i * Z.of_nat n) + Z.of_nat n ≤ zlen data →
  add64 off ((i + 1) * Z.of_nat n) = add64 off (i * Z.of_nat n) + Z.of_nat n.
Proof.
  intros Hu Hn Hin. replace ((i + 1) * Z.of_nat n) with (i * Z.of_nat n + Z.of_nat n) by lia.
  pose proof (u64_range (off + i * Z.of_nat n)) as Hr. unfold add64, u64, is_u64 in *.
  rewrite Z.add_assoc, <- Zplus_mod_idemp_l. apply Z.mod_small. lia.
Qed.

Lemma ends_read_symbols_loop fuel i count off data acc :
  zlen data < u64_modulus → Z.max 0 (zlen data - add64 off (i * Z.of_nat SYM_SIZE)) < Z.of_nat fuel →
  ends (read_symbols_loop fuel i count off data acc).
Proof.
  intros Hu. revert i acc. induction fuel as [|fuel IH]; intros i acc Hf; [lia|].
  cbn [read_symbols_loop]. case_decide; [done|]. case_decide as Hb; [done|].
  apply ends_bind; [auto with ends_db|]. intros b Hs. apply struct_at_inside in Hs.
  apply IH. rewrite (next_offset off i SYM_SIZE data); unfold SYM_SIZE in *; lia.
Qed.

Section modules.
Context (kernel_addr : string → Z).

Lemma ends_apply_reloc buf off t sym pc addend : ends (apply_reloc buf off t sym pc addend).
Proof.
  assert (Hp : ∀ b, ends (let! buf := patch buf off b in Ret (inl (B := RelocError) buf))).
  { intros b. apply ends_bind; [|auto with ends_db]. unfold patch. auto with ends_db. }
  unfold apply_reloc. repeat apply ends_if; auto with ends_db.
Qed.

Lemma ends_rela_loop fuel i count off data strtab syms n addrs ta la buf :
  zlen data < u64_modulus → Z.max 0 (zlen data - add64 off (i * Z.of_nat RELA_SIZE)) < Z.of_nat fuel →
  ends (rela_loop kernel_addr fuel i count off data strtab syms n addrs ta la buf).
Proof.
  intros Hu. revert i buf. induction fuel as [|fuel IH]; intros i buf Hf; [lia|].
  cbn [rela_loop]. case_decide; [done|]. apply ends_bind; [auto with ends_db|]. intros b Hs. apply struct_at_inside in Hs.
  apply ends_try.
  - unfold apply_rela. destruct (syms !! _); [|done]. destruct (symbol_value _ _ _ _) as [[?|]|]; [|done..].
    apply ends_apply_reloc.
  - intros buf' _. apply IH. rewrite (next_offset off i RELA_SIZE data); unfold RELA_SIZE in *; lia.
Qed.

Lemma ends_apply_sections n i data strtab syms off m addrs la buf :
  zlen data < u64_modulus → ends (apply_sections kernel_addr n i data strtab syms off m addrs la buf).
Proof.
  intros Hu. revert i buf. induction n as [|n IH]; intros i buf; cbn [apply_sections]; [done|].
  apply ends_try; [auto with ends_db|]. intros sh _. apply ends_if; [apply IH|].
  apply ends_bind; [auto with ends_db|]. intros ta _. apply ends_try; [|intros; apply IH].
  apply ends_rela_loop; [done|]. pose proof (u64_range (sh_offset sh + 0 * Z.of_nat RELA_SIZE)).
  unfold add64, is_u64, zlen in *. lia.
Qed.

(** Relocation ends. On any file [relocate_module] finishes: the symbol and
    relocation loops, whose counts come from the file and can be anything, stop once
    they leave it. *)
Theorem relocate_terminates data buf load_addr :
  zlen data < u64_modulus → relocate_module kernel_addr data buf load_addr ≠ OutOfFuel.
Proof.
  intros Hu. change (ends (relocate_module kernel_addr data buf load_addr)). unfold relocate_module.
  apply ends_if; [done|]. apply ends_bind; [auto with ends_db|]. intros b _. do 2 (apply ends_if; [done|]).
  apply ends_try; [auto with ends_db|]. intros l _. apply ends_try; [auto with ends_db|]. intros [symtab strtab] _.
  apply ends_bind.
  - unfold read_symbols. apply ends_if; [done|]. apply ends_read_symbols_loop; [done|].
    pose proof (u64_range (sh_offset symtab + 0 * Z.of_nat SYM_SIZE)). unfold add64, is_u64, zlen in *. lia.
  - intros syms _. apply ends_bind; [auto with ends_db|]. intros st _. apply ends_try; [by apply ends_apply_sections|].
    intros buf' _. done.
Qed.

(** ** Modules *)

(** What a load leaves behind: only a validated image under a fresh name. *)
Lemma load_module_effect anom ba t1 t2 data params mods r mods' :
  load_module kernel_addr anom ba t1 t2 data params mods = Ret (r, mods') →
  let name := module_name t1 params in
  match r with
  | inl _ => mods !! name = None ∧ ∃ risk m, ai_validate anom data = inl risk ∧ ai_risk m = risk ∧ mods' = <[name := m]> mods
  | inr _ => mods' = mods
  end.
Proof.
  intros H name. unfold load_module in H. fold name in H. case_decide as Hn; [by injection H as <- <-|].
  destruct (ai_validate anom data) as [risk|e]; [|by injection H as <- <-].
  destruct (try_relocate kernel_addr ba data) as [[e b]| |]; cbn [res_bind] in H; try discriminate.
  injection H as <- <-. split; [by apply eq_None_not_Some|]. eexists risk, _. split; [done|]. split; [|done]. done.
Qed.

Lemma load_remove anom ba t1 t2 data params mods o mods' :
  load_module kernel_addr anom ba t1 t2 data params mods = Ret (inl o, mods') →
  remove_module (module_name t1 params) mods' = (None, mods).
Proof.
  intros H. destruct (load_module_effect _ _ _ _ _ _ _ _ _ H) as (Hf & risk & m & _ & _ & ->).
  unfold remove_module. rewrite lookup_insert_eq. by rewrite delete_insert_id.
Qed.
End modules.

(** ** Concrete instances *)

Lemma apply_reloc_correct_witness :
  ∃ b, apply_reloc (replicate 8 0) 2 R_X86_64_PC32 0x1000 0x2000 (-4) = Ret (inl ([0; 0] ++ b ++ [0; 0])) ∧
    u64 (as_i32 (from_le b)) = u64 (-4100).
Proof.
  destruct (apply_reloc_correct (replicate 8 0) 2 0x1000 0x2000 (-4) ltac:(lia) eq_refl R_X86_64_PC32) as [(b & E & _ & H)|[E _]].
  - right. by left.
  - vm_compute. congruence.
  - exists b. split; [exact E|exact H].
  - vm_compute in E. discriminate.
Defined.

Lemma relocate_terminates_witness : relocate_module (λ _, 0) demo_wrapping [] 0x1000 ≠ OutOfFuel.
Proof. apply (relocate_terminates (λ _, 0) demo_wrapping [] 0x1000). vm_compute. reflexivity. Defined.
