(* ===== verification/SysMem.v ===== *)
(** Memory maps: [mmap], [munmap], [brk], [mprotect], [madvise], demand paging
    ([kernel/src/syscall/mod.rs]) and the page-fault handler
    ([kernel/src/interrupts/mod.rs]).

    A region is an entry of [VMA_TABLE]; frames come in at the first access. The state
    joins the system of [SysState], the page tables of [Vmm] and the page cache. What
    [map_user_range] draws frames from, [self_model::alloc_frame_predictive] of the
    running process, is the argument [take_frame]; whether the boot loader left
    CR0.WP set, so that the kernel too may not write to read-only pages, is
    [write_protect]; the predictors' advice on what to read ahead is [gla] and
    [cluster]. Statistics kept for the predictors are dropped. *)
From stdpp Require Import base numbers list gmap sets strings.
From S2P Require Import Prelude Bytes Pmm FrameAlloc PageCache RunQueue Task Rlimit Scheduler Users Ramfs Vfs.
From S2P Require Import Vmm SysState SysFd.

Definition MMAP_PROT_WRITE : Z := 2.
Definition MMAP_PROT_EXEC : Z := 4.
Definition MAP_FIXED : Z := 0x10.
Definition RLIMIT_AS : nat := 9.
Definition ENOMEM : Z := -12.
Definition BRK_START : Z := 0x4000000000.
Definition MADV_WILLNEED : Z := 3.
Definition MADV_DONTNEED : Z := 4.
Definition MADV_FREE : Z := 8.

(** [(x + 4095) & !4095] and [x & !4095]. *)
Definition page_up (x : Z) : Z := Z.land (add64 x (PAGE_SIZE - 1)) (not64 (PAGE_SIZE - 1)).
Definition page_down (x : Z) : Z := Z.land x (not64 (PAGE_SIZE - 1)).

(** [table.range(..=(pid, page)).rev().find(p == pid)]: the entry of the process with
    the largest start that is not above the page. *)
Definition find_below {V} (pid page : Z) (t : gmap FdKey V) : option (FdKey * V) :=
  last (filter (λ e, e.1.1 = pid ∧ e.1.2 ≤ page) (btree_list fd_le t)).

Definition find_vma (pid page : Z) (v : Vmas) : option Vma :=
  match find_below pid page (VMA_TABLE v) with
  | Some (_, m) => if decide (page < v_end m) then Some m else None
  | None => None
  end.
Definition find_file_vma (pid page : Z) (v : Vmas) : option (Z * FileVma) :=
  match find_below pid page (FILE_VMA_TABLE v) with
  | Some (k, m) => if decide (page < fv_end m) then Some (k.2, m) else None
  | None => None
  end.

Definition pid_vmas (pid : Z) (v : Vmas) : list (Z * Z * bool * bool) :=
  (λ e, (e.1.2, v_end e.2, v_writable e.2, v_executable e.2)) <$>
    filter (λ e, e.1.1 = pid) (btree_list fd_le (VMA_TABLE v)).

(** ** Creating regions *)

Section mmap.
Context {N : Type}.
Implicit Types s : Sys N.

Definition sys_mmap (addr len prot flags fd offset : Z) s : Z * Sys N :=
  if decide (len = 0) then (EINVAL, s) else
  let len_aligned := page_up len in
  let writable := bool_decide (Z.land prot MMAP_PROT_WRITE ≠ 0) in
  let executable := bool_decide (Z.land prot MMAP_PROT_EXEC ≠ 0) in
  let '(vaddr, v) :=
    if decide (Z.land flags MAP_FIXED ≠ 0 ∧ addr ≠ 0) then (addr, vmas s)
    else (MMAP_NEXT_ADDR (vmas s),
          mkVmas (VMA_TABLE (vmas s)) (FILE_VMA_TABLE (vmas s))
            (add64 (MMAP_NEXT_ADDR (vmas s)) (add64 len_aligned PAGE_SIZE))) in
  let s := set_vmas v s in
  let pid := cur s in
  let rl_as := get_limit pid RLIMIT_AS (RLIMITS (kern s)) in
  if decide (Rlimit.cur rl_as ≠ U64_MAX ∧ Rlimit.cur rl_as < len) then (ENOMEM, s) else
  let vma := mkVma (add64 vaddr len_aligned) writable executable in
  match (if decide (0 ≤ fd) then FD_PATH_TABLE (sfds s) !! (pid, fd) else None) with
  | Some p =>
      let ino := match resolve p (vfs s) with
                 | Ok n => match node_stat n (vfs s) with Ok st => st_ino st | Err _ => 0 end
                 | Err _ => 0
                 end in
      (as_i64 vaddr,
       set_vmas (mkVmas (<[(pid, vaddr) := vma]> (VMA_TABLE v))
                   (<[(pid, vaddr) := mkFileVma (add64 vaddr len_aligned) p offset ino writable]> (FILE_VMA_TABLE v))
                   (MMAP_NEXT_ADDR v)) s)
  | None =>
      (as_i64 vaddr,
       set_vmas (mkVmas (<[(pid, vaddr) := vma]> (VMA_TABLE v)) (FILE_VMA_TABLE v) (MMAP_NEXT_ADDR v)) s)
  end.
End mmap.

(** ** Page tables behind the regions *)

Section memory.
Context {N A : Type} {FA : FrameAllocator A}.

(** The frames of the page cache and of the page tables come from one allocator,
    kept in [m_vm]. *)
Record Mem := mkMem { m_sys : Sys N; m_vm : Vm A; m_cache : PageCache A }.
Definition set_sys (s : Sys N) (m : Mem) : Mem := mkMem s (m_vm m) (m_cache m).
Definition set_vm (v : Vm A) (m : Mem) : Mem := mkMem (m_sys m) v (m_cache m).

Context (map_to : Z → Z → Z → Z → A * pmem → res (bool * (A * pmem))).
Context (unmap : Z → Z → pmem → option Z * pmem).
Context (take_frame : Z → A → res (option Z * A)).
Context (write_protect : bool) (yield_cpu : Sys N → Sys N).

(** CR3 is the CPU's. *)
Definition cur_vm (m : Mem) : Vm A := set_vm_cr3 (root_cr3 (m_sys m)) (m_vm m).

(** Whether the kernel can reach user address [va] now. *)
Definition present_now (va : Z) (m : Mem) : bool :=
  match walk_l1 (vm_mem (m_vm m)) (cr3_base (root_cr3 (m_sys m))) va with
  | Some p => has (rd (vm_mem (m_vm m)) p) PTE_PRESENT
  | None => false
  end.

(** The write bits of the four entries of [va]. *)
Definition walk_writable (mem : pmem) (l4 va : Z) : bool :=
  let l4e := rd mem (slot l4 (l4_idx va)) in
  let l3e := rd mem (slot (pte_addr l4e) (l3_idx va)) in
  let l2e := rd mem (slot (pte_addr l3e) (l2_idx va)) in
  let l1e := rd mem (slot (pte_addr l2e) (l1_idx va)) in
  has l4e PTE_WRITABLE && has l3e PTE_WRITABLE && has l2e PTE_WRITABLE && has l1e PTE_WRITABLE.

(** Whether the kernel can write there. *)
Definition writable_now (va : Z) (m : Mem) : bool :=
  present_now va m &&
  (negb write_protect || walk_writable (vm_mem (m_vm m)) (cr3_base (root_cr3 (m_sys m))) va).

(** The user bytes of a page once the zeroed frame is mapped there; nothing shows
    when the running tables are not the ones the mapper works on. *)
Definition show_fresh (page : Z) (before after : Mem) : Mem :=
  if negb (present_now page before) && present_now page after
  then set_sys (uwrite page (replicate PAGE_BYTES 0) (m_sys after)) after else after.

(** The loop of [map_user_range], page by page. *)
Fixpoint map_user_pages (n : nat) (v flags : Z) (m : Mem) : res (option string * Mem) :=
  match n with
  | O => Ret (None, m)
  | S n' =>
      let! (r, vm) := map_pages map_to (take_frame (cur (m_sys m))) 1 v flags (cur_vm m) in
      match r with
      | Some e => Ret (Some e, set_vm vm m)
      | None => map_user_pages n' (add64 v PAGE_SIZE) flags (show_fresh v m (set_vm vm m))
      end
  end.

Definition map_user (vaddr size : Z) (writable executable : bool) (m : Mem) : res (option string * Mem) :=
  let pages := sub64 (add64 size PAGE_SIZE) 1 / PAGE_SIZE in
  map_user_pages (Z.to_nat pages) vaddr (user_flags writable executable) m.

(** A fault in kernel mode: the handler halts for ever. *)
Definition kernel_fault {X} : res X := OutOfFuel.

(** ** Demand paging *)

(** The closure given to the page cache: look the path up, open, seek, read. *)
Definition mmap_loader (path : string) (f : Fs) (poff : Z) (frame : list Z) : res (nat * list Z) :=
  match resolve path f with
  | Ok node =>
      match node_open node f with
      | Ok h =>
          let! (b, _) := handle_read (length frame) (handle_seek poff h) in
          Ret (length b, b ++ drop (length b) frame)
      | Err _ => Ret (0%nat, frame)
      end
  | Err _ => Ret (0%nat, frame)
  end.

(** [page_cache::read_bytes] of one page, on the shared allocator. *)
Definition cache_read (fv : FileVma) (off : Z) (m : Mem) : res (list Z * Mem) :=
  let pc := m_cache m in
  let pc := mkPC (entries pc) (lru pc) (hits pc) (misses pc) (evictions pc) (vm_frames (m_vm m)) (frame_mem pc) in
  let! (b, pc) := read_bytes (fv_ino fv) off PAGE_BYTES (mmap_loader (fv_path fv) (vfs (m_sys m))) pc in
  Ret (b, mkMem (m_sys m) (set_frames (falloc pc) (m_vm m)) pc).

(** [for i in 1..=prefetch_pages]. *)
Fixpoint prefetch_loop (n : nat) (i start page_file_off : Z) (fv : FileVma) (m : Mem) : res Mem :=
  match n with
  | O => Ret m
  | S n' =>
      let ahead_off := add64 page_file_off (i * PAGE_SIZE) in
      if decide (add64 (sat_sub (fv_end fv) start) (fv_off fv) ≤ ahead_off) then Ret m else
      let! (_, m) := cache_read fv ahead_off m in
      prefetch_loop n' (i + 1) start page_file_off fv m
  end.

Definition fill_file_page (gla : option Z) (cluster page start : Z) (fv : FileVma) (m : Mem) : res Mem :=
  let page_file_off := add64 (fv_off fv) (sub64 page start) in
  let! (b, m) := cache_read fv page_file_off m in
  if bool_decide (b ≠ []) && negb (writable_now page m) then kernel_fault else
  let m := set_sys (uwrite page b (m_sys m)) m in
  let! m :=
    match gla with
    | Some vpn =>
        let predicted_va := u64 (Z.shiftl vpn 12) in
        if decide (start ≤ predicted_va < fv_end fv) then
          let! (_, m) := cache_read fv (add64 (fv_off fv) (sub64 predicted_va start)) m in Ret m
        else Ret m
    | None => Ret m
    end in
  prefetch_loop (if decide (cluster ≤ 1) then 4 else 2) 1 start page_file_off fv m.

Definition demand_page_vma (gla : option Z) (cluster pid vaddr : Z) (m : Mem) : res (bool * Mem) :=
  let page := page_down vaddr in
  match find_vma pid page (vmas (m_sys m)) with
  | None => Ret (false, m)
  | Some v =>
      let! (r, m) := map_user page PAGE_SIZE (v_writable v) (v_executable v) m in
      match r with
      | Some _ => Ret (false, m)
      | None =>
          match find_file_vma pid page (vmas (m_sys m)) with
          | Some (start, fv) => let! m := fill_file_page gla cluster page start fv m in Ret (true, m)
          | None => Ret (true, m)
          end
      end
  end.

(** ** The page-fault handler *)

Definition HEAP_BASE : Z := 0x4000000000.
Definition STACK_BOTTOM : Z := 0x7FFFF0000000.
Definition STACK_TOP : Z := 0x7FFFFFFFF000.

Definition segv (m : Mem) : Mem :=
  let s := upd_kern (send_signal (cur (m_sys m)) 11) (m_sys m) in set_sys (yield_cpu s) m.

(** A fault that is not from user mode ends in a halt loop. *)
Definition page_fault_handler (gla : option Z) (cluster cr2 : Z) (is_user is_present is_write : bool) (m : Mem) : res Mem :=
  if negb is_user then kernel_fault
  else if is_present then
    if is_write then
      let! (ok, v) := cow_page_fault cr2 (cur_vm m) in
      let m := set_vm v m in
      if ok : bool then Ret m else Ret (segv m)
    else Ret (segv m)
  else
    let page_virt := page_down cr2 in
    let pid := cur (m_sys m) in
    let brk := get_user_brk pid (kern (m_sys m)) in
    let in_heap := bool_decide (HEAP_BASE < brk ∧ HEAP_BASE ≤ page_virt < brk) in
    let in_stack := bool_decide (STACK_BOTTOM ≤ page_virt < STACK_TOP) in
    let! (done, m) :=
      if in_heap || in_stack then
        let! (r, m) := map_user page_virt PAGE_SIZE true false m in
        Ret (match r with None => true | Some _ => false end, m)
      else Ret (false, m) in
    if done : bool then Ret m else
    let! (ok, m) := demand_page_vma gla cluster pid cr2 m in
    if ok : bool then Ret m else Ret (segv m).

(** ** Changing regions *)

(** [VirtAddr::new] panics unless bits 48 to 63 repeat bit 47. *)
Definition canonical (va : Z) : bool := bool_decide (va < 2 ^ 47 ∨ u64_modulus - 2 ^ 47 ≤ va).

(** Unmap one page and free its frame. *)
Definition drop_page (va : Z) (m : Mem) : res Mem :=
  if negb (canonical va) then Panic else
  let (o, v) := unmap_page unmap (page_down va) (m_vm m) in
  match o with
  | Some frame => let! a := fa_free frame (vm_frames v) in Ret (set_vm (set_frames a v) m)
  | None => Ret (set_vm v m)
  end.

Fixpoint munmap_loop (n : nat) (va : Z) (m : Mem) : res Mem :=
  match n with
  | O => Ret m
  | S n' => let! m := drop_page va m in munmap_loop n' (add64 va PAGE_SIZE) m
  end.

Definition sys_munmap (addr len : Z) (m : Mem) : res (Z * Mem) :=
  if decide (len = 0) then Ret (0, m) else
  let pages := sub64 (add64 len PAGE_SIZE) 1 / PAGE_SIZE in
  let! m := munmap_loop (Z.to_nat pages) (page_down addr) m in Ret (0, m).

Definition sys_brk (addr : Z) (m : Mem) : res (Z * Mem) :=
  let pid := cur (m_sys m) in
  let cur_brk := get_user_brk pid (kern (m_sys m)) in
  let base_brk := if decide (cur_brk = 0) then BRK_START else cur_brk in
  if decide (addr = 0 ∨ addr ≤ base_brk) then Ret (as_i64 base_brk, m) else
  let new_aligned := page_up addr in
  let size := sub64 new_aligned base_brk in
  let! (r, m) := map_user base_brk size true false m in
  match r with
  | None => Ret (as_i64 new_aligned, set_sys (upd_kern (set_user_brk pid new_aligned) (m_sys m)) m)
  | Some _ => Ret (as_i64 base_brk, m)
  end.

Definition sys_mprotect (addr len prot : Z) (m : Mem) : res (Z * Mem) :=
  if decide (len = 0) then Ret (0, m) else
  let! v := update_user_pte_flags addr len (bool_decide (Z.land prot 2 ≠ 0)) (bool_decide (Z.land prot 4 ≠ 0)) (cur_vm m) in
  Ret (0, set_vm v m).

(** [while va < end { body(va); va += 4096 }]. *)
Fixpoint pages_loop (fuel : nat) (body : Z → Mem → res Mem) (va last : Z) (m : Mem) : res Mem :=
  if decide (va < last) then
    match fuel with
    | O => OutOfFuel
    | S n => let! m := body va m in pages_loop n body (add64 va PAGE_SIZE) last m
    end
  else Ret m.

(** Hints to the predictors change nothing here. *)
Definition sys_madvise (advice_at : Z → option Z * Z) (addr len advice : Z) (m : Mem) : res (Z * Mem) :=
  if decide (len = 0) then Ret (0, m) else
  let first := page_down addr in
  let last := page_up (add64 addr len) in
  let fuel := Z.to_nat (len / PAGE_SIZE + 2) in
  if decide (advice = MADV_DONTNEED ∨ advice = MADV_FREE) then
    let! m := pages_loop fuel drop_page first last m in Ret (0, m)
  else if decide (advice = MADV_WILLNEED) then
    let body va m := let (gla, cluster) := advice_at va in
                     let! (_, m) := demand_page_vma gla cluster (cur (m_sys m)) va m in Ret m in
    let! m := pages_loop fuel body first last m in Ret (0, m)
  else Ret (0, m).
End memory.
Arguments Mem : clear implicits.
