(* ===== verification/SysMemProps.v ===== *)
(** Theorems about memory maps and demand paging. *)
From Stdlib Require Import Sorting.Sorted.
From stdpp Require Import base numbers list gmap sets strings sorting.
From S2P Require Import Prelude Bytes Pmm PmmFacts FrameAlloc PageCache PageCacheFacts RunQueue Task Rlimit Scheduler Users.
From S2P Require Import Ramfs Vfs VfsProps PmmProps PageCacheProps Vmm VmmProps VmmFacts SysState SysFd SysFdFacts SysFdProps SysProc SysMem.

(** ** Pages *)

Lemma page_down_eq x : is_u64 x → page_down x = x - x mod PAGE_SIZE.
Proof. intros Hx. unfold page_down. change (PAGE_SIZE - 1) with (Z.ones 12). rewrite land_not_ones by (done || lia). done. Qed.
Lemma page_up_eq x : 0 ≤ x → x + PAGE_SIZE - 1 < u64_modulus → page_up x = (x + PAGE_SIZE - 1) / PAGE_SIZE * PAGE_SIZE.
Proof.
  intros H0 Hx. assert (Hu : is_u64 (x + (PAGE_SIZE - 1))) by (unfold is_u64, PAGE_SIZE in *; lia).
  unfold page_up. change (Z.land (add64 x (PAGE_SIZE - 1)) (not64 (PAGE_SIZE - 1))) with (page_down (u64 (x + (PAGE_SIZE - 1)))).
  rewrite u64_small, page_down_eq by done. replace (x + (PAGE_SIZE - 1)) with (x + PAGE_SIZE - 1) by lia.
  pose proof (Z.div_mod (x + PAGE_SIZE - 1) PAGE_SIZE ltac:(done)). lia.
Qed.

(** ** Looking a region up *)

#[local] Instance fd_le_trans : Transitive fd_le.
Proof. intros [] [] []. unfold fd_le. cbn. lia. Qed.
#[local] Instance fd_le_total : Total fd_le.
Proof. intros [] []. unfold fd_le. cbn. lia. Qed.

Lemma btree_sorted {V} (t : gmap FdKey V) : StronglySorted (by_key V fd_le) (btree_list fd_le t).
Proof.
  apply StronglySorted_merge_sort.
  - intros [] [] []. unfold by_key. cbn. apply fd_le_trans.
  - intros [] []. unfold by_key. cbn. apply fd_le_total.
Qed.

Lemma last_of_sorted {X} (R : relation X) (P : X → Prop) `{∀ x, Decision (P x)} (l : list X) x :
  StronglySorted R l → last (filter P l) = Some x → P x ∧ x ∈ l ∧ ∀ y, y ∈ l → P y → y = x ∨ R y x.
Proof.
  induction 1 as [|a l Hs IH Ha]; [done|]. rewrite filter_cons. case_decide as Hp.
  - destruct (last (filter P l)) as [z|] eqn:El.
    + rewrite last_cons, El. intros [= ->]. destruct (IH eq_refl) as (Hx & Hin & Hmax).
      split; [done|]. split; [by right|]. intros y Hy HPy. apply elem_of_cons in Hy as [->|Hy]; [|by apply Hmax].
      right. rewrite Forall_forall in Ha. by apply Ha.
    + apply last_None in El. rewrite El. intros [= ->]. split; [done|]. split; [by left|].
      intros y Hy HPy. apply elem_of_cons in Hy as [->|Hy]; [by left|]. exfalso.
      assert (Hf : y ∈ filter P l) by (by apply list_elem_of_filter). rewrite El in Hf. by apply elem_of_nil in Hf.
  - intros Hl. destruct (IH Hl) as (Hx & Hin & Hmax). split; [done|]. split; [by right|].
    intros y Hy HPy. apply elem_of_cons in Hy as [->|Hy]; [done|]. by apply Hmax.
Qed.

(** The nearest region of the process at or below a page. *)
Lemma find_below_Some {V : Type} (pid page : Z) (t : gmap FdKey V) (k : FdKey) (v : V) :
  find_below pid page t = Some (k, v) →
  k.1 = pid ∧ k.2 ≤ page ∧ t !! k = Some v ∧ ∀ a w, t !! (pid, a) = Some w → a ≤ page → a ≤ k.2.
Proof.
  intros H. apply (last_of_sorted _ _ _ _ (btree_sorted t)) in H as ([Hp Hle] & Hin & Hmax). cbn in *.
  apply elem_of_btree_list in Hin. split_and!; [done..|]. intros a w Hw Ha.
  destruct (Hmax ((pid, a), w)) as [E|E]; [by apply elem_of_btree_list|done| |].
  - injection E as <- _. cbn. lia.
  - unfold by_key, fd_le in E. cbn in E. lia.
Qed.
Lemma find_below_None {V : Type} (pid page : Z) (t : gmap FdKey V) (a : Z) (w : V) :
  find_below pid page t = None → t !! (pid, a) = Some w → page < a.
Proof.
  unfold find_below. rewrite last_None. intros E Hw. destruct (decide (a ≤ page)) as [Ha|]; [|lia]. exfalso.
  assert (Hin : ((pid, a), w) ∈ filter (λ e : FdKey * V, e.1.1 = pid ∧ e.1.2 ≤ page) (btree_list fd_le t))
    by (apply list_elem_of_filter; split; [done|by apply elem_of_btree_list]).
  rewrite E in Hin. by apply elem_of_nil in Hin.
Qed.

(** ** Regions *)

Section regions.
Context {N : Type}.
Implicit Types s : Sys N.

(** Regions are whole pages, lie below the next address to hand out, and are apart
    from each other by at least a page, whichever processes they belong to. *)
Record regions_ok (v : Vmas) : Prop := {
  ro_next : 0 ≤ MMAP_NEXT_ADDR v ∧ MMAP_NEXT_ADDR v mod PAGE_SIZE = 0;
  ro_region k r : VMA_TABLE v !! k = Some r →
    0 ≤ k.2 < v_end r ∧ v_end r + PAGE_SIZE ≤ MMAP_NEXT_ADDR v ∧ k.2 mod PAGE_SIZE = 0 ∧ v_end r mod PAGE_SIZE = 0;
  ro_apart k1 r1 k2 r2 : VMA_TABLE v !! k1 = Some r1 → VMA_TABLE v !! k2 = Some r2 → k1 ≠ k2 →
    v_end r1 + PAGE_SIZE ≤ k2.2 ∨ v_end r2 + PAGE_SIZE ≤ k1.2;
  ro_file k f : FILE_VMA_TABLE v !! k = Some f → ∃ r, VMA_TABLE v !! k = Some r ∧ v_end r = fv_end f
}.

Definition not_fixed (flags addr : Z) : Prop := ¬ (Z.land flags MAP_FIXED ≠ 0 ∧ addr ≠ 0).

(** What happens to the regions: a mapping at an address the kernel chooses, while
    addresses last; the end of a process; anything that leaves them alone. *)
Inductive region_step s s' : Prop :=
| rs_mmap addr len prot flags fd off :
    not_fixed flags addr → 0 < len → MMAP_NEXT_ADDR (vmas s) + len + 2 * PAGE_SIZE < u64_modulus →
    s' = (sys_mmap addr len prot flags fd off s).2 → region_step s s'
| rs_exit pid : vmas s' = cleanup_pid_vmas pid (vmas s) → region_step s s'
| rs_other : vmas s' = vmas s → region_step s s'.

(** What a mapping that does not name its address does. *)
Lemma mmap_effect addr len prot flags fd off s :
  not_fixed flags addr → len ≠ 0 →
  let v := vmas s in
  let a := MMAP_NEXT_ADDR v in
  let next := add64 a (add64 (page_up len) PAGE_SIZE) in
  let (r, s') := sys_mmap addr len prot flags fd off s in
  (r = ENOMEM ∧ vmas s' = mkVmas (VMA_TABLE v) (FILE_VMA_TABLE v) next) ∨
  (r = as_i64 a ∧ ∃ w x ft,
     vmas s' = mkVmas (<[(cur s, a) := mkVma (add64 a (page_up len)) w x]> (VMA_TABLE v)) ft next ∧
     (ft = FILE_VMA_TABLE v ∨
      ∃ p i, ft = <[(cur s, a) := mkFileVma (add64 a (page_up len)) p off i w]> (FILE_VMA_TABLE v))).
Proof.
  intros Hf Hl. cbv zeta. unfold sys_mmap. rewrite (decide_False (P := len = 0)) by done.
  rewrite (decide_False (P := Z.land flags MAP_FIXED ≠ 0 ∧ addr ≠ 0)) by done.
  change (cur (set_vmas ?v s)) with (cur s). change (RLIMITS (kern (set_vmas ?v s))) with (RLIMITS (kern s)).
  destruct (decide (Rlimit.cur (get_limit (cur s) RLIMIT_AS (RLIMITS (kern s))) ≠ U64_MAX ∧ _)) as [_|_]; [by left|].
  cbv zeta. destruct (if decide (0 ≤ fd) then _ else _) as [p|]; right; (split; [done|]); eexists _, _, _; (split; [done|]); [right|left]; eauto.
Qed.

Lemma page_up_bounds len :
  0 ≤ len → len + PAGE_SIZE < u64_modulus → len ≤ page_up len < len + PAGE_SIZE ∧ page_up len mod PAGE_SIZE = 0.
Proof.
  intros Hl Hu. rewrite page_up_eq by lia. split; [|apply Z_mod_mult].
  pose proof (Z.div_mod (len + PAGE_SIZE - 1) PAGE_SIZE ltac:(done)) as Hd.
  pose proof (Z.mod_pos_bound (len + PAGE_SIZE - 1) PAGE_SIZE ltac:(done)). lia.
Qed.

Lemma aligned_add a b : a mod PAGE_SIZE = 0 → b mod PAGE_SIZE = 0 → (a + b) mod PAGE_SIZE = 0.
Proof. intros Ha Hb. by rewrite Zplus_mod, Ha, Hb. Qed.

(** Moving the next address up keeps the regions in order. *)
Lemma regions_grow v n :
  regions_ok v → MMAP_NEXT_ADDR v ≤ n → n mod PAGE_SIZE = 0 → regions_ok (mkVmas (VMA_TABLE v) (FILE_VMA_TABLE v) n).
Proof.
  intros [[H0 Ha] Hr Hd Hf] Hn Hm. split; cbn [MMAP_NEXT_ADDR VMA_TABLE FILE_VMA_TABLE]; [split; [lia|done]| |done|done].
  intros k r Hk. destruct (Hr k r Hk) as (? & ? & ?). split_and!; try done; lia.
Qed.

(** So does a region placed at the next address. *)
Lemma regions_add v pid e w x ft n :
  let a := MMAP_NEXT_ADDR v in
  regions_ok v → a < e → e mod PAGE_SIZE = 0 → n = e + PAGE_SIZE →
  (∀ k f, ft !! k = Some f → (k = (pid, a) ∧ fv_end f = e) ∨ FILE_VMA_TABLE v !! k = Some f) →
  regions_ok (mkVmas (<[(pid, a) := mkVma e w x]> (VMA_TABLE v)) ft n).
Proof.
  intros a [[H0 Ha] Hr Hd Hf] He Hm -> Hft. unfold PAGE_SIZE in *.
  assert (Hne : ∀ k r, VMA_TABLE v !! k = Some r → v_end r + 4096 ≤ a ∧ k ≠ (pid, a)).
  { intros k r Hk. destruct (Hr k r Hk) as (? & ? & _). split; [done|]. intros ->. cbn in *. lia. }
  split; cbn [MMAP_NEXT_ADDR VMA_TABLE FILE_VMA_TABLE].
  - split; [lia|]. by apply aligned_add.
  - intros k r Hk. apply lookup_insert_Some in Hk as [[<- <-]|[_ Hk]].
    + cbn. fold a in H0, Ha. unfold PAGE_SIZE in *. lia.
    + destruct (Hr k r Hk) as (? & ? & ?). destruct (Hne k r Hk). unfold PAGE_SIZE in *. split_and!; try done; lia.
  - intros k1 r1 k2 r2 H1 H2 Hk. apply lookup_insert_Some in H1 as [[<- <-]|[_ H1]], H2 as [[<- <-]|[_ H2]].
    + done.
    + right. by apply (Hne k2 r2).
    + left. by apply (Hne k1 r1).
    + by apply (Hd k1 r1 k2 r2).
  - intros k f Hk. destruct (Hft k f Hk) as [[-> <-]|Hk'].
    + eexists. split; [apply lookup_insert_eq|done].
    + destruct (Hf k f Hk') as (r & Hkr & E). exists r. split; [|done]. rewrite lookup_insert_ne; [done|].
      intros <-. by destruct (Hne _ _ Hkr).
Qed.

Lemma regions_exit pid v : regions_ok v → regions_ok (cleanup_pid_vmas pid v).
Proof.
  intros [Hn Hr Hd Hf]. unfold cleanup_pid_vmas, not_of. split; cbn [MMAP_NEXT_ADDR VMA_TABLE FILE_VMA_TABLE]; [done|..].
  - intros k r Hk. apply map_lookup_filter_Some in Hk as [Hk _]. by apply Hr.
  - intros k1 r1 k2 r2 H1 H2. apply map_lookup_filter_Some in H1 as [H1 _], H2 as [H2 _]. by apply Hd.
  - intros k f Hk. apply map_lookup_filter_Some in Hk as [Hk Hp]. destruct (Hf k f Hk) as (r & Hkr & E).
    exists r. split; [|done]. apply map_lookup_filter_Some. done.
Qed.

Lemma region_step_ok s s' : regions_ok (vmas s) → region_step s s' → regions_ok (vmas s').
Proof.
  intros Hok [addr len prot flags fd off Hnf Hl Hu Hs'|pid ->| ->]; [|by apply regions_exit|done].
  pose proof (ro_next _ Hok) as [H0 Ha]. pose proof (mmap_effect addr len prot flags fd off s Hnf ltac:(lia)) as He.
  cbv zeta in He. destruct (page_up_bounds len) as [Hp Hpm]; [lia|unfold PAGE_SIZE in *; lia|].
  rewrite Hs'. destruct (sys_mmap addr len prot flags fd off s) as [r s1]. cbn [snd].
  assert (E1 : add64 (page_up len) PAGE_SIZE = page_up len + PAGE_SIZE) by (apply add64_small; unfold PAGE_SIZE in *; lia).
  rewrite E1, !add64_small in He by (unfold PAGE_SIZE in *; lia).
  destruct He as [[_ ->]|[_ (w & x & ft & -> & Hft)]].
  - apply regions_grow; [done|unfold PAGE_SIZE in *; lia|]. apply aligned_add; [done|]. by apply aligned_add.
  - apply regions_add; [done|lia|by apply aligned_add|lia|]. intros k f Hk.
    destruct Hft as [->|(p & i & ->)]; [by right|]. apply lookup_insert_Some in Hk as [[<- <-]|[_ Hk]]; [by left|by right].
Qed.

(** ** Lookup *)

(** In a table whose intervals are apart, the nearest entry is the only one that can
    contain the page. *)
Lemma find_apart {V : Type} (end_of : V → Z) (t : gmap FdKey V) (pid page : Z) :
  (∀ k r, t !! k = Some r → k.2 < end_of r) →
  (∀ k1 r1 k2 r2, t !! k1 = Some r1 → t !! k2 = Some r2 → k1 ≠ k2 → end_of r1 ≤ k2.2 ∨ end_of r2 ≤ k1.2) →
  ∀ a r, (find_below pid page t = Some ((pid, a), r) ∧ page < end_of r) ↔ (t !! (pid, a) = Some r ∧ a ≤ page < end_of r).
Proof.
  intros Hlt Hap a r. split.
  - intros [E He]. apply find_below_Some in E as (_ & Hle & Hk & _). done.
  - intros (Hk & Hle & He). split; [|done]. destruct (find_below pid page t) as [[k m]|] eqn:E.
    + apply find_below_Some in E as (<- & Hkle & Hkm & Hmax). specialize (Hmax a r Hk Hle).
      destruct (decide (k = (k.1, a))) as [Ek|Ek]; [rewrite <- Ek in *; congruence|]. exfalso.
      destruct (Hap _ _ _ _ Hk Hkm) as [H|H]; [congruence|..]; cbn in H; specialize (Hlt _ _ Hkm); lia.
    + apply (find_below_None _ _ _ _ _ E) in Hk. lia.
Qed.

Lemma find_vma_ok pid page v r :
  regions_ok v → find_vma pid page v = Some r ↔ ∃ a, VMA_TABLE v !! (pid, a) = Some r ∧ a ≤ page < v_end r.
Proof.
  intros Hok. assert (H : ∀ a r, (find_below pid page (VMA_TABLE v) = Some ((pid, a), r) ∧ page < v_end r) ↔
    (VMA_TABLE v !! (pid, a) = Some r ∧ a ≤ page < v_end r)); [apply find_apart|].
  { intros k m Hk. by destruct (ro_region _ Hok _ _ Hk) as ([_ ?] & _). }
  { intros k1 r1 k2 r2 H1 H2 Hk. destruct (ro_apart _ Hok _ _ _ _ H1 H2 Hk); [left|right]; unfold PAGE_SIZE in *; lia. }
  unfold find_vma. split.
  - destruct (find_below pid page (VMA_TABLE v)) as [[k m]|] eqn:E; [|done]. case_decide as Hp; [|done]. intros [= ->].
    pose proof (find_below_Some _ _ _ _ _ E) as (Hk & _). exists k.2. apply H. split; [|done]. destruct k. cbn in *. by subst.
  - intros (a & Ha). apply H in Ha as [-> Hp]. by rewrite decide_True.
Qed.

Lemma find_file_vma_ok pid page v a f :
  regions_ok v → find_file_vma pid page v = Some (a, f) ↔ FILE_VMA_TABLE v !! (pid, a) = Some f ∧ a ≤ page < fv_end f.
Proof.
  intros Hok. assert (H : ∀ a f, (find_below pid page (FILE_VMA_TABLE v) = Some ((pid, a), f) ∧ page < fv_end f) ↔
    (FILE_VMA_TABLE v !! (pid, a) = Some f ∧ a ≤ page < fv_end f)); [apply find_apart|].
  { intros k m Hk. destruct (ro_file _ Hok _ _ Hk) as (r & Hr & <-). by destruct (ro_region _ Hok _ _ Hr) as ([_ ?] & _). }
  { intros k1 r1 k2 r2 H1 H2 Hk. destruct (ro_file _ Hok _ _ H1) as (q1 & Hq1 & <-), (ro_file _ Hok _ _ H2) as (q2 & Hq2 & <-).
    destruct (ro_apart _ Hok _ _ _ _ Hq1 Hq2 Hk); [left|right]; unfold PAGE_SIZE in *; lia. }
  rewrite <- H. unfold find_file_vma. split.
  - destruct (find_below pid page (FILE_VMA_TABLE v)) as [[k m]|] eqn:E; [|done]. case_decide as Hp; [|done].
    intros [= <- <-]. pose proof (find_below_Some _ _ _ _ _ E) as (Hk & _). split; [|done]. destruct k. cbn in *. by subst.
  - intros [-> Hp]. by rewrite decide_True.
Qed.

Lemma regions_reach s0 s :
  VMA_TABLE (vmas s0) = ∅ → FILE_VMA_TABLE (vmas s0) = ∅ → 0 ≤ MMAP_NEXT_ADDR (vmas s0) →
  MMAP_NEXT_ADDR (vmas s0) mod PAGE_SIZE = 0 → rtc region_step s0 s → regions_ok (vmas s).
Proof.
  intros Hv Hf H0 Ha Hs. assert (Hok : regions_ok (vmas s0)).
  { split; [done|..]; rewrite ?Hv, ?Hf; intros *; by rewrite lookup_empty. }
  clear Hv Hf H0 Ha. induction Hs as [|s1 s2 s3 H12 _ IH]; [done|]. apply IH. by eapply region_step_ok.
Qed.

(** C13. Mappings do not collide. Over any run of mappings at addresses the kernel
    chooses, exits and unrelated calls, the regions of all processes are whole pages
    and every two of them are apart by at least an unmapped page. *)
Theorem mmap_regions_disjoint s0 s k1 r1 k2 r2 :
  VMA_TABLE (vmas s0) = ∅ → FILE_VMA_TABLE (vmas s0) = ∅ → 0 ≤ MMAP_NEXT_ADDR (vmas s0) →
  MMAP_NEXT_ADDR (vmas s0) mod PAGE_SIZE = 0 → rtc region_step s0 s →
  VMA_TABLE (vmas s) !! k1 = Some r1 → VMA_TABLE (vmas s) !! k2 = Some r2 →
  k1.2 mod PAGE_SIZE = 0 ∧ v_end r1 mod PAGE_SIZE = 0 ∧ k1.2 < v_end r1 ∧
  (k1 ≠ k2 → v_end r1 + PAGE_SIZE ≤ k2.2 ∨ v_end r2 + PAGE_SIZE ≤ k1.2).
Proof.
  intros Hv Hf H0 Ha Hs H1 H2. pose proof (regions_reach s0 s Hv Hf H0 Ha Hs) as Hok.
  destruct (ro_region _ Hok _ _ H1) as ([_ ?] & _ & ? & ?). split_and!; [done..|]. by apply (ro_apart _ Hok).
Qed.

(** C14. Faults find their region, as long as no call fixed the address of its mapping
    ([region_step]; [fixed_mapping_hides] shows what a fixed one does). Along such a run
    from empty tables the walk of the fault handler, which looks at one entry of each
    table only, agrees with the definition: the region found is the one that contains
    the page, the file found the one mapped there, and a file is found only in its own
    region. *)
Theorem fault_finds_region s0 s pid page :
  VMA_TABLE (vmas s0) = ∅ → FILE_VMA_TABLE (vmas s0) = ∅ → 0 ≤ MMAP_NEXT_ADDR (vmas s0) →
  MMAP_NEXT_ADDR (vmas s0) mod PAGE_SIZE = 0 → rtc region_step s0 s →
  (∀ r, find_vma pid page (vmas s) = Some r ↔ ∃ a, VMA_TABLE (vmas s) !! (pid, a) = Some r ∧ a ≤ page < v_end r) ∧
  (∀ a f, find_file_vma pid page (vmas s) = Some (a, f) ↔ FILE_VMA_TABLE (vmas s) !! (pid, a) = Some f ∧ a ≤ page < fv_end f) ∧
  (∀ a f, find_file_vma pid page (vmas s) = Some (a, f) →
     ∃ r, VMA_TABLE (vmas s) !! (pid, a) = Some r ∧ find_vma pid page (vmas s) = Some r).
Proof.
  intros Hv Hf H0 Ha Hs. pose proof (regions_reach s0 s Hv Hf H0 Ha Hs) as Hok.
  split; [intros r; by apply find_vma_ok|]. split; [intros a f; by apply find_file_vma_ok|].
  intros a f Hff. apply find_file_vma_ok in Hff as (Hk & Hp); [|done]. destruct (ro_file _ Hok _ _ Hk) as (r & Hr & E).
  exists r. split; [done|]. apply find_vma_ok; [done|]. exists a. by rewrite E.
Qed.

(** A length within a page of the end of the word rounds up to zero: the call
    succeeds with a region that contains nothing. *)
Lemma mmap_length_wraps addr len prot flags fd off s :
  not_fixed flags addr → u64_modulus - PAGE_SIZE < len < u64_modulus → is_u64 (MMAP_NEXT_ADDR (vmas s)) →
  Rlimit.cur (get_limit (cur s) RLIMIT_AS (RLIMITS (kern s))) = U64_MAX →
  let s' := (sys_mmap addr len prot flags fd off s).2 in
  ∃ w x, VMA_TABLE (vmas s') !! (cur s, MMAP_NEXT_ADDR (vmas s)) = Some (mkVma (MMAP_NEXT_ADDR (vmas s)) w x).
Proof.
  intros Hnf Hl Hn Hr. assert (Hz : page_up len = 0).
  { unfold page_up. assert (E : 0 ≤ add64 len (PAGE_SIZE - 1) < PAGE_SIZE).
    { unfold add64, u64. replace (len + (PAGE_SIZE - 1)) with (len + (PAGE_SIZE - 1) - u64_modulus + 1 * u64_modulus) by lia.
      rewrite Z_mod_plus_full, Z.mod_small; unfold PAGE_SIZE, u64_modulus in *; lia. }
    change (page_down (add64 len (PAGE_SIZE - 1)) = 0). rewrite page_down_eq, Z.mod_small by
      (unfold is_u64, PAGE_SIZE, u64_modulus in *; lia). lia. }
  cbv zeta. unfold sys_mmap.
  rewrite (decide_False (P := len = 0)) by (unfold PAGE_SIZE, u64_modulus in *; lia).
  rewrite (decide_False (P := Z.land flags MAP_FIXED ≠ 0 ∧ addr ≠ 0)) by done. rewrite Hz.
  change (cur (set_vmas ?v s)) with (cur s). change (RLIMITS (kern (set_vmas ?v s))) with (RLIMITS (kern s)).
  rewrite (decide_False (P := Rlimit.cur (get_limit (cur s) RLIMIT_AS (RLIMITS (kern s))) ≠ U64_MAX ∧ _)) by tauto.
  assert (Ea : add64 (MMAP_NEXT_ADDR (vmas s)) 0 = MMAP_NEXT_ADDR (vmas s)) by (unfold add64; rewrite Z.add_0_r; by apply u64_small).
  destruct (if decide (0 ≤ fd) then _ else _) as [p|]; cbn; rewrite Ea; do 2 eexists; apply lookup_insert_eq.
Qed.

Lemma inner_region_hides pid a b page r w x e v :
  VMA_TABLE v !! (pid, a) = Some r → a < b → b ≤ page → e ≤ page → page < v_end r →
  (∀ c m, VMA_TABLE v !! (pid, c) = Some m → c ≤ a ∨ page < c) →
  let v' := mkVmas (<[(pid, b) := mkVma e w x]> (VMA_TABLE v)) (FILE_VMA_TABLE v) (MMAP_NEXT_ADDR v) in
  find_vma pid page v = Some r ∧ VMA_TABLE v' !! (pid, a) = Some r ∧ find_vma pid page v' = None.
Proof.
  intros Hr Hab Hb He Hp Hout v'. split_and!.
  - unfold find_vma. destruct (find_below pid page (VMA_TABLE v)) as [[k m]|] eqn:E.
    + apply find_below_Some in E as (<- & Hle & Hk & Hmax). specialize (Hmax a r Hr ltac:(lia)).
      destruct (Hout k.2 m) as [Hc|Hc]; [by destruct k| |lia]. assert (k = (k.1, a)) as Ek by (destruct k; cbn in *; f_equal; lia).
      rewrite Ek in Hk. rewrite Hr in Hk. injection Hk as <-. by rewrite decide_True.
    + apply (find_below_None _ _ _ _ _ E) in Hr. lia.
  - cbn. rewrite lookup_insert_ne; [done|]. intros [= E]. lia.
  - unfold find_vma. destruct (find_below pid page (VMA_TABLE v')) as [[k m]|] eqn:E; [|done].
    apply find_below_Some in E as (<- & Hle & Hk & Hmax).
    specialize (Hmax b (mkVma e w x) ltac:(apply lookup_insert_eq) Hb).
    cbn in Hk. apply lookup_insert_Some in Hk as [[Ek <-]|[_ Hk]]; [by rewrite decide_False by (cbn; lia)|].
    destruct (Hout k.2 m) as [Hc|Hc]; [by destruct k|lia|lia].
Qed.

Lemma mmap_fixed addr len prot off s :
  addr ≠ 0 → len ≠ 0 → Rlimit.cur (get_limit (cur s) RLIMIT_AS (RLIMITS (kern s))) = U64_MAX →
  let v := vmas s in
  vmas (sys_mmap addr len prot MAP_FIXED (-1) off s).2 =
    mkVmas (<[(cur s, addr) := mkVma (add64 addr (page_up len)) (bool_decide (Z.land prot MMAP_PROT_WRITE ≠ 0))
                                 (bool_decide (Z.land prot MMAP_PROT_EXEC ≠ 0))]> (VMA_TABLE v)) (FILE_VMA_TABLE v)
      (MMAP_NEXT_ADDR v).
Proof.
  intros Ha Hl Hr. cbv zeta. unfold sys_mmap. rewrite (decide_False (P := len = 0)) by done.
  rewrite (decide_True (P := Z.land MAP_FIXED MAP_FIXED ≠ 0 ∧ addr ≠ 0)) by done.
  change (cur (set_vmas ?v s)) with (cur s). change (RLIMITS (kern (set_vmas ?v s))) with (RLIMITS (kern s)).
  rewrite (decide_False (P := Rlimit.cur (get_limit (cur s) RLIMIT_AS (RLIMITS (kern s))) ≠ U64_MAX ∧ _)) by tauto.
  done.
Qed.

(** A fixed mapping hides the rest of the region around it. When a process maps a
    page range inside a region it has, the part of the old region above the new one is
    no longer found: the next access to it is a segmentation fault. *)
Theorem fixed_mapping_hides a b len prot off page r s :
  let s' := (sys_mmap b len prot MAP_FIXED (-1) off s).2 in
  VMA_TABLE (vmas s) !! (cur s, a) = Some r → 0 ≤ a < b → 0 < len → b + page_up len < u64_modulus → 0 ≤ page_up len →
  b + page_up len ≤ page < v_end r → (∀ c m, VMA_TABLE (vmas s) !! (cur s, c) = Some m → c ≤ a ∨ page < c) →
  Rlimit.cur (get_limit (cur s) RLIMIT_AS (RLIMITS (kern s))) = U64_MAX →
  find_vma (cur s) page (vmas s) = Some r ∧ VMA_TABLE (vmas s') !! (cur s, a) = Some r ∧
  find_vma (cur s) page (vmas s') = None.
Proof.
  intros s' Hr Hab Hl Hu Hp0 Hp Hout Hlim. unfold s'. rewrite mmap_fixed by (done || lia).
  apply inner_region_hides with (e := add64 b (page_up len)); [done|lia|lia|rewrite add64_small; lia|lia|done].
Qed.
End regions.

(** ** Separate accesses *)

Lemma write_bytes_above (root a : Z) (l : list Z) (m : gmap (Z * Z) Z) (k : Z * Z) :
  0 ≤ a → a + Z.of_nat (length l) ≤ u64_modulus → a + Z.of_nat (length l) ≤ k.2 →
  write_bytes_at root a l m !! k = m !! k.
Proof.
  revert a m. induction l as [|b l IH]; intros a m Ha Hl Hk; [done|]. cbn [length write_bytes_at] in *.
  assert (Hself : <[(root, u64 a) := b]> m !! k = m !! k).
  { apply lookup_insert_ne. rewrite u64_small by (unfold is_u64; lia). destruct k as [r x]. cbn in Hk. intros [= _ <-]. lia. }
  destruct l as [|b' l']; [done|]. rewrite u64_small by (unfold is_u64; cbn [length] in *; lia).
  rewrite IH by (cbn [length] in *; lia). done.
Qed.

Section access.
Context {N : Type}.
Implicit Types s : Sys N.

Lemma uread_uwrite_other a n b (l : list Z) s :
  0 ≤ a → a + Z.of_nat n ≤ u64_modulus → 0 ≤ b → b + Z.of_nat (length l) ≤ u64_modulus →
  a + Z.of_nat n ≤ b ∨ b + Z.of_nat (length l) ≤ a → uread a n (uwrite b l s) = uread a n s.
Proof.
  intros Ha Han Hb Hbl Hd. unfold uread. apply list_fmap_ext. intros i x Hi. apply lookup_seq in Hi as [-> Hi].
  rewrite u64_small by (unfold is_u64; lia). f_equal. unfold uwrite, set_vmem. cbn [vmem].
  change (root_cr3 (mkSys _ _ _ _ _ _ _ _ _ _)) with (root_cr3 s).
  destruct Hd; [apply write_bytes_outside|apply write_bytes_above]; cbn; lia.
Qed.

(** Two writes one after the other are read as one. *)
Lemma uread_app a n k s : uread a (n + k) s = uread a n s ++ uread (a + Z.of_nat n) k s.
Proof.
  unfold uread. rewrite seq_app, fmap_app. f_equal. rewrite Nat.add_0_l.
  replace (seq n k) with (Nat.add n <$> seq 0 k) by (by rewrite fmap_add_seq, Nat.add_0_r).
  rewrite <- list_fmap_compose. apply list_fmap_ext. intros i x Hx. unfold compose. do 4 f_equal. lia.
Qed.
End access.

(** ** File-backed pages *)

Section files.
Context {N A : Type} {FA : FrameAllocator A}.
Context (write_protect : bool).
Implicit Types m : Mem N A.

(** The cache on the allocator of the page tables. *)
Definition synced m : PageCache A :=
  let pc := m_cache m in
  mkPC (entries pc) (lru pc) (hits pc) (misses pc) (evictions pc) (vm_frames (m_vm m)) (frame_mem pc).

(** [fv] maps the file with contents [d], whose pages the cache has right. *)
Record maps_file (fv : FileVma) (d : list Z) m (F O : gset Z) : Prop := {
  mf_cache : pc_inv (synced m) F O;
  mf_coherent : coherent (synced m) (fv_ino fv) d;
  mf_node : ∃ n a, resolve (fv_path fv) (vfs (m_sys m)) = Ok n ∧ nodes (vfs (m_sys m)) !! n = Some (RamFile d a);
  mf_size : Z.of_nat (length d) < u64_modulus
}.

Lemma mmap_loader_loads path f n d a :
  resolve path f = Ok n → nodes f !! n = Some (RamFile d a) → loads (mmap_loader path f) d.
Proof.
  intros Hr Hn off Hoff. unfold mmap_loader. rewrite Hr. unfold node_open. rewrite Hn.
  change (length PageCache.zero_page) with PAGE_BYTES. destruct (handle_read_open d a n off ltac:(lia)) as [h E]. rewrite E.
  cbn [res_bind]. rewrite length_take, length_drop. do 2 f_equal.
  unfold file_page, PageCache.zero_page. rewrite drop_replicate, resize_spec, length_drop. f_equal. f_equal. lia.
Qed.

Lemma read_loop_nothing n i pos loader (st : PageCache A) : (0 < n)%nat → read_loop n i pos 0 loader st = Ret ([], st).
Proof. destruct n; [lia|done]. Qed.

Lemma read_one_page n i off loader (st : PageCache A) :
  (0 < n)%nat → is_u64 off → off mod PAGE_SIZE = 0 →
  read_loop (S n) i off PAGE_BYTES loader st =
    let! (phys, st1) := get_or_load_page i off loader st in
    if decide (phys = 0) then Ret ([], st1) else Ret (take PAGE_BYTES (frame_bytes phys st1), st1).
Proof.
  intros Hn Hu Hal. cbn [read_loop]. rewrite (decide_False (P := PAGE_BYTES = 0%nat)) by done.
  rewrite page_align_down_eq by done. rewrite Hal, Z.sub_0_r, Z.sub_diag. change (Z.to_nat 0) with 0%nat.
  replace (Nat.min (PAGE_BYTES - 0) PAGE_BYTES) with PAGE_BYTES by lia. rewrite Nat.sub_diag.
  destruct (get_or_load_page i off loader st) as [[phys st1]| |]; cbn [res_bind]; [|done..].
  case_decide; [done|]. rewrite read_loop_nothing by done. cbn [res_bind]. by rewrite app_nil_r, drop_0.
Qed.

(** One page through the cache: all of it, or nothing when no frame is left. *)
Lemma cache_read_page fv d m F O off :
  maps_file fv d m F O → 0 ≤ off < Z.of_nat (length d) → off mod PAGE_SIZE = 0 →
  ∃ b m' F' O', cache_read fv off m = Ret (b, m') ∧ maps_file fv d m' F' O' ∧ F' ∪ O' = F ∪ O ∧
    (b = file_page d off ∨ (b = [] ∧ F = ∅ ∧ entries (m_cache m) !! mkKey (fv_ino fv) off = None)) ∧
    m_sys m' = m_sys m ∧ vm_mem (m_vm m') = vm_mem (m_vm m).
Proof.
  intros [Hi Hco (n & a & Hr & Hn) Hsz] Hoff Hal. unfold cache_read. fold (synced m). cbv zeta. unfold read_bytes.
  rewrite read_one_page; [|unfold PAGE_BYTES; lia|unfold is_u64; lia|done].
  destruct (get_or_load_page_spec (synced m) F O (fv_ino fv) off d (mmap_loader (fv_path fv) (vfs (m_sys m))) Hi Hco
    (mmap_loader_loads _ _ _ _ _ Hr Hn) Hoff) as (phys & st' & F' & O' & E & Hi' & Hco' & Hu & Hor).
  rewrite E. cbn [res_bind].
  assert (Hmf : maps_file fv d (mkMem (m_sys m) (set_frames (falloc st') (m_vm m)) st') F' O').
  { split; [|done|by exists n, a|done]. unfold synced. cbn. by destruct st'. }
  destruct Hor as [(-> & _ & HF & He)|[Hp Hb]].
  - rewrite decide_True by done. eexists [], _, F', O'. split; [done|]. split_and!; [done|done|by right|done|done].
  - rewrite (decide_False (P := phys = 0)) by done. cbn [res_bind].
    eexists _, _, F', O'. split; [done|]. split_and!; [done|done| |done|done]. left.
    rewrite Hb, take_ge; [done|]. by rewrite length_file_page.
Qed.

Lemma prefetch_ok n i start off0 fv d m F O :
  maps_file fv d m F O → 0 < i → 0 ≤ off0 → off0 mod PAGE_SIZE = 0 → off0 + (i + Z.of_nat n) * PAGE_SIZE < u64_modulus →
  0 ≤ start ≤ fv_end fv → 0 ≤ fv_off fv → fv_off fv mod PAGE_SIZE = 0 → (fv_end fv - start) mod PAGE_SIZE = 0 →
  fv_off fv + (fv_end fv - start) < Z.of_nat (length d) + PAGE_SIZE → Z.of_nat (length d) + PAGE_SIZE < u64_modulus →
  ∃ m' F' O', prefetch_loop n i start off0 fv m = Ret m' ∧ maps_file fv d m' F' O' ∧ m_sys m' = m_sys m.
Proof.
  intros Hmf Hi0 H0 Ha Hw Hst Ho Hoa Hla Hin Hd. revert i m F O Hmf Hi0 Hw. induction n as [|n IH]; intros i m F O Hmf Hi0 Hw.
  { by exists m, F, O. }
  cbn [prefetch_loop]. rewrite (add64_small off0) by (unfold PAGE_SIZE in *; lia).
  assert (Es : sat_sub (fv_end fv) start = fv_end fv - start) by (unfold sat_sub; lia).
  rewrite Es, add64_small by lia. case_decide as Hb; [by exists m, F, O|].
  assert (Hal : (off0 + i * PAGE_SIZE) mod PAGE_SIZE = 0) by (by rewrite Z_mod_plus_full).
  assert (Hlim : (fv_end fv - start + fv_off fv) mod PAGE_SIZE = 0) by (by rewrite Zplus_mod, Hla, Hoa).
  destruct (cache_read_page fv d m F O (off0 + i * PAGE_SIZE) Hmf) as (b & m1 & F1 & O1 & E & Hmf1 & _ & _ & Hs & _); [|done|].
  { pose proof (Z.div_mod (off0 + i * PAGE_SIZE) PAGE_SIZE ltac:(done)) as E1.
    pose proof (Z.div_mod (fv_end fv - start + fv_off fv) PAGE_SIZE ltac:(done)) as E2.
    rewrite Hal in E1. rewrite Hlim in E2. unfold PAGE_SIZE in *. nia. }
  rewrite E. cbn [res_bind]. destruct (IH (i + 1) m1 F1 O1 Hmf1) as (m2 & F2 & O2 & E2 & Hmf2 & Hs2); [lia|lia|].
  exists m2, F2, O2. split; [done|]. split; [done|]. congruence.
Qed.

Lemma maps_file_sys fv d m F O s' :
  maps_file fv d m F O → vfs s' = vfs (m_sys m) → maps_file fv d (set_sys s' m) F O.
Proof. intros [H1 H2 H3 H4] E. split; [done|done| |done]. cbn. by rewrite E. Qed.

(** A page of the region is a page of the file. *)
Lemma offset_in_file start fv (d : list Z) va :
  0 ≤ start → 0 ≤ fv_off fv → fv_off fv mod PAGE_SIZE = 0 → start mod PAGE_SIZE = 0 → fv_end fv mod PAGE_SIZE = 0 →
  fv_off fv + (fv_end fv - start) < Z.of_nat (length d) + PAGE_SIZE → Z.of_nat (length d) + PAGE_SIZE < u64_modulus →
  fv_end fv < u64_modulus → start ≤ va → va < fv_end fv → va mod PAGE_SIZE = 0 →
  add64 (fv_off fv) (sub64 va start) = fv_off fv + (va - start) ∧
  0 ≤ fv_off fv + (va - start) < Z.of_nat (length d) ∧ (fv_off fv + (va - start)) mod PAGE_SIZE = 0.
Proof.
  intros Hs0 Ho Hoa Hsa Hea Hin Hd Hue H1 H2 H3. rewrite sub64_small, add64_small by (unfold PAGE_SIZE in *; lia).
  assert (Hm : (va - start) mod PAGE_SIZE = 0) by (by rewrite Zminus_mod, H3, Hsa).
  split; [done|]. split; [|by apply aligned_add].
  pose proof (Z.div_mod va PAGE_SIZE ltac:(done)) as E1. pose proof (Z.div_mod (fv_end fv) PAGE_SIZE ltac:(done)) as E2.
  rewrite H3 in E1. rewrite Hea in E2. unfold PAGE_SIZE in *. nia.
Qed.

(** Reading ahead, where the predictor points and sequentially. *)
Lemma read_ahead_ok gla cluster start off fv d m F O :
  maps_file fv d m F O → 0 ≤ start ≤ fv_end fv → 0 ≤ off → off mod PAGE_SIZE = 0 →
  0 ≤ fv_off fv → fv_off fv mod PAGE_SIZE = 0 → start mod PAGE_SIZE = 0 → fv_end fv mod PAGE_SIZE = 0 →
  fv_off fv + (fv_end fv - start) < Z.of_nat (length d) + PAGE_SIZE → fv_end fv < u64_modulus →
  off + 8 * PAGE_SIZE < u64_modulus → Z.of_nat (length d) + 8 * PAGE_SIZE < u64_modulus →
  ∃ m' F' O',
    (let! m :=
       match gla with
       | Some vpn =>
           let predicted_va := u64 (Z.shiftl vpn 12) in
           if decide (start ≤ predicted_va < fv_end fv) then
             let! (_, m) := cache_read fv (add64 (fv_off fv) (sub64 predicted_va start)) m in Ret m
           else Ret m
       | None => Ret m
       end in
     prefetch_loop (if decide (cluster ≤ 1) then 4 else 2) 1 start off fv m) = Ret m' ∧
    maps_file fv d m' F' O' ∧ m_sys m' = m_sys m.
Proof.
  intros Hmf Hst H0 Ha Ho Hoa Hsa Hea Hin Hue Hw Hd.
  set (gread := match gla with Some vpn => _ | None => _ end).
  assert (Hg : ∃ m3 F3 O3, gread = Ret m3 ∧ maps_file fv d m3 F3 O3 ∧ m_sys m3 = m_sys m).
  { unfold gread. destruct gla as [vpn|]; [|by exists m, F, O]. cbv zeta. case_decide as Hin'; [|by exists m, F, O].
    assert (Hva : u64 (Z.shiftl vpn 12) mod PAGE_SIZE = 0).
    { unfold u64. rewrite Z.shiftl_mul_pow2 by lia. change (2 ^ 12) with PAGE_SIZE.
      change u64_modulus with (2 ^ 52 * PAGE_SIZE). rewrite Zmult_mod_distr_r. apply Z_mod_mult. }
    destruct (offset_in_file start fv d (u64 (Z.shiftl vpn 12))) as (Eg & Hgo & Hga);
      [lia|done|done|done|done|done|unfold PAGE_SIZE in *; lia|done|lia|lia|done|]. rewrite Eg.
    destruct (cache_read_page fv d m F O _ Hmf Hgo Hga) as (b' & m3 & F3 & O3 & E3 & Hmf3 & _ & _ & Es3 & _).
    rewrite E3. by exists m3, F3, O3. }
  destruct Hg as (m3 & F3 & O3 & -> & Hmf3 & Es3). cbn [res_bind].
  destruct (prefetch_ok (if decide (cluster ≤ 1) then 4 else 2) 1 start off fv d m3 F3 O3) as (m4 & F4 & O4 & E4 & Hmf4 & Es4);
    [done|lia|done|done|case_decide; unfold PAGE_SIZE in *; lia|lia|done|done|by rewrite Zminus_mod, Hea, Hsa
    |done|unfold PAGE_SIZE in *; lia|].
  exists m4, F4, O4. split; [done|]. split; [done|]. congruence.
Qed.

(** C15. File pages. Let a region map a file at page-aligned places, not more than the
    file's pages, and let the faulting page be mapped so that the kernel can write to
    it. Then the fault is filled without a failure and with the page cache kept right,
    wherever the predictors point the read-ahead; the process finds the bytes of the
    file at the corresponding offset, zeros after its end, when the page is cached or a
    frame is free, and an unchanged page otherwise. (Beyond the pages of the file the
    kernel panics, [mapping_past_end_panics]; in a read-only page it stops,
    [readonly_file_page_halts].) *)
Theorem file_page_correct gla cluster page start fv d m F O :
  maps_file fv d m F O → 0 < start → start ≤ page → page < fv_end fv → fv_end fv ≤ USER_END →
  page mod PAGE_SIZE = 0 → start mod PAGE_SIZE = 0 → fv_end fv mod PAGE_SIZE = 0 →
  0 ≤ fv_off fv → fv_off fv mod PAGE_SIZE = 0 →
  fv_off fv + (fv_end fv - start) < Z.of_nat (length d) + PAGE_SIZE →
  Z.of_nat (length d) + 8 * PAGE_SIZE < u64_modulus → writable_now write_protect page m = true →
  let off := fv_off fv + (page - start) in
  ∃ m' F' O',
    fill_file_page write_protect gla cluster page start fv m = Ret m' ∧ maps_file fv d m' F' O' ∧
    (uread page PAGE_BYTES (m_sys m') = file_page d off ∨
     F = ∅ ∧ entries (m_cache m) !! mkKey (fv_ino fv) off = None ∧ m_sys m' = m_sys m) ∧
    (∀ a n, 0 ≤ a → a + Z.of_nat n ≤ u64_modulus → a + Z.of_nat n ≤ page ∨ page + PAGE_SIZE ≤ a →
       uread a n (m_sys m') = uread a n (m_sys m)).
Proof.
  intros Hmf Hs0 Hsp Hpe Hue Hpa Hsa Hea Ho Hoa Hin Hd Hpres off.
  assert (Hue' : fv_end fv < u64_modulus - 8 * PAGE_SIZE) by (unfold USER_END, PAGE_SIZE, u64_modulus in *; lia).
  assert (Hpage : ∀ va, start ≤ va → va < fv_end fv → va mod PAGE_SIZE = 0 →
    add64 (fv_off fv) (sub64 va start) = fv_off fv + (va - start) ∧
    0 ≤ fv_off fv + (va - start) < Z.of_nat (length d) ∧ (fv_off fv + (va - start)) mod PAGE_SIZE = 0)
    by (intros; apply (offset_in_file start fv d); done || (unfold PAGE_SIZE in *; lia)).
  destruct (Hpage page) as (Eo & Hoff & Hoal); [lia|lia|done|]. fold off in Eo, Hoff, Hoal.
  destruct (cache_read_page fv d m F O off Hmf Hoff Hoal) as (b & m1 & F1 & O1 & E & Hmf1 & _ & Hb & Es & Em).
  unfold fill_file_page. rewrite Eo, E. cbn [res_bind].
  assert (Hp1 : writable_now write_protect page m1 = true) by (unfold writable_now, present_now in *; by rewrite Es, Em).
  rewrite Hp1. cbn [negb]. rewrite andb_false_r.
  assert (Hmf2 : maps_file fv d (set_sys (uwrite page b (m_sys m1)) m1) F1 O1) by (by apply maps_file_sys).
  set (m2 := set_sys (uwrite page b (m_sys m1)) m1) in *.
  destruct (read_ahead_ok gla cluster start off fv d m2 F1 O1 Hmf2) as (m4 & F4 & O4 & E4 & Hmf4 & Es4);
    [lia|lia|done|done|done|done|done|done|unfold PAGE_SIZE in *; lia|unfold PAGE_SIZE in *; lia|done|].
  exists m4, F4, O4. split; [exact E4|]. split; [done|].
  rewrite Es4. unfold m2. cbn [m_sys set_sys]. rewrite Es. split.
  - destruct Hb as [->|(-> & HF & He)]; [left|right; by rewrite uwrite_nil].
    rewrite <- (length_file_page d off) at 1. apply uread_uwrite; [lia|].
    rewrite length_file_page. unfold PAGE_BYTES, PAGE_SIZE in *. lia.
  - intros a n Ha Hn Hap. assert (Hlb : Z.of_nat (length b) ≤ PAGE_SIZE).
    { destruct Hb as [->|(-> & _)]; [rewrite length_file_page|]; done. }
    apply uread_uwrite_other; unfold PAGE_SIZE in *; lia.
Qed.

(** A page that lies wholly after the end of the file is loaded by a read that
    panics. *)
Lemma cache_read_past_end fv d m F O off :
  maps_file fv d m F O → Z.of_nat (length d) < off → is_u64 off → off mod PAGE_SIZE = 0 → F ≠ ∅ →
  entries (m_cache m) !! mkKey (fv_ino fv) off = None → cache_read fv off m = Panic.
Proof.
  intros [Hi _ (n & a & Hr & Hn) _] Hoff Hu Hal HF He. unfold cache_read. fold (synced m). cbv zeta. unfold read_bytes.
  rewrite read_one_page; [|unfold PAGE_BYTES; lia|done|done]. unfold get_or_load_page.
  change (entries (synced m)) with (entries (m_cache m)). rewrite He.
  destruct (fa_alloc_spec _ _ _ (pc_rep _ _ _ Hi)) as [[_ HF0]|(f & a' & Ha & _)]; [done|].
  change (falloc (count_miss (synced m))) with (falloc (synced m)). rewrite Ha. cbn [res_bind].
  unfold mmap_loader. rewrite Hr. unfold node_open. rewrite Hn.
  rewrite read_past_end_panics; [done|]. unfold h_len. cbn. done.
Qed.

(** Mapping more than the file crashes the kernel. A fault on a page of a region
    that lies beyond the end of the mapped file, with the page not cached and memory
    available, panics in the kernel instead of giving a zero page or a signal. *)
Theorem mapping_past_end_panics gla cluster page start fv d m F O :
  maps_file fv d m F O → F ≠ ∅ →
  let off := add64 (fv_off fv) (sub64 page start) in
  Z.of_nat (length d) < off → off mod PAGE_SIZE = 0 → entries (m_cache m) !! mkKey (fv_ino fv) off = None →
  fill_file_page write_protect gla cluster page start fv m = Panic.
Proof.
  intros Hmf HF off Hoff Hal He. unfold fill_file_page. fold off.
  rewrite (cache_read_past_end fv d m F O off Hmf Hoff ltac:(apply u64_range) Hal HF He). done.
Qed.

(** With CR0.WP set, a fault in a region mapped read-only is not filled: the kernel's
    own write to the page just mapped faults, and the handler halts. *)
Theorem readonly_file_page_halts gla cluster page start fv d m F O :
  maps_file fv d m F O → F ≠ ∅ →
  let off := add64 (fv_off fv) (sub64 page start) in
  off < Z.of_nat (length d) → off mod PAGE_SIZE = 0 → write_protect = true →
  walk_writable (vm_mem (m_vm m)) (cr3_base (root_cr3 (m_sys m))) page = false →
  fill_file_page write_protect gla cluster page start fv m = kernel_fault.
Proof.
  intros Hmf HF off Hoff Hal Hwp Hw. unfold fill_file_page. fold off.
  destruct (cache_read_page fv d m F O off Hmf) as (b & m1 & F1 & O1 & E & _ & _ & Hb & Es & Em);
    [split; [apply u64_range|done]|done|]. rewrite E. cbn [res_bind].
  destruct Hb as [->|(_ & HF' & _)]; [|done]. unfold writable_now. rewrite Hwp, Es, Em, Hw. cbn [negb orb].
  rewrite andb_false_r. cbn [negb]. rewrite bool_decide_eq_true_2; [done|].
  intros H0. apply (f_equal length) in H0. by rewrite length_file_page in H0.
Qed.

(** ** Unmapping *)

Section unmapping.
Context (unmap : Z → Z → pmem → option Z * pmem).

Lemma drop_page_sys va m m' : drop_page unmap va m = Ret m' → m_sys m' = m_sys m.
Proof.
  unfold drop_page. destruct (canonical va); [|done]. cbn [negb].
  destruct (unmap_page unmap (page_down va) (m_vm m)) as [[f|] v]; [|by intros [= <-]].
  destruct (fa_free f (vm_frames v)); cbn [res_bind]; [by intros [= <-]|done..].
Qed.
Lemma munmap_loop_sys n va m m' : munmap_loop unmap n va m = Ret m' → m_sys m' = m_sys m.
Proof.
  revert va m. induction n as [|n IH]; intros va m; cbn [munmap_loop]; [by intros [= <-]|].
  destruct (drop_page unmap va m) as [m1| |] eqn:E; cbn [res_bind]; [|done..].
  intros H. apply IH in H. apply drop_page_sys in E. congruence.
Qed.

(** Unmapping checks nothing and forgets nothing. [sys_munmap] always reports
    success; the region stays in the table, so the next access to the range is given a
    fresh page; and any page the kernel has mapped, in the kernel's own half as well,
    is unmapped and its frame freed when a process names it. *)
Theorem munmap_unchecked m :
  (∀ addr len r m', sys_munmap unmap addr len m = Ret (r, m') →
     r = 0 ∧ ∀ pid page, find_vma pid page (vmas (m_sys m')) = find_vma pid page (vmas (m_sys m))) ∧
  (∀ addr f mem' a, u64_modulus - 2 ^ 47 ≤ addr < u64_modulus → addr mod PAGE_SIZE = 0 →
     unmap (vmm_l4 (m_vm m)) addr (vm_mem (m_vm m)) = (Some f, mem') → fa_free f (vm_frames (m_vm m)) = Ret a →
     ∃ m', sys_munmap unmap addr 1 m = Ret (0, m') ∧ vm_mem (m_vm m') = mem' ∧ vm_frames (m_vm m') = a).
Proof.
  split.
  - intros addr len r m'. unfold sys_munmap. case_decide; [by intros [= <- <-]|]. cbv zeta.
    destruct (munmap_loop unmap _ _ m) as [m1| |] eqn:E; cbn [res_bind]; [|done..]. intros [= <- <-].
    apply munmap_loop_sys in E. split; [done|]. intros pid page. by rewrite E.
  - intros addr f mem' a Ha Hal Hun Hfr. unfold sys_munmap. rewrite decide_False by done. cbv zeta.
    change (Z.to_nat (sub64 (add64 1 PAGE_SIZE) 1 / PAGE_SIZE)) with 1%nat. cbn [munmap_loop].
    assert (Hpd : page_down addr = addr) by (rewrite page_down_eq, Hal, Z.sub_0_r by (unfold is_u64, u64_modulus in *; lia); done).
    unfold drop_page, canonical, unmap_page. rewrite !Hpd. rewrite bool_decide_eq_true_2 by (right; lia). cbn [negb].
    rewrite Hun. cbn [vm_frames set_mem]. rewrite Hfr. cbn [res_bind]. eexists. split; [done|]. done.
Qed.
End unmapping.

(** ** Mapping *)

Section mapping.
Context (map_to : Z → Z → Z → Z → A * pmem → res (bool * (A * pmem))).
Context (take_frame : Z → A → res (option Z * A)).

Lemma show_fresh_kern page m m' :
  kern (m_sys (show_fresh page m m')) = kern (m_sys m') ∧ m_vm (show_fresh page m m') = m_vm m'.
Proof. unfold show_fresh. by destruct (_ && _). Qed.

Lemma map_user_kern vaddr size w x m r m' :
  map_user map_to take_frame vaddr size w x m = Ret (r, m') → kern (m_sys m') = kern (m_sys m).
Proof.
  unfold map_user. cbv zeta. generalize (Z.to_nat (sub64 (add64 size PAGE_SIZE) 1 / PAGE_SIZE)) as n.
  intros n. revert vaddr m. induction n as [|n IH]; intros v m; cbn [map_user_pages]; [by intros [= _ <-]|].
  destruct (map_pages _ _ 1 v _ _) as [[[e|] vm]| |]; cbn [res_bind]; [by intros [= _ <-]| |done..].
  intros H. apply IH in H. rewrite H. by rewrite (proj1 (show_fresh_kern v m (set_vm vm m))).
Qed.

(** The page tables and the allocator after it are those of [map_user_range]. *)
Lemma map_pages_S f n v flags (s : Vm A) :
  map_pages map_to f (S n) v flags s =
  (let! (r, s) := map_pages map_to f 1 v flags s in
   match r with Some e => Ret (Some e, s) | None => map_pages map_to f n (add64 v PAGE_SIZE) flags s end).
Proof.
  cbn [map_pages]. destruct (f (vm_frames s)) as [[[p|] a]| |]; cbn [res_bind]; [|done..].
  destruct (map_page _ _ _ _ _) as [[[|] s']| |]; done.
Qed.

Lemma map_user_vm vaddr size w x m :
  (let! (r, m') := map_user map_to take_frame vaddr size w x m in Ret (r, cur_vm m')) =
  map_user_range map_to (take_frame (cur (m_sys m))) vaddr size w x (cur_vm m).
Proof.
  unfold map_user, map_user_range. cbv zeta. generalize (Z.to_nat (sub64 (add64 size PAGE_SIZE) 1 / PAGE_SIZE)) as n.
  intros n. revert vaddr m. induction n as [|n IH]; intros v m; [done|]. rewrite map_pages_S. cbn [map_user_pages].
  pose proof (map_pages_cr3 map_to (take_frame (cur (m_sys m))) 1 v (user_flags w x) (root_cr3 (m_sys m)) (m_vm m)) as Hc.
  change (set_vm_cr3 (root_cr3 (m_sys m)) (m_vm m)) with (cur_vm m) in Hc. rewrite Hc.
  destruct (map_pages map_to _ 1 v _ (m_vm m)) as [[[e|] vm]| |]; cbn [res_bind]; [done| |done..].
  rewrite IH. set (m1 := show_fresh v m _). destruct (show_fresh_kern v m (set_vm (set_vm_cr3 (root_cr3 (m_sys m)) vm) m)) as [Hk Hv].
  fold m1 in Hk, Hv. unfold cur_vm, cur, root_cr3. by rewrite Hk, Hv.
Qed.
End mapping.

(** ** The heap *)

Lemma brk_result map_to take_frame addr m r m' :
  is_u64 addr → addr + PAGE_SIZE < u64_modulus → is_Some (TASKS (kern (m_sys m)) !! cur (m_sys m)) →
  0 ≤ get_user_brk (cur (m_sys m)) (kern (m_sys m)) →
  sys_brk map_to take_frame addr m = Ret (r, m') →
  let pid := cur (m_sys m) in
  let old := get_user_brk pid (kern (m_sys m)) in
  let new := get_user_brk pid (kern (m_sys m')) in
  new = old ∨ (old < addr ≤ new ∧ new = page_up addr ∧ r = as_i64 new).
Proof.
  intros Ha Hu [t Ht] H0. unfold sys_brk. cbv zeta. case_decide as Hb; [intros [= <- <-]; by left|].
  destruct (map_user _ _ _ _ _ _ m) as [[o m1]| |] eqn:E; cbn [res_bind]; [|done..].
  apply map_user_kern in E.
  destruct o as [e|]; intros [= <- <-]; [left; by rewrite E|right].
  set (old := get_user_brk (cur (m_sys m)) (kern (m_sys m))) in *.
  assert (Hold : old < addr) by (unfold BRK_START in *; destruct (decide (old = 0)); lia).
  assert (Hnew : get_user_brk (cur (m_sys m)) (kern (m_sys (set_sys (upd_kern (set_user_brk (cur (m_sys m)) (page_up addr)) (m_sys m1)) m1))) = page_up addr).
  { cbn. rewrite E. unfold get_user_brk, set_user_brk, with_task. cbn. rewrite lookup_alter_at, decide_True, Ht by done. done. }
  rewrite Hnew. pose proof (page_up_bounds addr ltac:(lia) Hu). lia.
Qed.
End files.

(** ** Concrete instances *)

(** Two mappings of the running process, of 5000 bytes and of one page. *)
Definition demo_map (len : Z) (s : Sys unit) : Sys unit := (sys_mmap 0 len 3 0x22 (-1) 0 s).2.
Definition demo_mapped : Sys unit := demo_map 4096 (demo_map 5000 demo_sys).

Lemma demo_map_run : rtc region_step demo_sys demo_mapped.
Proof.
  assert (Hnf : not_fixed 0x22 0) by (intros [_ H]; done).
  eapply rtc_l; [|apply rtc_once]; eapply (rs_mmap _ _ 0 _ 3 0x22 (-1) 0); try exact Hnf; try reflexivity; vm_compute; reflexivity.
Qed.

Lemma mmap_regions_disjoint_witness : 0x100002000 + PAGE_SIZE ≤ 0x100003000 ∨ 0x100004000 + PAGE_SIZE ≤ 0x100000000.
Proof.
  destruct (mmap_regions_disjoint demo_sys demo_mapped (2, 0x100000000) (mkVma 0x100002000 true false)
    (2, 0x100003000) (mkVma 0x100004000 true false)) as (_ & _ & _ & H);
    [done|done|done|done|exact demo_map_run|vm_compute; reflexivity|vm_compute; reflexivity|]. exact (H ltac:(congruence)).
Defined.

Lemma fault_finds_region_witness : find_vma 2 0x100001000 (vmas demo_mapped) = Some (mkVma 0x100002000 true false).
Proof.
  destruct (fault_finds_region demo_sys demo_mapped 2 0x100001000) as (H & _ & _); [done|done|done|done|exact demo_map_run|].
  apply H. exists 0x100000000. split; [vm_compute; reflexivity|cbn; lia].
Defined.

(** Three pages, then a fixed mapping of the middle one. *)
Definition demo_three : Sys unit := demo_map 12288 demo_sys.
Lemma fixed_mapping_hides_witness :
  find_vma 2 0x100002000 (vmas (sys_mmap 0x100001000 4096 1 MAP_FIXED (-1) 0 demo_three).2) = None.
Proof.
  destruct (fixed_mapping_hides 0x100000000 0x100001000 4096 1 0 0x100002000 (mkVma 0x100003000 true false) demo_three)
    as (_ & _ & H); [vm_compute; reflexivity|lia|lia|vm_compute; reflexivity|vm_compute; congruence
    |split; [vm_compute; congruence|cbn; lia]| |vm_compute; reflexivity|exact H].
  intros c r Hc. left. assert (E : VMA_TABLE (vmas demo_three) = {[ (2, 0x100000000) := mkVma 0x100003000 true false ]})
    by (vm_compute; reflexivity). rewrite E in Hc. apply lookup_singleton_Some in Hc as [[= <-] _]. lia.
Defined.

(** Page 0x10000 is mapped in the running process's tables; "/secret" is mapped there. *)
Definition demo_mem : Mem unit BuddyAllocator :=
  mkMem demo_sys
    (mkVm small_pmm {[ 4096 := 0x105007; 0x105000 := 0x106007; 0x106000 := 0x107007; 0x107080 := 0x108007 ]} ∅ 4096 4096 0)
    cold_cache.
Definition demo_fvma (e : Z) : FileVma := mkFileVma e "/secret" 0 2 false.

Lemma demo_maps_file e : maps_file (demo_fvma e) [104; 105] demo_mem (list_to_set (all_pages small_fl)) ∅.
Proof.
  split.
  - apply empty_cache_inv. exists small_fl. split_and!; [exact small_rep|done|set_solver|set_solver].
  - intros off b Hb. by vm_compute in Hb.
  - exists 2, (mkMeta 0 0 384). split; vm_compute; reflexivity.
  - vm_compute. reflexivity.
Qed.

Lemma small_pages_left : (list_to_set (all_pages small_fl) : gset Z) ≠ ∅.
Proof.
  intros E. assert (H : (4096 : Z) ∈ (list_to_set (all_pages small_fl) : gset Z))
    by (apply elem_of_list_to_set; vm_compute; left). rewrite E in H. set_solver.
Qed.

Lemma file_page_correct_witness :
  ∃ m', fill_file_page true None 0 0x10000 0x10000 (demo_fvma 0x11000) demo_mem = Ret m' ∧
    uread 0x10000 PAGE_BYTES (m_sys m') = [104; 105] ++ replicate 4094 0.
Proof.
  destruct (file_page_correct true None 0 0x10000 0x10000 (demo_fvma 0x11000) [104; 105] demo_mem
    (list_to_set (all_pages small_fl)) ∅ (demo_maps_file 0x11000)) as (m' & F' & O' & E & _ & [H|[H _]] & _);
    [done|done|done|done|done|done|done|done|done|done|done|vm_compute; reflexivity| |].
  - exists m'. split; [exact E|]. rewrite H. vm_compute. reflexivity.
  - exfalso. by apply small_pages_left.
Defined.

Lemma mapping_past_end_panics_witness :
  fill_file_page true None 0 0x11000 0x10000 (demo_fvma 0x12000) demo_mem = Panic.
Proof.
  apply (mapping_past_end_panics true None 0 0x11000 0x10000 (demo_fvma 0x12000) [104; 105] demo_mem
    (list_to_set (all_pages small_fl)) ∅ (demo_maps_file 0x12000)); [exact small_pages_left|vm_compute; reflexivity..].
Defined.

(** The same page mapped read-only. *)
Definition demo_readonly : Mem unit BuddyAllocator :=
  set_vm (write_pte 0x107080 0x108005 (m_vm demo_mem)) demo_mem.
Lemma readonly_file_page_halts_witness :
  fill_file_page true None 0 0x10000 0x10000 (demo_fvma 0x11000) demo_readonly = kernel_fault.
Proof.
  apply (readonly_file_page_halts true None 0 0x10000 0x10000 (demo_fvma 0x11000) [104; 105] demo_readonly
    (list_to_set (all_pages small_fl)) ∅); [destruct (demo_maps_file 0x11000); by split|exact small_pages_left|done|done|done|].
  vm_compute. reflexivity.
Defined.
