(* ===== verification/SysExec.v ===== *)
(** Running a program: [load_image] and [load_interp] of [kernel/src/elf.rs],
    [sys_execve] of [kernel/src/syscall/mod.rs].

    The kernel writes to user addresses through the tables of the running process:
    where a page is missing, or read-only with CR0.WP set, it faults, which is fatal
    ([kernel_fault]). *)
From stdpp Require Import base numbers list gmap sets strings.
From S2P Require Import Prelude Bytes Pmm FrameAlloc PageCache RunQueue Task Rlimit Scheduler Users Ramfs Vfs.
From S2P Require Import SemGate Vmm Elf SysState SysFd SysMem.

Definition USER_STACK_TOP : Z := 0x7FFFFFFFF000.
Definition USER_STACK_SIZE : Z := 8 * 1024 * 1024.

Section exec.
Context {N A : Type} {FA : FrameAllocator A}.
Context (map_to : Z → Z → Z → Z → A * pmem → res (bool * (A * pmem))).
Context (take_frame : Z → A → res (option Z * A)).
Context (write_protect : bool).
Implicit Types m : Mem N A.

(** ** Kernel accesses to user memory *)

(** The pages of [n] bytes from [va] on. *)
Definition range_present (va : Z) (n : nat) m : bool :=
  forallb (λ i, present_now (page_down (add64 va (Z.of_nat i))) m) (seq 0 n).

Definition range_writable (va : Z) (n : nat) m : bool :=
  forallb (λ i, writable_now write_protect (page_down (add64 va (Z.of_nat i))) m) (seq 0 n).

Definition copy_in (va : Z) (b : list Z) m : res (Mem N A) :=
  if range_writable va (length b) m then Ret (set_sys (uwrite va b (m_sys m)) m) else kernel_fault.

Definition read_word (va : Z) m : res Z :=
  if range_present va 8 m then Ret (uread_le va 8 (m_sys m)) else kernel_fault.

(** [read_user_cstr]: up to the first zero byte. *)
Fixpoint cstr_loop (n : nat) (va : Z) m : res (list Z) :=
  match n with
  | O => Ret []
  | S n' =>
      if range_present va 1 m then
        let b := uread_le va 1 (m_sys m) in
        if decide (b = 0) then Ret [] else let! l := cstr_loop n' (add64 va 1) m in Ret (b :: l)
      else kernel_fault
  end.
Definition read_user_cstr (ptr : Z) (max : nat) m : res (option (list Z)) :=
  if decide (ptr = 0) then Ret None else
  let! l := cstr_loop max ptr m in
  Ret (match utf8_decode l with Some _ => Some l | None => None end).

(** ** The image *)

(** One segment at [bias + p_vaddr]; [false]: the pages could not be mapped. *)
Definition load_segment (bias : Z) (seg : LoadedSegment) m : res (bool * Mem N A) :=
  let vaddr := add64 bias (s_vaddr seg) in
  let vaddr_aligned := page_down vaddr in
  let total_size := page_up (add64 (sub64 vaddr vaddr_aligned) (s_memsz seg)) in
  let! (r, m) := map_user map_to take_frame vaddr_aligned total_size
                   (bool_decide (Z.land (s_pflags seg) PF_W ≠ 0)) (bool_decide (Z.land (s_pflags seg) PF_X ≠ 0)) m in
  match r with
  | Some _ => Ret (false, m)
  | None =>
      let! m := copy_in vaddr (s_data seg) m in
      let bss_len := sub64 (s_memsz seg) (zlen (s_data seg)) in
      if decide (0 < bss_len) then
        let! m := copy_in (add64 vaddr (zlen (s_data seg))) (replicate (Z.to_nat bss_len) 0) m in Ret (true, m)
      else Ret (true, m)
  end.

Fixpoint load_segments (bias : Z) (segs : list LoadedSegment) m : res (bool * Mem N A) :=
  match segs with
  | [] => Ret (true, m)
  | seg :: segs' =>
      let! (ok, m) := load_segment bias seg m in
      if ok : bool then load_segments bias segs' m else Ret (false, m)
  end.

(** The first 8 MiB of the linker are read. *)
Definition load_interp (path : list Z) m : res (option Z * Mem N A) :=
  match resolve (str_of path) (vfs (m_sys m)) with
  | Err _ => Ret (None, m)
  | Ok node =>
      match node_open node (vfs (m_sys m)) with
      | Err _ => Ret (None, m)
      | Ok h =>
          let! (ldso_data, _) := handle_read (Z.to_nat (8 * 1024 * 1024)) h in
          let! o := parse_dyn_so ldso_data in
          match o with
          | None => Ret (None, m)
          | Some ldso =>
              let! (ok, m) := load_segments LDSO_LOAD_BIAS (segments ldso) m in
              Ret (if ok : bool then Some (add64 LDSO_LOAD_BIAS (entry ldso)) else None, m)
          end
      end
  end.

Definition load_image (image : ElfImage) m : res ((Z + ElfError) * Mem N A) :=
  let! (ok, m) := load_segments 0 (segments image) m in
  if negb ok then Ret (inr SegmentOutOfBounds, m) else
  match interp image with
  | Some path =>
      let! (o, m) := load_interp path m in
      Ret (inl (default (entry image) o), m)
  | None => Ret (inl (entry image), m)
  end.

(** ** Arguments *)

(** [loop { if i > 256 { break } .. i += 1 }] over an array of pointers. *)
Fixpoint collect_strings (n : nat) (i arr : Z) m : res (list (list Z)) :=
  match n with
  | O => Ret []
  | S n' =>
      let! ptr := read_word (add64 arr (8 * i)) m in
      if decide (ptr = 0) then Ret [] else
      let! o := read_user_cstr ptr 4096 m in
      let! rest := collect_strings n' (i + 1) arr m in
      Ret (match o with Some s => (s ++ [0]) :: rest | None => rest end)
  end.

Definition default_env : list (list Z) :=
  (λ s, ((λ a, Z.of_N (Ascii.N_of_ascii a)) <$> String.list_ascii_of_string s) ++ [0]) <$>
    ["PATH=/bin:/usr/bin:/sbin:/usr/sbin"; "HOME=/root"; "TERM=vt100"].

(** ** The initial stack *)

(** Strings below each other; their addresses in order. *)
Fixpoint push_strings (strs : list (list Z)) (sp : Z) m : res (list Z * Z * Mem N A) :=
  match strs with
  | [] => Ret ([], sp, m)
  | s :: strs' =>
      let sp := sub64 sp (zlen s) in
      let! m := copy_in sp s m in
      let! (ptrs, sp', m) := push_strings strs' sp m in
      Ret (sp :: ptrs, sp', m)
  end.

(** [push64!] of each word, the first one highest. *)
Fixpoint push_words (ws : list Z) (sp : Z) m : res (Z * Mem N A) :=
  match ws with
  | [] => Ret (sp, m)
  | w :: ws' =>
      let sp := sub64 sp 8 in
      let! m := copy_in sp (to_le 8 w) m in
      push_words ws' sp m
  end.

Definition stack_words (rand_ptr ent : Z) (argv_ptrs envp_ptrs : list Z) : list Z :=
  [0; 0; 0; 16; rand_ptr; 25; ent; 9; 4096; 6] ++ [0] ++ rev envp_ptrs ++ [0] ++ rev argv_ptrs ++
  [Z.of_nat (length argv_ptrs)].

Definition build_stack (tsc ent : Z) (argv envp : list (list Z)) m : res (Z * Mem N A) :=
  let! (argv_ptrs, sp, m) := push_strings argv USER_STACK_TOP m in
  let! (envp_ptrs, sp, m) := push_strings envp sp m in
  let sp := Z.land (sub64 sp 16) (not64 15) in
  let rand_ptr := sp in
  let! m := copy_in rand_ptr (to_le 8 tsc) m in
  let! m := copy_in (add64 rand_ptr 8) (to_le 8 (Z.lxor tsc 0xDEADBEEFCAFEBABE)) m in
  let sp := Z.land sp (not64 7) in
  let n_pointers := Z.of_nat (1 + length argv_ptrs + 1 + length envp_ptrs + 1 + 10) in
  let sp := if decide (Z.land (sub64 sp (n_pointers * 8)) 15 ≠ 0) then sub64 sp 8 else sp in
  push_words (stack_words rand_ptr ent argv_ptrs envp_ptrs) sp m.

(** ** execve *)

Inductive ExecResult := Failed (errno : Z) | Jump (ent sp : Z).

Definition switch_cr3 (c : Z) m : Mem N A :=
  let s := m_sys m in
  let k := kern s in
  let k := set_cpu (mkCpu c (cpu_rsp0 (CPU k)) (cpu_fs (CPU k)) (cpu_fpu (CPU k))) k in
  set_sys (set_kern (set_task_cr3 (cur s) c k) s) m.

Definition sys_execve (tsc path_ptr argv_ptr envp_ptr : Z) m : res (ExecResult * Mem N A) :=
  let! o := read_user_cstr path_ptr 4096 m in
  match o with
  | None => Ret (Failed EFAULT, m)
  | Some path =>
      match resolve (str_of path) (vfs (m_sys m)) with
      | Err _ => Ret (Failed ENOENT, m)
      | Ok node =>
          match node_open node (vfs (m_sys m)) with
          | Err _ => Ret (Failed ENOENT, m)
          | Ok h =>
              let! elf_data := read_all (S (length (h_data h))) h in
              let! (o, v) := alloc_user_cr3 map_to (cur_vm m) in
              let m := set_vm v m in
              match o with
              | None => Ret (Failed EINVAL, m)
              | Some new_cr3 =>
                  let m := switch_cr3 new_cr3 m in
                  let! r := parse elf_data in
                  match r with
                  | inr _ => Ret (Failed EINVAL, m)
                  | inl image =>
                      let! (r, m) := load_image image m in
                      match r with
                      | inr _ => Ret (Failed EINVAL, m)
                      | inl _ =>
                          let ent := entry image in
                          let! (r, m) := map_user map_to take_frame (USER_STACK_TOP - USER_STACK_SIZE) USER_STACK_SIZE true false m in
                          match r with
                          | Some _ => Ret (Failed EINVAL, m)
                          | None =>
                              let! more := if decide (argv_ptr = 0) then Ret [] else collect_strings 256 1 argv_ptr m in
                              let! envp := if decide (envp_ptr = 0) then Ret [] else collect_strings 257 0 envp_ptr m in
                              let envp := if decide (envp = []) then default_env else envp in
                              let! (sp, m) := build_stack tsc ent ((path ++ [0]) :: more) envp m in
                              let m := set_sys (upd_kern (set_user_brk (cur (m_sys m)) 0) (m_sys m)) m in
                              Ret (Jump ent sp, m)
                          end
                      end
                  end
              end
          end
      end
  end.
End exec.
