(* ===== verification/SysExecProps.v ===== *)
(** Theorems about loading and starting a program. *)
From stdpp Require Import base numbers list gmap sets strings.
From S2P Require Import Prelude Bytes Pmm PmmFacts FrameAlloc PageCache RunQueue Task Rlimit Scheduler Users Ramfs Vfs VfsProps.
From S2P Require Import SemGate PmmProps Vmm Elf ElfProps SysState SysFd SysFdFacts SysFdProps SysMem SysMemProps SysExec.

Section exec.
Context {N A : Type} {FA : FrameAllocator A}.
Context (write_protect : bool).
Implicit Types m : Mem N A.

(** ** What a copy does *)

Lemma copy_in_sys va b m m' : copy_in write_protect va b m = Ret m' → m' = set_sys (uwrite va b (m_sys m)) m.
Proof. unfold copy_in. destruct (range_writable write_protect va (length b) m); [by intros [= <-]|done]. Qed.

(** The stack is mapped for the kernel to write to. *)
Definition stack_present m : Prop :=
  ∀ va, USER_STACK_TOP - USER_STACK_SIZE ≤ va < USER_STACK_TOP → writable_now write_protect (page_down va) m = true.

Lemma stack_present_write va b m : stack_present m → stack_present (set_sys (uwrite va b (m_sys m)) m).
Proof. done. Qed.

Lemma copy_in_stack va b m :
  stack_present m → USER_STACK_TOP - USER_STACK_SIZE ≤ va → va + zlen b ≤ USER_STACK_TOP →
  copy_in write_protect va b m = Ret (set_sys (uwrite va b (m_sys m)) m).
Proof.
  intros Hp Hl Hh. unfold copy_in. assert (E : range_writable write_protect va (length b) m = true); [|by rewrite E].
  unfold range_writable. apply forallb_forall. intros i Hi. apply in_seq in Hi. unfold zlen in *.
  rewrite add64_small by (unfold USER_STACK_TOP, USER_STACK_SIZE, u64_modulus in *; lia). apply Hp. lia.
Qed.

(** [m'] is [m] with other bytes below [hi]. *)
Definition only_below (hi : Z) m m' : Prop :=
  m_vm m' = m_vm m ∧ root_cr3 (m_sys m') = root_cr3 (m_sys m) ∧ kern (m_sys m') = kern (m_sys m) ∧
  ∀ a n, hi ≤ a → a + Z.of_nat n ≤ u64_modulus → uread a n (m_sys m') = uread a n (m_sys m).

Lemma only_below_refl hi m : only_below hi m m.
Proof. done. Qed.
Lemma only_below_trans hi1 hi2 m1 m2 m3 : hi2 ≤ hi1 → only_below hi1 m1 m2 → only_below hi2 m2 m3 → only_below hi1 m1 m3.
Proof.
  intros Hle (V1 & R1 & K1 & H1) (V2 & R2 & K2 & H2). split_and!; [congruence..|]. intros a n Ha Hn.
  rewrite H2 by lia. by apply H1.
Qed.
Lemma only_below_write hi va b m :
  0 ≤ va → va + zlen b ≤ hi → hi ≤ u64_modulus → only_below hi m (set_sys (uwrite va b (m_sys m)) m).
Proof.
  intros Hv Hb Hh. unfold zlen in *. split_and!; [done..|]. intros a n Ha Hn. cbn.
  apply uread_uwrite_other; try lia.
Qed.
Lemma stack_present_below hi m m' : only_below hi m m' → stack_present m → stack_present m'.
Proof. intros (V & R & _) Hp va Hva. unfold writable_now, present_now. rewrite V, R. by apply Hp. Qed.

(** ** Pushing *)

Definition STACK_BASE : Z := USER_STACK_TOP - USER_STACK_SIZE.
Definition total (strs : list (list Z)) : Z := foldr (λ s n, zlen s + n) 0 strs.
Lemma total_nonneg strs : 0 ≤ total strs.
Proof. induction strs as [|s strs IH]; cbn [total foldr]; [done|]. fold (total strs). unfold zlen. lia. Qed.

Lemma push_strings_spec strs sp m :
  stack_present m → STACK_BASE ≤ sp - total strs → sp ≤ USER_STACK_TOP →
  ∃ ptrs m', push_strings write_protect strs sp m = Ret (ptrs, sp - total strs, m') ∧ only_below sp m m' ∧ length ptrs = length strs ∧
    ∀ i s, strs !! i = Some s → ∃ p, ptrs !! i = Some p ∧ sp - total strs ≤ p ∧ p + zlen s ≤ sp ∧
      uread p (length s) (m_sys m') = s.
Proof.
  revert sp m. induction strs as [|s strs IH]; intros sp m Hp Hlo Hhi.
  { exists [], m. cbn [push_strings total foldr]. rewrite Z.sub_0_r. split_and!; done. }
  cbn [total foldr] in Hlo. fold (total strs) in Hlo. pose proof (total_nonneg strs) as Ht.
  assert (Hz : 0 ≤ zlen s) by (unfold zlen; lia).
  assert (Hsub : sub64 sp (zlen s) = sp - zlen s)
    by (apply sub64_small; unfold STACK_BASE, USER_STACK_TOP, USER_STACK_SIZE, u64_modulus in *; lia).
  cbn [push_strings]. rewrite Hsub. rewrite copy_in_stack by (done || (unfold STACK_BASE in *; lia)). cbn [res_bind].
  set (m1 := set_sys (uwrite (sp - zlen s) s (m_sys m)) m).
  assert (Hb1 : only_below sp m m1).
  { apply only_below_write; unfold STACK_BASE, USER_STACK_TOP, USER_STACK_SIZE, u64_modulus in *; lia. }
  destruct (IH (sp - zlen s) m1) as (ptrs & m2 & E & Hb2 & Hlen & Hptr);
    [by eapply stack_present_below|lia|lia|].
  rewrite E. cbn [res_bind]. exists ((sp - zlen s) :: ptrs), m2.
  replace (sp - total (s :: strs)) with (sp - zlen s - total strs) by (cbn; fold (total strs); lia).
  split; [done|]. split; [apply (only_below_trans sp (sp - zlen s) m m1 m2); [lia|done|done]|]. split; [cbn; lia|].
  intros [|i] s' Hs'; cbn in Hs'.
  - injection Hs' as <-. exists (sp - zlen s). split; [done|]. split; [lia|]. split; [lia|].
    destruct Hb2 as (_ & _ & _ & Hr). rewrite Hr by (unfold zlen, USER_STACK_TOP, u64_modulus in *; lia). cbn.
    apply uread_uwrite; unfold zlen, STACK_BASE, USER_STACK_TOP, USER_STACK_SIZE, u64_modulus in *; lia.
  - destruct (Hptr i s' Hs') as (p & Hp' & H1 & H2 & H3). exists p. split; [done|]. split; [lia|]. split; [lia|done].
Qed.

Lemma push_words_spec ws sp m :
  stack_present m → STACK_BASE ≤ sp - 8 * Z.of_nat (length ws) → sp ≤ USER_STACK_TOP → Forall is_u64 ws →
  ∃ m', push_words write_protect ws sp m = Ret (sp - 8 * Z.of_nat (length ws), m') ∧ only_below sp m m' ∧
    ∀ i w, ws !! i = Some w → uread_le (sp - 8 * Z.of_nat (S i)) 8 (m_sys m') = w.
Proof.
  intros Hp Hlo Hhi Hw. revert sp m Hp Hlo Hhi. induction Hw as [|w ws Hw Hws IH]; intros sp m Hp Hlo Hhi.
  { exists m. cbn [push_words length]. rewrite Z.sub_0_r. split_and!; done. }
  cbn [length] in Hlo. assert (Hsub : sub64 sp 8 = sp - 8)
    by (apply sub64_small; unfold STACK_BASE, USER_STACK_TOP, USER_STACK_SIZE, u64_modulus in *; lia).
  cbn [push_words]. rewrite Hsub.
  assert (Hl8 : zlen (to_le 8 w) = 8) by (unfold zlen; by rewrite length_to_le).
  rewrite copy_in_stack by (done || (unfold STACK_BASE in *; lia)). cbn [res_bind].
  set (m1 := set_sys (uwrite (sp - 8) (to_le 8 w) (m_sys m)) m).
  assert (Hb1 : only_below sp m m1).
  { apply only_below_write; unfold STACK_BASE, USER_STACK_TOP, USER_STACK_SIZE, u64_modulus in *; lia. }
  destruct (IH (sp - 8) m1) as (m2 & E & Hb2 & Hrd); [by eapply stack_present_below|lia|lia|].
  rewrite E. exists m2. split; [do 2 f_equal; cbn [length]; lia|].
  split; [apply (only_below_trans sp (sp - 8) m m1 m2); [lia|done|done]|].
  intros [|i] w' Hi; cbn in Hi.
  - injection Hi as <-. unfold uread_le. change (8 * Z.of_nat 1) with 8. destruct Hb2 as (_ & _ & _ & Hr).
    rewrite Hr by (unfold USER_STACK_TOP, u64_modulus in *; lia).
    change (m_sys m1) with (uwrite (sp - 8) (to_le 8 w) (m_sys m)).
    replace (uread (sp - 8) 8) with (uread (N := N) (sp - 8) (length (to_le 8 w))) by (by rewrite length_to_le).
    rewrite uread_uwrite; [by apply from_to_le|..];
      rewrite ?length_to_le; unfold STACK_BASE, USER_STACK_TOP, USER_STACK_SIZE, u64_modulus in *; lia.
  - rewrite <- (Hrd i w' Hi). f_equal. lia.
Qed.

(** ** The initial stack *)

(** What a program finds from its stack pointer on. *)
Definition initial_frame (rand_ptr ent : Z) (argv_ptrs envp_ptrs : list Z) : list Z :=
  Z.of_nat (length argv_ptrs) :: argv_ptrs ++ [0] ++ envp_ptrs ++ [0] ++ [6; 4096; 9; ent; 25; rand_ptr; 16; 0; 0; 0].

Lemma stack_words_frame rand_ptr ent ap ep :
  stack_words rand_ptr ent ap ep = reverse (initial_frame rand_ptr ent ap ep).
Proof.
  unfold stack_words, initial_frame. rewrite reverse_cons, !reverse_app, <- !app_assoc, !rev_alt. done.
Qed.
Lemma length_stack_words rand_ptr ent ap ep :
  Z.of_nat (length (stack_words rand_ptr ent ap ep)) = Z.of_nat (1 + length ap + 1 + length ep + 1 + 10).
Proof. unfold stack_words. rewrite !length_app, !length_rev. cbn [length]. lia. Qed.

Lemma frame_words rand_ptr ent ap ep :
  is_u64 rand_ptr → is_u64 ent → Forall is_u64 ap → Forall is_u64 ep → Z.of_nat (length ap) < u64_modulus →
  Forall is_u64 (initial_frame rand_ptr ent ap ep).
Proof.
  intros Hr He Ha Hp Hl. unfold initial_frame. rewrite Forall_cons, !Forall_app, !Forall_cons.
  split; [unfold is_u64; lia|]. split_and!; done.
Qed.

(** The position of the first word: 16-byte alignment after all words are pushed. *)
Definition stack_start (sp n : Z) : Z := if decide (Z.land (sub64 sp (n * 8)) 15 ≠ 0) then sub64 sp 8 else sp.
Lemma stack_start_aligned sp n :
  sp mod 16 = 0 → 0 ≤ n → n * 8 + 8 ≤ sp < u64_modulus →
  (stack_start sp n - 8 * n) mod 16 = 0 ∧ sp - 8 ≤ stack_start sp n ≤ sp.
Proof.
  intros Hsp Hn Hr. unfold stack_start. rewrite !sub64_small by lia.
  change 15 with (Z.ones 4). rewrite Z.land_ones by done. change (2 ^ 4) with 16.
  destruct (decide _) as [E|E]; Z.div_mod_to_equations; lia.
Qed.

Lemma rand_place sp :
  32 ≤ sp < u64_modulus → ∃ r, Z.land (sub64 sp 16) (not64 15) = r ∧ Z.land r (not64 7) = r ∧ r mod 16 = 0 ∧ sp - 31 ≤ r ≤ sp - 16.
Proof.
  intros Hr. rewrite sub64_small by lia. change 15 with (Z.ones 4). change 7 with (Z.ones 3).
  rewrite land_not_ones by (unfold is_u64; lia). eexists. split; [done|]. change (2 ^ 4) with 16.
  assert (is_u64 (sp - 16 - (sp - 16) mod 16)) by (unfold is_u64; Z.div_mod_to_equations; lia).
  rewrite land_not_ones by (done || lia). change (2 ^ 3) with 8. Z.div_mod_to_equations; lia.
Qed.

(** Pointers to strings, as [push_strings] returns them. *)
Definition points_to (ptrs : list Z) (strs : list (list Z)) m : Prop :=
  length ptrs = length strs ∧ ∀ i p s, ptrs !! i = Some p → strs !! i = Some s → uread p (length s) (m_sys m) = s.

Lemma push_strings_points strs sp m :
  stack_present m → STACK_BASE ≤ sp - total strs → sp ≤ USER_STACK_TOP →
  ∃ ptrs m', push_strings write_protect strs sp m = Ret (ptrs, sp - total strs, m') ∧ only_below sp m m' ∧ length ptrs = length strs ∧
    Forall is_u64 ptrs ∧ ∀ m'', only_below (sp - total strs) m' m'' → points_to ptrs strs m''.
Proof.
  intros Hp Hlo Hhi. destruct (push_strings_spec strs sp m Hp Hlo Hhi) as (ptrs & m' & E & Hb & Hl & Hs).
  exists ptrs, m'. split_and!; [done..| |].
  - apply Forall_lookup. intros i p Hi. destruct (lookup_lt_is_Some_2 strs i) as [s Es].
    { rewrite <- Hl. by eapply lookup_lt_Some. }
    destruct (Hs i s Es) as (p' & Hp' & H1 & H2 & _). simplify_eq.
    unfold is_u64, zlen, STACK_BASE, USER_STACK_TOP, USER_STACK_SIZE, u64_modulus in *. lia.
  - intros m'' (_ & _ & _ & Hr). split; [done|]. intros i p s Hi Es. destruct (Hs i s Es) as (p' & Hp' & H1 & H2 & H3).
    simplify_eq. rewrite Hr; [done|lia|]. unfold zlen, USER_STACK_TOP, u64_modulus in *. lia.
Qed.

Lemma points_below hi ptrs strs m m' :
  only_below hi m m' → (∀ m'', only_below hi m m'' → points_to ptrs strs m'') → points_to ptrs strs m'.
Proof. auto. Qed.

Lemma copy_rand {B} r b1 b2 m :
  stack_present m → STACK_BASE ≤ r → r + 16 ≤ USER_STACK_TOP → length b1 = 8%nat → length b2 = 8%nat →
  ∃ m', (∀ K : Mem N A → res B, (let! m := copy_in write_protect r b1 m in let! m := copy_in write_protect (add64 r 8) b2 m in K m) = K m') ∧
    only_below (r + 16) m m' ∧ uread r 16 (m_sys m') = b1 ++ b2.
Proof.
  intros Hp Hlo Hhi L1 L2. assert (Hr : 0 ≤ r ∧ r + 16 ≤ u64_modulus)
    by (unfold STACK_BASE, USER_STACK_TOP, USER_STACK_SIZE, u64_modulus in *; lia).
  rewrite copy_in_stack by (done || (unfold zlen, STACK_BASE in *; lia)). rewrite add64_small by lia.
  eexists. split; [intros K; cbn [res_bind]; rewrite copy_in_stack by (done || (unfold zlen, STACK_BASE in *; lia)); done|]. split.
  - eapply (only_below_trans _ (r + 16)); [lia| |apply only_below_write; unfold zlen; lia].
    apply only_below_write; unfold zlen; lia.
  - cbn [m_sys set_sys]. change 16%nat with (8 + 8)%nat. rewrite uread_app. f_equal.
    + rewrite uread_uwrite_other by lia. rewrite <- L1. apply uread_uwrite; lia.
    + change (Z.of_nat 8) with 8. rewrite <- L2 at 1. apply uread_uwrite; lia.
Qed.

(** The bytes the stack needs. *)
Definition stack_need (argv envp : list (list Z)) : Z :=
  total argv + total envp + 8 * Z.of_nat (length argv + length envp) + 160.

Lemma build_stack_spec (tsc ent : Z) (argv envp : list (list Z)) m :
  stack_present m → is_u64 ent → stack_need argv envp ≤ USER_STACK_SIZE →
  ∃ sp m' argv_ptrs envp_ptrs rand_ptr,
    build_stack write_protect tsc ent argv envp m = Ret (sp, m') ∧
    sp mod 16 = 0 ∧ STACK_BASE ≤ sp < USER_STACK_TOP ∧
    (∀ j w, initial_frame rand_ptr ent argv_ptrs envp_ptrs !! j = Some w → uread_le (sp + 8 * Z.of_nat j) 8 (m_sys m') = w) ∧
    points_to argv_ptrs argv m' ∧ points_to envp_ptrs envp m' ∧
    uread rand_ptr 16 (m_sys m') = to_le 8 tsc ++ to_le 8 (Z.lxor tsc 0xDEADBEEFCAFEBABE).
Proof.
  intros Hp He Hneed. unfold stack_need in Hneed. pose proof (total_nonneg argv) as Ha. pose proof (total_nonneg envp) as Hv.
  assert (HB : STACK_BASE = USER_STACK_TOP - USER_STACK_SIZE) by done.
  assert (HT : USER_STACK_TOP = 0x7FFFFFFFF000) by done. assert (HS : USER_STACK_SIZE = 0x800000) by done.
  assert (HU : u64_modulus = 0x10000000000000000) by done.
  destruct (push_strings_points argv USER_STACK_TOP m) as (ap & m1 & E1 & B1 & L1 & F1 & P1); [done|lia|lia|].
  set (s1 := USER_STACK_TOP - total argv) in *.
  destruct (push_strings_points envp s1 m1) as (ep & m2 & E2 & B2 & L2 & F2 & P2); [by eapply stack_present_below|lia|lia|].
  set (s2 := s1 - total envp) in *.
  destruct (rand_place s2) as (r & R1 & R2 & R3 & R4); [lia|].
  assert (Hp2 : stack_present m2) by (eapply stack_present_below, stack_present_below, Hp; done).
  destruct (copy_rand (B := Z * Mem N A) r (to_le 8 tsc) (to_le 8 (Z.lxor tsc 0xDEADBEEFCAFEBABE)) m2)
    as (m3 & E3 & B3 & D3); [done|lia|lia|apply length_to_le..|].
  set (n := Z.of_nat (1 + length ap + 1 + length ep + 1 + 10)).
  destruct (stack_start_aligned r n) as [Al Bs]; [done|lia|lia|].
  set (top := stack_start r n) in *. set (ws := stack_words r ent ap ep).
  assert (Hn : Z.of_nat (length ws) = n) by apply length_stack_words.
  assert (Hws : Forall is_u64 ws).
  { unfold ws. rewrite stack_words_frame. apply Forall_reverse. apply frame_words; done || (unfold is_u64; lia). }
  destruct (push_words_spec ws top m3) as (m4 & E4 & B4 & W4);
    [by eapply stack_present_below|lia|lia|done|]. rewrite Hn in E4.
  exists (top - 8 * n), m4, ap, ep, r.
  assert (B34 : only_below s2 m2 m4).
  { eapply (only_below_trans s2 top); [lia| |done]. destruct B3 as (V & R & K & H). split_and!; [done..|]. intros; apply H; lia. }
  split_and!; [..|lia|lia| | | |].
  - unfold build_stack. rewrite E1. cbn [res_bind]. rewrite E2. cbn [res_bind]. rewrite R1, E3, R2. exact E4.
  - done.
  - intros j w Hj. pose proof (lookup_lt_Some _ _ _ Hj) as Hlt.
    assert (Hlen : length (initial_frame r ent ap ep) = length ws) by (unfold ws; by rewrite stack_words_frame, length_reverse).
    rewrite <- (W4 (length ws - 1 - j)%nat w).
    + f_equal. rewrite Hlen in Hlt. lia.
    + unfold ws in *. rewrite stack_words_frame in *. rewrite length_reverse in *. rewrite reverse_lookup by lia.
      rewrite <- Hj. f_equal. lia.
  - apply P1. eapply (only_below_trans s1 s2); [lia| |done]. done.
  - by apply P2.
  - destruct B4 as (_ & _ & _ & H). rewrite H by lia. done.
Qed.

(** C19. The initial stack. With the stack pages present and enough room for the
    strings, [sys_execve] builds a stack whose pointer is a multiple of 16 and from
    which the program reads argc, the argument pointers, a zero, the environment
    pointers, a zero and the auxiliary vector (page size, entry, random bytes, end);
    each pointer leads to its string, none overwritten by a later one. *)
Theorem exec_stack_correct (tsc ent : Z) (argv envp : list (list Z)) m :
  stack_present m → is_u64 ent → stack_need argv envp ≤ USER_STACK_SIZE →
  ∃ sp m' argv_ptrs envp_ptrs rand_ptr,
    build_stack write_protect tsc ent argv envp m = Ret (sp, m') ∧
    sp mod 16 = 0 ∧ STACK_BASE ≤ sp < USER_STACK_TOP ∧
    (∀ j w, initial_frame rand_ptr ent argv_ptrs envp_ptrs !! j = Some w → uread_le (sp + 8 * Z.of_nat j) 8 (m_sys m') = w) ∧
    points_to argv_ptrs argv m' ∧ points_to envp_ptrs envp m' ∧
    uread rand_ptr 16 (m_sys m') = to_le 8 tsc ++ to_le 8 (Z.lxor tsc 0xDEADBEEFCAFEBABE).
Proof. apply build_stack_spec. Qed.

(** ** Loading segments *)

Section image.
Context (map_to : Z → Z → Z → Z → A * pmem → res (bool * (A * pmem))).
Context (take_frame : Z → A → res (option Z * A)).

(** [n] bytes at [a] lie outside the [k] bytes at [b]. *)
Definition apart (a n b k : Z) : Prop := a + n ≤ b ∨ b + k ≤ a.

(** A byte that kept its value or was zeroed. *)
Definition kept_or_zero (a : Z) m m' : Prop :=
  uread a 1 (m_sys m') = uread a 1 (m_sys m) ∨ uread a 1 (m_sys m') = [0].
Lemma kept_or_zero_trans a m1 m2 m3 : kept_or_zero a m1 m2 → kept_or_zero a m2 m3 → kept_or_zero a m1 m3.
Proof. unfold kept_or_zero. intros [H|H] [H'|H']; rewrite H', ?H; auto. Qed.

(** What a new page shows: zeros in it, nothing new elsewhere. *)
Lemma show_fresh_bytes page m m' :
  0 ≤ page → page + PAGE_SIZE ≤ u64_modulus → m_sys m' = m_sys m →
  (∀ a n, 0 ≤ a → a + Z.of_nat n ≤ u64_modulus → apart a (Z.of_nat n) page PAGE_SIZE →
    uread a n (m_sys (show_fresh page m m')) = uread a n (m_sys m)) ∧
  (∀ a, 0 ≤ a < u64_modulus → kept_or_zero a m (show_fresh page m m')).
Proof.
  intros Hp Hl E. unfold show_fresh. destruct (_ && _); [|unfold kept_or_zero; rewrite E; auto].
  unfold kept_or_zero. cbn [m_sys set_sys]. rewrite E.
  assert (Hz : Z.of_nat (length (replicate PAGE_BYTES 0)) = PAGE_SIZE) by (by rewrite length_replicate).
  assert (Hout : ∀ a n, 0 ≤ a → a + Z.of_nat n ≤ u64_modulus → apart a (Z.of_nat n) page PAGE_SIZE →
    uread a n (uwrite page (replicate PAGE_BYTES 0) (m_sys m)) = uread a n (m_sys m)).
  { intros a n Ha Hn Hap. apply uread_uwrite_other; rewrite ?Hz; done. }
  split; [done|]. intros a Ha. destruct (decide (page ≤ a < page + PAGE_SIZE)) as [Hin|Hin].
  - right. replace a with (page + Z.of_nat (Z.to_nat (a - page))) by lia.
    rewrite uread_part; [|lia|lia|unfold PAGE_SIZE in *; rewrite length_replicate; unfold PAGE_BYTES; lia].
    rewrite drop_replicate. destruct (PAGE_BYTES - Z.to_nat (a - page))%nat eqn:En; [|done].
    unfold PAGE_BYTES, PAGE_SIZE in *. lia.
  - left. apply Hout; [lia|lia|]. unfold apart. lia.
Qed.

Lemma map_user_pages_bytes n v flags m r m' :
  0 ≤ v → v + Z.of_nat n * PAGE_SIZE < u64_modulus → map_user_pages map_to take_frame n v flags m = Ret (r, m') →
  (∀ a k, 0 ≤ a → a + Z.of_nat k ≤ u64_modulus → apart a (Z.of_nat k) v (Z.of_nat n * PAGE_SIZE) →
    uread a k (m_sys m') = uread a k (m_sys m)) ∧
  (∀ a, 0 ≤ a < u64_modulus → kept_or_zero a m m').
Proof.
  intros Hv Hl. revert v m Hv Hl. induction n as [|n IH]; intros v m Hv Hl; cbn [map_user_pages].
  { intros [= _ <-]. split; [done|]. intros a _. by left. }
  destruct (map_pages _ _ 1 v _ _) as [[[e|] vm]| |]; cbn [res_bind]; [| |done..].
  { intros [= _ <-]. split; [done|]. intros a _. by left. }
  assert (HP : 0 < PAGE_SIZE) by done. set (m1 := set_vm vm m). rewrite add64_small by nia.
  destruct (show_fresh_bytes v m m1) as [O1 Z1]; [done|nia|done|].
  intros H. apply IH in H as [O2 Z2]; [|nia|nia]. split.
  - intros a k Ha Hk Hap. rewrite O2; [apply O1| | |]; try done; unfold apart in *; nia.
  - intros a Ha. eapply kept_or_zero_trans; [by apply Z1|by apply Z2].
Qed.

(** The pages of a segment. *)
Definition seg_base (bias : Z) (seg : LoadedSegment) : Z := page_down (bias + s_vaddr seg).
Definition seg_span (bias : Z) (seg : LoadedSegment) : Z :=
  page_up (bias + s_vaddr seg - seg_base bias seg + s_memsz seg).

(** A segment whose place is in range and whose file part fits. *)
Definition segment_ok (bias : Z) (seg : LoadedSegment) : Prop :=
  0 ≤ bias ∧ 0 ≤ s_vaddr seg ∧ zlen (s_data seg) ≤ s_memsz seg ∧
  bias + s_vaddr seg + s_memsz seg + 2 * PAGE_SIZE < u64_modulus.

Lemma seg_pages bias seg :
  segment_ok bias seg →
  0 ≤ seg_base bias seg ≤ bias + s_vaddr seg ∧ seg_base bias seg + seg_span bias seg + PAGE_SIZE < u64_modulus ∧
  bias + s_vaddr seg + s_memsz seg ≤ seg_base bias seg + seg_span bias seg ∧ seg_span bias seg mod PAGE_SIZE = 0 ∧
  0 ≤ seg_span bias seg.
Proof.
  intros (Hb & Hv & Hd & Hr). assert (0 ≤ zlen (s_data seg)) by (unfold zlen; lia). unfold seg_span, seg_base.
  rewrite page_down_eq by (unfold is_u64, PAGE_SIZE, u64_modulus in *; lia).
  pose proof (Z.mod_pos_bound (bias + s_vaddr seg) PAGE_SIZE ltac:(done)) as Hm.
  pose proof (Z.mod_le (bias + s_vaddr seg) PAGE_SIZE ltac:(lia) ltac:(done)) as Hle.
  set (o := (bias + s_vaddr seg) mod PAGE_SIZE) in *.
  replace (bias + s_vaddr seg - (bias + s_vaddr seg - o) + s_memsz seg) with (o + s_memsz seg) by lia.
  destruct (page_up_bounds (o + s_memsz seg)) as [H1 H2]; [lia|unfold PAGE_SIZE in *; lia|].
  split_and!; try lia; try done.
Qed.

(** What a segment is in memory: its bytes, then zeros. *)
Definition segment_bytes (seg : LoadedSegment) : list Z :=
  s_data seg ++ replicate (Z.to_nat (s_memsz seg - zlen (s_data seg))) 0.
Lemma length_segment_bytes bias seg : segment_ok bias seg → Z.of_nat (length (segment_bytes seg)) = s_memsz seg.
Proof. intros (_ & _ & H & _). unfold segment_bytes, zlen in *. rewrite length_app, length_replicate. lia. Qed.

Lemma copy_in_read va b m m' :
  0 ≤ va → va + zlen b ≤ u64_modulus → copy_in write_protect va b m = Ret m' →
  uread va (length b) (m_sys m') = b ∧
  ∀ a n, 0 ≤ a → a + Z.of_nat n ≤ u64_modulus → apart a (Z.of_nat n) va (zlen b) →
    uread a n (m_sys m') = uread a n (m_sys m).
Proof.
  intros Hv Hb E. apply copy_in_sys in E as ->. cbn [m_sys set_sys]. unfold zlen in *. split; [by apply uread_uwrite|].
  intros a n Ha Hn Hap. by apply uread_uwrite_other.
Qed.

(** The file part, then zeros for the rest. *)
Lemma fill_segment va seg m m' :
  0 ≤ va → zlen (s_data seg) ≤ s_memsz seg → va + s_memsz seg < u64_modulus →
  (let! m := copy_in write_protect va (s_data seg) m in
   if decide (0 < s_memsz seg - zlen (s_data seg)) then
     let! m := copy_in write_protect (add64 va (zlen (s_data seg)))
                 (replicate (Z.to_nat (s_memsz seg - zlen (s_data seg))) 0) m in Ret (true, m)
   else Ret (true, m)) = Ret (true, m') →
  uread va (length (segment_bytes seg)) (m_sys m') = segment_bytes seg ∧
  ∀ a n, 0 ≤ a → a + Z.of_nat n ≤ u64_modulus → apart a (Z.of_nat n) va (s_memsz seg) →
    uread a n (m_sys m') = uread a n (m_sys m).
Proof.
  intros Hv Hd Hr. assert (0 ≤ zlen (s_data seg)) by (unfold zlen; lia).
  destruct (copy_in write_protect va (s_data seg) m) as [m2| |] eqn:E2; cbn [res_bind]; [|done..].
  apply copy_in_read in E2 as [R2 O2]; [|lia|lia]. unfold segment_bytes.
  set (k := s_memsz seg - zlen (s_data seg)) in *. rewrite length_app, length_replicate, uread_app.
  case_decide as Hk.
  - rewrite add64_small by lia. destruct (copy_in write_protect _ _ m2) as [m3| |] eqn:E3; cbn [res_bind]; [|done..]. intros [= <-].
    assert (Hk' : zlen (replicate (Z.to_nat k) 0) = k) by (unfold zlen; rewrite length_replicate; lia).
    apply copy_in_read in E3 as [R3 O3]; [|lia|lia]. rewrite length_replicate in R3. rewrite Hk' in O3. split.
    + f_equal; [|exact R3]. rewrite O3; [done|lia|unfold zlen in *; lia|left; unfold zlen; lia].
    + intros a n Ha Hn [Hap|Hap]; (rewrite O3; [apply O2; try done|done|done|]); unfold apart; lia.
  - intros [= <-]. replace (Z.to_nat k) with 0%nat by lia. cbn [replicate uread seq fmap list_fmap]. rewrite !app_nil_r.
    split; [done|]. intros a n Ha Hn Hap. apply O2; [done..|]. unfold apart in *. lia.
Qed.

Lemma load_segment_true bias seg m m' :
  segment_ok bias seg → load_segment map_to take_frame write_protect bias seg m = Ret (true, m') →
  uread (bias + s_vaddr seg) (length (segment_bytes seg)) (m_sys m') = segment_bytes seg ∧
  (∀ a n, 0 ≤ a → a + Z.of_nat n ≤ u64_modulus → apart a (Z.of_nat n) (seg_base bias seg) (seg_span bias seg) →
    uread a n (m_sys m') = uread a n (m_sys m)) ∧
  (∀ a, 0 ≤ a < u64_modulus → apart a 1 (bias + s_vaddr seg) (s_memsz seg) → kept_or_zero a m m').
Proof.
  intros Hok. destruct (seg_pages bias seg Hok) as (Hs1 & Hs2 & Hs3 & Hs4 & Hs5). destruct Hok as (Hb & Hv & Hd & Hr).
  unfold load_segment. cbv zeta. assert (0 ≤ zlen (s_data seg)) by (unfold zlen; lia). assert (HP : 0 < PAGE_SIZE) by done.
  rewrite (add64_small bias) by lia. rewrite (sub64_small (s_memsz seg)) by lia. fold (seg_base bias seg).
  rewrite (sub64_small (bias + s_vaddr seg)) by lia. rewrite (add64_small _ (s_memsz seg)) by lia. fold (seg_span bias seg).
  unfold map_user. cbv zeta. rewrite add64_small, sub64_small by lia.
  destruct (map_user_pages _ _ _ _ _ m) as [[[e|] m1]| |] eqn:E; cbn [res_bind]; [done| |done..].
  assert (Ek : Z.of_nat (Z.to_nat ((seg_span bias seg + PAGE_SIZE - 1) / PAGE_SIZE)) * PAGE_SIZE = seg_span bias seg).
  { pose proof (Z.div_mod (seg_span bias seg) PAGE_SIZE ltac:(done)) as Hdm. rewrite Hs4, Z.add_0_r in Hdm.
    assert (0 ≤ seg_span bias seg / PAGE_SIZE) by (apply Z.div_pos; lia).
    replace (seg_span bias seg + PAGE_SIZE - 1) with (seg_span bias seg / PAGE_SIZE * PAGE_SIZE + (PAGE_SIZE - 1)) by lia.
    rewrite Z.div_add_l by done. change ((PAGE_SIZE - 1) / PAGE_SIZE) with 0. lia. }
  apply map_user_pages_bytes in E as [O1 Z1]; [|lia|rewrite Ek; lia]. rewrite Ek in O1. clear Ek.
  intros E2. apply fill_segment in E2 as [R2 O2]; [|lia|lia|lia]. split; [done|]. split.
  - intros a n Ha Hn Hap. rewrite O2; [by apply O1|done|done|]. unfold apart in *. lia.
  - intros a Ha Hap. specialize (Z1 a Ha). unfold kept_or_zero in *. rewrite (O2 a 1%nat); [done|lia|lia|done].
Qed.

Lemma load_segments_true bias segs m m' :
  Forall (segment_ok bias) segs →
  (∀ i j s1 s2, segs !! i = Some s1 → segs !! j = Some s2 → i ≠ j →
    apart (seg_base bias s1) (seg_span bias s1) (seg_base bias s2) (seg_span bias s2)) →
  load_segments map_to take_frame write_protect bias segs m = Ret (true, m') →
  (∀ seg, seg ∈ segs → uread (bias + s_vaddr seg) (length (segment_bytes seg)) (m_sys m') = segment_bytes seg) ∧
  (∀ a n, 0 ≤ a → a + Z.of_nat n ≤ u64_modulus →
    (∀ seg, seg ∈ segs → apart a (Z.of_nat n) (seg_base bias seg) (seg_span bias seg)) →
    uread a n (m_sys m') = uread a n (m_sys m)) ∧
  (∀ a, 0 ≤ a < u64_modulus → (∀ seg, seg ∈ segs → apart a 1 (bias + s_vaddr seg) (s_memsz seg)) → kept_or_zero a m m').
Proof.
  intros Hok. revert m. induction Hok as [|seg segs Hs Hok IH]; intros m Hd; cbn [load_segments].
  { intros [= <-]. split; [intros seg Hin; by apply not_elem_of_nil in Hin|]. split; [done|]. intros a _ _. by left. }
  destruct (load_segment map_to take_frame write_protect bias seg m) as [[[|] m1]| |] eqn:E; cbn [res_bind]; [|done..]. intros E2.
  apply load_segment_true in E as (R1 & O1 & Z1); [|done]. pose proof (seg_pages bias seg Hs) as (Hs1 & _ & Hs3 & _).
  destruct (IH m1) as (R2 & O2 & Z2); [intros i j s1 s2 Hi Hj Hij; apply (Hd (S i) (S j)); done || lia|done|].
  split; [|split].
  - intros s' Hin. apply elem_of_cons in Hin as [->|Hin]; [|by apply R2].
    rewrite O2; [done|lia|rewrite (length_segment_bytes bias) by done; unfold segment_ok, PAGE_SIZE in Hs; lia|].
    intros s2 H2. apply list_elem_of_lookup in H2 as [j Hj]. rewrite (length_segment_bytes bias) by done.
    pose proof (Hd 0%nat (S j) seg s2 eq_refl Hj ltac:(lia)) as Hap. unfold apart in *. lia.
  - intros a n Ha Hn Hap. rewrite O2; [apply O1|..]; try done; intros; apply Hap; by constructor.
  - intros a Ha Hap. eapply kept_or_zero_trans; [apply Z1|apply Z2]; try done; intros; apply Hap; by constructor.
Qed.

(** C18. Programs are loaded as the file says. Let an image name no interpreter and let its
    segments lie on different pages. When [load_image] succeeds, it returns the entry
    point of the image and every segment is found at its address, the bytes of the
    file first and zeros up to its size in memory. Nothing is written outside the pages
    of the segments, and in those pages the bytes around the segments keep their value
    or are the zeros of a fresh page. (With an interpreter its segments are
    written too; with CR0.WP set a read-only segment stops the kernel,
    [readonly_segment_halts].) *)
Theorem load_image_correct image r m m' :
  Forall (segment_ok 0) (segments image) →
  (∀ i j s1 s2, segments image !! i = Some s1 → segments image !! j = Some s2 → i ≠ j →
    apart (seg_base 0 s1) (seg_span 0 s1) (seg_base 0 s2) (seg_span 0 s2)) →
  interp image = None →
  load_image map_to take_frame write_protect image m = Ret (inl r, m') →
  r = entry image ∧
  (∀ seg, seg ∈ segments image → uread (s_vaddr seg) (length (segment_bytes seg)) (m_sys m') = segment_bytes seg) ∧
  (∀ a n, 0 ≤ a → a + Z.of_nat n ≤ u64_modulus →
    (∀ seg, seg ∈ segments image → apart a (Z.of_nat n) (seg_base 0 seg) (seg_span 0 seg)) →
    uread a n (m_sys m') = uread a n (m_sys m)) ∧
  (∀ a, 0 ≤ a < u64_modulus → (∀ seg, seg ∈ segments image → apart a 1 (s_vaddr seg) (s_memsz seg)) →
    uread a 1 (m_sys m') = uread a 1 (m_sys m) ∨ uread a 1 (m_sys m') = [0]).
Proof.
  intros Hok Hd Hi. unfold load_image. rewrite Hi.
  destruct (load_segments _ _ _ 0 _ m) as [[[|] m1]| |] eqn:E; cbn [res_bind negb]; [|done..]. intros [= <- <-].
  split; [done|]. exact (load_segments_true 0 _ m m1 Hok Hd E).
Qed.

(** With CR0.WP set, a segment without write permission cannot be loaded: once its
    pages are mapped read-only, the copy of its bytes faults in the kernel. *)
Theorem readonly_segment_halts bias seg m m1 :
  map_user map_to take_frame (page_down (add64 bias (s_vaddr seg)))
    (page_up (add64 (sub64 (add64 bias (s_vaddr seg)) (page_down (add64 bias (s_vaddr seg)))) (s_memsz seg)))
    false (bool_decide (Z.land (s_pflags seg) PF_X ≠ 0)) m = Ret (None, m1) →
  Z.land (s_pflags seg) PF_W = 0 → s_data seg ≠ [] → write_protect = true →
  walk_writable (vm_mem (m_vm m1)) (cr3_base (root_cr3 (m_sys m1))) (page_down (add64 bias (s_vaddr seg))) = false →
  load_segment map_to take_frame write_protect bias seg m = kernel_fault.
Proof.
  intros Hm Hw Hd Hwp Hro. unfold load_segment. cbv zeta. rewrite Hw, bool_decide_eq_false_2, Hm by (by intros []).
  cbn [res_bind]. unfold copy_in, range_writable. destruct (s_data seg) as [|b d]; [done|]. cbn [length seq forallb].
  replace (add64 (add64 bias (s_vaddr seg)) (Z.of_nat 0)) with (add64 bias (s_vaddr seg)).
  2: { unfold add64 at 2. rewrite Z.add_0_r. symmetry. apply u64_small, u64_range. }
  unfold writable_now. rewrite Hwp, Hro. cbn [negb orb]. by rewrite andb_false_r.
Qed.
End image.
End exec.

(** ** Concrete instances *)

(** One table page that is its own next level: every address is present. *)
Definition looped_tables : pmem := list_to_map ((λ i, (4096 + 8 * Z.of_nat i, 4096 + 7)) <$> seq 0 512).
Definition looped_mem : Mem unit BuddyAllocator :=
  mkMem demo_sys (mkVm small_pmm looped_tables ∅ 4096 4096 0) cold_cache.

Lemma looped_pages :
  forallb (λ k, writable_now true (STACK_BASE + PAGE_SIZE * Z.of_nat k) looped_mem) (seq 0 2048) = true.
Proof. vm_compute. reflexivity. Qed.
Lemma looped_stack_present : stack_present true looped_mem.
Proof.
  intros va Hva. pose proof looped_pages as H. rewrite forallb_forall in H.
  rewrite page_down_eq by (unfold is_u64, USER_STACK_TOP, USER_STACK_SIZE, u64_modulus in *; lia).
  replace (va - va mod PAGE_SIZE)
    with (STACK_BASE + PAGE_SIZE * Z.of_nat (Z.to_nat ((va - STACK_BASE) / PAGE_SIZE))).
  - apply H, in_seq. unfold STACK_BASE, USER_STACK_TOP, USER_STACK_SIZE, PAGE_SIZE in *. Z.div_mod_to_equations. lia.
  - unfold STACK_BASE, USER_STACK_TOP, USER_STACK_SIZE, PAGE_SIZE in *. Z.div_mod_to_equations. lia.
Qed.

(** [a b], no environment but [E=]. *)
Lemma exec_stack_correct_witness :
  ∃ sp m', build_stack true 5 0x400000 [[97; 0]; [98; 0]] [[69; 61; 0]] looped_mem = Ret (sp, m') ∧ sp mod 16 = 0 ∧
    uread_le sp 8 (m_sys m') = 2.
Proof.
  destruct (exec_stack_correct true 5 0x400000 [[97; 0]; [98; 0]] [[69; 61; 0]] looped_mem)
    as (sp & m' & ap & ep & rp & E & Hal & _ & Hw & [Hl _] & _);
    [exact looped_stack_present|done|vm_compute; congruence|].
  exists sp, m'. split; [exact E|]. split; [exact Hal|]. rewrite <- (Hw 0%nat 2).
  - f_equal. lia.
  - cbn. rewrite Hl. done.
Defined.

(** A mapper for addresses whose tables exist, and an address space with the tables for
    the two megabytes at 0x400000. *)
Definition demo_map_to (l4 virt phys flags : Z) (s : BuddyAllocator * pmem) : res (bool * (BuddyAllocator * pmem)) :=
  Ret (match walk_l1 s.2 l4 virt with
       | Some p => if has (rd s.2 p) PTE_PRESENT then (false, s) else (true, (s.1, <[p := Z.lor phys flags]> s.2))
       | None => (false, s)
       end).
Definition demo_frame_source (pid : Z) (a : BuddyAllocator) : res (option Z * BuddyAllocator) := fa_alloc a.
Definition demo_tables : pmem := {[ 0x104000 := 0x105007; 0x105000 := 0x106007; 0x106010 := 0x107007 ]}.
Definition demo_space : Mem unit BuddyAllocator :=
  switch_cr3 0x104000 (mkMem demo_sys (mkVm small_pmm demo_tables ∅ 0x104000 0x104000 0) cold_cache).

(** Two segments, of one page each. *)
Definition demo_program (flags : Z) : ElfImage :=
  mkImage 0x400010 [mkSegment 0x400010 5 [1; 2; 3] flags; mkSegment 0x401000 2 [9] PF_W] None None 2.
Lemma demo_program_ok f : Forall (segment_ok 0) (segments (demo_program f)).
Proof. repeat constructor; unfold segment_ok, zlen, u64_modulus, PAGE_SIZE; cbn; lia. Qed.
Lemma demo_program_apart f i j s1 s2 :
  segments (demo_program f) !! i = Some s1 → segments (demo_program f) !! j = Some s2 → i ≠ j →
  apart (seg_base 0 s1) (seg_span 0 s1) (seg_base 0 s2) (seg_span 0 s2).
Proof.
  unfold apart. destruct i as [|[|i]], j as [|[|j]]; cbn [lookup list_lookup segments demo_program]; intros; simplify_eq;
    vm_compute; intuition congruence.
Qed.
Definition demo_loaded : Mem unit BuddyAllocator :=
  match load_image demo_map_to demo_frame_source true (demo_program PF_W) demo_space with Ret (_, m) => m | _ => demo_space end.
Lemma demo_load :
  load_image demo_map_to demo_frame_source true (demo_program PF_W) demo_space = Ret (inl 0x400010, demo_loaded).
Proof.
  unfold demo_loaded.
  assert (H : match load_image demo_map_to demo_frame_source true (demo_program PF_W) demo_space with
              | Ret (inl r, _) => r =? 0x400010 | _ => false end = true) by (vm_compute; reflexivity).
  destruct (load_image demo_map_to demo_frame_source true (demo_program PF_W) demo_space) as [[[r|e] m]| |];
    [|discriminate H..]. apply Z.eqb_eq in H. by subst r.
Qed.
Lemma load_image_correct_witness :
  load_image demo_map_to demo_frame_source true (demo_program PF_W) demo_space = Ret (inl 0x400010, demo_loaded) ∧
  uread 0x400010 5 (m_sys demo_loaded) = [1; 2; 3; 0; 0].
Proof.
  split; [exact demo_load|].
  destruct (load_image_correct true demo_map_to demo_frame_source (demo_program PF_W) 0x400010 demo_space demo_loaded
    (demo_program_ok PF_W) (demo_program_apart PF_W) eq_refl demo_load) as (_ & H & _).
  exact (H (mkSegment 0x400010 5 [1; 2; 3] PF_W) ltac:(left)).
Defined.

(** The same program with its first segment read-only, as code is. *)
Lemma readonly_segment_halts_witness :
  load_segment demo_map_to demo_frame_source true 0 (mkSegment 0x400010 5 [1; 2; 3] PF_X) demo_space = kernel_fault.
Proof.
  assert (H : match map_user demo_map_to demo_frame_source 0x400000 4096 false true demo_space with
              | Ret (None, m) => negb (walk_writable (vm_mem (m_vm m)) (cr3_base (root_cr3 (m_sys m))) 0x400000)
              | _ => false end = true) by (vm_compute; reflexivity).
  destruct (map_user demo_map_to demo_frame_source 0x400000 4096 false true demo_space) as [[[e|] m1]| |] eqn:E;
    [discriminate H| |discriminate H..].
  pose proof (readonly_segment_halts true demo_map_to demo_frame_source 0 (mkSegment 0x400010 5 [1; 2; 3] PF_X) demo_space m1) as T.
  cbn [s_vaddr s_memsz s_pflags s_data] in T.
  replace (page_up (add64 (sub64 (add64 0 0x400010) (page_down (add64 0 0x400010))) 5)) with 4096 in T by (vm_compute; reflexivity).
  replace (page_down (add64 0 0x400010)) with 0x400000 in T by (vm_compute; reflexivity).
  replace (bool_decide (Z.land PF_X PF_X ≠ 0)) with true in T by (vm_compute; reflexivity).
  apply (T E); [reflexivity|discriminate|reflexivity|]. by apply negb_true_iff in H.
Defined.
