(* ===== verification/Slab.v ===== *)
(** The slab allocator, [kernel/src/memory/slab.rs]: caches of fixed-size objects
    carved out of frames, their free lists linked through the free objects. The
    allocator uses frame addresses as pointers; the words behind them are [slab_mem]. *)
From stdpp Require Import base numbers list functions gmap sets.
From S2P Require Import Prelude Pmm PmmFacts FrameAlloc PmmProps.

Record SlabCache := mkSlab { obj_size : Z; slab_align : Z; free_list : Z; slab_total : Z; in_use : Z }.

(** [SlabCache::new]. *)
Definition new_slab (obj_size align : Z) : SlabCache := mkSlab obj_size align 0 0 0.

Definition align_up (val align : Z) : Z := Z.land (sub64 (add64 val align) 1) (not64 (align - 1)).

(** [while ptr + obj_size <= end]: link the slot at [ptr] and move on. A slot has at
    least 8 bytes, so a frame holds at most 512. *)
Fixpoint carve (fuel : nat) (obj ptr end_ : Z) (c : SlabCache) (mem : gmap Z Z) : res (SlabCache * gmap Z Z) :=
  if decide (add64 ptr obj ≤ end_) then
    match fuel with
    | O => OutOfFuel
    | S n =>
        carve n obj (add64 ptr obj) end_
          (mkSlab (obj_size c) (slab_align c) ptr (add64 (slab_total c) 1) (in_use c)) (<[ptr := free_list c]> mem)
    end
  else Ret (c, mem).
Definition SLOTS_MAX : nat := 512.

Section slab.
Context {A : Type} {FA : FrameAllocator A}.

Record SlabMem := mkSlabMem { slab_mem : gmap Z Z; slab_frames : A }.

Definition grow (c : SlabCache) (m : SlabMem) : res (bool * SlabCache * SlabMem) :=
  let! (o, a) := fa_alloc (slab_frames m) in
  match o with
  | None => Ret (false, c, mkSlabMem (slab_mem m) a)
  | Some frame =>
      let obj := align_up (Z.max (obj_size c) 8) (slab_align c) in
      let! (c, mem) := carve SLOTS_MAX obj (align_up frame (slab_align c)) (add64 frame PAGE_SIZE) c (slab_mem m) in
      Ret (true, c, mkSlabMem mem a)
  end.

(** The pointer, 0 for null. *)
Definition slab_alloc (c : SlabCache) (m : SlabMem) : res (Z * SlabCache * SlabMem) :=
  let! (ok, c, m) := if decide (free_list c = 0) then grow c m else Ret (true, c, m) in
  if negb ok then Ret (0, c, m) else
  let node := free_list c in
  let next := default 0 (slab_mem m !! node) in
  Ret (node, mkSlab (obj_size c) (slab_align c) next (slab_total c) (add64 (in_use c) 1), m).

Definition slab_free (ptr : Z) (c : SlabCache) (m : SlabMem) : SlabCache * SlabMem :=
  (mkSlab (obj_size c) (slab_align c) ptr (slab_total c) (sat_sub (in_use c) 1),
   mkSlabMem (<[ptr := free_list c]> (slab_mem m)) (slab_frames m)).

(** ** The four caches *)

Definition boot_caches : list SlabCache := [new_slab 64 64; new_slab 128 64; new_slab 256 128; new_slab 512 128].

(** The cache for a request of [size] bytes. *)
Definition cache_for (size : Z) : option nat :=
  if decide (size ≤ 64) then Some 0%nat else if decide (size ≤ 128) then Some 1%nat
  else if decide (size ≤ 256) then Some 2%nat else if decide (size ≤ 512) then Some 3%nat else None.

Record Slabs := mkSlabs { caches : list SlabCache; slab_state : SlabMem }.

Definition alloc_slab (size : Z) (s : Slabs) : res (Z * Slabs) :=
  match cache_for size with
  | None => Ret (0, s)
  | Some k =>
      let! c := index (caches s) k in
      let! (p, c, m) := slab_alloc c (slab_state s) in
      Ret (p, mkSlabs (<[k := c]> (caches s)) m)
  end.

Definition free_slab (ptr size : Z) (s : Slabs) : res Slabs :=
  match cache_for size with
  | None => Ret s
  | Some k =>
      let! c := index (caches s) k in
      let (c, m) := slab_free ptr c (slab_state s) in
      Ret (mkSlabs (<[k := c]> (caches s)) m)
  end.
End slab.
Arguments SlabMem : clear implicits.
Arguments Slabs : clear implicits.

(** * The slab allocator hands out objects that never overlap. *)

(** ** Slots *)

(** The [n] slots of [o] bytes from [ptr] on. *)
Fixpoint slots (o ptr : Z) (n : nat) : list Z :=
  match n with O => [] | S n' => ptr :: slots o (ptr + o) n' end.

Lemma elem_of_slots o ptr n x : x ∈ slots o ptr n ↔ ∃ i, 0 ≤ i < Z.of_nat n ∧ x = ptr + o * i.
Proof.
  revert ptr. induction n as [|n IH]; intros ptr; cbn [slots].
  { split; [by intros H%not_elem_of_nil|intros (i & Hi & _); lia]. }
  rewrite elem_of_cons, IH. split.
  - intros [->|(i & Hi & ->)]; [exists 0; lia|exists (i + 1); lia].
  - intros (i & Hi & ->). destruct (decide (i = 0)) as [->|]; [left; lia|right; exists (i - 1); lia].
Qed.

(** Object size and alignment of the four caches. *)
Definition geometry : list (Z * Z) := [(64, 64); (128, 64); (256, 128); (512, 128)].

Lemma geometry_facts k o al :
  geometry !! k = Some (o, al) → (o = 64 ∨ o = 128 ∨ o = 256 ∨ o = 512) ∧ (al = 64 ∨ al = 128) ∧ o mod al = 0 ∧
    align_up (Z.max o 8) al = o.
Proof. do 4 (destruct k as [|k]; [intros [= <- <-]; split_and!; [tauto|tauto|done|vm_compute; reflexivity]|]). done. Qed.

Definition frame_ok (f : Z) : Prop := 0 < f ∧ f mod PAGE_SIZE = 0 ∧ f + 2 * PAGE_SIZE ≤ u64_modulus.

Lemma align_up_frame f al : frame_ok f → al = 64 ∨ al = 128 → align_up f al = f.
Proof.
  unfold frame_ok, PAGE_SIZE, align_up. intros (H0 & Hm & Hu) Hal.
  rewrite (add64_small f) by lia. rewrite sub64_small by lia.
  destruct Hal as [-> | ->]; [change (64 - 1) with (Z.ones 6)|change (128 - 1) with (Z.ones 7)];
    (rewrite land_not_ones; [|lia|unfold is_u64; lia]); [change (2 ^ 6) with 64|change (2 ^ 7) with 128];
    Z.div_mod_to_equations; lia.
Qed.

Lemma carve_spec o n : ∀ fuel ptr c mem,
  0 < o → 0 < ptr → (n ≤ fuel)%nat → ptr + o * Z.of_nat n + o < u64_modulus →
  ∃ c' mem', carve fuel o ptr (ptr + o * Z.of_nat n) c mem = Ret (c', mem') ∧
    obj_size c' = obj_size c ∧ slab_align c' = slab_align c ∧
    (∀ FL, chain mem 0 (free_list c) FL → (∀ x, x ∈ FL → x ∉ slots o ptr n) →
       chain mem' 0 (free_list c') (reverse (slots o ptr n) ++ FL)) ∧
    (∀ a, a ∉ slots o ptr n → mem' !! a = mem !! a).
Proof.
  induction n as [|n IH]; intros fuel ptr c mem Ho Hp Hf Hu.
  { exists c, mem. replace (ptr + o * Z.of_nat 0) with ptr by lia.
    assert (E : carve fuel o ptr ptr c mem = Ret (c, mem)).
    { destruct fuel; cbn [carve]; rewrite add64_small by lia; by rewrite decide_False by lia. }
    rewrite E. split_and!; done. }
  destruct fuel as [|fuel]; [lia|]. cbn [carve]. rewrite add64_small by lia. rewrite decide_True by lia.
  replace (ptr + o * Z.of_nat (S n)) with ((ptr + o) + o * Z.of_nat n) by lia.
  destruct (IH fuel (ptr + o) (mkSlab (obj_size c) (slab_align c) ptr (add64 (slab_total c) 1) (in_use c)) (<[ptr := free_list c]> mem))
    as (c' & mem' & E & H1 & H2 & HFL & Hout); [lia..|].
  exists c', mem'. split; [exact E|]. split; [done|]. split; [done|]. cbn [slots].
  assert (Hnot : ∀ x, x ∈ slots o (ptr + o) n → x ≠ ptr) by (intros x (i & Hi & ->)%elem_of_slots; nia).
  split.
  - intros FL Hc Hd. rewrite reverse_cons, <- app_assoc. apply HFL.
    + cbn. split; [done|]. split; [lia|]. exists (free_list c). split; [by rewrite lookup_insert_eq|].
      apply chain_frame; [done|]. intros x Hx E2. apply (Hd x Hx). rewrite Z.add_0_l in E2. rewrite E2. left.
    + intros x [->|Hx]%elem_of_cons Hin; [by apply (Hnot ptr Hin)|]. apply (Hd x Hx). by right.
  - intros a [Ha1 Ha2]%not_elem_of_cons. rewrite Hout by done. by rewrite lookup_insert_ne.
Qed.

(** ** One cache *)

(** [x] is a slot of one of the frames [S]. *)
Definition is_slot (o : Z) (S : gset Z) (x : Z) : Prop := ∃ f, f ∈ S ∧ x ∈ slots o f (Z.to_nat (PAGE_SIZE / o)).

Definition obj_geom (o : Z) : Prop := o = 64 ∨ o = 128 ∨ o = 256 ∨ o = 512.
Lemma geom_count o : obj_geom o → 0 < o ≤ 512 ∧ o * Z.of_nat (Z.to_nat (PAGE_SIZE / o)) = PAGE_SIZE ∧ (Z.to_nat (PAGE_SIZE / o) ≤ SLOTS_MAX)%nat.
Proof. intros [->|[->|[->| ->]]]; vm_compute; (split; [split; congruence|split; [done|repeat constructor]]). Qed.

Lemma slot_bounds o f x : obj_geom o → x ∈ slots o f (Z.to_nat (PAGE_SIZE / o)) → f ≤ x ∧ x + o ≤ f + PAGE_SIZE.
Proof.
  intros Ho (i & Hi & ->)%elem_of_slots. destruct (geom_count o Ho) as (Hp & Hn & _).
  revert Hi Hn. generalize (Z.of_nat (Z.to_nat (PAGE_SIZE / o))) as n. intros n Hi Hn.
  assert (o * (i + 1) ≤ o * n) by (apply Z.mul_le_mono_nonneg_l; lia). nia.
Qed.

Lemma frames_apart f g : f mod PAGE_SIZE = 0 → g mod PAGE_SIZE = 0 → f ≠ g → f + PAGE_SIZE ≤ g ∨ g + PAGE_SIZE ≤ f.
Proof. unfold PAGE_SIZE. intros. Z.div_mod_to_equations. lia. Qed.

Lemma same_cache_apart o S x y :
  obj_geom o → (∀ f, f ∈ S → frame_ok f) → is_slot o S x → is_slot o S y → x ≠ y → x + o ≤ y ∨ y + o ≤ x.
Proof.
  intros Ho HS (f & Hf & Hx) (g & Hg & Hy) Hne. destruct (decide (f = g)) as [->|Hfg].
  - apply elem_of_slots in Hx as (i & Hi & ->), Hy as (j & Hj & ->). destruct (geom_count o Ho) as [Hp _].
    assert (i < j ∨ j < i) as [Hij|Hij] by (destruct (Z.lt_trichotomy i j) as [|[->|]]; [lia|done|lia]); [left|right]; clear -Hij Hp; nia.
  - pose proof (slot_bounds _ _ _ Ho Hx). pose proof (slot_bounds _ _ _ Ho Hy).
    destruct (HS f Hf) as (_ & Hf2 & _), (HS g Hg) as (_ & Hg2 & _).
    destruct (frames_apart f g); [done..|lia|lia].
Qed.
Lemma two_caches_apart o o' S S' x y :
  obj_geom o → obj_geom o' → (∀ f, f ∈ S ∪ S' → frame_ok f) → S ## S' → is_slot o S x → is_slot o' S' y →
  x + o ≤ y ∨ y + o' ≤ x.
Proof.
  intros Ho Ho' HS Hd (f & Hf & Hx) (g & Hg & Hy). pose proof (slot_bounds _ _ _ Ho Hx). pose proof (slot_bounds _ _ _ Ho' Hy).
  assert (f ≠ g) by (intros ->; by apply (Hd g)).
  destruct (HS f ltac:(set_solver)) as (_ & Hf2 & _), (HS g ltac:(set_solver)) as (_ & Hg2 & _).
  destruct (frames_apart f g); [done..|lia|lia].
Qed.

(** Cache [c] with frames [S] and live objects [L]: the free list and the live objects
    are the slots, each once. *)
Record cache_ok (c : SlabCache) (mem : gmap Z Z) (S L : gset Z) (FL : list Z) : Prop := {
  ck_chain : chain mem 0 (free_list c) FL;
  ck_nodup : NoDup FL;
  ck_apart x : x ∈ FL → x ∉ L;
  ck_slots x : (x ∈ FL ∨ x ∈ L) ↔ is_slot (obj_size c) S x
}.

Lemma chain_same mem mem' h FL : chain mem 0 h FL → (∀ x, x ∈ FL → mem' !! x = mem !! x) → chain mem' 0 h FL.
Proof.
  revert h. induction FL as [|x FL IH]; intros h; [done|]. cbn. intros (-> & H0 & next & Hm & Hc) Heq.
  split; [done|]. split; [done|]. exists next. split; [rewrite Z.add_0_l in *; rewrite Heq; [done|left]|].
  apply IH; [done|]. intros y Hy. apply Heq. by right.
Qed.

Lemma cache_ok_mem c mem mem' S L FL :
  cache_ok c mem S L FL → (∀ x, x ∈ FL → mem' !! x = mem !! x) → cache_ok c mem' S L FL.
Proof. intros [H1 H2 H3 H4] Heq. split; [by eapply chain_same|done..]. Qed.

(** Taking the head of the free list, and putting an object back. *)
Lemma cache_pop c mem S L x FL t u :
  cache_ok c mem S L (x :: FL) →
  free_list c = x ∧ x ≠ 0 ∧ x ∉ L ∧
  cache_ok (mkSlab (obj_size c) (slab_align c) (default 0 (mem !! x)) t u) mem S ({[x]} ∪ L) FL.
Proof.
  intros [(-> & H0 & next & Hm & Hc) Hnd Hap Hsl]. rewrite Z.add_0_l in Hm. apply NoDup_cons in Hnd as [Hx Hnd].
  split; [done|]. split; [done|]. split; [apply Hap; left|]. split; cbn [free_list obj_size].
  - by rewrite Hm.
  - done.
  - intros y Hy. assert (y ≠ x) by (intros ->; done). pose proof (Hap y ltac:(by right)). set_solver.
  - intros y. rewrite <- Hsl, elem_of_cons. set_solver.
Qed.
Lemma cache_push c mem S L p FL t u :
  cache_ok c mem S L FL → p ∈ L → p ≠ 0 →
  cache_ok (mkSlab (obj_size c) (slab_align c) p t u) (<[p := free_list c]> mem) S (L ∖ {[p]}) (p :: FL).
Proof.
  intros [Hc Hnd Hap Hsl] Hp H0. assert (Hpf : p ∉ FL) by (intros H; by apply (Hap p)).
  split; cbn [free_list obj_size].
  - split; [done|]. split; [done|]. exists (free_list c). rewrite Z.add_0_l. split; [by rewrite lookup_insert_eq|].
    apply (chain_same mem); [done|]. intros y Hy. rewrite lookup_insert_ne; [done|]. intros ->. done.
  - by constructor.
  - intros y [->|Hy]%elem_of_cons; [set_solver|]. pose proof (Hap y Hy). set_solver.
  - intros y. rewrite <- Hsl, elem_of_cons. destruct (decide (y = p)); set_solver.
Qed.

(** ** All caches *)

Section world.
Context {A : Type} {FA : FrameAllocator A}.

Record world_ok (s : Slabs A) (live Ss : nat → gset Z) (FLs : nat → list Z) (F O : gset Z) : Prop := {
  w_rep : fa_rep (slab_frames (slab_state s)) F O;
  w_high f : f ∈ F ∪ O → f + 2 * PAGE_SIZE ≤ u64_modulus;
  w_len : length (caches s) = 4%nat;
  w_own k : Ss k ⊆ O;
  w_disj k j : k ≠ j → Ss k ## Ss j;
  w_cache k c : caches s !! k = Some c →
    geometry !! k = Some (obj_size c, slab_align c) ∧ cache_ok c (slab_mem (slab_state s)) (Ss k) (live k) (FLs k)
}.

Lemma world_frames s live Ss FLs F O k f : world_ok s live Ss FLs F O → f ∈ Ss k → frame_ok f.
Proof.
  intros Hw Hf. pose proof (w_own _ _ _ _ _ _ Hw k f Hf) as HO.
  destruct (fa_aligned _ _ _ f (w_rep _ _ _ _ _ _ Hw) HO). split_and!; [done..|]. apply (w_high _ _ _ _ _ _ Hw). set_solver.
Qed.

Lemma obj_geom_of k o al : geometry !! k = Some (o, al) → obj_geom o.
Proof. intros H. by apply geometry_facts in H as [H _]. Qed.

(** An operation on cache [k] that only touches the memory and frames of [k]. *)
Lemma world_update s live Ss FLs F O k c c' mem' a' L' S' FL' F' O' :
  world_ok s live Ss FLs F O → caches s !! k = Some c →
  geometry !! k = Some (obj_size c', slab_align c') → cache_ok c' mem' S' L' FL' →
  fa_rep a' F' O' → F' ∪ O' ⊆ F ∪ O → O ⊆ O' → S' ⊆ O' → (∀ j, j ≠ k → S' ## Ss j) →
  (∀ j cj x, j ≠ k → caches s !! j = Some cj → x ∈ FLs j → mem' !! x = slab_mem (slab_state s) !! x) →
  world_ok (mkSlabs (<[k := c']> (caches s)) (mkSlabMem mem' a')) (<[k := L']> live) (<[k := S']> Ss) (<[k := FL']> FLs) F' O'.
Proof.
  intros Hw Hk Hg Hc Hr HF HO HS Hd Hm. split; cbn [slab_state slab_frames slab_mem caches].
  - done.
  - intros f Hf. apply (w_high _ _ _ _ _ _ Hw). set_solver.
  - rewrite length_insert. apply Hw.
  - intros j. destruct (decide (j = k)) as [->|Hj]; [by rewrite fn_lookup_insert|rewrite fn_lookup_insert_ne by done].
    pose proof (w_own _ _ _ _ _ _ Hw j). set_solver.
  - intros i j Hij. destruct (decide (i = k)) as [->|Hi], (decide (j = k)) as [->|Hj]; rewrite ?fn_lookup_insert; [done|..];
      rewrite ?fn_lookup_insert_ne by done; [by apply Hd|symmetry; by apply Hd|by apply (w_disj _ _ _ _ _ _ Hw)].
  - intros j cj Hj. destruct (decide (j = k)) as [->|Hjk].
    + rewrite list_lookup_insert_eq in Hj by (by eapply lookup_lt_Some). injection Hj as <-. by rewrite !fn_lookup_insert.
    + rewrite list_lookup_insert_ne in Hj by done. rewrite !fn_lookup_insert_ne by done.
      destruct (w_cache _ _ _ _ _ _ Hw j cj Hj) as [Hgj Hcj]. split; [done|]. eapply cache_ok_mem; [done|]. intros x Hx. by apply (Hm j cj).
Qed.

(** Free objects of one cache are apart from the objects of another. *)
Lemma other_cache_apart s live Ss FLs F O k j c cj x y :
  world_ok s live Ss FLs F O → j ≠ k → caches s !! k = Some c → caches s !! j = Some cj →
  is_slot (obj_size c) (Ss k) x → y ∈ FLs j ∨ y ∈ live j → x + obj_size c ≤ y ∨ y + obj_size cj ≤ x.
Proof.
  intros Hw Hjk Hk Hj Hx Hy. destruct (w_cache _ _ _ _ _ _ Hw k c Hk) as [Gk Ck], (w_cache _ _ _ _ _ _ Hw j cj Hj) as [Gj Cj].
  apply (two_caches_apart _ _ (Ss k) (Ss j)); [by eapply obj_geom_of|by eapply obj_geom_of| | |done|by apply (ck_slots _ _ _ _ _ Cj)].
  - intros f [Hf|Hf]%elem_of_union; by eapply world_frames.
  - apply (w_disj _ _ _ _ _ _ Hw). done.
Qed.

(** ** Operations *)

Definition slabs_ok (s : Slabs A) (live : nat → gset Z) : Prop := ∃ Ss FLs F O, world_ok s live Ss FLs F O.

(** A cache whose list is empty and that gets a frame: all slots of the frame are free. *)
Lemma grow_cache c mem S L k f :
  geometry !! k = Some (obj_size c, slab_align c) → cache_ok c mem S L [] → frame_ok f → f ∉ S → (∀ g, g ∈ S → frame_ok g) →
  ∃ c' mem', carve SLOTS_MAX (align_up (Z.max (obj_size c) 8) (slab_align c)) (align_up f (slab_align c)) (add64 f PAGE_SIZE) c mem
      = Ret (c', mem') ∧ obj_size c' = obj_size c ∧ slab_align c' = slab_align c ∧
    cache_ok c' mem' ({[f]} ∪ S) L (reverse (slots (obj_size c) f (Z.to_nat (PAGE_SIZE / obj_size c)))) ∧
    (∀ a, a ∉ slots (obj_size c) f (Z.to_nat (PAGE_SIZE / obj_size c)) → mem' !! a = mem !! a).
Proof.
  intros Hg Hc Hf HfS HS. destruct (geometry_facts _ _ _ Hg) as (Ho & Hal & _ & Eo). rewrite Eo, align_up_frame by done.
  destruct (geom_count _ Ho) as (Hp & Hn & Hmax). pose proof Hf as (H0 & Hm & Hu). set (n := Z.to_nat (PAGE_SIZE / obj_size c)) in *.
  rewrite add64_small by (clear -Hu H0; unfold PAGE_SIZE in *; lia). rewrite <- Hn.
  destruct (carve_spec (obj_size c) n SLOTS_MAX f c mem) as (c' & mem' & E & E1 & E2 & HFL & Hout); [lia|lia|done|rewrite Hn; clear -Hu Hp; unfold PAGE_SIZE in *; lia|].
  exists c', mem'. split; [done|]. split; [done|]. split; [done|]. split; [|done].
  assert (Hslot : ∀ x, x ∈ slots (obj_size c) f n → ¬ is_slot (obj_size c) S x).
  { intros x Hx (g & Hg' & Hxg). pose proof (slot_bounds _ _ _ Ho Hx). pose proof (slot_bounds _ _ _ Ho Hxg).
    destruct (HS g Hg') as (_ & Hgm & _). assert (f ≠ g) by (intros ->; done).
    destruct (frames_apart f g); [done..|lia|lia]. }
  destruct Hc as [Hc _ _ Hsl]. split.
  - rewrite <- (app_nil_r (reverse _)). apply HFL; [done|]. by intros x Hx%not_elem_of_nil.
  - rewrite reverse_Permutation. clear -Hp. revert f. induction n as [|n IH]; intros f; cbn [slots]; [constructor|].
    constructor; [|apply IH]. intros (i & Hi & Hx)%elem_of_slots. nia.
  - intros x Hx HL. rewrite elem_of_reverse in Hx. apply (Hslot x Hx), Hsl. by right.
  - intros x. rewrite elem_of_reverse, E1. split.
    + intros [Hx|HL]; [exists f; split; [by apply elem_of_union_l, elem_of_singleton|done]|].
      destruct (proj1 (Hsl x) (or_intror HL)) as (g & Hg' & Hx). exists g. split; [by apply elem_of_union_r|done].
    + intros (g & Hg' & Hx). apply elem_of_union in Hg' as [Hg'%elem_of_singleton|Hg']; [subst g; by left|].
      right. destruct (proj2 (Hsl x)) as [H|H]; [by exists g|by apply not_elem_of_nil in H|done].
Qed.

(** Allocation always returns: null when the list is empty and no frame is left, or an
    object that was not live. *)
Lemma alloc_slab_spec size k s live :
  slabs_ok s live → cache_for size = Some k →
  ∃ p s', alloc_slab size s = Ret (p, s') ∧
    ((p = 0 ∧ slabs_ok s' live ∧ ∃ O, fa_rep (slab_frames (slab_state s)) ∅ O) ∨ (p ≠ 0 ∧ p ∉ live k ∧ slabs_ok s' (<[k := {[p]} ∪ live k]> live))).
Proof.
  intros (Ss & FLs & F & O & Hw) Hk. unfold alloc_slab. rewrite Hk.
  destruct (lookup_lt_is_Some_2 (caches s) k) as [c Ec].
  { rewrite (w_len _ _ _ _ _ _ Hw). unfold cache_for in Hk. repeat case_decide; simplify_eq; lia. }
  unfold index. rewrite Ec. cbn [res_bind]. destruct (w_cache _ _ _ _ _ _ Hw k c Ec) as [Gk Ck].
  pose proof (w_rep _ _ _ _ _ _ Hw) as Hr. unfold slab_alloc.
  destruct (FLs k) as [|x FL] eqn:EFL.
  - pose proof (ck_chain _ _ _ _ _ Ck) as H0. cbn in H0. rewrite decide_True by done. unfold grow.
    destruct (fa_alloc_spec _ _ _ Hr) as [[E ->]|(f & a' & E & Hf & Hr')]; rewrite E; cbn [res_bind negb].
    { exists 0, (mkSlabs (<[k := c]> (caches s)) (slab_state s)). split; [by destruct (slab_state s)|]. left. split; [done|].
      rewrite list_insert_id by done. split; [|by exists O]. exists Ss, FLs, ∅, O. by destruct s. }
    assert (HfO : f ∉ O) by (pose proof (fa_disjoint _ _ _ Hr) as Hd; clear -Hd Hf; set_solver).
    assert (Hfok : frame_ok f).
    { destruct (fa_aligned _ _ _ f Hr' ltac:(by apply elem_of_union_l, elem_of_singleton)). split_and!; [done..|].
      apply (w_high _ _ _ _ _ _ Hw). by apply elem_of_union_l. }
    assert (HfS : ∀ j, f ∉ Ss j) by (intros j HfS; by apply HfO, (w_own _ _ _ _ _ _ Hw j)).
    destruct (grow_cache c (slab_mem (slab_state s)) (Ss k) (live k) k f Gk Ck Hfok (HfS k)) as (c' & mem' & E' & E1 & E2 & Ck' & Hout);
      [by intros g; eapply world_frames|].
    rewrite E'. cbn [res_bind negb slab_mem slab_frames].
    set (FL := reverse _) in Ck'. destruct FL as [|x FL'] eqn:EL.
    { exfalso. apply (f_equal length) in EL. unfold FL in EL. rewrite length_reverse in EL. destruct (geometry_facts _ _ _ Gk) as (Ho & _).
      destruct Ho as [Ho|[Ho|[Ho|Ho]]]; rewrite Ho in EL; vm_compute in EL; discriminate EL. }
    destruct (cache_pop _ _ _ _ _ _ (slab_total c') (add64 (in_use c') 1) Ck') as (Ex & Hx0 & HxL & Ck2). rewrite Ex.
    eexists x, _. split; [done|]. right. split; [done|]. split; [done|].
    exists (<[k := {[f]} ∪ Ss k]> Ss), (<[k := FL']> FLs), (F ∖ {[f]}), ({[f]} ∪ O).
    apply (world_update s live Ss FLs F O k c _ mem' a'); [done|done|cbn; by rewrite E1, E2|done|done|clear -Hf; set_solver|apply union_subseteq_r| | |].
    + apply union_mono_l, (w_own _ _ _ _ _ _ Hw k).
    + intros j Hj. pose proof (w_disj _ _ _ _ _ _ Hw k j (not_eq_sym Hj)) as Hd. pose proof (HfS j) as Hn. clear -Hd Hn. set_solver.
    + intros j cj y Hj Hcj Hy. apply Hout. intros Hin.
      destruct (w_cache _ _ _ _ _ _ Hw j cj Hcj) as [Gj Cj].
      destruct (two_caches_apart (obj_size c) (obj_size cj) {[f]} (Ss j) y y) as [H|H];
        [by eapply obj_geom_of|by eapply obj_geom_of| |pose proof (HfS j) as Hn; clear -Hn; set_solver|exists f; split; [by apply elem_of_singleton|done]
        |apply (ck_slots _ _ _ _ _ Cj); by left| |];
        [|pose proof (geom_count _ (obj_geom_of _ _ _ Gk)); lia|pose proof (geom_count _ (obj_geom_of _ _ _ Gj)); lia].
      intros g [Hg%elem_of_singleton|Hg]%elem_of_union; [by subst g|by eapply world_frames].
  - destruct (cache_pop _ _ _ _ _ _ (slab_total c) (add64 (in_use c) 1) Ck) as (Ex & Hx0 & HxL & Ck2).
    rewrite Ex, decide_False by done. cbn [res_bind negb]. rewrite Ex. eexists x, _. split; [done|]. right. split; [done|]. split; [done|].
    exists (<[k := Ss k]> Ss), (<[k := FL]> FLs), F, O. destruct (slab_state s) as [mem a] eqn:Es. cbn [slab_mem slab_frames] in *.
    apply (world_update s live Ss FLs F O k c); rewrite ?Es; try done.
    + apply (w_own _ _ _ _ _ _ Hw).
    + intros j Hj. apply (w_disj _ _ _ _ _ _ Hw). done.
Qed.

Lemma cache_for_lt size k : cache_for size = Some k → (k < 4)%nat.
Proof. unfold cache_for. repeat case_decide; intros; simplify_eq; lia. Qed.

Lemma slot_nonzero s live Ss FLs F O k o x : world_ok s live Ss FLs F O → obj_geom o → is_slot o (Ss k) x → x ≠ 0.
Proof.
  intros Hw Ho (f & Hf & Hx). destruct (world_frames _ _ _ _ _ _ k f Hw Hf) as (H0 & _). pose proof (slot_bounds _ _ _ Ho Hx). lia.
Qed.

(** Giving a live object back. *)
Lemma free_slab_spec size k p s live :
  slabs_ok s live → cache_for size = Some k → p ∈ live k →
  ∃ s', free_slab p size s = Ret s' ∧ slabs_ok s' (<[k := live k ∖ {[p]}]> live).
Proof.
  intros (Ss & FLs & F & O & Hw) Hk Hp. unfold free_slab. rewrite Hk.
  destruct (lookup_lt_is_Some_2 (caches s) k) as [c Ec]; [rewrite (w_len _ _ _ _ _ _ Hw); by eapply cache_for_lt|].
  unfold index. rewrite Ec. cbn [res_bind]. destruct (w_cache _ _ _ _ _ _ Hw k c Ec) as [Gk Ck].
  assert (Hs : is_slot (obj_size c) (Ss k) p) by (apply (ck_slots _ _ _ _ _ Ck); by right).
  assert (Ho : obj_geom (obj_size c)) by (by eapply obj_geom_of).
  pose proof (cache_push c _ _ _ p _ (slab_total c) (sat_sub (in_use c) 1) Ck Hp (slot_nonzero _ _ _ _ _ _ _ _ _ Hw Ho Hs)) as Ck'.
  eexists. split; [done|]. exists (<[k := Ss k]> Ss), (<[k := p :: FLs k]> FLs), F, O.
  apply (world_update s live Ss FLs F O k c); [done|done|done|done|apply Hw|done|done|apply Hw|..].
  - intros j Hj. by apply (w_disj _ _ _ _ _ _ Hw).
  - intros j cj x Hj Hcj Hx. rewrite lookup_insert_ne; [done|]. intros ->.
    destruct (other_cache_apart _ _ _ _ _ _ k j c cj x x Hw Hj Ec Hcj Hs (or_introl Hx));
      [pose proof (geom_count _ Ho)|pose proof (geom_count _ (obj_geom_of _ _ _ (proj1 (w_cache _ _ _ _ _ _ Hw j cj Hcj))))]; lia.
Qed.

(** The size of the objects of cache [k]. *)
Definition object_size (k : nat) : Z := (geometry !!! k).1.

(** Two live objects that are not the same do not overlap. *)
Lemma live_apart s live k j p q :
  slabs_ok s live → (k < 4)%nat → (j < 4)%nat → p ∈ live k → q ∈ live j → (k, p) ≠ (j, q) →
  p + object_size k ≤ q ∨ q + object_size j ≤ p.
Proof.
  intros (Ss & FLs & F & O & Hw) Hk Hj Hp Hq Hne.
  destruct (lookup_lt_is_Some_2 (caches s) k) as [c Ec]; [by rewrite (w_len _ _ _ _ _ _ Hw)|].
  destruct (lookup_lt_is_Some_2 (caches s) j) as [cj Ej]; [by rewrite (w_len _ _ _ _ _ _ Hw)|].
  destruct (w_cache _ _ _ _ _ _ Hw k c Ec) as [Gk Ck], (w_cache _ _ _ _ _ _ Hw j cj Ej) as [Gj Cj].
  assert (Hs : is_slot (obj_size c) (Ss k) p) by (apply (ck_slots _ _ _ _ _ Ck); by right).
  unfold object_size. rewrite (list_lookup_total_correct _ _ _ Gk), (list_lookup_total_correct _ _ _ Gj). cbn [fst].
  destruct (decide (j = k)) as [->|Hjk].
  - rewrite Ec in Ej. injection Ej as <-. apply (same_cache_apart _ (Ss k)); [by eapply obj_geom_of| |done| |congruence].
    + intros f. by eapply world_frames.
    + apply (ck_slots _ _ _ _ _ Cj). by right.
  - apply (other_cache_apart _ _ _ _ _ _ k j c cj p q Hw Hjk Ec Ej Hs). by right.
Qed.

(** A store by the owner of an object. *)
Definition store (a v : Z) (s : Slabs A) : Slabs A :=
  mkSlabs (caches s) (mkSlabMem (<[a := v]> (slab_mem (slab_state s))) (slab_frames (slab_state s))).
Lemma store_spec k p a v s live :
  slabs_ok s live → (k < 4)%nat → p ∈ live k → p ≤ a < p + object_size k → slabs_ok (store a v s) live.
Proof.
  intros (Ss & FLs & F & O & Hw) Hk Hp Ha. exists Ss, FLs, F, O.
  destruct (lookup_lt_is_Some_2 (caches s) k) as [c Ec]; [by rewrite (w_len _ _ _ _ _ _ Hw)|].
  destruct (w_cache _ _ _ _ _ _ Hw k c Ec) as [Gk Ck].
  unfold object_size in Ha. rewrite (list_lookup_total_correct _ _ _ Gk) in Ha. cbn [fst] in Ha.
  assert (Hs : is_slot (obj_size c) (Ss k) p) by (apply (ck_slots _ _ _ _ _ Ck); by right).
  split; try apply Hw. intros j cj Hj. change (caches (store a v s)) with (caches s) in Hj. destruct (w_cache _ _ _ _ _ _ Hw j cj Hj) as [Gj Cj]. split; [done|].
  eapply cache_ok_mem; [done|]. intros x Hx. cbn. apply lookup_insert_ne. intros ->.
  pose proof (geom_count _ (obj_geom_of _ _ _ Gj)). destruct (decide (j = k)) as [->|Hjk].
  - rewrite Ec in Hj. injection Hj as <-.
    destruct (same_cache_apart (obj_size c) (Ss k) p x); [by eapply obj_geom_of| |done| | |lia|lia].
    + intros f. by eapply world_frames.
    + apply (ck_slots _ _ _ _ _ Cj). by left.
    + intros ->. by apply (ck_apart _ _ _ _ _ Cj x).
  - destruct (other_cache_apart _ _ _ _ _ _ k j c cj p x Hw Hjk Ec Hj Hs (or_introl Hx)); lia.
Qed.

(** ** Runs *)

(** A use of the allocator: the second part of the state is who holds what. *)
Inductive slab_step : Slabs A * (nat → gset Z) → Slabs A * (nat → gset Z) → Prop :=
  | ss_alloc size k p s s' live : cache_for size = Some k → alloc_slab size s = Ret (p, s') → p ≠ 0 →
      slab_step (s, live) (s', <[k := {[p]} ∪ live k]> live)
  | ss_null size s s' live : alloc_slab size s = Ret (0, s') → slab_step (s, live) (s', live)
  | ss_free size k p s s' live : cache_for size = Some k → p ∈ live k → free_slab p size s = Ret s' →
      slab_step (s, live) (s', <[k := live k ∖ {[p]}]> live)
  | ss_store k p a v s live : (k < 4)%nat → p ∈ live k → p ≤ a < p + object_size k → slab_step (s, live) (store a v s, live).

Lemma slab_step_ok w w' : slab_step w w' → slabs_ok w.1 w.2 → slabs_ok w'.1 w'.2.
Proof.
  intros [size k p s s' live Hk E H0|size s s' live E|size k p s s' live Hk Hp E|k p a v s live Hk Hp Ha] Hok; cbn [fst snd] in *.
  - destruct (alloc_slab_spec size k s live Hok Hk) as (p' & s'' & E' & [(Hp' & _)|(_ & _ & H)]); rewrite E in E'; injection E' as <- <-; [congruence|done].
  - destruct (cache_for size) as [k|] eqn:Hk.
    + destruct (alloc_slab_spec size k s live Hok Hk) as (p' & s'' & E' & [(Hp' & H & _)|(H & _)]); rewrite E in E'; by injection E' as <- <-.
    + unfold alloc_slab in E. rewrite Hk in E. by injection E as <-.
  - destruct (free_slab_spec size k p s live Hok Hk Hp) as (s'' & E' & H). rewrite E in E'. by injection E' as <-.
  - by eapply store_spec.
Qed.

Lemma boot_slabs_ok a F O :
  fa_rep a F O → (∀ f, f ∈ F ∪ O → f + 2 * PAGE_SIZE ≤ u64_modulus) →
  slabs_ok (mkSlabs boot_caches (mkSlabMem ∅ a)) (λ _, ∅).
Proof.
  intros Hr Hh. exists (λ _, ∅), (λ _, []), F, O. split; [done|done|done|set_solver|set_solver|].
  intros k c Hk. assert (Hg : geometry !! k = Some (obj_size c, slab_align c) ∧ free_list c = 0).
  { do 4 (destruct k as [|k]; [by injection Hk as <-|]). done. }
  destruct Hg as [Hg H0]. split; [done|]. split; [done|constructor|by intros x Hx%not_elem_of_nil|].
  intros x. split; [intros [H|H]; [by apply not_elem_of_nil in H|set_solver]|intros (f & Hf & _); set_solver].
Qed.

(** C12. Slab objects never overlap. From boot on, over any run of allocations of any
    sizes, releases of objects held and stores by their holders, an object handed out is
    not held by anyone, two held objects are apart by their whole sizes, whichever
    caches they come from, and the next allocation returns. *)
Theorem slab_objects_apart a F O s live k j p q size :
  fa_rep a F O → (∀ f, f ∈ F ∪ O → f + 2 * PAGE_SIZE ≤ u64_modulus) →
  rtc slab_step (mkSlabs boot_caches (mkSlabMem ∅ a), λ _, ∅) (s, live) →
  (k < 4)%nat → (j < 4)%nat → p ∈ live k → q ∈ live j → cache_for size = Some k →
  ((k, p) ≠ (j, q) → p + object_size k ≤ q ∨ q + object_size j ≤ p) ∧
  (∃ x s', alloc_slab size s = Ret (x, s') ∧ x ∉ live k).
Proof.
  intros Hr Hh Hrun Hk Hj Hp Hq Hsz.
  assert (Hok : slabs_ok s live).
  { change s with (s, live).1. change live with (s, live).2 at 2. remember (s, live) as w eqn:Ew. clear Ew.
    pose proof (boot_slabs_ok a F O Hr Hh) as H0. remember (mkSlabs boot_caches (mkSlabMem ∅ a), λ _ : nat, (∅ : gset Z)) as w0 eqn:E0.
    assert (Hw0 : slabs_ok w0.1 w0.2) by (by rewrite E0). clear E0 H0. induction Hrun; [done|]. apply IHHrun. by eapply slab_step_ok. }
  split; [intros Hne; by eapply live_apart|].
  destruct (alloc_slab_spec size k s live Hok Hsz) as (x & s' & E & H). exists x, s'. split; [done|].
  destruct H as [(-> & _)|(_ & H & _)]; [|done]. intros H0. destruct Hok as (Ss & FLs & F' & O' & Hw).
  destruct (lookup_lt_is_Some_2 (caches s) k) as [c Ec]; [by rewrite (w_len _ _ _ _ _ _ Hw)|].
  destruct (w_cache _ _ _ _ _ _ Hw k c Ec) as [Gk Ck].
  apply (slot_nonzero _ _ _ _ _ _ k (obj_size c) 0 Hw); [by eapply obj_geom_of| |done]. apply (ck_slots _ _ _ _ _ Ck). by right.
Qed.
End world.

(** ** A concrete run *)

Definition demo_slabs : Slabs BuddyAllocator := mkSlabs boot_caches (mkSlabMem ∅ small_pmm).
Definition slabs_after (size : Z) (s : Slabs BuddyAllocator) : Z * Slabs BuddyAllocator :=
  match alloc_slab size s with Ret r => r | _ => (0, s) end.
Definition demo_one : Z * Slabs BuddyAllocator := slabs_after 10 demo_slabs.
Definition demo_two : Z * Slabs BuddyAllocator := slabs_after 100 demo_one.2.
Definition demo_live0 : nat → gset Z := λ _, ∅.
Definition demo_live1 : nat → gset Z := <[0%nat := {[demo_one.1]} ∪ demo_live0 0%nat]> demo_live0.
Definition demo_live : nat → gset Z := <[1%nat := {[demo_two.1]} ∪ demo_live1 1%nat]> demo_live1.

Lemma small_frames : fa_rep small_pmm (list_to_set (all_pages small_fl)) ∅.
Proof. exists small_fl. split_and!; [exact small_rep|done|set_solver|set_solver]. Qed.
Lemma small_frames_low f : f ∈ (list_to_set (all_pages small_fl) ∪ ∅ : gset Z) → f + 2 * PAGE_SIZE ≤ u64_modulus.
Proof.
  rewrite union_empty_r_L, elem_of_list_to_set. revert f. apply Forall_forall.
  apply (bool_decide_unpack _). vm_compute. exact I.
Qed.
Lemma demo_slab_run : rtc slab_step (demo_slabs, λ _, ∅) (demo_two.2, demo_live).
Proof.
  eapply rtc_l; [apply (ss_alloc 10 0 demo_one.1 demo_slabs demo_one.2 demo_live0); [reflexivity|vm_compute; reflexivity|vm_compute; congruence]|].
  eapply rtc_l; [|apply rtc_refl].
  apply (ss_alloc 100 1 demo_two.1 demo_one.2 demo_two.2 demo_live1);
    [reflexivity|vm_compute; reflexivity|vm_compute; congruence].
Qed.
Lemma slab_objects_apart_witness : demo_one.1 + 64 ≤ demo_two.1 ∨ demo_two.1 + 128 ≤ demo_one.1.
Proof.
  destruct (slab_objects_apart small_pmm (list_to_set (all_pages small_fl)) ∅ demo_two.2 demo_live 0 1 demo_one.1 demo_two.1 10
    small_frames small_frames_low demo_slab_run) as [H _]; [lia|lia|unfold demo_live; rewrite fn_lookup_insert_ne by done; unfold demo_live1; rewrite fn_lookup_insert; set_solver
    |unfold demo_live; rewrite fn_lookup_insert; set_solver|reflexivity|]. apply H. congruence.
Defined.
