(* ===== verification/Identity.v ===== *)
(** The kernel's persistent identity and its protection: the codes of
    [kernel/src/quantum_ecc.rs] and [kernel/src/quantum.rs], the record of
    [kernel/src/consciousness/self_model.rs]. Integration metrics, clocks and the
    time-stamp counter are inputs; reports are dropped. *)
From Stdlib Require Import ZArith SpecFloat.
From stdpp Require Import base numbers list gmap strings.
From S2P Require Import Prelude Bytes Pmm PmmProps FrameAlloc PageCache RunQueue Task Scheduler Users Ramfs Vfs VfsProps SemGate F32.

(** ** The (7,4) code *)

Definition bit8 (c i : Z) : Z := Z.land (Z.shiftr c i) 1.

Definition encode_nibble (d : Z) : Z :=
  let d0 := bit8 d 0 in
  let d1 := bit8 d 1 in
  let d2 := bit8 d 2 in
  let d3 := bit8 d 3 in
  let p1 := Z.lxor (Z.lxor d0 d1) d2 in
  let p2 := Z.lxor (Z.lxor d0 d1) d3 in
  let p4 := Z.lxor (Z.lxor d0 d2) d3 in
  Z.lor (Z.lor (Z.lor (Z.lor (Z.lor (Z.lor d0 (Z.shiftl d1 1)) (Z.shiftl d2 2)) (Z.shiftl d3 3))
    (Z.shiftl p1 4)) (Z.shiftl p2 5)) (Z.shiftl p4 6).

Definition decode_codeword (c : Z) : Z * bool :=
  let s1 := Z.lxor (Z.lxor (Z.lxor (bit8 c 0) (bit8 c 1)) (bit8 c 2)) (bit8 c 4) in
  let s2 := Z.lxor (Z.lxor (Z.lxor (bit8 c 0) (bit8 c 1)) (bit8 c 3)) (bit8 c 5) in
  let s4 := Z.lxor (Z.lxor (Z.lxor (bit8 c 0) (bit8 c 2)) (bit8 c 3)) (bit8 c 6) in
  let syndrome := Z.lor (Z.lor s1 (Z.shiftl s2 1)) (Z.shiftl s4 2) in
  let repaired := bool_decide (syndrome ≠ 0) in
  let c := if repaired && bool_decide (syndrome ≤ 7) then Z.lxor c (Z.shiftl 1 (syndrome - 1)) else c in
  (Z.land c 0x0F, repaired).

Definition encode_byte (byte : Z) : list Z :=
  [encode_nibble (Z.land byte 0x0F); encode_nibble (Z.land (Z.shiftr byte 4) 0x0F)].
Definition encode (data : list Z) : list Z := data ≫= encode_byte.

(** One byte of the loop of [verify_and_repair]: the byte, whether a mismatch was
    seen, and how many nibbles were replaced. *)
Definition verify_byte (byte lo_cw hi_cw : Z) : Z * bool * Z :=
  let lo_mismatch := bool_decide (lo_cw ≠ encode_nibble (Z.land byte 0x0F)) in
  let hi_mismatch := bool_decide (hi_cw ≠ encode_nibble (Z.land (Z.shiftr byte 4) 0x0F)) in
  let '(byte, repaired) :=
    if lo_mismatch then
      let (corrected_nibble, fixed) := decode_codeword lo_cw in
      if fixed then (Z.lor (Z.land byte 0xF0) (Z.land corrected_nibble 0x0F), 1) else (byte, 0)
    else (byte, 0) in
  let '(byte, repaired) :=
    if hi_mismatch then
      let (corrected_nibble, fixed) := decode_codeword hi_cw in
      if fixed then (Z.lor (Z.land byte 0x0F) (Z.shiftl (Z.land corrected_nibble 0x0F) 4), repaired + 1) else (byte, repaired)
    else (byte, repaired) in
  (byte, lo_mismatch || hi_mismatch, repaired).

Fixpoint verify_loop (data ecc : list Z) : list Z * (bool * Z) :=
  match data, ecc with
  | byte :: data', lo_cw :: hi_cw :: ecc' =>
      let '(byte, err, n) := verify_byte byte lo_cw hi_cw in
      let '(rest, (err', n')) := verify_loop data' ecc' in
      (byte :: rest, (err || err', u32 (n + n')))
  | _, _ => (data, (false, 0))
  end.
Definition verify_and_repair (data ecc : list Z) : list Z * (bool * Z) :=
  if decide (length ecc ≠ (length data * 2)%nat) then (data, (false, 0)) else verify_loop data ecc.

Definition self_test : bool :=
  let data := [0xA5; 0x3C; 0xFF; 0x00; 0x12; 0x34; 0x56; 0x78] in
  let ecc := encode data in
  let '(corrupted, (err, fixed)) := verify_and_repair (alter (λ b, Z.lxor b 1) 0%nat data) ecc in
  err && bool_decide (fixed = 1) && bool_decide (corrupted = data).

(** ** Floating-point numbers as stored *)

(** [f32::to_le_bytes]; every NaN is stored as the quiet one. *)
Definition f32_bits (x : f32) : Z :=
  let sgn (s : bool) := if s then 2 ^ 31 else 0 in
  match x with
  | S754_zero s => sgn s
  | S754_infinity s => sgn s + 255 * 2 ^ 23
  | S754_nan => 255 * 2 ^ 23 + 2 ^ 22
  | S754_finite s m e =>
      sgn s + (if decide (Z.pos m < 2 ^ 23) then Z.pos m else (e + 150) * 2 ^ 23 + (Z.pos m - 2 ^ 23))
  end.
Definition f32_of_bits (b : Z) : f32 :=
  let s := bool_decide (2 ^ 31 ≤ b) in
  let ex := (b / 2 ^ 23) mod 256 in
  let ma := b mod 2 ^ 23 in
  if decide (ex = 255) then (if decide (ma = 0) then S754_infinity s else S754_nan)
  else if decide (ex = 0) then (if decide (ma = 0) then S754_zero s else S754_finite s (Z.to_pos ma) (-149))
  else S754_finite s (Z.to_pos (2 ^ 23 + ma)) (ex - 150).

(** ** The self-model *)

Record SelfModel := mkSelf {
  uuid : list Z; boot_number : Z; total_existence_ms : Z; current_phi : f32; peak_phi : f32;
  total_qualia : Z; arousal : f32; coherence : f32; sm_name : option (list Z); sm_creator : option (list Z)
}.

(** [generate_uuid]: byte [i] and [i + 8] of the identity. *)
Definition uuid_byte (x ent : Z) (i : nat) : Z :=
  Z.lxor (Z.shiftr x (8 * Z.of_nat i)) (Z.shiftr ent (8 * Z.of_nat i)) mod 256.
Definition generate_uuid (tsc ent : Z) : list Z :=
  (uuid_byte tsc ent <$> seq 0 8) ++ (uuid_byte (mul64 tsc 0x9E3779B9) ent <$> seq 0 8).

Definition new_self (tsc ent : Z) : SelfModel := mkSelf (generate_uuid tsc ent) 1 0 f0 f0 0 f0 f0 None None.

Definition serialize_name (n : option (list Z)) : list Z :=
  match n with
  | Some b => [1; Z.of_nat (length b) mod 256] ++ b
  | None => [0]
  end.
Definition serialize (sm : SelfModel) : list Z :=
  uuid sm ++ to_le 8 (boot_number sm) ++ to_le 8 (total_existence_ms sm) ++ to_le 4 (f32_bits (current_phi sm)) ++
  to_le 4 (f32_bits (peak_phi sm)) ++ to_le 8 (total_qualia sm) ++ to_le 4 (f32_bits (arousal sm)) ++
  to_le 4 (f32_bits (coherence sm)) ++ serialize_name (sm_name sm) ++ serialize_name (sm_creator sm).

(** A length-prefixed name at [off]: the name and the offset after it; the outer
    [None] is the early return of a malformed record. *)
Definition deserialize_name (data : list Z) (off : nat) : option (option (list Z) * nat) :=
  if decide (data !! off = Some 1) then
    match data !! (off + 1)%nat with
    | None => None
    | Some len =>
        let off := (off + 2)%nat in
        match slice_get off (off + Z.to_nat len) data with
        | None => None
        | Some b => match utf8_decode b with Some _ => Some (Some b, (off + Z.to_nat len)%nat) | None => None end
        end
    end
  else Some (None, (off + 1)%nat).

Definition u_at (off n : nat) (data : list Z) : Z := from_le (take n (drop off data)).
Definition deserialize (data : list Z) : option SelfModel :=
  if decide (length data < 64)%nat then None else
  match deserialize_name data 56 with
  | None => None
  | Some (name, off) =>
      match deserialize_name data off with
      | None => None
      | Some (creator, _) =>
          Some (mkSelf (take 16 data) (u_at 16 8 data) (u_at 24 8 data) (f32_of_bits (u_at 32 4 data))
                  (f32_of_bits (u_at 36 4 data)) (u_at 40 8 data) (f32_of_bits (u_at 48 4 data))
                  (f32_of_bits (u_at 52 4 data)) name creator)
      end
  end.

Definition SELF_MODEL_PATH : string := "/ai/self".
Definition SELF_ECC_PATH : string := "/ai/self_ecc".

Definition set_existence (t : Z) (sm : SelfModel) : SelfModel :=
  mkSelf (uuid sm) (boot_number sm) t (current_phi sm) (peak_phi sm) (total_qualia sm) (arousal sm) (coherence sm)
    (sm_name sm) (sm_creator sm).
Definition set_boot (n : Z) (sm : SelfModel) : SelfModel :=
  mkSelf (uuid sm) n (total_existence_ms sm) (current_phi sm) (peak_phi sm) (total_qualia sm) (arousal sm) (coherence sm)
    (sm_name sm) (sm_creator sm).

(** What [init] makes of the two files. *)
Definition load_self (fresh : SelfModel) (data : list Z) (ecc : option (list Z)) : SelfModel :=
  let data := match ecc with Some e => (verify_and_repair data e).1 | None => data end in
  match deserialize data with
  | Some sm => set_boot (add64 (boot_number sm) 1) sm
  | None => fresh
  end.

Section files.
Context {A : Type} {FA : FrameAllocator A}.

Definition init_self (c : Creds) (tsc ent now : Z) (s : VfsState A) : res (SelfModel * VfsState A) :=
  let! (r, s) := read_file c SELF_MODEL_PATH s in
  match r with
  | Err _ => Ret (set_existence now (new_self tsc ent), s)
  | Ok data =>
      let! (e, s) := read_file c SELF_ECC_PATH s in
      let ecc := match e with Ok b => Some b | Err _ => None end in
      Ret (set_existence now (load_self (new_self tsc ent) data ecc), s)
  end.

Definition save (c : Creds) (now : Z) (self : option SelfModel) (s : VfsState A) : res (option SelfModel * VfsState A) :=
  match self with
  | None => Ret (None, s)
  | Some sm =>
      let sm := set_existence (add64 (total_existence_ms sm) now) sm in
      let data := serialize sm in
      let ecc := encode data in
      let! (_, s) := write_file c SELF_MODEL_PATH data s in
      let! (_, s) := write_file c SELF_ECC_PATH ecc s in
      Ret (Some sm, s)
  end.
End files.

(** [tick]: [phi] is [phi::tick()], [anom] the global anomaly score. *)
Definition self_tick (tasks : Z) (phi anom : f32) (sm : SelfModel) : SelfModel :=
  let peak := if flt (peak_phi sm) phi then phi else peak_phi sm in
  mkSelf (uuid sm) (boot_number sm) (total_existence_ms sm) phi peak (total_qualia sm)
    (fmin (fdiv (f32_of tasks) (f32_of 128)) f1) (fsub f1 (fmin (fmul anom (f32_lit 1 2)) f1))
    (sm_name sm) (sm_creator sm).
Definition record_qualia (sm : SelfModel) : SelfModel :=
  mkSelf (uuid sm) (boot_number sm) (total_existence_ms sm) (current_phi sm) (peak_phi sm)
    (add64 (total_qualia sm) 1) (arousal sm) (coherence sm) (sm_name sm) (sm_creator sm).
Definition set_name (n : list Z) (sm : SelfModel) : SelfModel :=
  mkSelf (uuid sm) (boot_number sm) (total_existence_ms sm) (current_phi sm) (peak_phi sm)
    (total_qualia sm) (arousal sm) (coherence sm) (Some n) (sm_creator sm).
Definition set_creator (n : list Z) (sm : SelfModel) : SelfModel :=
  mkSelf (uuid sm) (boot_number sm) (total_existence_ms sm) (current_phi sm) (peak_phi sm)
    (total_qualia sm) (arousal sm) (coherence sm) (sm_name sm) (Some n).
(** "UrHighness01". *)
Definition DEFAULT_CREATOR : list Z := [85; 114; 72; 105; 103; 104; 110; 101; 115; 115; 48; 49].
Definition init_creator : SelfModel → SelfModel := set_creator DEFAULT_CREATOR.

(** ** The seven protected bits *)

Definition CODEWORD_1 : Z := 0x7F.
Definition CODEWORD_0 : Z := 0.
Definition H_MATRIX : list (list Z) := [[1; 0; 1; 0; 1; 0; 1]; [0; 1; 1; 0; 0; 1; 1]; [0; 0; 0; 1; 1; 1; 1]].
Definition SYNDROME_LOOKUP : list Z := [-1; 6; 5; 4; 3; 2; 1; 0].
Definition N_PROTECTED_BITS : nat := 7.

Record QuantumState := mkQuantum { encoded : list Z; errors_detected : Z; errors_corrected : Z; checks_performed : Z }.

Definition count_ones (x : Z) : Z := foldr (λ i n, bit8 x (Z.of_nat i) + n) 0 (seq 0 8).

Definition protect (b : bool) : Z := if b then CODEWORD_1 else CODEWORD_0.
Definition quantum_init (sm : option SelfModel) : QuantumState :=
  mkQuantum
    (match sm with
     | None => replicate N_PROTECTED_BITS 0
     | Some s =>
         protect <$> [bool_decide (Z.land (Z.shiftr (boot_number s) 63) 1 = 1);
                      bool_decide (Z.land (Z.shiftr (boot_number s) 62) 1 = 1);
                      flt (f32_lit 1 2) (current_phi s); flt (f32_lit 8 10) (peak_phi s);
                      bool_decide (count_ones (uuid s !!! 0%nat) mod 2 = 1);
                      bool_decide (count_ones (uuid s !!! 1%nat) mod 2 = 1);
                      bool_decide (1000 < total_qualia s)]
     end) 0 0 0.

Definition parity (row : list Z) (codeword : Z) : Z :=
  foldl (λ p ch, if decide (bit8 codeword (Z.of_nat ch.1) = 1 ∧ ch.2 = 1) then Z.lxor p 1 else p) 0 (zip (seq 0 7) row).
Definition compute_syndrome (codeword : Z) : Z :=
  foldl (λ syn rp, Z.lor syn (Z.shiftl (parity rp.2 codeword) (Z.of_nat rp.1))) 0 (zip (seq 0 3) H_MATRIX).

Definition correct_codeword (codeword : Z) : Z * bool :=
  let syndrome := compute_syndrome codeword in
  if decide (syndrome = 0) then (codeword, false) else
  let bit_to_flip := SYNDROME_LOOKUP !!! Z.to_nat syndrome in
  if decide (bit_to_flip < 0) then (codeword, false) else (Z.lxor codeword (Z.shiftl 1 bit_to_flip), true).

Definition decode_bit (codeword : Z) : Z := if decide (3 < count_ones codeword) then 1 else 0.

Definition correct_one (st : Z * Z) (codeword : Z) : (Z * Z) * Z :=
  let (c, fixed) := correct_codeword codeword in
  if fixed then ((sat_add64 st.1 1, sat_add64 st.2 1), c) else (st, codeword).
Fixpoint correct_all (st : Z * Z) (l : list Z) : (Z * Z) * list Z :=
  match l with
  | [] => (st, [])
  | w :: l' => let (st, w') := correct_one st w in let (st, r) := correct_all st l' in (st, w' :: r)
  end.
Definition quantum_tick (q : QuantumState) : QuantumState :=
  let '((d, c), e) := correct_all (errors_detected q, errors_corrected q) (encoded q) in
  mkQuantum e d c (sat_add64 (checks_performed q) 1).

Definition inject_error (uptime : Z) (q : QuantumState) : QuantumState :=
  if decide (checks_performed q = 0) then q else
  let idx := uptime mod 7 in
  let b := (uptime mod 256 / 7) mod 7 in
  mkQuantum (alter (λ w, Z.lxor w (Z.shiftl 1 b)) (Z.to_nat idx) (encoded q))
    (errors_detected q) (errors_corrected q) (checks_performed q).

(** * Theorems about the kernel's identity record and the codes that protect it. *)

(** ** Finite checks *)

(** A property of all numbers below [n], by evaluation. *)
Lemma below_spec (n : nat) (P : Z → bool) (x : Z) :
  forallb (λ i, P (Z.of_nat i)) (seq 0 n) = true → 0 ≤ x < Z.of_nat n → P x = true.
Proof.
  intros H Hx. rewrite forallb_forall in H. specialize (H (Z.to_nat x)). rewrite Z2Nat.id in H by lia.
  apply H, in_seq. lia.
Qed.
Lemma below2_spec (n k : nat) (P : Z → Z → bool) (x y : Z) :
  forallb (λ i, forallb (λ j, P (Z.of_nat i) (Z.of_nat j)) (seq 0 k)) (seq 0 n) = true →
  0 ≤ x < Z.of_nat n → 0 ≤ y < Z.of_nat k → P x y = true.
Proof.
  intros H Hx Hy. apply (below_spec k (P x) y); [|done].
  by apply (below_spec n (λ x, forallb (λ j, P x (Z.of_nat j)) (seq 0 k)) x H Hx).
Qed.

(** ** The (7,4) code *)

Lemma decode_encoded n : 0 ≤ n < 16 → decode_codeword (encode_nibble n) = (n, false).
Proof.
  intros Hn. apply (bool_decide_eq_true_1 _).
  apply (below_spec 16 (λ n, bool_decide (decode_codeword (encode_nibble n) = (n, false))) n); [|done]. vm_compute. reflexivity.
Qed.
Lemma encode_nibble_inj n n' : 0 ≤ n < 16 → 0 ≤ n' < 16 → encode_nibble n = encode_nibble n' → n = n'.
Proof. intros Hn Hn' E. apply (f_equal decode_codeword) in E. rewrite !decode_encoded in E by done. by injection E. Qed.

Lemma low_nibble b : Z.land b 0x0F = b mod 16.
Proof. change 0x0F with (Z.ones 4). by rewrite Z.land_ones. Qed.
Lemma high_nibble b : byte_ok b → Z.land (Z.shiftr b 4) 0x0F = b / 16.
Proof.
  intros Hb. rewrite low_nibble, Z.shiftr_div_pow2 by done. change (2 ^ 4) with 16. apply Z.mod_small.
  unfold byte_ok in Hb. Z.div_mod_to_equations. lia.
Qed.
Lemma nibbles_eq b b' : b = b' ↔ b mod 16 = b' mod 16 ∧ b / 16 = b' / 16.
Proof. split; [by intros ->|]. intros [H1 H2]. rewrite (Z.div_mod b 16), (Z.div_mod b' 16) by done. congruence. Qed.
Lemma nibble_range b : byte_ok b → 0 ≤ b mod 16 < 16 ∧ 0 ≤ b / 16 < 16.
Proof. unfold byte_ok. intros Hb. Z.div_mod_to_equations. lia. Qed.

Lemma verify_byte_encoded b b' :
  byte_ok b → byte_ok b' →
  verify_byte b' (encode_nibble (Z.land b 0x0F)) (encode_nibble (Z.land (Z.shiftr b 4) 0x0F)) = (b', bool_decide (b' ≠ b), 0).
Proof.
  intros Hb Hb'. unfold verify_byte. rewrite !low_nibble, !Z.shiftr_div_pow2 by done. change (2 ^ 4) with 16.
  destruct (nibble_range b Hb) as [Hl Hh], (nibble_range b' Hb') as [Hl' Hh'].
  rewrite (Z.mod_small (b / 16)), (Z.mod_small (b' / 16)) by done. rewrite !decode_encoded by done.
  pose proof (nibbles_eq b' b) as He. pose proof (encode_nibble_inj _ _ Hl Hl'). pose proof (encode_nibble_inj _ _ Hh Hh').
  destruct (decide (b mod 16 = b' mod 16)) as [El|El]; [rewrite El|]; destruct (decide (b / 16 = b' / 16)) as [Eh|Eh]; rewrite ?Eh;
    repeat case_bool_decide; cbn; naive_solver.
Qed.

Lemma length_encode data : length (encode data) = (length data * 2)%nat.
Proof. induction data as [|b data IH]; [done|]. cbn [length]. change (length (encode (b :: data))) with (S (S (length (encode data)))). lia. Qed.

Lemma verify_loop_encoded data data' :
  bytes_ok data → bytes_ok data' → length data' = length data →
  verify_loop data' (encode data) = (data', (bool_decide (data' ≠ data), 0)).
Proof.
  intros Hd. revert data'. induction Hd as [|b data Hb Hd IH]; intros [|b' data'] Hd' Hl; try done.
  apply Forall_cons in Hd' as [Hb' Hd']. injection Hl as Hl.
  change (encode (b :: data)) with (encode_nibble (Z.land b 0x0F) :: encode_nibble (Z.land (Z.shiftr b 4) 0x0F) :: encode data).
  cbn [verify_loop]. rewrite verify_byte_encoded, IH by done. f_equal. f_equal.
  repeat case_bool_decide; cbn; try done; congruence.
Qed.

(** What the check of the stored identity does: against the code of the data that
    was saved it reports a mismatch exactly when the data has changed, and it never
    repairs anything, however small the change. *)
Theorem ecc_detects_only data data' :
  bytes_ok data → bytes_ok data' → length data' = length data →
  verify_and_repair data' (encode data) = (data', (bool_decide (data' ≠ data), 0)).
Proof.
  intros Hd Hd' Hl. unfold verify_and_repair. rewrite decide_False by (rewrite length_encode; lia).
  by apply verify_loop_encoded.
Qed.

(** ** A flipped check bit *)

Definition flip (i w : Z) : Z := Z.lxor w (Z.shiftl 1 i).

(** What one byte becomes when bit [i] of its low or high check word is flipped. *)
Definition flipped_byte (h : bool) (b i : Z) : Z * bool * Z :=
  let lo := encode_nibble (Z.land b 0x0F) in
  let hi := encode_nibble (Z.land (Z.shiftr b 4) 0x0F) in
  if h then verify_byte b lo (flip i hi) else verify_byte b (flip i lo) hi.

Lemma flipped_byte_damaged h b i :
  byte_ok b → 0 ≤ i < 7 → ∃ b', flipped_byte h b i = (b', true, 1) ∧ b' ≠ b.
Proof.
  intros Hb Hi. set (r := flipped_byte h b i). exists r.1.1.
  apply (bool_decide_eq_true_1 (r = (r.1.1, true, 1) ∧ r.1.1 ≠ b)). unfold r. destruct h.
  - apply (below2_spec 256 7 (λ b i, bool_decide (flipped_byte true b i = ((flipped_byte true b i).1.1, true, 1) ∧
      (flipped_byte true b i).1.1 ≠ b)) b i); [|done|done]. vm_compute. reflexivity.
  - apply (below2_spec 256 7 (λ b i, bool_decide (flipped_byte false b i = ((flipped_byte false b i).1.1, true, 1) ∧
      (flipped_byte false b i).1.1 ≠ b)) b i); [|done|done]. vm_compute. reflexivity.
Qed.

Lemma verify_loop_flipped data k i :
  bytes_ok data → (k < length data * 2)%nat → 0 ≤ i < 7 →
  ∃ data', verify_loop data (alter (flip i) k (encode data)) = (data', (true, 1)) ∧ data' ≠ data.
Proof.
  intros Hd. revert k. induction Hd as [|b data Hb Hd IH]; intros k Hk Hi; cbn [length] in Hk; [lia|].
  pose proof (verify_loop_encoded data data Hd Hd eq_refl) as Hrest. rewrite bool_decide_eq_false_2 in Hrest by tauto.
  change (encode (b :: data)) with (encode_nibble (Z.land b 0x0F) :: encode_nibble (Z.land (Z.shiftr b 4) 0x0F) :: encode data).
  destruct k as [|[|k]]; cbn [alter list_alter verify_loop].
  - destruct (flipped_byte_damaged false b i Hb Hi) as (b' & E & Hb'). unfold flipped_byte in E. rewrite E, Hrest.
    exists (b' :: data). split; [done|congruence].
  - destruct (flipped_byte_damaged true b i Hb Hi) as (b' & E & Hb'). unfold flipped_byte in E. rewrite E, Hrest.
    exists (b' :: data). split; [done|congruence].
  - destruct (IH k ltac:(lia) Hi) as (d' & E & Hd'). rewrite verify_byte_encoded by done.
    change (list_alter (flip i) k (encode data)) with (alter (flip i) k (encode data)). rewrite E.
    rewrite bool_decide_eq_false_2 by tauto. exists (b :: d'). split; [done|congruence].
Qed.

(** C34. The check destroys good data. One flipped bit in the stored code, with the data
    intact, is reported as one repaired bit, and the repair writes a wrong nibble into
    the data, wherever the bit is. *)
Theorem ecc_damages data k i :
  bytes_ok data → (k < length data * 2)%nat → 0 ≤ i < 7 →
  ∃ data', verify_and_repair data (alter (λ w, Z.lxor w (Z.shiftl 1 i)) k (encode data)) = (data', (true, 1)) ∧ data' ≠ data.
Proof.
  intros Hd Hk Hi. unfold verify_and_repair.
  rewrite decide_False by (rewrite length_alter, length_encode; lia). by apply (verify_loop_flipped data k i).
Qed.

(** The code itself could correct: its words are three bits apart. *)
Lemma code_distance d d' :
  0 ≤ d < 16 → 0 ≤ d' < 16 → d ≠ d' → 3 ≤ count_ones (Z.lxor (encode_nibble d) (encode_nibble d')).
Proof.
  intros Hd Hd'. apply (bool_decide_eq_true_1 (d ≠ d' → 3 ≤ count_ones (Z.lxor (encode_nibble d) (encode_nibble d')))).
  apply (below2_spec 16 16 (λ d d', bool_decide (d ≠ d' → 3 ≤ count_ones (Z.lxor (encode_nibble d) (encode_nibble d')))) d d');
    [|done|done]. vm_compute. reflexivity.
Qed.

(** The module's own test fails. *)
Lemma self_test_fails : self_test = false.
Proof. vm_compute. reflexivity. Qed.

(** ** The seven protected bits *)

(** One word at a tick, and after [n] of them. *)
Definition correct (w : Z) : Z := (correct_codeword w).1.
Definition settle (n : nat) (w : Z) : Z := Nat.iter n correct w.

Lemma correct_not_fixed w c : correct_codeword w = (c, false) → c = w.
Proof. unfold correct_codeword. repeat case_decide; by intros [= <-]. Qed.
Lemma correct_all_words st l : (correct_all st l).2 = correct <$> l.
Proof.
  revert st. induction l as [|w l IH]; intros st; [done|]. cbn [correct_all fmap list_fmap]. unfold correct_one, correct at 1.
  destruct (correct_codeword w) as [c [|]] eqn:E; cbn [fst].
  - specialize (IH (sat_add64 st.1 1, sat_add64 st.2 1)). destruct (correct_all _ l). cbn in *. by rewrite IH.
  - apply correct_not_fixed in E as ->. specialize (IH st). destruct (correct_all st l). cbn in *. by rewrite IH.
Qed.
Lemma tick_words q : encoded (quantum_tick q) = correct <$> encoded q.
Proof.
  unfold quantum_tick. pose proof (correct_all_words (errors_detected q, errors_corrected q) (encoded q)) as H.
  destruct (correct_all _ _) as [[d c] e]. exact H.
Qed.
Lemma ticks_words n q : encoded (Nat.iter n quantum_tick q) = settle n <$> encoded q.
Proof.
  induction n as [|n IH]; [by rewrite list_fmap_id|]. rewrite Nat.iter_succ, tick_words, IH, <- list_fmap_compose. done.
Qed.

Lemma settle_stable n w : correct w = w → settle n w = w.
Proof. intros H. induction n as [|n IH]; [done|]. unfold settle. rewrite Nat.iter_succ. fold (settle n w). by rewrite IH. Qed.
Lemma settle_add n k w : settle (n + k) w = settle n (settle k w).
Proof. unfold settle. apply Nat.iter_add. Qed.
Lemma settle_protect n b : settle n (protect b) = protect b.
Proof. apply settle_stable. destruct b; vm_compute; reflexivity. Qed.

Lemma settle_flip b i n :
  0 ≤ i < 7 → (3 ≤ n)%nat →
  let w := settle n (Z.lxor (protect b) (Z.shiftl 1 i)) in
  correct_codeword w = (w, false) ∧ (w = protect b ↔ i = 3) ∧ decode_bit w = (if xorb b (Z.even i) then 1 else 0).
Proof.
  intros Hi Hn w. set (w0 := Z.lxor (protect b) (Z.shiftl 1 i)) in *.
  assert (H : let w := settle 3 w0 in
    correct_codeword w = (w, false) ∧ (w = protect b ↔ i = 3) ∧ decode_bit w = (if xorb b (Z.even i) then 1 else 0)).
  { unfold w0. assert (Hc : i = 0 ∨ i = 1 ∨ i = 2 ∨ i = 3 ∨ i = 4 ∨ i = 5 ∨ i = 6) by lia.
    destruct Hc as [->|[->|[->|[->|[->|[->| ->]]]]]], b; vm_compute; naive_solver. }
  assert (E : w = settle 3 w0); [|by rewrite E].
  unfold w. replace n with ((n - 3) + 3)%nat by lia. rewrite settle_add. apply settle_stable.
  destruct H as [H _]. unfold correct. cbv zeta in H. by rewrite H.
Qed.

(** Protected bits are lost by correction. After bit [i] of one intact word is
    flipped, three or more ticks leave the other words alone and settle this one, at
    the original word only when the middle bit was flipped; with bit 0, 2, 4 or 6 the
    word then decodes to the opposite value. *)
Theorem quantum_flip (bits : list bool) (b : bool) (k : nat) (i : Z) (n : nat) (q : QuantumState) :
  0 ≤ i < 7 → (3 ≤ n)%nat → bits !! k = Some b →
  encoded q = alter (λ w, Z.lxor w (Z.shiftl 1 i)) k (protect <$> bits) →
  ∃ w, encoded (Nat.iter n quantum_tick q) = <[k := w]> (protect <$> bits) ∧
    correct_codeword w = (w, false) ∧ (w = protect b ↔ i = 3) ∧ decode_bit w = (if xorb b (Z.even i) then 1 else 0).
Proof.
  intros Hi Hn Hk Hq. destruct (settle_flip b i n Hi Hn) as (Hc & He & Hd).
  exists (settle n (Z.lxor (protect b) (Z.shiftl 1 i))). split; [|done].
  rewrite ticks_words, Hq. apply list_eq. intros j. rewrite list_lookup_fmap.
  destruct (decide (j = k)) as [->|Hj].
  - rewrite list_lookup_alter_eq, list_lookup_fmap, Hk, list_lookup_insert_eq; [done|]. rewrite length_fmap. by eapply lookup_lt_Some.
  - rewrite list_lookup_alter_ne, list_lookup_insert_ne, !list_lookup_fmap by done.
    destruct (bits !! j); [|done]. cbn. by rewrite settle_protect.
Qed.

(** ** The stored record *)

(** Numbers of the format in their normal form. *)
Definition f32_valid (x : f32) : Prop :=
  match x with
  | S754_finite _ m e => (2 ^ 23 ≤ Z.pos m < 2 ^ 24 ∧ -149 ≤ e ≤ 104) ∨ (Z.pos m < 2 ^ 23 ∧ e = -149)
  | _ => True
  end.

Lemma f32_bits_range x : f32_valid x → 0 ≤ f32_bits x < 256 ^ Z.of_nat 4.
Proof.
  change (256 ^ Z.of_nat 4) with 4294967296. unfold f32_bits.
  destruct x as [[]|[]| |[] m e]; cbn [f32_valid]; intros H; try lia; case_decide; lia.
Qed.

(** A stored pattern from its sign, exponent and mantissa. *)
Lemma of_bits_fields (s : bool) ex ma :
  0 ≤ ex < 256 → 0 ≤ ma < 2 ^ 23 →
  f32_of_bits ((if s then 2 ^ 31 else 0) + ex * 2 ^ 23 + ma) =
  (if decide (ex = 255) then (if decide (ma = 0) then S754_infinity s else S754_nan)
   else if decide (ex = 0) then (if decide (ma = 0) then S754_zero s else S754_finite s (Z.to_pos ma) (-149))
   else S754_finite s (Z.to_pos (2 ^ 23 + ma)) (ex - 150)).
Proof.
  intros He Hm. unfold f32_of_bits. set (b := _ + ma).
  assert (Hs : bool_decide (2 ^ 31 ≤ b) = s) by (unfold b; destruct s; [apply bool_decide_eq_true_2|apply bool_decide_eq_false_2]; lia).
  assert (Hma : b mod 2 ^ 23 = ma) by (symmetry; apply (Z.mod_unique _ _ ((if s then 256 else 0) + ex)); destruct s; lia).
  assert (Hex : (b / 2 ^ 23) mod 256 = ex).
  { replace (b / 2 ^ 23) with ((if s then 256 else 0) + ex) by (apply (Z.div_unique _ _ _ ma); destruct s; lia).
    symmetry; apply (Z.mod_unique _ _ (if s then 1 else 0)); destruct s; lia. }
  by rewrite Hs, Hma, Hex.
Qed.

Lemma f32_bits_roundtrip x : f32_valid x → f32_of_bits (f32_bits x) = x.
Proof.
  destruct x as [s|s| |s m e]; cbn [f32_valid]; intros H.
  - destruct s; vm_compute; reflexivity.
  - destruct s; vm_compute; reflexivity.
  - vm_compute. reflexivity.
  - cbn [f32_bits]. case_decide as Hm.
    + replace (_ + Z.pos m) with ((if s then 2 ^ 31 else 0) + 0 * 2 ^ 23 + Z.pos m) by lia.
      rewrite of_bits_fields by lia. rewrite decide_False, decide_True, decide_False by lia. f_equal. lia.
    + replace (_ + (_ + (Z.pos m - 2 ^ 23))) with ((if s then 2 ^ 31 else 0) + (e + 150) * 2 ^ 23 + (Z.pos m - 2 ^ 23)) by lia.
      rewrite of_bits_fields by lia. rewrite decide_False, decide_False by lia.
      f_equal; [|lia]. replace (2 ^ 23 + (Z.pos m - 2 ^ 23)) with (Z.pos m) by lia. done.
Qed.

Definition name_ok (n : option (list Z)) : Prop :=
  match n with Some b => (length b ≤ 255)%nat ∧ bytes_ok b ∧ utf8_decode b ≠ None | None => True end.
Record self_ok (sm : SelfModel) : Prop := {
  so_uuid : length (uuid sm) = 16%nat ∧ bytes_ok (uuid sm);
  so_words : is_u64 (boot_number sm) ∧ is_u64 (total_existence_ms sm) ∧ is_u64 (total_qualia sm);
  so_floats : f32_valid (current_phi sm) ∧ f32_valid (peak_phi sm) ∧ f32_valid (arousal sm) ∧ f32_valid (coherence sm);
  so_names : name_ok (sm_name sm) ∧ name_ok (sm_creator sm)
}.

Lemma u_at_app (pre post : list Z) (off n : nat) (x : Z) :
  length pre = off → 0 ≤ x < 256 ^ Z.of_nat n → u_at off n (pre ++ to_le n x ++ post) = x.
Proof.
  intros <- Hx. unfold u_at. rewrite drop_app_length, take_app_length' by (by rewrite length_to_le). by apply from_to_le.
Qed.

Lemma deserialize_name_app (pre post : list Z) (off : nat) (n : option (list Z)) :
  length pre = off → name_ok n →
  deserialize_name (pre ++ serialize_name n ++ post) off = Some (n, (off + length (serialize_name n))%nat).
Proof.
  intros <- Hn. unfold deserialize_name. rewrite lookup_app_r, Nat.sub_diag by lia.
  destruct n as [b|]; cbn [serialize_name app].
  - destruct Hn as (Hl & _ & Hu). rewrite Z.mod_small by lia. rewrite decide_True by done.
    rewrite lookup_app_r by lia. replace (length pre + 1 - length pre)%nat with 1%nat by lia. cbn [lookup list_lookup].
    rewrite Nat2Z.id. unfold slice_get. rewrite decide_True.
    + replace (pre ++ 1 :: Z.of_nat (length b) :: b ++ post) with ((pre ++ [1; Z.of_nat (length b)]) ++ b ++ post)
        by (by rewrite <- app_assoc).
      rewrite drop_app_length' by (rewrite length_app; cbn; lia). rewrite take_app_length' by lia.
      destruct (utf8_decode b); [|done]. do 2 f_equal. cbn [length]. lia.
    + rewrite !length_app. cbn [length]. rewrite length_app. lia.
  - by rewrite decide_False.
Qed.

Lemma length_serialize sm :
  length (uuid sm) = 16%nat →
  length (serialize sm) = (56 + length (serialize_name (sm_name sm)) + length (serialize_name (sm_creator sm)))%nat.
Proof. intros Hu. unfold serialize. rewrite !length_app, !length_to_le, Hu. lia. Qed.

Lemma serialize_bytes sm : self_ok sm → bytes_ok (serialize sm).
Proof.
  intros Hok. assert (Hn : ∀ n, name_ok n → bytes_ok (serialize_name n)).
  { intros [b|]; cbn; [|repeat constructor; unfold byte_ok; lia]. intros (Hl & Hb & _).
    constructor; [unfold byte_ok; lia|]. constructor; [|done]. unfold byte_ok. apply Z.mod_pos_bound. lia. }
  assert (Ht : ∀ n x, bytes_ok (to_le n x)) by (intros n x; apply bytes_ok_rev, to_be_ok).
  destruct (so_names _ Hok), (so_uuid _ Hok). unfold serialize. rewrite !Forall_app. split_and!; auto.
Qed.

(** The record as it is read back, whatever its length. *)
Lemma deserialize_serialize sm :
  self_ok sm → deserialize (serialize sm) = if decide (length (serialize sm) < 64)%nat then None else Some sm.
Proof.
  intros Hok. destruct (so_uuid _ Hok) as [Hu _]. destruct (so_words _ Hok) as (W1 & W2 & W3).
  destruct (so_floats _ Hok) as (F1 & F2 & F3 & F4). destruct (so_names _ Hok) as [N1 N2].
  unfold deserialize. case_decide; [done|].
  set (h := uuid sm ++ to_le 8 (boot_number sm) ++ to_le 8 (total_existence_ms sm) ++ to_le 4 (f32_bits (current_phi sm)) ++
    to_le 4 (f32_bits (peak_phi sm)) ++ to_le 8 (total_qualia sm) ++ to_le 4 (f32_bits (arousal sm)) ++
    to_le 4 (f32_bits (coherence sm))).
  assert (Hh : length h = 56%nat) by (unfold h; rewrite !length_app, !length_to_le, Hu; done).
  assert (E0 : serialize sm = h ++ serialize_name (sm_name sm) ++ serialize_name (sm_creator sm))
    by (unfold serialize, h; by rewrite <- !app_assoc).
  rewrite E0 at 1. rewrite deserialize_name_app by done.
  assert (E1 : serialize sm = (h ++ serialize_name (sm_name sm)) ++ serialize_name (sm_creator sm) ++ [])
    by (by rewrite app_nil_r, <- app_assoc).
  rewrite E1 at 1. rewrite deserialize_name_app by (done || (rewrite length_app; lia)). f_equal.
  assert (At : ∀ pre n x post off, serialize sm = pre ++ to_le n x ++ post → length pre = off → 0 ≤ x < 256 ^ Z.of_nat n →
    u_at off n (serialize sm) = x) by (intros pre n x post off -> Hl Hx; by apply u_at_app).
  unfold is_u64 in *. destruct sm as [u bn te cp pp tq ar co nm cr]. cbn [uuid boot_number total_existence_ms current_phi peak_phi
    total_qualia arousal coherence sm_name sm_creator] in *.
  f_equal.
  - unfold serialize. cbn [uuid]. by apply take_app_length'.
  - eapply (At u); [done|lia|exact W1].
  - eapply (At (u ++ to_le 8 bn)); [unfold serialize; by rewrite <- !app_assoc|rewrite length_app, length_to_le; lia|exact W2].
  - erewrite (At (u ++ to_le 8 bn ++ to_le 8 te)); [by apply f32_bits_roundtrip|unfold serialize; by rewrite <- !app_assoc
      |rewrite !length_app, !length_to_le; lia|by apply f32_bits_range].
  - erewrite (At (u ++ to_le 8 bn ++ to_le 8 te ++ to_le 4 (f32_bits cp))); [by apply f32_bits_roundtrip
      |unfold serialize; by rewrite <- !app_assoc|rewrite !length_app, !length_to_le; lia|by apply f32_bits_range].
  - eapply (At (u ++ to_le 8 bn ++ to_le 8 te ++ to_le 4 (f32_bits cp) ++ to_le 4 (f32_bits pp)));
      [unfold serialize; by rewrite <- !app_assoc|rewrite !length_app, !length_to_le; lia|exact W3].
  - erewrite (At (u ++ to_le 8 bn ++ to_le 8 te ++ to_le 4 (f32_bits cp) ++ to_le 4 (f32_bits pp) ++ to_le 8 tq));
      [by apply f32_bits_roundtrip|unfold serialize; by rewrite <- !app_assoc|rewrite !length_app, !length_to_le; lia
      |by apply f32_bits_range].
  - erewrite (At (u ++ to_le 8 bn ++ to_le 8 te ++ to_le 4 (f32_bits cp) ++ to_le 4 (f32_bits pp) ++ to_le 8 tq ++ to_le 4 (f32_bits ar)));
      [by apply f32_bits_roundtrip|unfold serialize; by rewrite <- !app_assoc|rewrite !length_app, !length_to_le; lia
      |by apply f32_bits_range].
Qed.

Lemma load_saved fresh sm :
  self_ok sm →
  load_self fresh (serialize sm) (Some (encode (serialize sm))) =
  if decide (length (serialize_name (sm_name sm)) + length (serialize_name (sm_creator sm)) < 8)%nat then fresh
  else set_boot (add64 (boot_number sm) 1) sm.
Proof.
  intros Hok. pose proof (serialize_bytes sm Hok) as Hb. unfold load_self, verify_and_repair.
  rewrite decide_False by (rewrite length_encode; lia). rewrite verify_loop_encoded by done. cbn [fst].
  rewrite deserialize_serialize by done. rewrite length_serialize by apply Hok.
  repeat case_decide; try lia; done.
Qed.

(** C32. The identity at the next boot. When the two files hold what [save] makes of a
    record with names of at most 255 bytes, the record itself and its code, [init] comes
    up with that record, its boot number one higher and its time of existence replaced by
    the uptime; if the names take, with their prefixes, fewer than eight bytes the record is
    taken for damaged and [init] comes up with a new identity. (The time already lived is
    lost, against the comment on the field; and the VFS does not keep what is written
    to it, [write_file_stores_nothing].) *)
Theorem identity_roundtrip {A : Type} {FA : FrameAllocator A} c tsc ent now sm (s s1 s2 : VfsState A) :
  self_ok sm →
  read_file c SELF_MODEL_PATH s = Ret (Ok (serialize sm), s1) →
  read_file c SELF_ECC_PATH s1 = Ret (Ok (encode (serialize sm)), s2) →
  init_self c tsc ent now s =
    Ret (if decide (length (serialize_name (sm_name sm)) + length (serialize_name (sm_creator sm)) < 8)%nat
         then set_existence now (new_self tsc ent)
         else set_existence now (set_boot (add64 (boot_number sm) 1) sm), s2).
Proof.
  intros Hok E1 E2. unfold init_self. rewrite E1. cbn [res_bind]. rewrite E2. cbn [res_bind].
  rewrite load_saved by done. by case_decide.
Qed.

(** ** Concrete instances *)

Definition demo_self : SelfModel :=
  set_creator DEFAULT_CREATOR (mkSelf (seq 1 16 ≫= λ i, [Z.of_nat i]) 7 5000 (S754_finite false 8388608 (-24)) (S754_finite false 12582912 (-24)) 12 f0 f1 None None).
Lemma demo_self_ok : self_ok demo_self.
Proof.
  split; cbn.
  - split; [done|]. repeat constructor; unfold byte_ok; lia.
  - unfold is_u64, u64_modulus. lia.
  - split_and!; cbn; lia.
  - split; [done|]. split; [lia|]. split; [repeat constructor; unfold byte_ok; lia|]. vm_compute. congruence.
Qed.
(** A tree with the two files in it. *)
Definition demo_files : VfsState BuddyAllocator :=
  mkVfs (mkFs {[ 1 := RamDir {[ "ai"%string := 2 ]} (mkMeta 0 0 493);
                 2 := RamDir {[ "self"%string := 3; "self_ecc"%string := 4 ]} (mkMeta 0 0 493);
                 3 := RamFile (serialize demo_self) (mkMeta 0 0 384);
                 4 := RamFile (encode (serialize demo_self)) (mkMeta 0 0 384) ]} 5 [("/"%string, 1)]) cold_cache.
Lemma demo_read_self :
  match read_file root_creds SELF_MODEL_PATH demo_files with
  | Ret (Ok d, s1) =>
      bool_decide (d = serialize demo_self) &&
      match read_file root_creds SELF_ECC_PATH s1 with Ret (Ok e, _) => bool_decide (e = encode (serialize demo_self)) | _ => false end
  | _ => false
  end = true.
Proof. vm_compute. reflexivity. Qed.
Lemma identity_roundtrip_witness :
  ∃ s', init_self root_creds 0 0 250 demo_files = Ret (set_existence 250 (set_boot 8 demo_self), s').
Proof.
  pose proof demo_read_self as H.
  destruct (read_file root_creds SELF_MODEL_PATH demo_files) as [[[d|] s1]| |] eqn:E1; [|discriminate H..].
  destruct (read_file root_creds SELF_ECC_PATH s1) as [[[e|] s2]| |] eqn:E2; [|by rewrite andb_false_r in H..].
  apply andb_prop in H as [H1%bool_decide_eq_true H2%bool_decide_eq_true]. subst d e.
  exists s2. rewrite (identity_roundtrip root_creds 0 0 250 demo_self demo_files s1 s2 demo_self_ok E1 E2). reflexivity.
Defined.

Lemma ecc_detects_only_witness : verify_and_repair [0xA4; 0x3C] (encode [0xA5; 0x3C]) = ([0xA4; 0x3C], (true, 0)).
Proof. apply (ecc_detects_only [0xA5; 0x3C] [0xA4; 0x3C]); [repeat constructor; unfold byte_ok; lia..|reflexivity]. Defined.

Lemma ecc_damages_witness :
  ∃ data', verify_and_repair [0xA5] (alter (λ w, Z.lxor w (Z.shiftl 1 5)) 1%nat (encode [0xA5])) = (data', (true, 1)) ∧ data' ≠ [0xA5].
Proof. apply (ecc_damages [0xA5] 1 5); [repeat constructor; unfold byte_ok; lia|cbn; lia|lia]. Defined.

Lemma quantum_flip_witness :
  ∃ w, encoded (Nat.iter 3 quantum_tick (mkQuantum [0x7F; 0x01] 0 0 1)) = [0x7F; w] ∧ decode_bit w = 1.
Proof.
  destruct (quantum_flip [true; false] false 1 0 3 (mkQuantum [0x7F; 0x01] 0 0 1)) as (w & E & _ & _ & H);
    [lia|lia|reflexivity|reflexivity|]. exists w. split; [exact E|exact H].
Defined.
