(* ===== verification/Entropy.v ===== *)
(** The entropy pool, [kernel/src/entropy.rs]. The time-stamp counter, the hardware
    generator and the counters [tick] reads are arguments. *)
From stdpp Require Import base numbers list.
From S2P Require Import Prelude Bytes.

Definition POOL_WORDS : nat := 32.

Record EntropyPool := mkPool { pool : list Z; cursor : Z; calls : Z }.

Definition rotl64 (x n : Z) : Z := Z.lor (u64 (Z.shiftl x n)) (Z.shiftr x (64 - n)).
Definition rotr64 (x n : Z) : Z := rotl64 x (64 - n).

Definition new_pool : EntropyPool :=
  mkPool
    [0x617078653320646e; 0x622d32797465206b; 0x00000000deadc0de; 0x00000000cafebabe;
     0x123456789abcdef0; 0xfedcba9876543210; 0xdeadbeef0badf00d; 0xcafef00d1234abcd;
     0x9e3779b97f4a7c15; 0x6c62272e07bb0142; 0xa80f4f74c25f3d90; 0x3f2d4e8cb1a96507;
     0x517cc1b727220a94; 0x2c65894945d50e23; 0x6a09e667bb67ae85; 0x3c6ef372a54ff53a;
     0x510e527f9b05688c; 0x1f83d9abfb41bd6b; 0x5be0cd19136838be; 0xdead123456789abc;
     0xabcdef0123456789; 0xfeedfacedeadbeef; 0x0102030405060708; 0x090a0b0c0d0e0f10;
     0x1111111122222222; 0x3333333344444444; 0x5555555566666666; 0x7777777788888888;
     0x99999999aaaaaaaa; 0xbbbbbbbbcccccccc; 0xddddddddeeeeeeee; 0xffffffff00000001] 0 0.

(** [self.state[i]]. *)
Definition word (p : list Z) (i : nat) : res Z := index p i.

Definition pool_stir (val : Z) (p : EntropyPool) : res EntropyPool :=
  let calls := add64 (calls p) 1 in
  let pos := Z.to_nat (mul64 (Z.lxor val calls) 0x9e3779b97f4a7c15 mod Z.of_nat POOL_WORDS) in
  let next := ((pos + 1) mod POOL_WORDS)%nat in
  let prev := ((pos + POOL_WORDS - 1) mod POOL_WORDS)%nat in
  let! w := word (pool p) pos in
  let s := <[pos := Z.lxor w val]> (pool p) in
  let! wp := word s pos in
  let! wn := word s next in
  let s := <[next := add64 wn (rotl64 wp 17)]> s in
  let! wp := word s pos in
  let! wv := word s prev in
  let s := <[prev := Z.lxor wv (rotr64 wp 11)]> s in
  let! wc := word s (Z.to_nat (cursor p)) in
  let! wn := word s next in
  Ret (mkPool (<[Z.to_nat (cursor p) := Z.lxor (add64 wc (rotl64 val 31)) wn]> s) (cursor p) calls).

(** One line of [qr!]: [state[t] ^= (state[i] + state[j]).rotate_left(r)]. *)
Definition mix (s : list Z) (q : nat * nat * nat * Z) : list Z :=
  let '(t, i, j, r) := q in <[t := Z.lxor (s !!! t) (rotl64 (add64 (s !!! i) (s !!! j)) r)]> s.
Definition qr (a b c d : nat) : list (nat * nat * nat * Z) := [(b, a, d, 7); (c, b, a, 9); (d, c, b, 13); (a, d, c, 18)].
Definition permute_round : list (nat * nat * nat * Z) :=
  qr 0 4 8 12 ++ qr 1 5 9 13 ++ qr 2 6 10 14 ++ qr 3 7 11 15 ++
  qr 16 20 24 28 ++ qr 17 21 25 29 ++ qr 18 22 26 30 ++ qr 19 23 27 31 ++
  qr 0 5 10 15 ++ qr 1 6 11 12 ++ qr 2 7 8 13 ++ qr 3 4 9 14.
Definition permute (s : list Z) : list Z := Nat.iter 4 (λ s, foldl mix s permute_round) s.

(** [while i < buf.len()], with [rem] bytes to go. *)
Fixpoint fill_loop (fuel : nat) (rem : nat) (p : EntropyPool) : res (list Z * EntropyPool) :=
  match rem with
  | O => Ret ([], p)
  | S _ =>
      match fuel with
      | O => OutOfFuel
      | S fuel' =>
          let p := if decide (Z.of_nat POOL_WORDS ≤ cursor p) then mkPool (permute (pool p)) 0 (calls p) else p in
          let! w := word (pool p) (Z.to_nat (cursor p)) in
          let n := (rem `min` 8)%nat in
          let! (rest, p) := fill_loop fuel' (rem - n) (mkPool (pool p) (cursor p + 1) (calls p)) in
          Ret (take n (to_le 8 w) ++ rest, p)
      end
  end.
Definition pool_fill (tsc : Z) (n : nat) (p : EntropyPool) : res (list Z * EntropyPool) :=
  let! p := pool_stir tsc p in fill_loop n n p.

(** ** The interface *)

Record Entropy := mkEntropy { POOL : EntropyPool; BYTES_OUT : Z; ENTROPY_BITS : Z }.

Definition stir (val : Z) (e : Entropy) : res Entropy :=
  let! p := pool_stir val (POOL e) in Ret (mkEntropy p (BYTES_OUT e) (add64 (ENTROPY_BITS e) 8)).
Definition fill (tsc : Z) (n : nat) (e : Entropy) : res (list Z * Entropy) :=
  let! (b, p) := pool_fill tsc n (POOL e) in
  Ret (b, mkEntropy p (add64 (BYTES_OUT e) (Z.of_nat n)) (ENTROPY_BITS e)).
(** [rdrand] is the hardware value when there is one. *)
Definition entropy_tick (now tasks syscalls tsc ai_hash : Z) (rdrand : option Z) (e : Entropy) : res Entropy :=
  let! p := pool_stir (default (Z.lxor now syscalls) rdrand) (POOL e) in
  let! p := pool_stir (Z.lxor tsc now) p in
  let! p := pool_stir (Z.lxor tasks syscalls) p in
  let! p := pool_stir ai_hash p in
  Ret (mkEntropy p (BYTES_OUT e) (add64 (ENTROPY_BITS e) 96)).
Definition bytes_out (e : Entropy) : Z := BYTES_OUT e.
Definition entropy_bits (e : Entropy) : Z := Z.min (ENTROPY_BITS e) 256.

(** * Theorems about the entropy pool. *)

Definition pool_ok (p : EntropyPool) : Prop := length (pool p) = POOL_WORDS ∧ 0 ≤ cursor p ≤ Z.of_nat POOL_WORDS.

Lemma pool_word_ok l i : (i < length l)%nat → word l i = Ret (l !!! i).
Proof. intros H. unfold word, index. destruct (lookup_lt_is_Some_2 l i H) as [x E]. by rewrite E, (list_lookup_total_correct _ _ _ E). Qed.

(** ** Stirring *)

Lemma pool_pos v : (Z.to_nat (v mod Z.of_nat POOL_WORDS) < POOL_WORDS)%nat.
Proof. pose proof (Z.mod_pos_bound v (Z.of_nat POOL_WORDS) ltac:(done)). lia. Qed.

Lemma pool_stir_ok v p :
  pool_ok p → cursor p < Z.of_nat POOL_WORDS →
  ∃ p', pool_stir v p = Ret p' ∧ length (pool p') = POOL_WORDS ∧ cursor p' = cursor p.
Proof.
  intros [Hl Hc] Hlt. unfold pool_stir. set (pos := Z.to_nat _).
  assert (Hpos : (pos < POOL_WORDS)%nat) by apply pool_pos.
  assert (Hm : ∀ x, (x mod POOL_WORDS < POOL_WORDS)%nat) by (intros x; apply Nat.mod_upper_bound; done).
  rewrite !pool_word_ok by (rewrite ?length_insert, Hl; (done || apply Hm || lia)). cbn [res_bind].
  rewrite !pool_word_ok by (rewrite ?length_insert, Hl; (done || apply Hm || lia)). cbn [res_bind].
  repeat (rewrite !pool_word_ok by (rewrite ?length_insert, Hl; (done || apply Hm || lia)); cbn [res_bind]).
  eexists. split; [done|]. cbn [pool cursor]. by rewrite !length_insert.
Qed.

(** With the cursor past the last word the index is out of range. *)
Lemma pool_stir_panics v p : pool_ok p → cursor p = Z.of_nat POOL_WORDS → pool_stir v p = Panic.
Proof.
  intros [Hl _] Hc. unfold pool_stir. set (pos := Z.to_nat (_ mod _)).
  assert (Hpos : (pos < POOL_WORDS)%nat) by apply pool_pos.
  assert (Hm : ∀ x, (x mod POOL_WORDS < POOL_WORDS)%nat) by (intros x; apply Nat.mod_upper_bound; done).
  do 5 (rewrite pool_word_ok by (rewrite ?length_insert, Hl; (done || apply Hm)); cbn [res_bind]).
  rewrite Hc, Nat2Z.id. unfold word at 1, index. rewrite lookup_ge_None_2; [done|]. rewrite !length_insert. lia.
Qed.

(** ** Mixing *)

Definition mixes (s : list Z) (l : list (nat * nat * nat * Z)) : list Z := foldl mix s l.

(** A line of the mixing writes a word it does not read. *)
Definition mix_ok (q : nat * nat * nat * Z) : Prop := let '(t, i, j, _) := q in t ≠ i ∧ t ≠ j ∧ (t < POOL_WORDS)%nat.

Lemma mix_involutive s q : length s = POOL_WORDS → mix_ok q → mix (mix s q) q = s.
Proof.
  destruct q as [[[t i] j] r]. intros Hl (Hi & Hj & Ht). unfold mix.
  rewrite list_lookup_total_insert_eq by lia. rewrite !list_lookup_total_insert_ne by done.
  rewrite list_insert_insert_eq. rewrite Z.lxor_assoc, Z.lxor_nilpotent, Z.lxor_0_r.
  apply list_insert_id. apply list_lookup_lookup_total_lt. lia.
Qed.
Lemma length_mix s q : length (mix s q) = length s.
Proof. destruct q as [[[t i] j] r]. apply length_insert. Qed.
Lemma length_mixes s l : length (mixes s l) = length s.
Proof. revert s. induction l as [|q l IH]; intros s; [done|]. cbn. rewrite IH. apply length_mix. Qed.

Lemma mixes_reverse s l : length s = POOL_WORDS → Forall mix_ok l → mixes (mixes s l) (reverse l) = s.
Proof.
  intros Hl Hok. revert s Hl. induction Hok as [|q l Hq Hok IH]; intros s Hl; [done|].
  rewrite reverse_cons. cbn [mixes foldl]. unfold mixes in *. rewrite foldl_app, IH by (by rewrite length_mix). by apply mix_involutive.
Qed.

Definition unpermute (s : list Z) : list Z := Nat.iter 4 (λ s, mixes s (reverse permute_round)) s.

Lemma permute_round_ok : Forall mix_ok permute_round.
Proof. repeat constructor; cbn; unfold POOL_WORDS; lia. Qed.
#[local] Opaque permute_round.

(** Four rounds of a function that keeps the length. *)
Lemma length_rounds l s : length (Nat.iter 4 (λ s, mixes s l) s) = length s.
Proof. cbn [Nat.iter nat_rect]. by rewrite !length_mixes. Qed.
Lemma length_permute s : length (permute s) = length s.
Proof. apply length_rounds. Qed.

Lemma rounds_undone l1 l2 :
  (∀ s, length s = POOL_WORDS → mixes (mixes s l1) l2 = s) →
  ∀ s, length s = POOL_WORDS → Nat.iter 4 (λ s, mixes s l2) (Nat.iter 4 (λ s, mixes s l1) s) = s.
Proof. intros H s Hs. cbn [Nat.iter nat_rect]. do 4 rewrite H by (by rewrite ?length_mixes). done. Qed.

(** The full permutation loses nothing: it can be undone, so every state of the
    pool is reached from exactly one. *)
Theorem permute_bijective s : length s = POOL_WORDS → unpermute (permute s) = s ∧ permute (unpermute s) = s.
Proof.
  intros Hl. assert (H1 : ∀ s, length s = POOL_WORDS → mixes (mixes s permute_round) (reverse permute_round) = s)
    by (intros s' Hs; apply mixes_reverse; [done|apply permute_round_ok]).
  assert (H2 : ∀ s, length s = POOL_WORDS → mixes (mixes s (reverse permute_round)) permute_round = s).
  { intros s' Hs. rewrite <- (reverse_involutive permute_round) at 2. apply mixes_reverse; [done|].
    apply Forall_reverse, permute_round_ok. }
  split; [exact (rounds_undone permute_round (reverse permute_round) H1 s Hl)|exact (rounds_undone (reverse permute_round) permute_round H2 s Hl)].
Qed.

(** ** Extraction *)

(** The words [n] bytes take, and where they leave the cursor. *)
Definition words_of (n : nat) : Z := (Z.of_nat n + 7) / 8.
Definition advance (c k : Z) : Z := if decide (k = 0) then c else (c + k - 1) mod Z.of_nat POOL_WORDS + 1.

Lemma words_of_step n : (0 < n)%nat → words_of (n - n `min` 8) = words_of n - 1 ∧ 0 < words_of n.
Proof. intros Hn. unfold words_of. Z.div_mod_to_equations. lia. Qed.
Lemma advance_step c k :
  0 ≤ c ≤ Z.of_nat POOL_WORDS → 0 < k →
  advance ((if decide (Z.of_nat POOL_WORDS ≤ c) then 0 else c) + 1) (k - 1) = advance c k.
Proof.
  intros Hc Hk. unfold advance. rewrite (decide_False (P := k = 0)) by lia.
  change (Z.of_nat POOL_WORDS) with 32 in *. repeat case_decide; Z.div_mod_to_equations; lia.
Qed.

Lemma fill_loop_ok fuel : ∀ n p,
  pool_ok p → (n ≤ fuel)%nat →
  ∃ b p', fill_loop fuel n p = Ret (b, p') ∧ length b = n ∧ pool_ok p' ∧ cursor p' = advance (cursor p) (words_of n).
Proof.
  induction fuel as [|fuel IH]; intros n p [Hl Hc] Hn.
  { replace n with 0%nat by lia. by exists [], p. }
  destruct n as [|n']; [by exists [], p|]. set (n := S n') in *. cbn [fill_loop]. change (match n with 0%nat => _ | S _ => ?x end) with x.
  destruct (words_of_step n ltac:(lia)) as [Hw Hw0].
  set (p0 := if decide (Z.of_nat POOL_WORDS ≤ cursor p) then _ else p).
  assert (Hp0 : length (pool p0) = POOL_WORDS ∧ cursor p0 = (if decide (Z.of_nat POOL_WORDS ≤ cursor p) then 0 else cursor p) ∧
    cursor p0 < Z.of_nat POOL_WORDS ∧ 0 ≤ cursor p0).
  { unfold p0. case_decide; cbn [pool cursor]; rewrite ?length_permute; split_and!; try done; lia. }
  destruct Hp0 as (Hl0 & Hc0 & Hlt & Hge). rewrite pool_word_ok by lia. cbn [res_bind].
  destruct (IH (n - n `min` 8)%nat (mkPool (pool p0) (cursor p0 + 1) (calls p0))) as (b & p' & E & Hlb & Hok & Hcur);
    [split; [done|cbn [cursor]; lia]|lia|].
  rewrite E. cbn [res_bind]. eexists _, p'. split; [done|]. split; [|split; [done|]].
  - rewrite length_app, length_take, length_to_le, Hlb. lia.
  - rewrite Hcur, Hw. cbn [cursor]. rewrite Hc0. by apply advance_step.
Qed.

(** Extraction. While the cursor is on a word of the pool, any number of bytes is
    extracted, exactly as many as asked for, and the cursor moves on by one word for
    every eight bytes, around the pool. *)
Theorem fill_correct tsc n p :
  pool_ok p → cursor p < Z.of_nat POOL_WORDS →
  ∃ b p', pool_fill tsc n p = Ret (b, p') ∧ length b = n ∧ pool_ok p' ∧ cursor p' = advance (cursor p) (words_of n).
Proof.
  intros Hp Hc. destruct (pool_stir_ok tsc p Hp Hc) as (p1 & E & Hl & Hcur). unfold pool_fill. rewrite E. cbn [res_bind].
  rewrite <- Hcur. apply fill_loop_ok; [|lia]. split; [done|]. rewrite Hcur. destruct Hp. lia.
Qed.

(** C35. Reading up to the end of the pool crashes the kernel. Whatever its state, a
    read of the bytes that are left before the end of the pool succeeds and leaves the
    cursor behind the last word; from then on the next extraction, the next stirred
    value and the next tick index out of range and panic. *)
Theorem pool_end_panics tsc e :
  pool_ok (POOL e) → cursor (POOL e) < Z.of_nat POOL_WORDS →
  ∃ b e', fill tsc (8 * Z.to_nat (Z.of_nat POOL_WORDS - cursor (POOL e))) e = Ret (b, e') ∧
    (∀ tsc' n, fill tsc' n e' = Panic) ∧ (∀ v, stir v e' = Panic) ∧
    (∀ now tasks syscalls tsc' ai rd, entropy_tick now tasks syscalls tsc' ai rd e' = Panic).
Proof.
  intros Hp Hc. set (n := (8 * Z.to_nat _)%nat).
  destruct (pool_stir_ok tsc (POOL e) Hp Hc) as (p1 & E & Hl & Hcur).
  destruct (fill_loop_ok n n p1) as (b & p' & E' & _ & Hok & Hcur'); [split; [done|rewrite Hcur; destruct Hp; lia]|lia|].
  assert (Hend : cursor p' = Z.of_nat POOL_WORDS).
  { rewrite Hcur', Hcur. destruct Hp as [_ Hp]. change (Z.of_nat POOL_WORDS) with 32 in *.
    assert (Hw : words_of n = 32 - cursor (POOL e)) by (unfold words_of, n; change (Z.of_nat POOL_WORDS) with 32; Z.div_mod_to_equations; lia).
    unfold advance. rewrite Hw. change (Z.of_nat POOL_WORDS) with 32. rewrite decide_False by lia. Z.div_mod_to_equations; lia. }
  eexists b, _. unfold fill, stir, entropy_tick, pool_fill at 1. rewrite E. cbn [res_bind]. rewrite E'. cbn [res_bind].
  split; [done|]. cbn [POOL]. split_and!.
  - intros tsc' k. unfold pool_fill. by rewrite pool_stir_panics.
  - intros v. by rewrite pool_stir_panics.
  - intros. by rewrite pool_stir_panics.
Qed.

(** ** Concrete instances *)

Lemma new_pool_ok : pool_ok new_pool.
Proof. split; [done|]. cbn. lia. Qed.

Lemma fill_correct_witness : ∃ b p', pool_fill 7 20 new_pool = Ret (b, p') ∧ length b = 20%nat ∧ cursor p' = 3.
Proof.
  destruct (fill_correct 7 20 new_pool new_pool_ok) as (b & p' & E & Hl & _ & Hc); [done|].
  exists b, p'. split; [exact E|]. split; [exact Hl|exact Hc].
Defined.
Lemma pool_end_panics_witness :
  ∃ b e', fill 7 256 (mkEntropy new_pool 0 0) = Ret (b, e') ∧ fill 8 1 e' = Panic.
Proof.
  destruct (pool_end_panics 7 (mkEntropy new_pool 0 0) new_pool_ok) as (b & e' & E & H & _); [done|].
  exists b, e'. split; [exact E|apply H].
Defined.
Lemma permute_bijective_witness : unpermute (permute (pool new_pool)) = pool new_pool.
Proof. apply (permute_bijective (pool new_pool) eq_refl). Defined.
