(* ===== verification/BlockDev.v ===== *)
(** Block devices as files: [kernel/src/vfs/blockdev.rs]. The drivers below, which are
    not modelled, are the class [BlockDriver]: what a transfer of at most
    [MAX_TRANSFER] whole sectors that lie on the disk does when the device reports
    success. A transfer may fail; of larger transfers and of sectors outside the disk
    nothing is said. *)
From stdpp Require Import base numbers list strings.
From S2P Require Import Prelude Bytes FrameAlloc PageCache RunQueue Task Scheduler Users Ramfs.

Definition SECTOR_SIZE : Z := 512.

(** [n] sectors from [lba] on, and a disk with [data] written there. *)
Definition sectors_at (lba n : Z) (disk : list Z) : list Z :=
  take (Z.to_nat (SECTOR_SIZE * n)) (drop (Z.to_nat (SECTOR_SIZE * lba)) disk).
Definition sectors_put (lba : Z) (data disk : list Z) : list Z :=
  take (Z.to_nat (SECTOR_SIZE * lba)) disk ++ data ++ drop (Z.to_nat (SECTOR_SIZE * lba) + length data) disk.

(** The one entry of the AHCI scatter list has a byte count of 22 bits: 4 MiB. *)
Definition MAX_TRANSFER : Z := 8192.

Class BlockDriver (D : Type) := {
  bd_bytes : D → list Z;
  bd_read : Z → Z → D → option (list Z) * D;
  bd_write : Z → list Z → D → bool * D;
  bd_read_bytes lba n d : bd_bytes (bd_read lba n d).2 = bd_bytes d;
  bd_read_spec lba n d b :
    0 ≤ lba → 0 < n ≤ MAX_TRANSFER → SECTOR_SIZE * (lba + n) ≤ Z.of_nat (length (bd_bytes d)) →
    (bd_read lba n d).1 = Some b → b = sectors_at lba n (bd_bytes d);
  bd_write_spec lba n data d :
    0 ≤ lba → 0 < n ≤ MAX_TRANSFER → Z.of_nat (length data) = SECTOR_SIZE * n →
    SECTOR_SIZE * (lba + n) ≤ Z.of_nat (length (bd_bytes d)) →
    (bd_write lba data d).1 = true → bd_bytes (bd_write lba data d).2 = sectors_put lba data (bd_bytes d)
}.

(** [AhciNode], [NvmeNode] and their handles. *)
Record BlockNode := mkBlockNode { bn_ino : Z; bn_drive : Z; bn_size : Z }.
Record BlockHandle := mkBlock { b_drive : Z; b_off : Z; b_size : Z }.

Definition block_node (ino drive sector_count : Z) : BlockNode := mkBlockNode ino drive (mul64 sector_count SECTOR_SIZE).
Definition block_stat (n : BlockNode) : Stat := mkStat (bn_ino n) (bn_size n) false 1 0 0 432.
Definition block_open (n : BlockNode) : BlockHandle := mkBlock (bn_drive n) 0 (bn_size n).
Definition block_seek (pos : Z) (h : BlockHandle) : BlockHandle := mkBlock (b_drive h) (Z.min pos (b_size h)) (b_size h).
Definition move (n : Z) (h : BlockHandle) : BlockHandle := mkBlock (b_drive h) (add64 (b_off h) n) (b_size h).

(** [(x + 511) & !511]. *)
Definition sector_up (x : Z) : Z := Z.land (add64 x (SECTOR_SIZE - 1)) (not64 (SECTOR_SIZE - 1)).
Definition as_u16 (x : Z) : Z := x mod 65536.

Section handles.
Context {D : Type} {BD : BlockDriver D}.

(** [AhciHandle::read] into a buffer of [len] bytes. *)
Definition ahci_read (len : Z) (h : BlockHandle) (d : D) : res (vres (list Z) * BlockHandle * D) :=
  if decide (b_size h ≤ b_off h) then Ret (Ok [], h, d) else
  let to_read := Z.min len (b_size h - b_off h) in
  let lba := b_off h / SECTOR_SIZE in
  let start := b_off h mod SECTOR_SIZE in
  let sectors := as_u16 ((start + to_read + SECTOR_SIZE - 1) / SECTOR_SIZE) in
  let (r, d) := bd_read lba sectors d in
  match r with
  | None => Ret (Err Io, h, d)
  | Some data =>
      let end_ := Z.min (start + to_read) (Z.of_nat (length data)) in
      if decide (end_ < start) then Panic else
      let n := end_ - start in
      Ret (Ok (take (Z.to_nat n) (drop (Z.to_nat start) data)), move n h, d)
  end.

(** [NvmeHandle::read]. *)
Definition nvme_read (len : Z) (h : BlockHandle) (d : D) : res (vres (list Z) * BlockHandle * D) :=
  if decide (b_size h ≤ b_off h) then Ret (Ok [], h, d) else
  let to_read := Z.min len (b_size h - b_off h) in
  let lba := b_off h / SECTOR_SIZE in
  let sectors := as_u16 ((to_read + (SECTOR_SIZE - 1)) / SECTOR_SIZE) in
  let (r, d) := bd_read lba sectors d in
  match r with
  | None => Ret (Err Io, h, d)
  | Some data =>
      let start := b_off h mod SECTOR_SIZE in
      let n := Z.min (sub64 (Z.of_nat (length data)) start) to_read in
      if decide (Z.of_nat (length data) < start + n) then Panic else
      Ret (Ok (take (Z.to_nat n) (drop (Z.to_nat start) data)), move n h, d)
  end.

(** The buffer both handles write: padded with zeros to whole sectors. *)
Definition sector_buf (buf : list Z) : list Z :=
  buf ++ replicate (Z.to_nat (sector_up (Z.of_nat (length buf)) - Z.of_nat (length buf))) 0.

Definition nvme_write (buf : list Z) (h : BlockHandle) (d : D) : vres Z * BlockHandle * D :=
  let lba := b_off h / SECTOR_SIZE in
  let (ok, d) := bd_write lba (sector_buf buf) d in
  if ok : bool then (Ok (Z.of_nat (length buf)), move (Z.of_nat (length buf)) h, d) else (Err Io, h, d).
Definition ahci_write (buf : list Z) (h : BlockHandle) (d : D) : vres Z * BlockHandle * D :=
  if decide (b_size h ≤ b_off h) then (Err Io, h, d) else nvme_write buf h d.
End handles.

(** * Theorems about block devices as files. *)

(** ** Sectors *)

(** The sectors a range of bytes touches, and one it is rounded up to. *)
Definition sectors_for (n : Z) : Z := (n + SECTOR_SIZE - 1) / SECTOR_SIZE.

Lemma sector_up_eq x : 0 ≤ x → x + SECTOR_SIZE ≤ u64_modulus → sector_up x = SECTOR_SIZE * sectors_for x.
Proof.
  intros H0 Hu. unfold sector_up, sectors_for, SECTOR_SIZE in *. rewrite add64_small by lia.
  change (not64 (512 - 1)) with (not64 (Z.ones 9)). rewrite land_not_ones by (unfold is_u64; lia). change (2 ^ 9) with 512.
  Z.div_mod_to_equations; lia.
Qed.

Lemma length_sector_buf buf :
  Z.of_nat (length buf) + SECTOR_SIZE ≤ u64_modulus →
  Z.of_nat (length (sector_buf buf)) = SECTOR_SIZE * sectors_for (Z.of_nat (length buf)).
Proof.
  intros Hu. unfold sector_buf. rewrite length_app, length_replicate, sector_up_eq by lia.
  assert (Z.of_nat (length buf) ≤ SECTOR_SIZE * sectors_for (Z.of_nat (length buf)))
    by (unfold sectors_for, SECTOR_SIZE; Z.div_mod_to_equations; lia). lia.
Qed.

(** Bytes of a disk. *)
Definition bytes_at (off n : Z) (disk : list Z) : list Z := take (Z.to_nat n) (drop (Z.to_nat off) disk).

(** A range of bytes inside a range of sectors. *)
Lemma bytes_in_sectors lba k start n disk :
  0 ≤ lba → 0 ≤ start → 0 ≤ n → start + n ≤ SECTOR_SIZE * k →
  take (Z.to_nat n) (drop (Z.to_nat start) (sectors_at lba k disk)) = bytes_at (SECTOR_SIZE * lba + start) n disk.
Proof.
  intros Hl Hs Hn Hk. unfold sectors_at, bytes_at, SECTOR_SIZE in *.
  rewrite skipn_firstn_comm, take_take, drop_drop. f_equal; [lia|]. f_equal. lia.
Qed.
Lemma length_sectors_at lba k disk :
  0 ≤ lba → 0 ≤ k → SECTOR_SIZE * (lba + k) ≤ Z.of_nat (length disk) → Z.of_nat (length (sectors_at lba k disk)) = SECTOR_SIZE * k.
Proof. intros Hl Hk Hd. unfold sectors_at, SECTOR_SIZE in *. rewrite length_take, length_drop. lia. Qed.

(** What is put on the disk is there. *)
Lemma bytes_at_put lba data disk :
  0 ≤ lba → SECTOR_SIZE * lba ≤ Z.of_nat (length disk) →
  ∀ n, 0 ≤ n ≤ Z.of_nat (length data) → bytes_at (SECTOR_SIZE * lba) n (sectors_put lba data disk) = take (Z.to_nat n) data.
Proof.
  intros Hl Hd n Hn. unfold bytes_at, sectors_put.
  rewrite drop_app_length' by (rewrite length_take; lia). rewrite take_app_le by lia. done.
Qed.

(** ** Reading *)

Section handles.
Context {D : Type} {BD : BlockDriver D}.
Implicit Types d : D.

(** A handle that is not at its end. Its size is what the drive was registered with,
    64 GiB, whatever the disk has. *)
Record handle_ok (h : BlockHandle) : Prop := {
  hk_off : 0 ≤ b_off h < b_size h;
  hk_fits : b_size h + SECTOR_SIZE * (MAX_TRANSFER + 2) ≤ u64_modulus
}.
(** The sectors of [n] bytes at the position are on the disk. *)
Definition on_disk (h : BlockHandle) (n : Z) d : Prop :=
  SECTOR_SIZE * sectors_for (b_off h + n) ≤ Z.of_nat (length (bd_bytes d)).

(** Reads of a drive. A read of any positive number of bytes at any position of the
    disk, of at most 4 MiB with the part of the sector before it, either fails with an
    I/O error and moves nothing, or returns exactly the bytes of the disk at the
    position, as many as asked for or as the handle has, and moves past them. *)
Theorem ahci_read_correct len h d :
  handle_ok h → 0 < len → b_off h mod SECTOR_SIZE + len ≤ SECTOR_SIZE * MAX_TRANSFER →
  on_disk h (Z.min len (b_size h - b_off h)) d →
  ∃ r h' d', ahci_read len h d = Ret (r, h', d') ∧ bd_bytes d' = bd_bytes d ∧
    ((r = Err Io ∧ h' = h) ∨
     (let n := Z.min len (b_size h - b_off h) in
      r = Ok (bytes_at (b_off h) n (bd_bytes d)) ∧ h' = mkBlock (b_drive h) (b_off h + n) (b_size h))).
Proof.
  intros [Ho Hf] Hl Hsec Hdisk. unfold on_disk, sectors_for in Hdisk. unfold ahci_read. rewrite decide_False by lia. cbv zeta.
  set (n := Z.min len (b_size h - b_off h)). set (start := b_off h mod SECTOR_SIZE) in *.
  assert (Hst : 0 ≤ start < SECTOR_SIZE) by (apply Z.mod_pos_bound; done).
  assert (Hoff : b_off h = SECTOR_SIZE * (b_off h / SECTOR_SIZE) + start) by (apply Z.div_mod; done).
  set (lba := b_off h / SECTOR_SIZE) in *. set (k := (start + n + SECTOR_SIZE - 1) / SECTOR_SIZE).
  assert (Hn : 0 < n ≤ len ∧ b_off h + n ≤ b_size h) by lia.
  assert (Hk : 0 < k ≤ MAX_TRANSFER ∧ start + n ≤ SECTOR_SIZE * k ∧ SECTOR_SIZE * (lba + k) ≤ Z.of_nat (length (bd_bytes d))).
  { fold n in Hdisk. unfold k, MAX_TRANSFER, SECTOR_SIZE in *. clearbody n start lba. Z.div_mod_to_equations. lia. }
  assert (Hlba : 0 ≤ lba) by (unfold SECTOR_SIZE in *; clearbody n start lba k; lia).
  unfold as_u16. rewrite Z.mod_small by (unfold MAX_TRANSFER in *; lia).
  pose proof (bd_read_bytes lba k d) as Hb. pose proof (λ b, bd_read_spec lba k d b Hlba) as Hr.
  destruct (bd_read lba k d) as [[b|] d'] eqn:E; cbn [fst snd] in *.
  - specialize (Hr b ltac:(lia) ltac:(lia) eq_refl) as ->.
    rewrite length_sectors_at by lia. rewrite Z.min_l by lia. rewrite decide_False by lia.
    eexists _, _, d'. split; [done|]. split; [done|]. right. replace (start + n - start) with n by lia. split.
    + f_equal. rewrite Hoff. apply bytes_in_sectors; lia.
    + unfold move. f_equal. rewrite add64_small by lia. done.
  - eexists _, _, d'. split; [done|]. split; [done|]. by left.
Qed.

(** The NVMe handle counts sectors from the start of the buffer, not of the range: a
    read at an odd position is cut at the end of the last whole sector counted. *)
Lemma nvme_read_prefix len h d :
  handle_ok h → 0 < len ≤ SECTOR_SIZE * MAX_TRANSFER → on_disk h (Z.min len (b_size h - b_off h)) d →
  ∃ r h' d', nvme_read len h d = Ret (r, h', d') ∧ bd_bytes d' = bd_bytes d ∧
    ((r = Err Io ∧ h' = h) ∨
     (let t := Z.min len (b_size h - b_off h) in
      let n := Z.min (SECTOR_SIZE * sectors_for t - b_off h mod SECTOR_SIZE) t in
      0 < n ∧ r = Ok (bytes_at (b_off h) n (bd_bytes d)) ∧ h' = mkBlock (b_drive h) (b_off h + n) (b_size h))).
Proof.
  intros [Ho Hf] Hl Hdisk. unfold on_disk, sectors_for in Hdisk. unfold nvme_read. rewrite decide_False by lia. cbv zeta.
  set (t := Z.min len (b_size h - b_off h)). set (start := b_off h mod SECTOR_SIZE) in *.
  assert (Hst : 0 ≤ start < SECTOR_SIZE) by (apply Z.mod_pos_bound; done).
  assert (Hoff : b_off h = SECTOR_SIZE * (b_off h / SECTOR_SIZE) + start) by (apply Z.div_mod; done).
  set (lba := b_off h / SECTOR_SIZE) in *. replace ((t + (SECTOR_SIZE - 1)) / SECTOR_SIZE) with (sectors_for t) by (unfold sectors_for; f_equal; lia). set (k := sectors_for t).
  assert (Hn : 0 < t ≤ len ∧ b_off h + t ≤ b_size h) by lia.
  assert (Hk : 0 < k ≤ MAX_TRANSFER ∧ t ≤ SECTOR_SIZE * k ∧ SECTOR_SIZE * (lba + k) ≤ Z.of_nat (length (bd_bytes d))).
  { fold t in Hdisk. unfold k, sectors_for, MAX_TRANSFER, SECTOR_SIZE in *. clearbody t start lba. Z.div_mod_to_equations. lia. }
  assert (Hlba : 0 ≤ lba) by (unfold SECTOR_SIZE in *; clearbody t start lba k; lia).
  unfold as_u16. rewrite Z.mod_small by (unfold MAX_TRANSFER in *; lia).
  pose proof (bd_read_bytes lba k d) as Hb. pose proof (λ b, bd_read_spec lba k d b Hlba) as Hr.
  destruct (bd_read lba k d) as [[b|] d'] eqn:E; cbn [fst snd] in *.
  - specialize (Hr b ltac:(lia) ltac:(lia) eq_refl) as ->. rewrite length_sectors_at by lia.
    assert (Hks : SECTOR_SIZE ≤ SECTOR_SIZE * k) by (unfold SECTOR_SIZE in *; lia).
    rewrite sub64_small by (unfold MAX_TRANSFER, SECTOR_SIZE, u64_modulus in *; lia). rewrite decide_False by lia.
    eexists _, _, d'. split; [done|]. split; [done|]. right. split; [lia|]. split.
    + f_equal. rewrite Hoff. apply bytes_in_sectors; lia.
    + unfold move. f_equal. rewrite add64_small by lia. done.
  - eexists _, _, d'. split; [done|]. split; [done|]. by left.
Qed.

(** ** Writing *)

(** A write that the device accepts: the padded buffer goes to the sector that holds
    the position. *)
Lemma block_write_effect buf h d n h' d' :
  handle_ok h → 0 < Z.of_nat (length buf) ≤ SECTOR_SIZE * MAX_TRANSFER →
  SECTOR_SIZE * (b_off h / SECTOR_SIZE + sectors_for (Z.of_nat (length buf))) ≤ Z.of_nat (length (bd_bytes d)) →
  ahci_write buf h d = (Ok n, h', d') →
  n = Z.of_nat (length buf) ∧ b_off h' = b_off h + n ∧ b_size h' = b_size h ∧
  bd_bytes d' = sectors_put (b_off h / SECTOR_SIZE) (sector_buf buf) (bd_bytes d).
Proof.
  intros [Ho Hf] Hb Hfit. unfold ahci_write. rewrite decide_False by lia. unfold nvme_write. cbv zeta.
  set (lba := b_off h / SECTOR_SIZE) in *. set (L := Z.of_nat (length buf)) in *.
  assert (Hlen : Z.of_nat (length (sector_buf buf)) = SECTOR_SIZE * sectors_for L)
    by (apply length_sector_buf; fold L; unfold MAX_TRANSFER, SECTOR_SIZE, u64_modulus in *; lia).
  assert (Hlba : 0 ≤ lba) by (unfold lba, SECTOR_SIZE; Z.div_mod_to_equations; lia).
  assert (Hk : 0 < sectors_for L ≤ MAX_TRANSFER ∧ L ≤ SECTOR_SIZE * sectors_for L)
    by (unfold sectors_for, MAX_TRANSFER, SECTOR_SIZE in *; clearbody L lba; Z.div_mod_to_equations; lia).
  pose proof (bd_write_spec lba (sectors_for L) (sector_buf buf) d Hlba (proj1 Hk) Hlen) as Hspec. specialize (Hspec Hfit).
  destruct (bd_write lba (sector_buf buf) d) as [[|] d2] eqn:E; cbn [fst snd] in Hspec; [|done]. intros [= <- <- <-].
  split; [done|]. unfold move. cbn [b_off b_size]. split; [|split; [done|by apply Hspec]].
  apply add64_small. assert (SECTOR_SIZE * lba ≤ b_off h) by (unfold lba, SECTOR_SIZE; Z.div_mod_to_equations; lia).
  assert (b_off h < SECTOR_SIZE * lba + SECTOR_SIZE) by (unfold lba, SECTOR_SIZE; Z.div_mod_to_equations; lia).
  unfold MAX_TRANSFER, SECTOR_SIZE in *. clearbody L lba. lia.
Qed.

Lemma take_sector_buf buf : take (length buf) (sector_buf buf) = buf.
Proof. unfold sector_buf. by apply take_app_length. Qed.

(** Writes go to the wrong place. A write the drive accepts stores the buffer at the
    start of the sector that contains the position: at a position inside a sector it
    overwrites the bytes before it, and what is read back at the position is the buffer
    only from its middle on. The handle still moves on by the length. *)
Theorem block_write_misplaced buf h d n h' d' :
  handle_ok h → 0 < Z.of_nat (length buf) ≤ SECTOR_SIZE * MAX_TRANSFER →
  SECTOR_SIZE * (b_off h / SECTOR_SIZE + sectors_for (Z.of_nat (length buf))) ≤ Z.of_nat (length (bd_bytes d)) →
  ahci_write buf h d = (Ok n, h', d') →
  let start := b_off h mod SECTOR_SIZE in
  n = Z.of_nat (length buf) ∧ b_off h' = b_off h + n ∧
  bytes_at (b_off h - start) n (bd_bytes d') = buf ∧
  bytes_at (b_off h) (n - start) (bd_bytes d') = drop (Z.to_nat start) buf.
Proof.
  intros Hok Hb Hfit E start. destruct (block_write_effect buf h d n h' d' Hok Hb Hfit E) as (Hn & Ho & _ & Hbytes).
  destruct Hok as [Hoff Hf]. set (lba := b_off h / SECTOR_SIZE) in *.
  assert (Hst : 0 ≤ start < SECTOR_SIZE) by (apply Z.mod_pos_bound; done).
  assert (Heq : b_off h = SECTOR_SIZE * lba + start) by (apply Z.div_mod; done).
  assert (Hlba : 0 ≤ lba) by (unfold SECTOR_SIZE in *; clearbody start lba; lia).
  assert (Hall : bytes_at (SECTOR_SIZE * lba) n (bd_bytes d') = buf).
  { assert (Hs0 : 0 ≤ sectors_for (Z.of_nat (length buf))) by (apply Z.div_pos; unfold SECTOR_SIZE; lia).
    rewrite Hbytes, bytes_at_put; [|lia|unfold SECTOR_SIZE in *; clearbody start lba; lia|].
    - rewrite Hn, Nat2Z.id. apply take_sector_buf.
    - unfold sector_buf. rewrite length_app. lia. }
  split; [done|]. split; [done|]. split; [by replace (b_off h - start) with (SECTOR_SIZE * lba) by lia|].
  rewrite <- Hall. unfold bytes_at. rewrite skipn_firstn_comm, drop_drop. f_equal; [lia|]. f_equal. unfold SECTOR_SIZE in *. lia.
Qed.

(** At the start of a sector what is written is read back: after a write the drive
    accepts, seeking to its position and reading its length gives the buffer, unless
    the drive reports an error. *)
Theorem block_roundtrip buf h d n h' d' :
  handle_ok h → 0 < Z.of_nat (length buf) ≤ SECTOR_SIZE * MAX_TRANSFER → b_off h mod SECTOR_SIZE = 0 →
  b_off h + Z.of_nat (length buf) ≤ b_size h →
  SECTOR_SIZE * (b_off h / SECTOR_SIZE + sectors_for (Z.of_nat (length buf))) ≤ Z.of_nat (length (bd_bytes d)) →
  ahci_write buf h d = (Ok n, h', d') →
  ∃ r h'' d'', ahci_read n (block_seek (b_off h) h') d' = Ret (r, h'', d'') ∧ (r = Ok buf ∨ r = Err Io).
Proof.
  intros Hok Hb H0 Hin Hfit E. destruct (block_write_effect buf h d n h' d' Hok Hb Hfit E) as (Hn & Ho & Hsz & Hbytes).
  destruct Hok as [Hoff Hf]. set (lba := b_off h / SECTOR_SIZE) in *. set (L := Z.of_nat (length buf)) in *.
  assert (Heq : b_off h = SECTOR_SIZE * lba) by (rewrite (Z.div_mod (b_off h) SECTOR_SIZE) at 1 by done; rewrite H0; fold lba; lia).
  assert (Hlba : 0 ≤ lba) by (unfold SECTOR_SIZE in *; clearbody lba; lia).
  assert (Hlen : Z.of_nat (length (sector_buf buf)) = SECTOR_SIZE * sectors_for L)
    by (apply length_sector_buf; fold L; unfold MAX_TRANSFER, SECTOR_SIZE, u64_modulus in *; lia).
  assert (HL : L ≤ SECTOR_SIZE * sectors_for L) by (unfold sectors_for, SECTOR_SIZE; clearbody L; Z.div_mod_to_equations; lia).
  assert (Hh : block_seek (b_off h) h' = mkBlock (b_drive h') (b_off h) (b_size h)) by (unfold block_seek; rewrite Hsz; f_equal; lia).
  assert (Hsz' : Z.of_nat (length (bd_bytes d')) = Z.of_nat (length (bd_bytes d))).
  { rewrite Hbytes. unfold sectors_put. rewrite !length_app, length_take, length_drop.
    unfold SECTOR_SIZE in *. clearbody lba L. lia. }
  rewrite Hh. destruct (ahci_read_correct n (mkBlock (b_drive h') (b_off h) (b_size h)) d') as (r & h2 & d2 & E2 & _ & H).
  - by split.
  - lia.
  - cbn [b_off]. lia.
  - unfold on_disk. cbn [b_off b_size]. rewrite Hsz'. unfold sectors_for in *. unfold SECTOR_SIZE in *. clearbody lba L.
    Z.div_mod_to_equations. lia.
  - exists r, h2, d2. split; [done|]. destruct H as [[-> _]|[-> _]]; [by right|left]. cbn [b_size b_off]. f_equal.
    rewrite Z.min_l by lia. rewrite Heq, Hbytes, bytes_at_put; [|lia|unfold SECTOR_SIZE in *; clearbody lba; lia|lia].
    rewrite Hn. unfold L. rewrite Nat2Z.id. apply take_sector_buf.
Qed.
End handles.

(** ** A disk in memory *)

Definition mem_read (lba n : Z) (d : list Z) : option (list Z) * list Z := (Some (sectors_at lba n d), d).
Definition mem_write (lba : Z) (data d : list Z) : bool * list Z := (true, sectors_put lba data d).
#[export] Program Instance mem_disk : BlockDriver (list Z) := {
  bd_bytes d := d; bd_read := mem_read; bd_write := mem_write
}.
Next Obligation. done. Qed.
Next Obligation. intros lba n d b _ _ _ [= <-]. done. Qed.
Next Obligation. done. Qed.

Definition demo_disk : list Z := replicate 1024 7.
Definition demo_block (off : Z) : BlockHandle := mkBlock 0 off 1024.
Lemma demo_block_ok off : 0 ≤ off < 1024 → handle_ok (demo_block off).
Proof. intros H. split; [exact H|vm_compute; congruence]. Qed.

Lemma ahci_read_correct_witness : ∃ h', ahci_read 10 (demo_block 1020) demo_disk = Ret (Ok [7; 7; 7; 7], h', demo_disk) ∧ b_off h' = 1024.
Proof.
  destruct (ahci_read_correct 10 (demo_block 1020) demo_disk (demo_block_ok 1020 ltac:(lia))) as (r & h' & d' & E & Hd & H);
    [lia|vm_compute; congruence|vm_compute; congruence|].
  destruct H as [[-> _]|[-> ->]]; [exfalso; vm_compute in E; discriminate E|].
  cbn in Hd. subst d'. eexists. split; [exact E|reflexivity].
Defined.

Definition after_write (off : Z) (buf : list Z) : vres Z * BlockHandle * list Z := ahci_write buf (demo_block off) demo_disk.
Lemma block_write_misplaced_witness :
  bytes_at 0 3 (after_write 2 [1; 2; 3]).2 = [1; 2; 3] ∧ bytes_at 2 1 (after_write 2 [1; 2; 3]).2 = [3].
Proof.
  destruct (block_write_misplaced [1; 2; 3] (demo_block 2) demo_disk 3 (demo_block 5) (after_write 2 [1; 2; 3]).2 (demo_block_ok 2 ltac:(lia)))
    as (_ & _ & H1 & H2); [split; vm_compute; congruence|vm_compute; congruence|vm_compute; reflexivity|]. split; [exact H1|exact H2].
Defined.
Lemma block_roundtrip_witness :
  ∃ h'' d'', ahci_read 3 (block_seek 512 (demo_block 515)) (after_write 512 [1; 2; 3]).2 = Ret (Ok [1; 2; 3], h'', d'').
Proof.
  destruct (block_roundtrip [1; 2; 3] (demo_block 512) demo_disk 3 (demo_block 515) (after_write 512 [1; 2; 3]).2 (demo_block_ok 512 ltac:(lia)))
    as (r & h'' & d'' & E & H); [split; vm_compute; congruence|reflexivity|vm_compute; congruence|vm_compute; congruence|vm_compute; reflexivity|].
  destruct H as [-> | ->]; [exists h'', d''; exact E|exfalso; vm_compute in E; discriminate E].
Defined.
