(* ===== verification/Swarm.v ===== *)
(** The swarm: [kernel/src/swarm_consensus.rs], [swarm_gossip.rs] and
    [swarm_identity.rs]. What the nodes report about themselves (integration metric,
    valence, threat level, encounters, uptime) are arguments; a message's payload is
    the number it prints. Reports are dropped. *)
From Stdlib Require Import ZArith SpecFloat.
From stdpp Require Import base numbers list sets strings relations.
From S2P Require Import Prelude Bytes F32.

(** ** Broadcast and shared metrics *)

Module Consensus.
Definition QUORUM_SIZE : Z := 3.
Definition GOSSIP_HISTORY : nat := 64.
Definition SHARED_QUALIA_MAX : nat := 32.

Record SwarmPeer := mkPeer {
  uuid_prefix : Z; name : string; phi : f32; last_seen : Z; in_quorum : bool; qualia_count : Z
}.
Definition new_peer (uuid : Z) (name : string) : SwarmPeer := mkPeer uuid name f0 0 false 0.

Record BftMessage := mkMsg { seq : Z; sender : Z; tag : string; payload : f32; confirmations : Z; committed : bool }.
Record GossipEntry := mkEntry { peer_uuid : Z; metric : string; value : f32; e_tick : Z }.
Record SharedQualium := mkQualium {
  q_uuid : Z; q_name : string; qualia_type : string; valence : f32; q_arousal : f32; q_tick : Z
}.

Record SwarmState := mkSwarm {
  self_uuid : Z; self_name : string; peers : list SwarmPeer; bft_log : list BftMessage; bft_seq : Z;
  gossip_table : list GossipEntry; shared_qualia : list (option SharedQualium); shared_qualia_idx : nat;
  shared_qualia_count : nat; total_messages : Z; tick_count : Z; collective_phi : f32; swarm_coherence : f32
}.

(** The first eight bytes of the identity, or "NodeAI". *)
Definition swarm_uuid (uuid : option (list Z)) : Z :=
  match uuid with Some u => from_be (take 8 u) | None => 0x4E6F64654149 end.
Definition swarm_init (uuid : option (list Z)) (kernel_name : string) : SwarmState :=
  let self_uuid := swarm_uuid uuid in
  mkSwarm self_uuid kernel_name [new_peer self_uuid kernel_name] [] 0 [] (replicate SHARED_QUALIA_MAX None) 0 0 0 0 f0 f0.

Definition set_table (t : list GossipEntry) (s : SwarmState) : SwarmState :=
  mkSwarm (self_uuid s) (self_name s) (peers s) (bft_log s) (bft_seq s) t (shared_qualia s) (shared_qualia_idx s)
    (shared_qualia_count s) (total_messages s) (tick_count s) (collective_phi s) (swarm_coherence s).
Definition set_log (l : list BftMessage) (q n : Z) (s : SwarmState) : SwarmState :=
  mkSwarm (self_uuid s) (self_name s) (peers s) l q (gossip_table s) (shared_qualia s) (shared_qualia_idx s)
    (shared_qualia_count s) n (tick_count s) (collective_phi s) (swarm_coherence s).
Definition set_scores (p c : f32) (s : SwarmState) : SwarmState :=
  mkSwarm (self_uuid s) (self_name s) (peers s) (bft_log s) (bft_seq s) (gossip_table s) (shared_qualia s) (shared_qualia_idx s)
    (shared_qualia_count s) (total_messages s) (tick_count s) p c.
Definition set_ticks (t : Z) (s : SwarmState) : SwarmState :=
  mkSwarm (self_uuid s) (self_name s) (peers s) (bft_log s) (bft_seq s) (gossip_table s) (shared_qualia s) (shared_qualia_idx s)
    (shared_qualia_count s) (total_messages s) t (collective_phi s) (swarm_coherence s).

(** Replace the first entry of the peer and metric, or add one while there is room. *)
Definition entry_is (peer : Z) (m : string) (e : GossipEntry) : bool :=
  bool_decide (peer_uuid e = peer) && bool_decide (metric e = m).
Fixpoint update_entry (peer : Z) (m : string) (v : f32) (t : Z) (l : list GossipEntry) : option (list GossipEntry) :=
  match l with
  | [] => None
  | e :: l' =>
      if entry_is peer m e then Some (mkEntry (peer_uuid e) (metric e) v t :: l')
      else (e ::.) <$> update_entry peer m v t l'
  end.
Definition gossip_metric (peer : Z) (m : string) (v : f32) (t : Z) (s : SwarmState) : SwarmState :=
  match update_entry peer m v t (gossip_table s) with
  | Some l => set_table l s
  | None =>
      if decide (length (gossip_table s) < GOSSIP_HISTORY)%nat
      then set_table (gossip_table s ++ [mkEntry peer m v t]) s else s
  end.

Definition quorum_count (s : SwarmState) : Z :=
  foldl (λ q p, if decide (uuid_prefix p ≠ self_uuid s) then (q + 1) mod 256 else q) 1 (peers s).
Definition confirm_quorum (s : SwarmState) : SwarmState :=
  let q := quorum_count s in
  set_log ((λ m, if negb (committed m) && bool_decide (QUORUM_SIZE ≤ q)
                 then mkMsg (seq m) (sender m) (tag m) (payload m) q true else m) <$> bft_log s)
    (bft_seq s) (total_messages s) s.

Definition bft_broadcast (tag : string) (payload : f32) (s : SwarmState) : SwarmState :=
  let q := sat_add64 (bft_seq s) 1 in
  let log := bft_log s ++ [mkMsg q (self_uuid s) tag payload 1 false] in
  let s := set_log (drop (length log - GOSSIP_HISTORY) log) q (sat_add64 (total_messages s) 1) s in
  confirm_quorum s.

Definition local_phi (current : f32) (s : SwarmState) : f32 :=
  match list_find (entry_is (self_uuid s) "phi") (gossip_table s) with Some (_, e) => value e | None => current end.

(** One second in ten: publish the local metrics and average the table. *)
Definition gossip_round (phi avg_v threat : f32) (s : SwarmState) : SwarmState :=
  let s := gossip_metric (self_uuid s) "phi" phi (tick_count s) s in
  let s := gossip_metric (self_uuid s) "valence" avg_v (tick_count s) s in
  let s := gossip_metric (self_uuid s) "threat" threat (tick_count s) s in
  let phis := filter (λ e, metric e = "phi") (gossip_table s) in
  let total := foldl (λ t e, fadd t (value e)) f0 phis in
  let count := Z.of_nat (length phis) in
  let collective := if decide (0 < count) then fdiv total (f32_of count) else collective_phi s in
  let peer_count := Z.max (Z.of_nat (length (peers s))) 1 in
  set_scores collective (fmin (fdiv (f32_of count) (f32_of peer_count)) f1) s.

Definition swarm_tick (phi avg_v threat : f32) (s : SwarmState) : SwarmState :=
  let s := set_ticks (sat_add64 (tick_count s) 1) s in
  let s := if decide (tick_count s mod 10 = 0) then gossip_round phi avg_v threat s else s in
  if decide (tick_count s mod 50 = 0) then bft_broadcast "heartbeat" (local_phi phi s) s else s.

Definition record_shared_qualium (peer_name qualia_type : string) (valence arousal : f32) (s : SwarmState) : SwarmState :=
  let u := if decide (peer_name = self_name s) then self_uuid s else 0 in
  let sq := mkQualium u peer_name qualia_type valence arousal (tick_count s) in
  mkSwarm (self_uuid s) (self_name s) (peers s) (bft_log s) (bft_seq s) (gossip_table s)
    (<[shared_qualia_idx s := Some sq]> (shared_qualia s)) ((shared_qualia_idx s + 1) mod SHARED_QUALIA_MAX)%nat
    ((shared_qualia_count s + 1) `min` SHARED_QUALIA_MAX)%nat (total_messages s) (tick_count s) (collective_phi s) (swarm_coherence s).

Definition has_swarm (s : SwarmState) : bool := bool_decide (1 < length (peers s))%nat.
Definition peer_count (s : SwarmState) : nat := length (peers s).
End Consensus.

(** ** Epidemic exchange *)

Module Gossip.
Definition MAX_PEERS : nat := 16.

Record Peer := mkPeer { id : Z; phi : f32; threat : f32; emitters : Z; uptime : Z; last_seen : Z }.
Record GossipState := mkGossip {
  our_id : Z; peers : list Peer; our_phi : f32; our_threat : f32; our_emitters : Z; convergence : f32; mesh_phi : f32; rounds : Z
}.
Definition gossip_init (uptime_ms : Z) : GossipState := mkGossip (Z.lxor uptime_ms 0xDEADBEEF) [] f0 f0 0 f0 f0 0.

Fixpoint update_peer (q : Peer) (l : list Peer) : option (list Peer) :=
  match l with
  | [] => None
  | p :: l' => if decide (id p = id q) then Some (q :: l') else (p ::.) <$> update_peer q l'
  end.
Definition merge_peer (q : Peer) (l : list Peer) : list Peer :=
  match update_peer q l with
  | Some l' => l'
  | None => if decide (length l < MAX_PEERS)%nat then l ++ [q] else l
  end.

Definition simulated_peer (rounds uptime_ms : Z) (phi threat : f32) (emitters : Z) : Peer :=
  let peer_id := mul64 rounds 7 mod 8 in
  mkPeer peer_id (fadd (fmul phi (f32_lit 9 10)) (fmul (f32_of peer_id) (f32_lit 1 100))) (fmul threat (f32_lit 8 10))
    (sat_sub emitters peer_id) (uptime_ms / 1000) (uptime_ms / 100).

Definition mesh_score (phi : f32) (s : GossipState) : GossipState :=
  match peers s with
  | [] => mkGossip (our_id s) [] (our_phi s) (our_threat s) (our_emitters s) f1 (mesh_phi s) (rounds s)
  | ps =>
      let n := f32_of (Z.of_nat (length ps)) in
      let phi_sum := foldl (λ t p, fadd t (Gossip.phi p)) f0 ps in
      let avg_phi := fdiv phi_sum n in
      let variance := foldl (λ t p, let diff := fsub (Gossip.phi p) avg_phi in fadd t (fmul diff diff)) f0 ps in
      let variance := fdiv variance n in
      mkGossip (our_id s) ps (our_phi s) (our_threat s) (our_emitters s)
        (fmax (fsub f1 (fmin (fmul variance (f32_of 10)) (f32_lit 99 100))) (f32_lit 1 100))
        (fdiv (fadd phi phi_sum) (fadd n f1)) (rounds s)
  end.

Definition gossip_tick (uptime_ms : Z) (phi threat : f32) (emitters : Z) (s : GossipState) : GossipState :=
  let now := uptime_ms / 100 in
  let ps := if decide (rounds s mod 10 = 0)
            then merge_peer (simulated_peer (rounds s) uptime_ms phi threat emitters) (peers s) else peers s in
  let ps := filter (λ p, sat_sub now (last_seen p) < 100) ps in
  let s := mesh_score phi (mkGossip (our_id s) ps phi threat emitters (convergence s) (mesh_phi s) (rounds s)) in
  mkGossip (our_id s) (peers s) (our_phi s) (our_threat s) (our_emitters s) (convergence s) (mesh_phi s) (add64 (rounds s) 1).
End Gossip.

(** ** Roles *)

Module Roles.
Definition MAX_NODES : nat := 16.

Inductive NodeRole := Leader | Follower | Observer.
Record NodeEntry := mkNode { id : Z; role : NodeRole; trust : f32; uptime : Z; alive : bool }.
Record IdentityState := mkIdentity { our_id : Z; our_role : NodeRole; nodes : list NodeEntry; total_nodes_seen : Z; term : Z }.

Definition roles_init (uptime_ms : Z) : IdentityState := mkIdentity (Z.lxor uptime_ms 0xCAFEBABE) Follower [] 1 1.

(** [while state.nodes.len() < expected_nodes]. *)
Fixpoint discover (n : nat) (our now : Z) (l : list NodeEntry) (seen : Z) : list NodeEntry * Z :=
  match n with
  | O => (l, seen)
  | S n' =>
      discover n' our now (l ++ [mkNode (add64 our (Z.of_nat (length l) + 1)) Follower (f32_lit 8 10) now true]) (sat_add64 seen 1)
  end.

Definition check_alive (now : Z) (n : NodeEntry) : NodeEntry :=
  if decide (30 < sat_sub now (uptime n)) then mkNode (id n) (role n) (trust n) (uptime n) false else n.

(** The lowest live identifier below [our], if any. *)
Definition elect (our : Z) (l : list NodeEntry) : Z * bool :=
  foldl (λ lf n, if alive n && bool_decide (id n < lf.1) then (id n, true) else lf) (our, false) l.

Definition roles_tick (uptime_ms : Z) (s : IdentityState) : IdentityState :=
  let now := uptime_ms / 1000 in
  let expected_nodes := Z.to_nat (Z.min (now / 30) (Z.of_nat MAX_NODES - 1)) in
  let '(l, seen) := discover (expected_nodes - length (nodes s))%nat (our_id s) now (nodes s) (total_nodes_seen s) in
  let l := check_alive now <$> l in
  let '(leader_id, leader_found) := elect (our_id s) l in
  let r := if leader_found then (if decide (leader_id = our_id s) then Leader else Follower) else Leader in
  mkIdentity (our_id s) r l seen (add64 (term s) 1).

Definition node_count (s : IdentityState) : nat := (length (nodes s) + 1)%nat.
Definition alive_count (s : IdentityState) : nat := (length (filter (λ n, alive n = true) (nodes s)) + 1)%nat.
End Roles.

(** * What a run of the swarm modules reaches. *)

(** ** Consensus *)

Section consensus.
Import Consensus.

Inductive swarm_step : SwarmState → SwarmState → Prop :=
  | step_tick phi v t s : swarm_step s (swarm_tick phi v t s)
  | step_qualium n q v a s : swarm_step s (record_shared_qualium n q v a s).

Definition keys (l : list GossipEntry) : list (Z * string) := (λ e, (peer_uuid e, metric e)) <$> l.

Record swarm_ok (s : SwarmState) : Prop := {
  sw_alone : peers s = [new_peer (self_uuid s) (self_name s)];
  sw_short : (length (bft_log s) ≤ GOSSIP_HISTORY)%nat;
  sw_seq : bft_seq s < u64_modulus - 1 →
    ∀ i m, bft_log s !! i = Some m → seq m = bft_seq s - (Z.of_nat (length (bft_log s)) - 1 - Z.of_nat i);
  sw_pending m : m ∈ bft_log s → committed m = false ∧ confirmations m = 1 ∧ sender m = self_uuid s;
  sw_keys : NoDup (keys (gossip_table s)) ∧ ∀ k, k ∈ keys (gossip_table s) → k ∈ (λ m, (self_uuid s, m)) <$> ["phi"; "valence"; "threat"]
}.

Lemma update_entry_keys peer m v t l l' : update_entry peer m v t l = Some l' → keys l' = keys l.
Proof.
  revert l'. induction l as [|e l IH]; intros l'; [done|]. cbn [update_entry]. case_match; [by intros [= <-]|].
  destruct (update_entry peer m v t l) as [l2|]; [|done]. intros [= <-]. cbn. f_equal. by apply IH.
Qed.
Lemma update_entry_none peer m v t l : update_entry peer m v t l = None → (peer, m) ∉ keys l.
Proof.
  induction l as [|e l IH]; cbn [update_entry keys fmap list_fmap]; [intros _; apply not_elem_of_nil|].
  destruct (entry_is peer m e) eqn:E; [done|]. destruct (update_entry peer m v t l); [done|]. intros _.
  apply not_elem_of_cons. split; [|by apply IH]. intros [= -> ->]. unfold entry_is in E. by rewrite !bool_decide_eq_true_2 in E.
Qed.

(** The fields a gossip round keeps. *)
Definition same_log (s s' : SwarmState) : Prop :=
  self_uuid s' = self_uuid s ∧ self_name s' = self_name s ∧ peers s' = peers s ∧ bft_log s' = bft_log s ∧ bft_seq s' = bft_seq s.
Lemma swarm_ok_table s s' :
  swarm_ok s → same_log s s' →
  (NoDup (keys (gossip_table s')) ∧ ∀ k, k ∈ keys (gossip_table s') → k ∈ (λ m, (self_uuid s, m)) <$> ["phi"; "valence"; "threat"]) →
  swarm_ok s'.
Proof.
  intros [H1 H2 H3 H4 H5] (Hu & Hn & Hp & Hl & Hq) Hk. split; rewrite ?Hu, ?Hn, ?Hp, ?Hl, ?Hq; done.
Qed.

Lemma gossip_metric_ok m v t s :
  swarm_ok s → m ∈ ["phi"; "valence"; "threat"] →
  swarm_ok (gossip_metric (self_uuid s) m v t s) ∧ same_log s (gossip_metric (self_uuid s) m v t s).
Proof.
  intros Hok Hm. destruct (sw_keys _ Hok) as [Hnd Hin]. unfold gossip_metric.
  destruct (update_entry (self_uuid s) m v t (gossip_table s)) as [l|] eqn:E; [|case_decide]; (split; [|done]).
  - apply (swarm_ok_table s); [done|done|]. cbn [set_table gossip_table]. by rewrite (update_entry_keys _ _ _ _ _ _ E).
  - apply (swarm_ok_table s); [done|done|]. cbn [set_table gossip_table]. unfold keys in *. rewrite fmap_app. cbn [fmap list_fmap peer_uuid metric]. split.
    + apply NoDup_app. split; [done|]. split; [|apply NoDup_singleton]. intros k Hk ->%list_elem_of_singleton.
      by apply (update_entry_none _ _ _ _ _ E).
    + intros k [Hk|Hk]%elem_of_app; [by apply Hin|]. apply list_elem_of_singleton in Hk as ->.
      change (_ ∈ _) with ((self_uuid s, m) ∈ (λ m, (self_uuid s, m)) <$> ["phi"; "valence"; "threat"]). by apply (list_elem_of_fmap_2 (λ m, (self_uuid s, m))).
  - done.
Qed.

Lemma gossip_round_ok phi v t s : swarm_ok s → swarm_ok (gossip_round phi v t s).
Proof.
  intros Hok. unfold gossip_round.
  destruct (gossip_metric_ok "phi" phi (tick_count s) s Hok ltac:(set_solver)) as [H1 _].
  set (s1 := gossip_metric _ _ _ _ s) in *.
  destruct (gossip_metric_ok "valence" v (tick_count s1) s1 H1 ltac:(set_solver)) as [H2 _].
  set (s2 := gossip_metric _ _ _ _ s1) in *.
  destruct (gossip_metric_ok "threat" t (tick_count s2) s2 H2 ltac:(set_solver)) as [H3 _].
  set (s3 := gossip_metric _ _ _ _ s2) in *. apply (swarm_ok_table s3); [done|done|apply H3].
Qed.

Lemma confirm_alone s : peers s = [new_peer (self_uuid s) (self_name s)] → confirm_quorum s = s.
Proof.
  intros Hp. unfold confirm_quorum, quorum_count. rewrite Hp. cbn. rewrite decide_False by tauto.
  rewrite bool_decide_eq_false_2 by (unfold QUORUM_SIZE; lia). destruct s. unfold set_log. cbn. f_equal.
  apply list_eq. intros i. rewrite list_lookup_fmap. destruct (bft_log0 !! i); [|done]. cbn. by rewrite andb_false_r.
Qed.

Lemma broadcast_ok tag p s : swarm_ok s → swarm_ok (bft_broadcast tag p s).
Proof.
  intros [H1 H2 H3 H4 H5]. unfold bft_broadcast. rewrite confirm_alone by done.
  set (log := bft_log s ++ _). set (k := (length log - GOSSIP_HISTORY)%nat).
  assert (Hl : length log = S (length (bft_log s))) by (unfold log; rewrite length_app; cbn; lia).
  split; cbn [set_log peers self_uuid self_name bft_log bft_seq gossip_table]; [done| | | |done].
  - rewrite length_drop. lia.
  - intros Hq i m Hi. unfold sat_add64 in *. rewrite Z.min_r in * by lia. rewrite lookup_drop in Hi. rewrite length_drop, Hl.
    pose proof (lookup_lt_Some _ _ _ Hi) as Hlt. rewrite Hl in Hlt. unfold log in Hi.
    apply lookup_app_Some in Hi as [Hi|[Hge Hi]].
    + rewrite (H3 ltac:(lia) _ _ Hi). lia.
    + apply list_lookup_singleton_Some in Hi as [Hz <-]. cbn [seq]. lia.
  - intros m Hm. apply list_elem_of_lookup_1 in Hm as [i Hi]. rewrite lookup_drop in Hi. unfold log in Hi.
    apply lookup_app_Some in Hi as [Hi|[_ Hi]]; [by eapply H4, list_elem_of_lookup_2|].
    by apply list_lookup_singleton_Some in Hi as [_ <-].
Qed.

Lemma swarm_step_ok s s' : swarm_step s s' → swarm_ok s → swarm_ok s'.
Proof.
  intros [phi v t s0|n q v a s0] Hok; [|by apply (swarm_ok_table s0); [done|done|apply Hok]].
  unfold swarm_tick. set (s1 := set_ticks _ s0). assert (H1 : swarm_ok s1) by (apply (swarm_ok_table s0); [done|done|apply Hok]).
  set (s2 := if decide (tick_count s1 mod 10 = 0) then _ else s1).
  assert (H2 : swarm_ok s2) by (unfold s2; case_decide; [by apply gossip_round_ok|done]).
  case_decide; [by apply broadcast_ok|done].
Qed.

Lemma init_ok u n : swarm_ok (swarm_init u n).
Proof. split; cbn; [done|unfold GOSSIP_HISTORY; lia|done|by intros m Hm%not_elem_of_nil|split; [constructor|by intros k Hk%not_elem_of_nil]]. Qed.

(** The broadcast log. Over any run of ticks and recorded qualia the log keeps the
    last 64 messages at most, numbered without gaps up to the sequence counter, and the
    gossip table has one entry for each of the node's three metrics at most. Nothing
    ever adds a peer, so no message is ever committed or confirmed by anyone else. *)
Theorem swarm_log_invariant u n s :
  rtc swarm_step (swarm_init u n) s →
  (length (bft_log s) ≤ 64)%nat ∧
  (bft_seq s < u64_modulus - 1 →
    ∀ i m, bft_log s !! i = Some m → seq m = bft_seq s - (Z.of_nat (length (bft_log s)) - 1 - Z.of_nat i)) ∧
  (length (gossip_table s) ≤ 3)%nat ∧ has_swarm s = false ∧
  ∀ m, m ∈ bft_log s → committed m = false ∧ confirmations m = 1.
Proof.
  intros Hrun. assert (Hok : swarm_ok s).
  { pose proof (init_ok u n) as H0. induction Hrun as [|x y z Hxy _ IH]; [done|]. apply IH. by eapply swarm_step_ok. }
  split; [apply Hok|]. split; [apply Hok|]. split; [|split; [unfold has_swarm; by rewrite (sw_alone _ Hok)|]].
  - destruct (sw_keys _ Hok) as [Hnd Hin]. pose proof (submseteq_length _ _ (NoDup_submseteq _ _ Hnd Hin)) as H.
    unfold keys in H. rewrite !length_fmap in H. exact H.
  - intros m Hm. destruct (sw_pending _ Hok m Hm) as (? & ? & _). done.
Qed.
End consensus.

(** ** Gossip *)

Section gossip.
Import Gossip.

Definition mesh_ok (s : GossipState) : Prop := NoDup (id <$> peers s) ∧ ∀ p, p ∈ peers s → 0 ≤ id p < 8.

Lemma update_peer_ids q l l' : update_peer q l = Some l' → id <$> l' = id <$> l.
Proof.
  revert l'. induction l as [|p l IH]; intros l'; [done|]. cbn [update_peer]. case_decide as E; [intros [= <-]; cbn; by rewrite E|].
  destruct (update_peer q l) as [l2|]; [|done]. intros [= <-]. cbn. f_equal. by apply IH.
Qed.
Lemma update_peer_none q l : update_peer q l = None → id q ∉ id <$> l.
Proof.
  induction l as [|p l IH]; cbn [update_peer fmap list_fmap]; [intros _; apply not_elem_of_nil|].
  case_decide as E; [done|]. destruct (update_peer q l); [done|]. intros _. apply not_elem_of_cons. split; [congruence|by apply IH].
Qed.

Lemma merge_ids q l :
  NoDup (id <$> l) → 0 ≤ id q < 8 → (∀ i, i ∈ id <$> l → 0 ≤ i < 8) →
  NoDup (id <$> merge_peer q l) ∧ ∀ i, i ∈ id <$> merge_peer q l → 0 ≤ i < 8.
Proof.
  intros Hnd Hq Hl. unfold merge_peer. destruct (update_peer q l) as [l'|] eqn:E.
  - by rewrite (update_peer_ids _ _ _ E).
  - case_decide; [|done]. rewrite fmap_app. split.
    + apply NoDup_app. split; [done|]. split; [|apply NoDup_singleton]. intros i Hi ->%list_elem_of_singleton.
      by apply (update_peer_none _ _ E).
    + intros i [Hi|Hi]%elem_of_app; [by apply Hl|]. by apply list_elem_of_singleton in Hi as ->.
Qed.

Lemma mesh_score_peers phi s : peers (mesh_score phi s) = peers s.
Proof. unfold mesh_score. by destruct (peers s). Qed.

(** Of the sixteen places of the mesh eight at most are used, one for each simulated
    peer. *)
Lemma gossip_tick_ok t phi th em s : mesh_ok s → mesh_ok (gossip_tick t phi th em s) ∧ (length (peers (gossip_tick t phi th em s)) ≤ 8)%nat.
Proof.
  intros [Hnd Hr]. unfold gossip_tick. cbv zeta. set (ps := if decide (rounds s mod 10 = 0) then _ else peers s).
  assert (Hps : NoDup (id <$> ps) ∧ ∀ i, i ∈ id <$> ps → 0 ≤ i < 8).
  { assert (Hl : ∀ i, i ∈ id <$> peers s → 0 ≤ i < 8) by (intros i (p & -> & Hp)%list_elem_of_fmap_1; by apply Hr).
    unfold ps. case_decide; [|done]. apply merge_ids; [done| |done]. apply Z.mod_pos_bound. done. }
  destruct Hps as [Hn Hi]. unfold mesh_ok. cbn [peers]. rewrite mesh_score_peers. cbn [peers].
  set (f := filter _ ps). assert (Hsub : f `sublist_of` ps) by apply sublist_filter.
  assert (Hsub' : (id <$> f) `sublist_of` (id <$> ps)) by (by apply fmap_sublist).
  assert (Hnf : NoDup (id <$> f)) by (by eapply sublist_NoDup).
  assert (Hif : ∀ i, i ∈ id <$> f → 0 ≤ i < 8) by (intros i Hin; apply Hi; by eapply elem_of_submseteq, sublist_submseteq).
  split; [split; [done|intros p Hp; apply Hif; by apply list_elem_of_fmap_2]|].
  assert (Hall : ∀ i, i ∈ id <$> f → i ∈ (Z.of_nat <$> seq 0 8)).
  { intros i Hin. apply Hif in Hin. apply list_elem_of_fmap. exists (Z.to_nat i). split; [lia|]. apply elem_of_seq. lia. }
  pose proof (submseteq_length _ _ (NoDup_submseteq _ _ Hnf Hall)) as H. by rewrite !length_fmap in H.
Qed.
End gossip.

(** ** Roles *)

Section roles.
Import Roles.

Definition roles_ok (s : IdentityState) : Prop := ∀ n, n ∈ nodes s → our_id s < id n.

Lemma elect_self our l : (∀ n, n ∈ l → our < id n) → elect our l = (our, false).
Proof.
  unfold elect. induction l as [|n l IH]; intros H; [done|]. cbn [foldl fst].
  rewrite (bool_decide_eq_false_2 (id n < our)) by (pose proof (H n ltac:(left)); lia). rewrite andb_false_r.
  apply IH. intros m Hm. apply H. by right.
Qed.
Lemma discover_ids n our now : ∀ l seen,
  our + 16 < u64_modulus → 0 ≤ our → (length l + n ≤ 15)%nat → (∀ x, x ∈ l → our < id x) →
  ∀ x, x ∈ (discover n our now l seen).1 → our < id x.
Proof.
  induction n as [|n IH]; intros l seen Hu H0 Hlen Hl x Hx; [by apply Hl|]. cbn [discover] in Hx. apply IH in Hx; [done|done|done| |].
  - rewrite length_app. cbn. lia.
  - intros y [Hy|Hy]%elem_of_app; [by apply Hl|]. apply list_elem_of_singleton in Hy as ->. cbn [id].
    rewrite add64_small by lia. lia.
Qed.

(** Every node makes itself the leader: the nodes it invents all have higher numbers. *)
Lemma always_leader t s :
  0 ≤ our_id s → our_id s + 16 < u64_modulus → (length (nodes s) ≤ 15)%nat → roles_ok s →
  our_role (roles_tick t s) = Leader ∧ roles_ok (roles_tick t s).
Proof.
  intros H0 Hu Hlen Hok. unfold roles_tick. cbv zeta.
  set (n := (_ - length (nodes s))%nat).
  destruct (discover n (our_id s) (t / 1000) (nodes s) (total_nodes_seen s)) as [l seen] eqn:E.
  assert (Hl : ∀ x, x ∈ check_alive (t / 1000) <$> l → our_id s < id x).
  { intros x (y & -> & Hy)%list_elem_of_fmap_1. replace (id (check_alive (t / 1000) y)) with (id y) by (unfold check_alive; by case_decide).
    apply (discover_ids n (our_id s) (t / 1000) (nodes s) (total_nodes_seen s)); [lia|lia|unfold n, MAX_NODES; lia|done|by rewrite E]. }
  rewrite elect_self by done. split; [done|]. intros x Hx. by apply Hl.
Qed.
End roles.

(** ** A concrete run *)

Definition after_ticks (n : nat) : Consensus.SwarmState := Nat.iter n (Consensus.swarm_tick f0 f0 f0) (Consensus.swarm_init None "NodeAI").
Lemma ticks_run n : rtc swarm_step (Consensus.swarm_init None "NodeAI") (after_ticks n).
Proof. induction n as [|n IH]; [apply rtc_refl|]. eapply rtc_r; [exact IH|]. apply step_tick. Qed.
Lemma swarm_log_invariant_witness :
  length (Consensus.bft_log (after_ticks 100)) = 2%nat ∧ ∀ m, m ∈ Consensus.bft_log (after_ticks 100) → Consensus.committed m = false.
Proof.
  split; [vm_compute; reflexivity|]. destruct (swarm_log_invariant None "NodeAI" (after_ticks 100) (ticks_run 100)) as (_ & _ & _ & _ & H).
  intros m Hm. apply H, Hm.
Defined.
