(* ===== verification/Storage.v ===== *)
(** Two stored formats: packages, [kernel/src/pkg.rs], and the state kept across
    boots, [kernel/src/persistence.rs] with [kernel/src/lm_memory.rs]. A [String] is
    the list of its characters in the first and of its bytes in the second. *)
From Stdlib Require Import ZArith SpecFloat.
From stdpp Require Import base numbers list gmap strings.
From S2P Require Import Prelude Bytes Pmm FrameAlloc PageCache HotMap RunQueue Task Scheduler Users Ramfs Vfs VfsProps SemGate SysState F32 Modules Identity.

(** ** Text *)

Definition utf8_bytes (cs : list Z) : list Z := mjoin (utf8_encode <$> cs).

(** [str::lines]. *)
Definition strip_cr (l : list Z) : list Z :=
  match rev l with c :: r => if decide (c = 13) then rev r else l | [] => [] end.
Fixpoint lines_from (cur l : list Z) : list (list Z) :=
  match l with
  | [] => if decide (cur = []) then [] else [cur]
  | c :: l' => if decide (c = 10) then strip_cr cur :: lines_from [] l' else lines_from (cur ++ [c]) l'
  end.
Definition text_lines (l : list Z) : list (list Z) := lines_from [] l.

(** [str::trim]. *)
Fixpoint trim_start (l : list Z) : list Z :=
  match l with c :: l' => if is_whitespace c then trim_start l' else l | [] => [] end.
Definition trim (l : list Z) : list Z := rev (trim_start (rev (trim_start l))).

(** [str::splitn(n + 1, sep)]. *)
Fixpoint splitn (n : nat) (sep : Z) (cur l : list Z) : list (list Z) :=
  match l with
  | [] => [cur]
  | c :: l' =>
      match n with
      | O => [cur ++ l]
      | S n' => if decide (c = sep) then cur :: splitn n' sep [] l' else splitn n sep (cur ++ [c]) l'
      end
  end.

(** [String]'s order. *)
Fixpoint lex_leb (a b : list Z) : bool :=
  match a, b with
  | [], _ => true
  | _ :: _, [] => false
  | x :: a', y :: b' => bool_decide (x < y) || (bool_decide (x = y) && lex_leb a' b')
  end.
Definition lex_le : relation (list Z) := λ a b, lex_leb a b = true.
#[export] Instance lex_le_dec : RelDecision lex_le.
Proof. intros a b. unfold lex_le. apply _. Defined.

Definition text (s : string) : list Z := bytes_of s.

(** ** Packages *)

Module Packages.
Record Package := mkPackage { p_name : list Z; p_version : list Z; p_description : list Z; p_installed : bool }.
Record PkgState := mkPkgs { installed : gmap (list Z) Package; p_index : list Package }.

Definition DB_PATH : string := "/etc/npkg/db".
Definition SOURCES_LIST : string := "/etc/npkg/sources.list".
Definition CACHE_DIR : string := "/var/cache/npkg".

(** One line of the database. *)
Definition parse_line (m : gmap (list Z) Package) (line : list Z) : gmap (list Z) Package :=
  let line := trim line in
  if decide (line = [] ∨ head line = Some 35) then m else
  let fields := splitn 2 9 [] line in
  let name := default [] (fields !! 0%nat) in
  let ver := default (text "0.0.0") (fields !! 1%nat) in
  let desc := default [] (fields !! 2%nat) in
  <[name := mkPackage name ver desc true]> m.
Definition parse_db (data : list Z) (st : PkgState) : PkgState :=
  match utf8_decode data with
  | None => st
  | Some cs => mkPkgs (foldl parse_line ∅ (text_lines cs)) (p_index st)
  end.

Definition db_line (p : Package) : list Z := p_name p ++ [9] ++ p_version p ++ [9] ++ p_description p ++ [10].
Definition db_text (m : gmap (list Z) Package) : list Z := mjoin (db_line <$> (btree_list lex_le m).*2).

Section ops.
Context {A : Type} {FA : FrameAllocator A}.
Variable c : Creds.

Record Pkg := mkPkg { PKG_STATE : PkgState; INITIALIZED : bool; pkg_vfs : VfsState A }.

Definition save_db (st : PkgState) (s : VfsState A) : res (VfsState A) :=
  let! (_, s) := write_file c DB_PATH (utf8_bytes (db_text (installed st))) s in Ret s.

Definition pkg_init (p : Pkg) : res Pkg :=
  let! (_, s) := write_file c "/etc/npkg/.keep" [] (pkg_vfs p) in
  let! (_, s) := write_file c "/var/cache/npkg/.keep" [] s in
  let! (r, s) := read_file c DB_PATH s in
  Ret (mkPkg (match r with Ok data => parse_db data (PKG_STATE p) | Err _ => PKG_STATE p end) true s).

(** The loop over the entries of an archive: how many files were written. Every
    round that goes on takes six bytes or more. *)
Fixpoint extract_loop (fuel : nat) (count : Z) (data : list Z) (offset : nat) (files : Z) (s : VfsState A)
    : res (Z * VfsState A) :=
  if decide (count ≤ 0) then Ret (files, s) else
  match fuel with
  | O => OutOfFuel
  | S fuel' =>
      if decide (length data < offset + 2)%nat then Ret (files, s) else
      let! h := slice offset (offset + 2) data in
      let path_len := Z.to_nat (from_le h) in
      let offset := (offset + 2)%nat in
      if decide (length data < offset + path_len)%nat then Ret (files, s) else
      let! path_bytes := slice offset (offset + path_len) data in
      let offset := (offset + path_len)%nat in
      if decide (length data < offset + 4)%nat then Ret (files, s) else
      let! h := slice offset (offset + 4) data in
      let data_len := Z.to_nat (from_le h) in
      let offset := (offset + 4)%nat in
      if decide (length data < offset + data_len)%nat then Ret (files, s) else
      let! file_data := slice offset (offset + data_len) data in
      let offset := (offset + data_len)%nat in
      if decide (utf8_decode path_bytes = None ∨ path_bytes = []) then extract_loop fuel' (count - 1) data offset files s
      else
        let! (_, s) := write_file c (str_of path_bytes) file_data s in
        extract_loop fuel' (count - 1) data offset (files + 1) s
  end.

Definition extract_and_install (name data : list Z) (p : Pkg) : res (bool * Pkg) :=
  if decide (length data < 8)%nat then Ret (false, p) else
  let! magic := slice 0 4 data in
  if decide (magic ≠ text "NPKG") then Ret (false, p) else
  let! h := slice 4 8 data in
  let! (files, s) := extract_loop (S (length data)) (from_le h) data 8 0 (pkg_vfs p) in
  if decide (0 < files) then
    let pkg := mkPackage name (text "1.0.0") (text "Installed package") true in
    let st := mkPkgs (<[name := pkg]> (installed (PKG_STATE p))) (p_index (PKG_STATE p)) in
    let! s := save_db st s in
    Ret (true, mkPkg st (INITIALIZED p) s)
  else Ret (false, mkPkg (PKG_STATE p) (INITIALIZED p) s).

Definition install (name : list Z) (p : Pkg) : res (bool * Pkg) :=
  if decide (is_Some (installed (PKG_STATE p) !! name)) then Ret (true, p) else
  let cache_path := str_of (text CACHE_DIR ++ text "/" ++ utf8_bytes name ++ text ".npkg") in
  let! (r, s) := read_file c cache_path (pkg_vfs p) in
  let p := mkPkg (PKG_STATE p) (INITIALIZED p) s in
  match r with
  | Err _ => Ret (false, p)
  | Ok data => extract_and_install name data p
  end.

Definition pkg_remove (name : list Z) (p : Pkg) : res (bool * Pkg) :=
  match installed (PKG_STATE p) !! name with
  | None => Ret (false, p)
  | Some _ =>
      let st := mkPkgs (delete name (installed (PKG_STATE p))) (p_index (PKG_STATE p)) in
      let! s := save_db st (pkg_vfs p) in
      Ret (true, mkPkg st (INITIALIZED p) s)
  end.

Definition pkg_update (p : Pkg) : res (bool * Pkg) :=
  let! (_, s) := read_file c SOURCES_LIST (pkg_vfs p) in Ret (true, mkPkg (PKG_STATE p) (INITIALIZED p) s).

Definition list_installed (p : Pkg) : list Package := (btree_list lex_le (installed (PKG_STATE p))).*2.
Definition is_installed (name : list Z) (p : Pkg) : bool := bool_decide (is_Some (installed (PKG_STATE p) !! name)).
End ops.
Arguments Pkg : clear implicits.
End Packages.

(** ** State across boots *)

(** [String::from_utf8_lossy]: each maximal part of a character that is not completed
    becomes one replacement character. *)
Definition REPLACEMENT : list Z := [0xEF; 0xBF; 0xBD].
Definition second_ok (a b : Z) : bool :=
  bool_decide ((if decide (a = 0xE0) then 0xA0 else if decide (a = 0xF0) then 0x90 else 0x80) ≤ b ≤
               (if decide (a = 0xED) then 0x9F else if decide (a = 0xF4) then 0x8F else 0xBF)).
Fixpoint utf8_lossy (l : list Z) : list Z :=
  match l with
  | [] => []
  | a :: l1 =>
      if bool_decide (a < 0x80) then a :: utf8_lossy l1
      else if negb (bool_decide (0xC2 ≤ a ≤ 0xF4)) then REPLACEMENT ++ utf8_lossy l1
      else match l1 with
      | [] => REPLACEMENT
      | b :: l2 =>
          if negb (second_ok a b) then REPLACEMENT ++ utf8_lossy l1
          else if bool_decide (a ≤ 0xDF) then a :: b :: utf8_lossy l2
          else match l2 with
          | [] => REPLACEMENT
          | c :: l3 =>
              if negb (cont c) then REPLACEMENT ++ utf8_lossy l2
              else if bool_decide (a ≤ 0xEF) then a :: b :: c :: utf8_lossy l3
              else match l3 with
              | [] => REPLACEMENT
              | d :: l4 => if cont d then a :: b :: c :: d :: utf8_lossy l4 else REPLACEMENT ++ utf8_lossy l3
              end
          end
      end
  end.

Module Persist.
(** *** The conversation memory *)

Definition MEMORY_SIZE : nat := 32.
Record Exchange := mkExchange { query : list Z; response : list Z }.
Record ConvRing := mkConv { history : list Exchange; summary : list Z; total_exchanges : Z }.
Definition conv_new : ConvRing := mkConv [] [] 0.

(** [chars().take(n).collect()]; a [String] is valid UTF-8. *)
Definition preview (n : nat) (s : list Z) : list Z := utf8_bytes (take n (default [] (utf8_decode s))).
(** [&s[start..]]. *)
Definition str_from (start : nat) (s : list Z) : res (list Z) :=
  if decide (length s < start)%nat then Panic
  else match s !! start with
  | Some b => if cont b then Panic else Ret (drop start s)
  | None => Ret []
  end.
Definition summarize (old : Exchange) (sum : list Z) : res (list Z) :=
  let sum := (if decide (sum = []) then [] else sum ++ text "; ") ++ text "user asked " ++ [34] ++ preview 20 (query old) ++ [34] ++
             text " -> " ++ [34] ++ preview 30 (response old) ++ [34] in
  if decide (200 < length sum)%nat then
    let! tail := str_from (length sum - 180) sum in Ret (text "..." ++ tail)
  else Ret sum.
Definition conv_push (q r : list Z) (m : ConvRing) : res ConvRing :=
  let! (h, sum) :=
    if decide (MEMORY_SIZE ≤ length (history m))%nat then
      match history m with
      | old :: h => let! sum := summarize old (summary m) in Ret (h, sum)
      | [] => Ret ([], summary m)
      end
    else Ret (history m, summary m) in
  Ret (mkConv (h ++ [mkExchange q r]) sum (add64 (total_exchanges m) 1)).
Definition restore (ex : list Exchange) (sum : list Z) (m : ConvRing) : ConvRing := mkConv ex sum (total_exchanges m).

(** *** Its section of the state file *)

Definition exchange_bytes (e : Exchange) : list Z :=
  if decide (65535 < Z.of_nat (length (query e)) ∨ 65535 < Z.of_nat (length (response e))) then [] else
  to_le 2 (Z.of_nat (length (query e))) ++ to_le 2 (Z.of_nat (length (response e))) ++ query e ++ response e.
Definition save_lm_memory (m : ConvRing) : option (list Z) :=
  match history m with
  | [] => None
  | h => Some (to_le 4 (Z.of_nat (length h)) ++ to_le 4 (Z.of_nat (length (summary m))) ++ summary m ++ mjoin (exchange_bytes <$> h))
  end.

Definition word_at (n pos : nat) (data : list Z) : res Z := let! b := slice pos (pos + n) data in Ret (from_le b).
(** [for _ in 0..count]; a round that goes on takes four bytes or more. *)
Fixpoint load_exchanges (fuel : nat) (count : Z) (data : list Z) (pos : nat) : res (list Exchange) :=
  if decide (count ≤ 0) then Ret [] else
  match fuel with
  | O => OutOfFuel
  | S fuel' =>
      if decide (length data < pos + 4)%nat then Ret [] else
      let! ql := word_at 2 pos data in
      let! rl := word_at 2 (pos + 2) data in
      let qlen := Z.to_nat ql in
      let rlen := Z.to_nat rl in
      let pos := (pos + 4)%nat in
      if decide (length data < pos + qlen + rlen)%nat then Ret [] else
      let! q := slice pos (pos + qlen) data in
      let! r := slice (pos + qlen) (pos + qlen + rlen) data in
      let! rest := load_exchanges fuel' (count - 1) data (pos + qlen + rlen) in
      Ret (mkExchange (utf8_lossy q) (utf8_lossy r) :: rest)
  end.
Definition load_lm_memory (data : list Z) (m : option ConvRing) : res (option ConvRing) :=
  if decide (length data < 8)%nat then Ret m else
  let! count := word_at 4 0 data in
  let! sl := word_at 4 4 data in
  let slen := Z.to_nat sl in
  let! (sum, pos) :=
    if decide (0 < slen ∧ 8 + slen ≤ length data)%nat then
      let! b := slice 8 (8 + slen) data in Ret (utf8_lossy b, (8 + slen)%nat)
    else Ret ([], 8%nat) in
  let! ex := load_exchanges (S (length data)) count data pos in
  Ret (restore ex sum <$> m).

(** *** The state file *)

Definition STATE_PATH : string := "/ai/state".
Definition MAGIC : list Z := text "NLS0".
Definition TAG_LM_MEMORY : Z := 2.
Definition TAG_NANO_NN : Z := 3.
Definition TAG_EMOTIONAL_ARC : Z := 4.
Definition TAG_LM_LEARNER : Z := 5.
Definition TAG_QUALIA_COUNT : Z := 6.
Definition TAG_PHI_STATE : Z := 8.

(** [f32::clamp(0.0, 1.0)], [phi::store_phi] and [phi::set_phi]. *)
Definition clamp01 (x : f32) : f32 := let x := if flt x f0 then f0 else x in if flt f1 x then f1 else x.
Definition store_phi (x : f32) : f32 :=
  if is_nan x || (match x with S754_zero true => true | _ => false end) then f0 else clamp01 x.
Definition set_phi (x : f32) : f32 := store_phi (clamp01 x).

Section state.
(** The learned parts: what they export, and what importing does to them. *)
Context {W : Type} (export_weights export_arc export_learner : W → option (list Z))
        (load_weights import_arc import_learner : list Z → W → W).

Record Live := mkLive {
  conv : option ConvRing; qualia_total : Z; phi : f32; peak : f32; idle_ticks : Z; models : W; STATE_LOADED : bool; DIRTY : bool
}.
Definition set_conv (m : option ConvRing) (l : Live) : Live :=
  mkLive m (qualia_total l) (phi l) (peak l) (idle_ticks l) (models l) (STATE_LOADED l) (DIRTY l).
Definition set_models (w : W) (l : Live) : Live :=
  mkLive (conv l) (qualia_total l) (phi l) (peak l) (idle_ticks l) w (STATE_LOADED l) (DIRTY l).
Definition set_total (n : Z) (l : Live) : Live :=
  mkLive (conv l) n (phi l) (peak l) (idle_ticks l) (models l) (STATE_LOADED l) (DIRTY l).
Definition set_phis (x y : f32) (l : Live) : Live :=
  mkLive (conv l) (qualia_total l) x y 0 (models l) (STATE_LOADED l) (DIRTY l).
Definition set_flags (loaded dirty : bool) (l : Live) : Live :=
  mkLive (conv l) (qualia_total l) (phi l) (peak l) (idle_ticks l) (models l) loaded dirty.

Definition sections (l : Live) : list (Z * list Z) :=
  let sec (tag : Z) (o : option (list Z)) := match o with Some d => [(tag, d)] | None => [] end in
  sec TAG_LM_MEMORY (conv l ≫= save_lm_memory) ++ sec TAG_NANO_NN (export_weights (models l)) ++
  sec TAG_EMOTIONAL_ARC (export_arc (models l)) ++ sec TAG_LM_LEARNER (export_learner (models l)) ++
  sec TAG_QUALIA_COUNT (Some (to_le 8 (qualia_total l))) ++
  sec TAG_PHI_STATE (Some (to_le 4 (f32_bits (phi l)) ++ to_le 4 (f32_bits (peak l)))).
Definition section_bytes (s : Z * list Z) : list Z := to_le 4 s.1 ++ to_le 4 (Z.of_nat (length s.2)) ++ s.2.
Definition state_bytes (ss : list (Z * list Z)) : list Z :=
  MAGIC ++ to_le 4 (Z.of_nat (length ss)) ++ mjoin (section_bytes <$> ss).

Definition load_section (tag : Z) (d : list Z) (l : Live) : res Live :=
  if decide (tag = TAG_LM_MEMORY) then let! m := load_lm_memory d (conv l) in Ret (set_conv m l)
  else if decide (tag = TAG_NANO_NN) then Ret (set_models (load_weights d (models l)) l)
  else if decide (tag = TAG_EMOTIONAL_ARC) then Ret (set_models (import_arc d (models l)) l)
  else if decide (tag = TAG_LM_LEARNER) then Ret (set_models (import_learner d (models l)) l)
  else if decide (tag = TAG_QUALIA_COUNT) then
    (if decide (length d < 8)%nat then Ret l else let! n := word_at 8 0 d in Ret (set_total n l))
  else if decide (tag = TAG_PHI_STATE) then
    (if decide (length d < 8)%nat then Ret l else
     let! x := word_at 4 0 d in
     let! y := word_at 4 4 d in
     Ret (set_phis (set_phi (f32_of_bits x)) (f32_of_bits y) l))
  else Ret l.
(** A round that goes on takes eight bytes or more. *)
Fixpoint load_sections (fuel : nat) (count : Z) (data : list Z) (pos : nat) (l : Live) : res Live :=
  if decide (count ≤ 0) then Ret l else
  match fuel with
  | O => OutOfFuel
  | S fuel' =>
      if decide (length data < pos + 8)%nat then Ret l else
      let! tag := word_at 4 pos data in
      let! ln := word_at 4 (pos + 4) data in
      let len := Z.to_nat ln in
      let pos := (pos + 8)%nat in
      if decide (length data < pos + len)%nat then Ret l else
      let! d := slice pos (pos + len) data in
      let! l := load_section tag d l in
      load_sections fuel' (count - 1) data (pos + len) l
  end.

(** What [init] makes of the file. A file with a bad header leaves the subsystem
    switched off. *)
Definition load_state (data : list Z) (l : Live) : res Live :=
  if decide (length data < 8)%nat then Ret l else
  let! magic := slice 0 4 data in
  if decide (magic ≠ MAGIC) then Ret l else
  let! n := word_at 4 4 data in
  let! l := load_sections (S (length data)) n data 8 l in
  Ret (set_flags true (DIRTY l) l).

Context {A : Type} {FA : FrameAllocator A}.
Definition persist_init (c : Creds) (l : Live) (s : VfsState A) : res (Live * VfsState A) :=
  let! (r, s) := read_file c STATE_PATH s in
  match r with
  | Err _ => Ret (set_flags true (DIRTY l) l, s)
  | Ok data => let! l := load_state data l in Ret (l, s)
  end.
Definition persist_mark_dirty (l : Live) : Live := set_flags (STATE_LOADED l) true l.
(** [sections] is never empty, so the file is always written; [self] is the record
    [self_model::save] writes. *)
Definition persist_save (c : Creds) (now : Z) (self : option SelfModel) (l : Live) (s : VfsState A)
    : res (option SelfModel * Live * VfsState A) :=
  if negb (STATE_LOADED l) then Ret (self, l, s) else
  if decide (sections l = []) then let! (self, s) := save c now self s in Ret (self, l, s) else
  let! (_, s) := write_file c STATE_PATH (state_bytes (sections l)) s in
  let! (self, s) := save c now self s in
  Ret (self, set_flags (STATE_LOADED l) false l, s).
Definition persist_tick (c : Creds) (now : Z) (self : option SelfModel) (l : Live) (s : VfsState A)
    : res (option SelfModel * Live * VfsState A) :=
  if DIRTY l then persist_save c now self l s else Ret (self, l, s).
End state.
Arguments Live : clear implicits.
End Persist.

(** * Theorems *)

(** ** Reading from the middle of a buffer *)

(** The part [y] of [l1 ++ y ++ l2], where the buffer is [pre] and what is left of that
    after [k] bytes. *)
Lemma slice_part (pre l1 y l2 : list Z) (k i j : nat) :
  i = (length pre + length l1)%nat → j = (i + length y)%nat → (length l1 + length y ≤ k)%nat →
  slice i j (pre ++ take k (l1 ++ y ++ l2)) = Ret y.
Proof.
  intros -> -> Hk. rewrite slice_app_r by lia. rewrite slice_ok;
    [|lia|rewrite length_take, !length_app; lia].
  f_equal. rewrite take_app_ge by lia. rewrite drop_app_ge by lia.
  rewrite take_app_ge by lia. rewrite drop_app_le by lia.
  replace (length pre + length l1 - length pre - length l1)%nat with 0%nat by lia. rewrite drop_0.
  rewrite take_app_le by lia. apply take_ge. lia.
Qed.
Lemma slice_mid (pre l1 y l2 : list Z) (i j : nat) :
  i = (length pre + length l1)%nat → j = (i + length y)%nat → slice i j (pre ++ l1 ++ y ++ l2) = Ret y.
Proof.
  intros Hi Hj. rewrite <- (take_ge (l1 ++ y ++ l2) (length (l1 ++ y ++ l2))) by done.
  apply slice_part; [done|done|]. rewrite !length_app. lia.
Qed.
Lemma word_mid (pre l1 l2 : list Z) (n i : nat) (x : Z) :
  i = (length pre + length l1)%nat → 0 ≤ x < 256 ^ Z.of_nat n →
  Persist.word_at n i (pre ++ l1 ++ to_le n x ++ l2) = Ret x.
Proof.
  intros Hi Hx. unfold Persist.word_at. rewrite slice_mid; [|done|by rewrite length_to_le].
  cbn [res_bind]. by rewrite from_to_le.
Qed.
Lemma length_part (pre x : list Z) (k : nat) : length (pre ++ take k x) = (length pre + k `min` length x)%nat.
Proof. by rewrite length_app, length_take. Qed.

Lemma join_cons {B} (f : B → list Z) x l : mjoin (f <$> (x :: l)) = f x ++ mjoin (f <$> l).
Proof. done. Qed.

(** ** Archives *)

(** The format [pkg.rs] documents: an entry, an archive of entries, and the entries
    that lie wholly within the first [k] bytes. *)
Definition entry_bytes (e : list Z * list Z) : list Z :=
  to_le 2 (Z.of_nat (length e.1)) ++ e.1 ++ to_le 4 (Z.of_nat (length e.2)) ++ e.2.
Definition archive (es : list (list Z * list Z)) : list Z :=
  text "NPKG" ++ to_le 4 (Z.of_nat (length es)) ++ mjoin (entry_bytes <$> es).
Fixpoint whole (k : nat) (es : list (list Z * list Z)) : list (list Z * list Z) :=
  match es with
  | e :: es' => if decide (length (entry_bytes e) ≤ k)%nat then e :: whole (k - length (entry_bytes e)) es' else []
  | [] => []
  end.
Definition entry_ok (e : list Z * list Z) : Prop :=
  Z.of_nat (length e.1) < 65536 ∧ Z.of_nat (length e.2) < 4294967296.

Section archives.
Context {A : Type} {FA : FrameAllocator A}.
Variable c : Creds.

(** The files of the entries, one after the other. *)
Fixpoint write_entries (es : list (list Z * list Z)) (files : Z) (s : VfsState A) : res (Z * VfsState A) :=
  match es with
  | [] => Ret (files, s)
  | e :: es' =>
      if decide (utf8_decode e.1 = None ∨ e.1 = []) then write_entries es' files s
      else let! (_, s) := write_file c (str_of e.1) e.2 s in write_entries es' (files + 1) s
  end.

Lemma length_entry e : length (entry_bytes e) = (2 + length e.1 + 4 + length e.2)%nat.
Proof. unfold entry_bytes. rewrite !length_app, !length_to_le. lia. Qed.

Lemma extract_loop_spec es pre k fuel files s :
  Forall entry_ok es → (k `min` length (mjoin (entry_bytes <$> es)) < fuel)%nat →
  Packages.extract_loop c fuel (Z.of_nat (length es)) (pre ++ take k (mjoin (entry_bytes <$> es))) (length pre) files s =
  write_entries (whole k es) files s.
Proof.
  intros Hok. revert pre k fuel files s. induction Hok as [|[p d] es [Hp Hd] Hok IH]; intros pre k fuel files s Hf.
  { by destruct fuel. }
  rewrite join_cons, length_app in Hf.
  destruct fuel as [|fuel]; [lia|]. cbn [Packages.extract_loop]. rewrite decide_False by (cbn; lia).
  rewrite join_cons. cbn [whole]. set (rest := mjoin (entry_bytes <$> es)). fold rest in Hf. cbn [fst snd] in *.
  pose proof (length_entry (p, d)) as Hl. cbn [fst snd] in Hl.
  assert (Hx : entry_bytes (p, d) ++ rest =
    [] ++ to_le 2 (Z.of_nat (length p)) ++ p ++ to_le 4 (Z.of_nat (length d)) ++ d ++ rest).
  { unfold entry_bytes. by rewrite <- !app_assoc. }
  assert (HL : length (entry_bytes (p, d) ++ rest) = (length (entry_bytes (p, d)) + length rest)%nat) by apply length_app.
  rewrite !length_part, HL.
  case_decide; [rewrite decide_False by lia; done|].
  rewrite Hx at 1. rewrite (slice_part pre [] _ _ k); [|cbn; lia|rewrite length_to_le; lia|rewrite length_to_le; cbn; lia].
  cbn [res_bind]. rewrite from_to_le by lia. rewrite Nat2Z.id.
  case_decide; [rewrite decide_False by lia; done|].
  rewrite Hx at 1. rewrite app_nil_l.
  rewrite (slice_part pre (to_le 2 (Z.of_nat (length p))) p _ k); [|rewrite length_to_le; lia|lia|rewrite length_to_le; lia].
  cbn [res_bind]. case_decide; [rewrite decide_False by lia; done|].
  rewrite Hx at 1. rewrite app_nil_l, (app_assoc (to_le 2 _) p).
  rewrite (slice_part pre _ (to_le 4 (Z.of_nat (length d))) _ k);
    [|rewrite length_app, length_to_le; lia|rewrite length_to_le; lia|rewrite length_app, !length_to_le; lia].
  cbn [res_bind]. rewrite from_to_le by lia. rewrite Nat2Z.id.
  case_decide; [rewrite decide_False by lia; done|].
  rewrite Hx at 1. rewrite app_nil_l, (app_assoc (to_le 2 _) p), (app_assoc (_ ++ p)).
  rewrite (slice_part pre _ d _ k); [|rewrite !length_app, !length_to_le; lia|lia|rewrite !length_app, !length_to_le; lia].
  cbn [res_bind]. rewrite (decide_True (P := (length (entry_bytes (p, d)) ≤ k)%nat)) by lia.
  cbn [write_entries fst snd].
  assert (Hcut : pre ++ take k (entry_bytes (p, d) ++ rest) =
    (pre ++ entry_bytes (p, d)) ++ take (k - length (entry_bytes (p, d))) rest).
  { rewrite take_app_ge by lia. by rewrite app_assoc. }
  rewrite Hcut. replace (Z.of_nat (length ((p, d) :: es)) - 1) with (Z.of_nat (length es)) by (cbn [length]; lia).
  replace (length pre + 2 + length p + 4 + length d)%nat with (length (pre ++ entry_bytes (p, d)))
    by (rewrite length_app, Hl; lia).
  assert (Hf' : ((k - length (entry_bytes (p, d))) `min` length rest < fuel)%nat) by lia.
  case_decide; [by apply IH|].
  destruct (write_file c (str_of p) d s) as [[r s']| |]; cbn [res_bind]; [by apply IH|done..].
Qed.

Lemma whole_all es k : (length (mjoin (entry_bytes <$> es)) ≤ k)%nat → whole k es = es.
Proof.
  revert k. induction es as [|e es IH]; intros k; [done|]. rewrite join_cons, length_app.
  intros H. cbn [whole].
  assert (H' : (length (mjoin (entry_bytes <$> es)) ≤ k - length (entry_bytes e))%nat) by lia.
  rewrite decide_True by lia. f_equal. by apply IH.
Qed.

(** What installing the entries means: write their files and, if there was one, add
    the package to the database. *)
Definition install_entries (name : list Z) (es : list (list Z * list Z)) (p : Packages.Pkg A) : res (bool * Packages.Pkg A) :=
  let! (files, s) := write_entries es 0 (Packages.pkg_vfs p) in
  let st := Packages.PKG_STATE p in
  if decide (0 < files) then
    let pkg := Packages.mkPackage name (text "1.0.0") (text "Installed package") true in
    let st := Packages.mkPkgs (<[name := pkg]> (Packages.installed st)) (Packages.p_index st) in
    let! s := Packages.save_db c st s in Ret (true, Packages.mkPkg st (Packages.INITIALIZED p) s)
  else Ret (false, Packages.mkPkg st (Packages.INITIALIZED p) s).

(** Installing an archive. Of an archive cut off after any number of bytes the
    entries that are still whole are installed, in order, and nothing is read beyond
    them; of the whole archive all are. A cut archive is not noticed: one whole
    entry is enough for the package to count as installed. *)
Theorem archive_installed name es k p :
  Forall entry_ok es → Z.of_nat (length es) < 4294967296 →
  Packages.extract_and_install c name (take k (archive es)) p =
    (if decide (k < 8)%nat then Ret (false, p) else install_entries name (whole (k - 8) es) p) ∧
  ((length (archive es) ≤ k)%nat → whole (k - 8) es = es).
Proof.
  intros Hok Hn. assert (Hlen : length (archive es) = (8 + length (mjoin (entry_bytes <$> es)))%nat).
  { unfold archive. rewrite !length_app, length_to_le. done. }
  split; [|intros H; apply whole_all; lia].
  unfold Packages.extract_and_install. rewrite length_take.
  destruct (decide (k < 8)%nat) as [Hk|Hk]; [rewrite decide_True by lia; done|]. rewrite decide_False by lia.
  unfold archive in *. set (rest := mjoin (entry_bytes <$> es)) in *.
  set (h := to_le 4 (Z.of_nat (length es))) in *.
  assert (S1 : slice 0 4 (take k (text "NPKG" ++ h ++ rest)) = Ret (text "NPKG")).
  { apply (slice_part [] [] (text "NPKG") (h ++ rest) k 0 4 eq_refl eq_refl). cbn. lia. }
  assert (S2 : slice 4 8 (take k (text "NPKG" ++ h ++ rest)) = Ret h).
  { apply (slice_part [] (text "NPKG") h rest k 4 8 eq_refl); unfold h; rewrite length_to_le; cbn; lia. }
  rewrite S1. cbn [res_bind]. rewrite decide_False by (intros H; by apply H).
  rewrite S2. cbn [res_bind]. assert (Hc : from_le h = Z.of_nat (length es)) by (apply from_to_le; lia). rewrite Hc.
  assert (Hcut : take k (text "NPKG" ++ h ++ rest) = (text "NPKG" ++ h) ++ take (k - 8) rest).
  { rewrite (app_assoc (text "NPKG")). rewrite take_app_ge by (unfold h; rewrite length_app, length_to_le; cbn; lia).
    unfold h. rewrite length_app, length_to_le. done. }
  rewrite Hcut.
  assert (H8 : length (text "NPKG" ++ h) = 8%nat) by (unfold h; by rewrite length_app, length_to_le).
  pose proof (extract_loop_spec es (text "NPKG" ++ h) (k - 8) (S (k `min` length (text "NPKG" ++ h ++ rest))) 0
                (Packages.pkg_vfs p) Hok) as Hx.
  rewrite H8 in Hx. fold rest in Hx. rewrite Hx by lia. done.
Qed.
End archives.

(** ** The package database *)

(** A Unicode scalar value. *)
Definition scalar (x : Z) : Prop := 0 ≤ x < 0xD800 ∨ 0xE000 ≤ x < 0x110000.

Lemma land_low (k a x : Z) : 0 ≤ k → 0 ≤ x < 2 ^ k → Z.land (a * 2 ^ k + x) (Z.ones k) = x.
Proof. intros Hk Hx. rewrite Z.land_ones, Z.add_comm, Z.mod_add, Z.mod_small by lia. done. Qed.
Lemma cont_of x : 0 ≤ x < 64 → cont (0x80 + x) = true ∧ cont_val (0x80 + x) = x.
Proof.
  intros H. unfold cont, cont_val. split; [apply bool_decide_eq_true; lia|]. apply (land_low 6 2 x); lia.
Qed.

Lemma decode_encode x l : scalar x → utf8_decode (utf8_encode x ++ l) = (x ::.) <$> utf8_decode l.
Proof.
  intros Hx. unfold utf8_encode, scalar in *.
  destruct (decide (x < 0x80)) as [H|H].
  { cbn [utf8_decode app]. by rewrite bool_decide_true. }
  pose proof (cont_of (x mod 64) ltac:(apply Z.mod_pos_bound; lia)) as [C0 V0].
  pose proof (Z.div_mod x 64 ltac:(lia)) as D0. pose proof (Z.mod_pos_bound x 64 ltac:(lia)) as B0.
  set (x0 := x mod 64) in *. set (y := x / 64) in *.
  destruct (decide (x < 0x800)) as [H1|H1].
  { cbn [utf8_decode app]. rewrite bool_decide_false, bool_decide_true, C0, V0 by lia.
    change (Z.land (0xC0 + y) 0x1F) with (Z.land (6 * 2 ^ 5 + y) (Z.ones 5)). rewrite land_low by lia. f_equal. f_equal. lia. }
  pose proof (cont_of (y mod 64) ltac:(apply Z.mod_pos_bound; lia)) as [C1 V1].
  assert (E1 : x / 4096 = y / 64) by (unfold y; rewrite Z.div_div by lia; done). rewrite E1 in *.
  pose proof (Z.div_mod y 64 ltac:(lia)) as D1. pose proof (Z.mod_pos_bound y 64 ltac:(lia)) as B1.
  set (x1 := y mod 64) in *. set (z := y / 64) in *.
  destruct (decide (x < 0x10000)) as [H2|H2].
  { cbn [utf8_decode app]. rewrite bool_decide_false, bool_decide_false, bool_decide_true by lia.
    rewrite bool_decide_true by (repeat case_decide; lia). rewrite C0, V0, V1. cbn [andb].
    change (Z.land (0xE0 + z) 0x0F) with (Z.land (14 * 2 ^ 4 + z) (Z.ones 4)). rewrite land_low by lia. f_equal. f_equal. lia. }
  pose proof (cont_of (z mod 64) ltac:(apply Z.mod_pos_bound; lia)) as [C2 V2].
  assert (E2 : x / 262144 = z / 64) by (unfold z, y; rewrite !Z.div_div by lia; done). rewrite E2 in *.
  pose proof (Z.div_mod z 64 ltac:(lia)) as D2. pose proof (Z.mod_pos_bound z 64 ltac:(lia)) as B2.
  set (x2 := z mod 64) in *. set (w := z / 64) in *.
  cbn [utf8_decode app]. rewrite bool_decide_false, bool_decide_false, bool_decide_false, bool_decide_true by lia.
  rewrite bool_decide_true by (repeat case_decide; lia). rewrite C0, C1, V0, V1, V2. cbn [andb].
  change (Z.land (0xF0 + w) 0x07) with (Z.land (30 * 2 ^ 3 + w) (Z.ones 3)). rewrite land_low by lia. f_equal. f_equal. lia.
Qed.
Lemma decode_bytes cs : Forall scalar cs → utf8_decode (utf8_bytes cs) = Some cs.
Proof.
  unfold utf8_bytes. induction 1 as [|x cs Hx Hcs IH]; [done|]. rewrite join_cons, decode_encode, IH by done. done.
Qed.

Lemma lines_line cur l rest : 10 ∉ l → lines_from cur (l ++ 10 :: rest) = strip_cr (cur ++ l) :: text_lines rest.
Proof.
  revert cur. induction l as [|x l IH]; intros cur Hl; cbn [lines_from app].
  - by rewrite app_nil_r.
  - apply not_elem_of_cons in Hl as [Hx Hl]. rewrite decide_False by congruence. rewrite IH by done. by rewrite <- app_assoc.
Qed.
Lemma splitn_field n sep cur l rest :
  sep ∉ l → splitn (S n) sep cur (l ++ sep :: rest) = (cur ++ l) :: splitn n sep [] rest.
Proof.
  revert cur. induction l as [|x l IH]; intros cur Hl; cbn [splitn app].
  - by rewrite decide_True, app_nil_r.
  - apply not_elem_of_cons in Hl as [Hx Hl]. rewrite decide_False by congruence. rewrite IH by done. by rewrite <- app_assoc.
Qed.
Lemma splitn_last sep l : splitn 0 sep [] l = [l].
Proof. by destruct l. Qed.

Lemma trim_start_id x l : is_whitespace x = false → trim_start (x :: l) = x :: l.
Proof. intros H. cbn. by rewrite H. Qed.
Lemma trim_id x l y l' : x :: l = l' ++ [y] → is_whitespace x = false → is_whitespace y = false → trim (x :: l) = x :: l.
Proof.
  intros E Hx Hy. unfold trim. rewrite trim_start_id by done. rewrite E, rev_app_distr. cbn [rev app].
  rewrite trim_start_id by done. cbn [rev]. by rewrite rev_involutive.
Qed.
Lemma strip_cr_id l y : y ≠ 13 → strip_cr (l ++ [y]) = l ++ [y].
Proof. intros H. unfold strip_cr. rewrite rev_app_distr. cbn [rev app]. by rewrite decide_False. Qed.

(** A package the database can hold: its name starts with neither white space nor the
    comment sign, its description ends without white space, and there are no tabs and
    newlines where the format has its own. *)
Record plain (p : Packages.Package) : Prop := {
  pl_name : ∃ x l, Packages.p_name p = x :: l ∧ is_whitespace x = false ∧ x ≠ 35;
  pl_desc : ∃ l y, Packages.p_description p = l ++ [y] ∧ is_whitespace y = false;
  pl_tabs : 9 ∉ Packages.p_name p ∧ 9 ∉ Packages.p_version p;
  pl_lines : 10 ∉ Packages.p_name p ∧ 10 ∉ Packages.p_version p ∧ 10 ∉ Packages.p_description p;
  pl_text : Forall scalar (Packages.p_name p) ∧ Forall scalar (Packages.p_version p) ∧ Forall scalar (Packages.p_description p);
  pl_installed : Packages.p_installed p = true
}.
Definition line_of (p : Packages.Package) : list Z :=
  Packages.p_name p ++ 9 :: Packages.p_version p ++ 9 :: Packages.p_description p.

Lemma parse_plain m p : plain p → Packages.parse_line m (line_of p) = <[Packages.p_name p := p]> m.
Proof.
  intros [(x & l & En & Hx & H35) (l' & y & Ed & Hy) [Ht Hv] _ _ Hi]. unfold Packages.parse_line.
  assert (Hline : line_of p = x :: l ++ 9 :: Packages.p_version p ++ 9 :: Packages.p_description p)
    by (unfold line_of; by rewrite En).
  assert (Htrim : trim (line_of p) = line_of p).
  { rewrite Hline. eapply (trim_id _ _ y (x :: l ++ 9 :: Packages.p_version p ++ 9 :: l')); [|done|done].
    rewrite Ed. cbn [app]. f_equal. rewrite <- app_assoc. cbn [app]. by rewrite <- app_assoc. }
  rewrite Htrim. rewrite decide_False by (rewrite Hline; intros [?|[= ?]]; [done|congruence]).
  unfold line_of. rewrite splitn_field by done. rewrite splitn_field by done. rewrite splitn_last.
  cbn [app lookup list_lookup default]. rewrite <- Hi. f_equal. by destruct p.
Qed.

Lemma parse_lines ps m :
  Forall plain ps →
  foldl Packages.parse_line m (text_lines (mjoin (Packages.db_line <$> ps))) =
  foldl (λ m p, <[Packages.p_name p := p]> m) m ps.
Proof.
  intros H. revert m. induction H as [|p ps Hp Hps IH]; intros m; [done|]. rewrite join_cons.
  assert (E : Packages.db_line p = line_of p ++ [10]) by (unfold Packages.db_line, line_of; by rewrite <- !app_assoc, <- !app_comm_cons, <- !app_assoc).
  rewrite E, <- app_assoc. cbn [app]. unfold text_lines at 1.
  destruct (pl_lines p Hp) as (H1 & H2 & H3). destruct (pl_desc p Hp) as (l' & y & Ed & Hy).
  rewrite lines_line. 2: { unfold line_of. rewrite !not_elem_of_app, !not_elem_of_cons, !not_elem_of_app, !not_elem_of_cons. naive_solver. }
  cbn [app foldl]. assert (Hs : strip_cr (line_of p) = line_of p).
  { unfold line_of. rewrite Ed. rewrite (app_comm_cons _ [y] 9), (app_assoc (Packages.p_version p)), app_comm_cons, app_assoc.
    apply strip_cr_id. intros ->. by vm_compute in Hy. }
  rewrite Hs, parse_plain by done. apply IH.
Qed.

Lemma foldl_insert_lookup {V} (name : V → list Z) (ps : list V) (m : gmap (list Z) V) (k : list Z) :
  NoDup (name <$> ps) →
  foldl (λ m p, <[name p := p]> m) m ps !! k =
  match list_find (λ p, name p = k) ps with Some (_, p) => Some p | None => m !! k end.
Proof.
  revert m. induction ps as [|p ps IH]; intros m; [done|]. rewrite fmap_cons, NoDup_cons. intros [Hn Hd].
  cbn [foldl list_find]. rewrite IH by done. destruct (decide (name p = k)) as [E|E].
  - subst k. destruct (list_find _ ps) as [[i q]|] eqn:F; [|by rewrite lookup_insert_eq].
    apply list_find_Some in F as (Hi & Hq & _). exfalso. apply Hn. apply list_elem_of_fmap. exists q.
    split; [done|]. by eapply list_elem_of_lookup_2.
  - destruct (list_find _ ps) as [[i q]|]; [done|]. by rewrite lookup_insert_ne.
Qed.

(** Every package is filed under its name and can be written down. *)
Definition db_ok (m : gmap (list Z) Packages.Package) : Prop := map_Forall (λ k p, Packages.p_name p = k ∧ plain p) m.

Lemma db_values m : db_ok m → Packages.p_name <$> (btree_list lex_le m).*2 = (btree_list lex_le m).*1.
Proof.
  intros H. rewrite <- list_fmap_compose. apply list_fmap_ext. intros i [k p] Hi. cbn.
  apply list_elem_of_lookup_2, elem_of_btree_list in Hi. by destruct (H k p Hi).
Qed.

Lemma db_find m k : db_ok m →
  match list_find (λ p, Packages.p_name p = k) (btree_list lex_le m).*2 with Some (_, p) => Some p | None => None end = m !! k.
Proof.
  intros H. destruct (list_find _ _) as [[i p]|] eqn:F.
  - apply list_find_Some in F as (Hi & Hk & _). apply list_elem_of_lookup_2, list_elem_of_fmap in Hi as ([k' p'] & -> & Hin).
    apply elem_of_btree_list in Hin. destruct (H k' p' Hin) as [E _]. cbn in *. by subst.
  - apply list_find_None in F. destruct (m !! k) as [p|] eqn:E; [|done]. exfalso. rewrite Forall_forall in F.
    apply (F p); [|by destruct (H k p E)]. apply list_elem_of_fmap. exists (k, p). split; [done|]. by apply elem_of_btree_list.
Qed.

(** The package database survives a restart: what [save_db] writes, [parse_db] reads
    back as the same packages, when their names start with neither white space nor the
    comment sign and nothing contains the separators. *)
Theorem package_db_roundtrip m st :
  db_ok m → Packages.parse_db (utf8_bytes (Packages.db_text m)) st = Packages.mkPkgs m (Packages.p_index st).
Proof.
  intros H. assert (Hp : Forall plain (btree_list lex_le m).*2).
  { rewrite Forall_forall. intros p Hp. apply list_elem_of_fmap in Hp as ([k q] & -> & Hin).
    apply elem_of_btree_list in Hin. by destruct (H k q Hin). }
  unfold Packages.parse_db. rewrite decode_bytes.
  2: { unfold Packages.db_text. clear H. induction Hp as [|p ps Hp Hps IH]; [constructor|].
       rewrite join_cons. apply Forall_app; split; [|done]. destruct (pl_text p Hp) as (H1 & H2 & H3).
       unfold Packages.db_line. rewrite !Forall_app, !Forall_singleton. unfold scalar. repeat split; (done || lia). }
  f_equal. unfold Packages.db_text. rewrite parse_lines by done. apply map_eq. intros k.
  rewrite foldl_insert_lookup by (rewrite db_values by done; apply NoDup_btree_keys).
  rewrite <- (db_find m k H). destruct (list_find _ _) as [[i p]|]; [done|]. apply lookup_empty.
Qed.

(** ** The conversation memory *)

Lemma second_two a b : 0xC2 ≤ a ≤ 0xDF → second_ok a b = cont b.
Proof. intros H. unfold second_ok, cont. by rewrite !decide_False by lia. Qed.
Lemma second_three a b : 0xE0 ≤ a ≤ 0xEF →
  second_ok a b = bool_decide ((if decide (a = 0xE0) then 0xA0 else 0x80) ≤ b ≤ (if decide (a = 0xED) then 0x9F else 0xBF)).
Proof.
  intros H. unfold second_ok. rewrite (decide_False (P := a = 0xF0)), (decide_False (P := a = 0xF4)) by lia. done.
Qed.
Lemma second_four a b : 0xF0 ≤ a ≤ 0xF4 →
  second_ok a b = bool_decide ((if decide (a = 0xF0) then 0x90 else 0x80) ≤ b ≤ (if decide (a = 0xF4) then 0x8F else 0xBF)).
Proof.
  intros H. unfold second_ok. rewrite (decide_False (P := a = 0xE0)), (decide_False (P := a = 0xED)) by lia. done.
Qed.

Lemma lossy_valid l : utf8_decode l ≠ None → utf8_lossy l = l.
Proof.
  remember (length l) as n eqn:Hn. revert l Hn. induction (lt_wf n) as [n _ IH]. intros l -> H.
  assert (K : ∀ (f : list Z → list Z) l', (length l' < length l)%nat → f <$> utf8_decode l' ≠ None → utf8_lossy l' = l').
  { intros f l' Hl Hf. eapply IH; [exact Hl|done|]. intros E. by rewrite E in Hf. }
  clear IH. destruct l as [|a l1]; [done|]. cbn [utf8_decode utf8_lossy] in *.
  destruct (decide (a < 0x80)) as [Ha|Ha].
  { rewrite bool_decide_eq_true_2 in H |- * by done. f_equal. eapply K; [|exact H]. cbn; lia. }
  rewrite bool_decide_eq_false_2 in H |- * by done. destruct l1 as [|b l2]; [done|].
  destruct (decide (0xC2 ≤ a ≤ 0xDF)) as [H2|H2].
  { rewrite bool_decide_eq_true_2 in H by done. rewrite second_two by done.
    rewrite !bool_decide_eq_true_2 by lia. destruct (cont b); [|done]. cbn [negb].
    do 2 f_equal. eapply K; [|exact H]. cbn; lia. }
  rewrite bool_decide_eq_false_2 in H by done. destruct l2 as [|x l3]; [done|].
  destruct (decide (0xE0 ≤ a ≤ 0xEF)) as [H3|H3].
  { rewrite bool_decide_eq_true_2 in H by done. rewrite second_three by done.
    rewrite (bool_decide_eq_true_2 (0xC2 ≤ a ≤ 0xF4)), (bool_decide_eq_false_2 (a ≤ 0xDF)), (bool_decide_eq_true_2 (a ≤ 0xEF)) by lia.
    destruct (bool_decide (_ ≤ b ≤ _)); [|done]. destruct (cont x); [|done]. cbn [negb andb] in *.
    do 3 f_equal. eapply K; [|exact H]. cbn; lia. }
  rewrite bool_decide_eq_false_2 in H by done. destruct l3 as [|d l4]; [done|].
  destruct (decide (0xF0 ≤ a ≤ 0xF4)) as [H4|H4]; [|rewrite (bool_decide_eq_false_2 (0xF0 ≤ a ≤ 0xF4)) in H by done; done].
  rewrite (bool_decide_eq_true_2 (0xF0 ≤ a ≤ 0xF4)) in H by done. rewrite second_four by done.
  rewrite (bool_decide_eq_true_2 (0xC2 ≤ a ≤ 0xF4)), (bool_decide_eq_false_2 (a ≤ 0xDF)), (bool_decide_eq_false_2 (a ≤ 0xEF)) by lia.
  destruct (bool_decide (_ ≤ b ≤ _)); [|done]. destruct (cont x); [|done]. destruct (cont d); [|done]. cbn [negb andb] in *.
  do 4 f_equal. eapply K; [|exact H]. cbn; lia.
Qed.

Section memory.
Import Persist.

(** An exchange whose parts fit the 16-bit lengths of the format. *)
Definition short (e : Exchange) : Prop := Z.of_nat (length (query e)) ≤ 65535 ∧ Z.of_nat (length (response e)) ≤ 65535.
#[export] Instance short_dec e : Decision (short e).
Proof. unfold short. apply _. Defined.
Definition valid_text (l : list Z) : Prop := utf8_decode l ≠ None.
Definition exchange_ok (e : Exchange) : Prop := valid_text (query e) ∧ valid_text (response e).

Lemma exchange_short e : short e → exchange_bytes e =
  to_le 2 (Z.of_nat (length (query e))) ++ to_le 2 (Z.of_nat (length (response e))) ++ query e ++ response e.
Proof. intros [H1 H2]. unfold exchange_bytes. rewrite decide_False by lia. done. Qed.
Lemma exchanges_short es : mjoin (exchange_bytes <$> es) = mjoin (exchange_bytes <$> filter short es).
Proof.
  induction es as [|e es IH]; [done|]. rewrite filter_cons, join_cons. case_decide as H.
  - by rewrite join_cons, IH.
  - rewrite IH. unfold exchange_bytes at 1. rewrite decide_True; [done|]. unfold short in H. lia.
Qed.

Lemma load_exchanges_spec es pre count fuel :
  Forall short es → Forall exchange_ok es → Z.of_nat (length es) ≤ count → (length (mjoin (exchange_bytes <$> es)) < fuel)%nat →
  load_exchanges fuel count (pre ++ mjoin (exchange_bytes <$> es)) (length pre) = Ret es.
Proof.
  intros Hs. revert pre count fuel. induction Hs as [|[q r] es He Hs IH]; intros pre count fuel Hok Hc Hf.
  { destruct fuel; [lia|]. cbn [load_exchanges fmap list_fmap]. case_decide; [done|].
    rewrite decide_True; [done|]. rewrite length_app. cbn. lia. }
  apply Forall_cons in Hok as [[Hq Hr] Hok]. cbn [query response] in *. rewrite join_cons in Hf |- *.
  pose proof (exchange_short _ He) as E. destruct He as [H1 H2]. cbn [query response] in *.
  set (rest := mjoin (exchange_bytes <$> es)) in *. set (hq := to_le 2 (Z.of_nat (length q))) in *.
  set (hr := to_le 2 (Z.of_nat (length r))) in *.
  assert (Lq : length hq = 2%nat) by apply length_to_le. assert (Lr : length hr = 2%nat) by apply length_to_le.
  assert (El : length (exchange_bytes (mkExchange q r)) = (4 + length q + length r)%nat) by (rewrite E, !length_app; lia).
  rewrite length_app, El in Hf. destruct fuel as [|fuel]; [lia|]. cbn [load_exchanges length] in *. rewrite decide_False by lia.
  rewrite !length_app, El. rewrite decide_False by lia.
  assert (Hd : pre ++ exchange_bytes (mkExchange q r) ++ rest = pre ++ hq ++ hr ++ q ++ r ++ rest) by (rewrite E, <- !app_assoc; done).
  assert (W1 : word_at 2 (length pre) (pre ++ hq ++ hr ++ q ++ r ++ rest) = Ret (Z.of_nat (length q)))
    by (apply (word_mid pre [] (hr ++ q ++ r ++ rest)); cbn [length]; lia).
  assert (W2 : word_at 2 (length pre + 2) (pre ++ hq ++ hr ++ q ++ r ++ rest) = Ret (Z.of_nat (length r)))
    by (apply (word_mid pre hq (q ++ r ++ rest)); lia).
  rewrite Hd, W1. cbn [res_bind]. rewrite W2. cbn [res_bind]. rewrite !Nat2Z.id, decide_False by lia.
  rewrite (app_assoc hq hr). rewrite (slice_mid pre (hq ++ hr) q (r ++ rest)) by (rewrite ?length_app; lia). cbn [res_bind].
  rewrite (app_assoc (hq ++ hr) q). rewrite (slice_mid pre ((hq ++ hr) ++ q) r rest) by (rewrite ?length_app; lia). cbn [res_bind].
  rewrite (app_assoc _ r), (app_assoc pre).
  replace (length pre + 4 + length q + length r)%nat with (length (pre ++ ((hq ++ hr) ++ q) ++ r)) by (rewrite !length_app; lia).
  rewrite IH by (done || lia). cbn [res_bind]. by rewrite !lossy_valid.
Qed.

Definition conv_ok (m : ConvRing) : Prop :=
  Forall exchange_ok (history m) ∧ valid_text (summary m) ∧ Z.of_nat (length (history m)) < 4294967296 ∧
  Z.of_nat (length (summary m)) < 4294967296.

Lemma conv_load m d m0 :
  conv_ok m → save_lm_memory m = Some d →
  load_lm_memory d m0 = Ret (restore (filter short (history m)) (summary m) <$> m0).
Proof.
  intros (Hex & Hsum & Hn & Hs) E. unfold save_lm_memory in E.
  assert (d = to_le 4 (Z.of_nat (length (history m))) ++ to_le 4 (Z.of_nat (length (summary m))) ++ summary m ++
              mjoin (exchange_bytes <$> history m)) as -> by (destruct (history m); [done|congruence]).
  clear E. set (h1 := to_le 4 (Z.of_nat (length (history m)))). set (h2 := to_le 4 (Z.of_nat (length (summary m)))).
  assert (L1 : length h1 = 4%nat) by apply length_to_le. assert (L2 : length h2 = 4%nat) by apply length_to_le.
  rewrite exchanges_short. set (rest := mjoin (exchange_bytes <$> filter short (history m))).
  unfold load_lm_memory. rewrite !length_app, L1, L2. rewrite decide_False by lia.
  assert (W1 : word_at 4 0 (h1 ++ h2 ++ summary m ++ rest) = Ret (Z.of_nat (length (history m))))
    by (apply (word_mid [] [] (h2 ++ summary m ++ rest)); cbn [length]; lia).
  assert (W2 : word_at 4 4 (h1 ++ h2 ++ summary m ++ rest) = Ret (Z.of_nat (length (summary m))))
    by (apply (word_mid [] h1 (summary m ++ rest)); cbn [length]; lia).
  rewrite W1. cbn [res_bind]. rewrite W2. cbn [res_bind].
  rewrite Nat2Z.id.
  assert (Hsumm : (if decide (0 < length (summary m) ∧ 8 + length (summary m) ≤ 4 + (4 + (length (summary m) + length rest)))%nat
     then let! b := slice 8 (8 + length (summary m)) (h1 ++ h2 ++ summary m ++ rest) in
          Ret (utf8_lossy b, (8 + length (summary m))%nat) else Ret ([], 8%nat)) =
    Ret (summary m, (8 + length (summary m))%nat)).
  { case_decide as H.
    - assert (S1 : slice 8 (8 + length (summary m)) (h1 ++ h2 ++ summary m ++ rest) = Ret (summary m)).
      { rewrite (app_assoc h1). apply (slice_mid [] (h1 ++ h2) (summary m) rest); cbn [length]; rewrite ?length_app; lia. }
      rewrite S1. cbn [res_bind]. by rewrite lossy_valid.
    - assert (Hz : length (summary m) = 0%nat) by lia. apply nil_length_inv in Hz. by rewrite Hz. }
  rewrite Hsumm. cbn [res_bind]. rewrite (app_assoc h1), (app_assoc (h1 ++ h2)).
  replace (8 + length (summary m))%nat with (length ((h1 ++ h2) ++ summary m)) by (rewrite !length_app; lia).
  unfold rest at 2. rewrite load_exchanges_spec; [done| | | |].
  - apply Forall_forall. intros e He. by apply list_elem_of_filter in He as [? _].
  - apply Forall_forall. intros e He. apply list_elem_of_filter in He as [_ He]. by eapply Forall_forall in Hex.
  - pose proof (length_filter short (history m)). lia.
  - fold rest. lia.
Qed.
End memory.

(** ** The state file *)

Section state_file.
Import Persist.
Context {W : Type} (export_weights export_arc export_learner : W → option (list Z))
        (load_weights import_arc import_learner : list Z → W → W).
#[local] Abbreviation sections' := (sections export_weights export_arc export_learner).
#[local] Abbreviation load_section' := (load_section load_weights import_arc import_learner).
#[local] Abbreviation load_sections' := (load_sections load_weights import_arc import_learner).
#[local] Abbreviation load_state' := (load_state load_weights import_arc import_learner).

Fixpoint load_all (ss : list (Z * list Z)) (l : Live W) : res (Live W) :=
  match ss with [] => Ret l | (tag, d) :: ss' => let! l := load_section' tag d l in load_all ss' l end.
Definition section_ok (s : Z * list Z) : Prop := 0 ≤ s.1 < 4294967296 ∧ Z.of_nat (length s.2) < 4294967296.

Lemma load_sections_spec ss pre fuel l :
  Forall section_ok ss → (length (mjoin (section_bytes <$> ss)) < fuel)%nat →
  load_sections' fuel (Z.of_nat (length ss)) (pre ++ mjoin (section_bytes <$> ss)) (length pre) l = load_all ss l.
Proof.
  intros Hs. revert pre fuel l. induction Hs as [|[tag d] ss [Ht Hd] Hs IH]; intros pre fuel l Hf; [by destruct fuel|].
  rewrite join_cons in Hf |- *. cbn [fst snd] in *. set (rest := mjoin (section_bytes <$> ss)) in *.
  set (ht := to_le 4 tag). set (hl := to_le 4 (Z.of_nat (length d))).
  assert (Lt : length ht = 4%nat) by apply length_to_le. assert (Ll : length hl = 4%nat) by apply length_to_le.
  assert (Eb : section_bytes (tag, d) = ht ++ hl ++ d) by done.
  assert (El : length (section_bytes (tag, d)) = (8 + length d)%nat) by (rewrite Eb, !length_app; lia).
  rewrite length_app, El in Hf. destruct fuel as [|fuel]; [lia|]. cbn [load_sections load_all length] in *. rewrite decide_False by lia.
  rewrite !length_app, El. rewrite decide_False by lia.
  assert (Hx : pre ++ section_bytes (tag, d) ++ rest = pre ++ ht ++ hl ++ d ++ rest) by (rewrite Eb, <- !app_assoc; done).
  assert (W1 : word_at 4 (length pre) (pre ++ ht ++ hl ++ d ++ rest) = Ret tag)
    by (apply (word_mid pre [] (hl ++ d ++ rest)); cbn [length]; lia).
  assert (W2 : word_at 4 (length pre + 4) (pre ++ ht ++ hl ++ d ++ rest) = Ret (Z.of_nat (length d)))
    by (apply (word_mid pre ht (d ++ rest)); lia).
  rewrite Hx, W1. cbn [res_bind]. rewrite W2. cbn [res_bind]. rewrite Nat2Z.id, decide_False by lia.
  rewrite (app_assoc ht hl). rewrite (slice_mid pre (ht ++ hl) d rest) by (rewrite ?length_app; lia). cbn [res_bind].
  destruct (load_section' tag d l) as [l'| |]; cbn [res_bind]; [|done..].
  rewrite (app_assoc _ d), (app_assoc pre).
  replace (length pre + 8 + length d)%nat with (length (pre ++ (ht ++ hl) ++ d)) by (rewrite !length_app; lia).
  replace (Z.of_nat (S (length ss)) - 1) with (Z.of_nat (length ss)) by lia.
  apply IH. lia.
Qed.

Lemma load_state_spec ss l :
  Forall section_ok ss → Z.of_nat (length ss) < 4294967296 →
  load_state' (state_bytes ss) l = let! l := load_all ss l in Ret (set_flags true (DIRTY l) l).
Proof.
  intros Hs Hn. unfold load_state, state_bytes. set (h := to_le 4 (Z.of_nat (length ss))).
  assert (Lh : length h = 4%nat) by apply length_to_le. set (rest := mjoin (section_bytes <$> ss)).
  assert (LM : length MAGIC = 4%nat) by done.
  rewrite !length_app, Lh, LM. rewrite decide_False by lia.
  assert (S1 : slice 0 4 (MAGIC ++ h ++ rest) = Ret MAGIC) by (by apply (slice_mid [] [] MAGIC (h ++ rest))).
  assert (W1 : word_at 4 4 (MAGIC ++ h ++ rest) = Ret (Z.of_nat (length ss))) by (apply (word_mid [] MAGIC rest); cbn [length]; lia).
  rewrite S1. cbn [res_bind]. rewrite decide_False by (intros H; by apply H). rewrite W1. cbn [res_bind].
  rewrite (app_assoc MAGIC). replace 8%nat with (length (MAGIC ++ h)) by (rewrite length_app; lia).
  unfold rest. rewrite load_sections_spec; [done|done|]. fold rest. lia.
Qed.

(** A model with the exported data imported, if there was any. *)
Definition imported (f : list Z → W → W) (o : option (list Z)) (w : W) : W := match o with Some d => f d w | None => w end.

(** What a subsystem can be in: valid text, values the machine can hold, sections the
    format can count. *)
Record live_ok (l : Live W) : Prop := {
  lo_conv : ∀ m, conv l = Some m → conv_ok m;
  lo_total : 0 ≤ qualia_total l < 2 ^ 64;
  lo_phi : f32_valid (phi l) ∧ set_phi (phi l) = phi l ∧ f32_valid (peak l);
  lo_sizes : Forall section_ok (sections' l)
}.

(** What the conversation memory becomes: nothing is stored when it is empty, and
    exchanges too long for the format are left out. *)
Definition conv_loaded (saved now : option ConvRing) : option ConvRing :=
  match saved with
  | Some m => match history m with [] => now | h => restore (filter short h) (summary m) <$> now end
  | None => now
  end.

Lemma load_all_app a b l : load_all (a ++ b) l = let! l := load_all a l in load_all b l.
Proof.
  revert l. induction a as [|[tag d] a IH]; intros l; [done|]. cbn [load_all app].
  destruct (load_section' tag d l); cbn [res_bind]; [apply IH|done..].
Qed.
Lemma load_conv_section (l l0 : Live W) :
  live_ok l →
  load_all (match conv l ≫= save_lm_memory with Some d => [(TAG_LM_MEMORY, d)] | None => [] end) l0 =
  Ret (set_conv (conv_loaded (conv l) (conv l0)) l0).
Proof.
  intros Hl. unfold conv_loaded. destruct (conv l) as [m|] eqn:E; [|by destruct l0].
  cbn [mbind option_bind]. pose proof (conv_load m) as Hc. unfold save_lm_memory in Hc |- *.
  destruct (history m) as [|e h] eqn:Eh; [by destruct l0|].
  cbn [load_all]. unfold load_section. rewrite decide_True by done.
  rewrite (Hc _ (conv l0) (lo_conv l Hl m E) eq_refl). done.
Qed.
Lemma load_word d (n : nat) x : d = to_le n x → 0 ≤ x < 256 ^ Z.of_nat n → word_at n 0 d = Ret x.
Proof. intros -> H. pose proof (word_mid [] [] [] n 0 x eq_refl H) as E. cbn [app] in E. by rewrite app_nil_r in E. Qed.
Lemma load_model tag f o (l0 : Live W) :
  (∀ d l, load_section' tag d l = Ret (set_models (f d (models l)) l)) →
  load_all (match o with Some d => [(tag, d)] | None => [] end) l0 = Ret (set_models (imported f o (models l0)) l0).
Proof. intros H. destruct o as [d|]; cbn [load_all]; [by rewrite H|by destruct l0]. Qed.
Lemma load_total (l l0 : Live W) : live_ok l →
  load_section' TAG_QUALIA_COUNT (to_le 8 (qualia_total l)) l0 = Ret (set_total (qualia_total l) l0).
Proof.
  intros Hl. unfold load_section. rewrite !decide_False by done. rewrite decide_True by done.
  rewrite length_to_le, decide_False by lia. rewrite (load_word _ 8 (qualia_total l)); [done|done|apply (lo_total l Hl)].
Qed.
Lemma load_phis (l l0 : Live W) : live_ok l →
  load_section' TAG_PHI_STATE (to_le 4 (f32_bits (phi l)) ++ to_le 4 (f32_bits (peak l))) l0 = Ret (set_phis (phi l) (peak l) l0).
Proof.
  intros Hl. destruct (lo_phi l Hl) as (H1 & H2 & H3). unfold load_section. rewrite !decide_False by done.
  rewrite decide_True by done. rewrite length_app, !length_to_le. rewrite decide_False by lia.
  set (x := f32_bits (phi l)). set (y := f32_bits (peak l)).
  assert (W1 : word_at 4 0 (to_le 4 x ++ to_le 4 y) = Ret x) by (apply (word_mid [] [] (to_le 4 y)); [done|by apply f32_bits_range]).
  assert (W2 : word_at 4 4 (to_le 4 x ++ to_le 4 y) = Ret y).
  { rewrite <- (app_nil_r (to_le 4 y)). apply (word_mid [] (to_le 4 x) []); [by rewrite length_to_le|by apply f32_bits_range]. }
  rewrite W1. cbn [res_bind]. rewrite W2. cbn [res_bind]. unfold x, y. by rewrite !f32_bits_roundtrip, H2.
Qed.

(** C33. The state survives a restart: from the file [save] writes, [init] restores the
    conversation with its summary, the count of qualia and both metrics exactly, and
    hands each learned part the data it exported. Exchanges longer than 65535 bytes
    are left out. *)
Theorem state_roundtrip l l0 :
  live_ok l →
  load_state' (state_bytes (sections' l)) l0 =
  Ret (mkLive (conv_loaded (conv l) (conv l0)) (qualia_total l) (phi l) (peak l) 0
         (imported import_learner (export_learner (models l))
           (imported import_arc (export_arc (models l)) (imported load_weights (export_weights (models l)) (models l0))))
         true (DIRTY l0)).
Proof.
  intros Hl. rewrite load_state_spec; [|apply (lo_sizes l Hl)|].
  2: { unfold sections. rewrite !length_app. repeat case_match; cbn; lia. }
  unfold sections. rewrite load_all_app, load_conv_section by done. cbn [res_bind]. rewrite load_all_app.
  rewrite (load_model TAG_NANO_NN load_weights) by done. cbn [res_bind]. rewrite load_all_app.
  rewrite (load_model TAG_EMOTIONAL_ARC import_arc) by done. cbn [res_bind]. rewrite load_all_app.
  rewrite (load_model TAG_LM_LEARNER import_learner) by done. cbn [res_bind load_all app].
  rewrite load_total by done. cbn [res_bind]. rewrite load_phis by done. done.
Qed.
End state_file.

(** ** Concrete instances *)

Definition demo_pkg : Packages.Pkg BuddyAllocator := Packages.mkPkg (Packages.mkPkgs ∅ []) true (mkVfs demo_fs cold_cache).
Definition demo_entries : list (list Z * list Z) := [([47; 97], [1]); ([47; 98], [2; 3])].
Lemma archive_installed_witness :
  Packages.extract_and_install root_creds [120] (take 20 (archive demo_entries)) demo_pkg =
  install_entries root_creds [120] [([47; 97], [1])] demo_pkg.
Proof.
  destruct (archive_installed root_creds [120] demo_entries 20 demo_pkg) as [H _];
    [repeat constructor; cbn; lia|cbn; lia|exact H].
Defined.
Lemma cut_archive_accepted :
  ∃ p', Packages.extract_and_install root_creds [120] (take 20 (archive demo_entries)) demo_pkg = Ret (true, p').
Proof. eexists. vm_compute. reflexivity. Qed.

Definition demo_db : gmap (list Z) Packages.Package :=
  {[ text "vim" := Packages.mkPackage (text "vim") (text "1.0.0") (text "Installed package") true ]}.
Lemma demo_db_ok : db_ok demo_db.
Proof.
  apply map_Forall_singleton. split; [done|]. split; cbn.
  - by eexists _, _.
  - exists (text "Installed packag"), 101. done.
  - split; apply (bool_decide_unpack _); by vm_compute.
  - split_and!; apply (bool_decide_unpack _); by vm_compute.
  - unfold scalar. split_and!; repeat constructor; lia.
  - done.
Qed.
Lemma package_db_roundtrip_witness :
  Packages.parse_db (utf8_bytes (Packages.db_text demo_db)) (Packages.mkPkgs ∅ []) = Packages.mkPkgs demo_db [].
Proof. apply (package_db_roundtrip demo_db (Packages.mkPkgs ∅ [])). apply demo_db_ok. Defined.

Definition demo_conv : Persist.ConvRing := Persist.mkConv [Persist.mkExchange (text "hi") (text "hello")] (text "...") 1.
(** One learned part whose data is a list of bytes. *)
Definition demo_running : Persist.Live (list Z) := Persist.mkLive (Some demo_conv) 7 f1 f1 3 [1; 2] true true.
Definition empty_live : Persist.Live (list Z) := Persist.mkLive (Some Persist.conv_new) 0 f0 f0 0 [] false false.
Definition none_exported (_ : list Z) : option (list Z) := None.
Definition nothing_loaded (_ w : list Z) : list Z := w.
Lemma demo_running_ok : live_ok Some none_exported none_exported demo_running.
Proof.
  split; cbn.
  - intros m [= <-]. split_and!; [|by vm_compute|done|done]. repeat constructor; by vm_compute.
  - lia.
  - split_and!; [|reflexivity|]; cbn; lia.
  - unfold section_ok. apply (bool_decide_unpack _). by vm_compute.
Qed.
Lemma state_roundtrip_witness :
  Persist.load_state (λ d _, d) nothing_loaded nothing_loaded
    (Persist.state_bytes (Persist.sections Some none_exported none_exported demo_running)) empty_live =
  Ret (Persist.mkLive (Some (Persist.mkConv [Persist.mkExchange (text "hi") (text "hello")] (text "...") 0)) 7 f1 f1 0 [1; 2] true false).
Proof.
  rewrite (state_roundtrip Some none_exported none_exported (λ d _, d) nothing_loaded nothing_loaded demo_running empty_live demo_running_ok).
  reflexivity.
Defined.

(** A file with a bad header switches saving off for good. *)
Lemma bad_header_stops_saving {W} (e1 e2 e3 : W → option (list Z)) (i1 i2 i3 : list Z → W → W) data l :
  Persist.STATE_LOADED l = false → (length data < 8)%nat ∨ take 4 data ≠ Persist.MAGIC →
  Persist.load_state i1 i2 i3 data l = Ret l ∧
  ∀ c now self (s : VfsState BuddyAllocator), Persist.persist_save e1 e2 e3 c now self l s = Ret (self, l, s).
Proof.
  intros Hl Hd. split; [|intros; unfold Persist.persist_save; by rewrite Hl]. unfold Persist.load_state. case_decide as H8; [done|].
  destruct Hd as [Hd|Hd]; [lia|]. rewrite slice_ok by lia. cbn [res_bind]. by rewrite decide_True.
Qed.

(** Cutting the summary inside a character panics. *)
Definition demo_summary : list Z := mjoin (replicate 70 [0xE2; 0x82; 0xAC]).
Lemma summary_cut_panics : Persist.summarize (Persist.mkExchange (text "hi") (text "hello")) demo_summary = Panic.
Proof. by vm_compute. Qed.
