(* ===== verification/Debugger.v ===== *)
(** The kernel debugger, [kernel/src/kadb.rs]: hardware breakpoints in the debug
    registers and software breakpoints patched into code. Messages are the addresses
    they print. *)
From stdpp Require Import base numbers relations functions list gmap.
From S2P Require Import Prelude.

Inductive BpCondition := Execute | Write | ReadWrite.
Inductive BpSize := Byte | Word | Qword | Dword.
Definition size_bits (s : BpSize) : Z := match s with Byte => 0 | Word => 1 | Qword => 2 | Dword => 3 end.
Definition cond_bits (c : BpCondition) : Z := match c with Execute => 0 | Write => 1 | ReadWrite => 3 end.

Record SoftBreakpoint := mkBp { addr : Z; saved_byte : Z; enabled : bool }.
Record Kadb := mkKadb {
  soft_bps : list SoftBreakpoint; hit_log : list Z; single_step : bool; ENABLED : bool;
  dr : list Z; dr7 : Z; code : Z → Z
}.
Definition set_regs (r : list Z) (c : Z) (k : Kadb) : Kadb :=
  mkKadb (soft_bps k) (hit_log k) (single_step k) (ENABLED k) r c (code k).
Definition set_soft (l : list SoftBreakpoint) (m : Z → Z) (k : Kadb) : Kadb :=
  mkKadb l (hit_log k) (single_step k) (ENABLED k) (dr k) (dr7 k) m.
Definition log_hit (rip : Z) (k : Kadb) : Kadb :=
  mkKadb (soft_bps k) (hit_log k ++ [rip]) (single_step k) (ENABLED k) (dr k) (dr7 k) (code k).

(** [write_dr] and [read_dr] ignore other numbers. *)
Definition write_dr (n : Z) (a : Z) (l : list Z) : list Z := if decide (n ≤ 3) then <[Z.to_nat n := a]> l else l.
Definition read_dr (n : Z) (l : list Z) : Z := if decide (n ≤ 3) then l !!! Z.to_nat n else 0.

Definition kadb_init (k : Kadb) : Kadb :=
  mkKadb (soft_bps k) (hit_log k) (single_step k) true (write_dr 3 0 (write_dr 2 0 (write_dr 1 0 (write_dr 0 0 (dr k))))) 0 (code k).

(** The control word with the fields of slot [n] cleared. *)
Definition clear_slot (n : Z) (d : Z) : Z :=
  let d := Z.land d (not64 (Z.shiftl 0xF (16 + n * 4))) in
  Z.land d (not64 (Z.shiftl 0x3 (n * 2))).
Definition set_slot (n : Z) (cond : BpCondition) (size : BpSize) (d : Z) : Z :=
  let d := Z.lor (clear_slot n d) (Z.shiftl (Z.lor (cond_bits cond) (Z.shiftl (size_bits size) 2)) (16 + n * 4)) in
  Z.lor d (Z.shiftl 1 (n * 2)).

Definition set_hw_breakpoint (n a : Z) (cond : BpCondition) (size : BpSize) (k : Kadb) : bool * Kadb :=
  if decide (3 < n) then (false, k) else (true, set_regs (write_dr n a (dr k)) (set_slot n cond size (dr7 k)) k).
Definition clear_hw_breakpoint (n : Z) (k : Kadb) : Kadb :=
  if decide (3 < n) then k else set_regs (write_dr n 0 (dr k)) (clear_slot n (dr7 k)) k.

Definition INT3 : Z := 0xCC.
Definition set_sw_breakpoint (a : Z) (k : Kadb) : Kadb :=
  set_soft (soft_bps k ++ [mkBp a (code k a) true]) (<[a := INT3]> (code k)) k.
Definition clear_sw_breakpoint (a : Z) (k : Kadb) : Kadb :=
  match list_find (λ b, addr b = a) (soft_bps k) with
  | Some (i, bp) => set_soft (delete i (soft_bps k)) (<[addr bp := saved_byte bp]> (code k)) k
  | None => k
  end.

Definition handle_debug_exception (rip : Z) (k : Kadb) : bool * Kadb :=
  if ENABLED k then (true, log_hit rip k) else (false, k).
Definition handle_int3 (rip : Z) (k : Kadb) : bool * Kadb :=
  if ENABLED k then (true, log_hit rip k) else (false, k).
Definition hw_breakpoints (k : Kadb) : list Z := [read_dr 0 (dr k); read_dr 1 (dr k); read_dr 2 (dr k); read_dr 3 (dr k)].

(** * Theorems *)

(** ** Hardware breakpoints *)

Lemma shifted_ones w k i : 0 ≤ w → 0 ≤ k → 0 ≤ i → Z.testbit (Z.shiftl (Z.ones w) k) i = bool_decide (k ≤ i < k + w).
Proof.
  intros Hw Hk Hi. rewrite Z.shiftl_spec by lia. destruct (decide (k ≤ i)).
  - rewrite Z.testbit_ones_nonneg by lia. destruct (Z.ltb_spec (i - k) w); symmetry;
      [apply bool_decide_eq_true_2|apply bool_decide_eq_false_2]; lia.
  - rewrite Z.testbit_neg_r by lia. symmetry. apply bool_decide_eq_false_2. lia.
Qed.
Lemma clear_slot_bits n d i :
  0 ≤ n ≤ 3 → 0 ≤ i < 64 →
  Z.testbit (clear_slot n d) i =
  if decide (16 + n * 4 ≤ i < 20 + n * 4 ∨ n * 2 ≤ i < n * 2 + 2) then false else Z.testbit d i.
Proof.
  intros Hn Hi. unfold clear_slot. rewrite !Z.land_spec, !not64_spec, !(decide_True (P := i < 64)) by lia.
  change 0xF with (Z.ones 4). change 0x3 with (Z.ones 2). rewrite !shifted_ones by lia.
  repeat case_bool_decide; case_decide; cbn [negb]; rewrite ?andb_false_r, ?andb_true_r; (done || lia).
Qed.
Lemma field_bits c s : 0 ≤ Z.lor (cond_bits c) (Z.shiftl (size_bits s) 2) < 16.
Proof. destruct c, s; split; by vm_compute. Qed.

Lemma set_slot_bits n c s d i :
  0 ≤ n ≤ 3 → 0 ≤ i < 64 →
  Z.testbit (set_slot n c s d) i =
  if decide (16 + n * 4 ≤ i < 20 + n * 4) then Z.testbit (Z.lor (cond_bits c) (Z.shiftl (size_bits s) 2)) (i - (16 + n * 4))
  else if decide (n * 2 ≤ i < n * 2 + 2) then bool_decide (i = n * 2) else Z.testbit d i.
Proof.
  intros Hn Hi. unfold set_slot. pose proof (field_bits c s) as Hf.
  set (f := Z.lor (cond_bits c) (Z.shiftl (size_bits s) 2)) in *. clearbody f.
  rewrite !Z.lor_spec, clear_slot_bits, (Z.shiftl_spec f) by lia. change 1 with (Z.ones 1). rewrite shifted_ones by lia.
  destruct (decide (16 + n * 4 ≤ i < 20 + n * 4)) as [H|H].
  { rewrite decide_True by lia. rewrite bool_decide_eq_false_2 by lia. by rewrite orb_false_r. }
  assert (Hz : Z.testbit f (i - (16 + n * 4)) = false).
  { destruct (decide (i < 16 + n * 4)); [apply Z.testbit_neg_r; lia|].
    destruct (decide (f = 0)) as [->|]; [apply Z.testbit_0_l|]. apply Z.bits_above_log2; [lia|].
    apply Z.log2_lt_pow2; [lia|]. apply Z.lt_le_trans with (2 ^ 4); [lia|]. apply Z.pow_le_mono_r; lia. }
  rewrite Hz, orb_false_r. destruct (decide (n * 2 ≤ i < n * 2 + 2)).
  - rewrite decide_True by lia. cbn [orb]. apply bool_decide_ext. lia.
  - rewrite decide_False by lia. rewrite bool_decide_eq_false_2 by lia. by rewrite orb_false_r.
Qed.

(** Hardware breakpoints. Setting slot [n] puts the address in its register and, in
    the control word, the condition and size in the four bits of the slot, enables it
    locally and not globally, and leaves the registers and fields of the other slots
    alone; clearing it undoes this for the slot only. Other slot numbers do nothing. *)
Theorem hw_breakpoint_correct n a c s k :
  0 ≤ n → length (dr k) = 4%nat →
  if decide (n ≤ 3) then
    (set_hw_breakpoint n a c s k).1 = true ∧
    let k' := (set_hw_breakpoint n a c s k).2 in
    (∀ j, 0 ≤ j ≤ 3 → read_dr j (dr k') = if decide (j = n) then a else read_dr j (dr k)) ∧
    Z.testbit (dr7 k') (n * 2) = true ∧ Z.testbit (dr7 k') (n * 2 + 1) = false ∧
    (∀ i, 0 ≤ i < 4 → Z.testbit (dr7 k') (16 + n * 4 + i) = Z.testbit (cond_bits c + 4 * size_bits s) i) ∧
    (∀ i, 0 ≤ i < 64 → ¬ (16 + n * 4 ≤ i < 20 + n * 4) → ¬ (n * 2 ≤ i < n * 2 + 2) →
      Z.testbit (dr7 k') i = Z.testbit (dr7 k) i ∧ Z.testbit (dr7 (clear_hw_breakpoint n k')) i = Z.testbit (dr7 k) i) ∧
    Z.testbit (dr7 (clear_hw_breakpoint n k')) (n * 2) = false
  else set_hw_breakpoint n a c s k = (false, k) ∧ clear_hw_breakpoint n k = k.
Proof.
  intros Hn Hl. unfold set_hw_breakpoint, clear_hw_breakpoint. case_decide as H3; [rewrite !decide_False by lia|by rewrite !decide_True by lia].
  cbn [fst snd set_regs dr dr7].
  assert (Hf : Z.lor (cond_bits c) (Z.shiftl (size_bits s) 2) = cond_bits c + 4 * size_bits s) by (destruct c, s; reflexivity).
  split; [done|]. split_and!.
  - intros j Hj. unfold read_dr, write_dr. rewrite !(decide_True (P := j ≤ 3)), (decide_True (P := n ≤ 3)) by lia. case_decide as E; [subst j|].
    + rewrite list_lookup_total_insert_eq; [done|]. lia.
    + rewrite list_lookup_total_insert_ne; [done|]. lia.
  - rewrite set_slot_bits by lia. rewrite decide_False, decide_True by lia. by apply bool_decide_eq_true_2.
  - rewrite set_slot_bits by lia. rewrite decide_False, decide_True by lia. apply bool_decide_eq_false_2. lia.
  - intros i Hi. rewrite set_slot_bits by lia. rewrite decide_True by lia. rewrite Hf. f_equal. lia.
  - intros i Hi H1 H2. rewrite clear_slot_bits, set_slot_bits by lia. rewrite !decide_False by lia. done.
  - rewrite clear_slot_bits by lia. by rewrite decide_True by lia.
Qed.

(** ** Software breakpoints *)

(** Breakpoints are set where there is none and cleared anywhere. *)
Inductive bp_step : Kadb → Kadb → Prop :=
  | bp_set a k : a ∉ addr <$> soft_bps k → bp_step k (set_sw_breakpoint a k)
  | bp_clear a k : bp_step k (clear_sw_breakpoint a k)
  | bp_hit rip k : bp_step k (handle_int3 rip k).2.

(** The code is [text] except where a breakpoint is. *)
Record patched (text : Z → Z) (k : Kadb) : Prop := {
  pa_code a : code k a = if decide (a ∈ addr <$> soft_bps k) then INT3 else text a;
  pa_saved b : b ∈ soft_bps k → saved_byte b = text (addr b);
  pa_once : NoDup (addr <$> soft_bps k)
}.

Lemma set_patched text a k : patched text k → a ∉ addr <$> soft_bps k → patched text (set_sw_breakpoint a k).
Proof.
  intros [Hc Hs Hn] Ha. split; cbn [soft_bps code set_sw_breakpoint set_soft].
  - intros x. rewrite fmap_app. cbn. destruct (decide (x = a)) as [->|Hx].
    + rewrite fn_lookup_insert. rewrite decide_True; [done|]. apply elem_of_app. right. by apply list_elem_of_singleton.
    + rewrite fn_lookup_insert_ne by done. rewrite Hc. apply decide_ext. rewrite elem_of_app, list_elem_of_singleton. naive_solver.
  - intros b Hb. apply elem_of_app in Hb as [Hb|Hb]; [by apply Hs|]. apply list_elem_of_singleton in Hb as ->. cbn.
    rewrite Hc. by rewrite decide_False.
  - rewrite fmap_app. apply NoDup_app. cbn. split_and!; [done| |apply NoDup_singleton]. intros x Hx ->%list_elem_of_singleton. done.
Qed.
Lemma clear_patched text a k : patched text k → patched text (clear_sw_breakpoint a k).
Proof.
  intros [Hc Hs Hn]. unfold clear_sw_breakpoint. destruct (list_find _ _) as [[i b]|] eqn:F; [|by split].
  apply list_find_Some in F as (Hi & Ea & _). subst a. pose proof (delete_Permutation (soft_bps k) i b Hi) as P.
  set (rest := delete i (soft_bps k)) in *. clearbody rest.
  assert (Hn' : NoDup (addr b :: (addr <$> rest))) by (change (NoDup (addr <$> (b :: rest))); by rewrite <- P).
  apply NoDup_cons in Hn' as [Hb Hn']. split; cbn [soft_bps code set_soft].
  - intros x. destruct (decide (x = addr b)) as [->|Hx].
    + rewrite fn_lookup_insert, decide_False by done. apply Hs. by eapply list_elem_of_lookup_2.
    + rewrite fn_lookup_insert_ne by done. rewrite Hc. apply decide_ext. rewrite P, fmap_cons, elem_of_cons. naive_solver.
  - intros x Hx. apply Hs. rewrite P. by apply elem_of_cons; right.
  - done.
Qed.

(** Software breakpoints leave no trace. Over any run of setting breakpoints where
    there is none, clearing them and hitting them, the code is the original everywhere
    but at the breakpoints, and once they are cleared it is the original. *)
Theorem sw_breakpoints_restore k0 k :
  soft_bps k0 = [] → rtc bp_step k0 k →
  (∀ a, a ∉ addr <$> soft_bps k → code k a = code k0 a) ∧ (soft_bps k = [] → ∀ a, code k a = code k0 a).
Proof.
  intros H0 Hr. assert (Hp : patched (code k0) k).
  { assert (Hinit : patched (code k0) k0) by (split; rewrite ?H0; [done|by intros b ?%elem_of_nil|constructor]).
    revert Hinit. generalize (code k0) as text. clear H0. induction Hr as [k|k1 k2 k3 Hs _ IH]; intros text Hk; [done|].
    apply IH. destruct Hs as [a k Ha|a k|rip k]; [by apply set_patched|by apply clear_patched|].
    unfold handle_int3. destruct (ENABLED k); [|done]. destruct Hk. by split. }
  split.
  - intros a Ha. rewrite (pa_code _ _ Hp). by rewrite decide_False.
  - intros E a. rewrite (pa_code _ _ Hp), E. done.
Qed.

(** Set twice and cleared twice, a breakpoint stays in the code for good. *)
Lemma sw_breakpoint_twice a k :
  soft_bps k = [] →
  let k' := clear_sw_breakpoint a (clear_sw_breakpoint a (set_sw_breakpoint a (set_sw_breakpoint a k))) in
  soft_bps k' = [] ∧ code k' a = INT3.
Proof.
  intros H. unfold clear_sw_breakpoint, set_sw_breakpoint. cbn [soft_bps set_soft]. rewrite H.
  cbn [app list_find addr]. rewrite decide_True by done. cbn [soft_bps set_soft delete list_delete list_find addr].
  rewrite decide_True by done. cbn [soft_bps set_soft code addr saved_byte delete list_delete].
  split; [done|]. by rewrite !fn_lookup_insert.
Qed.

(** ** Concrete instances *)

Definition demo_kadb : Kadb := kadb_init (mkKadb [] [] false false [1; 2; 3; 4] 0 (λ a, a mod 256)).
Lemma hw_breakpoint_correct_witness :
  let k := (set_hw_breakpoint 1 0xF000 Write Qword demo_kadb).2 in
  read_dr 1 (dr k) = 0xF000 ∧ Z.testbit (dr7 k) 2 = true ∧ dr7 k = 0x900004.
Proof.
  destruct (hw_breakpoint_correct 1 0xF000 Write Qword demo_kadb) as (_ & H1 & H2 & _); [lia|reflexivity|].
  split; [exact (H1 1 ltac:(lia))|]. split; [exact H2|reflexivity].
Defined.
Lemma sw_breakpoints_restore_witness :
  let k := clear_sw_breakpoint 300 (set_sw_breakpoint 300 demo_kadb) in code k 300 = 44.
Proof.
  apply (sw_breakpoints_restore demo_kadb (clear_sw_breakpoint 300 (set_sw_breakpoint 300 demo_kadb)) eq_refl); [|reflexivity].
  eapply rtc_l; [apply bp_set; by apply not_elem_of_nil|]. eapply rtc_l; [apply bp_clear|apply rtc_refl].
Defined.
